(* ===== verification/_CoqProject ===== *)
-Q . S2P
Prelude.v
Hlib.v
MemLayout.v
Alloc.v
Frame.v
Kpool.v
Upage.v
AddressSpace.v
SysMm.v
SysMmSpec.v
Mbuffer.v
Requests.v
Active.v
ActiveSpec.v
ActivePorts.v
ActiveInit.v
Facility.v
Mailbox.v
Portal.v
Communicator.v
CommSpec.v
Vmailbox.v
VmailboxSpec.v
Vportal.v
VportalSpec.v
ThreadBase.v
Cond.v
CondSpec.v
Thread.v
ThreadSpec.v
ThreadOps.v
Sleep.v
SleepSpec.v
ThreadSteps.v
Scheduler.v
SysThread.v
SingleThread.v
SingleSpec.v
SingleSteps.v
Stacks.v
KernelPool.v
Exception.v
ExceptionSpec.v
Signal.v
Console.v
Syscall.v
SyscallSpec.v
Sync.v
SyncSpec.v
SysNoc.v
SysNocSpec.v
Bytes.v
Pci.v
Rtl8139.v
Ethoc.v
LwipString.v
Chksum.v
Ip4Addr.v
LwipMem.v
LwipMemSpec.v
LwipHeap.v
NicIf.v
LwipTimers.v
LwipTimersSpec.v
LwipPbuf.v
LwipPbufSpec.v
LwipPbufOps.v
LwipPbufData.v
LwipPbufAlloc.v
NicInput.v
MailboxExamples.v
PortalExamples.v
SyncExamples.v
SchedulerExamples.v
SingleExamples.v
SysExamples.v
KernelPoolExamples.v
LwipPbufExamples.v
NicInputExamples.v
