(* ===== verification/Prelude.v ===== *)
(** * Verification of the Nanvix microkernel

    A verification library for the kernel of this repository: the memory manager, the
    threads and their synchronization, the communication over the network-on-chip, the
    handling of exceptions and signals, the kernel calls, the drivers of network cards
    and the parts of the TCP/IP stack on which the rest of it stands.  Paths are relative
    to the root of the repository; the kernel is in src/kernel and its headers are in
    include/nanvix/kernel, the drivers are in src/kernel/dev and the stack is in src/lwip.

    ** The program

    The kernel runs on the cores of one cluster of a manycore processor.  The master core
    boots the kernel and then serves kernel calls; the other cores run user threads.  A
    kernel call (sys/) is either run by the core that makes it or posted to a board from
    which the master core takes it.  The calls check what the user passes and enter one
    of the components:
    - mm/: page frames, a pool of kernel pages, and user pages, which are mapped by page
      tables held in pages of the pool;
    - pm/: threads, scheduled from one queue, with condition variables and semaphores,
      exceptions that a user-space handler serves, and signals;
    - noc/: virtual mailboxes and portals, which are communicators over the ports of
      actives, the endpoints that share the hardware; and synchronization points.
    The drivers of two network cards (dev/net/), one of which is found on the PCI bus
    (dev/bus/), hand frames to a TCP/IP stack (src/lwip) that is linked into the kernel;
    the stack takes its buffers from a heap of its own and checks sums and addresses.
    The hardware abstraction layer and its support library are not in the repository.

    ** How programs are modelled

    A routine is a function [K S A] from the state [S] of its component to an
    [outcome]: a result and a new state, a panic, undefined behaviour of C, or a hang.
    The state of a component is a record with the variables of its files; a table is a
    list that is read and written by index, and an index out of range is [Fault].
    Integers are [Z]; where the code depends on their width, the wrap-around is written
    out ([u64], [u32], [to_vaddr], [to_int], [to_word]).  A pointer to an element of a
    table is its index.  Constants have the names of the macros that they translate.
    [wp m Q s] says that [m] returns from [s] and that [Q] holds of the result and the new
    state, so every theorem about [wp] includes that no assertion fails, no array is
    accessed out of range, and the routine terminates.  Loops are
    [kfor], with the bound of the code, or structural recursion; fuel is nowhere a guess:
    it is the bound of the loop (the number of entries of a table, [CORES_NUM], the
    number of attempts), and running out of it is the exit of the loop.  Where the code
    bounds a loop or a recursion by nothing, running out of fuel is a hang, and a theorem
    says how much fuel is enough: the depth of the tree of PCI bridges, one round for each
    packet that the card has received, one round for each block of the heap, two rounds for
    each timeout of the TCP/IP stack, one round for each buffer of a packet.

    Concurrency is a step relation whose steps are the parts of the routines between the
    points where they block or release a lock; invariants are proved by induction on the
    steps.  A routine that would block is not enabled.

    What is not in the repository is a parameter: a class of operations and constants
    and a class of laws with what the kernel relies on.  They are [Hlib] (support
    library, error codes, resources, locks), [MemLayout], [Bitmap], [Mmu] (page-table
    entries and the TLB), [CoreHw] (cores and contexts), [NocHw], [NocTopology],
    [MailboxHw], [PortalHw], [SyncHw], [ResourcePool], [Abi] and [UserAbi] (how values
    are laid out in memory), [ExcpHw], [SignalHw], [ConsoleHw], [Word], [IoPorts]
    with [PciConfig] and [Rtl8139Card] (ports, and the devices behind them), [EthocDevice],
    [NicDriver], [NicReceiver] and [NetifInput] (the driver and the stack around the network
    interface), [CustomPbuf] (buffers with a deallocation function of their own), [ByteOrder]
    (the order of the bytes of a word), [CoreReset] (how a core gives itself up) and
    [NetStack] (the protocols and the clock).  Every theorem
    with such hypotheses is applied to concrete instances at the end of its file or in
    one of the files [*Examples].

    ** Files

    Shared:
    - Prelude: the monad of routines, [wp] and its tactic [wp_step], loops, arrays, the
      hint database [kernel];
    - Hlib: the support library; Alloc: the interface of the two memory allocators.

    Memory (mm/, include/nanvix/kernel/mm.h):
    - MemLayout: address predicates and conversions, and what [mm_check_area] accepts;
    - Frame (frame.c) and Kpool (kpool.c): the allocators, which refine a set of live
      units and are instances of Alloc;
    - Upage: page tables and user pages (page.c), with [translate] as abstract state;
    - AddressSpace: [upage_alloc], [upage_free], [upage_link] and TLB faults.  Frames are
      owned by one page, failures leave no trace, the TLB agrees with the tables; sharing
      a page can leave a page mapped to a frame that is free;
    - SysMm (sys/page.c, sys/frame.c) and SysMmSpec: the kernel calls refine an abstract
      machine of frames and mappings.

    Network-on-chip (noc/):
    - Mbuffer (mbuffer.c): buffers of messages refine a queue; Requests (port.c and the
      request routines of active.c): a ring buffer refines a queue;
    - Active (active.c), ActivePorts, ActiveSpec, ActiveInit, Facility: the actives,
      their ports, the delivery of a message on the local node, their creation;
    - Mailbox (mailbox.c), Portal (portal.c): the tables of functions of the facilities;
    - Communicator (communicator.c) and CommSpec: the operations refine a state machine;
    - Vmailbox (vmailbox.c), Vportal (vportal.c) and their Spec: a message that is sent
      is the message that is received, and what concurrent calls can break;
    - Sync (sync.c) and SyncSpec: synchronization points are shared and counted, and an
      operation in progress keeps its point in every interleaving;
    - SysNoc (sys/{mailbox,portal,sync,noc}.c) and SysNocSpec: the kernel calls, and what
      they check of a list of nodes.

    Threads (pm/, include/nanvix/kernel/thread.h):
    - ThreadBase: the data; Cond and CondSpec (cond.c, semaphore.c, sleep.c): no wake-up
      of a semaphore is lost;
    - Thread (thread/multithread.c, thread/common.c), ThreadSpec, ThreadOps: the
      operations and the invariant of the thread table and the scheduling queue;
    - Sleep (sys/sleep.c) and SleepSpec;
    - ThreadSteps and Scheduler: the cores as a transition system, its invariant, the
      order of scheduling, and the window in which a thread that yields can be lost;
    - SysThread (sys/thread.c): no argument of a call breaks the invariant;
    - SingleThread (thread/singlethread.c), SingleSpec, SingleSteps: the variant for cores
      that run one thread each.  The table of threads is consistent in every interleaving,
      [thread_join] returns only after the thread has left it, and a thread that joins one
      whose core does not start is stranded;
    - Stacks and KernelPool: the creation and the end of threads together with the pool of
      kernel pages; the pages in use are exactly the stacks of the threads.

    Exceptions, signals, kernel calls:
    - Exception (exception.c, sys/exception.c) and ExceptionSpec: the protocol between
      threads that fault and the handler loses no wake-up, and a race of two handlers;
    - Signal (signal.c, sys/signal.c): the handlers agree with the table of the HAL;
    - Console (sys/{write,clock,stats}.c): what [kernel_write] prints, and when it
      overflows its buffer;
    - Syscall (sys/syscalls.c) and SyscallSpec: the board of kernel calls.  Each call is
      run exactly once and gets its own result, and the sweep is fair.  The calls are the
      interface [KernelCalls], so the theorems hold for every implementation of it.

    Devices (dev/) and TCP/IP stack (src/lwip/src):
    - Bytes: words as sequences of bytes;
    - Pci (dev/bus/pci.c): the search for a device ends and finds the first one that
      matches, unless a bridge makes it search its own bus for ever;
    - Rtl8139 (dev/net/rtl8139.c): the array of received packets refines a bounded queue,
      and the receive loop takes the packets of the ring of the card in order;
    - Ethoc (dev/net/ethoc.c): frames are received in order; sending runs past the end of
      the buffers;
    - LwipString (string/), Chksum (core/inet_chksum.c, core/def.c) and Ip4Addr
      (core/ipv4/ip4_addr.c): copies of overlapping areas, the Internet checksum in its
      three versions and over chains of buffers, the text form of addresses;
    - LwipMem (core/mem.c), LwipMemSpec and LwipHeap: the heap, byte by byte with the
      headers of its blocks.  The headers describe a list of blocks in which no two free
      ones are adjacent; the operations refine a map from pointers to contents, and an
      allocation fails only where no gap is large enough;
    - NicIf (arch/nic_driver_if.c): a frame is sent from a block of the heap that is never
      freed, so that the heap is exhausted after at most 88 frames;
    - LwipTimers (core/timeouts.c, with the pool of core/memp.c) and LwipTimersSpec: the
      list of timeouts refines a queue with times that do not wrap around; a call of
      [sys_check_timeouts] ends and runs what is due in order, and the pool never runs out;
    - LwipPbuf (core/pbuf.c), LwipPbufSpec, LwipPbufOps, LwipPbufData, LwipPbufAlloc: packet
      buffers, linked in chains and counted.  The count of a buffer is the number of pointers
      to it, so no sequence of operations that follows the rules for references uses a
      buffer that is gone or loses one; a packet that is allocated has the length that was
      asked for, appended packets have the bytes of both, and reading, comparing and
      searching see the bytes of the chain.  The heap is the interface [PbufHeap], and
      LwipPbufExamples proves that the heap of LwipMem keeps its laws;
    - NicInput (arch/nic_driver_if.c): a frame that is received is in the packet that the
      stack gets, or is dropped without loss; NicInputExamples has the driver of Rtl8139
      behind it.

    MailboxExamples, PortalExamples, SyncExamples, SchedulerExamples, SingleExamples,
    SysExamples and KernelPoolExamples hold small processors on which the theorems are evaluated,
    and LwipPbufExamples and NicInputExamples hold packets.

    ** Not modelled

    - init/main.c, [mm_init], [noc_init]: sequences of initialisations, which are
      modelled one by one, and calls of the HAL; sys/exit.c and sys/shutdown.c power the
      cores off;
    - dev/dev.c: the timer of the HAL; the tests;
    - src/lwip: the protocols, the interfaces for applications and the configurations that
      the kernel does not build; copies of whole packets and the reclaiming of TCP segments in
      core/pbuf.c; the floating-point conversion of the clock in arch/sys_arch.c;
    - caches and messages to the console; [do_page_fault] and [upool_init], which call
      [exception_wait] and register handlers. *)

From stdpp Require Export base tactics numbers list option gmap relations sorting.
From Stdlib Require Export Lia.

Open Scope Z_scope.

Create HintDb kernel discriminated.

(** ** Outcomes of a kernel routine

    A C routine of the kernel is a function from the state it touches to an
    [outcome].  [Done a s] is a normal return.  [Panic] is a failed [KASSERT] or a
    call to [kpanic].  [Fault] is undefined behaviour of C: an access outside an
    array or through a null pointer.  [Hang] is [spinlock_lock] on a lock that the
    same run of the routine already holds, or a recursion that goes deeper than its fuel. *)

Inductive outcome (S A : Type) : Type :=
| Done (a : A) (s : S)
| Panic
| Fault
| Hang.
Arguments Done {S A} a s.
Arguments Panic {S A}.
Arguments Fault {S A}.
Arguments Hang {S A}.

Definition K (S A : Type) : Type := S -> outcome S A.

#[export] Instance K_ret S : MRet (K S) := fun A a s => Done a s.

#[export] Instance K_bind S : MBind (K S) := fun A B f m s =>
  match m s with
  | Done a s' => f a s'
  | Panic => Panic
  | Fault => Fault
  | Hang => Hang
  end.

Definition kgets {S A} (f : S -> A) : K S A := fun s => Done (f s) s.
Definition kmodify {S} (f : S -> S) : K S unit := fun s => Done tt (f s).
Definition kpanic {S A} : K S A := fun _ => Panic.
Definition kfault {S A} : K S A := fun _ => Fault.
Definition khang {S A} : K S A := fun _ => Hang.
Definition KASSERT {S} (b : bool) : K S unit := if b then mret tt else kpanic.

(** A pure step that may be undefined in C. *)
Definition kunwrap {S A} (o : option A) : K S A :=
  match o with Some a => mret a | None => kfault end.

(** Running a routine of a part of the state: [g] reads the part (an array element
    may be out of range), [p] writes it back. *)
Definition kzoom {S T A} (g : S -> option T) (p : T -> S -> S) (m : K T A) : K S A :=
  fun s =>
    match g s with
    | None => Fault
    | Some t =>
        match m t with
        | Done a t' => Done a (p t' s)
        | Panic => Panic
        | Fault => Fault
        | Hang => Hang
        end
    end.

(** ** Spinlocks

    A spinlock is a flag.  The routines of this development run between the points
    where the code releases its locks, so a lock that is found taken was taken by the
    same run. *)

Abbreviation spinlock_t := bool (only parsing).
Definition SPINLOCK_UNLOCKED : spinlock_t := false.

Definition spinlock_lock {S} (g : S -> spinlock_t) (p : spinlock_t -> S -> S) : K S unit :=
  fun s => if g s then Hang else Done tt (p true s).

Definition spinlock_unlock {S} (p : spinlock_t -> S -> S) : K S unit := kmodify (p false).

(** ** Total correctness

    [wp m Q s]: from [s], routine [m] returns (no panic, no undefined behaviour, no
    self-deadlock) and its result and final state satisfy [Q]. *)

Definition wp {S A} (m : K S A) (Q : A -> S -> Prop) (s : S) : Prop :=
  match m s with Done a s' => Q a s' | _ => False end.

Lemma wp_ret {S A} (a : A) (Q : A -> S -> Prop) s : Q a s -> wp (mret a) Q s.
Proof. done. Qed.

Lemma wp_bind {S A B} (m : K S A) (f : A -> K S B) Q s :
  wp m (fun a => wp (f a) Q) s -> wp (x ← m; f x) Q s.
Proof. unfold wp, mbind, K_bind. destruct (m s); done. Qed.

Lemma wp_mono {S A} (m : K S A) (Q Q' : A -> S -> Prop) s :
  wp m Q s -> (forall a s', Q a s' -> Q' a s') -> wp m Q' s.
Proof. unfold wp. destruct (m s); naive_solver. Qed.

Lemma wp_defined {S A} (m : K S A) Q s : wp m Q s -> wp m (fun _ _ => True) s.
Proof. intros Hm. by eapply wp_mono. Qed.

Lemma wp_with_run {S A} (m : K S A) (P : A -> S -> Prop) s : wp m P s -> wp m (fun r s' => P r s' /\ m s = Done r s') s.
Proof. unfold wp. by destruct (m s). Qed.

Lemma wp_gets {S A} (f : S -> A) (Q : A -> S -> Prop) s : Q (f s) s -> wp (kgets f) Q s.
Proof. done. Qed.

Lemma wp_modify {S} (f : S -> S) (Q : unit -> S -> Prop) s :
  Q tt (f s) -> wp (kmodify f) Q s.
Proof. done. Qed.

Lemma wp_KASSERT {S} (b : bool) (Q : unit -> S -> Prop) s :
  b = true -> Q tt s -> wp (KASSERT b) Q s.
Proof. by intros ->. Qed.

Lemma wp_unwrap {S A} (o : option A) a (Q : A -> S -> Prop) s :
  o = Some a -> Q a s -> wp (kunwrap o) Q s.
Proof. by intros ->. Qed.

Lemma wp_zoom {S T A} (g : S -> option T) p (m : K T A) t Q s :
  g s = Some t -> wp m (fun a t' => Q a (p t' s)) t -> wp (kzoom g p m) Q s.
Proof. unfold wp, kzoom. intros ->. by destruct (m t). Qed.

Lemma wp_lock {S} (g : S -> spinlock_t) p (Q : unit -> S -> Prop) s :
  g s = false -> Q tt (p true s) -> wp (spinlock_lock g p) Q s.
Proof. unfold wp, spinlock_lock. by intros ->. Qed.

Lemma wp_unlock {S} (p : spinlock_t -> S -> S) (Q : unit -> S -> Prop) s :
  Q tt (p false s) -> wp (spinlock_unlock p) Q s.
Proof. done. Qed.

Lemma wp_if {S A} (b : bool) (m1 m2 : K S A) Q s :
  (b = true -> wp m1 Q s) -> (b = false -> wp m2 Q s) -> wp (if b then m1 else m2) Q s.
Proof. destruct b; auto. Qed.

Lemma wp_Done {S A} (m : K S A) Q s a s' : m s = Done a s' -> wp m Q s -> Q a s'.
Proof. unfold wp. by intros ->. Qed.

Lemma wp_returns {S A} (m : K S A) Q s :
  wp m Q s <-> exists a s', m s = Done a s' /\ Q a s'.
Proof.
  unfold wp. split.
  - destruct (m s); try done. eauto.
  - by intros (a & s' & -> & ?).
Qed.

Lemma wp_run {S A} (m : K S A) a s : wp m (fun r s' => r = a /\ s' = s) s -> m s = Done a s.
Proof. unfold wp. destruct (m s); naive_solver. Qed.

Lemma wp_bind_pair {S A B C} (m1 : K S A) (m2 : K S B) (k : A -> B -> K S C) Q s :
  wp (x ← m1; y ← m2; mret (x, y)) (fun xy => wp (k (fst xy) (snd xy)) Q) s ->
  wp (x ← m1; y ← m2; k x y) Q s.
Proof.
  unfold wp, mbind, K_bind. destruct (m1 s) as [x s1| | |]; try done. by destruct (m2 s1).
Qed.

(** The outcome of a sequence from the outcome of its first part. *)
Lemma fault_bind {S A B} (m : K S A) (k : A -> K S B) s : m s = Fault -> (m ≫= k) s = Fault.
Proof. intros E. unfold mbind, K_bind. by rewrite E. Qed.

Lemma panic_bind {S A B} (m : K S A) (k : A -> K S B) s : m s = Panic -> (m ≫= k) s = Panic.
Proof. intros E. unfold mbind, K_bind. by rewrite E. Qed.

Lemma done_bind {S A B} (m : K S A) (k : A -> K S B) s a s' : m s = Done a s' -> (m ≫= k) s = k a s'.
Proof. intros E. unfold mbind, K_bind. by rewrite E. Qed.

Lemma hang_bind {S A B} (m : K S A) (k : A -> K S B) s : m s = Hang -> (m ≫= k) s = Hang.
Proof. intros E. unfold mbind, K_bind. by rewrite E. Qed.

Ltac wp_step :=
  lazymatch goal with
  | |- wp (mret _) _ _ => apply wp_ret
  | |- wp (_ ≫= _) _ _ => apply wp_bind
  | |- wp (kgets _) _ _ => apply wp_gets
  | |- wp (kmodify _) _ _ => apply wp_modify
  | |- wp (spinlock_unlock _) _ _ => apply wp_unlock
  | |- wp (if _ then _ else _) _ _ => apply wp_if; intros ?
  | |- wp (KASSERT _) _ _ => apply wp_KASSERT
  | |- wp (spinlock_lock _ _) _ _ => apply wp_lock
  | |- wp (kunwrap _) _ _ => eapply wp_unwrap
  | |- wp (kzoom _ _ _) _ _ => eapply wp_zoom
  end; cbn beta.

(** ** Arrays

    C arrays are lists indexed by an [int]; an index out of range is undefined. *)

Definition aget {A} (l : list A) (i : Z) : option A :=
  if bool_decide (0 ≤ i) then l !! Z.to_nat i else None.

Definition aset {A} (i : Z) (x : A) (l : list A) : list A :=
  if bool_decide (0 ≤ i) then <[Z.to_nat i := x]> l else l.

Abbreviation alen l := (Z.of_nat (length l)).

Section arrays.
Context {A : Type}.
Implicit Types (l : list A) (i j : Z) (x y : A).

Lemma aget_lt l i x : aget l i = Some x -> 0 ≤ i < alen l.
Proof.
  unfold aget. case_bool_decide; [|done]. intros H1%lookup_lt_Some. lia.
Qed.

Lemma aget_is_Some l i : 0 ≤ i < alen l -> is_Some (aget l i).
Proof.
  intros ?. unfold aget. rewrite bool_decide_true by lia.
  apply lookup_lt_is_Some_2. lia.
Qed.

Lemma aget_ge l i : alen l ≤ i -> aget l i = None.
Proof.
  intros ?. unfold aget. case_bool_decide; [|done].
  apply lookup_ge_None_2. lia.
Qed.

Lemma aget_elem l i x : aget l i = Some x -> x ∈ l.
Proof.
  unfold aget. case_bool_decide; [|done]. intros ?.
  apply list_elem_of_lookup. eauto.
Qed.

Lemma elem_aget l x : x ∈ l -> exists i, aget l i = Some x.
Proof.
  intros [k Hk]%list_elem_of_lookup. exists (Z.of_nat k).
  unfold aget. rewrite bool_decide_true by lia. by rewrite Nat2Z.id.
Qed.

Lemma length_aset i x l : length (aset i x l) = length l.
Proof. unfold aset. case_bool_decide; [apply length_insert|done]. Qed.

Lemma aget_aset_eq l i x : 0 ≤ i < alen l -> aget (aset i x l) i = Some x.
Proof.
  intros ?. unfold aget, aset. rewrite !bool_decide_true by lia.
  apply list_lookup_insert_eq. lia.
Qed.

Lemma aget_aset_same l i x y : aget l i = Some x -> aget (aset i y l) i = Some y.
Proof. intros Hx. apply aget_aset_eq. by eapply aget_lt. Qed.

Lemma aget_aset_ne l i j x : i <> j -> aget (aset i x l) j = aget l j.
Proof.
  intros ?. unfold aget, aset. repeat case_bool_decide; try done.
  apply list_lookup_insert_ne. lia.
Qed.

Lemma aget_aset l i j x :
  aget (aset i x l) j =
  if bool_decide (i = j /\ 0 ≤ i < alen l) then Some x else aget l j.
Proof.
  case_bool_decide as H1.
  - destruct H1 as [<- ?]. by apply aget_aset_eq.
  - destruct (decide (i = j)) as [<-|]; [|by apply aget_aset_ne].
    unfold aset, aget. case_bool_decide; [|done].
    rewrite list_insert_ge by lia. done.
Qed.

Lemma aset_id l i x : aget l i = Some x -> aset i x l = l.
Proof.
  unfold aget, aset. case_bool_decide; [|done]. apply list_insert_id.
Qed.

Lemma aset_aset_eq l i x y : aset i x (aset i y l) = aset i x l.
Proof.
  unfold aset. case_bool_decide; [|done]. apply list_insert_insert_eq.
Qed.

Lemma aset_comm l i j x y : i <> j -> aset i x (aset j y l) = aset j y (aset i x l).
Proof.
  intros ?. unfold aset. repeat case_bool_decide; try done.
  apply list_insert_insert_ne. lia.
Qed.

Lemma Forall_aset (P : A -> Prop) l i x : Forall P l -> P x -> Forall P (aset i x l).
Proof.
  intros Hl Hx. unfold aset. case_bool_decide; [|done]. by apply Forall_insert.
Qed.

Lemma Forall_aget (P : A -> Prop) l i x : Forall P l -> aget l i = Some x -> P x.
Proof. intros Hl ?%aget_elem. rewrite Forall_forall in Hl. auto. Qed.

Lemma Forall_aget_iff (P : A -> Prop) l :
  Forall P l <-> forall i x, aget l i = Some x -> P x.
Proof.
  rewrite Forall_forall. split.
  - intros H i x ?%aget_elem. auto.
  - intros H x [i Hi]%elem_aget. eauto.
Qed.

Lemma alist_eq l1 l2 : (forall i, aget l1 i = aget l2 i) -> l1 = l2.
Proof.
  intros H. apply list_eq. intros k. specialize (H (Z.of_nat k)).
  unfold aget in H. rewrite bool_decide_true in H by lia.
  by rewrite Nat2Z.id in H.
Qed.

Lemma aget_replicate (n : nat) x i y : aget (replicate n x) i = Some y -> y = x.
Proof.
  unfold aget. case_bool_decide; [|done]. by intros [??]%lookup_replicate.
Qed.

Lemma aget_app_l l l' i : i < alen l -> aget (l ++ l') i = aget l i.
Proof.
  intros ?. unfold aget. case_bool_decide; [|done]. apply lookup_app_l. lia.
Qed.

Lemma aget_snoc l x : aget (l ++ [x]) (alen l) = Some x.
Proof.
  unfold aget. rewrite bool_decide_true by lia. rewrite Nat2Z.id.
  by apply list_lookup_middle.
Qed.

Lemma aget_delete l (n : nat) j :
  0 ≤ j -> aget (delete n l) j = aget l (if bool_decide (j < Z.of_nat n) then j else j + 1).
Proof.
  intros Hj. unfold aget. rewrite (bool_decide_true (0 ≤ j)) by lia.
  destruct (bool_decide (j < Z.of_nat n)) eqn:E;
    [apply bool_decide_eq_true in E|apply bool_decide_eq_false in E];
    rewrite bool_decide_true by lia.
  - apply list_lookup_delete_lt. lia.
  - rewrite list_lookup_delete_ge by lia. f_equal. lia.
Qed.

End arrays.

(** ** Linear searches

    [for (i = 0; i < n; i++) if (P(a[i])) return (i);] *)

Fixpoint search_from {A} (P : A -> bool) (i : Z) (l : list A) : option Z :=
  match l with
  | [] => None
  | x :: l' => if P x then Some i else search_from P (i + 1) l'
  end.

Definition search {A} (P : A -> bool) (l : list A) : option Z := search_from P 0 l.

Section searching.
Context {A : Type} (P : A -> bool).
Implicit Types (l : list A).

Lemma aget_cons_0 x l : aget (x :: l) 0 = Some x.
Proof. done. Qed.

Lemma aget_cons_S x l i : 0 < i -> aget (x :: l) i = aget l (i - 1).
Proof.
  intros ?. unfold aget. rewrite !bool_decide_true by lia.
  replace (Z.to_nat i) with (S (Z.to_nat (i - 1))) by lia. done.
Qed.

Lemma search_from_Some i l k :
  search_from P i l = Some k ->
  i ≤ k /\ (exists x, aget l (k - i) = Some x /\ P x = true) /\
  (forall j y, i ≤ j < k -> aget l (j - i) = Some y -> P y = false).
Proof.
  revert i. induction l as [|x l IH]; intros i; simpl; [done|].
  destruct (P x) eqn:HP.
  - intros [= ->]. split; [lia|]. split.
    + exists x. by rewrite Z.sub_diag.
    + lia.
  - intros (? & (y & Hy & ?) & Hmin)%IH. split; [lia|]. split.
    + exists y. rewrite aget_cons_S by lia. split; [|done].
      by replace (k - i - 1) with (k - (i + 1)) by lia.
    + intros j z ? Hz. destruct (decide (j = i)) as [->|].
      * rewrite Z.sub_diag, aget_cons_0 in Hz. congruence.
      * rewrite aget_cons_S in Hz by lia.
        apply (Hmin j); [lia|]. by replace (j - (i + 1)) with (j - i - 1) by lia.
Qed.

Lemma search_from_None i l : search_from P i l = None <-> Forall (fun x => P x = false) l.
Proof.
  revert i. induction l as [|x l IH]; intros i; simpl; [done|].
  rewrite Forall_cons. destruct (P x) eqn:HP.
  - split; [done|]. by intros [??].
  - rewrite IH. by intuition.
Qed.

Lemma search_Some l k :
  search P l = Some k ->
  0 ≤ k < alen l /\ (exists x, aget l k = Some x /\ P x = true) /\
  (forall j y, j < k -> aget l j = Some y -> P y = false).
Proof.
  intros (? & (x & Hx & ?) & Hmin)%search_from_Some.
  rewrite Z.sub_0_r in Hx. split; [by eapply aget_lt|]. split; [eauto|].
  intros j y ? Hj. apply (Hmin j); [apply aget_lt in Hj; lia|]. by rewrite Z.sub_0_r.
Qed.

Lemma search_None l : search P l = None <-> Forall (fun x => P x = false) l.
Proof. apply search_from_None. Qed.

Lemma search_None_aget l i x : search P l = None -> aget l i = Some x -> P x = false.
Proof. rewrite search_None. intros ? ?. by eapply (Forall_aget (fun x => P x = false)). Qed.

Lemma search_complete l i x : aget l i = Some x -> P x = true -> is_Some (search P l).
Proof.
  intros Hi HP. destruct (search P l) eqn:E; [done|].
  eapply search_None_aget in E; [|done]. congruence.
Qed.

(** The search returns the least index at which the test holds. *)
Lemma search_unique l k x :
  aget l k = Some x -> P x = true ->
  (forall j y, j < k -> aget l j = Some y -> P y = false) ->
  search P l = Some k.
Proof.
  intros Hk HP Hmin. destruct (search_complete _ _ _ Hk HP) as [k' Hk'].
  rewrite Hk'. apply search_Some in Hk' as (Hr & (y & Hy & HPy) & Hmin').
  destruct (Z.lt_trichotomy k k') as [H|[->|H]]; [|done|].
  - specialize (Hmin' _ _ H Hk). congruence.
  - specialize (Hmin _ _ H Hy). congruence.
Qed.

End searching.

(** The first element of a list that passes a test. *)
Lemma find_append {A} (t : A -> bool) l1 l2 :
  List.find t (l1 ++ l2) = match List.find t l1 with Some x => Some x | None => List.find t l2 end.
Proof. induction l1 as [|x l1 IH]; simpl; [done|]. by destruct (t x). Qed.

Lemma find_none_iff {A} (t : A -> bool) l : List.find t l = None <-> forall x, In x l -> t x = false.
Proof.
  split; [apply find_none|]. induction l as [|x l IH]; intros Hl; simpl; [done|]. rewrite Hl by (by left). apply IH. intros y Hy. apply Hl. by right.
Qed.

(** ** Loops

    [for (i = 0; i < n; i++)] with an accumulator: the body returns the new value of
    the accumulator and whether it breaks out of the loop. *)

Fixpoint kfor {S A} (n : nat) (i : Z) (body : Z -> A -> K S (A * bool)) (a : A) : K S A :=
  match n with
  | O => mret a
  | Datatypes.S n' =>
      body i a ≫= fun r : A * bool =>
      if r.2 then mret r.1 else kfor n' (i + 1) body r.1
  end.

(** A sequence of calls, with their results. *)
Fixpoint kseq {S A} (ms : list (K S A)) : K S (list A) :=
  match ms with
  | [] => mret []
  | m :: ms => a ← m; l ← kseq ms; mret (a :: l)
  end.

Lemma kseq_app {S A} (l1 l2 : list (K S A)) s :
  kseq (l1 ++ l2) s = (x ← kseq l1; y ← kseq l2; mret (x ++ y)) s.
Proof.
  revert s. induction l1 as [|m l1 IH]; intros s; simpl.
  - unfold mbind, K_bind, mret, K_ret. by destruct (kseq l2 s).
  - unfold mbind, K_bind in *. destruct (m s) as [a s'| | |]; try done. rewrite IH.
    unfold mret, K_ret. destruct (kseq l1 s') as [x s2| | |]; try done. by destruct (kseq l2 s2).
Qed.

(** The loop rule: [I i a s] holds when iteration [i] starts. *)
Lemma wp_kfor {S A} (I : Z -> A -> S -> Prop) n i (body : Z -> A -> K S (A * bool)) a Q s :
  I i a s ->
  (forall j b t, i ≤ j < i + Z.of_nat n -> I j b t ->
     wp (body j b) (fun r t' => if r.2 then Q r.1 t' else I (j + 1) r.1 t') t) ->
  (forall b t, I (i + Z.of_nat n) b t -> Q b t) ->
  wp (kfor n i body a) Q s.
Proof.
  revert i a s. induction n as [|n IH]; intros i a s HI Hbody Hend.
  - simpl. wp_step. apply Hend. by rewrite Z.add_0_r.
  - simpl. wp_step. eapply wp_mono; [apply Hbody; [lia|done]|].
    intros [b [|]] t Ht; simpl in *; [by wp_step|].
    apply IH; [done| |].
    + intros j c u Hj. apply Hbody. lia.
    + intros c u. replace (i + 1 + Z.of_nat n) with (i + Z.of_nat (Datatypes.S n)) by lia. apply Hend.
Qed.

(** A loop that looks for the first index at which a test of the state holds. *)
Lemma wp_kfor_first {S A} (f : Z -> bool) (g : Z -> A) n (body : Z -> A -> K S (A * bool)) a Q s :
  (forall j, 0 ≤ j < Z.of_nat n ->
     wp (body j a) (fun r t => if f j then r = (g j, true) /\ Q (g j) t else r = (a, false) /\ t = s) s) ->
  ((forall j, 0 ≤ j < Z.of_nat n -> f j = false) -> Q a s) ->
  wp (kfor n 0 body a) Q s.
Proof.
  intros Hbody Hend.
  apply (wp_kfor (fun i b t => b = a /\ t = s /\ forall j, 0 ≤ j < i -> f j = false)).
  - split_and!; try done. lia.
  - intros j b t Hj (-> & -> & Hpre). eapply wp_mono; [apply Hbody; lia|].
    intros r t Hr. destruct (f j) eqn:Hf; [by destruct Hr as [-> ?]|].
    destruct Hr as [-> ->]. simpl. split_and!; try done.
    intros k Hk. destruct (decide (k = j)) as [->|]; [done|]. apply Hpre. lia.
  - intros b t (-> & -> & Hpre). apply Hend. auto.
Qed.

(** ** Counting *)

Definition countb {A} (P : A -> bool) (l : list A) : Z :=
  foldr (fun x n => Z.b2z (P x) + n) 0 l.

Section counting.
Context {A : Type} (P : A -> bool).
Implicit Types (l : list A).

Lemma countb_nonneg l : 0 ≤ countb P l.
Proof. induction l as [|x l IH]; simpl; [lia|]. destruct (P x); simpl; lia. Qed.

Lemma countb_le l : countb P l ≤ alen l.
Proof. induction l as [|x l IH]; simpl; [lia|]. destruct (P x); simpl; lia. Qed.

Lemma countb_insert l (n : nat) x y :
  l !! n = Some x -> countb P (<[n:=y]> l) = countb P l - Z.b2z (P x) + Z.b2z (P y).
Proof.
  revert n. induction l as [|z l IH]; intros [|n] Hx; simplify_eq/=; [lia|].
  rewrite (IH n) by done. lia.
Qed.

Lemma countb_aset l i x y :
  aget l i = Some x -> countb P (aset i y l) = countb P l - Z.b2z (P x) + Z.b2z (P y).
Proof.
  unfold aget, aset. case_bool_decide; [|done]. apply countb_insert.
Qed.

Lemma countb_zero l : Forall (fun x => P x = false) l -> countb P l = 0.
Proof. induction 1 as [|x l Hx _ IH]; simpl; [done|]. by rewrite Hx, IH. Qed.

Lemma countb_pos l i x : aget l i = Some x -> P x = true -> 0 < countb P l.
Proof.
  intros Hi HP. pose proof (countb_aset _ _ _ x Hi) as E.
  revert i Hi E. induction l as [|y l IH]; intros i Hi _; [by destruct i|].
  pose proof (countb_nonneg l) as Hn. pose proof (aget_lt _ _ _ Hi) as Hr. simpl.
  destruct (decide (i = 0)) as [->|].
  - rewrite aget_cons_0 in Hi. simplify_eq. rewrite HP. simpl. lia.
  - rewrite aget_cons_S in Hi by lia.
    pose proof (IH _ Hi (countb_aset _ _ _ x Hi)). destruct (P y); simpl; lia.
Qed.

(** A free slot exists exactly when the count is below the length. *)
Lemma countb_lt_exists l :
  countb P l < alen l -> exists i x, aget l i = Some x /\ P x = false.
Proof.
  intros H. destruct (search (fun x => negb (P x)) l) as [k|] eqn:E.
  - apply search_Some in E as (_ & (x & Hx & HP) & _). exists k, x.
    by apply negb_true_iff in HP.
  - apply search_None in E. exfalso. revert H.
    induction E as [|x l Hx _ IH]; simpl; [lia|].
    apply negb_false_iff in Hx. rewrite Hx. simpl. lia.
Qed.

End counting.

(** ** Machine integers *)

Definition u32 (x : Z) : Z := x `mod` 2 ^ 32.
Definition u64 (x : Z) : Z := x `mod` 2 ^ 64.
Definition UINT64_MAX : Z := 2 ^ 64 - 1.

Lemma u64_range x : 0 ≤ u64 x ≤ UINT64_MAX.
Proof. unfold u64, UINT64_MAX. pose proof (Z.mod_pos_bound x (2 ^ 64)). lia. Qed.

Lemma u32_small x : 0 ≤ x < 2 ^ 32 -> u32 x = x.
Proof. apply Z.mod_small. Qed.

Lemma u64_small x : 0 ≤ x < 2 ^ 64 -> u64 x = x.
Proof. apply Z.mod_small. Qed.

(** ** Byte memory

    [kmemcpy] between an address and a kernel buffer. *)

Definition mem_read (m : gmap Z Z) (a : Z) (n : nat) : list Z :=
  (fun k => default 0 (m !! (a + Z.of_nat k))) <$> seq 0 n.

Fixpoint mem_write (a : Z) (bs : list Z) (m : gmap Z Z) : gmap Z Z :=
  match bs with
  | [] => m
  | b :: bs' => <[a := b]> (mem_write (a + 1) bs' m)
  end.

Lemma length_mem_read m a n : length (mem_read m a n) = n.
Proof. unfold mem_read. by rewrite length_fmap, length_seq. Qed.

Lemma mem_write_lookup_lt a bs m x : x < a -> mem_write a bs m !! x = m !! x.
Proof.
  revert a. induction bs as [|b bs IH]; intros a ?; simpl; [done|].
  rewrite lookup_insert_ne by lia. apply IH. lia.
Qed.

Lemma mem_write_lookup_ge a bs m x : a + alen bs ≤ x -> mem_write a bs m !! x = m !! x.
Proof.
  revert a. induction bs as [|b bs IH]; intros a ?; simpl in *; [done|].
  rewrite lookup_insert_ne by lia. apply IH. lia.
Qed.

Lemma mem_write_lookup a bs m (k : nat) b :
  bs !! k = Some b -> mem_write a bs m !! (a + Z.of_nat k) = Some b.
Proof.
  revert a k. induction bs as [|c bs IH]; intros a [|k] Hk; simplify_eq/=.
  - by rewrite Z.add_0_r, lookup_insert_eq.
  - rewrite lookup_insert_ne by lia.
    replace (a + Z.of_nat (S k)) with (a + 1 + Z.of_nat k) by lia. by apply IH.
Qed.

(** Reading back what was copied. *)
Lemma mem_read_write a bs m : mem_read (mem_write a bs m) a (length bs) = bs.
Proof.
  apply list_eq. intros k. unfold mem_read. rewrite list_lookup_fmap.
  destruct (bs !! k) as [b|] eqn:Hk.
  - pose proof (lookup_lt_Some _ _ _ Hk). rewrite lookup_seq_lt by done. simpl.
    by erewrite mem_write_lookup by done.
  - rewrite lookup_seq_ge by (by apply lookup_ge_None_1). done.
Qed.

(** ** Sorted lists *)

Section sorted.
Context {A : Type}.
Implicit Types (R : A -> A -> Prop) (l : list A).

Lemma StronglySorted_snoc R l x :
  StronglySorted R l -> (forall y, y ∈ l -> R y x) -> StronglySorted R (l ++ [x]).
Proof.
  induction 1 as [|y l Hl IH Hall]; intros Hx; simpl; [by repeat constructor|].
  constructor.
  - apply IH. intros z Hz. apply Hx. by right.
  - apply Forall_app. split; [done|]. repeat constructor. apply Hx. by left.
Qed.

Lemma StronglySorted_sublist_filter R (P : A -> Prop) `{!forall x, Decision (P x)} l :
  StronglySorted R l -> StronglySorted R (filter P l).
Proof.
  induction 1 as [|y l Hl IH Hall]; [constructor|]. rewrite filter_cons.
  case_decide; [|done]. constructor; [done|].
  rewrite Forall_forall in *. intros z [_ Hz]%list_elem_of_filter. auto.
Qed.

Lemma StronglySorted_ext R R' l :
  (forall x y, x ∈ l -> y ∈ l -> R x y -> R' x y) -> StronglySorted R l -> StronglySorted R' l.
Proof.
  intros Himp Hs. induction Hs as [|y l Hl IH Hall]; constructor.
  - apply IH. intros a b Ha Hb. apply Himp; by right.
  - rewrite Forall_forall in *. intros z Hz. apply Himp; [by left|by right|auto].
Qed.

(** Everything before an element of a sorted list is below it. *)
Lemma StronglySorted_before R l1 x l2 :
  StronglySorted R (l1 ++ x :: l2) -> forall y, y ∈ l1 -> R y x.
Proof.
  induction l1 as [|z l1 IH]; simpl; intros Hs y; [set_solver|].
  inversion_clear Hs as [|? ? Hl Hall]. rewrite Forall_forall in Hall.
  rewrite elem_of_cons. intros [->|Hy]; [apply Hall; set_solver|by apply IH].
Qed.

End sorted.

Lemma filter_all {A} (P : A -> Prop) `{!forall x, Decision (P x)} (l : list A) :
  Forall P l -> filter P l = l.
Proof.
  induction 1 as [|x l Hx _ IH]; [done|]. by rewrite filter_cons_True, IH.
Qed.

Lemma delete_filter {A} `{EqDecision A} (l : list A) (i : nat) x :
  NoDup l -> l !! i = Some x -> delete i l = filter (fun y => y <> x) l.
Proof.
  intros Hnd. revert i. induction Hnd as [|y l Hy Hnd IH]; intros [|i] Hi; simplify_eq/=.
  - rewrite filter_cons_False by (by intros ?). symmetry. apply filter_all.
    apply Forall_forall. by intros z Hz ->.
  - rewrite filter_cons_True by (intros ->; apply Hy; by eapply list_elem_of_lookup_2).
    f_equal. by apply IH.
Qed.
