(* ===== verification/Hlib.v ===== *)
(** The kernel's support library, as the kernel relies on it.

    The kernel includes [nanvix/hlib.h], [nanvix/const.h] and [posix/errno.h], which
    belong to the HAL submodule and are not part of the repository.  What the kernel
    uses of them is the class [Hlib]; what it relies on is the class [HlibLaws].  The
    theorems of the development hold for every [Hlib] that satisfies the laws.
    [hlib_flags] is one such library (a resource is four flags, errors are numbered
    as on Linux), used to evaluate the model on concrete inputs. *)

From S2P Require Import Prelude.

(** ** Interface *)

Inductive errno :=
| EPERM | EIO | EBADF | EAGAIN | EACCES | EFAULT | EBUSY | EINVAL | ENOSYS
| ENOMSG | ENOTSUP | EADDRINUSE.

#[export] Instance errno_eq_dec : EqDecision errno.
Proof. solve_decision. Defined.

Class Hlib := {
  errno_val : errno -> Z;
  WITHIN : Z -> Z -> Z -> bool;
  mod_pw2 : Z -> Z -> Z;
  resource : Type;
  RESOURCE_INITIALIZER : resource;
  resource_is_used : resource -> bool;
  resource_is_busy : resource -> bool;
  resource_is_readable : resource -> bool;
  resource_is_writable : resource -> bool;
  resource_set_used : resource -> resource;
  resource_set_unused : resource -> resource;
  resource_set_busy : resource -> resource;
  resource_set_notbusy : resource -> resource;
  resource_set_rdonly : resource -> resource;
  resource_set_wronly : resource -> resource;
}.

(** The negative error code [-E] a routine returns. *)
Definition err `{Hlib} (e : errno) : Z := - errno_val e.

(** What the four flags of a resource are. *)
Record rflags := RFlags { rf_used : bool; rf_busy : bool; rf_read : bool; rf_write : bool }.

Definition flags_of `{Hlib} (r : resource) : rflags :=
  RFlags (resource_is_used r) (resource_is_busy r)
         (resource_is_readable r) (resource_is_writable r).

Class HlibLaws (H : Hlib) : Prop := {
  errno_pos e : 0 < errno_val e;
  errno_inj e e' : errno_val e = errno_val e' -> e = e';
  within_spec x a b : WITHIN x a b = bool_decide (a ≤ x < b);
  mod_pw2_spec a k : 0 ≤ k -> mod_pw2 a (2 ^ k) = a `mod` 2 ^ k;
  initializer_unused : resource_is_used RESOURCE_INITIALIZER = false;
  initializer_notbusy : resource_is_busy RESOURCE_INITIALIZER = false;
  flags_set_used r :
    flags_of (resource_set_used r) =
    RFlags true (resource_is_busy r) (resource_is_readable r) (resource_is_writable r);
  used_set_unused r : resource_is_used (resource_set_unused r) = false;
  flags_set_busy r :
    flags_of (resource_set_busy r) =
    RFlags (resource_is_used r) true (resource_is_readable r) (resource_is_writable r);
  flags_set_notbusy r :
    flags_of (resource_set_notbusy r) =
    RFlags (resource_is_used r) false (resource_is_readable r) (resource_is_writable r);
  flags_set_rdonly r :
    flags_of (resource_set_rdonly r) =
    RFlags (resource_is_used r) (resource_is_busy r) true false;
  flags_set_wronly r :
    flags_of (resource_set_wronly r) =
    RFlags (resource_is_used r) (resource_is_busy r) false true;
}.

(** ** Consequences of the laws *)

Create Rewrite HintDb hlib.

Section laws.
Context {H : Hlib} {L : HlibLaws H}.

Lemma err_neg e : err e < 0.
Proof. unfold err. pose proof (errno_pos e). lia. Qed.

Lemma err_inj e e' : err e = err e' -> e = e'.
Proof. unfold err. intros ?. apply errno_inj. lia. Qed.

Lemma err_ne e e' : e <> e' -> err e <> err e'.
Proof. intros Hne E. by apply Hne, err_inj. Qed.

Lemma WITHIN_true x a b : WITHIN x a b = true <-> a ≤ x < b.
Proof. rewrite within_spec. apply bool_decide_eq_true. Qed.

Lemma WITHIN_false x a b : WITHIN x a b = false <-> ~ (a ≤ x < b).
Proof. rewrite within_spec. apply bool_decide_eq_false. Qed.

Lemma used_set_used r : resource_is_used (resource_set_used r) = true.
Proof. by pose proof (flags_set_used r) as [= ]. Qed.

Lemma busy_set_used r : resource_is_busy (resource_set_used r) = resource_is_busy r.
Proof. by pose proof (flags_set_used r) as [= ]. Qed.

Lemma readable_set_used r : resource_is_readable (resource_set_used r) = resource_is_readable r.
Proof. by pose proof (flags_set_used r) as [= ]. Qed.

Lemma writable_set_used r : resource_is_writable (resource_set_used r) = resource_is_writable r.
Proof. by pose proof (flags_set_used r) as [= ]. Qed.

Lemma used_set_busy r : resource_is_used (resource_set_busy r) = resource_is_used r.
Proof. by pose proof (flags_set_busy r) as [= ]. Qed.

Lemma busy_set_busy r : resource_is_busy (resource_set_busy r) = true.
Proof. by pose proof (flags_set_busy r) as [= ]. Qed.

Lemma readable_set_busy r : resource_is_readable (resource_set_busy r) = resource_is_readable r.
Proof. by pose proof (flags_set_busy r) as [= ]. Qed.

Lemma writable_set_busy r : resource_is_writable (resource_set_busy r) = resource_is_writable r.
Proof. by pose proof (flags_set_busy r) as [= ]. Qed.

Lemma used_set_notbusy r : resource_is_used (resource_set_notbusy r) = resource_is_used r.
Proof. by pose proof (flags_set_notbusy r) as [= ]. Qed.

Lemma busy_set_notbusy r : resource_is_busy (resource_set_notbusy r) = false.
Proof. by pose proof (flags_set_notbusy r) as [= ]. Qed.

Lemma readable_set_notbusy r : resource_is_readable (resource_set_notbusy r) = resource_is_readable r.
Proof. by pose proof (flags_set_notbusy r) as [= ]. Qed.

Lemma writable_set_notbusy r : resource_is_writable (resource_set_notbusy r) = resource_is_writable r.
Proof. by pose proof (flags_set_notbusy r) as [= ]. Qed.

Lemma used_set_rdonly r : resource_is_used (resource_set_rdonly r) = resource_is_used r.
Proof. by pose proof (flags_set_rdonly r) as [= ]. Qed.

Lemma busy_set_rdonly r : resource_is_busy (resource_set_rdonly r) = resource_is_busy r.
Proof. by pose proof (flags_set_rdonly r) as [= ]. Qed.

Lemma readable_set_rdonly r : resource_is_readable (resource_set_rdonly r) = true.
Proof. by pose proof (flags_set_rdonly r) as [= ]. Qed.

Lemma writable_set_rdonly r : resource_is_writable (resource_set_rdonly r) = false.
Proof. by pose proof (flags_set_rdonly r) as [= ]. Qed.

Lemma used_set_wronly r : resource_is_used (resource_set_wronly r) = resource_is_used r.
Proof. by pose proof (flags_set_wronly r) as [= ]. Qed.

Lemma busy_set_wronly r : resource_is_busy (resource_set_wronly r) = resource_is_busy r.
Proof. by pose proof (flags_set_wronly r) as [= ]. Qed.

Lemma readable_set_wronly r : resource_is_readable (resource_set_wronly r) = false.
Proof. by pose proof (flags_set_wronly r) as [= ]. Qed.

Lemma writable_set_wronly r : resource_is_writable (resource_set_wronly r) = true.
Proof. by pose proof (flags_set_wronly r) as [= ]. Qed.

End laws.

#[export] Hint Resolve err_neg : kernel.

#[export] Hint Rewrite @initializer_unused @initializer_notbusy @used_set_unused
  @used_set_used @busy_set_used @readable_set_used @writable_set_used
  @used_set_busy @busy_set_busy @readable_set_busy @writable_set_busy
  @used_set_notbusy @busy_set_notbusy @readable_set_notbusy @writable_set_notbusy
  @used_set_rdonly @busy_set_rdonly @readable_set_rdonly @writable_set_rdonly
  @used_set_wronly @busy_set_wronly @readable_set_wronly @writable_set_wronly
  using (exact _) : hlib.

(** Evaluates resource flags after a sequence of updates. *)
Ltac rflags := autorewrite with hlib in *.

(** ** A concrete library *)

#[export] Instance hlib_flags : Hlib := {|
  errno_val e :=
    match e with
    | EPERM => 1 | EIO => 5 | EBADF => 9 | EAGAIN => 11 | EACCES => 13
    | EFAULT => 14 | EBUSY => 16 | EINVAL => 22 | ENOSYS => 38 | ENOMSG => 42
    | ENOTSUP => 95 | EADDRINUSE => 98
    end;
  WITHIN x a b := (a <=? x) && (x <? b);
  mod_pw2 a n := Z.land a (n - 1);
  resource := rflags;
  RESOURCE_INITIALIZER := RFlags false false false false;
  resource_is_used := rf_used;
  resource_is_busy := rf_busy;
  resource_is_readable := rf_read;
  resource_is_writable := rf_write;
  resource_set_used r := RFlags true (rf_busy r) (rf_read r) (rf_write r);
  resource_set_unused r := RFlags false (rf_busy r) (rf_read r) (rf_write r);
  resource_set_busy r := RFlags (rf_used r) true (rf_read r) (rf_write r);
  resource_set_notbusy r := RFlags (rf_used r) false (rf_read r) (rf_write r);
  resource_set_rdonly r := RFlags (rf_used r) (rf_busy r) true false;
  resource_set_wronly r := RFlags (rf_used r) (rf_busy r) false true;
|}.

#[export] Instance hlib_flags_laws : HlibLaws hlib_flags.
Proof.
  split; simpl; try done.
  - by intros [].
  - by intros [] [].
  - intros x a b. case_bool_decide; lia.
  - intros a k Hk. rewrite Z.sub_1_r, <- Z.ones_equiv. by apply Z.land_ones.
Qed.
