(* ===== verification/MemLayout.v ===== *)
(** Memory layout of the kernel: address predicates and conversions
    (include/nanvix/kernel/mm.h).

    The bounds of the memory areas are constants of the HAL, which is not part of the
    repository: they are the fields of [MemLayout], and [MemLayoutLaws] states what
    the kernel relies on (pages are a power of two, areas are whole numbers of pages
    and fit the address space). *)

From S2P Require Import Prelude.
From S2P Require Import Hlib.

(** ** HAL constants *)

Class MemLayout := {
  VADDR_BITS : Z;
  PAGE_SHIFT : Z;
  PAGE_SIZE : Z;
  PAGE_MASK : Z;
  UBASE_VIRT : Z;
  UBASE_PHYS : Z;
  UMEM_SIZE : Z;
  KBASE_VIRT : Z;
  KMEM_SIZE : Z;
  KPOOL_VIRT : Z;
  KPOOL_PHYS : Z;
  KPOOL_SIZE : Z;
  FRAME_BITS : Z;
}.

Definition NUM_UFRAMES `{MemLayout} : Z := UMEM_SIZE `quot` PAGE_SIZE.
Definition FRAME_NULL `{MemLayout} : Z := (-1) `mod` 2 ^ FRAME_BITS.
Definition NUM_KPAGES `{MemLayout} : Z := KPOOL_SIZE `quot` PAGE_SIZE.

Class MemLayoutLaws (M : MemLayout) : Prop := {
  vaddr_bits_pos : 0 < VADDR_BITS;
  page_shift_pos : 0 < PAGE_SHIFT;
  page_size_shift : PAGE_SIZE = 2 ^ PAGE_SHIFT;
  page_mask_size : PAGE_MASK = Z.lnot (PAGE_SIZE - 1);
  ubase_virt_pos : 0 < UBASE_VIRT;
  ubase_virt_aligned : UBASE_VIRT `mod` PAGE_SIZE = 0;
  ubase_phys_pos : 0 ≤ UBASE_PHYS;
  umem_size_pos : 0 < UMEM_SIZE;
  umem_size_aligned : UMEM_SIZE `mod` PAGE_SIZE = 0;
  umem_fits : UBASE_VIRT + UMEM_SIZE ≤ 2 ^ VADDR_BITS;
  kpool_virt_pos : 0 < KPOOL_VIRT;
  kpool_virt_aligned : KPOOL_VIRT `mod` PAGE_SIZE = 0;
  kpool_phys_pos : 0 ≤ KPOOL_PHYS;
  kpool_size_pos : 0 < KPOOL_SIZE;
  kpool_size_aligned : KPOOL_SIZE `mod` PAGE_SIZE = 0;
  kpool_size_word : KPOOL_SIZE < 2 ^ 32;
  kpool_fits : KPOOL_VIRT + KPOOL_SIZE ≤ 2 ^ VADDR_BITS;
  frame_bits_pos : 0 < FRAME_BITS;
  frames_fit : ((UBASE_PHYS ≫ PAGE_SHIFT) + NUM_UFRAMES) ≪ PAGE_SHIFT ≤ 2 ^ FRAME_BITS;
  kframes_fit : ((KPOOL_PHYS ≫ PAGE_SHIFT) + NUM_KPAGES) ≪ PAGE_SHIFT ≤ 2 ^ FRAME_BITS;
}.

(** Conversion of an address expression to [vaddr_t]. *)
Definition to_vaddr `{MemLayout} (x : Z) : Z := x `mod` 2 ^ VADDR_BITS.

(** ** Address predicates *)

Definition KMEM_AREA : Z := 0.
Definition UMEM_AREA : Z := 1.

Definition mm_is_uaddr `{MemLayout} (vaddr : Z) : bool :=
  (UBASE_VIRT <=? vaddr) && (vaddr <? UBASE_VIRT + UMEM_SIZE).

(** The branch compiled on every target but qemu-x86. *)
Definition mm_is_kaddr `{MemLayout} (vaddr : Z) : bool :=
  ((KBASE_VIRT <=? vaddr) && (vaddr <? KBASE_VIRT + KMEM_SIZE)) ||
  ((KPOOL_VIRT <=? vaddr) && (vaddr <? KPOOL_VIRT + KPOOL_SIZE)).

(** The targets that differ in what they check of a memory area: qemu-x86, the two
    OpenRISC targets, and the ones that check nothing. *)
Inductive mm_target := TargetX86 | TargetOpenRISC | TargetUnchecked.

(** On qemu-x86 [mm_is_kaddr] accepts every address. *)
Definition mm_is_kaddr_on `{MemLayout} (t : mm_target) (vaddr : Z) : bool :=
  match t with TargetX86 => true | _ => mm_is_kaddr vaddr end.

(** [size] is a [uint64_t]; the sum is taken modulo [2^64] and passed as a [vaddr_t]. *)
Definition mm_check_area `{MemLayout} (t : mm_target) (vaddr size area : Z) : bool :=
  let last := to_vaddr (u64 (vaddr + size)) in
  match t with
  | TargetX86 =>
      if area =? UMEM_AREA
      then mm_is_uaddr vaddr && mm_is_uaddr last
      else mm_is_kaddr_on t vaddr && mm_is_kaddr_on t last
  | TargetOpenRISC => mm_is_kaddr_on t vaddr && mm_is_kaddr_on t last
  | TargetUnchecked => true
  end.

(** ** Frame numbers *)

Definition frame_is_valid_id `{MemLayout} (id : Z) : bool := id <? NUM_UFRAMES.

Definition frame_id_to_num `{MemLayout} (id : Z) : Z :=
  if negb (frame_is_valid_id id) then FRAME_NULL else (UBASE_PHYS ≫ PAGE_SHIFT) + id.

Definition frame_is_valid_num `{MemLayout} (frame : Z) : bool :=
  ((UBASE_PHYS ≫ PAGE_SHIFT) <=? frame) && (frame <? (UBASE_PHYS ≫ PAGE_SHIFT) + NUM_UFRAMES).

Definition frame_num_to_id `{MemLayout} (frame : Z) : Z :=
  if negb (frame_is_valid_num frame) then -1 else frame - (UBASE_PHYS ≫ PAGE_SHIFT).

(** ** Kernel pool addresses *)

Definition kpool_is_kpage `{MemLayout} (vaddr : Z) : bool :=
  (KPOOL_VIRT <=? vaddr) && (vaddr <? KPOOL_VIRT + KPOOL_SIZE).

(** The identifier is an [unsigned], so the shift is taken modulo [2^32]. *)
Definition kpool_id_to_addr `{MemLayout} (id : Z) : Z :=
  to_vaddr (KPOOL_VIRT + u32 (u32 id ≪ PAGE_SHIFT)).

Definition kpool_frame_to_addr `{MemLayout} (frame : Z) : Z :=
  kpool_id_to_addr (frame - (KPOOL_PHYS ≫ PAGE_SHIFT)).

Definition kpool_addr_to_id `{MemLayout} (vaddr : Z) : Z :=
  to_vaddr (vaddr - KPOOL_VIRT) ≫ PAGE_SHIFT.

Definition kpool_addr_to_frame `{MemLayout} (vaddr : Z) : Z :=
  kpool_addr_to_id vaddr + (KPOOL_PHYS ≫ PAGE_SHIFT).

Definition upool_is_upage `{MemLayout} (vaddr : Z) : bool := mm_is_uaddr vaddr.

(** ** Lemmas *)

Section layout.
Context {M : MemLayout} {ML : MemLayoutLaws M}.

Lemma page_size_pos : 0 < PAGE_SIZE.
Proof. rewrite page_size_shift. pose proof page_shift_pos. lia. Qed.

Lemma num_uframes_size : UMEM_SIZE = NUM_UFRAMES * PAGE_SIZE.
Proof.
  unfold NUM_UFRAMES. pose proof page_size_pos. pose proof umem_size_pos.
  pose proof umem_size_aligned. rewrite Z.quot_div_nonneg by lia.
  pose proof (Z.div_mod UMEM_SIZE PAGE_SIZE). lia.
Qed.

Lemma num_kpages_size : KPOOL_SIZE = NUM_KPAGES * PAGE_SIZE.
Proof.
  unfold NUM_KPAGES. pose proof page_size_pos. pose proof kpool_size_pos.
  pose proof kpool_size_aligned. rewrite Z.quot_div_nonneg by lia.
  pose proof (Z.div_mod KPOOL_SIZE PAGE_SIZE). lia.
Qed.

Lemma num_uframes_pos : 0 < NUM_UFRAMES.
Proof.
  pose proof num_uframes_size. pose proof umem_size_pos. pose proof page_size_pos. nia.
Qed.

Lemma num_kpages_pos : 0 < NUM_KPAGES.
Proof.
  pose proof num_kpages_size. pose proof kpool_size_pos. pose proof page_size_pos. nia.
Qed.

Lemma mm_is_uaddr_spec v : mm_is_uaddr v = true <-> UBASE_VIRT ≤ v < UBASE_VIRT + UMEM_SIZE.
Proof. unfold mm_is_uaddr. lia. Qed.

Lemma frame_is_valid_num_spec f :
  frame_is_valid_num f = true <->
  UBASE_PHYS ≫ PAGE_SHIFT ≤ f < (UBASE_PHYS ≫ PAGE_SHIFT) + NUM_UFRAMES.
Proof. unfold frame_is_valid_num. lia. Qed.

Lemma frame_null_pow : FRAME_NULL = 2 ^ FRAME_BITS - 1.
Proof.
  unfold FRAME_NULL. pose proof frame_bits_pos.
  assert (2 ≤ 2 ^ FRAME_BITS) by (change 2 with (2 ^ 1) at 1; apply Z.pow_le_mono_r; lia).
  symmetry. apply (Z.mod_unique _ _ (-1)); lia.
Qed.

(** Frame numbers whose address fits a [frame_t]. *)
Definition frame_fits (f : Z) : Prop := 0 ≤ f /\ f ≪ PAGE_SHIFT < 2 ^ FRAME_BITS.

Lemma frame_fits_mul f : frame_fits f <-> 0 ≤ f /\ f * PAGE_SIZE < 2 ^ FRAME_BITS.
Proof.
  unfold frame_fits. rewrite page_size_shift, Z.shiftl_mul_pow2; [done|].
  pose proof page_shift_pos. lia.
Qed.

Lemma page_size_ge_2 : 2 ≤ PAGE_SIZE.
Proof.
  rewrite page_size_shift. change 2 with (2 ^ 1) at 1. pose proof page_shift_pos.
  apply Z.pow_le_mono_r; lia.
Qed.

Lemma frame_null_not_fits : ~ frame_fits FRAME_NULL.
Proof.
  rewrite frame_fits_mul, frame_null_pow. pose proof page_size_ge_2.
  pose proof frame_bits_pos.
  assert (2 ≤ 2 ^ FRAME_BITS) by (change 2 with (2 ^ 1) at 1; apply Z.pow_le_mono_r; lia).
  nia.
Qed.

Lemma valid_num_fits f : frame_is_valid_num f = true -> frame_fits f.
Proof.
  rewrite frame_is_valid_num_spec, frame_fits_mul. pose proof frames_fit as Hf.
  pose proof page_shift_pos. pose proof page_size_pos. pose proof ubase_phys_pos.
  rewrite Z.shiftl_mul_pow2, <- page_size_shift in Hf by lia.
  pose proof (Z.shiftr_nonneg UBASE_PHYS PAGE_SHIFT). nia.
Qed.

Lemma frame_null_invalid : frame_is_valid_num FRAME_NULL = false.
Proof. apply not_true_is_false. intros ?%valid_num_fits. by apply frame_null_not_fits. Qed.

Lemma kpool_id_to_addr_mul id :
  0 ≤ id < NUM_KPAGES -> kpool_id_to_addr id = KPOOL_VIRT + id * PAGE_SIZE.
Proof.
  intros Hid. unfold kpool_id_to_addr, to_vaddr.
  pose proof page_size_pos. pose proof num_kpages_size. pose proof kpool_size_word.
  pose proof kpool_fits. pose proof kpool_virt_pos. pose proof page_shift_pos.
  assert (0 ≤ id < 2 ^ 32) by nia. rewrite (u32_small id) by done.
  rewrite Z.shiftl_mul_pow2 by lia. rewrite <- page_size_shift.
  rewrite u32_small by nia. apply Z.mod_small. nia.
Qed.

Lemma kpool_addr_to_id_div v :
  KPOOL_VIRT ≤ v < 2 ^ VADDR_BITS -> kpool_addr_to_id v = (v - KPOOL_VIRT) / PAGE_SIZE.
Proof.
  intros Hv. unfold kpool_addr_to_id, to_vaddr. pose proof kpool_virt_pos.
  pose proof page_shift_pos. rewrite Z.mod_small by lia.
  by rewrite page_size_shift, Z.shiftr_div_pow2 by lia.
Qed.

(** Page identifiers and page addresses of the kernel pool are in bijection. *)
Lemma kpool_id_roundtrip id :
  0 ≤ id < NUM_KPAGES -> kpool_addr_to_id (kpool_id_to_addr id) = id.
Proof.
  intros Hid. rewrite kpool_id_to_addr_mul by done. pose proof page_size_pos.
  pose proof num_kpages_size. pose proof kpool_fits.
  rewrite kpool_addr_to_id_div by nia.
  replace (KPOOL_VIRT + id * PAGE_SIZE - KPOOL_VIRT) with (id * PAGE_SIZE) by lia.
  apply Z.div_mul. lia.
Qed.

Lemma kpool_is_kpage_id v : kpool_is_kpage v = true -> 0 ≤ kpool_addr_to_id v < NUM_KPAGES.
Proof.
  pose proof page_size_pos as Hp. pose proof num_kpages_size as Hs. pose proof kpool_fits.
  unfold kpool_is_kpage. rewrite andb_true_iff, Z.leb_le, Z.ltb_lt. intros ?.
  rewrite kpool_addr_to_id_div by lia. rewrite Hs in *.
  split; [apply Z.div_pos; lia|]. apply Z.div_lt_upper_bound; lia.
Qed.

Lemma kpool_id_kpage id : 0 ≤ id < NUM_KPAGES -> kpool_is_kpage (kpool_id_to_addr id) = true.
Proof.
  intros Hid. rewrite kpool_id_to_addr_mul by done. unfold kpool_is_kpage.
  pose proof page_size_pos. pose proof num_kpages_size. nia.
Qed.

Lemma kpool_id_to_addr_inj i j :
  0 ≤ i < NUM_KPAGES -> 0 ≤ j < NUM_KPAGES ->
  kpool_id_to_addr i = kpool_id_to_addr j -> i = j.
Proof.
  intros Hi Hj E. by rewrite <- (kpool_id_roundtrip i), E, kpool_id_roundtrip.
Qed.

Lemma kpool_frame_roundtrip id :
  0 ≤ id < NUM_KPAGES ->
  kpool_frame_to_addr (kpool_addr_to_frame (kpool_id_to_addr id)) = kpool_id_to_addr id.
Proof.
  intros Hid. unfold kpool_frame_to_addr, kpool_addr_to_frame.
  rewrite kpool_id_roundtrip by done. f_equal. lia.
Qed.

Lemma kpool_frame_fits id :
  0 ≤ id < NUM_KPAGES -> frame_fits (kpool_addr_to_frame (kpool_id_to_addr id)).
Proof.
  intros Hid. unfold kpool_addr_to_frame. rewrite kpool_id_roundtrip, frame_fits_mul by done.
  pose proof kframes_fit as Hf. pose proof page_shift_pos. pose proof page_size_pos.
  pose proof kpool_phys_pos. pose proof (Z.shiftr_nonneg KPOOL_PHYS PAGE_SHIFT).
  rewrite Z.shiftl_mul_pow2, <- page_size_shift in Hf by lia. nia.
Qed.

Lemma page_offset v : Z.land v (Z.lnot PAGE_MASK) = v `mod` PAGE_SIZE.
Proof.
  rewrite page_mask_size, Z.lnot_involutive, page_size_shift, Z.sub_1_r, <- Z.ones_equiv.
  apply Z.land_ones. pose proof page_shift_pos. lia.
Qed.

Lemma page_base v : Z.land v PAGE_MASK = v - v `mod` PAGE_SIZE.
Proof.
  pose proof (page_offset v) as H. rewrite <- H.
  pose proof (Z.add_lor_land (Z.land v PAGE_MASK) (Z.land v (Z.lnot PAGE_MASK))) as E.
  rewrite <- Z.land_lor_distr_r, Z.lor_lnot_diag, Z.land_m1_r in E.
  replace (Z.land (Z.land v PAGE_MASK) (Z.land v (Z.lnot PAGE_MASK))) with 0 in E; [lia|].
  apply Z.bits_inj'. intros n ?. rewrite Z.bits_0, !Z.land_spec, Z.lnot_spec by done.
  by destruct (Z.testbit v n), (Z.testbit PAGE_MASK n).
Qed.

(** ** Theorems *)

(** On qemu-x86, an area accepted by [mm_check_area] whose end does not wrap
    around the address space is made of user addresses only. *)
Theorem mm_check_area_sound vaddr size :
  0 ≤ vaddr -> 0 ≤ size -> vaddr + size < 2 ^ VADDR_BITS -> VADDR_BITS ≤ 64 ->
  mm_check_area TargetX86 vaddr size UMEM_AREA = true ->
  forall a, vaddr ≤ a < vaddr + size -> mm_is_uaddr a = true.
Proof.
  intros Hv Hs Hfit Hbits. unfold mm_check_area. simpl.
  assert (2 ^ VADDR_BITS ≤ 2 ^ 64) by (apply Z.pow_le_mono_r; lia).
  unfold to_vaddr. rewrite u64_small, Z.mod_small by lia.
  rewrite andb_true_iff, !mm_is_uaddr_spec. intros [? ?] a ?. apply mm_is_uaddr_spec. lia.
Qed.

(** Without that bound the check accepts areas larger than the user memory: the
    sum of address and size wraps around to a user address. *)
Theorem mm_check_area_wraps vaddr d :
  mm_is_uaddr vaddr = true -> mm_is_uaddr (vaddr - d) = true -> 0 < d -> VADDR_BITS ≤ 64 ->
  mm_check_area TargetX86 vaddr (2 ^ 64 - d) UMEM_AREA = true /\
  2 ^ VADDR_BITS - UMEM_SIZE < 2 ^ 64 - d.
Proof.
  rewrite !mm_is_uaddr_spec. intros Hv Hd Hpos Hbits. pose proof umem_fits. pose proof ubase_virt_pos.
  assert (2 ^ VADDR_BITS ≤ 2 ^ 64) by (apply Z.pow_le_mono_r; lia).
  unfold mm_check_area. simpl. unfold to_vaddr, u64.
  replace (vaddr + (2 ^ 64 - d)) with ((vaddr - d) + 1 * 2 ^ 64) by lia.
  rewrite Z.mod_add, (Z.mod_small (vaddr - d) (2 ^ 64)), Z.mod_small by lia.
  rewrite andb_true_iff, !mm_is_uaddr_spec. lia.
Qed.

End layout.

(** ** A small layout

    Pages of 16 bytes, eight user frames and three kernel pages, used to evaluate the
    model on concrete inputs. *)

Definition mem_small : MemLayout := {|
  VADDR_BITS := 16; PAGE_SHIFT := 4; PAGE_SIZE := 16; PAGE_MASK := -16;
  UBASE_VIRT := 256; UBASE_PHYS := 512; UMEM_SIZE := 128;
  KBASE_VIRT := 0; KMEM_SIZE := 64;
  KPOOL_VIRT := 64; KPOOL_PHYS := 64; KPOOL_SIZE := 48;
  FRAME_BITS := 16;
|}.

Lemma mem_small_laws : MemLayoutLaws mem_small.
Proof. split; vm_compute; done. Qed.

#[local] Existing Instances mem_small mem_small_laws.

Lemma mm_check_area_sound_witness :
  mm_check_area TargetX86 256 64 UMEM_AREA = true /\
  (forall a, 256 ≤ a < 256 + 64 -> mm_is_uaddr a = true).
Proof.
  split; [reflexivity|].
  apply (mm_check_area_sound 256 64); vm_compute; first [reflexivity | discriminate].
Defined.

Lemma mm_check_area_wraps_witness :
  mm_check_area TargetX86 300 (2 ^ 64 - 40) UMEM_AREA = true /\
  2 ^ VADDR_BITS - UMEM_SIZE < 2 ^ 64 - 40.
Proof. apply (mm_check_area_wraps 300 40); vm_compute; first [reflexivity | discriminate]. Defined.
