(* ===== verification/Alloc.v ===== *)
(** What the memory allocators of the kernel promise to their clients.

    The page frame allocator and the kernel page pool hand out units of memory from a
    fixed set.  [Allocator] is their common interface, [AllocatorLaws] its
    specification over the set of live units; Frame.v and Kpool.v provide instances,
    and the user page allocator is verified against the laws only. *)

From S2P Require Import Prelude.
From S2P Require Import Hlib.

Class Allocator (S : Type) := {
  al_wf : S -> Prop;
  al_null : Z;
  al_units : gset Z;
  al_live : S -> gset Z;
  al_alloc : K S Z;
  al_free : Z -> K S Z;
}.

Class AllocatorLaws {H : Hlib} {S : Type} (A : Allocator S) : Prop := {
  al_null_unit : al_null ∉ al_units;
  al_live_units s : al_wf s -> al_live s ⊆ al_units;
  al_alloc_ok s :
    al_wf s -> al_live s <> al_units ->
    wp al_alloc (fun u s' => al_wf s' /\ u ∈ al_units /\ (u ∉ al_live s) /\
                             al_live s' = {[u]} ∪ al_live s) s;
  al_alloc_full s :
    al_wf s -> al_live s = al_units -> wp al_alloc (fun u s' => u = al_null /\ s' = s) s;
  al_free_ok s u :
    al_wf s -> u ∈ al_live s ->
    wp (al_free u) (fun r s' => r = 0 /\ al_wf s' /\ al_live s' = al_live s ∖ {[u]}) s;
  al_free_dead s u :
    al_wf s -> u ∈ al_units -> u ∉ al_live s ->
    wp (al_free u) (fun r s' => r = err EFAULT /\ s' = s) s;
}.

(** A client that asks for [n] units and keeps those it gets. *)
Fixpoint alloc_many {S} `{Allocator S} (n : nat) : K S (list Z) :=
  match n with
  | O => mret []
  | Datatypes.S n' =>
      u ← al_alloc;
      if u =? al_null then mret [] else
      us ← alloc_many n';
      mret (u :: us)
  end.

Section clients.
Context {H : Hlib} {S : Type} {A : Allocator S} {AL : AllocatorLaws A}.

(** Both outcomes of an allocation in one rule. *)
Lemma al_alloc_cases s :
  al_wf s ->
  wp al_alloc (fun u s' =>
    (u = al_null /\ s' = s /\ al_live s = al_units) \/
    (u <> al_null /\ al_wf s' /\ u ∈ al_units /\ (u ∉ al_live s) /\
     al_live s' = {[u]} ∪ al_live s)) s.
Proof.
  intros Hwf. destruct (decide (al_live s = al_units)) as [E|E].
  - eapply wp_mono; [by apply al_alloc_full|]. naive_solver.
  - eapply wp_mono; [by apply al_alloc_ok|].
    intros u s' (?&Hu&?&?). right. split; [|done].
    intros ->. by apply al_null_unit in Hu.
Qed.

Lemma al_free_cases s u :
  al_wf s -> u ∈ al_units ->
  wp (al_free u) (fun r s' =>
    (u ∈ al_live s /\ r = 0 /\ al_wf s' /\ al_live s' = al_live s ∖ {[u]}) \/
    ((u ∉ al_live s) /\ r = err EFAULT /\ s' = s)) s.
Proof.
  intros Hwf Hu. destruct (decide (u ∈ al_live s)) as [E|E].
  - eapply wp_mono; [by apply al_free_ok|]. naive_solver.
  - eapply wp_mono; [by apply al_free_dead|]. naive_solver.
Qed.

Lemma alloc_many_spec n s :
  al_wf s ->
  wp (alloc_many n) (fun us s' =>
    al_wf s' /\ NoDup us /\ list_to_set us ## al_live s /\
    al_live s' = list_to_set us ∪ al_live s /\ (length us ≤ n)%nat /\
    ((length us < n)%nat -> al_live s' = al_units)) s.
Proof.
  revert s. induction n as [|n IH]; intros s Hwf; simpl.
  { wp_step. split_and!; first [done | apply NoDup_nil_2 | set_solver | intros; simpl in *; lia]. }
  wp_step. eapply wp_mono; [by apply al_alloc_cases|].
  intros u s1 [(->&->&E)|(Hn&Hwf1&Hu&Hfresh&E1)]; rewrite ?Z.eqb_refl.
  { wp_step. split_and!; first [done | apply NoDup_nil_2 | set_solver | intros; simpl in *; lia]. }
  rewrite (proj2 (Z.eqb_neq _ _) Hn). wp_step.
  eapply wp_mono; [by apply IH|]. simpl.
  intros us s2 (?&Hnd&Hdis&E2&?&Hfull). wp_step.
  rewrite E1 in *. repeat split; try done.
  - constructor; [set_solver|done].
  - set_solver.
  - rewrite E2. set_solver.
  - simpl. lia.
  - intros ?. apply Hfull. simpl in *. lia.
Qed.

Lemma NoDup_size (us : list Z) : NoDup us -> size (list_to_set us : gset Z) = length us.
Proof.
  induction 1 as [|u us Hu _ IH]; [by rewrite list_to_set_nil, size_empty|].
  rewrite list_to_set_cons, size_union, size_singleton, IH by set_solver. done.
Qed.

(** A client that starts with no live unit gets every unit once, then nothing. *)
Lemma alloc_all_spec s :
  al_wf s -> al_live s = ∅ ->
  wp (us ← alloc_many (size al_units); u ← al_alloc; mret (us, u))
     (fun r _ => NoDup r.1 /\ list_to_set r.1 = al_units /\ r.2 = al_null) s.
Proof.
  intros Hwf He. wp_step. eapply wp_mono; [by apply alloc_many_spec|].
  intros us s1 (Hwf1 & Hnd & _ & Hlive & Hlen & Hless). rewrite He, union_empty_r_L in Hlive.
  assert (Hall : al_live s1 = al_units).
  { destruct (decide (length us < size al_units)%nat) as [|Hge]; [auto|].
    apply set_eq. intros u. split; [by apply al_live_units|].
    rewrite (set_subseteq_size_eq (al_live s1) al_units); [done|by apply al_live_units|].
    rewrite Hlive, NoDup_size by done. lia. }
  wp_step. eapply wp_mono; [by apply al_alloc_full|]. intros u s2 [-> _]. wp_step.
  split_and!; try done. simpl. congruence.
Qed.

End clients.
