(* ===== verification/Frame.v ===== *)
(** The page frame allocator (src/kernel/mm/frame.c).

    The allocator keeps one bit per user frame.  The bitmap operations come from the
    support library, which is not part of the repository: they are the class
    [Bitmap].  [allocated] is the abstract state, the set of allocated frame numbers;
    the theorems show that each operation implements its specification on that set. *)

From S2P Require Import Prelude.
From S2P Require Import Hlib.
From S2P Require Import MemLayout.
From S2P Require Import Alloc.

(** ** Bitmaps of the support library *)

Class Bitmap := {
  bitmap : Type;
  BITMAP_FULL : Z;
  BITMAP_WORD_LENGTH : Z;
  sizeof_bitmap_t : Z;
  bitmap_zero : bitmap;
  bitmap_check_bit : bitmap -> Z -> bool;
  bitmap_set : bitmap -> Z -> bitmap;
  bitmap_clear : bitmap -> Z -> bitmap;
  bitmap_first_free : bitmap -> Z -> Z;
}.

Class BitmapLaws (B : Bitmap) : Prop := {
  bitmap_word_pos : 0 < BITMAP_WORD_LENGTH;
  bitmap_word_bytes : BITMAP_WORD_LENGTH = 8 * sizeof_bitmap_t;
  bitmap_check_zero i : bitmap_check_bit bitmap_zero i = false;
  bitmap_check_set b i j :
    bitmap_check_bit (bitmap_set b i) j = bool_decide (i = j) || bitmap_check_bit b j;
  bitmap_check_clear b i j :
    bitmap_check_bit (bitmap_clear b i) j = negb (bool_decide (i = j)) && bitmap_check_bit b j;
  bitmap_first_free_found b size :
    8 * size ≤ BITMAP_FULL -> bitmap_first_free b size <> BITMAP_FULL ->
    0 ≤ bitmap_first_free b size < 8 * size /\
    bitmap_check_bit b (bitmap_first_free b size) = false /\
    (forall j, 0 ≤ j < bitmap_first_free b size -> bitmap_check_bit b j = true);
  bitmap_first_free_full b size :
    8 * size ≤ BITMAP_FULL -> bitmap_first_free b size = BITMAP_FULL ->
    forall j, 0 ≤ j < 8 * size -> bitmap_check_bit b j = true;
}.

(** ** The allocator *)

Section frame.
Context `{H : Hlib} `{M : MemLayout} `{B : Bitmap}.

Definition FRAMES_LENGTH : Z := NUM_UFRAMES `quot` BITMAP_WORD_LENGTH.
Definition FRAMES_SIZE : Z := FRAMES_LENGTH * sizeof_bitmap_t.

(** A bit outside the array [frames] is an access out of bounds. *)
Definition frames_bit (bit : Z) : option Z :=
  if bool_decide (0 ≤ bit < FRAMES_LENGTH * BITMAP_WORD_LENGTH) then Some bit else None.

Definition frame_is_allocated (frame : Z) : K bitmap Z :=
  if negb (frame_is_valid_num frame) then mret 0 else
  bit ← kunwrap (frames_bit (frame_num_to_id frame));
  frames ← kgets id;
  mret (Z.b2z (bitmap_check_bit frames bit)).

Definition frame_alloc : K bitmap Z :=
  bit ← kgets (fun frames => bitmap_first_free frames FRAMES_SIZE);
  if bit =? BITMAP_FULL then mret FRAME_NULL else
  kmodify (fun frames => bitmap_set frames bit);;
  mret (frame_id_to_num bit).

Definition frame_free (frame : Z) : K bitmap Z :=
  if negb (frame_is_valid_num frame) then mret (err EINVAL) else
  bit ← kunwrap (frames_bit (frame_num_to_id frame));
  frames ← kgets id;
  if Z.b2z (bitmap_check_bit frames bit) =? 0 then mret (err EFAULT) else
  kmodify (fun frames => bitmap_clear frames bit);;
  mret 0.

(** With the tests of the allocator compiled out. *)
Definition frame_init : K bitmap unit := kmodify (fun _ => bitmap_zero).

(** ** Specification: a set of frame numbers *)

Definition frame_base : Z := UBASE_PHYS ≫ PAGE_SHIFT.

Definition allocated (frames : bitmap) : gset Z :=
  list_to_set (filter (fun f => bitmap_check_bit frames (f - frame_base) = true)
                      (seqZ frame_base NUM_UFRAMES)).

(** What the allocator relies on: the frames fill whole words of the bitmap, and the
    bitmap is smaller than its error value. *)
Class FrameConfig : Prop := {
  frames_whole_words : NUM_UFRAMES `mod` BITMAP_WORD_LENGTH = 0;
  frames_not_full : NUM_UFRAMES ≤ BITMAP_FULL;
}.

Context {HL : HlibLaws H} {ML : MemLayoutLaws M} {BL : BitmapLaws B} {FC : FrameConfig}.

Lemma frames_length_bits : FRAMES_LENGTH * BITMAP_WORD_LENGTH = NUM_UFRAMES.
Proof.
  unfold FRAMES_LENGTH. pose proof num_uframes_pos. pose proof bitmap_word_pos.
  pose proof frames_whole_words as Hm. rewrite Z.quot_div_nonneg by lia.
  pose proof (Z.div_mod NUM_UFRAMES BITMAP_WORD_LENGTH). lia.
Qed.

Lemma frames_size_bits : 8 * FRAMES_SIZE = NUM_UFRAMES.
Proof.
  unfold FRAMES_SIZE. pose proof frames_length_bits. pose proof bitmap_word_bytes. nia.
Qed.

Lemma elem_of_allocated frames f :
  f ∈ allocated frames <->
  frame_is_valid_num f = true /\ bitmap_check_bit frames (f - frame_base) = true.
Proof.
  unfold allocated. rewrite elem_of_list_to_set, list_elem_of_filter, elem_of_seqZ.
  rewrite frame_is_valid_num_spec. unfold frame_base. tauto.
Qed.

Lemma frames_bit_valid f :
  frame_is_valid_num f = true ->
  frames_bit (frame_num_to_id f) = Some (f - frame_base).
Proof.
  intros Hv. unfold frames_bit, frame_num_to_id. rewrite Hv. simpl.
  apply frame_is_valid_num_spec in Hv. rewrite frames_length_bits.
  rewrite bool_decide_true by lia. done.
Qed.

Lemma frame_is_allocated_spec f frames :
  wp (frame_is_allocated f)
     (fun r frames' => frames' = frames /\ r = Z.b2z (bool_decide (f ∈ allocated frames)))
     frames.
Proof.
  unfold frame_is_allocated. wp_step.
  - wp_step. split; [done|]. apply negb_true_iff in H0.
    rewrite bool_decide_false; [done|]. rewrite elem_of_allocated, H0. by intros [??].
  - apply negb_false_iff in H0. wp_step. wp_step; [by apply frames_bit_valid|].
    repeat wp_step. split; [done|]. f_equal. apply Bool.eq_iff_eq_true.
    rewrite bool_decide_eq_true, elem_of_allocated. unfold id. tauto.
Qed.

Lemma allocated_set frames i :
  0 ≤ i < NUM_UFRAMES ->
  allocated (bitmap_set frames i) = {[frame_base + i]} ∪ allocated frames.
Proof.
  intros Hi. apply set_eq. intros f.
  rewrite elem_of_union, elem_of_singleton, !elem_of_allocated, bitmap_check_set.
  rewrite orb_true_iff, bool_decide_eq_true, frame_is_valid_num_spec.
  fold frame_base. split; [|intros [->|?]]; try tauto; [|lia].
  intros [? [Hf|Hf]]; [left; lia|tauto].
Qed.

Lemma allocated_clear frames i :
  allocated (bitmap_clear frames i) = allocated frames ∖ {[frame_base + i]}.
Proof.
  apply set_eq. intros f.
  rewrite elem_of_difference, elem_of_singleton, !elem_of_allocated, bitmap_check_clear.
  rewrite andb_true_iff, negb_true_iff, bool_decide_eq_false.
  split; [intros (?&?&?)|intros [[??]?]]; repeat split; try done; lia.
Qed.

Lemma frame_id_to_num_valid i : 0 ≤ i < NUM_UFRAMES -> frame_id_to_num i = frame_base + i.
Proof.
  intros ?. unfold frame_id_to_num, frame_is_valid_id. by rewrite (proj2 (Z.ltb_lt _ _)) by lia.
Qed.

(** [frame_alloc] returns the lowest free frame and marks it, or [FRAME_NULL] when
    every frame is allocated. *)
Lemma frame_alloc_cases (frames : bitmap) :
  wp frame_alloc (fun f frames' =>
    (f = FRAME_NULL /\ frames' = frames /\
     forall g, frame_is_valid_num g = true -> g ∈ allocated frames) \/
    (frame_is_valid_num f = true /\ (f ∉ allocated frames) /\
     allocated frames' = {[f]} ∪ allocated frames /\
     forall g, frame_is_valid_num g = true -> g < f -> g ∈ allocated frames)) frames.
Proof.
  unfold frame_alloc. wp_step. wp_step. pose proof frames_size_bits as Hb.
  pose proof frames_not_full. wp_step.
  - wp_step. left. repeat split; try done. intros g Hg.
    rewrite elem_of_allocated. split; [done|]. apply frame_is_valid_num_spec in Hg.
    eapply bitmap_first_free_full; [|by apply Z.eqb_eq|]; rewrite Hb; unfold frame_base; lia.
  - wp_step. wp_step. wp_step. right.
    destruct (bitmap_first_free_found frames FRAMES_SIZE) as (Hr & Hc & Hmin);
      [lia|by apply Z.eqb_neq|].
    rewrite Hb in Hr. rewrite frame_id_to_num_valid by done.
    rewrite allocated_set by done. repeat split; try done.
    + rewrite frame_is_valid_num_spec. fold frame_base. lia.
    + rewrite elem_of_allocated. intros [_ Hc'].
      replace (frame_base + _ - frame_base) with (bitmap_first_free frames FRAMES_SIZE) in Hc' by lia.
      congruence.
    + intros g Hg ?. rewrite elem_of_allocated. split; [done|]. apply Hmin.
      apply frame_is_valid_num_spec in Hg. fold frame_base in Hg. lia.
Qed.

Lemma frame_free_cases f (frames : bitmap) :
  wp (frame_free f) (fun r frames' =>
    (frame_is_valid_num f = false /\ r = err EINVAL /\ frames' = frames) \/
    (frame_is_valid_num f = true /\ (f ∉ allocated frames) /\ r = err EFAULT /\ frames' = frames) \/
    (f ∈ allocated frames /\ r = 0 /\ allocated frames' = allocated frames ∖ {[f]})) frames.
Proof.
  unfold frame_free. destruct (frame_is_valid_num f) eqn:Hv; simpl.
  - wp_step. wp_step; [by apply frames_bit_valid|]. wp_step. wp_step. unfold id.
    destruct (bitmap_check_bit frames (f - frame_base)) eqn:Hc; simpl.
    + repeat wp_step. right; right. rewrite elem_of_allocated, allocated_clear.
      repeat split; try done. do 2 f_equal. lia.
    + wp_step. right; left. rewrite elem_of_allocated, Hc. split_and!; try done. by intros [??].
  - wp_step. by left.
Qed.

(** ** The frame allocator implements the allocator interface *)

#[export] Instance frame_allocator : Allocator bitmap := {|
  al_wf _ := True;
  al_null := FRAME_NULL;
  al_units := list_to_set (seqZ frame_base NUM_UFRAMES);
  al_live := allocated;
  al_alloc := frame_alloc;
  al_free := frame_free;
|}.

Lemma elem_of_frame_units f : f ∈ al_units (S:=bitmap) <-> frame_is_valid_num f = true.
Proof.
  simpl. rewrite elem_of_list_to_set, elem_of_seqZ, frame_is_valid_num_spec. done.
Qed.

#[export] Instance frame_allocator_laws : AllocatorLaws frame_allocator.
Proof.
  split.
  - rewrite elem_of_frame_units. simpl. by rewrite frame_null_invalid.
  - intros s _ f Hf. apply elem_of_frame_units. by apply elem_of_allocated in Hf as [??].
  - intros s _ Hne. eapply wp_mono; [apply frame_alloc_cases|].
    intros f s' [(?&?&Hall)|(?&?&?&_)].
    + destruct Hne. apply set_eq. intros g. rewrite elem_of_frame_units.
      split; [|by apply Hall]. simpl. rewrite elem_of_allocated. tauto.
    + by rewrite elem_of_frame_units.
  - intros s _ E. eapply wp_mono; [apply frame_alloc_cases|].
    intros f s' [(?&?&_)|(Hv&Hf&_)]; [done|].
    destruct Hf. change (f ∈ al_live s). rewrite E. by apply elem_of_frame_units.
  - intros s f _ Hf. eapply wp_mono; [apply frame_free_cases|].
    change (f ∈ allocated s) in Hf. apply elem_of_allocated in Hf as Hf'.
    intros r s' [(E&_)|[(_&Hn&_)|(_&->&?)]]; [|done|done]. destruct Hf' as [Hv _]. congruence.
  - intros s f _ Hf%elem_of_frame_units Hn. eapply wp_mono; [apply frame_free_cases|].
    intros r s' [(E&_)|[(_&_&->&->)|(Hin&_)]]; [congruence|done|done].
Qed.

Lemma frame_units_size : size (al_units (S:=bitmap)) = Z.to_nat NUM_UFRAMES.
Proof.
  etrans; [apply (NoDup_size (seqZ frame_base NUM_UFRAMES)), NoDup_seqZ|apply length_seqZ].
Qed.

Lemma allocated_zero : allocated bitmap_zero = ∅.
Proof.
  apply set_eq. intros f. rewrite elem_of_allocated, bitmap_check_zero. set_solver.
Qed.

(** ** Theorems *)

(** After initialisation the allocator hands out every user frame exactly once,
    and then reports that there is none left. *)
Theorem frame_alloc_exhaustive (frames : bitmap) :
  wp (frame_init;;
      us ← alloc_many (Z.to_nat NUM_UFRAMES);
      f ← frame_alloc;
      mret (us, f))
     (fun r _ => NoDup r.1 /\ (forall f, f ∈ r.1 <-> frame_is_valid_num f = true) /\
                 r.2 = FRAME_NULL) frames.
Proof.
  unfold frame_init. wp_step. wp_step. rewrite <- frame_units_size.
  eapply wp_mono; [apply (alloc_all_spec (A:=frame_allocator)); [done|apply allocated_zero]|].
  intros [us u] _ (Hnd & Hus & ->). split_and!; [done| |done]. intros f.
  rewrite <- elem_of_frame_units, <- Hus. by rewrite elem_of_list_to_set.
Qed.

(** [frame_alloc] takes the lowest free frame; freeing it restores the set of
    allocated frames; freeing it once more, or freeing a number that is not a user
    frame, is refused and changes nothing. *)
Theorem frame_alloc_free (frames : bitmap) g :
  (exists f, frame_is_valid_num f = true /\ f ∉ allocated frames) ->
  frame_is_valid_num g = false ->
  wp (f ← frame_alloc; r1 ← frame_free f; r2 ← frame_free f; r3 ← frame_free g; mret (f, r1, r2, r3))
     (fun r frames' =>
        let '(f, r1, r2, r3) := r in
        (f ∉ allocated frames) /\
        (forall h, frame_is_valid_num h = true -> h < f -> h ∈ allocated frames) /\
        r1 = 0 /\ r2 = err EFAULT /\ r3 = err EINVAL /\ allocated frames' = allocated frames) frames.
Proof.
  intros (f0 & Hv0 & Hf0) Hg. wp_step. eapply wp_mono; [apply frame_alloc_cases|].
  intros f s1 [(_ & _ & Hall)|(Hv & Hf & E1 & Hmin)]; [by destruct Hf0; apply Hall|].
  wp_step. eapply wp_mono; [apply frame_free_cases|].
  intros r1 s2 [(?&_)|[(_&Hn&_)|(_&->&E2)]]; [congruence|set_solver|].
  wp_step. eapply wp_mono; [apply frame_free_cases|].
  intros r2 s3 [(?&_)|[(_&_&->&->)|(Hin&_)]]; [congruence| |set_solver].
  wp_step. eapply wp_mono; [apply frame_free_cases|].
  intros r3 s4 [(_&->&->)|[(?&_)|(Hin&_)]]; [|congruence|by apply elem_of_allocated in Hin as [? _]; congruence].
  wp_step. split_and!; try done. rewrite E2, E1. set_solver.
Qed.

End frame.

(** ** Concrete bitmaps *)

Definition bitmap_sets : Bitmap := {|
  bitmap := gset Z;
  BITMAP_FULL := 2 ^ 32 - 1;
  BITMAP_WORD_LENGTH := 8;
  sizeof_bitmap_t := 1;
  bitmap_zero := ∅;
  bitmap_check_bit b i := bool_decide (i ∈ b);
  bitmap_set b i := {[i]} ∪ b;
  bitmap_clear b i := b ∖ {[i]};
  bitmap_first_free b size :=
    match search (fun i => negb (bool_decide (i ∈ b))) (seqZ 0 (8 * size)) with
    | Some i => i
    | None => 2 ^ 32 - 1
    end;
|}.

Lemma aget_seqZ n i x : aget (seqZ 0 n) i = Some x <-> 0 ≤ i < n /\ x = i.
Proof.
  unfold aget. case_bool_decide; [|naive_solver lia]. rewrite lookup_seqZ. naive_solver lia.
Qed.

Lemma bitmap_sets_laws : BitmapLaws bitmap_sets.
Proof.
  split; simpl; try done.
  - intros b i j. repeat case_bool_decide; set_solver.
  - intros b i j. repeat case_bool_decide; set_solver.
  - intros b size Hs. destruct (search _ _) as [i|] eqn:E; [|done].
    apply search_Some in E as (Hr & (x & Hx & Hc) & Hmin). intros _.
    apply aget_seqZ in Hx as [? ->]. split_and!; try lia; [by apply negb_true_iff in Hc|].
    intros j Hj. specialize (Hmin j j ltac:(lia)). rewrite aget_seqZ in Hmin.
    apply negb_false_iff, Hmin. split; [lia|done].
  - intros b size Hs. destruct (search _ _) as [i|] eqn:E.
    + apply search_Some in E as (Hr & (x & Hx & Hc) & Hmin).
      apply aget_seqZ in Hx as [? ->]. lia.
    + intros _ j Hj. apply negb_false_iff.
      apply (search_None_aget _ _ j j E). by apply aget_seqZ.
Qed.

#[local] Existing Instances mem_small mem_small_laws bitmap_sets bitmap_sets_laws.

#[local] Instance frame_small_config : FrameConfig.
Proof. by split. Qed.

(** No frame, and the two lowest frames, allocated. *)
Definition frames_none : bitmap := (∅ : gset Z).
Definition frames_two : bitmap := ({[0; 1]} : gset Z).

Lemma frame_alloc_exhaustive_witness :
  wp (frame_init;; us ← alloc_many (Z.to_nat NUM_UFRAMES); f ← frame_alloc; mret (us, f))
     (fun r _ => NoDup r.1 /\ (forall f, f ∈ r.1 <-> frame_is_valid_num f = true) /\
                 r.2 = FRAME_NULL) frames_none.
Proof. apply (frame_alloc_exhaustive frames_none). Defined.

Lemma frame_alloc_free_witness :
  wp (f ← frame_alloc; r1 ← frame_free f; r2 ← frame_free f; r3 ← frame_free 3; mret (f, r1, r2, r3))
     (fun r frames' =>
        let '(f, r1, r2, r3) := r in
        (f ∉ allocated frames_two) /\
        (forall h, frame_is_valid_num h = true -> h < f -> h ∈ allocated frames_two) /\
        r1 = 0 /\ r2 = err EFAULT /\ r3 = err EINVAL /\
        allocated frames' = allocated frames_two) frames_two.
Proof.
  apply (frame_alloc_free frames_two 3); [|reflexivity].
  exists 36. split; [reflexivity|]. intros Hin. apply elem_of_allocated in Hin as [_ Hin].
  vm_compute in Hin. discriminate Hin.
Defined.
