(* ===== verification/Kpool.v ===== *)
(** The kernel page pool (src/kernel/mm/kpool.c).

    The pool keeps a reference count per kernel page; the memory of the pages is part
    of the state, in the type [C] at which the client of the pool uses a page
    ([page_zero] is a page filled with zeros).  The abstract state is the set of
    addresses of pages in use. *)

From S2P Require Import Prelude.
From S2P Require Import Hlib.
From S2P Require Import MemLayout.
From S2P Require Import Alloc.

Record kpool (C : Type) := Kpool { kpages : list Z; kmem : list C }.
Arguments Kpool {C} kpages kmem.
Arguments kpages {C} k.
Arguments kmem {C} k.

Section kpool.
Context `{H : Hlib} `{M : MemLayout} {C : Type} (page_zero : C).

Definition set_kpages (l : list Z) (s : kpool C) : kpool C := Kpool l (kmem s).
Definition set_kmem (l : list C) (s : kpool C) : kpool C := Kpool (kpages s) l.

(** ** Operations *)

Definition kpage_get (clean : bool) : K (kpool C) Z :=
  s ← kgets kpages;
  match search (fun n => n =? 0) s with
  | None => mret 0
  | Some i =>
      let kpg := kpool_id_to_addr i in
      n ← kunwrap (aget s i);
      kmodify (set_kpages (aset i (n + 1) s));;
      (if clean then kmodify (fun st => set_kmem (aset i page_zero (kmem st)) st) else mret tt);;
      mret kpg
  end.

Definition kpage_put (kpg : Z) : K (kpool C) Z :=
  if negb (kpool_is_kpage kpg) then mret (err EINVAL) else
  let i := kpool_addr_to_id kpg in
  s ← kgets kpages;
  n ← kunwrap (aget s i);
  if n =? 0 then mret (err EFAULT) else
  kmodify (set_kpages (aset i (n - 1) s));;
  mret 0.

(** With the tests of the pool compiled out. *)
Definition kpool_init : K (kpool C) unit :=
  kmodify (set_kpages (replicate (Z.to_nat NUM_KPAGES) 0)).

(** ** Specification: the set of pages in use *)

Definition kpool_wf (s : kpool C) : Prop :=
  alen (kpages s) = NUM_KPAGES /\ alen (kmem s) = NUM_KPAGES /\
  Forall (fun n => n = 0 \/ n = 1) (kpages s).

Definition page_used (s : kpool C) (i : Z) : bool :=
  match aget (kpages s) i with Some n => negb (n =? 0) | None => false end.

Definition used_pages (s : kpool C) : gset Z :=
  list_to_set (kpool_id_to_addr <$> filter (fun i => page_used s i = true) (seqZ 0 NUM_KPAGES)).

Context {HL : HlibLaws H} {ML : MemLayoutLaws M}.

Lemma elem_of_used_pages s a :
  a ∈ used_pages s <->
  exists i, 0 ≤ i < NUM_KPAGES /\ a = kpool_id_to_addr i /\ page_used s i = true.
Proof.
  unfold used_pages. rewrite elem_of_list_to_set, list_elem_of_fmap. split.
  - intros (i & -> & [? Hi]%list_elem_of_filter). apply elem_of_seqZ in Hi. exists i. split; [lia|done].
  - intros (i & ? & -> & ?). exists i. split; [done|]. apply list_elem_of_filter.
    split; [done|]. apply elem_of_seqZ. lia.
Qed.

Lemma page_used_elem s i :
  0 ≤ i < NUM_KPAGES -> kpool_id_to_addr i ∈ used_pages s <-> page_used s i = true.
Proof.
  intros Hi. rewrite elem_of_used_pages. split.
  - intros (j & Hj & E%kpool_id_to_addr_inj & ?); [by subst|done|done].
  - eauto.
Qed.

Lemma page_used_set s n i j :
  0 ≤ i < alen (kpages s) ->
  page_used (set_kpages (aset i n (kpages s)) s) j =
  if bool_decide (i = j) then negb (n =? 0) else page_used s j.
Proof.
  intros Hi. unfold page_used. simpl. case_bool_decide; subst.
  - by rewrite aget_aset_eq.
  - by rewrite aget_aset_ne.
Qed.

Lemma used_pages_ext s s' : kpages s = kpages s' -> used_pages s = used_pages s'.
Proof. intros E. unfold used_pages, page_used. by rewrite E. Qed.

Lemma used_pages_set s i n :
  kpool_wf s -> 0 ≤ i < NUM_KPAGES ->
  used_pages (set_kpages (aset i n (kpages s)) s) =
  if n =? 0 then used_pages s ∖ {[kpool_id_to_addr i]}
  else {[kpool_id_to_addr i]} ∪ used_pages s.
Proof.
  intros (Hl & _) Hi. apply set_eq. intros a. destruct (n =? 0) eqn:En.
  - rewrite elem_of_difference, elem_of_singleton, !elem_of_used_pages. split.
    + intros (j & Hj & -> & Hu). rewrite page_used_set in Hu by lia.
      case_bool_decide; [by rewrite En in Hu|]. split; [eauto|].
      by intros ?%kpool_id_to_addr_inj.
    + intros [(j & Hj & -> & Hu) Hne]. exists j. split_and!; try done; try lia.
      rewrite page_used_set by lia. rewrite bool_decide_false; [done|]. by intros ->.
  - rewrite elem_of_union, elem_of_singleton, !elem_of_used_pages. split.
    + intros (j & Hj & -> & Hu). rewrite page_used_set in Hu by lia.
      case_bool_decide; subst; [by left|right; eauto].
    + intros [->|(j & Hj & -> & Hu)].
      * exists i. rewrite page_used_set, bool_decide_true, En by (done || lia). done.
      * exists j. rewrite page_used_set by lia. split_and!; try done; try lia.
        case_bool_decide; [by rewrite En|done].
Qed.

Lemma kpages_range s i n :
  kpool_wf s -> aget (kpages s) i = Some n -> 0 ≤ i < NUM_KPAGES /\ (n = 0 \/ n = 1).
Proof.
  intros (Hl & _ & Hall) Hi. split; [apply aget_lt in Hi; lia|].
  by eapply (Forall_aget (fun n => n = 0 \/ n = 1)).
Qed.

Lemma kpages_lookup s i :
  kpool_wf s -> 0 ≤ i < NUM_KPAGES ->
  aget (kpages s) i = Some (if page_used s i then 1 else 0).
Proof.
  intros Hwf Hi. pose proof Hwf as (Hl & _ & _).
  destruct (aget_is_Some (kpages s) i) as [n Hn]; [lia|].
  destruct (kpages_range _ _ _ Hwf Hn) as [_ [->| ->]]; unfold page_used; by rewrite Hn.
Qed.

Lemma kpool_wf_set s i n :
  kpool_wf s -> n = 0 \/ n = 1 -> kpool_wf (set_kpages (aset i n (kpages s)) s).
Proof.
  intros (Hl & Hm & Hall) Hn. split_and!; simpl; [by rewrite length_aset|done|].
  by apply Forall_aset.
Qed.

(** [kpage_get] hands out the lowest page that is not in use, with a clean content on
    demand and every other page untouched, or [NULL] when all pages are in use. *)
Lemma kpage_get_cases clean s :
  kpool_wf s ->
  wp (kpage_get clean) (fun a s' =>
    (a = 0 /\ s' = s /\ forall i, 0 ≤ i < NUM_KPAGES -> page_used s i = true) \/
    (exists i, 0 ≤ i < NUM_KPAGES /\ a = kpool_id_to_addr i /\ page_used s i = false /\
       (forall j, 0 ≤ j < i -> page_used s j = true) /\ kpool_wf s' /\
       used_pages s' = {[a]} ∪ used_pages s /\
       kmem s' = if clean then aset i page_zero (kmem s) else kmem s)) s.
Proof.
  intros Hwf. unfold kpage_get. wp_step. wp_step.
  destruct (search (fun n => n =? 0) (kpages s)) as [i|] eqn:Es.
  - apply search_Some in Es as (Hr & (n & Hn & Hz) & Hmin).
    pose proof Hwf as (Hl & Hm & _). wp_step. wp_step; [done|]. wp_step. wp_step.
    apply Z.eqb_eq in Hz as ->. wp_step.
    assert (Hu : page_used s i = false) by (unfold page_used; by rewrite Hn).
    assert (Hlow : forall j, 0 ≤ j < i -> page_used s j = true).
    { intros j Hj. pose proof (kpages_lookup s j Hwf ltac:(lia)) as E.
      destruct (page_used s j); [done|]. specialize (Hmin _ _ (proj2 Hj) E). done. }
    assert (Hset := used_pages_set s i 1 Hwf ltac:(lia)). simpl in Hset.
    pose proof (kpool_wf_set s i 1 Hwf (or_intror eq_refl)) as (Hl' & Hm' & Hall').
    wp_step; repeat wp_step; right; exists i; subst clean; split_and!; try done; try lia.
    + split_and!; simpl in *; rewrite ?length_aset in *; done.
  - wp_step. left. split_and!; try done. intros i Hi.
    pose proof (kpages_lookup s i Hwf Hi) as E. destruct (page_used s i); [done|].
    by pose proof (search_None_aget _ _ _ _ Es E).
Qed.

Lemma kpage_put_cases a s :
  kpool_wf s ->
  wp (kpage_put a) (fun r s' =>
    let i := kpool_addr_to_id a in
    (kpool_is_kpage a = false /\ r = err EINVAL /\ s' = s) \/
    (kpool_is_kpage a = true /\ page_used s i = false /\ r = err EFAULT /\ s' = s) \/
    (kpool_is_kpage a = true /\ page_used s i = true /\ r = 0 /\ kpool_wf s' /\
     used_pages s' = used_pages s ∖ {[kpool_id_to_addr i]} /\ kmem s' = kmem s)) s.
Proof.
  intros Hwf. unfold kpage_put. destruct (kpool_is_kpage a) eqn:Ha; simpl.
  - pose proof (kpool_is_kpage_id _ Ha) as Hi. wp_step. wp_step. wp_step.
    wp_step; [by apply kpages_lookup|].
    destruct (page_used s (kpool_addr_to_id a)) eqn:Hu; simpl.
    + repeat wp_step. right; right.
      pose proof (kpool_wf_set s (kpool_addr_to_id a) 0 Hwf (or_introl eq_refl)).
      pose proof (used_pages_set s (kpool_addr_to_id a) 0 Hwf Hi). done.
    + wp_step. right; left. done.
  - wp_step. by left.
Qed.

(** ** The pool implements the allocator interface *)

#[export] Instance kpool_allocator : Allocator (kpool C) := {|
  al_wf := kpool_wf;
  al_null := 0;
  al_units := list_to_set (kpool_id_to_addr <$> seqZ 0 NUM_KPAGES);
  al_live := used_pages;
  al_alloc := kpage_get false;
  al_free := kpage_put;
|}.

Lemma elem_of_kpool_units a :
  a ∈ al_units (S:=kpool C) <-> exists i, 0 ≤ i < NUM_KPAGES /\ a = kpool_id_to_addr i.
Proof.
  simpl. rewrite elem_of_list_to_set, list_elem_of_fmap. split.
  - intros (i & -> & Hi%elem_of_seqZ). exists i. split; [lia|done].
  - intros (i & ? & ->). exists i. split; [done|]. apply elem_of_seqZ. lia.
Qed.

Lemma used_pages_all s :
  kpool_wf s ->
  used_pages s = al_units (S:=kpool C) <->
  forall i, 0 ≤ i < NUM_KPAGES -> page_used s i = true.
Proof.
  intros Hwf. split.
  - intros E i Hi. apply page_used_elem; [done|]. rewrite E. apply elem_of_kpool_units. eauto.
  - intros Hall. apply set_eq. intros a. rewrite elem_of_kpool_units, elem_of_used_pages.
    split; intros (i & Hi & ?); exists i; naive_solver.
Qed.

#[export] Instance kpool_allocator_laws : AllocatorLaws kpool_allocator.
Proof.
  split.
  - rewrite elem_of_kpool_units. intros (i & Hi & E). simpl in E.
    rewrite kpool_id_to_addr_mul in E by done. pose proof kpool_virt_pos.
    pose proof page_size_pos. nia.
  - intros s _ a Ha. apply elem_of_kpool_units. apply elem_of_used_pages in Ha. naive_solver.
  - intros s Hwf Hne. eapply wp_mono; [by apply kpage_get_cases|].
    intros a s' [(_&_&Hall)|(i&?&->&Hu&_&?&?&_)]; [by destruct Hne; apply used_pages_all|].
    rewrite elem_of_kpool_units. split_and!; try done; [by eauto|].
    change (kpool_id_to_addr i ∉ used_pages s). rewrite page_used_elem by done. by rewrite Hu.
  - intros s Hwf E. eapply wp_mono; [by apply kpage_get_cases|].
    intros a s' [(->&->&_)|(i&Hi&->&Hu&_)]; [done|].
    rewrite (proj1 (used_pages_all s Hwf) E) in Hu; done.
  - intros s a Hwf Ha. eapply wp_mono; [by apply kpage_put_cases|].
    change (a ∈ used_pages s) in Ha. apply elem_of_used_pages in Ha as (i & Hi & -> & Hu).
    simpl. rewrite kpool_id_roundtrip, kpool_id_kpage, Hu by done. naive_solver.
  - intros s a Hwf Ha Hn. eapply wp_mono; [by apply kpage_put_cases|].
    apply elem_of_kpool_units in Ha as (i & Hi & ->). simpl in Hn.
    rewrite page_used_elem in Hn by done. apply not_true_is_false in Hn.
    simpl. rewrite kpool_id_roundtrip, kpool_id_kpage, Hn by done. naive_solver.
Qed.

(** ** Theorems *)

(** [kpage_get] hands out the lowest page that is not in use, filled with zeros if
    asked to, without touching any other page; when every page is in use it returns
    the null pointer and changes nothing. *)
Theorem kpage_get_correct clean s :
  kpool_wf s ->
  wp (kpage_get clean) (fun a s' =>
    (a = 0 /\ s' = s /\ forall i, 0 ≤ i < NUM_KPAGES -> page_used s i = true) \/
    (exists i, 0 ≤ i < NUM_KPAGES /\ a = kpool_id_to_addr i /\ page_used s i = false /\
       (forall j, 0 ≤ j < i -> page_used s j = true) /\ kpool_wf s' /\
       used_pages s' = {[a]} ∪ used_pages s /\
       kmem s' = if clean then aset i page_zero (kmem s) else kmem s)) s.
Proof. apply kpage_get_cases. Qed.

End kpool.

#[local] Existing Instances mem_small mem_small_laws.

Lemma kpage_get_correct_witness :
  wp (kpage_get 0 true) (fun a s' =>
    (a = 0 /\ s' = Kpool [1; 0; 1] [7; 7; 7] /\
     forall i, 0 ≤ i < NUM_KPAGES -> page_used (Kpool [1; 0; 1] [7; 7; 7]) i = true) \/
    (exists i, 0 ≤ i < NUM_KPAGES /\ a = kpool_id_to_addr i /\
       page_used (Kpool [1; 0; 1] [7; 7; 7]) i = false /\
       (forall j, 0 ≤ j < i -> page_used (Kpool [1; 0; 1] [7; 7; 7]) j = true) /\ kpool_wf s' /\
       used_pages s' = {[a]} ∪ used_pages (Kpool [1; 0; 1] [7; 7; 7]) /\
       kmem s' = aset i 0 [7; 7; 7])) (Kpool [1; 0; 1] [7; 7; 7]).
Proof.
  apply (kpage_get_correct 0 true (Kpool [1; 0; 1] [7; 7; 7])).
  split; [reflexivity|split; [reflexivity|]].
  repeat (apply Forall_cons_2; [auto|]). apply Forall_nil_2.
Defined.
