(* ===== verification/Upage.v ===== *)
(** The user page allocator (src/kernel/mm/page.c).

    A page directory is an array of entries, each of which may point to a page table
    held in a page of the kernel pool.  Entries, the MMU routines that write them and
    the TLB belong to the HAL, which is not part of the repository: they are the class
    [Mmu], with what the code relies on in [MmuLaws].  The abstract state is the
    function [translate] from a page directory and a user page to a frame. *)

From S2P Require Import Prelude.
From S2P Require Import Hlib.
From S2P Require Import MemLayout.
From S2P Require Import Alloc.
From S2P Require Import Frame.
From S2P Require Import Kpool.

(** ** The MMU and the TLB *)

Inductive tlb_type := TLB_INSTRUCTION | TLB_DATA.

Class Mmu `{MemLayout} := {
  pde : Type;
  pte : Type;
  PDE_SIZE : Z;
  PGDIR_LENGTH : Z;
  PGTAB_MASK : Z;
  root_pgdir : Z;
  pde_idx_get : Z -> Z;
  pte_idx_get : Z -> Z;
  pde_is_present : pde -> bool;
  pde_frame_get : pde -> Z;
  pde_present_set : pde -> bool -> pde;
  pte_is_present : pte -> bool;
  pte_frame_get : pte -> Z;
  pte_present_set : pte -> bool -> pte;
  pte_clear : pte -> pte;
  mmu_pgtab_map : list pde -> Z -> Z -> list pde;
  mmu_page_map : list pte -> Z -> Z -> bool -> bool -> list pte;
  tlbs : Type;
  tlb_lookup : tlbs -> tlb_type -> Z -> option Z;
  tlb_inval : tlbs -> tlb_type -> Z -> Z * tlbs;
  tlb_shootdown : tlbs -> Z -> Z * tlbs;
  tlb_write : tlbs -> tlb_type -> Z -> Z -> Z * tlbs;
  tlb_flush : tlbs -> tlbs;
  CORE_HAS_TLB_HW : bool;
  CLUSTER_HAS_TLB_SHOOTDOWN : bool;
  NANVIX_FAST_MEMORY : bool;
}.

(** Entries of a page table, as the loops of the code count them. *)
Definition PGTAB_ENTRIES `{Mmu} : Z := PAGE_SIZE `quot` PDE_SIZE.

(** A user page: an aligned user address. *)
Definition is_upage `{MemLayout} (v : Z) : Prop :=
  mm_is_uaddr v = true /\ Z.land v (Z.lnot PAGE_MASK) = 0.

Class MmuLaws `{M : MemLayout} (U : Mmu) : Prop := {
  pde_idx_range v : mm_is_uaddr v = true -> 0 ≤ pde_idx_get v < PGDIR_LENGTH;
  pte_idx_range v : mm_is_uaddr v = true -> 0 ≤ pte_idx_get v < PGTAB_ENTRIES;
  idx_inj v v' : is_upage v -> is_upage v' -> pde_idx_get v = pde_idx_get v' ->
                 pte_idx_get v = pte_idx_get v' -> v = v';
  pde_idx_mask v : mm_is_uaddr v = true -> pde_idx_get (Z.land v PGTAB_MASK) = pde_idx_get v;
  pde_present_set_false e : pde_is_present (pde_present_set e false) = false;
  pte_present_set_false e : pte_is_present (pte_present_set e false) = false;
  pte_clear_absent e : pte_is_present (pte_clear e) = false;
  mmu_pgtab_map_spec dir f v :
    frame_fits f -> exists e, mmu_pgtab_map dir (f ≪ PAGE_SHIFT) v = aset (pde_idx_get v) e dir /\
                         pde_is_present e = true /\ pde_frame_get e = f;
  mmu_page_map_spec tab f v w x :
    frame_fits f -> exists e, mmu_page_map tab (f ≪ PAGE_SHIFT) v w x = aset (pte_idx_get v) e tab /\
                         pte_is_present e = true /\ pte_frame_get e = f;
  tlb_inval_ok t ty v : fst (tlb_inval t ty v) = 0;
  tlb_inval_gone t ty v : tlb_lookup (snd (tlb_inval t ty v)) ty v = None;
  tlb_inval_sub t ty v ty' v' p :
    tlb_lookup (snd (tlb_inval t ty v)) ty' v' = Some p -> tlb_lookup t ty' v' = Some p;
  tlb_shootdown_ok t v : fst (tlb_shootdown t v) = 0;
  tlb_shootdown_sub t v ty v' p :
    tlb_lookup (snd (tlb_shootdown t v)) ty v' = Some p -> tlb_lookup t ty v' = Some p;
  tlb_flush_sub t ty v p : tlb_lookup (tlb_flush t) ty v = Some p -> tlb_lookup t ty v = Some p;
  tlb_write_new t ty v p ty' v' p' :
    tlb_lookup (snd (tlb_write t ty v p)) ty' v' = Some p' ->
    (ty' = ty /\ v' = v /\ p' = p) \/ tlb_lookup t ty' v' = Some p';
}.

(** ** State *)

Record mm `{M : MemLayout} `{B : Bitmap} `{U : !Mmu} := Mm {
  frames : bitmap;                 (* frame.c: frames *)
  pool : kpool (list pte);         (* kpool.c: kpages, and the page tables in the pages *)
  pgdirs : gmap Z (list pde);      (* page directories, by address *)
  frame_data : gmap Z (list Z);    (* contents of the user frames *)
  tlb : tlbs;
  pgfaults : list Z;               (* page faults forwarded by do_tlb_fault *)
}.
Arguments Mm {M B U} frames pool pgdirs frame_data tlb pgfaults.

Section upage.
Context `{H : Hlib} `{M : MemLayout} `{B : Bitmap} `{U : !Mmu}.

Definition set_frames (x : bitmap) (s : mm) : mm :=
  Mm x (pool s) (pgdirs s) (frame_data s) (tlb s) (pgfaults s).
Definition set_pool (x : kpool (list pte)) (s : mm) : mm :=
  Mm (frames s) x (pgdirs s) (frame_data s) (tlb s) (pgfaults s).
Definition set_pgdirs (x : gmap Z (list pde)) (s : mm) : mm :=
  Mm (frames s) (pool s) x (frame_data s) (tlb s) (pgfaults s).
Definition set_frame_data (x : gmap Z (list Z)) (s : mm) : mm :=
  Mm (frames s) (pool s) (pgdirs s) x (tlb s) (pgfaults s).
Definition set_tlb (x : tlbs) (s : mm) : mm :=
  Mm (frames s) (pool s) (pgdirs s) (frame_data s) x (pgfaults s).
Definition set_pgfaults (x : list Z) (s : mm) : mm :=
  Mm (frames s) (pool s) (pgdirs s) (frame_data s) (tlb s) x.

(** ** Access to page directories and page tables *)

Definition pgdir_read (pgdir : Z) : K mm (list pde) :=
  o ← kgets (fun s => pgdirs s !! pgdir); kunwrap o.

Definition pgdir_write (pgdir : Z) (dir : list pde) : K mm unit :=
  kmodify (fun s => set_pgdirs (<[pgdir := dir]> (pgdirs s)) s).

(** Reads the entry a [struct pde *] points to. *)
Definition pde_load (pgdir i : Z) : K mm pde :=
  dir ← pgdir_read pgdir; kunwrap (aget dir i).

Definition pde_get (pgdir vaddr : Z) : K mm pde := pde_load pgdir (pde_idx_get vaddr).

Definition pgtab_read (pgtab : Z) : K mm (list pte) :=
  if kpool_is_kpage pgtab
  then o ← kgets (fun s => aget (kmem (pool s)) (kpool_addr_to_id pgtab)); kunwrap o
  else kfault.

Definition pgtab_write (pgtab : Z) (tab : list pte) : K mm unit :=
  kmodify (fun s => set_pool (set_kmem (aset (kpool_addr_to_id pgtab) tab (kmem (pool s))) (pool s)) s).

Definition pte_get (pgtab vaddr : Z) : K mm pte :=
  tab ← pgtab_read pgtab; kunwrap (aget tab (pte_idx_get vaddr)).

Definition do_tlb_flush : K mm unit := kmodify (fun s => set_tlb (tlb_flush (tlb s)) s).

(** Runs a TLB routine that returns an error code. *)
Definition with_tlb (f : tlbs -> Z * tlbs) : K mm Z :=
  r ← kgets (fun s => f (tlb s));
  kmodify (set_tlb (snd r));;
  mret (fst r).

Definition with_pool {A} (m : K (kpool (list pte)) A) : K mm A :=
  kzoom (fun s => Some (pool s)) set_pool m.

Definition with_frames {A} (m : K bitmap A) : K mm A :=
  kzoom (fun s => Some (frames s)) set_frames m.

(** The physical address of a frame, a [frame_t] shifted left. *)
Definition frame_addr (f : Z) : Z := (f ≪ PAGE_SHIFT) `mod` 2 ^ FRAME_BITS.

(** ** Page tables *)

(** Returns the index of the directory entry, [None] for the null pointer. *)
Definition pgtab_map (pgdir vaddr0 : Z) : K mm (option Z) :=
  let vaddr := Z.land vaddr0 PGTAB_MASK in
  pde ← pde_get pgdir vaddr;
  if pde_is_present pde then mret None else
  pgtab ← with_pool (kpage_get [] false);
  if pgtab =? 0 then mret None else
  let frame := kpool_addr_to_frame pgtab in
  dir ← pgdir_read pgdir;
  pgdir_write pgdir (mmu_pgtab_map dir (frame_addr frame) vaddr);;
  pde ← pde_get pgdir vaddr;
  KASSERT (pde_is_present pde);;
  do_tlb_flush;;
  tab ← pgtab_read pgtab;
  pgtab_write pgtab (pte_clear <$> tab);;
  mret (Some (pde_idx_get vaddr)).

Definition pgtab_unmap (pgdir vaddr : Z) : K mm Z :=
  pde ← pde_get pgdir vaddr;
  if negb (pde_is_present pde) then mret 0 else
  let pgtab := kpool_frame_to_addr (pde_frame_get pde) in
  tab ← pgtab_read pgtab;
  if existsb pte_is_present tab then mret (err EBUSY) else
  dir ← pgdir_read pgdir;
  pgdir_write pgdir (aset (pde_idx_get vaddr) (pde_present_set pde false) dir);;
  do_tlb_flush;;
  r ← with_pool (kpage_put pgtab);
  if r <? 0 then mret (err EIO) else
  mret 0.

(** ** User pages *)

Definition upage_inval (vaddr0 : Z) : K mm Z :=
  let vaddr := Z.land vaddr0 PAGE_MASK in
  if negb (mm_is_uaddr vaddr) then mret (err EINVAL) else
  (if negb CORE_HAS_TLB_HW then
     r ← with_tlb (fun t => tlb_inval t TLB_INSTRUCTION vaddr);
     KASSERT (r =? 0);;
     r ← with_tlb (fun t => tlb_inval t TLB_DATA vaddr);
     KASSERT (r =? 0)
   else mret tt);;
  (if CLUSTER_HAS_TLB_SHOOTDOWN then
     r ← with_tlb (fun t => tlb_shootdown t vaddr);
     KASSERT (r =? 0)
   else mret tt);;
  do_tlb_flush;;
  mret 0.

Definition upage_map (pgdir vaddr frame : Z) : K mm Z :=
  if pgdir =? 0 then mret (err EINVAL) else
  if negb (mm_is_uaddr vaddr) then mret (err EFAULT) else
  if negb (Z.land vaddr (Z.lnot PAGE_MASK) =? 0) then mret (err EINVAL) else
  pde ← pde_get pgdir vaddr;
  p ← (if negb (pde_is_present pde) then pgtab_map pgdir vaddr
        else mret (Some (pde_idx_get vaddr)));
  match p with
  | None => mret (err EAGAIN)
  | Some i =>
      pde ← pde_load pgdir i;
      let pgtab := kpool_frame_to_addr (pde_frame_get pde) in
      pte ← pte_get pgtab vaddr;
      if pte_is_present pte then mret (err EADDRINUSE) else
      tab ← pgtab_read pgtab;
      pgtab_write pgtab (mmu_page_map tab (frame_addr frame) vaddr true false);;
      pte ← pte_get pgtab vaddr;
      KASSERT (pte_is_present pte);;
      do_tlb_flush;;
      mret 0
  end.

Definition upage_unmap (pgdir vaddr : Z) : K mm Z :=
  if pgdir =? 0 then mret FRAME_NULL else
  if negb (mm_is_uaddr vaddr) then mret FRAME_NULL else
  if negb (Z.land vaddr (Z.lnot PAGE_MASK) =? 0) then mret FRAME_NULL else
  pde ← pde_get pgdir vaddr;
  if negb (pde_is_present pde) then mret FRAME_NULL else
  let pgtab := kpool_frame_to_addr (pde_frame_get pde) in
  pte ← pte_get pgtab vaddr;
  if negb (pte_is_present pte) then mret FRAME_NULL else
  let frame := pte_frame_get pte in
  tab ← pgtab_read pgtab;
  pgtab_write pgtab (aset (pte_idx_get vaddr) (pte_present_set pte false) tab);;
  upage_inval vaddr;;
  (if NANVIX_FAST_MEMORY then mret 0 else pgtab_unmap pgdir vaddr);;
  mret frame.

(** ** Translation, the abstract state *)

Definition pde_at (s : mm) (pgdir v : Z) : option pde :=
  dir ← pgdirs s !! pgdir; aget dir (pde_idx_get v).

(** The page of the kernel pool that holds the page table of [v]. *)
Definition slot (s : mm) (pgdir v : Z) : option Z :=
  e ← pde_at s pgdir v;
  if pde_is_present e
  then Some (kpool_addr_to_id (kpool_frame_to_addr (pde_frame_get e))) else None.

Definition pte_at (s : mm) (i v : Z) : option pte :=
  tab ← aget (kmem (pool s)) i; aget tab (pte_idx_get v).

Definition translate (s : mm) (pgdir v : Z) : option Z :=
  i ← slot s pgdir v;
  e ← pte_at s i v;
  if pte_is_present e then Some (pte_frame_get e) else None.

(** [kmemset] of a page through its virtual address writes the frame to which the
    active page directory maps it. *)
Definition zero_page : list Z := replicate (Z.to_nat PAGE_SIZE) 0.

Definition kmemset_page (vaddr : Z) : K mm unit :=
  o ← kgets (fun s => translate s root_pgdir vaddr);
  f ← kunwrap o;
  kmodify (fun s => set_frame_data (<[f := zero_page]> (frame_data s)) s).

Definition upage_alloc (pgdir vaddr : Z) : K mm Z :=
  if pgdir =? 0 then mret (err EINVAL) else
  frame ← with_frames frame_alloc;
  if frame =? FRAME_NULL then mret (err EAGAIN) else
  e ← upage_map pgdir vaddr frame;
  if e <? 0 then
    with_frames (frame_free frame);;
    mret e
  else
    (if NANVIX_FAST_MEMORY then mret tt else kmemset_page vaddr);;
    mret 0.

Definition upage_free (pgdir vaddr : Z) : K mm Z :=
  if pgdir =? 0 then mret (err EFAULT) else
  frame ← upage_unmap pgdir vaddr;
  if frame =? FRAME_NULL then mret (err EFAULT) else
  r ← with_frames (frame_free frame);
  if r <? 0 then mret (err EIO) else
  mret 0.

Definition upage_link (pgdir vaddr1 vaddr2 : Z) : K mm Z :=
  if pgdir =? 0 then mret (err EINVAL) else
  if negb (mm_is_uaddr vaddr2) then mret (err EFAULT) else
  if negb (Z.land vaddr2 (Z.lnot PAGE_MASK) =? 0) then mret (err EINVAL) else
  pde1 ← pde_get pgdir vaddr1;
  if negb (pde_is_present pde1) then mret (err EFAULT) else
  let pgtab := kpool_frame_to_addr (pde_frame_get pde1) in
  pte1 ← pte_get pgtab vaddr1;
  if negb (pte_is_present pte1) then mret (err EFAULT) else
  upage_map pgdir vaddr2 (pte_frame_get pte1).

(** ** TLB faults *)

Inductive excp_num := EXCEPTION_ITLB_FAULT | EXCEPTION_DTLB_FAULT.

Definition forward_page_fault (addr : Z) : K mm unit :=
  kmodify (fun s => set_pgfaults (pgfaults s ++ [addr]) s).

(** After a page fault is forwarded, [retry] is false and the handler returns. *)
Definition do_tlb_fault (num : excp_num) (addr : Z) : K mm unit :=
  let vaddr := Z.land addr PAGE_MASK in
  pde ← pde_get root_pgdir vaddr;
  if negb (pde_is_present pde) then forward_page_fault addr else
  let pgtab := frame_addr (pde_frame_get pde) in
  pte ← pte_get pgtab vaddr;
  if negb (pte_is_present pte) then forward_page_fault addr else
  let tlb_type := match num with EXCEPTION_DTLB_FAULT => TLB_DATA | _ => TLB_INSTRUCTION end in
  let paddr := frame_addr (pte_frame_get pte) in
  r ← with_tlb (fun t => tlb_write t tlb_type vaddr paddr);
  if r <? 0 then kpanic else
  do_tlb_flush.

(** ** Invariant *)

Record mm_wf (s : mm) : Prop := {
  wf_pool : kpool_wf (pool s);
  wf_tabs : Forall (fun t => alen t = PGTAB_ENTRIES) (kmem (pool s));
  wf_null : pgdirs s !! 0 = None;
  wf_dirs : map_Forall (fun _ d => alen d = PGDIR_LENGTH) (pgdirs s);
  (* a present entry points to a page of the pool that is in use *)
  wf_slot pd v e :
    mm_is_uaddr v = true -> pde_at s pd v = Some e -> pde_is_present e = true ->
    exists i, 0 ≤ i < NUM_KPAGES /\ pde_frame_get e = kpool_addr_to_frame (kpool_id_to_addr i) /\
              kpool_id_to_addr i ∈ used_pages (pool s);
  (* no two entries share a page table *)
  wf_distinct pd v pd' v' i :
    mm_is_uaddr v = true -> mm_is_uaddr v' = true ->
    slot s pd v = Some i -> slot s pd' v' = Some i ->
    pd = pd' /\ pde_idx_get v = pde_idx_get v';
  wf_fits pd v f : is_upage v -> translate s pd v = Some f -> frame_fits f;
}.

(** Every page table in use maps a page. *)
Definition nonempty_at (s : mm) (i : Z) : Prop :=
  forall tab, aget (kmem (pool s)) i = Some tab -> existsb pte_is_present tab = true.

Definition no_empty_tables (s : mm) : Prop :=
  forall pd v i, mm_is_uaddr v = true -> slot s pd v = Some i -> nonempty_at s i.

(** The pages of the pool that hold page tables, and the invariant that shares the pool
    with other components: the pages in use are those tables and the pages [R] that belong
    to the others. *)
Definition is_table (s : mm) (a : Z) : Prop :=
  exists pd v i, mm_is_uaddr v = true /\ slot s pd v = Some i /\ a = kpool_id_to_addr i.

Record owned (R : gset Z) (s : mm) : Prop := {
  own_used a : a ∈ used_pages (pool s) <-> a ∈ R \/ is_table s a;
  own_apart a : a ∈ R -> ~ is_table s a;
}.

Definition keeps_owned (s s' : mm) : Prop := forall R, owned R s -> owned R s'.

(** Entries of a TLB may be dropped at any time. *)
Definition tlb_sub (t t' : tlbs) : Prop :=
  forall ty v p, tlb_lookup t ty v = Some p -> tlb_lookup t' ty v = Some p.

(** Every entry of the TLB agrees with the active page directory. *)
Definition tlb_coherent (s : mm) : Prop :=
  forall ty v p, is_upage v -> tlb_lookup (tlb s) ty v = Some p ->
  exists f, translate s root_pgdir v = Some f /\ p = frame_addr f.

(** State updates the operations are made of. *)
Definition put_tab (i : Z) (tab : list pte) (s : mm) : mm :=
  set_pool (set_kmem (aset i tab (kmem (pool s))) (pool s)) s.

Definition put_pde (pd v : Z) (e : pde) (s : mm) : mm :=
  set_pgdirs (alter (aset (pde_idx_get v) e) pd (pgdirs s)) s.

Context {HL : HlibLaws H} {ML : MemLayoutLaws M} {BL : BitmapLaws B} {FC : FrameConfig}
        {UL : MmuLaws U}.

(** *** Translation under updates *)

Lemma translate_ext s s' pd v :
  kmem (pool s) = kmem (pool s') -> pgdirs s = pgdirs s' -> translate s pd v = translate s' pd v.
Proof. intros E1 E2. unfold translate, slot, pte_at, pde_at. by rewrite E1, E2. Qed.

Lemma pde_at_put_pde s pd v e pd' v' :
  mm_wf s -> mm_is_uaddr v = true -> is_Some (pgdirs s !! pd) ->
  pde_at (put_pde pd v e s) pd' v' =
  if bool_decide (pd' = pd /\ pde_idx_get v' = pde_idx_get v) then Some e else pde_at s pd' v'.
Proof.
  intros Hwf Hv [dir Hd]. pose proof (wf_dirs s Hwf pd dir Hd) as Hl. simpl in Hl.
  pose proof (pde_idx_range v Hv). unfold pde_at, put_pde. simpl.
  destruct (decide (pd' = pd)) as [->|Hne].
  - rewrite lookup_alter_eq, Hd. simpl. rewrite aget_aset.
    repeat case_bool_decide; try done; naive_solver lia.
  - rewrite lookup_alter_ne by done. rewrite bool_decide_false; [done|]. by intros [??].
Qed.

Lemma pte_at_put_tab s i tab i' v :
  0 ≤ i < alen (kmem (pool s)) ->
  pte_at (put_tab i tab s) i' v =
  if bool_decide (i' = i) then aget tab (pte_idx_get v) else pte_at s i' v.
Proof.
  intros Hi. unfold pte_at, put_tab. simpl. case_bool_decide; subst.
  - by rewrite aget_aset_eq.
  - by rewrite aget_aset_ne.
Qed.

Lemma slot_put_tab s i tab pd v : slot (put_tab i tab s) pd v = slot s pd v.
Proof. done. Qed.

Lemma slot_range s pd v i :
  mm_wf s -> mm_is_uaddr v = true -> slot s pd v = Some i ->
  0 ≤ i < NUM_KPAGES /\ kpool_id_to_addr i ∈ used_pages (pool s).
Proof.
  intros Hwf Hv. unfold slot. destruct (pde_at s pd v) as [e|] eqn:He; simpl; [|done].
  destruct (pde_is_present e) eqn:Hp; [|done]. intros [= <-].
  destruct (wf_slot s Hwf _ _ _ Hv He Hp) as (i & Hi & -> & Hu).
  by rewrite kpool_frame_roundtrip, kpool_id_roundtrip by done.
Qed.

(** Changing the entry of [v] in its page table changes the translation of [v] only. *)
Lemma translate_put_pte s pd v i tab e pd' v' :
  mm_wf s -> is_upage v -> slot s pd v = Some i -> aget (kmem (pool s)) i = Some tab ->
  is_upage v' ->
  translate (put_tab i (aset (pte_idx_get v) e tab) s) pd' v' =
  if bool_decide (pd' = pd /\ v' = v)
  then (if pte_is_present e then Some (pte_frame_get e) else None)
  else translate s pd' v'.
Proof.
  intros Hwf Hv Hs Ht Hv'. pose proof (proj1 Hv) as Hu. pose proof (proj1 Hv') as Hu'.
  pose proof (Forall_aget _ _ _ _ (wf_tabs s Hwf) Ht) as Hlt. simpl in Hlt.
  pose proof (pte_idx_range v Hu) as Hr. pose proof (aget_lt _ _ _ Ht) as Hir.
  unfold translate at 1. rewrite slot_put_tab. case_bool_decide as Hc.
  - destruct Hc as [-> ->]. rewrite Hs. simpl. rewrite pte_at_put_tab by done.
    rewrite bool_decide_true, aget_aset_eq by (done || lia). done.
  - unfold translate. destruct (slot s pd' v') as [i'|] eqn:Hs'; simpl; [|done].
    rewrite pte_at_put_tab by done. case_bool_decide as Hi'; [|done]. subst i'.
    destruct (wf_distinct s Hwf _ _ _ _ _ Hu Hu' Hs Hs') as [<- Hpi].
    unfold pte_at. rewrite Ht. simpl. rewrite aget_aset_ne; [done|].
    intros Hti. apply Hc. split; [done|]. symmetry. by apply idx_inj.
Qed.

Lemma slot_put_pde s pd v e pd' v' :
  mm_wf s -> mm_is_uaddr v = true -> is_Some (pgdirs s !! pd) ->
  slot (put_pde pd v e s) pd' v' =
  if bool_decide (pd' = pd /\ pde_idx_get v' = pde_idx_get v)
  then (if pde_is_present e
        then Some (kpool_addr_to_id (kpool_frame_to_addr (pde_frame_get e))) else None)
  else slot s pd' v'.
Proof.
  intros Hwf Hv Hd. unfold slot at 1. rewrite pde_at_put_pde by done. by case_bool_decide.
Qed.

Lemma slot_ext s s' pd v : pgdirs s = pgdirs s' -> slot s pd v = slot s' pd v.
Proof. intros E. unfold slot, pde_at. by rewrite E. Qed.

Lemma slot_idx s pd v v' : pde_idx_get v = pde_idx_get v' -> slot s pd v = slot s pd v'.
Proof. intros E. unfold slot, pde_at. by rewrite E. Qed.

#[export] Instance keeps_owned_refl : Reflexive keeps_owned.
Proof. by intros s R. Qed.

#[export] Instance keeps_owned_trans : Transitive keeps_owned.
Proof. intros s1 s2 s3 H12 H23 R ?. by apply H23, H12. Qed.

Lemma keeps_owned_ext s s' : pgdirs s' = pgdirs s -> kpages (pool s') = kpages (pool s) -> keeps_owned s s'.
Proof.
  intros Ed Ek R [Hu Ha]. assert (Ht : forall a, is_table s' a <-> is_table s a).
  { intros a. unfold is_table. by setoid_rewrite (slot_ext _ _ _ _ Ed). }
  split; intros a; rewrite Ht; [|apply Ha]. by rewrite (used_pages_ext _ _ Ek).
Qed.

(** *** The invariant under updates *)

Lemma wf_put_pte s pd v i tab e :
  mm_wf s -> is_upage v -> slot s pd v = Some i -> aget (kmem (pool s)) i = Some tab ->
  (pte_is_present e = true -> frame_fits (pte_frame_get e)) ->
  mm_wf (put_tab i (aset (pte_idx_get v) e tab) s).
Proof.
  intros Hwf Hv Hs Ht He.
  pose proof (Forall_aget _ _ _ _ (wf_tabs s Hwf) Ht) as Hlt. simpl in Hlt.
  pose proof (wf_pool s Hwf) as (Hk1 & Hk2 & Hk3). split.
  - split_and!; simpl; rewrite ?length_aset; done.
  - apply Forall_aset; [by apply wf_tabs|]. by rewrite length_aset.
  - apply (wf_null s Hwf).
  - apply (wf_dirs s Hwf).
  - apply (wf_slot s Hwf).
  - apply (wf_distinct s Hwf).
  - intros pd' v' f Hv'. erewrite translate_put_pte by done. case_bool_decide.
    + destruct (pte_is_present e); [|done]. intros [= <-]. auto.
    + by apply (wf_fits s Hwf).
Qed.

(** Installing an empty page table changes no translation. *)
Section add_table.
Context (s s' : mm) (pd v i : Z) (e : pde) (tab : list pte).
Context (Hwf : mm_wf s) (Hv : mm_is_uaddr v = true) (Hd : is_Some (pgdirs s !! pd))
        (Hi : 0 ≤ i < NUM_KPAGES) (Hfree : kpool_id_to_addr i ∉ used_pages (pool s))
        (Hp : pde_is_present e = true)
        (He : pde_frame_get e = kpool_addr_to_frame (kpool_id_to_addr i))
        (Hlen : alen tab = PGTAB_ENTRIES)
        (Habs : Forall (fun p => pte_is_present p = false) tab)
        (Hnone : slot s pd v = None)
        (Hpool : kpool_wf (pool s'))
        (Hused : used_pages (pool s') = {[kpool_id_to_addr i]} ∪ used_pages (pool s))
        (Hkm : kmem (pool s') = aset i tab (kmem (pool s)))
        (Hpg : pgdirs s' = pgdirs (put_pde pd v e s)).

Lemma add_table_slot pd' v' :
  slot s' pd' v' =
  if bool_decide (pd' = pd /\ pde_idx_get v' = pde_idx_get v) then Some i else slot s pd' v'.
Proof.
  rewrite (slot_ext _ _ _ _ Hpg), slot_put_pde by done.
  by rewrite Hp, He, kpool_frame_roundtrip, kpool_id_roundtrip.
Qed.

Lemma add_table_translate pd' v' :
  mm_is_uaddr v' = true -> translate s' pd' v' = translate s pd' v'.
Proof.
  intros Hv'. unfold translate. rewrite add_table_slot. pose proof (wf_pool s Hwf) as (_&Hk&_).
  case_bool_decide as Hc; simpl.
  - destruct Hc as [-> Hidx]. rewrite (slot_idx _ _ _ _ Hidx), Hnone. simpl.
    unfold pte_at. rewrite Hkm, aget_aset_eq by lia. simpl.
    destruct (aget tab (pte_idx_get v')) as [p|] eqn:Hp'; simpl; [|done].
    by rewrite (Forall_aget _ _ _ _ Habs Hp').
  - destruct (slot s pd' v') as [j|] eqn:Hj; simpl; [|done].
    apply slot_range in Hj as [_ Hju]; [|done|done].
    unfold pte_at. rewrite Hkm, aget_aset_ne; [done|]. by intros <-.
Qed.

Lemma add_table_wf : mm_wf s'.
Proof.
  pose proof (wf_pool s Hwf) as (_&Hk&_). split.
  - done.
  - rewrite Hkm. apply Forall_aset; [by apply wf_tabs|done].
  - rewrite Hpg. simpl. rewrite lookup_alter_None. by apply wf_null.
  - rewrite Hpg. simpl. intros pd' d. rewrite lookup_alter_Some.
    intros [(<- & d0 & Hd0 & ->)|[_ Hd0]]; [rewrite length_aset|]; apply (wf_dirs s Hwf _ _ Hd0).
  - intros pd' v' e' Hv'.
    assert (pde_at s' pd' v' = pde_at (put_pde pd v e s) pd' v') as -> by (unfold pde_at; by rewrite Hpg).
    rewrite pde_at_put_pde by done. case_bool_decide.
    + intros [= <-] _. exists i. rewrite Hused. split_and!; try done; try lia. by apply elem_of_union_l, elem_of_singleton.
    + intros He' Hp'. destruct (wf_slot s Hwf _ _ _ Hv' He' Hp') as (j & ? & ? & ?).
      exists j. rewrite Hused. split_and!; try done; try lia. by apply elem_of_union_r.
  - intros pd1 v1 pd2 v2 j Hv1 Hv2. rewrite !add_table_slot.
    case_bool_decide as H1; case_bool_decide as H2.
    + intros _ _. destruct H1 as [-> ->], H2 as [-> ->]. done.
    + intros [= <-] Hj. by apply slot_range in Hj as [_ ?].
    + intros Hj [= <-]. by apply slot_range in Hj as [_ ?].
    + by apply (wf_distinct s Hwf).
  - intros pd' v' f Hv'. rewrite add_table_translate by apply Hv'. by apply (wf_fits s Hwf).
Qed.

Lemma add_table_owned : keeps_owned s s'.
Proof.
  intros R [Hu Ha]. assert (Ht : forall a, is_table s' a <-> a = kpool_id_to_addr i \/ is_table s a).
  { intros a. split.
    - intros (pd' & v' & j & Hv' & Hj & ->). rewrite add_table_slot in Hj. case_bool_decide as Hc.
      + injection Hj as <-. by left.
      + right. by exists pd', v', j.
    - intros [->|(pd' & v' & j & Hv' & Hj & ->)].
      + exists pd, v, i. rewrite add_table_slot, bool_decide_true by done. done.
      + exists pd', v', j. rewrite add_table_slot. case_bool_decide as Hc; [|done].
        destruct Hc as [-> E]. rewrite (slot_idx _ _ _ _ E) in Hj. congruence. }
  split; intros a; rewrite Ht.
  - rewrite Hused, elem_of_union, elem_of_singleton, Hu. tauto.
  - intros HR [->|Hta]; [|by apply (Ha a)]. apply Hfree, Hu. by left.
Qed.

End add_table.

(** Removing an empty page table changes no translation. *)
Section drop_table.
Context (s s' : mm) (pd v i : Z) (e : pde) (tab : list pte).
Context (Hwf : mm_wf s) (Hv : mm_is_uaddr v = true) (Hd : is_Some (pgdirs s !! pd))
        (Hs : slot s pd v = Some i) (Hp : pde_is_present e = false)
        (Ht : aget (kmem (pool s)) i = Some tab) (Habs : existsb pte_is_present tab = false)
        (Hpool : kpool_wf (pool s'))
        (Hused : used_pages (pool s') = used_pages (pool s) ∖ {[kpool_id_to_addr i]})
        (Hkm : kmem (pool s') = kmem (pool s))
        (Hpg : pgdirs s' = pgdirs (put_pde pd v e s)).

Lemma drop_table_slot pd' v' :
  slot s' pd' v' =
  if bool_decide (pd' = pd /\ pde_idx_get v' = pde_idx_get v) then None else slot s pd' v'.
Proof. by rewrite (slot_ext _ _ _ _ Hpg), slot_put_pde, Hp by done. Qed.

Lemma drop_table_translate pd' v' :
  mm_is_uaddr v' = true -> translate s' pd' v' = translate s pd' v'.
Proof.
  intros Hv'. unfold translate. rewrite drop_table_slot. case_bool_decide as Hc; simpl.
  - destruct Hc as [-> Hidx]. rewrite (slot_idx _ _ _ _ Hidx), Hs. simpl.
    unfold pte_at. rewrite Ht. simpl. destruct (aget tab (pte_idx_get v')) as [p|] eqn:Hp'; simpl; [|done].
    destruct (pte_is_present p) eqn:Hpp; [|done]. exfalso.
    assert (existsb pte_is_present tab = true); [|congruence].
    apply existsb_exists. exists p. split; [|done]. by eapply list_elem_of_In, aget_elem.
  - unfold pte_at. by rewrite Hkm.
Qed.

Lemma drop_table_wf : mm_wf s'.
Proof.
  split.
  - done.
  - rewrite Hkm. by apply wf_tabs.
  - rewrite Hpg. simpl. rewrite lookup_alter_None. by apply wf_null.
  - rewrite Hpg. simpl. intros pd' d. rewrite lookup_alter_Some.
    intros [(<- & d0 & Hd0 & ->)|[_ Hd0]]; [rewrite length_aset|]; apply (wf_dirs s Hwf _ _ Hd0).
  - intros pd' v' e' Hv'.
    assert (pde_at s' pd' v' = pde_at (put_pde pd v e s) pd' v') as -> by (unfold pde_at; by rewrite Hpg).
    rewrite pde_at_put_pde by done. case_bool_decide as Hc.
    + intros [= <-] ?. congruence.
    + intros He' Hp'. destruct (wf_slot s Hwf _ _ _ Hv' He' Hp') as (j & Hj & Hf & Hu).
      exists j. split_and!; try done; try lia. rewrite Hused, elem_of_difference, elem_of_singleton.
      split; [done|]. intros E%kpool_id_to_addr_inj; [|lia|apply (slot_range s pd v i Hwf Hv Hs)].
      subst j. apply Hc.
      assert (slot s pd' v' = Some i) as Hs'.
      { unfold slot. rewrite He'. simpl.
        by rewrite Hp', Hf, kpool_frame_roundtrip, kpool_id_roundtrip. }
      by destruct (wf_distinct s Hwf _ _ _ _ _ Hv' Hv Hs' Hs).
  - intros pd1 v1 pd2 v2 j Hv1 Hv2. rewrite !drop_table_slot.
    repeat case_bool_decide; try done. by apply (wf_distinct s Hwf).
  - intros pd' v' f Hv'. rewrite drop_table_translate by apply Hv'. by apply (wf_fits s Hwf).
Qed.

Lemma drop_table_owned : keeps_owned s s'.
Proof.
  destruct (slot_range s pd v i Hwf Hv Hs) as [Hi _].
  intros R [Hu Ha]. assert (Htb : forall a, is_table s' a <-> is_table s a /\ a <> kpool_id_to_addr i).
  { intros a. split.
    - intros (pd' & v' & j & Hv' & Hj & ->). rewrite drop_table_slot in Hj. case_bool_decide as Hc; [done|].
      split; [by exists pd', v', j|]. intros E. apply kpool_id_to_addr_inj in E as ->; [|apply (slot_range s pd' v'); done|done].
      by destruct (wf_distinct s Hwf _ _ _ _ _ Hv' Hv Hj Hs); destruct Hc.
    - intros [(pd' & v' & j & Hv' & Hj & ->) Hne]. exists pd', v', j. rewrite drop_table_slot.
      case_bool_decide as Hc; [|done]. destruct Hc as [-> E]. rewrite (slot_idx _ _ _ _ E), Hs in Hj. by injection Hj as <-. }
  split; intros a; rewrite Htb.
  - rewrite Hused, elem_of_difference, elem_of_singleton, Hu. split; [tauto|].
    intros [HR|[? ?]]; [|tauto]. split; [by left|]. intros ->. apply (Ha _ HR). by exists pd, v, i.
  - intros HR [Hta _]. by apply (Ha a).
Qed.

End drop_table.

(** *** Rules for the accessors *)

Lemma wp_pde_load pd v e (Q : pde -> mm -> Prop) s :
  pde_at s pd v = Some e -> Q e s -> wp (pde_load pd (pde_idx_get v)) Q s.
Proof.
  unfold pde_at, pde_load, pgdir_read. destruct (pgdirs s !! pd) as [dir|] eqn:E; [|done].
  simpl. intros He HQ. wp_step. wp_step. wp_step. eapply wp_unwrap; [done|]. by eapply wp_unwrap.
Qed.

Lemma pde_at_Some s pd v :
  mm_wf s -> mm_is_uaddr v = true -> is_Some (pgdirs s !! pd) -> is_Some (pde_at s pd v).
Proof.
  intros Hwf Hv [dir Hd]. unfold pde_at. rewrite Hd. simpl.
  pose proof (wf_dirs s Hwf _ _ Hd) as Hl. simpl in Hl.
  apply aget_is_Some. rewrite Hl. by apply pde_idx_range.
Qed.

Lemma wp_pgdir_read pd dir (Q : list pde -> mm -> Prop) s :
  pgdirs s !! pd = Some dir -> Q dir s -> wp (pgdir_read pd) Q s.
Proof. intros E HQ. unfold pgdir_read. wp_step. wp_step. by eapply wp_unwrap. Qed.

Lemma wp_pgtab_read i tab (Q : list pte -> mm -> Prop) s :
  0 ≤ i < NUM_KPAGES -> aget (kmem (pool s)) i = Some tab -> Q tab s ->
  wp (pgtab_read (kpool_id_to_addr i)) Q s.
Proof.
  intros Hi Ht HQ. unfold pgtab_read. rewrite kpool_id_kpage, kpool_id_roundtrip by done.
  wp_step. wp_step. by eapply wp_unwrap.
Qed.

Lemma wp_pgtab_write i tab (Q : unit -> mm -> Prop) s :
  0 ≤ i < NUM_KPAGES -> Q tt (put_tab i tab s) -> wp (pgtab_write (kpool_id_to_addr i) tab) Q s.
Proof. intros Hi HQ. unfold pgtab_write. rewrite kpool_id_roundtrip by done. by wp_step. Qed.

Lemma wp_pte_get i v e (Q : pte -> mm -> Prop) s :
  0 ≤ i < NUM_KPAGES -> pte_at s i v = Some e -> Q e s ->
  wp (pte_get (kpool_id_to_addr i) v) Q s.
Proof.
  intros Hi He HQ. unfold pte_at in He.
  destruct (aget (kmem (pool s)) i) as [tab|] eqn:Ht; [|done]. simpl in He.
  unfold pte_get. wp_step. eapply wp_pgtab_read; [done|done|]. by eapply wp_unwrap.
Qed.

Lemma frame_addr_fits f : frame_fits f -> frame_addr f = f ≪ PAGE_SHIFT.
Proof.
  intros [? ?]. unfold frame_addr. apply Z.mod_small. split; [|done].
  by apply Z.shiftl_nonneg.
Qed.

(** A present directory entry, its table and the entry of [v] in it. *)
Lemma slot_inv s pd v i :
  mm_wf s -> mm_is_uaddr v = true -> slot s pd v = Some i ->
  0 ≤ i < NUM_KPAGES /\
  exists e tab p,
    pde_at s pd v = Some e /\ pde_is_present e = true /\
    kpool_frame_to_addr (pde_frame_get e) = kpool_id_to_addr i /\
    aget (kmem (pool s)) i = Some tab /\ alen tab = PGTAB_ENTRIES /\
    aget tab (pte_idx_get v) = Some p /\ pte_at s i v = Some p.
Proof.
  intros Hwf Hv. unfold slot. destruct (pde_at s pd v) as [e|] eqn:He; simpl; [|done].
  destruct (pde_is_present e) eqn:Hp; [|done]. intros [= <-].
  destruct (wf_slot s Hwf _ _ _ Hv He Hp) as (i & Hi & Hf & Hu).
  assert (Ha : kpool_frame_to_addr (pde_frame_get e) = kpool_id_to_addr i)
    by (by rewrite Hf, kpool_frame_roundtrip).
  rewrite Ha, kpool_id_roundtrip by done. split; [lia|].
  destruct (wf_pool s Hwf) as (_ & Hk & _).
  destruct (aget_is_Some (kmem (pool s)) i) as [tab Ht]; [lia|].
  pose proof (Forall_aget _ _ _ _ (wf_tabs s Hwf) Ht) as Hl. simpl in Hl.
  destruct (aget_is_Some tab (pte_idx_get v)) as [p Hpt]; [rewrite Hl; by apply pte_idx_range|].
  exists e, tab, p. split_and!; try done. unfold pte_at. by rewrite Ht.
Qed.

(** What no operation on page tables changes. *)
Record mm_rest (s s' : mm) : Prop := {
  rest_frames : frames s' = frames s;
  rest_data : frame_data s' = frame_data s;
  rest_faults : pgfaults s' = pgfaults s;
  rest_tlb : tlb_sub (tlb s') (tlb s);
  rest_dirs pd : is_Some (pgdirs s' !! pd) <-> is_Some (pgdirs s !! pd);
}.

#[local] Instance tlb_sub_refl : Reflexive tlb_sub.
Proof. by intros t ty v p. Qed.

#[local] Instance tlb_sub_trans : Transitive tlb_sub.
Proof. intros t1 t2 t3 H12 H23 ty v p ?. by apply H23, H12. Qed.

#[export] Instance mm_rest_refl : Reflexive mm_rest.
Proof. intros s. by split. Qed.

#[export] Instance mm_rest_trans : Transitive mm_rest.
Proof.
  intros s1 s2 s3 [] []. split; try congruence; [etrans; eassumption|].
  intros pd. rewrite rest_dirs1. auto.
Qed.

Lemma tlb_flush_rest s : mm_rest s (set_tlb (tlb_flush (tlb s)) s).
Proof. split; try done. intros ty v p. apply tlb_flush_sub. Qed.

Lemma put_tab_rest i tab s : mm_rest s (put_tab i tab s).
Proof. by split. Qed.

Lemma put_pde_rest pd v e s : mm_rest s (put_pde pd v e s).
Proof.
  split; try done. intros pd'. simpl. destruct (decide (pd' = pd)) as [->|].
  - rewrite lookup_alter_eq. by rewrite fmap_is_Some.
  - by rewrite lookup_alter_ne.
Qed.

Lemma set_pool_rest p s : mm_rest s (set_pool p s).
Proof. by split. Qed.

Definition kpool_full (s : mm) : Prop :=
  forall i, 0 ≤ i < NUM_KPAGES -> page_used (pool s) i = true.

Lemma wp_pgdir_write pd v e dir (Q : unit -> mm -> Prop) s :
  pgdirs s !! pd = Some dir -> Q tt (put_pde pd v e s) ->
  wp (pgdir_write pd (aset (pde_idx_get v) e dir)) Q s.
Proof.
  intros Hd HQ. unfold pgdir_write. wp_step.
  replace (<[pd:=aset (pde_idx_get v) e dir]> (pgdirs s))
    with (alter (aset (pde_idx_get v) e) pd (pgdirs s)); [done|].
  apply map_eq. intros k. destruct (decide (k = pd)) as [->|].
  - by rewrite lookup_alter_eq, lookup_insert_eq, Hd.
  - by rewrite lookup_alter_ne, lookup_insert_ne.
Qed.

(** *** Page tables *)

Lemma pgtab_map_post s s' pd v i e tab :
  mm_wf s -> mm_is_uaddr v = true -> is_Some (pgdirs s !! pd) ->
  0 ≤ i < NUM_KPAGES -> kpool_id_to_addr i ∉ used_pages (pool s) ->
  pde_is_present e = true -> pde_frame_get e = kpool_addr_to_frame (kpool_id_to_addr i) ->
  alen tab = PGTAB_ENTRIES -> Forall (fun p => pte_is_present p = false) tab ->
  slot s pd v = None -> kpool_wf (pool s') ->
  used_pages (pool s') = {[kpool_id_to_addr i]} ∪ used_pages (pool s) ->
  kmem (pool s') = aset i tab (kmem (pool s)) ->
  pgdirs s' = pgdirs (put_pde pd v e s) -> mm_rest s s' ->
  Some (pde_idx_get v) = Some (pde_idx_get v) /\ mm_wf s' /\ mm_rest s s' /\ keeps_owned s s' /\
  exists i tab, slot s' pd v = Some i /\ aget (kmem (pool s')) i = Some tab /\
    Forall (fun p => pte_is_present p = false) tab /\
    (forall pd' v', mm_is_uaddr v' = true -> translate s' pd' v' = translate s pd' v') /\
    (no_empty_tables s -> forall pd' v' j, mm_is_uaddr v' = true ->
       slot s' pd' v' = Some j -> j = i \/ nonempty_at s' j).
Proof.
  intros Hwf Hv Hd Hi Hfree Hp He Hlen Habs Hnone Hpool Hused Hkm Hpg Hrest.
  destruct (wf_pool s Hwf) as (_ & Hkl & _).
  split; [done|]. split; [by eapply add_table_wf|]. split; [done|]. split; [by eapply add_table_owned|].
  exists i, tab. split_and!; try done.
  - rewrite (add_table_slot s s' pd v i e) by done. by rewrite bool_decide_true.
  - rewrite Hkm. apply aget_aset_eq. lia.
  - intros pd' v' Hv'. by apply (add_table_translate s s' pd v i e tab).
  - intros Hne pd' v' j Hv'. rewrite (add_table_slot s s' pd v i e) by done.
    case_bool_decide; [intros [= <-]; by left|]. intros Hj.
    destruct (decide (j = i)) as [->|]; [by left|right].
    intros tab'. rewrite Hkm, aget_aset_ne by done. by apply (Hne pd' v').
Qed.

Lemma pgtab_map_spec pd v s :
  mm_wf s -> mm_is_uaddr v = true -> is_Some (pgdirs s !! pd) -> slot s pd v = None ->
  wp (pgtab_map pd v) (fun r s' =>
    (r = None /\ s' = s /\ kpool_full s) \/
    (r = Some (pde_idx_get v) /\ mm_wf s' /\ mm_rest s s' /\ keeps_owned s s' /\
     exists i tab, slot s' pd v = Some i /\ aget (kmem (pool s')) i = Some tab /\
       Forall (fun p => pte_is_present p = false) tab /\
       (forall pd' v', mm_is_uaddr v' = true -> translate s' pd' v' = translate s pd' v') /\
       (no_empty_tables s -> forall pd' v' j, mm_is_uaddr v' = true ->
          slot s' pd' v' = Some j -> j = i \/ nonempty_at s' j))) s.
Proof.
  intros Hwf Hv Hd Hs. pose proof Hd as [dir Hdir].
  destruct (pde_at_Some s pd v Hwf Hv Hd) as [e He].
  assert (Hp : pde_is_present e = false).
  { unfold slot in Hs. rewrite He in Hs. simpl in Hs. by destruct (pde_is_present e). }
  unfold pgtab_map, pde_get. rewrite pde_idx_mask by done.
  wp_step. eapply wp_pde_load; [done|]. rewrite Hp. wp_step. unfold with_pool.
  eapply wp_zoom; [done|]. eapply wp_mono; [by apply kpage_get_cases, wf_pool|].
  intros a p [(-> & -> & Hfull)|(i & Hi & -> & Hu & _ & Hpwf & Hused & Hkm)].
  { rewrite Z.eqb_refl. wp_step. left. split_and!; try done. by destruct s. }
  assert (kpool_id_to_addr i <> 0).
  { rewrite kpool_id_to_addr_mul by done. pose proof kpool_virt_pos. pose proof page_size_pos. nia. }
  rewrite (proj2 (Z.eqb_neq _ 0)) by done.
  wp_step. eapply wp_pgdir_read; [done|]. simpl.
  pose proof (kpool_frame_fits i Hi) as Hff. rewrite frame_addr_fits by done.
  destruct (mmu_pgtab_map_spec dir _ (Z.land v PGTAB_MASK) Hff) as (e' & -> & Hp' & Hfe).
  rewrite pde_idx_mask by done.
  wp_step. eapply wp_pgdir_write; [done|].
  wp_step. apply (wp_pde_load pd v e').
  { change (pde_at (put_pde pd v e' s) pd v = Some e').
    rewrite pde_at_put_pde by done. by rewrite bool_decide_true. }
  wp_step. wp_step; [done|]. wp_step. unfold do_tlb_flush. wp_step.
  destruct (wf_pool s Hwf) as (_ & Hkl & _).
  destruct (aget_is_Some (kmem (pool s)) i) as [tab Ht]; [lia|].
  wp_step. eapply wp_pgtab_read; [done|simpl; rewrite Hkm; exact Ht|].
  wp_step. apply wp_pgtab_write; [done|]. wp_step. right.
  apply (pgtab_map_post s _ pd v i e' (pte_clear <$> tab)); try done.
  - intros Hin. apply page_used_elem in Hin; [congruence|done].
  - rewrite length_fmap. apply (Forall_aget _ _ _ _ (wf_tabs s Hwf) Ht).
  - apply Forall_fmap, Forall_true. intros x. apply pte_clear_absent.
  - destruct Hpwf as (? & ? & ?). split_and!; simpl; rewrite ?length_aset; done.
  - simpl. by rewrite Hkm.
  - etrans; [apply (set_pool_rest p)|]. etrans; [apply (put_pde_rest pd v e')|].
    etrans; [apply tlb_flush_rest|]. apply put_tab_rest.
Qed.

Lemma pgtab_unmap_spec pd v i s :
  mm_wf s -> mm_is_uaddr v = true -> slot s pd v = Some i ->
  wp (pgtab_unmap pd v) (fun r s' =>
    mm_wf s' /\ mm_rest s s' /\ keeps_owned s s' /\
    ((forall pd' v' j, mm_is_uaddr v' = true -> slot s pd' v' = Some j ->
        j = i \/ nonempty_at s j) -> no_empty_tables s') /\
    (forall pd' v', mm_is_uaddr v' = true -> translate s' pd' v' = translate s pd' v') /\
    ((nonempty_at s i /\ r = err EBUSY /\ s' = s) \/
     (~ nonempty_at s i /\ r = 0 /\ slot s' pd v = None /\
      used_pages (pool s') = used_pages (pool s) ∖ {[kpool_id_to_addr i]}))) s.
Proof.
  intros Hwf Hv Hs.
  destruct (slot_inv s pd v i Hwf Hv Hs) as (Hi & e & tab & p & He & Hp & Ha & Ht & _ & _ & _).
  assert (Hd : is_Some (pgdirs s !! pd)).
  { unfold pde_at in He. by destruct (pgdirs s !! pd). }
  pose proof Hd as [dir Hdir].
  unfold pgtab_unmap, pde_get. wp_step. apply (wp_pde_load pd v e); [done|].
  rewrite Hp. simpl. wp_step. rewrite Ha. apply (wp_pgtab_read i tab); [done|done|].
  destruct (existsb pte_is_present tab) eqn:Hex.
  { assert (nonempty_at s i) by (intros t; rewrite Ht; by intros [= <-]).
    wp_step. split_and!; try done; [|by left].
    intros Hne pd' v' j Hv' Hj. by destruct (Hne pd' v' j Hv' Hj) as [->|]. }
  assert (Hemp : ~ nonempty_at s i) by (intros Hn; specialize (Hn _ Ht); congruence).
  wp_step. eapply wp_pgdir_read; [done|]. wp_step. eapply wp_pgdir_write; [done|].
  wp_step. unfold do_tlb_flush. wp_step. wp_step. unfold with_pool. eapply wp_zoom; [done|].
  simpl. eapply wp_mono; [apply kpage_put_cases, (wf_pool s Hwf)|]. simpl.
  rewrite kpool_id_roundtrip, kpool_id_kpage by done.
  pose proof (slot_range s pd v i Hwf Hv Hs) as [_ Hu]. apply page_used_elem in Hu; [|done].
  rewrite Hu. intros r q [(?&_)|[(_&?&_)|(_&_&->&Hpwf&Hused&Hkm)]]; try done. simpl. wp_step.
  match goal with |- mm_wf ?x /\ _ => set (s' := x) end.
  assert (Hpg : pgdirs s' = pgdirs (put_pde pd v (pde_present_set e false) s)) by done.
  pose proof (pde_present_set_false e) as Hpf.
  assert (Hslot := drop_table_slot s s' pd v _ Hwf Hv Hd Hpf Hpg).
  split_and!.
  - by apply (drop_table_wf s s' pd v i (pde_present_set e false) tab).
  - etrans; [apply (put_pde_rest pd v (pde_present_set e false))|].
    etrans; [apply tlb_flush_rest|]. apply (set_pool_rest q).
  - by apply (drop_table_owned s s' pd v i (pde_present_set e false)).
  - intros Hne pd' v' j Hv'. rewrite Hslot. case_bool_decide as Hc; [done|]. intros Hj.
    destruct (Hne pd' v' j Hv' Hj) as [->|Hn].
    + destruct (wf_distinct s Hwf _ _ _ _ _ Hv' Hv Hj Hs). by destruct Hc.
    + intros t. unfold s'. simpl. rewrite Hkm. apply Hn.
  - intros pd' v' Hv'. by apply (drop_table_translate s s' pd v i (pde_present_set e false) tab).
  - right. split_and!; try done. rewrite Hslot. by rewrite bool_decide_true.
Qed.

(** *** TLB invalidation *)

Lemma wp_with_tlb f (Q : Z -> mm -> Prop) s :
  Q (fst (f (tlb s))) (set_tlb (snd (f (tlb s))) s) -> wp (with_tlb f) Q s.
Proof. done. Qed.

Lemma upage_inval_spec v s :
  is_upage v ->
  wp (upage_inval v) (fun r s' => exists t, r = 0 /\ s' = set_tlb t s /\ tlb_sub t (tlb s) /\
    (CORE_HAS_TLB_HW = false -> forall ty, tlb_lookup t ty v = None)) s.
Proof.
  intros [Hu Hal]. unfold upage_inval. rewrite page_base.
  rewrite page_offset in Hal. rewrite Hal, Z.sub_0_r, Hu. simpl. unfold do_tlb_flush.
  set (t1 := snd (tlb_inval (tlb s) TLB_INSTRUCTION v)).
  set (t2 := snd (tlb_inval t1 TLB_DATA v)).
  assert (H1 : tlb_sub t1 (tlb s)) by (intros ???; apply tlb_inval_sub).
  assert (H2 : tlb_sub t2 t1) by (intros ???; apply tlb_inval_sub).
  assert (Hgone : forall ty, tlb_lookup t2 ty v = None).
  { intros []; [|apply tlb_inval_gone]. destruct (tlb_lookup t2 TLB_INSTRUCTION v) eqn:E; [|done].
    apply H2 in E. unfold t1 in E. by rewrite tlb_inval_gone in E. }
  assert (Hend : forall t, tlb_sub t (tlb s) ->
    (CORE_HAS_TLB_HW = false -> forall ty, tlb_lookup t ty v = None) ->
    wp ((if CLUSTER_HAS_TLB_SHOOTDOWN then
           r ← with_tlb (fun t => tlb_shootdown t v);
           KASSERT (r =? 0)
         else mret tt);; kmodify (fun s => set_tlb (tlb_flush (tlb s)) s);; mret 0)
       (fun r s' => exists t, r = 0 /\ s' = set_tlb t s /\ tlb_sub t (tlb s) /\
         (CORE_HAS_TLB_HW = false -> forall ty, tlb_lookup t ty v = None)) (set_tlb t s)).
  { intros t Ht Hg. wp_step. wp_step.
    - wp_step. apply wp_with_tlb. wp_step; simpl; [by rewrite tlb_shootdown_ok|].
      repeat wp_step. eexists. split_and!; [done|done| |].
      + intros ty v' p ?%tlb_flush_sub%tlb_shootdown_sub. by apply Ht.
      + intros Hc ty. specialize (Hg Hc ty).
        destruct (tlb_lookup (tlb_flush _) ty v) eqn:E; [|done].
        apply tlb_flush_sub, tlb_shootdown_sub in E. congruence.
    - repeat wp_step. eexists. split_and!; [done|done| |].
      + intros ty v' p ?%tlb_flush_sub. by apply Ht.
      + intros Hc ty. specialize (Hg Hc ty).
        destruct (tlb_lookup (tlb_flush t) ty v) eqn:E; [|done]. apply tlb_flush_sub in E. congruence. }
  destruct CORE_HAS_TLB_HW eqn:Hhw; simpl.
  - wp_step. wp_step. specialize (Hend (tlb s)). destruct s. by apply Hend.
  - wp_step. wp_step. apply wp_with_tlb. wp_step. wp_step; [by rewrite tlb_inval_ok|].
    wp_step. apply wp_with_tlb. wp_step; [by rewrite tlb_inval_ok|].
    apply (Hend t2); [by etrans|done].
Qed.

(** *** User pages *)

(** [s'] is [s] with the translation of page [v] in directory [pd] set to [o]. *)
Record mm_upd (s s' : mm) (pd v : Z) (o : option Z) : Prop := {
  upd_wf : mm_wf s';
  upd_rest : mm_rest s s';
  upd_owned : keeps_owned s s';
  upd_nonempty : no_empty_tables s -> NANVIX_FAST_MEMORY = false -> no_empty_tables s';
  upd_translate pd' v' : is_upage v' ->
    translate s' pd' v' = if bool_decide (pd' = pd /\ v' = v) then o else translate s pd' v';
}.

Lemma wf_dir_ne_0 s pd : mm_wf s -> is_Some (pgdirs s !! pd) -> (pd =? 0) = false.
Proof. intros Hwf [d Hd]. apply Z.eqb_neq. intros ->. by rewrite (wf_null s Hwf) in Hd. Qed.

Lemma slot_pde_at s pd v e :
  pde_at s pd v = Some e ->
  slot s pd v = if pde_is_present e
                then Some (kpool_addr_to_id (kpool_frame_to_addr (pde_frame_get e))) else None.
Proof. intros He. unfold slot. by rewrite He. Qed.

Lemma existsb_aset (P : pte -> bool) i e tab :
  0 ≤ i < alen tab -> P e = true -> existsb P (aset i e tab) = true.
Proof.
  intros Hi Hp. apply existsb_exists. exists e. split; [|done].
  apply list_elem_of_In. eapply aget_elem. by apply aget_aset_eq.
Qed.

(** Writing an entry into an existing page table. *)
Lemma map_in_table s pd v i f :
  mm_wf s -> is_upage v -> slot s pd v = Some i -> frame_fits f -> translate s pd v = None ->
  wp (pde ← pde_load pd (pde_idx_get v);
      let pgtab := kpool_frame_to_addr (pde_frame_get pde) in
      pte ← pte_get pgtab v;
      if pte_is_present pte then mret (err EADDRINUSE) else
      tab ← pgtab_read pgtab;
      pgtab_write pgtab (mmu_page_map tab (frame_addr f) v true false);;
      pte ← pte_get pgtab v;
      KASSERT (pte_is_present pte);;
      do_tlb_flush;;
      mret 0)
     (fun r s' => r = 0 /\ mm_wf s' /\ mm_rest s s' /\ keeps_owned s s' /\
        (forall pd' v', is_upage v' ->
          translate s' pd' v' =
          if bool_decide (pd' = pd /\ v' = v) then Some f else translate s pd' v') /\
        (forall j, j = i \/ nonempty_at s j -> nonempty_at s' j) /\
        (forall pd' v', slot s' pd' v' = slot s pd' v')) s.
Proof.
  intros Hwf Hv Hs Hf Htr. pose proof (proj1 Hv) as Hu.
  destruct (slot_inv s pd v i Hwf Hu Hs) as (Hi & e & tab & p & He & Hp & Ha & Ht & Hl & Hpt & Hpa).
  assert (Hpp : pte_is_present p = false).
  { unfold translate in Htr. rewrite Hs in Htr. simpl in Htr. rewrite Hpa in Htr. simpl in Htr.
    by destruct (pte_is_present p). }
  pose proof (pte_idx_range v Hu) as Hr.
  wp_step. apply (wp_pde_load pd v e); [done|]. simpl. rewrite Ha.
  wp_step. apply (wp_pte_get i v p); [done|done|]. rewrite Hpp.
  wp_step. apply (wp_pgtab_read i tab); [done|done|].
  rewrite frame_addr_fits by done.
  destruct (mmu_page_map_spec tab f v true false Hf) as (p' & -> & Hp' & Hfp).
  wp_step. apply wp_pgtab_write; [done|]. wp_step. apply (wp_pte_get i v p'); [done| |].
  { rewrite pte_at_put_tab by (by eapply aget_lt). rewrite bool_decide_true by done.
    apply aget_aset_eq. lia. }
  wp_step. wp_step; [done|]. wp_step. unfold do_tlb_flush. wp_step. wp_step.
  set (s1 := put_tab i (aset (pte_idx_get v) p' tab) s).
  assert (Hwf1 : mm_wf s1) by (eapply wf_put_pte; try done; intros _; by rewrite Hfp).
  split; [done|]. split; [by destruct Hwf1|]. split; [|split; [|split; [|split]]].
  - etrans; [apply (put_tab_rest i (aset (pte_idx_get v) p' tab))|]. apply tlb_flush_rest.
  - by apply keeps_owned_ext.
  - intros pd' v' Hv'.
    change (translate s1 pd' v' = if bool_decide (pd' = pd /\ v' = v) then Some f else translate s pd' v').
    unfold s1. erewrite translate_put_pte by done. by rewrite Hp', Hfp.
  - intros j Hj t. simpl. rewrite aget_aset. case_bool_decide as Hc.
    + intros [= <-]. apply existsb_aset; [lia|done].
    + intros Htj. destruct Hj as [->|Hj]; [|by apply Hj]. destruct Hc. split; [done|]. by eapply aget_lt.
  - done.
Qed.

Lemma upage_map_spec pd v f s :
  mm_wf s -> is_Some (pgdirs s !! pd) -> is_upage v -> frame_fits f ->
  wp (upage_map pd v f) (fun r s' =>
    (is_Some (translate s pd v) /\ r = err EADDRINUSE /\ s' = s) \/
    (slot s pd v = None /\ kpool_full s /\ r = err EAGAIN /\ s' = s) \/
    (translate s pd v = None /\ r = 0 /\ mm_upd s s' pd v (Some f))) s.
Proof.
  intros Hwf Hd Hv Hf. pose proof Hv as [Hu Hal]. unfold upage_map, pde_get.
  rewrite (wf_dir_ne_0 s pd), Hu, Hal by done. simpl.
  destruct (pde_at_Some s pd v Hwf Hu Hd) as [e He].
  pose proof (slot_pde_at _ _ _ _ He) as Hslot.
  wp_step. apply (wp_pde_load pd v e); [done|]. wp_step.
  destruct (pde_is_present e) eqn:Hp; simpl.
  - wp_step. destruct (translate s pd v) as [g|] eqn:Htr.
    + destruct (slot_inv s pd v _ Hwf Hu Hslot) as (Hi & e' & tab & p & He' & _ & Ha & _ & _ & _ & Hpa).
      wp_step. apply (wp_pde_load pd v e'); [done|]. simpl. rewrite Ha.
      wp_step. eapply wp_pte_get; [done|exact Hpa|].
      unfold translate in Htr. rewrite Hslot in Htr. simpl in Htr. rewrite Hpa in Htr.
      simpl in Htr. destruct (pte_is_present p); [|done]. wp_step. left. done.
    + eapply wp_mono; [by eapply map_in_table|].
      intros r s' (-> & Hwf' & Hrest & Hown & Htr' & Hne & Hsl). right; right. split_and!; try done.
      split; try done. intros Hn _ pd' v' j Hv'. rewrite Hsl. intros Hj.
      apply Hne. right. by eapply Hn.
  - eapply wp_mono; [by apply pgtab_map_spec|].
    intros r s1 [(-> & -> & Hfull)|(-> & Hwf1 & Hrest1 & Hown1 & i & tab & Hs1 & Ht1 & Habs & Htr1 & Hne1)].
    { wp_step. right; left. done. }
    assert (Htr : translate s pd v = None) by (unfold translate; by rewrite Hslot).
    eapply wp_mono; [eapply (map_in_table s1 pd v i f); try done; by rewrite Htr1|].
    intros r s' (-> & Hwf' & Hrest & Hown & Htr' & Hne & Hsl). right; right. split_and!; try done.
    split; try done; [by etrans|by etrans| |].
    + intros Hn _ pd' v' j Hv'. rewrite Hsl. intros Hj. apply Hne. by eapply Hne1.
    + intros pd' v' Hv'. rewrite Htr' by done. case_bool_decide; [done|]. apply Htr1, Hv'.
Qed.

(** Clearing an entry and releasing the page table that becomes empty. *)
Lemma upage_unmap_spec pd v s :
  mm_wf s -> is_Some (pgdirs s !! pd) -> is_upage v ->
  wp (upage_unmap pd v) (fun r s' =>
    match translate s pd v with
    | None => r = FRAME_NULL /\ s' = s
    | Some f => r = f /\ mm_upd s s' pd v None /\
                (CORE_HAS_TLB_HW = false -> forall ty, tlb_lookup (tlb s') ty v = None)
    end) s.
Proof.
  intros Hwf Hd Hv. pose proof Hv as [Hu Hal]. unfold upage_unmap, pde_get.
  rewrite (wf_dir_ne_0 s pd), Hu, Hal by done. simpl.
  destruct (pde_at_Some s pd v Hwf Hu Hd) as [e0 He0]. pose proof (slot_pde_at _ _ _ _ He0) as Hslot.
  wp_step. apply (wp_pde_load pd v e0); [done|].
  destruct (pde_is_present e0) eqn:Hp0; simpl;
    [|wp_step; unfold translate; by rewrite Hslot].
  destruct (slot_inv s pd v _ Hwf Hu Hslot)
    as (Hi & e & tab & p & He & Hp & Ha & Ht & Hl & Hpt & Hpa).
  rewrite He in He0. simplify_eq. set (i := kpool_addr_to_id _) in *. rewrite Ha.
  wp_step. apply (wp_pte_get i v p); [done|done|].
  assert (Htr : translate s pd v = if pte_is_present p then Some (pte_frame_get p) else None).
  { unfold translate. rewrite Hslot. simpl. by rewrite Hpa. }
  rewrite Htr. destruct (pte_is_present p) eqn:Hpp; simpl; [|by wp_step].
  wp_step. apply (wp_pgtab_read i tab); [done|done|].
  wp_step. apply wp_pgtab_write; [done|].
  pose proof (pte_present_set_false p) as Hp'. set (p' := pte_present_set p false) in *.
  set (s1 := put_tab i (aset (pte_idx_get v) p' tab) s).
  assert (Hwf1 : mm_wf s1) by (eapply wf_put_pte; try done; by rewrite Hp').
  assert (Htr1 : forall pd' v', is_upage v' -> translate s1 pd' v' =
     if bool_decide (pd' = pd /\ v' = v) then None else translate s pd' v').
  { intros pd' v' Hv'. unfold s1. erewrite translate_put_pte by done. by rewrite Hp'. }
  wp_step. eapply wp_mono; [by apply upage_inval_spec|]. intros r s2 (t & _ & -> & Hsub & Hgone).
  assert (Hr2 : mm_rest s (set_tlb t s1)) by (by split).
  wp_step. wp_step.
  - wp_step. wp_step. split_and!; try done. split; try done; [by destruct Hwf1|by apply keeps_owned_ext|congruence].
  - eapply wp_mono.
    { apply (pgtab_unmap_spec pd v i); [by destruct Hwf1|done|exact Hslot]. }
    intros r' s3 (Hwf3 & Hrest3 & Hown3 & Hne3 & Htr3 & _). wp_step. split_and!; [done| |].
    + split; try done; [by etrans|etrans; [|exact Hown3]; by apply keeps_owned_ext| |].
      * intros Hn _. apply Hne3. intros pd' v' j Hv' Hj.
        destruct (decide (j = i)) as [->|Hji]; [by left|right]. intros t'. simpl.
        rewrite aget_aset_ne by done. by apply (Hn pd' v').
      * intros pd' v' Hv'. rewrite Htr3 by apply Hv'. by apply Htr1.
    + intros Hc ty. destruct (tlb_lookup (tlb s3) ty v) eqn:E; [|done].
      apply (rest_tlb _ _ Hrest3) in E. simpl in E. by rewrite Hgone in E.
Qed.

End upage.

(** ** A concrete MMU

    Entries are a presence bit and a frame number; tables have four entries; the TLB
    is the list of its entries. *)

Definition tlb_type_eqb (a b : tlb_type) : bool :=
  match a, b with
  | TLB_INSTRUCTION, TLB_INSTRUCTION | TLB_DATA, TLB_DATA => true
  | _, _ => false
  end.

Definition tlb_match (ty : tlb_type) (v : Z) (e : tlb_type * Z * Z) : bool :=
  tlb_type_eqb ty e.1.1 && (v =? e.1.2).

Definition mmu_small : @Mmu mem_small := {|
  pde := bool * Z;
  pte := bool * Z;
  PDE_SIZE := 4;
  PGDIR_LENGTH := 8;
  PGTAB_MASK := -64;
  root_pgdir := 4096;
  pde_idx_get v := Z.land (v ≫ 6) 7;
  pte_idx_get v := Z.land (v ≫ 4) 3;
  pde_is_present := fst;
  pde_frame_get := snd;
  pde_present_set e b := (b, snd e);
  pte_is_present := fst;
  pte_frame_get := snd;
  pte_present_set e b := (b, snd e);
  pte_clear _ := (false, 0);
  mmu_pgtab_map dir p v := aset (Z.land (v ≫ 6) 7) (true, p ≫ 4) dir;
  mmu_page_map tab p v _ _ := aset (Z.land (v ≫ 4) 3) (true, p ≫ 4) tab;
  tlbs := list (tlb_type * Z * Z);
  tlb_lookup t ty v := snd <$> List.find (tlb_match ty v) t;
  tlb_inval t ty v := (0, List.filter (fun e => negb (tlb_match ty v e)) t);
  tlb_shootdown t v := (0, t);
  tlb_write t ty v p := (0, (ty, v, p) :: t);
  tlb_flush t := t;
  CORE_HAS_TLB_HW := false;
  CLUSTER_HAS_TLB_SHOOTDOWN := true;
  NANVIX_FAST_MEMORY := false;
|}.

Lemma tlb_match_inv ty v e : tlb_match ty v e = true -> ty = e.1.1 /\ v = e.1.2.
Proof.
  unfold tlb_match. rewrite andb_true_iff, Z.eqb_eq. destruct ty, e.1.1; simpl; naive_solver.
Qed.

Lemma find_inval ty v t :
  List.find (tlb_match ty v) (List.filter (fun e => negb (tlb_match ty v e)) t) = None.
Proof.
  induction t as [|e t IH]; simpl; [done|].
  destruct (tlb_match ty v e) eqn:E; simpl; [done|]. by rewrite E.
Qed.

Lemma find_inval_sub ty v ty' v' t e :
  List.find (tlb_match ty' v') (List.filter (fun e => negb (tlb_match ty v e)) t) = Some e ->
  List.find (tlb_match ty' v') t = Some e.
Proof.
  induction t as [|x t IH]; simpl; [done|].
  destruct (tlb_match ty v x) eqn:E; simpl.
  - destruct (tlb_match ty' v' x) eqn:E'; [|done]. intros Hf.
    apply tlb_match_inv in E as [-> ->], E' as [-> ->]. by rewrite find_inval in Hf.
  - by destruct (tlb_match ty' v' x).
Qed.

(** The user pages of the small layout. *)
Lemma mem_small_pages v :
  @is_upage mem_small v -> v ∈ [256; 272; 288; 304; 320; 336; 352; 368].
Proof.
  intros [Hu Ha]. pose proof mem_small_laws. rewrite page_offset in Ha.
  apply mm_is_uaddr_spec in Hu. simpl in *.
  assert (v = 16 * (v / 16)) as E by (pose proof (Z.div_mod v 16); lia).
  assert (16 ≤ v / 16 < 24) by lia.
  rewrite !elem_of_cons. lia.
Qed.

Lemma land_low v k : 0 ≤ k -> Z.land v (2 ^ k - 1) = v `mod` 2 ^ k.
Proof. intros ?. rewrite Z.sub_1_r, <- Z.ones_equiv. by apply Z.land_ones. Qed.

Lemma mmu_small_laws : MmuLaws mmu_small.
Proof.
  pose proof mem_small_laws as ML. split; simpl; try done.
  - intros v _. rewrite (land_low _ 3) by done. by apply Z.mod_pos_bound.
  - intros v _. rewrite (land_low _ 2) by done. by apply Z.mod_pos_bound.
  - intros v v' Hv%mem_small_pages Hv'%mem_small_pages.
    apply list_elem_of_In in Hv, Hv'. simpl in Hv, Hv'.
    destruct_or? Hv; destruct_or? Hv'; subst; vm_compute; done.
  - intros v _. f_equal. rewrite Z.shiftr_land. change (-64 ≫ 6) with (-1). by rewrite Z.land_m1_r.
  - intros dir f v Hf. eexists. split_and!; [done|done|]. simpl.
    rewrite Z.shiftr_shiftl_l by done. by rewrite Z.shiftl_0_r.
  - intros tab f v _ _ Hf. eexists. split_and!; [done|done|]. simpl.
    rewrite Z.shiftr_shiftl_l by done. by rewrite Z.shiftl_0_r.
  - intros t ty v. by rewrite find_inval.
  - intros t ty v ty' v' p. destruct (List.find _ _) as [e|] eqn:E; [|done]. simpl.
    intros [= <-]. by rewrite (find_inval_sub _ _ _ _ _ _ E).
  - intros t ty v p ty' v' p'. destruct (tlb_match ty' v' (ty, v, p)) eqn:E; simpl; [|by right].
    apply tlb_match_inv in E as [-> ->]. intros [= <-]. by left.
Qed.

(** An address space with no user page. *)
Definition mm_empty : @mm mem_small bitmap_sets mmu_small :=
  Mm (M:=mem_small) (B:=bitmap_sets) (U:=mmu_small) ∅
     (Kpool [0; 0; 0] (replicate 3 (replicate 4 (false, 0))))
     {[4096 := replicate 8 (false, 0)]} ∅ [] [].
