(* ===== verification/AddressSpace.v ===== *)
(** Address spaces: allocation, release and sharing of user pages, and TLB refills
    (upage_alloc, upage_free, upage_link, do_tlb_fault of src/kernel/mm/page.c).

    The operations of Upage.v and Frame.v are combined here into the theorems about
    whole address spaces: frames are owned by one page, failed calls leave no trace,
    the TLB agrees with the page tables. *)

From S2P Require Import Prelude.
From S2P Require Import Hlib.
From S2P Require Import MemLayout.
From S2P Require Import Alloc.
From S2P Require Import Frame.
From S2P Require Import Kpool.
From S2P Require Import Upage.

Section space.
Context `{H : Hlib} `{M : MemLayout} `{B : Bitmap} `{U : !Mmu}.

(** Each frame in use by a page is allocated, and used by that page only. *)
Definition owned (s : mm) : Prop :=
  forall pd v f, is_upage v -> translate s pd v = Some f ->
  f ∈ allocated (frames s) /\
  forall pd' v', is_upage v' -> translate s pd' v' = Some f -> pd' = pd /\ v' = v.

Record space_inv (s : mm) : Prop := {
  inv_wf : mm_wf s;
  inv_owned : owned s;
  inv_tlb : CORE_HAS_TLB_HW = false -> tlb_coherent s;
  inv_tables : NANVIX_FAST_MEMORY = false -> no_empty_tables s;
}.

(** The operations on the active address space. *)
Inductive space_step : mm -> mm -> Prop :=
| step_alloc s v r s' : upage_alloc root_pgdir v s = Done r s' -> space_step s s'
| step_free s v r s' : upage_free root_pgdir v s = Done r s' -> space_step s s'
| step_tlb s num addr s' :
    mm_is_uaddr (Z.land addr PAGE_MASK) = true ->
    do_tlb_fault num addr s = Done tt s' -> space_step s s'.

Context {HL : HlibLaws H} {ML : MemLayoutLaws M} {BL : BitmapLaws B} {FC : FrameConfig}
        {UL : MmuLaws U}.

(** ** Changing parts of the state *)

Lemma mm_wf_ext s s' : pool s = pool s' -> pgdirs s = pgdirs s' -> mm_wf s -> mm_wf s'.
Proof.
  intros E1 E2 []. split; unfold translate, slot, pte_at, pde_at in *; rewrite <- ?E1, <- ?E2; done.
Qed.

Lemma no_empty_ext s s' :
  pool s = pool s' -> pgdirs s = pgdirs s' -> no_empty_tables s -> no_empty_tables s'.
Proof.
  intros E1 E2 Hn. unfold no_empty_tables, nonempty_at, slot, pde_at in *.
  rewrite <- E1, <- E2. done.
Qed.

Lemma is_upage_dec v :
  {mm_is_uaddr v = false} + {mm_is_uaddr v = true /\ Z.land v (Z.lnot PAGE_MASK) <> 0} + {is_upage v}.
Proof.
  destruct (mm_is_uaddr v) eqn:Hu; [|by left; left].
  destruct (decide (Z.land v (Z.lnot PAGE_MASK) = 0)); [by right|left; right; done].
Qed.

(** [upage_map] on any address. *)
Lemma upage_map_total pd v f s :
  mm_wf s -> is_Some (pgdirs s !! pd) -> frame_fits f ->
  wp (upage_map pd v f) (fun r s' =>
    (s' = s /\
     ((mm_is_uaddr v = false /\ r = err EFAULT) \/
      (mm_is_uaddr v = true /\ Z.land v (Z.lnot PAGE_MASK) <> 0 /\ r = err EINVAL) \/
      (is_upage v /\ is_Some (translate s pd v) /\ r = err EADDRINUSE) \/
      (is_upage v /\ slot s pd v = None /\ kpool_full s /\ r = err EAGAIN))) \/
    (is_upage v /\ translate s pd v = None /\ r = 0 /\ mm_upd s s' pd v (Some f))) s.
Proof.
  intros Hwf Hd Hf. destruct (is_upage_dec v) as [[Hu|[Hu Ha]]|Hv].
  - unfold upage_map. rewrite (wf_dir_ne_0 s pd), Hu by done. simpl. wp_step. left. split; [done|]. tauto.
  - unfold upage_map. rewrite (wf_dir_ne_0 s pd), Hu by done. simpl.
    rewrite (proj2 (Z.eqb_neq _ 0)) by done. simpl. wp_step. left. split; [done|]. tauto.
  - eapply wp_mono; [by apply upage_map_spec|]. intros r s' [(?&?&?)|[(?&?&?&?)|(?&?&?)]]; tauto.
Qed.

Lemma upage_unmap_total pd v s :
  mm_wf s -> is_Some (pgdirs s !! pd) ->
  wp (upage_unmap pd v) (fun r s' =>
    (r = FRAME_NULL /\ s' = s /\ (is_upage v -> translate s pd v = None)) \/
    (is_upage v /\ translate s pd v = Some r /\ mm_upd s s' pd v None /\
     (CORE_HAS_TLB_HW = false -> forall ty, tlb_lookup (tlb s') ty v = None))) s.
Proof.
  intros Hwf Hd. destruct (is_upage_dec v) as [[Hu|[Hu Ha]]|Hv].
  - unfold upage_unmap. rewrite (wf_dir_ne_0 s pd), Hu by done. simpl. wp_step. left.
    split_and!; try done. intros [? _]. congruence.
  - unfold upage_unmap. rewrite (wf_dir_ne_0 s pd), Hu by done. simpl.
    rewrite (proj2 (Z.eqb_neq _ 0)) by done. simpl. wp_step. left. split_and!; try done.
    by intros [_ ?].
  - eapply wp_mono; [by apply upage_unmap_spec|]. intros r s'.
    destruct (translate s pd v); [intros (-> & ? & ?); right; auto|intros [-> ->]; left; auto].
Qed.

(** ** Allocation *)

(** What [upage_alloc] does when it succeeds. *)
Record alloc_post (s s' : mm) (pd v f : Z) : Prop := {
  ap_wf : mm_wf s';
  ap_new : f ∉ allocated (frames s);
  ap_valid : frame_is_valid_num f = true;
  ap_frames : allocated (frames s') = {[f]} ∪ allocated (frames s);
  ap_translate pd' v' : is_upage v' ->
    translate s' pd' v' = if bool_decide (pd' = pd /\ v' = v) then Some f else translate s pd' v';
  ap_data : frame_data s' =
    if NANVIX_FAST_MEMORY then frame_data s else <[f := zero_page]> (frame_data s);
  ap_tlb : tlb_sub (tlb s') (tlb s);
  ap_owned : keeps_owned s s';
  ap_dirs pd' : is_Some (pgdirs s' !! pd') <-> is_Some (pgdirs s !! pd');
  ap_tables : no_empty_tables s -> NANVIX_FAST_MEMORY = false -> no_empty_tables s';
}.

Lemma upage_alloc_cases v s :
  mm_wf s -> is_Some (pgdirs s !! root_pgdir) ->
  wp (upage_alloc root_pgdir v) (fun r s' =>
    (exists fr, s' = set_frames fr s /\ allocated fr = allocated (frames s) /\
     ((mm_is_uaddr v = false /\ r = err EFAULT) \/
      (mm_is_uaddr v = true /\ Z.land v (Z.lnot PAGE_MASK) <> 0 /\ r = err EINVAL) \/
      (is_upage v /\ is_Some (translate s root_pgdir v) /\ r = err EADDRINUSE) \/
      (is_upage v /\ slot s root_pgdir v = None /\ kpool_full s /\ r = err EAGAIN) \/
      ((forall f, frame_is_valid_num f = true -> f ∈ allocated (frames s)) /\ r = err EAGAIN))) \/
    (r = 0 /\ is_upage v /\ translate s root_pgdir v = None /\
     exists f, alloc_post s s' root_pgdir v f)) s.
Proof.
  intros Hwf Hd. unfold upage_alloc. rewrite (wf_dir_ne_0 s root_pgdir) by done.
  wp_step. unfold with_frames. eapply wp_zoom; [done|].
  eapply wp_mono; [apply frame_alloc_cases|]. simpl.
  intros f fr [(-> & -> & Hall)|(Hfv & Hfn & Hfr & _)].
  { rewrite Z.eqb_refl. wp_step. left. exists (frames s). split_and!; [by destruct s|done|]. auto 10. }
  assert (f <> FRAME_NULL) by (intros ->; by rewrite frame_null_invalid in Hfv).
  rewrite (proj2 (Z.eqb_neq _ _)) by done. wp_step.
  assert (Hwf1 : mm_wf (set_frames fr s)) by (by eapply mm_wf_ext; [| |exact Hwf]).
  eapply wp_mono; [by apply upage_map_total; [| |apply valid_num_fits]|].
  intros r s1 [(-> & Hr)|(Hv & Htr & -> & [Hwf' Hrest Hown Hne Htr'])].
  - assert ((r <? 0) = true) as ->.
    { apply Z.ltb_lt. destruct Hr as [[_ ->]|[(_&_&->)|[(_&_&->)|(_&_&_&->)]]]; auto with kernel. }
    wp_step. eapply wp_zoom; [done|]. eapply wp_mono; [apply frame_free_cases|]. simpl.
    intros r2 fr2 [(?&_)|[(_&Hn&_)|(_&_&Hfr2)]]; [congruence| |].
    + rewrite Hfr in Hn. set_solver.
    + wp_step. left. exists fr2. split_and!; [done|rewrite Hfr2, Hfr; set_solver|].
      destruct Hr as [?|[?|[?|?]]]; auto 10.
  - simpl. wp_step.
    assert (Hroot : translate s1 root_pgdir v = Some f).
    { rewrite Htr' by done. by rewrite bool_decide_true. }
    eapply wp_mono with (Q := fun _ s' => s' = set_frame_data
        (if NANVIX_FAST_MEMORY then frame_data s1 else <[f := zero_page]> (frame_data s1)) s1).
    + destruct NANVIX_FAST_MEMORY; [by wp_step; destruct s1|]. unfold kmemset_page. wp_step. wp_step. wp_step.
      eapply wp_unwrap; [exact Hroot|]. by wp_step.
    + intros _ s' ->. wp_step. right. split_and!; try done. exists f.
      split; try done; try apply Hrest.
      * by eapply mm_wf_ext; [| |exact Hwf'].
      * simpl. by rewrite (rest_frames _ _ Hrest).
      * simpl. by rewrite (rest_data _ _ Hrest).
      * etrans; [by apply (keeps_owned_ext s (set_frames fr s))|]. etrans; [exact Hown|]. by apply keeps_owned_ext.
Qed.

(** ** Release *)

Record free_post (s s' : mm) (pd v f : Z) : Prop := {
  fp_wf : mm_wf s';
  fp_frames : allocated (frames s') = allocated (frames s) ∖ {[f]};
  fp_translate pd' v' : is_upage v' ->
    translate s' pd' v' = if bool_decide (pd' = pd /\ v' = v) then None else translate s pd' v';
  fp_data : frame_data s' = frame_data s;
  fp_tlb : tlb_sub (tlb s') (tlb s);
  fp_owned : keeps_owned s s';
  fp_inval : CORE_HAS_TLB_HW = false -> forall ty, tlb_lookup (tlb s') ty v = None;
  fp_dirs pd' : is_Some (pgdirs s' !! pd') <-> is_Some (pgdirs s !! pd');
  fp_tables : no_empty_tables s -> NANVIX_FAST_MEMORY = false -> no_empty_tables s';
}.

Lemma upage_free_cases pd v s :
  mm_wf s -> is_Some (pgdirs s !! pd) ->
  (forall f, translate s pd v = Some f -> f ∈ allocated (frames s)) ->
  wp (upage_free pd v) (fun r s' =>
    (r = err EFAULT /\ s' = s /\ (is_upage v -> translate s pd v = None)) \/
    (r = 0 /\ is_upage v /\ exists f, translate s pd v = Some f /\ free_post s s' pd v f)) s.
Proof.
  intros Hwf Hd Hal. unfold upage_free. rewrite (wf_dir_ne_0 s pd) by done.
  wp_step. eapply wp_mono; [by apply upage_unmap_total|].
  intros f s1 [(-> & -> & Hn)|(Hv & Htr & [Hwf' Hrest Hown Hne Htr'] & Hinv)].
  { rewrite Z.eqb_refl. wp_step. by left. }
  assert (f <> FRAME_NULL).
  { intros ->. by apply (wf_fits s Hwf) in Htr; [apply frame_null_not_fits in Htr|]. }
  rewrite (proj2 (Z.eqb_neq _ _)) by done. wp_step. unfold with_frames. eapply wp_zoom; [done|].
  eapply wp_mono; [apply frame_free_cases|]. simpl. rewrite (rest_frames _ _ Hrest).
  specialize (Hal _ Htr). pose proof (proj1 (elem_of_allocated _ _) Hal) as [Hfv _].
  intros r fr [(?&_)|[(_&?&_)|(_&->&Hfr)]]; [congruence|done|]. simpl. wp_step.
  right. split_and!; try done. exists f. split; [done|].
  split; try done; try apply Hrest; [by eapply mm_wf_ext; [| |exact Hwf']|].
  etrans; [exact Hown|]. by apply keeps_owned_ext.
Qed.

(** ** Links *)

Lemma upage_link_spec pd v1 v2 s :
  mm_wf s -> is_Some (pgdirs s !! pd) -> is_upage v1 -> is_upage v2 ->
  wp (upage_link pd v1 v2) (fun r s' =>
    match translate s pd v1 with
    | None => r = err EFAULT /\ s' = s
    | Some f =>
        (is_Some (translate s pd v2) /\ r = err EADDRINUSE /\ s' = s) \/
        (slot s pd v2 = None /\ kpool_full s /\ r = err EAGAIN /\ s' = s) \/
        (translate s pd v2 = None /\ r = 0 /\ mm_upd s s' pd v2 (Some f))
    end) s.
Proof.
  intros Hwf Hd Hv1 Hv2. pose proof Hv1 as [Hu1 _]. pose proof Hv2 as [Hu2 Ha2].
  pose proof (fun f => wf_fits s Hwf pd v1 f Hv1) as Hfits. unfold translate at 1 in Hfits. unfold translate at 1.
  unfold upage_link, pde_get. rewrite (wf_dir_ne_0 s pd), Hu2, Ha2 by done. simpl. wp_step.
  destruct (pde_at_Some s pd v1 Hwf Hu1 Hd) as [e0 He0]. pose proof (slot_pde_at _ _ _ _ He0) as Hs.
  apply (wp_pde_load pd v1 e0); [done|].
  destruct (pde_is_present e0) eqn:Hp0; simpl; [|wp_step; by rewrite Hs].
  destruct (slot_inv s pd v1 _ Hwf Hu1 Hs) as (Hi & e & tab & p & He & Hp & Ha & Ht & _ & _ & Hpa).
  rewrite He in He0. simplify_eq. set (i := kpool_addr_to_id _) in *. rewrite Ha.
  wp_step. apply (wp_pte_get i v1 p); [done|done|].
  rewrite Hs in *. simpl in *. rewrite Hpa in *. simpl in *.
  destruct (pte_is_present p) eqn:Hpp; simpl; [|by wp_step].
  by apply upage_map_spec; auto.
Qed.

(** ** TLB refill *)

Lemma kpool_frame_addr i :
  KPOOL_VIRT = KPOOL_PHYS -> 0 ≤ i < NUM_KPAGES ->
  frame_addr (kpool_addr_to_frame (kpool_id_to_addr i)) = kpool_id_to_addr i.
Proof.
  intros E Hi. rewrite frame_addr_fits by (by apply kpool_frame_fits).
  unfold kpool_addr_to_frame. rewrite kpool_id_roundtrip, kpool_id_to_addr_mul by done.
  pose proof page_shift_pos. rewrite Z.shiftl_mul_pow2, Z.shiftr_div_pow2 by lia.
  rewrite <- page_size_shift. pose proof kpool_virt_aligned as Ha. rewrite E in *.
  pose proof page_size_pos. pose proof (Z.div_mod KPOOL_PHYS PAGE_SIZE). lia.
Qed.

Lemma upage_base v : mm_is_uaddr (Z.land v PAGE_MASK) = true -> is_upage (Z.land v PAGE_MASK).
Proof.
  intros Hu. split; [done|]. rewrite <- Z.land_assoc, Z.land_lnot_diag. apply Z.land_0_r.
Qed.

Definition tlb_type_of (num : excp_num) : tlb_type :=
  match num with EXCEPTION_DTLB_FAULT => TLB_DATA | EXCEPTION_ITLB_FAULT => TLB_INSTRUCTION end.

Lemma do_tlb_fault_cases num addr s :
  KPOOL_VIRT = KPOOL_PHYS -> mm_wf s -> is_Some (pgdirs s !! root_pgdir) ->
  mm_is_uaddr (Z.land addr PAGE_MASK) = true ->
  (forall t ty v p, 0 ≤ fst (tlb_write t ty v p)) ->
  wp (do_tlb_fault num addr) (fun _ s' =>
    match translate s root_pgdir (Z.land addr PAGE_MASK) with
    | None => s' = set_pgfaults (pgfaults s ++ [addr]) s
    | Some f => s' = set_tlb (tlb_flush (snd (tlb_write (tlb s) (tlb_type_of num)
                               (Z.land addr PAGE_MASK) (frame_addr f)))) s
    end) s.
Proof.
  intros Hid Hwf Hd Hu Hw. set (v := Z.land addr PAGE_MASK) in *. unfold do_tlb_fault, pde_get, forward_page_fault, do_tlb_flush. fold v.
  destruct (pde_at_Some s root_pgdir v Hwf Hu Hd) as [e He].
  pose proof (slot_pde_at _ _ _ _ He) as Hslot.
  wp_step. apply (wp_pde_load root_pgdir v e); [done|].
  destruct (pde_is_present e) eqn:Hp; simpl.
  - destruct (wf_slot s Hwf _ _ _ Hu He Hp) as (i & Hi & Hf & _).
    rewrite Hf, kpool_frame_addr by done.
    rewrite Hf, kpool_frame_roundtrip, kpool_id_roundtrip in Hslot by done.
    destruct (slot_inv s root_pgdir v i Hwf Hu Hslot) as (_ & _ & _ & p & _ & _ & _ & _ & _ & _ & Hpa).
    wp_step. apply (wp_pte_get i v p); [done|done|].
    assert (Htr : translate s root_pgdir v =
                  if pte_is_present p then Some (pte_frame_get p) else None).
    { unfold translate. rewrite Hslot. simpl. by rewrite Hpa. }
    rewrite Htr. destruct (pte_is_present p); simpl; [|by wp_step].
    wp_step. apply wp_with_tlb. specialize (Hw (tlb s) (tlb_type_of num) v (frame_addr (pte_frame_get p))).
    unfold tlb_type_of in *. rewrite (proj2 (Z.ltb_ge _ 0)) by (destruct num; done). by wp_step.
  - assert (translate s root_pgdir v = None) as -> by (unfold translate; by rewrite Hslot).
    by wp_step.
Qed.

(** ** The invariant of address spaces *)

Lemma alloc_post_inv s s' v f :
  space_inv s -> is_upage v -> translate s root_pgdir v = None ->
  alloc_post s s' root_pgdir v f -> space_inv s'.
Proof.
  intros [Hwf Hown Htlb Htab] Hv Hnone [Hwf' Hnew Hval Hfr Htr _ Hsub _ _ Hne].
  assert (Hold : forall pd w, is_upage w -> translate s pd w <> Some f).
  { intros pd w Hw E. by destruct (Hown pd w f Hw E). }
  split; [done| | |auto].
  - intros pd w g Hw. rewrite Htr, Hfr by done. case_bool_decide as Hc.
    + intros [= <-]. split; [set_solver|]. intros pd' w' Hw'. rewrite Htr by done.
      case_bool_decide as Hc'; [naive_solver|]. by intros ?%Hold.
    + intros Hg. destruct (Hown pd w g Hw Hg) as [Hin Huniq]. split; [set_solver|].
      intros pd' w' Hw'. rewrite Htr by done. case_bool_decide; [|by apply Huniq].
      intros [= <-]. by apply Hold in Hg.
  - intros Hc ty w p Hw Hl%Hsub. destruct (Htlb Hc ty w p Hw Hl) as (g & Hg & ->).
    exists g. rewrite Htr by done. split; [|done]. case_bool_decide as Hc'; [|done].
    destruct Hc' as [_ ->]. congruence.
Qed.

Lemma free_post_inv s s' v f :
  space_inv s -> is_upage v -> translate s root_pgdir v = Some f ->
  free_post s s' root_pgdir v f -> space_inv s'.
Proof.
  intros [Hwf Hown Htlb Htab] Hv Hf [Hwf' Hfr Htr _ Hsub _ Hinv _ Hne].
  split; [done| | |auto].
  - intros pd w g Hw. rewrite Htr, Hfr by done. case_bool_decide as Hc; [done|].
    intros Hg. destruct (Hown pd w g Hw Hg) as [Hin Huniq]. split.
    + apply elem_of_difference. split; [done|]. intros ->%elem_of_singleton.
      apply Hc. by destruct (Huniq _ _ Hv Hf).
    + intros pd' w' Hw'. rewrite Htr by done. case_bool_decide; [done|]. by apply Huniq.
  - intros Hc ty w p Hw Hl. destruct (Htlb Hc ty w p Hw (Hsub _ _ _ Hl)) as (g & Hg & ->).
    exists g. rewrite Htr by done. split; [|done]. case_bool_decide as Hc'; [|done].
    destruct Hc' as [_ ->]. by rewrite Hinv in Hl.
Qed.

Lemma set_frames_inv s fr :
  allocated fr = allocated (frames s) -> space_inv s -> space_inv (set_frames fr s).
Proof.
  intros E [Hwf Hown Htlb Htab]. split; [by eapply mm_wf_ext; [| |exact Hwf]| |done|done].
  intros pd v f. simpl. rewrite E. apply Hown.
Qed.

(** Each operation returns and preserves the invariant. *)
Lemma space_alloc v s :
  space_inv s -> is_Some (pgdirs s !! root_pgdir) ->
  wp (upage_alloc root_pgdir v)
     (fun r s' => r ≤ 0 /\ space_inv s' /\ is_Some (pgdirs s' !! root_pgdir)) s.
Proof.
  intros Hinv Hd. eapply wp_mono; [by apply upage_alloc_cases, Hd; apply inv_wf|].
  intros r s' [(fr & -> & Hfr & Hr)|(-> & Hv & Hn & f & Hpost)].
  - split; [|split; [by apply set_frames_inv|done]].
    assert (Hneg : forall e, err e ≤ 0) by (intros e; pose proof (err_neg e); lia).
    destruct Hr as [[_ ->]|[(_&_&->)|[(_&_&->)|[(_&_&_&->)|(_&->)]]]]; auto.
  - split; [done|]. split; [by eapply alloc_post_inv|]. by apply (ap_dirs _ _ _ _ _ Hpost).
Qed.

Lemma space_free v s :
  space_inv s -> is_Some (pgdirs s !! root_pgdir) ->
  wp (upage_free root_pgdir v)
     (fun r s' => r ≤ 0 /\ space_inv s' /\ is_Some (pgdirs s' !! root_pgdir)) s.
Proof.
  intros Hinv Hd. pose proof Hinv as [Hwf Hown _ _].
  destruct (is_upage_dec v) as [Hv|Hv].
  - eapply (wp_mono _ (fun r s' => r = err EFAULT /\ s' = s)).
    + unfold upage_free. rewrite (wf_dir_ne_0 s root_pgdir) by done. wp_step.
      eapply wp_mono; [by apply upage_unmap_total|].
      intros f s1 [(-> & -> & _)|([Hu Ha] & _)]; [by rewrite Z.eqb_refl; wp_step|].
      exfalso. destruct Hv as [?|[_ ?]]; congruence.
    + intros r s' [-> ->]. split_and!; try done. pose proof (err_neg EFAULT). lia.
  - eapply wp_mono; [apply upage_free_cases; [done|done|]|].
    + intros f Hf. by apply (Hown root_pgdir v f Hv) in Hf as [? _].
    + intros r s' [(-> & -> & _)|(-> & _ & f & Hf & Hpost)].
      * split_and!; try done. pose proof (err_neg EFAULT). lia.
      * split; [done|]. split; [by eapply free_post_inv|]. by apply (fp_dirs _ _ _ _ _ Hpost).
Qed.

Lemma space_tlb num addr s :
  KPOOL_VIRT = KPOOL_PHYS -> (forall t ty v p, 0 ≤ fst (tlb_write t ty v p)) ->
  space_inv s -> is_Some (pgdirs s !! root_pgdir) -> mm_is_uaddr (Z.land addr PAGE_MASK) = true ->
  wp (do_tlb_fault num addr)
     (fun _ s' => space_inv s' /\ is_Some (pgdirs s' !! root_pgdir)) s.
Proof.
  intros Hid Hw [Hwf Hown Htlb Htab] Hd Hu.
  eapply wp_mono; [by apply do_tlb_fault_cases|]. intros [] s'.
  pose proof (upage_base _ Hu) as Hv. set (v := Z.land addr PAGE_MASK) in *. clearbody v.
  destruct (translate s root_pgdir v) as [f|] eqn:Hf; intros ->; split; try done.
  - split; [by eapply mm_wf_ext; [| |exact Hwf]|exact Hown| |done].
    intros Hc ty w p Hpw Hl%tlb_flush_sub. simpl in Hl.
    apply tlb_write_new in Hl as [(-> & -> & ->)|Hl]; [by exists f|by apply (Htlb Hc ty)].
  - split; [by eapply mm_wf_ext; [| |exact Hwf]|exact Hown|exact Htlb|exact Htab].
Qed.

(** ** Theorems *)


(** (C18) [upage_alloc] on the active directory either maps the page to a frame that
    was free, filled with zeros, and changes no other page; or it returns the error of
    the first condition that fails, and the set of allocated frames, the page tables,
    the memory and the TLB are what they were. *)
Theorem upage_alloc_correct v s :
  mm_wf s -> is_Some (pgdirs s !! root_pgdir) ->
  wp (upage_alloc root_pgdir v) (fun r s' =>
    (exists fr, s' = set_frames fr s /\ allocated fr = allocated (frames s) /\
     ((mm_is_uaddr v = false /\ r = err EFAULT) \/
      (mm_is_uaddr v = true /\ Z.land v (Z.lnot PAGE_MASK) <> 0 /\ r = err EINVAL) \/
      (is_upage v /\ is_Some (translate s root_pgdir v) /\ r = err EADDRINUSE) \/
      (is_upage v /\ slot s root_pgdir v = None /\ kpool_full s /\ r = err EAGAIN) \/
      ((forall f, frame_is_valid_num f = true -> f ∈ allocated (frames s)) /\ r = err EAGAIN))) \/
    (r = 0 /\ is_upage v /\ translate s root_pgdir v = None /\
     exists f, alloc_post s s' root_pgdir v f)) s.
Proof. apply upage_alloc_cases. Qed.

(** Releasing a page that was just allocated gives back the frame, the
    translation of every page and the absence of the page from the TLB. *)
Theorem upage_alloc_free v s :
  mm_wf s -> is_Some (pgdirs s !! root_pgdir) ->
  wp (r ← upage_alloc root_pgdir v;
      if r <? 0 then mret r else upage_free root_pgdir v)
     (fun r s' => r ≤ 0 /\ allocated (frames s') = allocated (frames s) /\
        forall pd' v', is_upage v' -> translate s' pd' v' = translate s pd' v') s.
Proof.
  intros Hwf Hd. wp_step. eapply wp_mono; [by apply upage_alloc_cases|].
  intros r s1 [(fr & -> & Hfr & Hr)|(-> & Hv & Hn & f & [Hwf1 Hnew Hval Hfr Htr _ _ _ Hdirs _])].
  - assert (r < 0) as Hneg.
    { destruct Hr as [[_ ->]|[(_&_&->)|[(_&_&->)|[(_&_&_&->)|(_&->)]]]]; auto with kernel. }
    rewrite (proj2 (Z.ltb_lt r 0)) by done. wp_step. split; [lia|]. done.
  - simpl. assert (Hf : translate s1 root_pgdir v = Some f).
    { rewrite Htr by done. by rewrite bool_decide_true. }
    eapply wp_mono; [apply upage_free_cases; [done|by apply Hdirs|]|].
    + intros g. rewrite Hf, Hfr. intros [= <-]. set_solver.
    + intros r s' [(_ & _ & Hno)|(-> & _ & g & Hg & [_ Hfr' Htr' _ _ _ _ _ _])];
        [rewrite Hno in Hf by done; done|]. rewrite Hf in Hg. injection Hg as <-.
      split; [done|]. split; [rewrite Hfr', Hfr; set_solver|].
      intros pd' v' Hv'. rewrite Htr', Htr by done. case_bool_decide as Hc; [|done].
      by destruct Hc as [-> ->].
Qed.


(** Sharing a page with [upage_link] and releasing the original leaves the second
    page mapped to a frame that is no longer allocated. *)
Theorem upage_link_dangling pd v1 v2 f s :
  mm_wf s -> is_Some (pgdirs s !! pd) -> is_upage v1 -> is_upage v2 ->
  translate s pd v1 = Some f -> f ∈ allocated (frames s) -> translate s pd v2 = None ->
  ~ kpool_full s ->
  wp (r1 ← upage_link pd v1 v2; r2 ← upage_free pd v1; mret (r1, r2))
     (fun r s' => r = (0, 0) /\ translate s' pd v2 = Some f /\ (f ∉ allocated (frames s'))) s.
Proof.
  intros Hwf Hd Hv1 Hv2 Hf Hin Hn Hnf.
  wp_step. eapply wp_mono; [by apply upage_link_spec|]. rewrite Hf.
  intros r s1 [([g Hg] & _)|[(_ & ? & _)|(_ & -> & [Hwf1 Hrest _ _ Htr])]]; [congruence|done|].
  assert (Hf1 : translate s1 pd v1 = Some f).
  { rewrite Htr by done. case_bool_decide as Hc; [done|done]. }
  wp_step. eapply wp_mono; [apply upage_free_cases; [done|by apply Hrest|]|].
  { intros g. rewrite Hf1. intros [= <-]. by rewrite (rest_frames _ _ Hrest). }
  intros r s' [(_ & _ & Hno)|(-> & _ & g & Hg & [_ Hfr' Htr' _ _ _ _ _ _])];
    [rewrite Hno in Hf1 by done; done|]. rewrite Hf1 in Hg. injection Hg as <-.
  wp_step. split; [done|]. split; [|rewrite Hfr'; set_solver].
  assert (v2 <> v1) by (intros ->; congruence).
  rewrite Htr', bool_decide_false, Htr, bool_decide_true by naive_solver. done.
Qed.

End space.

(** ** Instances *)

#[local] Existing Instances mem_small mem_small_laws bitmap_sets bitmap_sets_laws
  mmu_small mmu_small_laws.

#[local] Instance mm_small_config : FrameConfig.
Proof. by split. Qed.

Lemma mm_empty_pde pd v e : pde_at mm_empty pd v = Some e -> pde_is_present e = false.
Proof.
  unfold pde_at. simpl. destruct (decide (pd = 4096)) as [->|].
  - rewrite lookup_singleton_eq. simpl. by intros ->%(aget_replicate 8).
  - by rewrite lookup_singleton_ne.
Qed.

Lemma mm_empty_slot pd v : slot mm_empty pd v = None.
Proof.
  unfold slot. destruct (pde_at mm_empty pd v) as [e|] eqn:E; [|done].
  apply mm_empty_pde in E. simpl in *. by rewrite E.
Qed.

Lemma mm_empty_translate pd v : translate mm_empty pd v = None.
Proof. unfold translate. by rewrite mm_empty_slot. Qed.

Lemma mm_empty_wf : mm_wf mm_empty.
Proof.
  split; try done.
  - split_and!; [done|done|]. repeat constructor.
  - by repeat constructor.
  - by apply map_Forall_singleton.
  - intros pd v e _ He Hp. apply mm_empty_pde in He. congruence.
  - intros pd v pd' v' i _ _. by rewrite mm_empty_slot.
  - intros pd v f _. by rewrite mm_empty_translate.
Qed.

Lemma mm_empty_inv : space_inv mm_empty.
Proof.
  split; [apply mm_empty_wf| | |].
  - intros pd v f _. by rewrite mm_empty_translate.
  - by intros _ ty v p.
  - intros _ pd v i _. by rewrite mm_empty_slot.
Qed.

(** The address space after [upage_alloc] of page 256. *)
Definition mm_one : mm :=
  match upage_alloc root_pgdir 256 mm_empty with Done _ s => s | _ => mm_empty end.

Lemma mm_one_alloc : upage_alloc root_pgdir 256 mm_empty = Done 0 mm_one.
Proof. vm_compute. reflexivity. Qed.

Lemma mm_one_inv : space_inv mm_one.
Proof.
  assert (Hd : is_Some (pgdirs mm_empty !! root_pgdir)) by (vm_compute; eauto).
  by destruct (wp_Done _ _ _ _ _ mm_one_alloc (space_alloc 256 mm_empty mm_empty_inv Hd)) as (_ & ? & _).
Qed.

Lemma tlb_write_small (t : tlbs) ty v p : 0 ≤ fst (tlb_write t ty v p).
Proof. done. Qed.


Lemma upage_alloc_correct_witness :
  wp (upage_alloc root_pgdir 256) (fun r s' =>
    (exists fr, s' = set_frames fr mm_empty /\ allocated fr = allocated (frames mm_empty) /\
     ((mm_is_uaddr 256 = false /\ r = err EFAULT) \/
      (mm_is_uaddr 256 = true /\ Z.land 256 (Z.lnot PAGE_MASK) <> 0 /\ r = err EINVAL) \/
      (is_upage 256 /\ is_Some (translate mm_empty root_pgdir 256) /\ r = err EADDRINUSE) \/
      (is_upage 256 /\ slot mm_empty root_pgdir 256 = None /\ kpool_full mm_empty /\ r = err EAGAIN) \/
      ((forall f, frame_is_valid_num f = true -> f ∈ allocated (frames mm_empty)) /\ r = err EAGAIN))) \/
    (r = 0 /\ is_upage 256 /\ translate mm_empty root_pgdir 256 = None /\
     exists f, alloc_post mm_empty s' root_pgdir 256 f)) mm_empty.
Proof.
  apply (upage_alloc_correct 256 mm_empty); [exact mm_empty_wf|vm_compute; eauto].
Defined.

Lemma upage_alloc_free_witness :
  wp (r ← upage_alloc root_pgdir 256; if r <? 0 then mret r else upage_free root_pgdir 256)
     (fun r s' => r ≤ 0 /\ allocated (frames s') = allocated (frames mm_empty) /\
        forall pd' v', is_upage v' -> translate s' pd' v' = translate mm_empty pd' v') mm_empty.
Proof. apply (upage_alloc_free 256 mm_empty); [exact mm_empty_wf|vm_compute; eauto]. Defined.


Lemma upage_link_dangling_witness :
  wp (r1 ← upage_link root_pgdir 256 272; r2 ← upage_free root_pgdir 256; mret (r1, r2))
     (fun r s' => r = (0, 0) /\ translate s' root_pgdir 272 = Some 32 /\
                  (32 ∉ allocated (frames s'))) mm_one.
Proof.
  apply (upage_link_dangling root_pgdir 256 272 32 mm_one).
  - exact (inv_wf _ mm_one_inv).
  - vm_compute. eauto.
  - split; reflexivity.
  - split; reflexivity.
  - reflexivity.
  - vm_compute. reflexivity.
  - reflexivity.
  - intros Hfull. specialize (Hfull 2 ltac:(vm_compute; intuition discriminate)). discriminate Hfull.
Defined.
