(* ===== verification/SysMm.v ===== *)
(** * Kernel calls of the memory manager

    Model of src/kernel/sys/{page,frame}.c: the calls check the addresses that the
    user passes and act on the page directory of the only process. *)

From stdpp Require Import base gmap list.
From S2P Require Import Prelude.
From S2P Require Import Hlib.
From S2P Require Import MemLayout.
From S2P Require Import Frame.
From S2P Require Import Kpool.
From S2P Require Import Upage.
From S2P Require Import AddressSpace.

Open Scope Z_scope.

Section sysmm.
Context `{H : Hlib} `{M : MemLayout} `{B : Bitmap} `{U : !Mmu}.

Definition kernel_frame_alloc : K mm Z := with_frames frame_alloc.

Definition kernel_frame_free (frame : Z) : K mm Z :=
  if frame =? FRAME_NULL then mret (err EINVAL) else with_frames (frame_free frame).

Definition kernel_upage_alloc (vaddr : Z) : K mm Z :=
  if negb (Z.land vaddr (Z.lnot PAGE_MASK) =? 0) then mret (err EINVAL) else
  if negb (mm_is_uaddr vaddr) then mret (err EFAULT) else
  upage_alloc root_pgdir vaddr.

Definition kernel_upage_free (vaddr : Z) : K mm Z :=
  if negb (Z.land vaddr (Z.lnot PAGE_MASK) =? 0) then mret (err EINVAL) else
  if negb (mm_is_uaddr vaddr) then mret (err EFAULT) else
  upage_free root_pgdir vaddr.

Definition kernel_upage_map (vaddr frame : Z) : K mm Z :=
  if negb (Z.land vaddr (Z.lnot PAGE_MASK) =? 0) then mret (err EINVAL) else
  if negb (mm_is_uaddr vaddr) then mret (err EFAULT) else
  a ← with_frames (frame_is_allocated frame);
  if a =? 0 then mret (err EFAULT) else
  upage_map root_pgdir vaddr frame.

Definition kernel_upage_unmap (vaddr : Z) : K mm Z :=
  if negb (Z.land vaddr (Z.lnot PAGE_MASK) =? 0) then mret (err EINVAL) else
  if negb (mm_is_uaddr vaddr) then mret (err EFAULT) else
  f ← upage_unmap root_pgdir vaddr;
  mret (if f =? FRAME_NULL then err EAGAIN else 0).

Definition kernel_upage_link (vaddr1 vaddr2 : Z) : K mm Z :=
  if negb (Z.land vaddr2 (Z.lnot PAGE_MASK) =? 0) then mret (err EINVAL) else
  if negb (mm_is_uaddr vaddr2) then mret (err EFAULT) else
  upage_link root_pgdir vaddr1 vaddr2.

End sysmm.
