(* ===== verification/SysMmSpec.v ===== *)
(** * Kernel calls of the memory manager: specification

    The calls implement an abstract machine whose state is the set of allocated frames
    and the partial map from pages to frames. *)

From stdpp Require Import base gmap list.
From S2P Require Import Prelude.
From S2P Require Import Hlib.
From S2P Require Import MemLayout.
From S2P Require Import Frame.
From S2P Require Import Kpool.
From S2P Require Import Upage.
From S2P Require Import AddressSpace.
From S2P Require Import SysMm.

Open Scope Z_scope.

Inductive mm_call :=
| CallFrameAlloc | CallFrameFree (frame : Z)
| CallUpageAlloc (vaddr : Z) | CallUpageFree (vaddr : Z) | CallUpageMap (vaddr frame : Z)
| CallUpageUnmap (vaddr : Z) | CallUpageLink (vaddr1 vaddr2 : Z).

Section spec.
Context `{H : Hlib} `{M : MemLayout} `{B : Bitmap} `{U : !Mmu}.

Definition run_mm_call (c : mm_call) : K mm Z :=
  match c with
  | CallFrameAlloc => kernel_frame_alloc
  | CallFrameFree f => kernel_frame_free f
  | CallUpageAlloc v => kernel_upage_alloc v
  | CallUpageFree v => kernel_upage_free v
  | CallUpageMap v f => kernel_upage_map v f
  | CallUpageUnmap v => kernel_upage_unmap v
  | CallUpageLink v1 v2 => kernel_upage_link v1 v2
  end.

(** ** The abstract machine *)

Record amem := Amem { am_frames : gset Z; am_map : Z -> option Z }.

Definition am_set (v : Z) (o : option Z) (a : amem) : amem :=
  Amem (am_frames a) (fun v' => if decide (v' = v) then o else am_map a v').
Definition am_take (f : Z) (a : amem) : amem := Amem ({[f]} ∪ am_frames a) (am_map a).
Definition am_give (f : Z) (a : amem) : amem := Amem (am_frames a ∖ {[f]}) (am_map a).

(** The error of an address that is not the address of a user page. *)
Definition bad_page (v : Z) : option Z :=
  if negb (Z.land v (Z.lnot PAGE_MASK) =? 0) then Some (err EINVAL)
  else if negb (mm_is_uaddr v) then Some (err EFAULT) else None.

(** Mapping [v] to [f]: the page may be in use, and a kernel pool that is [full] has no
    page for a page table. *)
Inductive map_result (full : Prop) (v f : Z) (a : amem) : Z -> amem -> Prop :=
| map_in_use : is_Some (am_map a v) -> map_result full v f a (err EADDRINUSE) a
| map_no_table : full -> map_result full v f a (err EAGAIN) a
| map_ok : am_map a v = None -> map_result full v f a 0 (am_set v (Some f) a).

Inductive mm_spec (full : Prop) (a : amem) : mm_call -> Z -> amem -> Prop :=
| spec_frame_none :
    (forall g, frame_is_valid_num g = true -> g ∈ am_frames a) -> mm_spec full a CallFrameAlloc FRAME_NULL a
| spec_frame_some f :
    frame_is_valid_num f = true -> f ∉ am_frames a ->
    (forall g, frame_is_valid_num g = true -> g < f -> g ∈ am_frames a) -> mm_spec full a CallFrameAlloc f (am_take f a)
| spec_frame_invalid f :
    f = FRAME_NULL \/ frame_is_valid_num f = false -> mm_spec full a (CallFrameFree f) (err EINVAL) a
| spec_frame_unallocated f :
    frame_is_valid_num f = true -> f ∉ am_frames a -> mm_spec full a (CallFrameFree f) (err EFAULT) a
| spec_frame_free f : f ∈ am_frames a -> mm_spec full a (CallFrameFree f) 0 (am_give f a)
| spec_alloc_bad v e : bad_page v = Some e -> mm_spec full a (CallUpageAlloc v) e a
| spec_alloc_none v :
    (forall g, frame_is_valid_num g = true -> g ∈ am_frames a) -> mm_spec full a (CallUpageAlloc v) (err EAGAIN) a
| spec_alloc_in_use v :
    is_upage v -> is_Some (am_map a v) -> mm_spec full a (CallUpageAlloc v) (err EADDRINUSE) a
| spec_alloc_no_table v : is_upage v -> full -> mm_spec full a (CallUpageAlloc v) (err EAGAIN) a
| spec_alloc v f : is_upage v -> am_map a v = None -> frame_is_valid_num f = true -> f ∉ am_frames a ->
    mm_spec full a (CallUpageAlloc v) 0 (am_set v (Some f) (am_take f a))
| spec_free_bad v e : bad_page v = Some e -> mm_spec full a (CallUpageFree v) e a
| spec_free_unmapped v : is_upage v -> am_map a v = None -> mm_spec full a (CallUpageFree v) (err EFAULT) a
| spec_free_dangling v f : is_upage v -> am_map a v = Some f -> f ∉ am_frames a ->
    mm_spec full a (CallUpageFree v) (err EIO) (am_set v None a)
| spec_free v f : is_upage v -> am_map a v = Some f -> f ∈ am_frames a ->
    mm_spec full a (CallUpageFree v) 0 (am_set v None (am_give f a))
| spec_map_bad v f e : bad_page v = Some e -> mm_spec full a (CallUpageMap v f) e a
| spec_map_frame v f : is_upage v -> f ∉ am_frames a -> mm_spec full a (CallUpageMap v f) (err EFAULT) a
| spec_map v f r a' : is_upage v -> f ∈ am_frames a -> map_result full v f a r a' -> mm_spec full a (CallUpageMap v f) r a'
| spec_unmap_bad v e : bad_page v = Some e -> mm_spec full a (CallUpageUnmap v) e a
| spec_unmap_none v : is_upage v -> am_map a v = None -> mm_spec full a (CallUpageUnmap v) (err EAGAIN) a
| spec_unmap v f : is_upage v -> am_map a v = Some f -> mm_spec full a (CallUpageUnmap v) 0 (am_set v None a)
| spec_link_bad v1 v2 e : bad_page v2 = Some e -> mm_spec full a (CallUpageLink v1 v2) e a
| spec_link_none v1 v2 : is_upage v1 -> is_upage v2 -> am_map a v1 = None -> mm_spec full a (CallUpageLink v1 v2) (err EFAULT) a
| spec_link v1 v2 f r a' : is_upage v1 -> is_upage v2 -> am_map a v1 = Some f -> map_result full v2 f a r a' ->
    mm_spec full a (CallUpageLink v1 v2) r a'.

(** ** Refinement *)

Record mm_abs (s : mm) (a : amem) : Prop := {
  ma_wf : mm_wf s;
  ma_root : is_Some (pgdirs s !! root_pgdir);
  ma_frames : allocated (frames s) = am_frames a;
  ma_map v : is_upage v -> translate s root_pgdir v = am_map a v;
}.

Definition amem_of (s : mm) : amem := Amem (allocated (frames s)) (fun v => translate s root_pgdir v).

Lemma mm_abs_of s : mm_wf s -> is_Some (pgdirs s !! root_pgdir) -> mm_abs s (amem_of s).
Proof. by split. Qed.

(** The source of a link is a user page, which the call does not check. *)
Definition mm_call_ok (c : mm_call) : Prop :=
  match c with CallUpageLink v1 _ => is_upage v1 | _ => True end.

Context {HL : HlibLaws H} {MLL : MemLayoutLaws M} {BL : BitmapLaws B} {FC : FrameConfig} {UL : MmuLaws U}.

Lemma bad_page_none v : bad_page v = None -> is_upage v.
Proof.
  unfold bad_page, is_upage. destruct (Z.land v (Z.lnot PAGE_MASK) =? 0) eqn:E; [|done].
  apply Z.eqb_eq in E. destruct (mm_is_uaddr v); done.
Qed.

Lemma wp_page_checks v (m : K mm Z) Q s :
  (forall e, bad_page v = Some e -> Q e s) -> (is_upage v -> wp m Q s) ->
  wp (if negb (Z.land v (Z.lnot PAGE_MASK) =? 0) then mret (err EINVAL) else
      if negb (mm_is_uaddr v) then mret (err EFAULT) else m) Q s.
Proof.
  intros Hbad Hok. pose proof (bad_page_none v) as Hp. unfold bad_page in *.
  destruct (negb (Z.land v _ =? 0)); [wp_step; by apply Hbad|]. destruct (negb (mm_is_uaddr v)); [wp_step; by apply Hbad|].
  by apply Hok, Hp.
Qed.

(** What a step from [s] to [s'] establishes. *)
Definition mm_next (s s' : mm) (a' : amem) : Prop := mm_abs s' a' /\ keeps_owned s s'.

Lemma mm_next_refl s a : mm_abs s a -> mm_next s s a.
Proof. by split. Qed.

Lemma mm_next_frames s s' a fr X :
  mm_next s s' a -> allocated fr = X -> mm_next s (set_frames fr s') (Amem X (am_map a)).
Proof.
  intros [[Hwf Hr Hf Hm] Ho] E. split; [split; try done; by eapply mm_wf_ext; [| |exact Hwf]|].
  etrans; [exact Ho|]. by apply keeps_owned_ext.
Qed.

Lemma mm_next_upd s s' a v o : mm_abs s a -> mm_upd s s' root_pgdir v o -> mm_next s s' (am_set v o a).
Proof.
  intros [Hwf Hr Hf Hm] [Hwf' Hrest Ho _ Htr]. split; [|done].
  split; [done|by apply Hrest|by rewrite (rest_frames _ _ Hrest)|].
  intros v' Hv'. rewrite Htr by done. simpl. case_decide as Hd.
  - rewrite bool_decide_true; [done|]. by subst.
  - rewrite bool_decide_false by naive_solver. by apply Hm.
Qed.

Lemma upage_free_total v s :
  mm_wf s -> is_Some (pgdirs s !! root_pgdir) -> is_upage v ->
  wp (upage_free root_pgdir v) (fun r s' =>
    match translate s root_pgdir v with
    | None => r = err EFAULT /\ s' = s
    | Some f => exists s1 fr, mm_upd s s1 root_pgdir v None /\ s' = set_frames fr s1 /\
        (((f ∉ allocated (frames s)) /\ r = err EIO /\ allocated fr = allocated (frames s)) \/
         ((f ∈ allocated (frames s)) /\ r = 0 /\ allocated fr = allocated (frames s) ∖ {[f]}))
    end) s.
Proof.
  intros Hwf Hd Hv. unfold upage_free. rewrite (wf_dir_ne_0 s root_pgdir) by done.
  wp_step. eapply wp_mono; [by apply upage_unmap_total|].
  intros f s1 [(-> & -> & Hn)|(_ & Htr & Hu & _)].
  { rewrite Z.eqb_refl. wp_step. by rewrite Hn. }
  rewrite Htr. assert (f <> FRAME_NULL).
  { intros ->. by apply (wf_fits s Hwf) in Htr; [apply frame_null_not_fits in Htr|]. }
  rewrite (proj2 (Z.eqb_neq _ _)) by done. wp_step. unfold with_frames. eapply wp_zoom; [done|].
  eapply wp_mono; [apply frame_free_cases|]. simpl. rewrite (rest_frames _ _ (upd_rest _ _ _ _ _ Hu)).
  intros r fr [(Hf & -> & ->)|[(Hf & Hn & -> & ->)|(Hf & -> & Hfr)]].
  - rewrite (proj2 (Z.ltb_lt _ _)) by auto with kernel. wp_step. exists s1, (frames s).
    split_and!; [done..|]. left. split_and!; [|done..]. rewrite elem_of_allocated. naive_solver congruence.
  - rewrite (proj2 (Z.ltb_lt _ _)) by auto with kernel. wp_step. exists s1, (frames s). split_and!; [done..|]. by left.
  - simpl. wp_step. exists s1, fr. split_and!; [done..|]. by right.
Qed.

Lemma with_frames_wp {A} (m : K bitmap A) Q s :
  wp m (fun r fr => Q r (set_frames fr s)) (frames s) -> wp (with_frames m) Q s.
Proof. intros Hm. unfold with_frames. by eapply wp_zoom. Qed.

Lemma mm_next_same s a fr : mm_abs s a -> allocated fr = am_frames a -> mm_next s (set_frames fr s) a.
Proof. intros Ha E. destruct a as [X f]. by apply (mm_next_frames s s (Amem X f)); [apply mm_next_refl|]. Qed.

#[local] Hint Resolve mm_next_refl : core.

Lemma frame_alloc_refines s a :
  mm_abs s a ->
  wp kernel_frame_alloc (fun r s' => exists a', mm_spec (kpool_full s) a CallFrameAlloc r a' /\ mm_next s s' a') s.
Proof.
  intros Ha. apply with_frames_wp. eapply wp_mono; [apply frame_alloc_cases|].
  rewrite (ma_frames _ _ Ha). intros f fr [(-> & -> & Hall)|(Hv & Hn & Hfr & Hmin)].
  - exists a. split; [by constructor|by apply mm_next_same, ma_frames].
  - exists (am_take f a). split; [by constructor|by apply mm_next_frames; auto].
Qed.

Lemma frame_free_refines f s a :
  mm_abs s a ->
  wp (kernel_frame_free f)
     (fun r s' => exists a', mm_spec (kpool_full s) a (CallFrameFree f) r a' /\ mm_next s s' a') s.
Proof.
  intros Ha. unfold kernel_frame_free. destruct (Z.eqb_spec f FRAME_NULL) as [->|_].
  { wp_step. exists a. split; [constructor; by left|auto]. }
  apply with_frames_wp. eapply wp_mono; [apply frame_free_cases|]. rewrite (ma_frames _ _ Ha).
  intros r fr [(Hf & -> & ->)|[(Hf & Hn & -> & ->)|(Hf & -> & Hfr)]].
  - exists a. split; [constructor; by right|by apply mm_next_same, ma_frames].
  - exists a. split; [by constructor|by apply mm_next_same, ma_frames].
  - exists (am_give f a). split; [by constructor|by apply mm_next_frames; auto].
Qed.

Lemma upage_alloc_refines v s a :
  mm_abs s a ->
  wp (kernel_upage_alloc v)
     (fun r s' => exists a', mm_spec (kpool_full s) a (CallUpageAlloc v) r a' /\ mm_next s s' a') s.
Proof.
  intros Ha. pose proof Ha as [Hwf Hr Hf Hm]. apply wp_page_checks.
  { intros e He. exists a. split; [by constructor|auto]. }
  intros Hv. pose proof Hv as [Hu Hal]. eapply wp_mono; [by apply upage_alloc_cases|].
  intros r s' [(fr & -> & Hfr & Hc)|(-> & _ & Htr & f & [Hwf' Hn Hfv Hfr Htr' _ _ Ho Hd _])].
  - exists a. split; [|apply mm_next_same; [done|by rewrite Hfr]].
    rewrite Hm, Hf in Hc by done. destruct Hc as [[? _]|[(_ & ? & _)|[(_ & ? & ->)|[(_ & _ & ? & ->)|[? ->]]]]];
      [congruence|done|by apply spec_alloc_in_use|by apply spec_alloc_no_table|by apply spec_alloc_none].
  - rewrite Hm in Htr by done. rewrite Hf in Hn, Hfr.
    exists (am_set v (Some f) (am_take f a)). split; [by apply spec_alloc|].
    split; [|done]. split; [done|by apply Hd|done|]. intros v' Hv'. rewrite Htr', Hm by done. simpl.
    case_decide; [rewrite bool_decide_true; naive_solver|rewrite bool_decide_false; naive_solver].
Qed.

Lemma upage_free_refines v s a :
  mm_abs s a ->
  wp (kernel_upage_free v)
     (fun r s' => exists a', mm_spec (kpool_full s) a (CallUpageFree v) r a' /\ mm_next s s' a') s.
Proof.
  intros Ha. pose proof Ha as [Hwf Hr Hf Hm]. apply wp_page_checks.
  { intros e He. exists a. split; [by constructor|auto]. }
  intros Hv. eapply wp_mono; [by apply upage_free_total|]. rewrite Hm, Hf by done. intros r s'.
  destruct (am_map a v) as [f|] eqn:E; [|intros [-> ->]; exists a; split; [by constructor|auto]].
  intros (s1 & fr & Hu & -> & [(Hn & -> & Hfr)|(Hin & -> & Hfr)]).
  - exists (am_set v None a). split; [by eapply spec_free_dangling|].
    apply (mm_next_frames s s1 (am_set v None a)); [by apply mm_next_upd|done].
  - exists (am_set v None (am_give f a)). split; [by apply spec_free|].
    apply (mm_next_frames s s1 (am_set v None a)); [by apply mm_next_upd|done].
Qed.

Lemma upage_map_refines v f s a :
  mm_abs s a ->
  wp (kernel_upage_map v f)
     (fun r s' => exists a', mm_spec (kpool_full s) a (CallUpageMap v f) r a' /\ mm_next s s' a') s.
Proof.
  intros Ha. pose proof Ha as [Hwf Hr Hf Hm]. apply wp_page_checks.
  { intros e He. exists a. split; [by constructor|auto]. }
  intros Hv. wp_step. apply with_frames_wp. eapply wp_mono; [apply frame_is_allocated_spec|].
  intros x fr [-> ->]. rewrite Hf. assert (set_frames (frames s) s = s) as -> by (by destruct s).
  case_bool_decide as Hin; simpl; [|wp_step; exists a; split; [by constructor|auto]].
  eapply wp_mono; [apply upage_map_spec; try done|].
  { apply valid_num_fits. rewrite <- Hf in Hin. by apply elem_of_allocated in Hin as [??]. }
  rewrite Hm by done. intros r s' [(? & -> & ->)|[(_ & ? & -> & ->)|(? & -> & Hu)]].
  - exists a. split; [|auto]. apply spec_map; [done..|by constructor].
  - exists a. split; [|auto]. apply spec_map; [done..|by constructor].
  - exists (am_set v (Some f) a). split; [|by apply mm_next_upd]. apply spec_map; [done..|by constructor].
Qed.

Lemma upage_unmap_refines v s a :
  mm_abs s a ->
  wp (kernel_upage_unmap v)
     (fun r s' => exists a', mm_spec (kpool_full s) a (CallUpageUnmap v) r a' /\ mm_next s s' a') s.
Proof.
  intros Ha. pose proof Ha as [Hwf Hr Hf Hm]. apply wp_page_checks.
  { intros e He. exists a. split; [by constructor|auto]. }
  intros Hv. wp_step. eapply wp_mono; [by apply upage_unmap_spec|]. intros g s'.
  destruct (translate s root_pgdir v) as [f|] eqn:Htr.
  - intros (-> & Hu & _). assert (f <> FRAME_NULL).
    { intros ->. by apply (wf_fits s Hwf) in Htr; [apply frame_null_not_fits in Htr|]. }
    rewrite (proj2 (Z.eqb_neq _ _)) by done. wp_step. exists (am_set v None a).
    rewrite Hm in Htr by done. split; [by eapply spec_unmap|by apply mm_next_upd].
  - intros [-> ->]. rewrite Z.eqb_refl. wp_step. exists a. rewrite Hm in Htr by done. split; [by constructor|auto].
Qed.

Lemma upage_link_refines v1 v2 s a :
  mm_abs s a -> is_upage v1 ->
  wp (kernel_upage_link v1 v2)
     (fun r s' => exists a', mm_spec (kpool_full s) a (CallUpageLink v1 v2) r a' /\ mm_next s s' a') s.
Proof.
  intros Ha Hv1. pose proof Ha as [Hwf Hr Hf Hm]. apply wp_page_checks.
  { intros e He. exists a. split; [by constructor|auto]. }
  intros Hv2. eapply wp_mono; [by apply upage_link_spec|]. rewrite !Hm by done. intros r s'.
  destruct (am_map a v1) as [f|] eqn:E; [|intros [-> ->]; exists a; split; [by constructor|auto]].
  intros [(? & -> & ->)|[(_ & ? & -> & ->)|(? & -> & Hu)]].
  - exists a. split; [|auto]. eapply spec_link; [done..|by constructor].
  - exists a. split; [|auto]. eapply spec_link; [done..|by constructor].
  - exists (am_set v2 (Some f) a). split; [|by apply mm_next_upd]. eapply spec_link; [done..|by constructor].
Qed.

Lemma mm_call_refines c s a :
  mm_abs s a -> mm_call_ok c ->
  wp (run_mm_call c)
     (fun r s' => exists a', mm_spec (kpool_full s) a c r a' /\ mm_next s s' a') s.
Proof.
  intros Ha Hc. destruct c; simpl in *.
  - by apply frame_alloc_refines.
  - by apply frame_free_refines.
  - by apply upage_alloc_refines.
  - by apply upage_free_refines.
  - by apply upage_map_refines.
  - by apply upage_unmap_refines.
  - by apply upage_link_refines.
Qed.


End spec.

(** ** Instances *)

#[local] Existing Instances mem_small mem_small_laws bitmap_sets bitmap_sets_laws
  mmu_small mmu_small_laws.

#[local] Instance sysmm_small_config : FrameConfig.
Proof. by split. Qed.

Definition amem_one : amem := amem_of mm_one.

