(* ===== verification/Mbuffer.v ===== *)
(** Message buffers of the NoC facility (src/kernel/noc/mbuffer.{c,h}).

    An mbuffer holds one message.  A pool is a window of the array of mbuffers: the
    auxiliary pool of a facility is the tail of its principal pool, so that the two
    share buffers, the age counter and the lock.  The abstract state is the queue of
    stored messages in the order in which they were stored. *)

From S2P Require Import Prelude.
From S2P Require Import Hlib.

(** ** Data *)

Record mbuffer_header := MbufferHeader {
  h_dest : Z;
  h_src : Z;
  h_size : Z;
  h_unused : Z;
}.

(** The bytes of [data] run to the end of the enclosing buffer. *)
Record mbuffer_message := MbufferMessage {
  msg_header : mbuffer_header;
  msg_data : list Z;
}.

Record mbuffer `{Hlib} := Mbuffer {
  mb_resource : resource;
  mb_age : Z;
  mb_latency : Z;
  mb_actid : Z;
  mb_portid : Z;
  mb_message : mbuffer_message;
}.

Definition MBUFFER_DISCARD_MESSAGE : Z := 0.
Definition MBUFFER_KEEP_MESSAGE : Z := 1.

(** A pool: the window of [nmbuffers] buffers that starts at index [pool_base]. *)
Record mbuffer_pool `{Hlib} := MbufferPool {
  pool_base : Z;
  nmbuffers : Z;
  source_check : mbuffer -> Z -> bool;
}.

(** What the pools of a facility share. *)
Record mbuffers `{Hlib} := Mbuffers {
  mbuf : list mbuffer;
  mbuf_age : Z;
  mbuf_lock : spinlock_t;
}.

Arguments Mbuffer {_} mb_resource mb_age mb_latency mb_actid mb_portid mb_message.
Arguments MbufferPool {_} pool_base nmbuffers source_check.
Arguments Mbuffers {_} mbuf mbuf_age mbuf_lock.

Section mbuffer.
Context `{H : Hlib}.

(** Assigning [MBUFFER_MESSAGE_INITIALIZER] resets the header and the first byte. *)
Definition MBUFFER_MESSAGE_INITIALIZER (old : mbuffer_message) : mbuffer_message :=
  MbufferMessage (MbufferHeader (-1) (-1) 0 0)
                 (match msg_data old with [] => [] | _ :: d => 0 :: d end).

Definition mbuffer_reset (buf : mbuffer) : mbuffer :=
  Mbuffer RESOURCE_INITIALIZER UINT64_MAX 0 (-1) (-1) (MBUFFER_MESSAGE_INITIALIZER (mb_message buf)).

Definition mb_set_resource (r : resource) (b : mbuffer) : mbuffer :=
  Mbuffer r (mb_age b) (mb_latency b) (mb_actid b) (mb_portid b) (mb_message b).
Definition mb_set_age (a : Z) (b : mbuffer) : mbuffer :=
  Mbuffer (mb_resource b) a (mb_latency b) (mb_actid b) (mb_portid b) (mb_message b).
Definition mb_set_latency (l : Z) (b : mbuffer) : mbuffer :=
  Mbuffer (mb_resource b) (mb_age b) l (mb_actid b) (mb_portid b) (mb_message b).
Definition mb_set_sender (a p : Z) (b : mbuffer) : mbuffer :=
  Mbuffer (mb_resource b) (mb_age b) (mb_latency b) a p (mb_message b).
Definition mb_set_message (m : mbuffer_message) (b : mbuffer) : mbuffer :=
  Mbuffer (mb_resource b) (mb_age b) (mb_latency b) (mb_actid b) (mb_portid b) m.

Definition set_mbuf (l : list mbuffer) (s : mbuffers) : mbuffers := Mbuffers l (mbuf_age s) (mbuf_lock s).
Definition set_mbuf_age (a : Z) (s : mbuffers) : mbuffers := Mbuffers (mbuf s) a (mbuf_lock s).
Definition set_mbuf_lock (b : spinlock_t) (s : mbuffers) : mbuffers := Mbuffers (mbuf s) (mbuf_age s) b.

(** ** Operations *)

Definition mbuffer_read (pool : mbuffer_pool) (i : Z) : K mbuffers mbuffer :=
  o ← kgets (fun s => aget (mbuf s) (pool_base pool + i)); kunwrap o.

Definition mbuffer_write (pool : mbuffer_pool) (i : Z) (b : mbuffer) : K mbuffers unit :=
  kmodify (fun s => set_mbuf (aset (pool_base pool + i) b (mbuf s)) s).

Definition mbuffer_alloc (pool : mbuffer_pool) : K mbuffers Z :=
  spinlock_lock mbuf_lock set_mbuf_lock;;
  ret ← kfor (Z.to_nat (nmbuffers pool)) 0 (fun i ret =>
    buf ← mbuffer_read pool i;
    if negb (resource_is_used (mb_resource buf)) then
      let buf := mbuffer_reset buf in
      mbuffer_write pool i (mb_set_resource (resource_set_used (mb_resource buf)) buf);;
      mret (i, true)
    else mret (ret, false)) (err EBUSY);
  spinlock_unlock set_mbuf_lock;;
  mret ret.

Definition mbuffer_release (pool : option mbuffer_pool) (id keep_msg : Z) : K mbuffers Z :=
  match pool with
  | None => kpanic
  | Some pool =>
      KASSERT (WITHIN id 0 (nmbuffers pool));;
      spinlock_lock mbuf_lock set_mbuf_lock;;
      buf ← mbuffer_read pool id;
      if negb (resource_is_used (mb_resource buf)) then
        spinlock_unlock set_mbuf_lock;;
        mret (err EINVAL)
      else
        (if keep_msg =? MBUFFER_KEEP_MESSAGE then
           age ← kgets mbuf_age;
           kmodify (set_mbuf_age (u64 (age + 1)));;
           mbuffer_write pool id
             (mb_set_resource (resource_set_busy (mb_resource buf)) (mb_set_age age buf))
         else
           mbuffer_write pool id (mbuffer_reset buf));;
        spinlock_unlock set_mbuf_lock;;
        mret 0
  end.

(** The accumulator is the pair of [ret] and [curr_age]. *)
Definition mbuffer_search (pool : mbuffer_pool) (dest src : Z) : K mbuffers Z :=
  spinlock_lock mbuf_lock set_mbuf_lock;;
  acc ← kfor (Z.to_nat (nmbuffers pool)) 0 (fun i (acc : Z * Z) =>
    buf ← mbuffer_read pool i;
    mret (
      if negb (resource_is_used (mb_resource buf)) then (acc, false)
      else if negb (resource_is_busy (mb_resource buf)) then (acc, false)
      else if negb (h_dest (msg_header (mb_message buf)) =? dest) then (acc, false)
      else if negb (source_check pool buf src) then (acc, false)
      else if acc.2 <? mb_age buf then (acc, false)
      else ((i, mb_age buf), false))) (err EINVAL, UINT64_MAX);
  spinlock_unlock set_mbuf_lock;;
  mret acc.1.

(** The returned pointer is the index of the buffer in the array. *)
Definition mbuffer_get (pool : option mbuffer_pool) (id : Z) : K mbuffers Z :=
  match pool with
  | None => kpanic
  | Some pool => KASSERT (WITHIN id 0 (nmbuffers pool));; mret (pool_base pool + id)
  end.

#[global] Arguments mbuffer_alloc : simpl never.
#[global] Arguments mbuffer_release : simpl never.
#[global] Arguments mbuffer_search : simpl never.
#[global] Arguments mbuffer_get : simpl never.

(** ** Behaviour of the operations *)

Definition window_ok (pool : mbuffer_pool) (s : mbuffers) : Prop :=
  0 ≤ pool_base pool /\ 0 ≤ nmbuffers pool /\ pool_base pool + nmbuffers pool ≤ alen (mbuf s).

Definition mb_used (b : mbuffer) : bool := resource_is_used (mb_resource b).

(** The buffer stores a message. *)
Definition mb_stored (b : mbuffer) : bool :=
  resource_is_used (mb_resource b) && resource_is_busy (mb_resource b).

Definition mb_matches (pool : mbuffer_pool) (dest src : Z) (b : mbuffer) : bool :=
  mb_stored b && (h_dest (msg_header (mb_message b)) =? dest) && source_check pool b src.

Definition mbuffer_fresh (b : mbuffer) : mbuffer :=
  mb_set_resource (resource_set_used RESOURCE_INITIALIZER) (mbuffer_reset b).

Definition mbuffer_kept (age : Z) (b : mbuffer) : mbuffer :=
  mb_set_resource (resource_set_busy (mb_resource b)) (mb_set_age age b).

Context {HL : HlibLaws H}.

Lemma unlock_lock s : mbuf_lock s = false -> set_mbuf_lock false (set_mbuf_lock true s) = s.
Proof. by destruct s; simpl; intros ->. Qed.

Lemma window_get pool s i :
  window_ok pool s -> 0 ≤ i < nmbuffers pool -> is_Some (aget (mbuf s) (pool_base pool + i)).
Proof. intros (?&?&?) ?. apply aget_is_Some. lia. Qed.

Lemma wp_mbuffer_read pool i b (Q : mbuffer -> mbuffers -> Prop) s :
  aget (mbuf s) (pool_base pool + i) = Some b -> Q b s -> wp (mbuffer_read pool i) Q s.
Proof. intros E HQ. unfold mbuffer_read. wp_step. wp_step. by eapply wp_unwrap. Qed.

Lemma mbuffer_alloc_spec pool s :
  window_ok pool s -> mbuf_lock s = false ->
  wp (mbuffer_alloc pool) (fun r s' =>
    (r = err EBUSY /\ s' = s /\
     forall i b, 0 ≤ i < nmbuffers pool -> aget (mbuf s) (pool_base pool + i) = Some b -> mb_used b = true) \/
    (exists b, 0 ≤ r < nmbuffers pool /\ aget (mbuf s) (pool_base pool + r) = Some b /\
       mb_used b = false /\ s' = set_mbuf (aset (pool_base pool + r) (mbuffer_fresh b) (mbuf s)) s)) s.
Proof.
  intros Hw Hl. pose proof Hw as (?&Hn&?). unfold mbuffer_alloc. wp_step. wp_step; [done|].
  wp_step.
  apply (wp_kfor_first
    (fun i => match aget (mbuf s) (pool_base pool + i) with Some b => negb (mb_used b) | None => false end)
    (fun i => i)).
  - intros j Hj. destruct (window_get pool s j Hw) as [b Hb]; [lia|]. rewrite Hb.
    wp_step. apply (wp_mbuffer_read pool j b); [done|]. fold (mb_used b).
    destruct (mb_used b) eqn:Hu; simpl; [by wp_step|]. unfold mbuffer_write.
    repeat wp_step. split; [done|]. repeat wp_step. right. exists b.
    split_and!; try done; try lia. by destruct s; simpl in *; subst.
  - intros Hnone. repeat wp_step. left. split_and!; [done|by apply unlock_lock|].
    intros i b Hi Hb. specialize (Hnone i ltac:(lia)). rewrite Hb in Hnone.
    by apply negb_false_iff in Hnone.
Qed.

Lemma mbuffer_release_spec pool id keep s b :
  window_ok pool s -> mbuf_lock s = false -> 0 ≤ id < nmbuffers pool ->
  aget (mbuf s) (pool_base pool + id) = Some b ->
  wp (mbuffer_release (Some pool) id keep) (fun r s' =>
    (mb_used b = false /\ r = err EINVAL /\ s' = s) \/
    (mb_used b = true /\ r = 0 /\
     s' = if keep =? MBUFFER_KEEP_MESSAGE
          then set_mbuf_age (u64 (mbuf_age s + 1))
                 (set_mbuf (aset (pool_base pool + id) (mbuffer_kept (mbuf_age s) b) (mbuf s)) s)
          else set_mbuf (aset (pool_base pool + id) (mbuffer_reset b) (mbuf s)) s)) s.
Proof.
  intros Hw Hl Hid Hb. unfold mbuffer_release. wp_step. wp_step; [by apply WITHIN_true|].
  wp_step. wp_step; [done|]. wp_step. apply (wp_mbuffer_read pool id b); [done|].
  fold (mb_used b). destruct (mb_used b) eqn:Hu; simpl.
  - unfold mbuffer_write. destruct (keep =? MBUFFER_KEEP_MESSAGE); repeat wp_step; right;
      (split_and!; try done; by destruct s; simpl in *; subst).
  - repeat wp_step. left. split_and!; try done. by apply unlock_lock.
Qed.

Lemma mb_matches_spec pool dest src b :
  mb_matches pool dest src b = true <->
  resource_is_used (mb_resource b) = true /\ resource_is_busy (mb_resource b) = true /\
  (h_dest (msg_header (mb_message b)) =? dest) = true /\ source_check pool b src = true.
Proof. unfold mb_matches, mb_stored. rewrite !andb_true_iff. tauto. Qed.

(** The loop of [mbuffer_search]: among the buffers seen so far, [acc] is the last of
    those of least age that match. *)
Definition search_inv (pool : mbuffer_pool) (dest src : Z) (s : mbuffers) (i : Z) (acc : Z * Z) : Prop :=
  (acc = (err EINVAL, UINT64_MAX) /\
   forall j b, 0 ≤ j < i -> aget (mbuf s) (pool_base pool + j) = Some b -> mb_matches pool dest src b = false) \/
  (exists b, 0 ≤ acc.1 < i /\ aget (mbuf s) (pool_base pool + acc.1) = Some b /\
     mb_matches pool dest src b = true /\ acc.2 = mb_age b /\
     forall j b', 0 ≤ j < i -> aget (mbuf s) (pool_base pool + j) = Some b' ->
       mb_matches pool dest src b' = true -> mb_age b ≤ mb_age b').

Lemma search_inv_skip pool dest src s i acc b :
  search_inv pool dest src s i acc -> aget (mbuf s) (pool_base pool + i) = Some b ->
  mb_matches pool dest src b = false \/ acc.2 ≤ mb_age b /\ 0 ≤ acc.1 ->
  search_inv pool dest src s (i + 1) acc.
Proof.
  intros [[-> Hnone]|(c & Hr & Hc & Hm & Ha & Hmin)] Hb Hskip.
  - left. split; [done|]. intros j b' Hj Hb'. destruct (decide (j = i)) as [->|].
    + rewrite Hb in Hb'. simplify_eq. destruct Hskip as [?|[_ Hx]]; [done|].
      simpl in Hx. pose proof (err_neg EINVAL). lia.
    + eapply Hnone; [|done]. lia.
  - right. exists c. split_and!; try done; try lia. intros j b' Hj Hb' Hm'.
    destruct (decide (j = i)) as [->|].
    + rewrite Hb in Hb'. simplify_eq. destruct Hskip as [?|[? _]]; [congruence|lia].
    + eapply Hmin; [|done|done]. lia.
Qed.

Lemma mbuffer_search_spec pool dest src s :
  window_ok pool s -> mbuf_lock s = false ->
  (forall i b, aget (mbuf s) i = Some b -> mb_stored b = true -> mb_age b < UINT64_MAX) ->
  wp (mbuffer_search pool dest src) (fun r s' =>
    s' = s /\
    ((r = err EINVAL /\
      forall j b, 0 ≤ j < nmbuffers pool -> aget (mbuf s) (pool_base pool + j) = Some b ->
        mb_matches pool dest src b = false) \/
     (exists b, 0 ≤ r < nmbuffers pool /\ aget (mbuf s) (pool_base pool + r) = Some b /\
        mb_matches pool dest src b = true /\
        forall j b', 0 ≤ j < nmbuffers pool -> aget (mbuf s) (pool_base pool + j) = Some b' ->
          mb_matches pool dest src b' = true -> mb_age b ≤ mb_age b'))) s.
Proof.
  intros Hw Hl Hages. pose proof Hw as (_&Hn&_). unfold mbuffer_search.
  wp_step. wp_step; [done|]. wp_step.
  apply (wp_kfor (fun i acc t => t = set_mbuf_lock true s /\ search_inv pool dest src s i acc)).
  - split; [done|]. left. split; [done|]. lia.
  - intros i acc t Hi [-> Hinv]. destruct (window_get pool s i Hw) as [b Hb]; [lia|].
    wp_step. apply (wp_mbuffer_read pool i b); [done|]. wp_step.
    pose proof (mb_matches_spec pool dest src b) as Hspec.
    assert (Hskip : mb_matches pool dest src b = false -> search_inv pool dest src s (i + 1) acc).
    { intros ?. eapply search_inv_skip; [done..|by left]. }
    destruct (resource_is_used (mb_resource b)) eqn:E1; simpl; [|split; [done|apply Hskip, not_true_is_false; naive_solver]].
    destruct (resource_is_busy (mb_resource b)) eqn:E2; simpl; [|split; [done|apply Hskip, not_true_is_false; naive_solver]].
    destruct (h_dest _ =? dest) eqn:E3; simpl; [|split; [done|apply Hskip, not_true_is_false; naive_solver]].
    destruct (source_check pool b src) eqn:E4; simpl; [|split; [done|apply Hskip, not_true_is_false; naive_solver]].
    assert (Hm : mb_matches pool dest src b = true) by tauto.
    assert (Hst : mb_age b < UINT64_MAX) by (eapply Hages; [done|]; unfold mb_stored; by rewrite E1, E2).
    destruct (acc.2 <? mb_age b) eqn:E5; (split; [done|]); simpl.
    + eapply search_inv_skip; [done..|]. right. split; [lia|].
      destruct Hinv as [[-> _]|(c & Hr & _)]; [simpl in E5; lia|lia].
    + right. exists b. simpl. split_and!; try done; try lia. intros j b' Hj Hb' Hm'.
      destruct (decide (j = i)) as [->|]; [rewrite Hb in Hb'; simplify_eq; lia|].
      destruct Hinv as [[_ Hnone]|(c & _ & _ & _ & Ha & Hmin)].
      * specialize (Hnone j b' ltac:(lia) Hb'). congruence.
      * specialize (Hmin j b' ltac:(lia) Hb' Hm'). lia.
  - intros acc t [-> Hinv]. repeat wp_step. split; [by apply unlock_lock|].
    rewrite Z2Nat.id in Hinv by lia. simpl in Hinv.
    destruct Hinv as [[-> Hnone]|(b & ? & ? & ? & _ & ?)]; [left; done|right; exists b; done].
Qed.

(** ** The queue of stored messages *)

Definition age_of (s : mbuffers) (i : Z) : Z :=
  match aget (mbuf s) i with Some b => mb_age b | None => UINT64_MAX end.

(** [q] lists the buffers that store a message, the oldest first. *)
Record queue (s : mbuffers) (q : list Z) : Prop := {
  q_stored i : i ∈ q <-> exists b, aget (mbuf s) i = Some b /\ mb_stored b = true;
  q_sorted : StronglySorted (fun i j => age_of s i < age_of s j) q;
  q_recent i : i ∈ q -> age_of s i < mbuf_age s;
  q_age : mbuf_age s < UINT64_MAX;
}.

Lemma queue_ages s q i b :
  queue s q -> aget (mbuf s) i = Some b -> mb_stored b = true -> mb_age b < UINT64_MAX.
Proof.
  intros Hq Hb Hs. assert (Hi : i ∈ q) by (apply (q_stored _ _ Hq); eauto).
  pose proof (q_recent _ _ Hq i Hi) as Hr. unfold age_of in Hr. rewrite Hb in Hr.
  pose proof (q_age _ _ Hq). lia.
Qed.

(** Writing a buffer that stores no message, before and after. *)
Lemma queue_write_unstored s q i b b' :
  queue s q -> aget (mbuf s) i = Some b -> mb_stored b = false -> mb_stored b' = false ->
  queue (set_mbuf (aset i b' (mbuf s)) s) q.
Proof.
  intros [Hst Hsort Hrec Hage] Hb Hs Hs'. pose proof (aget_lt _ _ _ Hb) as Hi.
  assert (Hni : i ∉ q).
  { rewrite Hst. intros (c & Hc & ?). rewrite Hb in Hc. congruence. }
  assert (Hof : forall j, j ∈ q -> age_of (set_mbuf (aset i b' (mbuf s)) s) j = age_of s j).
  { intros j Hj. unfold age_of. simpl. rewrite aget_aset_ne; [done|]. by intros ->. }
  split; simpl; [| | |done].
  - intros j. rewrite Hst, aget_aset. case_bool_decide as Hc; [|done].
    destruct Hc as [-> _]. naive_solver.
  - eapply StronglySorted_ext; [|done]. intros j k Hj Hk. by rewrite !Hof.
  - intros j Hj. rewrite Hof by done. auto.
Qed.

Lemma age_of_set s i b j l :
  0 ≤ i < alen (mbuf s) ->
  age_of (set_mbuf_age l (set_mbuf (aset i b (mbuf s)) s)) j =
  if bool_decide (i = j) then mb_age b else age_of s j.
Proof.
  intros Hi. unfold age_of. simpl. case_bool_decide; subst;
    [by rewrite aget_aset_eq|by rewrite aget_aset_ne].
Qed.

(** A message stored with the current age goes to the end of the queue. *)
Lemma queue_store s q i b b' :
  queue s q -> aget (mbuf s) i = Some b -> mb_stored b = false ->
  mb_stored b' = true -> mb_age b' = mbuf_age s ->
  mbuf_age s + 1 < UINT64_MAX -> 0 ≤ mbuf_age s ->
  queue (set_mbuf_age (u64 (mbuf_age s + 1)) (set_mbuf (aset i b' (mbuf s)) s)) (q ++ [i]).
Proof.
  intros [Hst Hsort Hrec Hage] Hb Hs Hk Ha Hmax Hpos. pose proof (aget_lt _ _ _ Hb) as Hi.
  assert (Hni : i ∉ q).
  { rewrite Hst. intros (c & Hc & ?). rewrite Hb in Hc. congruence. }
  set (s' := set_mbuf_age _ _).
  assert (Hof : forall j, j ∈ q -> age_of s' j = age_of s j).
  { intros j Hj. unfold s'. rewrite age_of_set by done. rewrite bool_decide_false; [done|]. by intros ->. }
  assert (Hofi : age_of s' i = mbuf_age s).
  { unfold s'. rewrite age_of_set by done. by rewrite bool_decide_true. }
  assert (Hnew : mbuf_age s' = mbuf_age s + 1).
  { simpl. apply u64_small. unfold UINT64_MAX in *. lia. }
  split.
  - intros j. rewrite elem_of_app, list_elem_of_singleton, Hst. simpl. rewrite aget_aset.
    case_bool_decide as Hc.
    + destruct Hc as [<- _]. split; [eauto|by right].
    + assert (i <> j) by (intros ->; apply Hc; done).
      split; [intros [?| ->]; done|by left].
  - apply StronglySorted_snoc.
    + eapply StronglySorted_ext; [|done]. intros j k Hj Hkq. by rewrite !Hof.
    + intros j Hj. rewrite Hofi, Hof by done. auto.
  - intros j. rewrite elem_of_app, list_elem_of_singleton, Hnew. intros [Hj|Hj].
    + rewrite Hof by done. specialize (Hrec j Hj). lia.
    + rewrite Hj, Hofi. lia.
  - lia.
Qed.

(** Keeping the message of a buffer puts it at the end of the queue. *)
Lemma queue_keep s q i b :
  queue s q -> aget (mbuf s) i = Some b -> mb_used b = true -> mb_stored b = false ->
  mbuf_age s + 1 < UINT64_MAX -> 0 ≤ mbuf_age s ->
  queue (set_mbuf_age (u64 (mbuf_age s + 1))
          (set_mbuf (aset i (mbuffer_kept (mbuf_age s) b) (mbuf s)) s)) (q ++ [i]).
Proof.
  intros Hq Hb Hu Hs Hmax Hpos. eapply queue_store; try done.
  unfold mb_stored, mbuffer_kept. unfold mb_used in Hu. simpl. rflags. by rewrite Hu.
Qed.

(** Discarding the message of a buffer takes it out of the queue. *)
Lemma queue_discard s q i b :
  queue s q -> aget (mbuf s) i = Some b ->
  queue (set_mbuf (aset i (mbuffer_reset b) (mbuf s)) s) (filter (fun j => j <> i) q).
Proof.
  intros [Hst Hsort Hrec Hage] Hb. pose proof (aget_lt _ _ _ Hb) as Hi.
  set (s' := set_mbuf _ _).
  assert (Hof : forall j, j ∈ filter (fun j => j <> i) q -> age_of s' j = age_of s j).
  { intros j [Hj _]%list_elem_of_filter. unfold age_of, s'. simpl. by rewrite aget_aset_ne. }
  assert (Hr : mb_stored (mbuffer_reset b) = false).
  { unfold mb_stored, mbuffer_reset. simpl. by rflags. }
  split; simpl; [| | |done].
  - intros j. rewrite list_elem_of_filter, Hst, aget_aset. case_bool_decide as Hc.
    + destruct Hc as [<- _]. split; [by intros [? _]|]. intros (c & [= <-] & ?). congruence.
    + assert (i <> j) by (intros ->; apply Hc; done). split; [by intros [_ ?]|done].
  - eapply StronglySorted_ext; [|by apply StronglySorted_sublist_filter].
    intros j k Hj Hk. by rewrite !Hof.
  - intros j Hj. rewrite Hof by done. apply list_elem_of_filter in Hj as [_ ?]. auto.
Qed.

Definition in_window (pool : mbuffer_pool) (i : Z) : Prop :=
  pool_base pool ≤ i < pool_base pool + nmbuffers pool.

(** The search takes the first message of the queue that the pool holds and that
    matches. *)
(** The buffers of a table that was just initialised. *)
Lemma buffers_fresh (l : list mbuffer) : queue (Mbuffers (map mbuffer_reset l) 0 false) [].
Proof.
  split; [|constructor|set_solver|done]. intros i. split; [set_solver|].
  intros (b & Hb & Hs). simpl in Hb. unfold aget in Hb. case_bool_decide; [|done].
  apply list_lookup_fmap_Some in Hb as (c & -> & _).
  unfold mb_stored in Hs. simpl in Hs. by rewrite initializer_unused in Hs.
Qed.

Lemma mbuffer_search_queue pool dest src s q :
  window_ok pool s -> mbuf_lock s = false -> queue s q ->
  wp (mbuffer_search pool dest src) (fun r s' =>
    s' = s /\
    ((r = err EINVAL /\
      forall i b, i ∈ q -> in_window pool i -> aget (mbuf s) i = Some b ->
        mb_matches pool dest src b = false) \/
     (exists b q1 q2, 0 ≤ r < nmbuffers pool /\ aget (mbuf s) (pool_base pool + r) = Some b /\
        mb_matches pool dest src b = true /\ q = q1 ++ (pool_base pool + r) :: q2 /\
        forall i b', i ∈ q1 -> in_window pool i -> aget (mbuf s) i = Some b' ->
          mb_matches pool dest src b' = false))) s.
Proof.
  intros Hw Hl Hq. eapply wp_mono; [apply mbuffer_search_spec; [done|done|]|].
  { intros i b. by eapply queue_ages. }
  intros r s' [-> Hr]. split; [done|].
  assert (Hwin : forall i, in_window pool i -> 0 ≤ i - pool_base pool < nmbuffers pool)
    by (unfold in_window; lia).
  destruct Hr as [[-> Hnone]|(b & Hr & Hb & Hm & Hmin)].
  - left. split; [done|]. intros i b Hi Hwi Hb. apply (Hnone (i - pool_base pool)); [by apply Hwin|].
    by replace (pool_base pool + (i - pool_base pool)) with i by lia.
  - right. assert (Hin : pool_base pool + r ∈ q).
    { apply (q_stored _ _ Hq). exists b. split; [done|].
      apply mb_matches_spec in Hm as (E1 & E2 & _). unfold mb_stored. by rewrite E1, E2. }
    apply list_elem_of_split in Hin as (q1 & q2 & Eq).
    exists b, q1, q2. split_and!; try done; try lia. intros i b' Hi Hwi Hb'.
    apply not_true_is_false. intros Hm'.
    assert (Hage : age_of s i < age_of s (pool_base pool + r)).
    { pose proof (q_sorted _ _ Hq) as Hsort. rewrite Eq in Hsort. exact (StronglySorted_before _ _ _ _ Hsort i Hi). }
    unfold age_of in Hage. rewrite Hb, Hb' in Hage.
    specialize (Hmin (i - pool_base pool) b' (Hwin _ Hwi)).
    replace (pool_base pool + (i - pool_base pool)) with i in Hmin by lia.
    specialize (Hmin Hb' Hm'). lia.
Qed.

Lemma mb_stored_fresh b : mb_stored (mbuffer_fresh b) = false.
Proof. unfold mb_stored, mbuffer_fresh. simpl. by rflags. Qed.

Lemma mb_used_fresh b : mb_used (mbuffer_fresh b) = true.
Proof. unfold mb_used, mbuffer_fresh. simpl. by rflags. Qed.

Lemma unused_unstored b : mb_used b = false -> mb_stored b = false.
Proof. unfold mb_used, mb_stored. by intros ->. Qed.

Lemma queue_alloc s q i b :
  queue s q -> aget (mbuf s) i = Some b -> mb_used b = false ->
  queue (set_mbuf (aset i (mbuffer_fresh b) (mbuf s)) s) q.
Proof.
  intros Hq Hb Hu. eapply queue_write_unstored; [done|done|by apply unused_unstored|].
  apply mb_stored_fresh.
Qed.

(** ** Theorems *)

(** A search returns the oldest message of the pool that is addressed to [dest]
    and whose source passes the check, that is, the first such message in the order in
    which messages were stored; it changes nothing. *)
Theorem mbuffer_search_oldest pool dest src s q :
  window_ok pool s -> mbuf_lock s = false -> queue s q ->
  wp (mbuffer_search pool dest src) (fun r s' =>
    s' = s /\
    ((r = err EINVAL /\
      forall i b, i ∈ q -> in_window pool i -> aget (mbuf s) i = Some b ->
        mb_matches pool dest src b = false) \/
     (exists b q1 q2, 0 ≤ r < nmbuffers pool /\ aget (mbuf s) (pool_base pool + r) = Some b /\
        mb_matches pool dest src b = true /\ q = q1 ++ (pool_base pool + r) :: q2 /\
        forall i b', i ∈ q1 -> in_window pool i -> aget (mbuf s) i = Some b' ->
          mb_matches pool dest src b' = false))) s.
Proof. apply mbuffer_search_queue. Qed.

(** Allocating a buffer and keeping its message appends the buffer to the queue
    of stored messages; discarding the message afterwards removes it again; a pool
    with no free buffer is left as it is. *)
Theorem mbuffer_store_discard pool s q :
  window_ok pool s -> mbuf_lock s = false -> queue s q ->
  0 ≤ mbuf_age s -> mbuf_age s + 1 < UINT64_MAX ->
  wp (id ← mbuffer_alloc pool;
      if id <? 0 then mret (id, None) else
      r ← mbuffer_release (Some pool) id MBUFFER_KEEP_MESSAGE;
      kept ← kgets (fun s => s);
      r' ← mbuffer_release (Some pool) id MBUFFER_DISCARD_MESSAGE;
      mret (id, Some (r, kept, r')))
     (fun r s' =>
        mbuf_lock s' = false /\
        match r with
        | (id, None) => id = err EBUSY /\ s' = s
        | (id, Some (r1, kept, r2)) =>
            r1 = 0 /\ r2 = 0 /\ in_window pool (pool_base pool + id) /\
            queue kept (q ++ [pool_base pool + id]) /\ queue s' q
        end) s.
Proof.
  intros Hw Hl Hq Hpos Hmax. wp_step. eapply wp_mono; [by apply mbuffer_alloc_spec|].
  intros id s1 [(-> & -> & _)|(b & Hid & Hb & Hu & ->)].
  { rewrite (proj2 (Z.ltb_lt _ 0) (err_neg EBUSY)). by wp_step. }
  rewrite (proj2 (Z.ltb_ge _ 0)) by lia. set (i := pool_base pool + id) in *.
  pose proof (aget_lt _ _ _ Hb) as Hi.
  set (s1 := set_mbuf _ s).
  assert (Hq1 : queue s1 q) by (by apply queue_alloc).
  assert (Hb1 : aget (mbuf s1) i = Some (mbuffer_fresh b)) by (by apply aget_aset_eq).
  assert (Hw1 : window_ok pool s1) by (destruct Hw as (?&?&?); split_and!; simpl; rewrite ?length_aset; lia).
  wp_step. eapply wp_mono; [by eapply mbuffer_release_spec|].
  rewrite mb_used_fresh. intros r s2 [(?&_)|(_ & -> & ->)]; [done|].
  change (MBUFFER_KEEP_MESSAGE =? MBUFFER_KEEP_MESSAGE) with true. cbv iota.
  assert (Hq2 := queue_keep s1 q i _ Hq1 Hb1 (mb_used_fresh b) (mb_stored_fresh b) Hmax Hpos).
  wp_step. wp_step.
  set (s2 := set_mbuf_age _ _) in *.
  assert (Hb2 : aget (mbuf s2) i = Some (mbuffer_kept (mbuf_age s1) (mbuffer_fresh b))).
  { apply aget_aset_eq. simpl. by rewrite length_aset. }
  wp_step. eapply wp_mono; [eapply (mbuffer_release_spec pool id _ s2); [|done|done|exact Hb2]|].
  { destruct Hw as (?&?&?). split_and!; simpl; rewrite ?length_aset; lia. }
  assert (Huk : mb_used (mbuffer_kept (mbuf_age s1) (mbuffer_fresh b)) = true).
  { unfold mb_used. simpl. by rflags. }
  intros r s3 [(?&_)|(_ & -> & ->)]; [congruence|]. wp_step. split; [done|].
  split_and!; try done; [unfold in_window; lia|]. simpl.
  assert (Hq3 := queue_discard s2 _ i _ Hq2 Hb2).
  rewrite filter_app, filter_cons_False, filter_nil, app_nil_r in Hq3 by (by intros ?).
  rewrite filter_all in Hq3; [done|].
  apply Forall_forall. intros j Hj ->. apply (q_stored _ _ Hq) in Hj as (c & Hc & Hs).
  rewrite Hb in Hc. simplify_eq. apply unused_unstored in Hu. congruence.
Qed.

End mbuffer.

(** ** Instances *)

(** Three buffers, of which the last two store messages from node 5 to port 7; the
    message in the last one is older. *)
Definition bufs_small : mbuffers :=
  Mbuffers
    [Mbuffer (RFlags false false false false) UINT64_MAX 0 (-1) (-1) (MbufferMessage (MbufferHeader (-1) (-1) 0 0) [0; 0]);
     Mbuffer (RFlags true true false false) 4 0 (-1) (-1) (MbufferMessage (MbufferHeader 7 5 0 0) [1; 2]);
     Mbuffer (RFlags true true false false) 3 0 (-1) (-1) (MbufferMessage (MbufferHeader 7 5 0 0) [3; 4])]
    5 false.

Definition pool_small : mbuffer_pool :=
  MbufferPool 0 3 (fun b src => h_src (msg_header (mb_message b)) =? src).

Lemma bufs_small_window : window_ok pool_small bufs_small.
Proof. by vm_compute. Qed.

Lemma bufs_small_queue : queue bufs_small [2; 1].
Proof.
  split.
  - intros i. rewrite !elem_of_cons. split.
    + intros [->|[->|?%not_elem_of_nil]]; [eexists; done|eexists; done|done].
    + intros (b & Hb & Hs). pose proof (aget_lt _ _ _ Hb) as Hr. simpl in Hr.
      assert (i = 0 \/ i = 1 \/ i = 2) as [->|[->| ->]] by lia; [|auto|auto].
      injection Hb as <-. discriminate Hs.
  - by repeat constructor.
  - intros i. rewrite !elem_of_cons. by intros [->|[->|?%not_elem_of_nil]].
  - done.
Qed.

Lemma mbuffer_search_oldest_witness :
  wp (mbuffer_search pool_small 7 5) (fun r s' =>
    s' = bufs_small /\
    ((r = err EINVAL /\
      forall i b, i ∈ [2; 1] -> in_window pool_small i -> aget (mbuf bufs_small) i = Some b ->
        mb_matches pool_small 7 5 b = false) \/
     (exists b q1 q2, 0 ≤ r < nmbuffers pool_small /\
        aget (mbuf bufs_small) (pool_base pool_small + r) = Some b /\
        mb_matches pool_small 7 5 b = true /\ [2; 1] = q1 ++ (pool_base pool_small + r) :: q2 /\
        forall i b', i ∈ q1 -> in_window pool_small i -> aget (mbuf bufs_small) i = Some b' ->
          mb_matches pool_small 7 5 b' = false))) bufs_small.
Proof.
  apply (mbuffer_search_oldest pool_small 7 5 bufs_small [2; 1]).
  - exact bufs_small_window.
  - reflexivity.
  - exact bufs_small_queue.
Defined.

Lemma mbuffer_store_discard_witness :
  wp (id ← mbuffer_alloc pool_small;
      if id <? 0 then mret (id, None) else
      r ← mbuffer_release (Some pool_small) id MBUFFER_KEEP_MESSAGE;
      kept ← kgets (fun s => s);
      r' ← mbuffer_release (Some pool_small) id MBUFFER_DISCARD_MESSAGE;
      mret (id, Some (r, kept, r')))
     (fun r s' =>
        mbuf_lock s' = false /\
        match r with
        | (id, None) => id = err EBUSY /\ s' = bufs_small
        | (id, Some (r1, kept, r2)) =>
            r1 = 0 /\ r2 = 0 /\ in_window pool_small (pool_base pool_small + id) /\
            queue kept ([2; 1] ++ [pool_base pool_small + id]) /\ queue s' [2; 1]
        end) bufs_small.
Proof.
  apply (mbuffer_store_discard pool_small bufs_small [2; 1]).
  - exact bufs_small_window.
  - reflexivity.
  - exact bufs_small_queue.
  - vm_compute. discriminate.
  - vm_compute. reflexivity.
Defined.
