(* ===== verification/Requests.v ===== *)
(** Ports and write requests of a communication endpoint
    (src/kernel/noc/port.{c,h}, the data of src/kernel/noc/active.h, and the request
    routines of src/kernel/noc/active.c).

    An active holds its ports and a ring buffer of the ports that requested a write.
    The ring buffer is verified against a queue of port numbers. *)

From S2P Require Import Prelude.
From S2P Require Import Hlib.
From S2P Require Import Mbuffer.

(** ** Ports *)

Definition PORT_FLAGS_REQUESTED : Z := Z.shiftl 1 0.

Record port `{Hlib} := Port {
  pt_resource : resource;
  pt_flags : Z;
  pt_mbufferid : Z;
  pt_mbufferpool : option mbuffer_pool;
}.
Arguments Port {_} pt_resource pt_flags pt_mbufferid pt_mbufferpool.

Record port_pool `{Hlib} := PortPool {
  ports : list port;
  nports : Z;
  used_ports : Z;
}.
Arguments PortPool {_} ports nports used_ports.

Record requests_fifo := RequestsFifo {
  rq_head : Z;
  rq_tail : Z;
  rq_max_capacity : Z;
  rq_nelements : Z;
  rq_fifo : list Z;
}.

(** The table of functions of an active is a parameter of the operations on it. *)
Record active `{Hlib} := Active {
  ac_resource : resource;
  ac_flags : Z;
  ac_hwfd : Z;
  ac_local : Z;
  ac_remote : Z;
  ac_refcount : Z;
  ac_size : Z;
  ac_portpool : port_pool;
  ac_mbufferpool : mbuffer_pool;
  ac_mbufferpool_aux : mbuffer_pool;
  ac_requests : requests_fifo;
  ac_lock : spinlock_t;
}.
Arguments Active {_} ac_resource ac_flags ac_hwfd ac_local ac_remote ac_refcount ac_size
  ac_portpool ac_mbufferpool ac_mbufferpool_aux ac_requests ac_lock.

Section requests.
Context `{H : Hlib}.

Definition pt_set_resource (r : resource) (p : port) : port :=
  Port r (pt_flags p) (pt_mbufferid p) (pt_mbufferpool p).
Definition pt_set_flags (f : Z) (p : port) : port :=
  Port (pt_resource p) f (pt_mbufferid p) (pt_mbufferpool p).
Definition pt_set_mbuffer (id : Z) (pool : option mbuffer_pool) (p : port) : port :=
  Port (pt_resource p) (pt_flags p) id pool.

Definition port_set_requested (p : port) : port :=
  pt_set_flags (Z.lor (pt_flags p) PORT_FLAGS_REQUESTED) p.
Definition port_set_notrequested (p : port) : port :=
  pt_set_flags (Z.land (pt_flags p) (Z.lnot PORT_FLAGS_REQUESTED)) p.
Definition port_is_requested (p : port) : bool :=
  negb (Z.land (pt_flags p) PORT_FLAGS_REQUESTED =? 0).

Definition portpool_choose_port {S} (pool : port_pool) : K S Z :=
  if used_ports pool <? nports pool then
    kfor (Z.to_nat (nports pool)) 0 (fun i ret =>
      p ← kunwrap (aget (ports pool) i);
      if resource_is_used (pt_resource p) then mret (ret, false) else mret (i, true)) (err EINVAL)
  else mret (err EINVAL).

(** ** Fields of an active *)

Definition pp_set_ports (l : list port) (p : port_pool) : port_pool :=
  PortPool l (nports p) (used_ports p).
Definition pp_set_used (n : Z) (p : port_pool) : port_pool := PortPool (ports p) (nports p) n.

Definition ac_set_resource (x : resource) (a : active) : active :=
  Active x (ac_flags a) (ac_hwfd a) (ac_local a) (ac_remote a) (ac_refcount a) (ac_size a)
    (ac_portpool a) (ac_mbufferpool a) (ac_mbufferpool_aux a) (ac_requests a) (ac_lock a).
Definition ac_set_flags (x : Z) (a : active) : active :=
  Active (ac_resource a) x (ac_hwfd a) (ac_local a) (ac_remote a) (ac_refcount a) (ac_size a)
    (ac_portpool a) (ac_mbufferpool a) (ac_mbufferpool_aux a) (ac_requests a) (ac_lock a).
Definition ac_set_remote (x : Z) (a : active) : active :=
  Active (ac_resource a) (ac_flags a) (ac_hwfd a) (ac_local a) x (ac_refcount a) (ac_size a)
    (ac_portpool a) (ac_mbufferpool a) (ac_mbufferpool_aux a) (ac_requests a) (ac_lock a).
Definition ac_set_refcount (x : Z) (a : active) : active :=
  Active (ac_resource a) (ac_flags a) (ac_hwfd a) (ac_local a) (ac_remote a) x (ac_size a)
    (ac_portpool a) (ac_mbufferpool a) (ac_mbufferpool_aux a) (ac_requests a) (ac_lock a).
Definition ac_set_portpool (x : port_pool) (a : active) : active :=
  Active (ac_resource a) (ac_flags a) (ac_hwfd a) (ac_local a) (ac_remote a) (ac_refcount a) (ac_size a)
    x (ac_mbufferpool a) (ac_mbufferpool_aux a) (ac_requests a) (ac_lock a).
Definition ac_set_requests (x : requests_fifo) (a : active) : active :=
  Active (ac_resource a) (ac_flags a) (ac_hwfd a) (ac_local a) (ac_remote a) (ac_refcount a) (ac_size a)
    (ac_portpool a) (ac_mbufferpool a) (ac_mbufferpool_aux a) x (ac_lock a).
Definition ac_set_lock (x : spinlock_t) (a : active) : active :=
  Active (ac_resource a) (ac_flags a) (ac_hwfd a) (ac_local a) (ac_remote a) (ac_refcount a) (ac_size a)
    (ac_portpool a) (ac_mbufferpool a) (ac_mbufferpool_aux a) (ac_requests a) x.

Definition ac_ports (a : active) : list port := ports (ac_portpool a).
Definition ac_nports (a : active) : Z := nports (ac_portpool a).
Definition ac_set_ports (l : list port) (a : active) : active :=
  ac_set_portpool (pp_set_ports l (ac_portpool a)) a.

Definition port_read (p : Z) : K active port :=
  o ← kgets (fun a => aget (ac_ports a) p); kunwrap o.
Definition port_update (p : Z) (f : port -> port) : K active unit :=
  x ← port_read p;
  kmodify (fun a => ac_set_ports (aset p (f x) (ac_ports a)) a).

(** ** Requests *)

(** The sanity check on the port pointer. *)
Definition port_in_pool (port : Z) : K active unit :=
  n ← kgets ac_nports; KASSERT (WITHIN port 0 n).

Definition do_request_operation (port : Z) : K active Z :=
  port_in_pool port;;
  requests ← kgets ac_requests;
  if rq_nelements requests =? rq_max_capacity requests then mret (err EBUSY) else
  port_update port port_set_requested;;
  let head := rq_head requests in
  kunwrap (aget (rq_fifo requests) head);;
  kmodify (ac_set_requests
    (RequestsFifo (mod_pw2 (head + 1) (rq_max_capacity requests)) (rq_tail requests)
       (rq_max_capacity requests) (rq_nelements requests + 1) (aset head port (rq_fifo requests))));;
  mret 0.

Definition do_request_complete (port : Z) : K active Z :=
  port_in_pool port;;
  requests ← kgets ac_requests;
  let tail := rq_tail requests in
  x ← kunwrap (aget (rq_fifo requests) tail);
  if negb (x =? port) then mret (err EINVAL) else
  kmodify (ac_set_requests
    (RequestsFifo (rq_head requests) (mod_pw2 (tail + 1) (rq_max_capacity requests))
       (rq_max_capacity requests) (rq_nelements requests - 1) (aset tail (-1) (rq_fifo requests))));;
  port_update port port_set_notrequested;;
  mret 0.

(** The loop of [do_request_clear]; it runs at most once per slot of the buffer. *)
Fixpoint request_clear_loop (fuel : nat) (portid head cap curr next : Z) (cleared : bool)
  : K (list Z) bool :=
  if curr =? head then mret cleared else
  match fuel with
  | O => khang
  | S fuel' =>
      o ← kgets (fun fifo => aget fifo curr);
      x ← kunwrap o;
      let cleared := cleared || (portid =? x) in
      (if cleared then
         o ← kgets (fun fifo => aget fifo next);
         y ← kunwrap o;
         kmodify (aset curr y)
       else mret tt);;
      let curr := next in
      let next := mod_pw2 (curr + 1) cap in
      request_clear_loop fuel' portid head cap curr next cleared
  end.

Definition rq_set_fifo (l : list Z) (r : requests_fifo) : requests_fifo :=
  RequestsFifo (rq_head r) (rq_tail r) (rq_max_capacity r) (rq_nelements r) l.

Definition do_request_clear (port : Z) : K active Z :=
  port_in_pool port;;
  requests ← kgets ac_requests;
  if rq_nelements requests =? 0 then mret 0 else
  let curr := rq_tail requests in
  let next := mod_pw2 (curr + 1) (rq_max_capacity requests) in
  cleared ← kzoom (fun a => Some (rq_fifo (ac_requests a)))
                  (fun l a => ac_set_requests (rq_set_fifo l (ac_requests a)) a)
                  (request_clear_loop (Z.to_nat (rq_max_capacity requests)) port (rq_head requests)
                     (rq_max_capacity requests) curr next false);
  if (cleared : bool) then
    kmodify (fun a =>
      let r := ac_requests a in
      ac_set_requests (RequestsFifo (mod_pw2 (rq_head r - 1) (rq_max_capacity r)) (rq_tail r)
                         (rq_max_capacity r) (rq_nelements r - 1) (rq_fifo r)) a);;
    port_update port port_set_notrequested;;
    mret 0
  else mret 0.

Definition do_request_verify (port : Z) : K active bool :=
  port_in_pool port;;
  requests ← kgets ac_requests;
  if rq_nelements requests =? 0 then mret false else
  x ← kunwrap (aget (rq_fifo requests) (rq_tail requests));
  mret (x =? port).

(** ** Specification: a queue of port numbers *)

(** The slot of the [j]-th request. *)
Definition slot_of (r : requests_fifo) (j : Z) : Z := (rq_tail r + j) `mod` rq_max_capacity r.

(** What the slot holds: free slots hold -1. *)
Definition request_at (q : list Z) (j : Z) : Z := default (-1) (aget q j).

Record requests_repr (r : requests_fifo) (q : list Z) : Prop := {
  rr_pow2 : exists k, 0 ≤ k /\ rq_max_capacity r = 2 ^ k;
  rr_length : alen (rq_fifo r) = rq_max_capacity r;
  rr_tail : 0 ≤ rq_tail r < rq_max_capacity r;
  rr_nelements : rq_nelements r = alen q;
  rr_bound : alen q ≤ rq_max_capacity r;
  rr_head : rq_head r = slot_of r (alen q);
  rr_slots j : 0 ≤ j < rq_max_capacity r -> aget (rq_fifo r) (slot_of r j) = Some (request_at q j);
  rr_ports : Forall (fun p => 0 ≤ p) q;
}.

Context {HL : HlibLaws H}.

Lemma fifo_slot_range r j : 0 < rq_max_capacity r -> 0 ≤ slot_of r j < rq_max_capacity r.
Proof. intros ?. by apply Z.mod_pos_bound. Qed.

Lemma slot_inj r i j :
  0 ≤ i < rq_max_capacity r -> 0 ≤ j < rq_max_capacity r -> slot_of r i = slot_of r j -> i = j.
Proof.
  unfold slot_of. set (c := rq_max_capacity r). set (t := rq_tail r). intros Hi Hj E.
  pose proof (Z.div_mod (t + i) c ltac:(lia)) as H1. pose proof (Z.div_mod (t + j) c ltac:(lia)) as H2.
  rewrite E in H1. revert H1 H2. generalize ((t + i) / c) ((t + j) / c) ((t + j) `mod` c).
  intros a b m H1 H2. clearbody c t. assert (i - j = c * (a - b)) by lia.
  destruct (Z.lt_trichotomy a b) as [?|[?|?]]; nia.
Qed.

Lemma slot_succ r j :
  0 < rq_max_capacity r -> slot_of r (j + 1) = (slot_of r j + 1) `mod` rq_max_capacity r.
Proof. intros ?. unfold slot_of. rewrite Z.add_assoc. by rewrite Z.add_mod_idemp_l by lia. Qed.

Lemma repr_cap r q : requests_repr r q -> 0 < rq_max_capacity r.
Proof. intros []. lia. Qed.

Lemma repr_mod r q a : requests_repr r q -> mod_pw2 a (rq_max_capacity r) = a `mod` rq_max_capacity r.
Proof. intros [(k & Hk & ->)]. by apply mod_pw2_spec. Qed.

Lemma slot_lt r q j : requests_repr r q -> slot_of r j < alen (rq_fifo r) /\ 0 ≤ slot_of r j.
Proof.
  intros Hr. pose proof (fifo_slot_range r j (repr_cap _ _ Hr)). rewrite (rr_length _ _ Hr). lia.
Qed.

Lemma slot_0 r q : requests_repr r q -> slot_of r 0 = rq_tail r.
Proof. intros Hr. unfold slot_of. rewrite Z.add_0_r. apply Z.mod_small, (rr_tail _ _ Hr). Qed.

(** Appending a request. *)
Lemma repr_push r q p :
  requests_repr r q -> alen q < rq_max_capacity r -> 0 ≤ p ->
  requests_repr (RequestsFifo (mod_pw2 (rq_head r + 1) (rq_max_capacity r)) (rq_tail r)
                   (rq_max_capacity r) (rq_nelements r + 1) (aset (rq_head r) p (rq_fifo r))) (q ++ [p]).
Proof.
  intros Hr Hlt Hp. pose proof (repr_cap _ _ Hr). pose proof (repr_mod r q) as Hmod.
  pose proof Hr as [Hpow Hlen Htail Hn Hb Hh Hs Hports].
  assert (Hq : alen (q ++ [p]) = alen q + 1) by (rewrite length_app; simpl; lia).
  split; simpl; try done.
  - by rewrite length_aset.
  - lia.
  - lia.
  - rewrite Hmod by done. rewrite Hh, Hq. symmetry. by apply (slot_succ r).
  - intros j Hj. rewrite Hh. change (slot_of _ j) with (slot_of r j).
    destruct (decide (j = alen q)) as [->|Hne].
    + rewrite aget_aset_eq by (by destruct (slot_lt r q (alen q) Hr)).
      unfold request_at. by rewrite aget_snoc.
    + rewrite aget_aset_ne by (intros E; apply Hne; symmetry; apply (slot_inj r); [lia|lia|done]).
      rewrite Hs by done. unfold request_at. destruct (decide (j < alen q)).
      * by rewrite aget_app_l.
      * by rewrite !aget_ge by lia.
  - apply Forall_app. split; [done|]. by repeat constructor.
Qed.

(** Completing the first request. *)
Lemma repr_pop r p q :
  requests_repr r (p :: q) ->
  requests_repr (RequestsFifo (rq_head r) (mod_pw2 (rq_tail r + 1) (rq_max_capacity r))
                   (rq_max_capacity r) (rq_nelements r - 1) (aset (rq_tail r) (-1) (rq_fifo r))) q.
Proof.
  intros Hr. pose proof (repr_cap _ _ Hr) as Hc. pose proof (slot_0 _ _ Hr) as H0.
  pose proof (fun j => slot_lt _ _ j Hr) as Hlt. rewrite (repr_mod _ _ _ Hr).
  pose proof Hr as [Hpow Hlen Htail Hn Hb Hh Hs Hports]. simpl length in *.
  assert (Hslot : forall j, slot_of (RequestsFifo (rq_head r) ((rq_tail r + 1) `mod` rq_max_capacity r)
                   (rq_max_capacity r) (rq_nelements r - 1) (aset (rq_tail r) (-1) (rq_fifo r))) j
                 = slot_of r (j + 1)).
  { intros j. unfold slot_of. simpl. rewrite Z.add_mod_idemp_l by lia. f_equal. lia. }
  split; simpl; try done.
  - by rewrite length_aset.
  - by apply Z.mod_pos_bound.
  - lia.
  - lia.
  - rewrite Hslot, Hh. f_equal. lia.
  - intros j Hj. rewrite Hslot. destruct (decide (j + 1 = rq_max_capacity r)) as [E|Hne].
    + assert (slot_of r (j + 1) = rq_tail r) as ->.
      { rewrite <- H0, E. unfold slot_of. rewrite <- (Z.mul_1_l (rq_max_capacity r)) at 1.
        rewrite Z.mod_add by lia. f_equal. lia. }
      rewrite aget_aset_eq by (rewrite Hlen; done).
      unfold request_at. by rewrite aget_ge by lia.
    + rewrite aget_aset_ne.
      * rewrite Hs by lia. unfold request_at. rewrite aget_cons_S by lia. do 2 f_equal. f_equal. lia.
      * rewrite <- H0. intros E%slot_inj; lia.
  - by inversion Hports.
Qed.

(** The state of the buffer after requests [i+1..j] moved down by one. *)
Definition shifted (r : requests_fifo) (i j : Z) (f : list Z) : Prop :=
  length f = length (rq_fifo r) /\
  forall k, 0 ≤ k < rq_max_capacity r ->
    aget f (slot_of r k) =
    aget (rq_fifo r) (slot_of r (if bool_decide (i ≤ k < j) then k + 1 else k)).

Definition clear_inv (r : requests_fifo) (q : list Z) (p j : Z) (cleared : bool) (f : list Z) : Prop :=
  if cleared
  then exists i, 0 ≤ i < j /\ aget q i = Some p /\ (forall k, k < i -> aget q k <> Some p) /\ shifted r i j f
  else f = rq_fifo r /\ forall k, k < j -> aget q k <> Some p.

(** One iteration that moves a request. *)
Lemma clear_inv_step r q p j x y cleared f :
  requests_repr r q -> alen q < rq_max_capacity r -> 0 ≤ j < alen q ->
  aget q j = Some x -> (cleared || (p =? x)) = true -> aget f (slot_of r (j + 1)) = Some y ->
  clear_inv r q p j cleared f -> clear_inv r q p (j + 1) true (aset (slot_of r j) y f).
Proof.
  intros Hr Hlt Hj Hx Hc Hy Hinv. pose proof (slot_lt r q j Hr) as Hsl.
  assert (exists i, 0 ≤ i < j + 1 /\ aget q i = Some p /\ (forall k, k < i -> aget q k <> Some p) /\
                    shifted r i j f) as (i & Hi & Hip & Hfirst & Hlen & Hsh).
  { destruct cleared; simpl in Hinv.
    - destruct Hinv as (i & Hi & ? & ? & ?). exists i. split_and!; try done; lia.
    - apply Z.eqb_eq in Hc as <-. destruct Hinv as [-> Hno]. exists j. split_and!; try done; try lia.
      split; [done|]. intros k Hk. by rewrite bool_decide_false by lia. }
  exists i. split_and!; try done; try lia. split; [by rewrite length_aset|].
  intros k Hk. destruct (decide (k = j)) as [->|Hne].
  - rewrite aget_aset_eq by (rewrite Hlen; lia). rewrite bool_decide_true by lia.
    rewrite <- Hy, Hsh by lia. by rewrite bool_decide_false by lia.
  - rewrite aget_aset_ne by (intros E%slot_inj; lia). rewrite Hsh by done.
    do 2 f_equal. repeat case_bool_decide; lia.
Qed.

Lemma request_clear_loop_spec r q p fuel j cleared f :
  requests_repr r q -> alen q < rq_max_capacity r -> 0 ≤ p ->
  0 ≤ j ≤ alen q -> alen q - j ≤ Z.of_nat fuel -> clear_inv r q p j cleared f ->
  wp (request_clear_loop fuel p (rq_head r) (rq_max_capacity r) (slot_of r j) (slot_of r (j + 1)) cleared)
     (fun c f' => clear_inv r q p (alen q) c f') f.
Proof.
  intros Hr Hlt Hp. revert j cleared f. induction fuel as [|fuel IH]; intros j cleared f Hj Hf Hinv.
  all: pose proof (rr_head _ _ Hr) as Hh.
  - assert (j = alen q) as -> by lia. simpl. rewrite Hh, Z.eqb_refl. by wp_step.
  - destruct (decide (j = alen q)) as [->|Hne]; [simpl; rewrite Hh, Z.eqb_refl; by wp_step|].
    simpl. rewrite (proj2 (Z.eqb_neq _ _)); [|rewrite Hh; intros E%slot_inj; lia].
    assert (Hx : aget f (slot_of r j) = aget q j).
    { pose proof (rr_slots _ _ Hr j ltac:(lia)) as Hs. unfold request_at in Hs.
      destruct (aget_is_Some q j) as [x Hx]; [lia|]. rewrite Hx in Hs |- *. simpl in Hs.
      destruct cleared; simpl in Hinv; [|by destruct Hinv as [-> _]].
      destruct Hinv as (i & Hi & _ & _ & _ & Hsh). rewrite Hsh by lia.
      rewrite bool_decide_false by lia. done. }
    destruct (aget_is_Some q j) as [x Hxq]; [lia|]. rewrite Hxq in Hx.
    wp_step. wp_step. wp_step. eapply wp_unwrap; [done|].
    rewrite (repr_mod _ _ _ Hr), <- slot_succ by (by eapply repr_cap). wp_step.
    (* either nothing to move yet, or the next request moves down *)
    destruct (cleared || (p =? x)) eqn:Hc.
    + wp_step. wp_step. wp_step.
      assert (Hy : is_Some (aget f (slot_of r (j + 1)))).
      { assert (Hlf : length f = length (rq_fifo r)).
        { destruct cleared; simpl in Hinv; [by destruct Hinv as (?&_&_&_&?&_)|by destruct Hinv as [-> _]]. }
        apply aget_is_Some. rewrite Hlf. destruct (slot_lt r q (j + 1) Hr). lia. }
      destruct Hy as [y Hy]. eapply wp_unwrap; [done|]. wp_step. apply IH; [lia|lia|].
      eapply clear_inv_step; eauto; lia.
    + wp_step. apply IH; [lia|lia|]. apply orb_false_iff in Hc as [-> Hpx%Z.eqb_neq].
      simpl in *. destruct Hinv as [-> Hno]. split; [done|]. intros k Hk.
      destruct (decide (k = j)) as [->|]; [congruence|]. apply Hno. lia.
Qed.

(** Removing the request of a port from a buffer that is not full. *)
Lemma repr_clear r q i f :
  requests_repr r q -> alen q < rq_max_capacity r -> 0 ≤ i < alen q -> shifted r i (alen q) f ->
  requests_repr (RequestsFifo (mod_pw2 (rq_head r - 1) (rq_max_capacity r)) (rq_tail r)
                   (rq_max_capacity r) (rq_nelements r - 1) f) (delete (Z.to_nat i) q).
Proof.
  intros Hr Hlt Hi [Hlf Hsh]. rewrite (repr_mod _ _ _ Hr).
  pose proof Hr as [Hpow Hlen Htail Hn Hb Hh Hs Hports].
  assert (Hld : alen (delete (Z.to_nat i) q) = alen q - 1).
  { rewrite length_delete by (apply lookup_lt_is_Some_2; lia). lia. }
  split; simpl; try done; try lia.
  - rewrite Hh, Hld. unfold slot_of. simpl. rewrite Zminus_mod_idemp_l. f_equal. lia.
  - intros j Hj. change (slot_of _ j) with (slot_of r j). rewrite Hsh by done.
    unfold request_at. rewrite aget_delete by lia. rewrite Z2Nat.id by lia.
    destruct (decide (j < alen q)) as [Hjq|Hjq].
    + replace (bool_decide (i ≤ j < alen q)) with (negb (bool_decide (j < i)))
        by (repeat case_bool_decide; simpl; lia).
      destruct (bool_decide (j < i)); simpl; apply Hs; lia.
    + rewrite !bool_decide_false by lia. rewrite Hs by lia. unfold request_at.
      by rewrite !aget_ge by lia.
  - by apply Forall_delete.
Qed.

(** ** Ports that wait for their turn *)

Lemma land_1 x : Z.land x 1 = Z.b2z (Z.testbit x 0).
Proof. rewrite Z.bit0_mod. apply (Z.land_ones x 1). done. Qed.

Lemma requested_set p : port_is_requested (port_set_requested p) = true.
Proof.
  unfold port_is_requested, port_set_requested. change PORT_FLAGS_REQUESTED with 1. simpl.
  rewrite land_1, Z.lor_spec. simpl. by rewrite orb_true_r.
Qed.

Lemma requested_clear p : port_is_requested (port_set_notrequested p) = false.
Proof.
  unfold port_is_requested, port_set_notrequested. change PORT_FLAGS_REQUESTED with 1. simpl.
  rewrite land_1, Z.land_spec, Z.lnot_spec by done. simpl. by rewrite andb_false_r.
Qed.

(** The ports in the queue are the ports that requested a write, each once. *)
Record act_reqs (a : active) (q : list Z) : Prop := {
  ar_repr : requests_repr (ac_requests a) q;
  ar_ports : alen (ac_ports a) = ac_nports a;
  ar_range : Forall (fun p => 0 ≤ p < ac_nports a) q;
  ar_nodup : NoDup q;
  ar_flag p x : aget (ac_ports a) p = Some x -> port_is_requested x = bool_decide (p ∈ q);
}.

(** [a'] differs from [a] in its requests and the flags of its ports only. *)
Record act_frame (a a' : active) : Prop := {
  af_active : a' = ac_set_requests (ac_requests a') (ac_set_ports (ac_ports a') a);
  af_length : length (ac_ports a') = length (ac_ports a);
  af_capacity : rq_max_capacity (ac_requests a') = rq_max_capacity (ac_requests a);
  af_port p x : aget (ac_ports a) p = Some x ->
    exists fl, aget (ac_ports a') p = Some (pt_set_flags fl x);
}.

Lemma act_frame_refl a : act_frame a a.
Proof.
  split; [by destruct a as [????????????]; destruct ac_portpool0|done|done|].
  intros p x Hx. exists (pt_flags x). rewrite Hx. by destruct x.
Qed.

Lemma wp_port_update p x f (Q : unit -> active -> Prop) a :
  aget (ac_ports a) p = Some x -> Q tt (ac_set_ports (aset p (f x) (ac_ports a)) a) ->
  wp (port_update p f) Q a.
Proof.
  intros Hx HQ. unfold port_update, port_read. wp_step. wp_step. wp_step.
  eapply wp_unwrap; [done|]. by wp_step.
Qed.

Lemma port_in_pool_ok p (Q : unit -> active -> Prop) a :
  0 ≤ p < ac_nports a -> Q tt a -> wp (port_in_pool p) Q a.
Proof.
  intros Hp HQ. unfold port_in_pool. wp_step. wp_step. wp_step; [by apply WITHIN_true|done].
Qed.

(** Updating the flags of one port together with the requests. *)
Lemma act_update a q q' p x fl r' :
  act_reqs a q -> 0 ≤ p < ac_nports a -> aget (ac_ports a) p = Some x ->
  requests_repr r' q' -> Forall (fun p => 0 ≤ p < ac_nports a) q' -> NoDup q' ->
  port_is_requested (pt_set_flags fl x) = bool_decide (p ∈ q') ->
  rq_max_capacity r' = rq_max_capacity (ac_requests a) ->
  (forall k, k <> p -> k ∈ q' <-> k ∈ q) ->
  let a' := ac_set_requests r' (ac_set_ports (aset p (pt_set_flags fl x) (ac_ports a)) a) in
  act_reqs a' q' /\ act_frame a a'.
Proof.
  intros [Hrepr Hlen Hrange Hnd Hflag] Hp Hx Hr' Hrange' Hnd' Hfl Hcap Hother a'.
  assert (Hps : ac_ports a' = aset p (pt_set_flags fl x) (ac_ports a)) by done. split.
  - split; try done.
    + by rewrite Hps, length_aset.
    + intros k y. rewrite Hps. destruct (decide (p = k)) as [<-|Hne].
      * rewrite aget_aset_eq by (by eapply aget_lt). by intros [= <-].
      * rewrite aget_aset_ne by done. intros Hy. rewrite (Hflag k y Hy).
        apply bool_decide_ext. symmetry. by apply Hother.
  - split; [done|by rewrite Hps, length_aset|done|]. intros k y Hy. rewrite Hps.
    destruct (decide (p = k)) as [<-|Hne].
    + rewrite aget_aset_eq by (by eapply aget_lt). rewrite Hx in Hy. simplify_eq. eauto.
    + rewrite aget_aset_ne by done. exists (pt_flags y). rewrite Hy. by destruct y.
Qed.

Lemma do_request_operation_spec a q p :
  act_reqs a q -> 0 ≤ p < ac_nports a -> p ∉ q ->
  wp (do_request_operation p) (fun r a' =>
    (alen q = rq_max_capacity (ac_requests a) /\ r = err EBUSY /\ a' = a) \/
    (alen q < rq_max_capacity (ac_requests a) /\ r = 0 /\ act_reqs a' (q ++ [p]) /\ act_frame a a')) a.
Proof.
  intros Ha Hp Hnot. pose proof (ar_repr _ _ Ha) as Hr. unfold do_request_operation.
  wp_step. apply port_in_pool_ok; [done|]. wp_step. wp_step.
  rewrite (rr_nelements _ _ Hr). wp_step.
  - wp_step. left. split_and!; try done. lia.
  - assert (Hlt : alen q < rq_max_capacity (ac_requests a)).
    { pose proof (rr_bound _ _ Hr). lia. }
    destruct (aget_is_Some (ac_ports a) p) as [x Hx]; [by rewrite (ar_ports _ _ Ha)|].
    wp_step. eapply wp_port_update; [done|]. wp_step.
    destruct (aget_is_Some (rq_fifo (ac_requests a)) (rq_head (ac_requests a))) as [y Hy].
    { rewrite (rr_head _ _ Hr). destruct (slot_lt _ _ (alen q) Hr). lia. }
    eapply wp_unwrap; [done|]. wp_step. wp_step. wp_step. right. split; [done|]. split; [done|].
    rewrite <- (rr_nelements _ _ Hr).
    apply (act_update a q (q ++ [p]) p x); try done.
    + apply repr_push; [done|done|lia].
    + apply Forall_app. split; [by apply (ar_range _ _ Ha)|]. by apply Forall_singleton.
    + apply NoDup_app. split_and!; [by apply (ar_nodup _ _ Ha)| |].
      * intros k Hk. rewrite list_elem_of_singleton. by intros ->.
      * apply NoDup_singleton.
    + rewrite bool_decide_true by set_solver. apply requested_set.
    + intros k Hk. rewrite elem_of_app, list_elem_of_singleton. tauto.
Qed.

Lemma do_request_complete_spec a q p :
  act_reqs a q -> 0 ≤ p < ac_nports a ->
  wp (do_request_complete p) (fun r a' =>
    match q with
    | k :: q' => if k =? p then r = 0 /\ act_reqs a' q' /\ act_frame a a' else r = err EINVAL /\ a' = a
    | [] => r = err EINVAL /\ a' = a
    end) a.
Proof.
  intros Ha Hp. pose proof (ar_repr _ _ Ha) as Hr. unfold do_request_complete.
  wp_step. apply port_in_pool_ok; [done|]. wp_step. wp_step.
  pose proof (rr_slots _ _ Hr 0) as H0. rewrite (slot_0 _ _ Hr) in H0.
  wp_step. eapply wp_unwrap; [apply H0; pose proof (repr_cap _ _ Hr); lia|].
  destruct q as [|k q].
  - change (request_at [] 0) with (-1). rewrite (proj2 (Z.eqb_neq _ _)) by lia. by wp_step.
  - change (request_at (k :: q) 0) with k. destruct (k =? p) eqn:Ek; simpl; [|by wp_step].
    apply Z.eqb_eq in Ek as ->.
    destruct (aget_is_Some (ac_ports a) p) as [x Hx]; [by rewrite (ar_ports _ _ Ha)|].
    pose proof (ar_nodup _ _ Ha) as [Hpq Hnd]%NoDup_cons.
    pose proof (ar_range _ _ Ha) as [_ Hrange]%Forall_cons.
    wp_step. wp_step. wp_step. eapply wp_port_update; [done|]. wp_step. split; [done|].
    apply (act_update a (p :: q) q p x); try done.
    + by eapply repr_pop.
    + rewrite bool_decide_false by done. apply requested_clear.
    + intros j Hj. rewrite elem_of_cons. tauto.
Qed.

Lemma do_request_verify_spec a q p :
  act_reqs a q -> 0 ≤ p < ac_nports a ->
  wp (do_request_verify p) (fun r a' => a' = a /\ r = bool_decide (head q = Some p)) a.
Proof.
  intros Ha Hp. pose proof (ar_repr _ _ Ha) as Hr. unfold do_request_verify.
  wp_step. apply port_in_pool_ok; [done|]. wp_step. wp_step. rewrite (rr_nelements _ _ Hr).
  destruct q as [|k q]; [by wp_step|].
  rewrite (proj2 (Z.eqb_neq (alen (k :: q)) 0)) by (simpl; lia).
  pose proof (rr_slots _ _ Hr 0) as H0. rewrite (slot_0 _ _ Hr) in H0.
  wp_step. eapply wp_unwrap; [apply H0; pose proof (repr_cap _ _ Hr); lia|]. wp_step.
  split; [done|]. change (request_at (k :: q) 0) with k. simpl.
  case_bool_decide as Hc; [injection Hc as ->; by rewrite Z.eqb_refl|].
  apply Z.eqb_neq. by intros ->.
Qed.

Lemma do_request_clear_spec a q p :
  act_reqs a q -> 0 ≤ p < ac_nports a ->
  wp (do_request_clear p) (fun r a' => r = 0 /\
    if bool_decide (alen q = rq_max_capacity (ac_requests a)) then a' = a
    else act_reqs a' (filter (fun k => k <> p) q) /\ act_frame a a') a.
Proof.
  intros Ha Hp. pose proof (ar_repr _ _ Ha) as Hr. pose proof (repr_cap _ _ Hr) as Hcap.
  pose proof (slot_0 _ _ Hr) as Hs0. unfold do_request_clear.
  wp_step. apply port_in_pool_ok; [done|]. wp_step. wp_step. rewrite (rr_nelements _ _ Hr).
  wp_step.
  { assert (q = []) as -> by (apply nil_length_inv; lia). wp_step. split; [done|].
    rewrite bool_decide_false by (simpl; lia). split; [done|apply act_frame_refl]. }
  rewrite (repr_mod _ _ _ Hr). wp_step. eapply wp_zoom; [done|].
  destruct (decide (alen q = rq_max_capacity (ac_requests a))) as [Hfull|Hnf].
  { (* the loop finds [tail == head] at once *)
    assert (Ht : rq_head (ac_requests a) = rq_tail (ac_requests a)).
    { rewrite (rr_head _ _ Hr), <- Hs0, Hfull. unfold slot_of.
      rewrite <- (Z.mul_1_l (rq_max_capacity (ac_requests a))) at 1.
      rewrite Z.mod_add by lia. f_equal. lia. }
    rewrite Ht. destruct (Z.to_nat _); simpl; rewrite Z.eqb_refl; do 2 wp_step;
      (split; [done|]; rewrite bool_decide_true by done; by destruct a as [??????????[] ?]). }
  pose proof (rr_bound _ _ Hr). rewrite bool_decide_false by done.
  assert (Hnext : (rq_tail (ac_requests a) + 1) `mod` rq_max_capacity (ac_requests a) =
                  slot_of (ac_requests a) (0 + 1)) by done.
  rewrite Hnext, <- Hs0.
  eapply wp_mono; [eapply (request_clear_loop_spec _ q p _ 0 false); try done; try lia|].
  { split; [done|]. intros k Hk Hq. apply aget_lt in Hq. lia. }
  intros c f Hinv. destruct c; simpl in Hinv.
  - destruct Hinv as (i & Hi & Hip & _ & Hsh).
    destruct (aget_is_Some (ac_ports a) p) as [x Hx]; [by rewrite (ar_ports _ _ Ha)|].
    wp_step. wp_step. wp_step. eapply wp_port_update; [done|]. wp_step. split; [done|].
    assert (Hdel : delete (Z.to_nat i) q = filter (fun k => k <> p) q).
    { apply delete_filter; [apply (ar_nodup _ _ Ha)|]. unfold aget in Hip.
      by rewrite bool_decide_true in Hip by lia. }
    rewrite <- Hdel. apply (act_update a q _ p x); try done.
    + apply (repr_clear (ac_requests a) q i f); [done|lia|lia|done].
    + apply Forall_delete, (ar_range _ _ Ha).
    + rewrite Hdel. apply NoDup_filter, (ar_nodup _ _ Ha).
    + rewrite Hdel, bool_decide_false; [apply requested_clear|].
      rewrite list_elem_of_filter. by intros [? _].
    + intros k Hk. rewrite Hdel, list_elem_of_filter. tauto.
  - destruct Hinv as [-> Hno]. wp_step. split; [done|].
    rewrite filter_all.
    + replace (ac_set_requests _ _) with a by (by destruct a as [??????????[] ?]).
      split; [done|apply act_frame_refl].
    + apply Forall_forall. intros k Hk ->. apply elem_aget in Hk as [j Hj].
      apply (Hno j); [|done]. apply aget_lt in Hj. lia.
Qed.

(** ** Theorems *)

(** The ring buffer of write requests is a first-in first-out queue of port
    numbers: a request is appended unless the buffer is full, it is a port's turn when
    the port is at the head, completing a request takes the head off, and clearing a
    port takes it out of a buffer that is not full; the ports marked as requested are
    always those in the queue. *)
Theorem requests_queue a q p :
  act_reqs a q -> 0 ≤ p < ac_nports a ->
  (p ∉ q -> wp (do_request_operation p) (fun r a' =>
     (alen q = rq_max_capacity (ac_requests a) /\ r = err EBUSY /\ a' = a) \/
     (alen q < rq_max_capacity (ac_requests a) /\ r = 0 /\ act_reqs a' (q ++ [p]) /\ act_frame a a')) a) /\
  wp (do_request_verify p) (fun r a' => a' = a /\ r = bool_decide (head q = Some p)) a /\
  wp (do_request_complete p) (fun r a' =>
    match q with
    | k :: q' => if k =? p then r = 0 /\ act_reqs a' q' /\ act_frame a a' else r = err EINVAL /\ a' = a
    | [] => r = err EINVAL /\ a' = a
    end) a /\
  (alen q < rq_max_capacity (ac_requests a) -> wp (do_request_clear p) (fun r a' =>
     r = 0 /\ act_reqs a' (filter (fun k => k <> p) q) /\ act_frame a a') a).
Proof.
  intros Ha Hp. split_and!.
  - intros ?. by apply do_request_operation_spec.
  - by apply do_request_verify_spec.
  - by apply do_request_complete_spec.
  - intros Hlt. eapply wp_mono; [by apply do_request_clear_spec|].
    rewrite bool_decide_false by lia. done.
Qed.

(** When the buffer is full, clearing the request of a port does nothing and
    reports success: the port stays requested and keeps its slot. *)
Theorem do_request_clear_full a q p :
  act_reqs a q -> 0 ≤ p < ac_nports a -> alen q = rq_max_capacity (ac_requests a) -> p ∈ q ->
  wp (do_request_clear p) (fun r a' =>
    r = 0 /\ a' = a /\
    forall x, aget (ac_ports a') p = Some x -> port_is_requested x = true) a.
Proof.
  intros Ha Hp Hfull Hin. eapply wp_mono; [by apply do_request_clear_spec|].
  rewrite bool_decide_true by done. intros r a' [-> ->]. split_and!; try done.
  intros x Hx. rewrite (ar_flag _ _ Ha p x Hx). by apply bool_decide_true.
Qed.

End requests.

(** ** Instances *)

(** An endpoint with two ports: port 1 requested a write, or both did. *)
Definition act_small (requests : requests_fifo) (f0 f1 : Z) : active :=
  Active (RFlags true false false true) 0 0 0 0 2 8
    (PortPool [Port (RFlags true false false false) f0 (-1) None;
               Port (RFlags true false false false) f1 (-1) None] 2 2)
    pool_small pool_small requests false.

Definition act_half : active := act_small (RequestsFifo 0 1 2 1 [-1; 1]) 0 1.
Definition act_full : active := act_small (RequestsFifo 1 1 2 2 [0; 1]) 1 1.

Lemma two_cases (P : Z -> Prop) : P 0 -> P 1 -> forall j, 0 ≤ j < 2 -> P j.
Proof. intros H0 H1 j Hj. by assert (j = 0 \/ j = 1) as [->| ->] by lia. Qed.

Lemma act_small_flags requests f0 f1 (q : list Z) :
  (negb (Z.land f0 1 =? 0)) = bool_decide (0 ∈ q) -> (negb (Z.land f1 1 =? 0)) = bool_decide (1 ∈ q) ->
  forall p x, aget (ac_ports (act_small requests f0 f1)) p = Some x ->
  port_is_requested x = bool_decide (p ∈ q).
Proof.
  intros H0 H1 p x Hx. pose proof (aget_lt _ _ _ Hx) as Hp. revert p Hp x Hx.
  apply (two_cases (fun p => forall x, aget _ p = Some x -> port_is_requested x = bool_decide (p ∈ q)));
    by intros x [= <-].
Qed.

Lemma act_half_reqs : act_reqs act_half [1].
Proof.
  split.
  - split; try done; [by exists 1| |by apply Forall_singleton]. by apply two_cases.
  - done.
  - by apply Forall_singleton.
  - apply NoDup_singleton.
  - by apply act_small_flags.
Qed.

Lemma act_full_reqs : act_reqs act_full [1; 0].
Proof.
  split.
  - split; try done; [by exists 1|by apply two_cases|by apply Forall_cons; split; [|apply Forall_singleton]].
  - done.
  - by apply Forall_cons; split; [|apply Forall_singleton].
  - by apply (bool_decide_unpack _).
  - by apply act_small_flags.
Qed.

Lemma requests_queue_witness :
  (0 ∉ [1] -> wp (do_request_operation 0) (fun r a' =>
     (alen [1] = rq_max_capacity (ac_requests act_half) /\ r = err EBUSY /\ a' = act_half) \/
     (alen [1] < rq_max_capacity (ac_requests act_half) /\ r = 0 /\ act_reqs a' ([1] ++ [0]) /\
      act_frame act_half a')) act_half) /\
  wp (do_request_verify 0) (fun r a' => a' = act_half /\ r = bool_decide (head [1] = Some 0)) act_half /\
  wp (do_request_complete 0) (fun r a' => r = err EINVAL /\ a' = act_half) act_half /\
  (alen [1] < rq_max_capacity (ac_requests act_half) -> wp (do_request_clear 0) (fun r a' =>
     r = 0 /\ act_reqs a' (filter (fun k => k <> 0) [1]) /\ act_frame act_half a') act_half).
Proof.
  apply (requests_queue act_half [1] 0); [exact act_half_reqs|].
  split; [discriminate|reflexivity].
Defined.

Lemma do_request_clear_full_witness :
  wp (do_request_clear 0) (fun r a' =>
    r = 0 /\ a' = act_full /\
    forall x, aget (ac_ports a') 0 = Some x -> port_is_requested x = true) act_full.
Proof.
  apply (do_request_clear_full act_full [1; 0] 0).
  - exact act_full_reqs.
  - split; [discriminate|reflexivity].
  - reflexivity.
  - right. left.
Defined.
