(* ===== verification/Active.v ===== *)
(** Actives: the communication endpoints shared by mailboxes and portals
    (src/kernel/noc/active.{c,h}).

    An active stands for a hardware mailbox or portal; several ports are multiplexed
    over it.  The hardware, the clock and the topology belong to the HAL, which is not
    part of the repository: they are the class [NocHw] and the functions of
    [active_functions].  [active_wait] releases the lock of the active while it waits
    for the hardware, so it is made of the two parts [active_wait_begin] and
    [active_wait_end], between which other operations may run. *)

From S2P Require Import Prelude.
From S2P Require Import Hlib.
From S2P Require Import Mbuffer.
From S2P Require Import Requests.

(** ** Constants *)

Definition ACTIVE_FLAGS_ALLOWED : Z := Z.shiftl 1 0.
Definition ACTIVE_LADDRESS_COMPOSE (fd port nports : Z) : Z := fd * (nports + 1) + port.
Definition ACTIVE_TYPE_INPUT : Z := 0.
Definition ACTIVE_TYPE_OUTPUT : Z := 1.
Definition ACTIVE_COMM_SUCCESS : Z := 0.
Definition ACTIVE_COMM_AGAIN : Z := 1.
Definition ACTIVE_COMM_RECEIVED : Z := 2.
Definition ACTIVE_ANY_SRC : Z := -1.

Record active_config := ActiveConfig {
  cfg_fd : Z;
  local_addr : Z;
  remote_addr : Z;
  cfg_buffer : Z;
  cfg_size : Z;
}.

Record pstats := Pstats { volume : Z; latency : Z }.

(** ** The hardware *)

Class NocHw := {
  hw : Type;
  clock_read : hw -> Z * hw;
  node_is_local : Z -> bool;
}.

(** The function table.  A hardware buffer is an index of the array of mbuffers; the
    completion of an operation may write the buffers it was given. *)
Record active_functions `{Hlib} `{NocHw} := ActiveFunctions {
  do_create : Z -> hw -> Z * hw;
  do_open : Z -> Z -> hw -> Z * hw;
  do_allow : active -> Z -> hw -> Z * hw;
  do_aread : Z -> Z -> Z -> hw -> Z * hw;
  do_awrite : Z -> mbuffer_message -> Z -> hw -> Z * hw;
  do_wait : Z -> hw -> Z * list (Z * mbuffer_message) * hw;
  do_header_config : mbuffer -> active_config -> mbuffer;
  do_header_check : mbuffer -> active_config -> bool;
  get_actid : Z -> Z;
  get_portid : Z -> Z;
}.

(** ** State: a pool of actives, its buffers, and what it shares with the rest *)

Record noc `{Hlib} `{NocHw} := Noc {
  bufs : mbuffers;
  actives : list active;
  clock_error : Z;
  umem : gmap Z Z;
  hwst : hw;
}.
Arguments Noc {_ _} bufs actives clock_error umem hwst.

Section active.
Context `{H : Hlib} `{N : NocHw}.

Definition set_bufs (x : mbuffers) (s : noc) : noc := Noc x (actives s) (clock_error s) (umem s) (hwst s).
Definition set_actives (x : list active) (s : noc) : noc := Noc (bufs s) x (clock_error s) (umem s) (hwst s).
Definition set_clock_error (x : Z) (s : noc) : noc := Noc (bufs s) (actives s) x (umem s) (hwst s).
Definition set_umem (x : gmap Z Z) (s : noc) : noc := Noc (bufs s) (actives s) (clock_error s) x (hwst s).
Definition set_hwst (x : hw) (s : noc) : noc := Noc (bufs s) (actives s) (clock_error s) (umem s) x.

Definition with_bufs {A} (m : K mbuffers A) : K noc A := kzoom (fun s => Some (bufs s)) set_bufs m.

Definition with_active {A} (i : Z) (m : K active A) : K noc A :=
  kzoom (fun s => aget (actives s) i) (fun a s => set_actives (aset i a (actives s)) s) m.

Definition with_hw {A} (f : hw -> A * hw) : K noc A :=
  r ← kgets (fun s => f (hwst s));
  kmodify (set_hwst (snd r));;
  mret (fst r).

Definition read_clock : K noc Z := with_hw clock_read.

Definition active_read (i : Z) : K noc active := with_active i (kgets (fun a => a)).
Definition lock_active (i : Z) : K noc unit := with_active i (spinlock_lock ac_lock ac_set_lock).
Definition unlock_active (i : Z) : K noc unit := with_active i (spinlock_unlock ac_set_lock).

Definition buf_read (i : Z) : K noc mbuffer :=
  o ← kgets (fun s => aget (mbuf (bufs s)) i); kunwrap o.
Definition buf_update (i : Z) (f : mbuffer -> mbuffer) : K noc unit :=
  b ← buf_read i;
  with_bufs (kmodify (fun s => set_mbuf (aset i (f b) (mbuf s)) s)).

(** [kmemcpy] from the data of a buffer to memory and back; the buffer ends where its
    data ends. *)
Definition copy_to_user (buffer size : Z) (data : list Z) : K noc unit :=
  if size <=? alen data
  then kmodify (fun s => set_umem (mem_write buffer (take (Z.to_nat size) data) (umem s)) s)
  else kfault.

Definition copy_from_user (buffer size : Z) (data : list Z) : K noc (list Z) :=
  if size <=? alen data
  then bytes ← kgets (fun s => mem_read (umem s) buffer (Z.to_nat size));
       mret (bytes ++ drop (Z.to_nat size) data)
  else kfault.

Definition ACTIVE_COMPUTE_LATENCY (t1 t2 err : Z) : Z := u64 (u64 (t2 - t1) - err).

Definition compute_latency (t1 t2 : Z) : K noc Z :=
  e ← kgets clock_error; mret (ACTIVE_COMPUTE_LATENCY t1 t2 e).

(** ** Flags *)

Definition active_set_allowed (a : active) : active :=
  ac_set_flags (Z.lor (ac_flags a) ACTIVE_FLAGS_ALLOWED) a.
Definition active_set_notallowed (a : active) : active :=
  ac_set_flags (Z.land (ac_flags a) (Z.lnot ACTIVE_FLAGS_ALLOWED)) a.
Definition active_is_allowed (a : active) : bool :=
  negb (Z.land (ac_flags a) ACTIVE_FLAGS_ALLOWED =? 0).

Section operations.
Context (fn : active_functions).

(** ** Calls and searches *)

Definition active_valid_call (fd : Z) : K noc bool :=
  n ← kgets (fun s => alen (actives s));
  let actid := get_actid fn fd in
  if negb (WITHIN actid 0 n) then mret false else
  let portid := get_portid fn fd in
  a ← active_read actid;
  mret (WITHIN portid 0 (ac_nports a)).

Definition active_search (local remote type : Z) : K noc Z :=
  n ← kgets (fun s => alen (actives s));
  kfor (Z.to_nat n) 0 (fun i ret =>
    lock_active i;;
    a ← active_read i;
    let skip :=
      if negb (resource_is_used (ac_resource a)) then true
      else if (type =? ACTIVE_TYPE_INPUT) && negb (resource_is_readable (ac_resource a)) then true
      else if (type =? ACTIVE_TYPE_OUTPUT) && negb (resource_is_writable (ac_resource a)) then true
      else negb (ac_local a =? local) || negb (ac_remote a =? remote) in
    unlock_active i;;
    mret (if skip then (ret, false) else (i, true))) (err EBUSY).

(** ** Ports of an active *)

(** The body of [active_alloc] under the lock. *)
Definition active_alloc_port (actid portid type : Z) : K active Z :=
  a ← kgets (fun a => a);
  r ← (if type =? ACTIVE_TYPE_OUTPUT then
         p ← portpool_choose_port (ac_portpool a);
         mret (if p <? 0 then inl p else inr p)
       else mret (if negb (WITHIN portid 0 (ac_nports a)) then inl (err EINVAL) else inr portid));
  match r : Z + Z with
  | inl e => mret e
  | inr portid =>
      p ← port_read portid;
      if negb (resource_is_used (pt_resource p)) then
        port_update portid (fun p => pt_set_resource (resource_set_used (pt_resource p)) (pt_set_flags 0 p));;
        kmodify (fun a => ac_set_refcount (ac_refcount a + 1) a);;
        kmodify (fun a => ac_set_portpool (pp_set_used (used_ports (ac_portpool a) + 1) (ac_portpool a)) a);;
        mret (ACTIVE_LADDRESS_COMPOSE actid portid (ac_nports a))
      else mret (err EBUSY)
  end.

Definition active_alloc (local remote portid type : Z) : K noc Z :=
  actid ← active_search local remote type;
  if actid <? 0 then mret actid else
  lock_active actid;;
  ret ← with_active actid (active_alloc_port actid portid type);
  unlock_active actid;;
  mret ret.

Definition active_release (id : Z) : K noc Z :=
  ok ← active_valid_call id;
  KASSERT ok;;
  let actid := get_actid fn id in
  let portid := get_portid fn id in
  lock_active actid;;
  a ← active_read actid;
  ret ← (
    if negb (resource_is_used (ac_resource a)) then mret (err EBADF) else
    pending ← (if resource_is_readable (ac_resource a) then
                 let dest := ACTIVE_LADDRESS_COMPOSE (ac_local a) portid (ac_nports a) in
                 r ← with_bufs (mbuffer_search (ac_mbufferpool a) dest ACTIVE_ANY_SRC);
                 mret (0 <=? r)
               else mret false);
    if (pending : bool) then mret (err EBUSY) else
    p ← with_active actid (port_read portid);
    if resource_is_used (pt_resource p) then
      with_active actid (
        port_update portid (fun p => pt_set_resource (resource_set_unused (pt_resource p)) p);;
        kmodify (fun a => ac_set_refcount (ac_refcount a - 1) a);;
        kmodify (fun a => ac_set_portpool (pp_set_used (used_ports (ac_portpool a) - 1) (ac_portpool a)) a));;
      mret 0
    else mret (err EINVAL));
  unlock_active actid;;
  mret ret.

(** ** Reading *)

Definition stats_add (size lat : Z) (st : pstats) : pstats :=
  Pstats (u64 (volume st + size)) (u64 (latency st + lat)).

(** Delivery of a message that is already stored in buffer [mbufferid] of [pool]. *)
Definition aread_stored (pool : mbuffer_pool) (mbufferid : Z) (config : active_config) (stats : pstats)
  : K noc (Z * pstats) :=
  i ← with_bufs (mbuffer_get (Some pool) mbufferid);
  t1 ← read_clock;
  buf ← buf_read i;
  copy_to_user (cfg_buffer config) (cfg_size config) (msg_data (mb_message buf));;
  t2 ← read_clock;
  l ← compute_latency t1 t2;
  (if (0 <=? mb_actid buf) && (0 <=? mb_portid buf) then
     r ← with_active (mb_actid buf) (do_request_clear (mb_portid buf));
     KASSERT (r =? 0)
   else mret tt);;
  r ← with_bufs (mbuffer_release (Some pool) mbufferid MBUFFER_DISCARD_MESSAGE);
  KASSERT (r =? 0);;
  mret (ACTIVE_COMM_RECEIVED, stats_add (cfg_size config) (u64 (mb_latency buf + l)) stats).

(** Setup of a read of the hardware. *)
Definition aread_setup (actid portid remote : Z) (a : active) : K noc Z :=
  r ← with_hw (do_allow fn a remote);
  if r <? 0 then mret r else
  with_active actid (kmodify (fun a => ac_set_remote remote (active_set_allowed a)));;
  mbufferid ← with_bufs (mbuffer_alloc (ac_mbufferpool a));
  if mbufferid <? 0 then mret mbufferid else
  with_active actid (port_update portid (pt_set_mbuffer mbufferid (Some (ac_mbufferpool a))));;
  i ← with_bufs (mbuffer_get (Some (ac_mbufferpool a)) mbufferid);
  t1 ← read_clock;
  r ← with_hw (do_aread fn (ac_hwfd a) i (ac_size a));
  if r <? 0 then
    r' ← with_bufs (mbuffer_release (Some (ac_mbufferpool a)) mbufferid MBUFFER_DISCARD_MESSAGE);
    KASSERT (r' =? 0);;
    with_active actid (port_update portid (pt_set_mbuffer (-1) None));;
    mret r
  else
  t2 ← read_clock;
  with_active actid (kmodify (fun a => active_set_notallowed (ac_set_remote (-1) a)));;
  l ← compute_latency t1 t2;
  buf_update i (mb_set_latency l);;
  with_active actid (kmodify (fun a => ac_set_resource (resource_set_busy (ac_resource a)) a));;
  mret ACTIVE_COMM_SUCCESS.

Definition active_aread (id : Z) (config : active_config) (stats : pstats) : K noc (Z * pstats) :=
  ok ← active_valid_call id;
  KASSERT ok;;
  let actid := get_actid fn id in
  let portid := get_portid fn id in
  let remote := get_actid fn (remote_addr config) in
  let comm_is_local := node_is_local remote in
  lock_active actid;;
  a ← active_read actid;
  p ← with_active actid (port_read portid);
  res ← (
    if negb (resource_is_used (pt_resource p)) then mret (err EBADF, stats) else
    let bufferpool := if comm_is_local then ac_mbufferpool_aux a else ac_mbufferpool a in
    mbufferid ← with_bufs (mbuffer_search bufferpool (local_addr config) (remote_addr config));
    if 0 <=? mbufferid then aread_stored bufferpool mbufferid config stats else
    if comm_is_local then mret (err ENOMSG, stats) else
    if resource_is_busy (ac_resource a) then mret (err EBUSY, stats) else
    r ← aread_setup actid portid remote a;
    mret (r, stats));
  unlock_active actid;;
  mret res.

(** ** Writing *)

(** Allocation of the buffer of a write: on failure the error code, otherwise the pool
    and the identifier. *)
Definition awrite_buffer (actid portid : Z) (forward : bool) (a : active) (p : port)
  : K noc (Z + mbuffer_pool * Z) :=
  r ← (if forward then
         if port_is_requested p then mret (Some (err EBUSY)) else
         r ← with_active actid (do_request_operation portid);
         mret (if r <? 0 then Some (err EBUSY) else None)
       else mret None);
  match r : option Z with
  | Some e => mret (inl e)
  | None =>
      let pool := if forward then ac_mbufferpool_aux a else ac_mbufferpool a in
      mbufferid ← with_bufs (mbuffer_alloc pool);
      mret (if mbufferid <? 0 then inl mbufferid else inr (pool, mbufferid))
  end.

(** The part of a write that hands a prepared buffer to the hardware when it is the
    port's turn. *)
Definition awrite_send (actid portid i : Z) : K noc Z :=
  p ← with_active actid (port_read portid);
  r ← (if negb (port_is_requested p)
       then r ← with_active actid (do_request_operation portid); mret (r <? 0)
       else mret false);
  if (r : bool) then mret (err EBUSY) else
  turn ← with_active actid (do_request_verify portid);
  if negb turn then mret (err EBUSY) else
  a ← active_read actid;
  if resource_is_busy (ac_resource a) then mret (err EBUSY) else
  t1 ← read_clock;
  buf ← buf_read i;
  r ← with_hw (do_awrite fn (ac_hwfd a) (mb_message buf) (ac_size a));
  if r <? 0 then mret r else
  t2 ← read_clock;
  l ← compute_latency t1 t2;
  buf_update i (mb_set_latency l);;
  with_active actid (kmodify (fun a => ac_set_resource (resource_set_busy (ac_resource a)) a));;
  mret ACTIVE_COMM_SUCCESS.

(** Filling a buffer with the message of the user. *)
Definition awrite_fill (i : Z) (config : active_config) : K noc unit :=
  buf_update i (fun b => do_header_config fn b config);;
  t1 ← read_clock;
  buf ← buf_read i;
  data ← copy_from_user (cfg_buffer config) (cfg_size config) (msg_data (mb_message buf));
  buf_update i (fun b => mb_set_message (MbufferMessage (msg_header (mb_message b)) data) b);;
  t2 ← read_clock;
  l ← compute_latency t1 t2;
  buf_update i (mb_set_latency l).

Definition active_awrite (id : Z) (config : active_config) (stats : pstats) : K noc (Z * pstats) :=
  ok ← active_valid_call id;
  KASSERT ok;;
  let actid := get_actid fn id in
  let portid := get_portid fn id in
  a0 ← active_read actid;
  let forward := node_is_local (ac_remote a0) in
  lock_active actid;;
  a ← active_read actid;
  p ← with_active actid (port_read portid);
  res ← (
    if negb (resource_is_used (pt_resource p)) then mret (err EINVAL, stats) else
    if pt_mbufferid p <? 0 then
      r ← awrite_buffer actid portid forward a p;
      match r : Z + mbuffer_pool * Z with
      | inl e => mret (e, stats)
      | inr (pool, mbufferid) =>
          i ← with_bufs (mbuffer_get (Some pool) mbufferid);
          awrite_fill i config;;
          if forward then
            buf_update i (mb_set_sender actid portid);;
            with_bufs (mbuffer_release (Some pool) mbufferid MBUFFER_KEEP_MESSAGE);;
            buf ← buf_read i;
            mret (ACTIVE_COMM_RECEIVED, stats_add (cfg_size config) (mb_latency buf) stats)
          else
            with_active actid (port_update portid (pt_set_mbuffer mbufferid (Some pool)));;
            r ← awrite_send actid portid i;
            mret (r, stats)
      end
    else
      i ← with_bufs (mbuffer_get (pt_mbufferpool p) (pt_mbufferid p));
      r ← awrite_send actid portid i;
      mret (r, stats));
  unlock_active actid;;
  mret res.

(** ** Waiting *)

(** Up to the wait for the hardware: the error code, or the buffer of the port. *)
Definition active_wait_begin (id : Z) : K noc (Z + Z) :=
  ok ← active_valid_call id;
  KASSERT ok;;
  let actid := get_actid fn id in
  let portid := get_portid fn id in
  lock_active actid;;
  a ← active_read actid;
  p ← with_active actid (port_read portid);
  res ← (
    if negb (resource_is_used (pt_resource p)) then mret (inl (err EBADF)) else
    if negb (resource_is_busy (ac_resource a)) then mret (inl (err EBADF)) else
    if pt_mbufferid p <? 0 then mret (inl (err EBADF)) else
    bad ← (if resource_is_writable (ac_resource a)
           then turn ← with_active actid (do_request_verify portid); mret (negb turn)
           else mret false);
    mret (if (bad : bool) then inl (err EBADF) else inr (pt_mbufferid p)));
  unlock_active actid;;
  mret res.

(** The hardware completes the operation and writes the buffers it was given. *)
Definition active_wait_hw (hwfd : Z) : K noc Z :=
  r ← with_hw (fun h => let '(ret, ws, h') := do_wait fn hwfd h in ((ret, ws), h'));
  kmodify (fun s => set_bufs (foldr (fun (w : Z * mbuffer_message) t =>
    match aget (mbuf t) w.1 with
    | Some b => set_mbuf (aset w.1 (mb_set_message w.2 b) (mbuf t)) t
    | None => t
    end) (bufs s) (snd r)) s);;
  mret (fst r).

(** The end of a wait: the buffer is released and the active becomes available. *)
Definition wait_release (actid portid : Z) (pool : option mbuffer_pool) (mbufferid keep_rule : Z)
  : K noc unit :=
  with_bufs (mbuffer_release pool mbufferid keep_rule);;
  with_active actid (port_update portid (pt_set_mbuffer (-1) None));;
  with_active actid (kmodify (fun a => ac_set_resource (resource_set_notbusy (ac_resource a)) a));;
  unlock_active actid.

(** After the wait: [ret] is the result of the hardware, [mbufferid] the buffer. *)
Definition active_wait_end (id mbufferid ret t1 t2 : Z) (config : active_config) (stats : pstats)
  : K noc (Z * pstats) :=
  let actid := get_actid fn id in
  let portid := get_portid fn id in
  lock_active actid;;
  a ← active_read actid;
  p ← with_active actid (port_read portid);
  res ← (
    if ret =? 0 then
      i ← with_bufs (mbuffer_get (pt_mbufferpool p) mbufferid);
      l ← compute_latency t1 t2;
      buf_update i (fun b => mb_set_latency (u64 (mb_latency b + l)) b);;
      r ← (
        if resource_is_readable (ac_resource a) then
          buf ← buf_read i;
          let dest := h_dest (msg_header (mb_message buf)) in
          if do_header_check fn buf config then
            t1 ← read_clock;
            copy_to_user (cfg_buffer config) (cfg_size config) (msg_data (mb_message buf));;
            t2 ← read_clock;
            l ← compute_latency t1 t2;
            buf_update i (fun b => mb_set_latency (u64 (mb_latency b + l)) b);;
            mret (ACTIVE_COMM_SUCCESS, MBUFFER_DISCARD_MESSAGE)
          else
            q ← kunwrap (aget (ac_ports a) (get_portid fn dest));
            mret (ACTIVE_COMM_AGAIN, Z.b2z (resource_is_used (pt_resource q)))
        else if resource_is_writable (ac_resource a) then
          r ← with_active actid (do_request_complete portid);
          KASSERT (r =? 0);;
          mret (ACTIVE_COMM_SUCCESS, MBUFFER_DISCARD_MESSAGE)
        else mret (ACTIVE_COMM_SUCCESS, MBUFFER_DISCARD_MESSAGE));
      buf ← buf_read i;
      mret (fst r, snd r,
            if fst r =? ACTIVE_COMM_SUCCESS
            then stats_add (cfg_size config) (mb_latency buf) stats else stats)
    else mret (ret, MBUFFER_DISCARD_MESSAGE, stats));
  let '(ret, keep_rule, stats) := res : Z * Z * pstats in
  wait_release actid portid (pt_mbufferpool p) mbufferid keep_rule;;
  mret (ret, stats).

Definition active_wait (id : Z) (config : active_config) (stats : pstats) : K noc (Z * pstats) :=
  r ← active_wait_begin id;
  match r : Z + Z with
  | inl e => mret (e, stats)
  | inr mbufferid =>
      a ← active_read (get_actid fn id);
      t1 ← read_clock;
      ret ← active_wait_hw (ac_hwfd a);
      t2 ← read_clock;
      active_wait_end id mbufferid ret t1 t2 config stats
  end.

(** ** Creation *)

Definition _active_alloc : K noc (option Z) :=
  n ← kgets (fun s => alen (actives s));
  kfor (Z.to_nat n) 0 (fun i ret =>
    a ← active_read i;
    if negb (resource_is_used (ac_resource a)) then
      with_active i (kmodify (ac_set_resource (resource_set_used RESOURCE_INITIALIZER)));;
      mret (Some i, true)
    else mret (ret, false)) None.

Definition _active_free (id : Z) : K noc unit :=
  with_active id (kmodify (fun a => ac_set_resource (resource_set_unused (ac_resource a)) a)).

(** Initialisation of an active that was just allocated. *)
Definition active_init (hwfd local remote : Z) (set_mode : resource -> resource) (a : active) : active :=
  Active (resource_set_notbusy (set_mode (ac_resource a))) 0 hwfd local remote 0 (ac_size a)
    (ac_portpool a) (ac_mbufferpool a) (ac_mbufferpool_aux a) (ac_requests a) (ac_lock a).

Definition _active_create (local : Z) : K noc Z :=
  actid ← active_search local (-1) ACTIVE_TYPE_INPUT;
  if 0 <=? actid then mret actid else
  o ← _active_alloc;
  match o : option Z with
  | None => mret (err EAGAIN)
  | Some i =>
      hwfd ← with_hw (do_create fn local);
      if hwfd <? 0 then _active_free i;; mret hwfd else
      with_active i (kmodify (active_init hwfd local (-1) resource_set_rdonly));;
      mret i
  end.

Definition _active_open (local remote : Z) : K noc Z :=
  e ← kgets clock_error;
  (if e =? 0 then
     t1 ← read_clock;
     t2 ← read_clock;
     kmodify (set_clock_error (u64 (t2 - t1)))
   else mret tt);;
  actid ← active_search local remote ACTIVE_TYPE_OUTPUT;
  if 0 <=? actid then mret actid else
  o ← _active_alloc;
  match o : option Z with
  | None => mret (err EAGAIN)
  | Some i =>
      r ← (if node_is_local local && negb (node_is_local remote) then
             hwfd ← with_hw (do_open fn local remote);
             if hwfd <? 0 then _active_free i;; mret (inl hwfd) else mret (inr hwfd)
           else if negb (node_is_local local) then mret (inl (err EINVAL))
           else mret (inr (err EINVAL)));
      match r : Z + Z with
      | inl e => mret e
      | inr hwfd =>
          with_active i (kmodify (active_init hwfd local remote resource_set_wronly));;
          mret i
      end
  end.

End operations.
End active.
