(* ===== verification/ActiveSpec.v ===== *)
(** Behaviour of the operations on actives: local delivery of messages, ports, and
    the requests left behind by failed writes. *)

From S2P Require Import Prelude.
From S2P Require Import Hlib.
From S2P Require Import Mbuffer.
From S2P Require Import Requests.
From S2P Require Import Active.

Section spec.
Context `{H : Hlib} `{N : NocHw} (fn : active_functions).
Context {HL : HlibLaws H}.

(** ** Rules *)

Lemma wp_with_bufs {A} (m : K mbuffers A) (Q : A -> noc -> Prop) s :
  wp m (fun a t => Q a (set_bufs t s)) (bufs s) -> wp (with_bufs m) Q s.
Proof. intros Hm. unfold with_bufs. by eapply wp_zoom. Qed.

Lemma wp_with_active {A} i (m : K active A) (Q : A -> noc -> Prop) a s :
  aget (actives s) i = Some a ->
  wp m (fun r a' => Q r (set_actives (aset i a' (actives s)) s)) a -> wp (with_active i m) Q s.
Proof. intros Ha Hm. unfold with_active. by eapply wp_zoom. Qed.

Lemma wp_with_hw {A} (f : hw -> A * hw) (Q : A -> noc -> Prop) s :
  Q (fst (f (hwst s))) (set_hwst (snd (f (hwst s))) s) -> wp (with_hw f) Q s.
Proof. done. Qed.

Lemma set_actives_id i a s : aget (actives s) i = Some a -> set_actives (aset i a (actives s)) s = s.
Proof. intros Ha. rewrite aset_id by done. by destruct s. Qed.

Lemma wp_active_read i a (Q : active -> noc -> Prop) s :
  aget (actives s) i = Some a -> Q a s -> wp (active_read i) Q s.
Proof.
  intros Ha HQ. unfold active_read. eapply wp_with_active; [done|]. wp_step.
  by rewrite set_actives_id.
Qed.

Lemma wp_port_read p x (Q : port -> active -> Prop) a :
  aget (ac_ports a) p = Some x -> Q x a -> wp (port_read p) Q a.
Proof. intros Hx HQ. unfold port_read. wp_step. wp_step. by eapply wp_unwrap. Qed.

Lemma wp_active_port_read i p x a (Q : port -> noc -> Prop) s :
  aget (actives s) i = Some a -> aget (ac_ports a) p = Some x -> Q x s ->
  wp (with_active i (port_read p)) Q s.
Proof.
  intros Ha Hx HQ. eapply wp_with_active; [done|]. eapply wp_port_read; [done|].
  by rewrite set_actives_id.
Qed.

Lemma wp_buf_read i b (Q : mbuffer -> noc -> Prop) s :
  aget (mbuf (bufs s)) i = Some b -> Q b s -> wp (buf_read i) Q s.
Proof. intros Hb HQ. unfold buf_read. wp_step. wp_step. by eapply wp_unwrap. Qed.

Lemma wp_buf_update i b f (Q : unit -> noc -> Prop) s :
  aget (mbuf (bufs s)) i = Some b ->
  Q tt (set_bufs (set_mbuf (aset i (f b) (mbuf (bufs s))) (bufs s)) s) ->
  wp (buf_update i f) Q s.
Proof.
  intros Hb HQ. unfold buf_update. wp_step. eapply wp_buf_read; [done|].
  apply wp_with_bufs. by wp_step.
Qed.

Lemma wp_lock_active i a (Q : unit -> noc -> Prop) s :
  aget (actives s) i = Some a -> ac_lock a = false ->
  Q tt (set_actives (aset i (ac_set_lock true a) (actives s)) s) -> wp (lock_active i) Q s.
Proof. intros Ha Hl HQ. unfold lock_active. eapply wp_with_active; [done|]. by wp_step. Qed.

Lemma wp_unlock_active i a (Q : unit -> noc -> Prop) s :
  aget (actives s) i = Some a ->
  Q tt (set_actives (aset i (ac_set_lock false a) (actives s)) s) -> wp (unlock_active i) Q s.
Proof. intros Ha HQ. unfold unlock_active. eapply wp_with_active; [done|]. by wp_step. Qed.

Lemma wp_read_clock (Q : Z -> noc -> Prop) s :
  (forall t h, Q t (set_hwst h s)) -> wp read_clock Q s.
Proof. intros HQ. unfold read_clock. apply wp_with_hw. apply HQ. Qed.

Lemma wp_compute_latency t1 t2 (Q : Z -> noc -> Prop) s :
  (forall l, Q l s) -> wp (compute_latency t1 t2) Q s.
Proof. intros HQ. unfold compute_latency. wp_step. wp_step. wp_step. apply HQ. Qed.

Lemma wp_mbuffer_get pool id (Q : Z -> noc -> Prop) s :
  0 ≤ id < nmbuffers pool -> Q (pool_base pool + id) s ->
  wp (with_bufs (mbuffer_get (Some pool) id)) Q s.
Proof.
  intros Hid HQ. apply wp_with_bufs. unfold mbuffer_get. wp_step. wp_step; [by apply WITHIN_true|].
  wp_step. by destruct s.
Qed.

Lemma wp_copy_to_user buffer size data (Q : unit -> noc -> Prop) s :
  size ≤ alen data ->
  Q tt (set_umem (mem_write buffer (take (Z.to_nat size) data) (umem s)) s) ->
  wp (copy_to_user buffer size data) Q s.
Proof.
  intros Hsz HQ. unfold copy_to_user. rewrite (proj2 (Z.leb_le _ _)) by done. by wp_step.
Qed.

(** A valid identifier of a port. *)
Definition valid_id (id : Z) (s : noc) (a : active) (p : port) : Prop :=
  aget (actives s) (get_actid fn id) = Some a /\
  aget (ac_ports a) (get_portid fn id) = Some p /\
  0 ≤ get_portid fn id < ac_nports a.

Lemma wp_valid_call id a p (Q : bool -> noc -> Prop) s :
  valid_id id s a p -> Q true s -> wp (active_valid_call fn id) Q s.
Proof.
  intros (Ha & _ & Hp) HQ. unfold active_valid_call. wp_step. wp_step.
  rewrite (proj2 (WITHIN_true _ _ _) (aget_lt _ _ _ Ha)). simpl.
  wp_step. eapply wp_active_read; [done|]. wp_step.
  by rewrite (proj2 (WITHIN_true _ _ _) Hp).
Qed.

Lemma ac_unlock_lock a : ac_lock a = false -> ac_set_lock false (ac_set_lock true a) = a.
Proof. destruct a. simpl. by intros ->. Qed.

(** ** Forwarding a message to a local port *)

Hypothesis header_config_dest : forall b c,
  h_dest (msg_header (mb_message (do_header_config fn b c))) = remote_addr c.
Hypothesis header_config_src : forall b c,
  h_src (msg_header (mb_message (do_header_config fn b c))) = local_addr c.
Hypothesis header_config_rest : forall b c,
  mb_resource (do_header_config fn b c) = mb_resource b /\
  msg_data (mb_message (do_header_config fn b c)) = msg_data (mb_message b).

(** What a message forwarded by port [portid] of active [actid] looks like. *)
Record forwarded (actid portid : Z) (c : active_config) (bytes : list Z) (b : mbuffer) : Prop := {
  fw_stored : mb_stored b = true;
  fw_dest : h_dest (msg_header (mb_message b)) = remote_addr c;
  fw_src : h_src (msg_header (mb_message b)) = local_addr c;
  fw_data : take (length bytes) (msg_data (mb_message b)) = bytes;
  fw_len : (length bytes ≤ length (msg_data (mb_message b)))%nat;
  fw_sender : mb_actid b = actid /\ mb_portid b = portid;
}.

Definition user_bytes (s : noc) (c : active_config) : list Z :=
  mem_read (umem s) (cfg_buffer c) (Z.to_nat (cfg_size c)).

Lemma awrite_fill_spec i c b s :
  aget (mbuf (bufs s)) i = Some b -> 0 ≤ cfg_size c ≤ alen (msg_data (mb_message b)) ->
  wp (awrite_fill fn i c) (fun _ s' =>
    exists b' h, s' = set_hwst h (set_bufs (set_mbuf (aset i b' (mbuf (bufs s))) (bufs s)) s) /\
      mb_resource b' = mb_resource b /\
      h_dest (msg_header (mb_message b')) = remote_addr c /\
      h_src (msg_header (mb_message b')) = local_addr c /\
      msg_data (mb_message b') =
        user_bytes s c ++ drop (Z.to_nat (cfg_size c)) (msg_data (mb_message b))) s.
Proof.
  intros Hb Hsz. unfold awrite_fill, copy_from_user.
  destruct (header_config_rest b c) as [Hres Hdata].
  wp_step. eapply wp_buf_update; [done|]. wp_step. apply wp_read_clock. intros t1 h1.
  wp_step. eapply wp_buf_read; [simpl; by eapply aget_aset_same|]. rewrite Hdata.
  rewrite (proj2 (Z.leb_le _ _)) by lia. wp_step. wp_step. wp_step. wp_step.
  wp_step. eapply wp_buf_update; [simpl; by eapply aget_aset_same|].
  wp_step. apply wp_read_clock. intros t2 h2. wp_step. apply wp_compute_latency. intros l.
  eapply wp_buf_update; [simpl; by eapply aget_aset_same; eapply aget_aset_same|].
  eexists _, h2. split.
  { unfold set_hwst, set_bufs, set_mbuf. simpl. rewrite !aset_aset_eq. reflexivity. }
  simpl. split_and!; auto.
Qed.

Lemma take_user_bytes s c d :
  take (length (user_bytes s c)) (user_bytes s c ++ d) = user_bytes s c.
Proof. by rewrite take_app_length. Qed.

Lemma awrite_buffer_forward actid portid a p q s :
  aget (actives s) actid = Some a -> aget (ac_ports a) portid = Some p ->
  act_reqs a q -> 0 ≤ portid < ac_nports a -> portid ∉ q ->
  alen q < rq_max_capacity (ac_requests a) ->
  window_ok (ac_mbufferpool_aux a) (bufs s) -> mbuf_lock (bufs s) = false ->
  wp (awrite_buffer actid portid true a p) (fun r s' =>
    exists a1, act_reqs a1 (q ++ [portid]) /\ act_frame a a1 /\
      let s1 := set_actives (aset actid a1 (actives s)) s in
      ((r = inl (err EBUSY) /\ s' = s1 /\
        forall k b, 0 ≤ k < nmbuffers (ac_mbufferpool_aux a) ->
          aget (mbuf (bufs s)) (pool_base (ac_mbufferpool_aux a) + k) = Some b -> mb_used b = true) \/
       (exists k b0, r = inr (ac_mbufferpool_aux a, k) /\
          0 ≤ k < nmbuffers (ac_mbufferpool_aux a) /\
          aget (mbuf (bufs s)) (pool_base (ac_mbufferpool_aux a) + k) = Some b0 /\ mb_used b0 = false /\
          s' = set_bufs (set_mbuf (aset (pool_base (ac_mbufferpool_aux a) + k) (mbuffer_fresh b0)
                           (mbuf (bufs s))) (bufs s)) s1))) s.
Proof.
  intros Ha Hp Hreq Hpr Hnot Hcap Hwin Hml. unfold awrite_buffer.
  assert (port_is_requested p = false) as ->.
  { rewrite (ar_flag _ _ Hreq _ _ Hp). by apply bool_decide_false. }
  wp_step. wp_step. eapply wp_with_active; [done|].
  eapply wp_mono; [by apply (do_request_operation_spec _ q)|].
  intros r a1 [(Hfull & _)|(_ & -> & Hreq1 & Hfr)]; [lia|].
  wp_step. simpl. wp_step. apply wp_with_bufs. eapply wp_mono; [by apply mbuffer_alloc_spec|].
  intros k bs [(-> & -> & Hall)|(b0 & Hk & Hb0 & Hu0 & ->)]; wp_step;
    exists a1; split_and!; try done.
  - left. rewrite (proj2 (Z.ltb_lt _ 0) (err_neg EBUSY)). split_and!; [done| |done]. by destruct s.
  - right. rewrite (proj2 (Z.ltb_ge _ 0)) by lia. exists k, b0. split_and!; try done; lia.
Qed.

(** Filling the buffer and storing the message. *)
Lemma awrite_forward_store actid portid pool k c st b s :
  aget (mbuf (bufs s)) (pool_base pool + k) = Some b -> mb_resource b = resource_set_used RESOURCE_INITIALIZER ->
  window_ok pool (bufs s) -> 0 ≤ k < nmbuffers pool -> mbuf_lock (bufs s) = false ->
  0 ≤ cfg_size c ≤ alen (msg_data (mb_message b)) ->
  wp (awrite_fill fn (pool_base pool + k) c;;
      buf_update (pool_base pool + k) (mb_set_sender actid portid);;
      with_bufs (mbuffer_release (Some pool) k MBUFFER_KEEP_MESSAGE);;
      buf ← buf_read (pool_base pool + k);
      mret (ACTIVE_COMM_RECEIVED, stats_add (cfg_size c) (mb_latency buf) st))
     (fun r s' => fst r = ACTIVE_COMM_RECEIVED /\
        exists b' h, forwarded actid portid c (user_bytes s c) b' /\ mb_age b' = mbuf_age (bufs s) /\
          s' = set_hwst h (set_bufs (set_mbuf_age (u64 (mbuf_age (bufs s) + 1))
            (set_mbuf (aset (pool_base pool + k) b' (mbuf (bufs s))) (bufs s))) s)) s.
Proof.
  intros Hb Hres Hwin Hk Hml Hsz. set (i := pool_base pool + k) in *.
  wp_step. eapply wp_mono; [by eapply awrite_fill_spec|].
  intros _ s1 (b1 & h & -> & Hres1 & Hd1 & Hs1 & Hdata1).
  wp_step. eapply wp_buf_update; [simpl; by eapply aget_aset_same|].
  wp_step. apply wp_with_bufs. eapply wp_mono.
  { eapply (mbuffer_release_spec pool k); [|done|done|simpl; by eapply aget_aset_same, aget_aset_same].
    destruct Hwin as (?&?&?). split_and!; simpl; rewrite ?length_aset; done. }
  set (b2 := mb_set_sender actid portid b1).
  assert (Hu2 : mb_used b2 = true) by (unfold mb_used; simpl; rewrite Hres1, Hres; by rflags).
  intros r bs [(?&_)|(_&->&->)]; [congruence|]. simpl.
  wp_step. eapply wp_buf_read; [simpl; by eapply aget_aset_same, aget_aset_same, aget_aset_same|].
  wp_step. split; [done|]. exists (mbuffer_kept (mbuf_age (bufs s)) b2), h. split; [|split; [done|]].
  - split; simpl; try done.
    + unfold mb_stored. simpl. rewrite Hres1, Hres. by rflags.
    + rewrite Hdata1. apply take_user_bytes.
    + rewrite Hdata1, length_app. lia.
  - unfold set_hwst, set_bufs, set_mbuf, set_mbuf_age. simpl. by rewrite !aset_aset_eq.
Qed.

(** Properties of an active that do not depend on its lock. *)
Lemma act_reqs_lock a b q : act_reqs a q -> act_reqs (ac_set_lock b a) q.
Proof. intros []. by split. Qed.

Lemma act_frame_lock a a1 :
  ac_lock a = false -> act_frame (ac_set_lock true a) a1 -> act_frame a (ac_set_lock false a1).
Proof.
  intros Hl [E Hlen Hcap Hport]. split; [|done|done|done]. rewrite E. destruct a. simpl in *. by subst.
Qed.

(** What a write that is forwarded to the local node does to the state. *)
Record forward_post (s s' : noc) (id : Z) (a : active) (q : list Z) : Prop := {
  fp_umem : umem s' = umem s;
  fp_clock : clock_error s' = clock_error s;
  fp_active : exists a', actives s' = aset (get_actid fn id) a' (actives s) /\
    act_reqs a' (q ++ [get_portid fn id]) /\ act_frame a a';
}.

Lemma awrite_forward_spec id c st s a p q :
  valid_id id s a p -> ac_lock a = false -> resource_is_used (pt_resource p) = true ->
  pt_mbufferid p < 0 -> node_is_local (ac_remote a) = true ->
  act_reqs a q -> get_portid fn id ∉ q -> alen q < rq_max_capacity (ac_requests a) ->
  window_ok (ac_mbufferpool_aux a) (bufs s) -> mbuf_lock (bufs s) = false -> 0 ≤ cfg_size c ->
  Forall (fun b => cfg_size c ≤ alen (msg_data (mb_message b))) (mbuf (bufs s)) ->
  wp (active_awrite fn id c st) (fun r s' =>
    forward_post s s' id a q /\
    ((r = (err EBUSY, st) /\ bufs s' = bufs s /\
      forall k b, 0 ≤ k < nmbuffers (ac_mbufferpool_aux a) ->
        aget (mbuf (bufs s)) (pool_base (ac_mbufferpool_aux a) + k) = Some b -> mb_used b = true) \/
     (fst r = ACTIVE_COMM_RECEIVED /\
      exists k b0 b, 0 ≤ k < nmbuffers (ac_mbufferpool_aux a) /\
        aget (mbuf (bufs s)) (pool_base (ac_mbufferpool_aux a) + k) = Some b0 /\ mb_used b0 = false /\
        forwarded (get_actid fn id) (get_portid fn id) c (user_bytes s c) b /\
        mb_age b = mbuf_age (bufs s) /\
        bufs s' = set_mbuf_age (u64 (mbuf_age (bufs s) + 1))
          (set_mbuf (aset (pool_base (ac_mbufferpool_aux a) + k) b (mbuf (bufs s))) (bufs s))))) s.
Proof.
  intros Hid Hl Hu Hmb Hloc Hreq Hnot Hcap Hwin Hml Hsz Hlen. pose proof Hid as (Ha & Hp & Hpr).
  unfold active_awrite. wp_step. eapply wp_valid_call; [done|]. wp_step. wp_step; [done|].
  wp_step. eapply wp_active_read; [done|]. rewrite Hloc.
  wp_step. eapply wp_lock_active; [done|done|].
  wp_step. eapply wp_active_read; [simpl; by eapply aget_aset_same|].
  wp_step. eapply wp_active_port_read; [simpl; by eapply aget_aset_same|done|].
  wp_step. rewrite Hu. simpl. rewrite (proj2 (Z.ltb_lt _ 0)) by done. wp_step.
  eapply wp_mono.
  { apply (awrite_buffer_forward _ _ _ _ q); try done; [simpl; by eapply aget_aset_same|by apply act_reqs_lock]. }
  intros r s1 (a1 & Hreq1 & Hfr & Hcase). simpl in Hcase.
  assert (Hfin : act_reqs (ac_set_lock false a1) (q ++ [get_portid fn id]) /\
                 act_frame a (ac_set_lock false a1)).
  { split; [by apply act_reqs_lock|by apply act_frame_lock]. }
  destruct Hcase as [(-> & -> & Hall)|(k & b0 & -> & Hk & Hb0 & Hu0 & ->)].
  - wp_step. wp_step. eapply wp_unlock_active; [simpl; by eapply aget_aset_same, aget_aset_same|].
    wp_step. split; [|by left]. split; [done|done|].
    exists (ac_set_lock false a1). simpl. by rewrite !aset_aset_eq.
  - wp_step. apply wp_mbuffer_get; [done|]. simpl.
    eapply wp_mono.
    { eapply awrite_forward_store; [simpl; by eapply aget_aset_same|done| |done|done|].
      - destruct Hwin as (?&?&?). split_and!; simpl; rewrite ?length_aset; done.
      - pose proof (Forall_aget _ _ _ _ Hlen Hb0) as Hlb. simpl in Hlb |- *.
        destruct (msg_data (mb_message b0)); simpl in *; lia. }
    intros r s2 (Hr & b & h & Hfw & Hage & ->).
    wp_step. eapply wp_unlock_active; [simpl; by eapply aget_aset_same, aget_aset_same|].
    wp_step. split.
    + split; [done|done|]. exists (ac_set_lock false a1). simpl. by rewrite !aset_aset_eq.
    + right. split; [done|]. exists k, b0, b. split_and!; try done; try lia.
      simpl. unfold set_mbuf, set_mbuf_age. simpl. by rewrite !aset_aset_eq.
Qed.

(** A port that is still requested cannot forward anything. *)
Lemma awrite_requested id c st s a p :
  valid_id id s a p -> ac_lock a = false -> resource_is_used (pt_resource p) = true ->
  pt_mbufferid p < 0 -> node_is_local (ac_remote a) = true -> port_is_requested p = true ->
  wp (active_awrite fn id c st) (fun r s' => r = (err EBUSY, st) /\ s' = s) s.
Proof.
  intros Hid Hl Hu Hmb Hloc Hreq. pose proof Hid as (Ha & Hp & Hpr).
  unfold active_awrite. wp_step. eapply wp_valid_call; [done|]. wp_step. wp_step; [done|].
  wp_step. eapply wp_active_read; [done|]. rewrite Hloc.
  wp_step. eapply wp_lock_active; [done|done|].
  wp_step. eapply wp_active_read; [simpl; by eapply aget_aset_same|].
  wp_step. eapply wp_active_port_read; [simpl; by eapply aget_aset_same|done|].
  wp_step. rewrite Hu. simpl. rewrite (proj2 (Z.ltb_lt _ 0)) by done. wp_step.
  unfold awrite_buffer. rewrite Hreq. wp_step. wp_step. wp_step. wp_step. wp_step.
  eapply wp_unlock_active; [simpl; by eapply aget_aset_same|]. wp_step. split; [done|].
  rewrite ac_unlock_lock by done. simpl. rewrite aset_aset_eq.
  unfold set_actives. simpl. rewrite aset_id by done. by destruct s.
Qed.

(** ** Receiving a stored message *)

(** The sender recorded in a message is a port of another active. *)
Definition sender_ok (s : noc) (actid : Z) (b : mbuffer) (a2 : active) (q2 : list Z) : Prop :=
  aget (actives s) (mb_actid b) = Some a2 /\ act_reqs a2 q2 /\
  0 ≤ mb_portid b < ac_nports a2 /\ 0 ≤ mb_actid b /\ mb_actid b <> actid.

Lemma aread_stored_spec pool k c st b s actid a2 q2 :
  aget (mbuf (bufs s)) (pool_base pool + k) = Some b -> mb_used b = true ->
  window_ok pool (bufs s) -> 0 ≤ k < nmbuffers pool -> mbuf_lock (bufs s) = false ->
  0 ≤ cfg_size c ≤ alen (msg_data (mb_message b)) -> sender_ok s actid b a2 q2 ->
  wp (aread_stored pool k c st) (fun r s' => fst r = ACTIVE_COMM_RECEIVED /\
    exists a2' h,
      (if bool_decide (alen q2 = rq_max_capacity (ac_requests a2)) then a2' = a2
       else act_reqs a2' (filter (fun x => x <> mb_portid b) q2) /\ act_frame a2 a2') /\
      s' = Noc (set_mbuf (aset (pool_base pool + k) (mbuffer_reset b) (mbuf (bufs s))) (bufs s))
               (aset (mb_actid b) a2' (actives s)) (clock_error s)
               (mem_write (cfg_buffer c) (take (Z.to_nat (cfg_size c)) (msg_data (mb_message b))) (umem s)) h) s.
Proof.
  intros Hb Hu Hwin Hk Hml Hsz (Ha2 & Hreq2 & Hp2 & Ha0 & _). unfold aread_stored.
  wp_step. apply wp_mbuffer_get; [done|]. wp_step. apply wp_read_clock. intros t1 h1.
  wp_step. eapply wp_buf_read; [done|]. wp_step. apply wp_copy_to_user; [lia|].
  wp_step. apply wp_read_clock. intros t2 h2.
  wp_step. apply wp_compute_latency. intros l.
  rewrite !(proj2 (Z.leb_le 0 _)) by lia. simpl. wp_step. wp_step.
  eapply wp_with_active; [done|]. eapply wp_mono; [by apply do_request_clear_spec|].
  intros r a2' [-> Ha2']. wp_step; [done|]. wp_step. apply wp_with_bufs.
  eapply wp_mono; [by apply (mbuffer_release_spec pool k _ _ b)|].
  rewrite Hu. intros r bs [(?&_)|(_&->&->)]; [done|]. wp_step. wp_step; [done|]. wp_step.
  split; [done|]. exists a2', h2. split; [done|]. by destruct s.
Qed.

(** The pool in which a read looks for stored messages. *)
Definition read_pool (c : active_config) (a : active) : mbuffer_pool :=
  if node_is_local (get_actid fn (remote_addr c)) then ac_mbufferpool_aux a else ac_mbufferpool a.

(** A read of a port for which a message is stored. *)
Lemma aread_found_spec id c st s a p qb pool :
  valid_id id s a p -> ac_lock a = false -> resource_is_used (pt_resource p) = true -> read_pool c a = pool ->
  window_ok pool (bufs s) -> mbuf_lock (bufs s) = false -> queue (bufs s) qb ->
  0 ≤ cfg_size c -> Forall (fun b => cfg_size c ≤ alen (msg_data (mb_message b))) (mbuf (bufs s)) ->
  (forall i b, aget (mbuf (bufs s)) i = Some b -> mb_stored b = true ->
     exists a2 q2, sender_ok s (get_actid fn id) b a2 q2) ->
  let hits b := mb_matches pool (local_addr c) (remote_addr c) b in
  (exists i b, i ∈ qb /\ in_window pool i /\ aget (mbuf (bufs s)) i = Some b /\ hits b = true) ->
  wp (active_aread fn id c st) (fun r s' =>
    fst r = ACTIVE_COMM_RECEIVED /\
    exists k b q1 q2 a2 r2 a2' h, 0 ≤ k < nmbuffers pool /\
      aget (mbuf (bufs s)) (pool_base pool + k) = Some b /\ hits b = true /\
      qb = q1 ++ (pool_base pool + k) :: q2 /\
      (forall i b', i ∈ q1 -> in_window pool i -> aget (mbuf (bufs s)) i = Some b' -> hits b' = false) /\
      sender_ok s (get_actid fn id) b a2 r2 /\
      (if bool_decide (alen r2 = rq_max_capacity (ac_requests a2)) then a2' = a2
       else act_reqs a2' (filter (fun x => x <> mb_portid b) r2) /\ act_frame a2 a2') /\
      s' = Noc (set_mbuf (aset (pool_base pool + k) (mbuffer_reset b) (mbuf (bufs s))) (bufs s))
               (aset (mb_actid b) a2' (actives s)) (clock_error s)
               (mem_write (cfg_buffer c) (take (Z.to_nat (cfg_size c)) (msg_data (mb_message b))) (umem s)) h) s.
Proof.
  intros Hid Hl Hu Hpool Hwin Hml Hq Hsz Hlen Hsend hits (i0 & b0 & Hi0 & Hw0 & Hb0 & Hh0).
  pose proof Hid as (Ha & Hp & Hpr).
  unfold active_aread. wp_step. eapply wp_valid_call; [done|]. wp_step. wp_step; [done|].
  wp_step. eapply wp_lock_active; [done|done|].
  wp_step. eapply wp_active_read; [simpl; by eapply aget_aset_same|].
  wp_step. eapply wp_active_port_read; [simpl; by eapply aget_aset_same|done|].
  wp_step. rewrite Hu. simpl. fold (read_pool c a). rewrite Hpool. wp_step. apply wp_with_bufs.
  eapply wp_mono; [by apply (mbuffer_search_queue pool _ _ _ qb)|].
  set (sl := set_actives _ s).
  intros k bs [-> [[-> Hnone]|(b & q1 & q2 & Hk & Hb & Hm & Hqb & Hmin)]].
  { unfold hits in Hh0. by rewrite (Hnone i0 b0) in Hh0. }
  rewrite (proj2 (Z.leb_le 0 k)) by lia.
  pose proof (proj1 (mb_matches_spec _ _ _ _) Hm) as (Hbu & Hbb & _).
  destruct (Hsend _ _ Hb) as (a2 & r2 & Hs2); [unfold mb_stored; by rewrite Hbu, Hbb|].
  pose proof Hs2 as (Ha2 & Hr2 & Hp2 & Hge & Hne).
  replace (set_bufs (bufs sl) sl) with sl by (by destruct s).
  eapply wp_mono.
  { eapply (aread_stored_spec pool k c st b _ (get_actid fn id) a2 r2); try done.
    - pose proof (Forall_aget _ _ _ _ Hlen Hb) as Hx. simpl in Hx. lia.
    - split; [|done]. simpl. by rewrite aget_aset_ne. }
  intros r s1 (Hr & a2' & h & Ha2' & ->). wp_step.
  eapply wp_unlock_active; [simpl; rewrite aget_aset_ne by done; by eapply aget_aset_same|].
  wp_step. split; [done|]. exists k, b, q1, q2, a2, r2, a2', h. split_and!; try done; try lia.
  rewrite ac_unlock_lock by done. unfold set_actives. simpl. f_equal.
  rewrite (aset_comm _ (mb_actid b)) by done. rewrite aset_aset_eq.
  rewrite (aset_comm _ (get_actid fn id)) by done. by rewrite (aset_id (actives s) (get_actid fn id) a).
Qed.

(** ** From a write to the read of the same message *)

Lemma length_user_bytes s c : length (user_bytes s c) = Z.to_nat (cfg_size c).
Proof. apply length_mem_read. Qed.

Lemma act_frame_nports a a' : act_frame a a' -> ac_nports a' = ac_nports a.
Proof. intros [E _ _ _]. rewrite E. done. Qed.

(** The new message is the only stored message that the receiver can get. *)
Lemma search_new_message pool dest src bs qb i b k b1 q1 q2 :
  queue bs qb -> (i ∉ qb) -> in_window pool i ->
  (forall j c, j ∈ qb -> in_window pool j -> aget (mbuf bs) j = Some c -> mb_matches pool dest src c = false) ->
  0 ≤ k < nmbuffers pool ->
  aget (aset i b (mbuf bs)) (pool_base pool + k) = Some b1 -> mb_matches pool dest src b1 = true ->
  qb ++ [i] = q1 ++ (pool_base pool + k) :: q2 -> pool_base pool + k = i.
Proof.
  intros Hq Hi Hw Hno Hk Hb1 Hm E.
  assert (Hin : pool_base pool + k ∈ qb ++ [i]) by (rewrite E; set_solver).
  apply elem_of_app in Hin as [Hin|Hin%list_elem_of_singleton]; [|done]. exfalso.
  rewrite aget_aset_ne in Hb1 by (by intros ->).
  rewrite (Hno _ _ Hin) in Hm; [done| |done]. unfold in_window. lia.
Qed.

Lemma sender_ok_update s actid o a' b a2 q2 a q bs ce um h :
  sender_ok s actid b a2 q2 -> aget (actives s) o = Some a -> act_reqs a' q -> act_frame a a' ->
  exists a2' q2', sender_ok (Noc bs (aset o a' (actives s)) ce um h) actid b a2' q2'.
Proof.
  intros (Ha2 & Hr2 & Hp2 & H0 & Hne) Ha Hr Hf. destruct (decide (mb_actid b = o)) as [<-|Hneq].
  - exists a', q. split; [simpl; by eapply aget_aset_same|]. split; [done|].
    rewrite Ha in Ha2. simplify_eq. by rewrite (act_frame_nports _ _ Hf).
  - exists a2, q2. split; [simpl; by rewrite aget_aset_ne|]. done.
Qed.

(** The queue of requests is determined by the buffer. *)
Lemma requests_repr_unique r q q' : requests_repr r q -> requests_repr r q' -> q = q'.
Proof.
  intros Hr Hr'.
  assert (Hlen : alen q = alen q') by (by rewrite <- (rr_nelements _ _ Hr), <- (rr_nelements _ _ Hr')).
  apply alist_eq. intros j. destruct (decide (0 ≤ j < alen q)) as [Hj|Hj].
  - pose proof (rr_bound _ _ Hr).
    pose proof (rr_slots _ _ Hr j ltac:(lia)) as E1. pose proof (rr_slots _ _ Hr' j ltac:(lia)) as E2.
    rewrite E1 in E2. unfold request_at in E2.
    destruct (aget_is_Some q j Hj) as [x Hx]. destruct (aget_is_Some q' j ltac:(lia)) as [y Hy].
    rewrite Hx, Hy in *. simpl in E2. congruence.
  - destruct (aget q j) eqn:E; [apply aget_lt in E; lia|].
    destruct (aget q' j) eqn:E'; [apply aget_lt in E'; lia|done].
Qed.

Lemma act_reqs_unique a q q' : act_reqs a q -> act_reqs a q' -> q = q'.
Proof. intros [Hr _ _ _ _] [Hr' _ _ _ _]. by eapply requests_repr_unique. Qed.

Lemma senders_after_write s s1 actid idw aw a' q q' i b b0 c bytes :
  aget (actives s) (get_actid fn idw) = Some aw -> 0 ≤ get_portid fn idw < ac_nports aw ->
  get_actid fn idw <> actid -> act_reqs a' q' -> act_frame aw a' -> act_reqs aw q ->
  actives s1 = aset (get_actid fn idw) a' (actives s) ->
  aget (mbuf (bufs s)) i = Some b0 ->
  forwarded (get_actid fn idw) (get_portid fn idw) c bytes b ->
  (forall j d, aget (mbuf (bufs s)) j = Some d -> mb_stored d = true ->
     exists a2 q2, sender_ok s actid d a2 q2) ->
  forall j d, aget (aset i b (mbuf (bufs s))) j = Some d -> mb_stored d = true ->
  exists a2 q2, sender_ok s1 actid d a2 q2.
Proof.
  intros Haw Hp Hne Hr' Hf Hr Hact Hb0 Hfw Hsend j d. destruct (decide (i = j)) as [<-|Hij].
  - rewrite (aget_aset_same _ _ _ _ Hb0). intros [= <-] _. exists a', q'.
    destruct (fw_sender _ _ _ _ _ Hfw) as [E1 E2]. unfold sender_ok.
    rewrite E1, E2, Hact, (act_frame_nports _ _ Hf), (aget_aset_same _ _ _ _ Haw).
    apply aget_lt in Haw. split; [done|]. split; [done|]. split; [done|]. split; [lia|done].
  - rewrite aget_aset_ne by done. intros Hd Hst. destruct (Hsend j d Hd Hst) as (a2 & q2 & Hs2).
    destruct s1 as [bs1 ac1 ce1 um1 h1]. simpl in Hact. subst ac1.
    by eapply (sender_ok_update s).
Qed.

(** ** Theorems *)

(** A sender and a receiver on the local node, with the buffers they share. *)
Record local_pair (idw idr : Z) (cw cr : active_config) (s : noc)
    (aw ar : active) (pw pr : port) (q qb : list Z) (pool : mbuffer_pool) : Prop := {
  lp_writer : valid_id idw s aw pw;
  lp_reader : valid_id idr s ar pr;
  lp_distinct : get_actid fn idw <> get_actid fn idr;
  lp_unlocked : ac_lock aw = false /\ ac_lock ar = false /\ mbuf_lock (bufs s) = false;
  lp_used : resource_is_used (pt_resource pw) = true /\ resource_is_used (pt_resource pr) = true;
  lp_idle : pt_mbufferid pw < 0;
  lp_local : node_is_local (ac_remote aw) = true;
  lp_pool : ac_mbufferpool_aux aw = pool;
  lp_window : window_ok pool (bufs s) /\ window_ok (read_pool cr ar) (bufs s);
  lp_shared : forall i, in_window pool i -> in_window (read_pool cr ar) i;
  lp_requests : act_reqs aw q;
  lp_not_requested : get_portid fn idw ∉ q;
  lp_room : alen q + 1 < rq_max_capacity (ac_requests aw);
  lp_queue : queue (bufs s) qb;
  lp_age : 0 ≤ mbuf_age (bufs s) /\ mbuf_age (bufs s) + 1 < UINT64_MAX;
  lp_size : cfg_size cw = cfg_size cr /\ 0 ≤ cfg_size cr /\
            Forall (fun b => cfg_size cr ≤ alen (msg_data (mb_message b))) (mbuf (bufs s));
  lp_addr : local_addr cr = remote_addr cw;
  lp_source : forall b, h_src (msg_header (mb_message b)) = local_addr cw ->
              source_check (read_pool cr ar) b (remote_addr cr) = true;
  lp_none : forall i b, i ∈ qb -> in_window (read_pool cr ar) i -> aget (mbuf (bufs s)) i = Some b ->
            mb_matches (read_pool cr ar) (local_addr cr) (remote_addr cr) b = false;
  lp_free : exists k b, 0 ≤ k < nmbuffers pool /\
            aget (mbuf (bufs s)) (pool_base pool + k) = Some b /\ mb_used b = false;
  lp_senders : forall i b, aget (mbuf (bufs s)) i = Some b -> mb_stored b = true ->
               exists a2 q2, sender_ok s (get_actid fn idr) b a2 q2;
}.

(** After the write, the receiver's preconditions hold for the queue with the message. *)
Lemma local_pair_queue idw idr cw cr s aw ar pw pr q qb pool k b0 b :
  local_pair idw idr cw cr s aw ar pw pr q qb pool ->
  0 ≤ k < nmbuffers pool -> aget (mbuf (bufs s)) (pool_base pool + k) = Some b0 -> mb_used b0 = false ->
  forwarded (get_actid fn idw) (get_portid fn idw) cw (user_bytes s cw) b ->
  mb_age b = mbuf_age (bufs s) ->
  let bs := set_mbuf_age (u64 (mbuf_age (bufs s) + 1))
              (set_mbuf (aset (pool_base pool + k) b (mbuf (bufs s))) (bufs s)) in
  queue bs (qb ++ [pool_base pool + k]) /\ (pool_base pool + k ∉ qb) /\
  mb_matches (read_pool cr ar) (local_addr cr) (remote_addr cr) b = true.
Proof.
  intros Hlp Hk Hb0 Hu0 Hfw Hage bs. pose proof (lp_queue _ _ _ _ _ _ _ _ _ _ _ _ Hlp) as Hq.
  destruct (lp_age _ _ _ _ _ _ _ _ _ _ _ _ Hlp) as [Hpos Hmax].
  set (i := pool_base pool + k) in *.
  assert (Hni : i ∉ qb).
  { rewrite (q_stored _ _ Hq). intros (c & Hc & Hst). rewrite Hb0 in Hc. simplify_eq.
    rewrite (unused_unstored _ Hu0) in Hst. done. }
  destruct Hfw as [Hst Hd Hsrc _ _ _]. split_and!; [|done|].
  - eapply queue_store; try done. by apply unused_unstored.
  - unfold mb_matches. rewrite Hst, Hd, (lp_addr _ _ _ _ _ _ _ _ _ _ _ _ Hlp), Z.eqb_refl.
    by rewrite (lp_source _ _ _ _ _ _ _ _ _ _ _ _ Hlp).
Qed.

(** What is left of the message after it was read. *)
Lemma forwarded_bytes s s1 idw cw cr b :
  cfg_size cw = cfg_size cr -> 0 ≤ cfg_size cr ->
  forwarded (get_actid fn idw) (get_portid fn idw) cw (user_bytes s cw) b ->
  mem_read (mem_write (cfg_buffer cr) (take (Z.to_nat (cfg_size cr)) (msg_data (mb_message b))) (umem s1))
    (cfg_buffer cr) (Z.to_nat (cfg_size cr)) = user_bytes s cw.
Proof.
  intros Hsz Hsz0 Hfw. pose proof (fw_data _ _ _ _ _ Hfw) as Hd.
  rewrite length_user_bytes, Hsz in *. rewrite Hd.
  rewrite <- (mem_read_write (cfg_buffer cr) (user_bytes s cw) (umem s1)) at 2.
  by rewrite length_user_bytes, Hsz.
Qed.

Lemma discard_last bs qb i b :
  queue bs (qb ++ [i]) -> i ∉ qb -> aget (mbuf bs) i = Some b ->
  queue (set_mbuf (aset i (mbuffer_reset b) (mbuf bs)) bs) qb.
Proof.
  intros Hq Hni Hb. pose proof (queue_discard bs _ i b Hq) as Hq3.
  rewrite filter_app, filter_cons_False, filter_nil, app_nil_r, filter_all in Hq3.
  - by apply Hq3.
  - apply Forall_forall. by intros j Hj ->.
  - by intros ?.
Qed.

Lemma sender_cleared s s1 idw aw actid a' q b a2 r2 a2' :
  aget (actives s) (get_actid fn idw) = Some aw ->
  act_reqs a' (q ++ [get_portid fn idw]) -> act_frame aw a' -> get_portid fn idw ∉ q ->
  alen q + 1 < rq_max_capacity (ac_requests aw) ->
  mb_actid b = get_actid fn idw -> mb_portid b = get_portid fn idw ->
  actives s1 = aset (get_actid fn idw) a' (actives s) ->
  sender_ok s1 actid b a2 r2 ->
  (if bool_decide (alen r2 = rq_max_capacity (ac_requests a2)) then a2' = a2
   else act_reqs a2' (filter (fun x => x <> mb_portid b) r2) /\ act_frame a2 a2') ->
  exists a', aset (mb_actid b) a2' (actives s1) = aset (get_actid fn idw) a' (actives s) /\ act_reqs a' q.
Proof.
  intros Haw Hreq' Hfr Hnot Hroom E1 E2 Hact (Ha2 & Hr2 & _) Ha2'.
  rewrite E1, Hact, (aget_aset_same _ _ _ _ Haw) in Ha2. injection Ha2 as <-.
  assert (r2 = q ++ [get_portid fn idw]) as -> by (by eapply act_reqs_unique).
  exists a2'. rewrite E1, Hact, aset_aset_eq. split; [done|].
  rewrite bool_decide_false in Ha2'.
  - destruct Ha2' as [Hfin _].
    rewrite E2, filter_app, filter_cons_False, filter_nil, app_nil_r, filter_all in Hfin; [done| |].
    + apply Forall_forall. by intros j Hj ->.
    + by intros ?.
  - rewrite (af_capacity _ _ Hfr), length_app. simpl. lia.
Qed.

(** The state after the write: the message of port [idw] is the last one stored. *)
Record local_sent (idw : Z) (cw : active_config) (s : noc) (aw : active) (q qb : list Z) (pool : mbuffer_pool)
    (s1 : noc) (k : Z) (b0 b : mbuffer) (a' : active) : Prop := {
  se_umem : umem s1 = umem s;
  se_actives : actives s1 = aset (get_actid fn idw) a' (actives s);
  se_reqs : act_reqs a' (q ++ [get_portid fn idw]);
  se_frame : act_frame aw a';
  se_slot : 0 ≤ k < nmbuffers pool /\ aget (mbuf (bufs s)) (pool_base pool + k) = Some b0 /\ mb_used b0 = false;
  se_message : forwarded (get_actid fn idw) (get_portid fn idw) cw (user_bytes s cw) b;
  se_age : mb_age b = mbuf_age (bufs s);
  se_bufs : bufs s1 = set_mbuf_age (u64 (mbuf_age (bufs s) + 1))
              (set_mbuf (aset (pool_base pool + k) b (mbuf (bufs s))) (bufs s));
}.

Lemma local_write idw idr cw cr st s aw ar pw pr q qb pool :
  local_pair idw idr cw cr s aw ar pw pr q qb pool ->
  wp (active_awrite fn idw cw st) (fun r s1 => fst r = ACTIVE_COMM_RECEIVED /\
    exists k b0 b a', local_sent idw cw s aw q qb pool s1 k b0 b a') s.
Proof.
  intros Hlp. pose proof Hlp as [Hw Hr Hne (Hl1 & Hl2 & Hml) [Hu1 Hu2] Hidle Hloc Hpw [Hwin Hrwin] Hsh Hreq Hnot Hroom Hq [Hpos Hmax] (Hsz & Hsz0 & Hlen) Haddr Hsrc Hnone (kf & bf & Hkf & Hbf & Huf) Hsend].
  eapply wp_mono.
  { eapply (awrite_forward_spec idw cw st s aw pw q); rewrite ?Hpw, ?Hsz; try done; lia. }
  intros r1 s1 [[Hum _ (a' & Hact & Hreq' & Hfr)] [(_ & _ & Hall)|(Hr1 & k & b0 & b & Hk & Hb0 & Hu0 & Hfw & Hage & Hbs)]].
  { rewrite Hpw in Hall. rewrite (Hall kf bf Hkf Hbf) in Huf. done. }
  rewrite Hpw in *. split; [done|]. by exists k, b0, b, a'.
Qed.

Lemma local_read idw idr cw cr st s aw ar pw pr q qb pool s1 k b0 b a' :
  local_pair idw idr cw cr s aw ar pw pr q qb pool ->
  local_sent idw cw s aw q qb pool s1 k b0 b a' ->
  wp (active_aread fn idr cr st)
     (fun r s' =>
        fst r = ACTIVE_COMM_RECEIVED /\
        mem_read (umem s') (cfg_buffer cr) (Z.to_nat (cfg_size cr)) = user_bytes s cw /\
        queue (bufs s') qb /\
        exists a', actives s' = aset (get_actid fn idw) a' (actives s) /\ act_reqs a' q) s1.
Proof.
  intros Hlp [Hum Hact Hreq' Hfr (Hk & Hb0 & Hu0) Hfw Hage Hbs].
  destruct (local_pair_queue _ _ _ _ _ _ _ _ _ _ _ _ k b0 b Hlp Hk Hb0 Hu0 Hfw Hage) as (Hq1 & Hni & Hmb).
  pose proof Hlp as [Hw Hr Hne (Hl1 & Hl2 & Hml) [Hu1 Hu2] Hidle Hloc Hpw [Hwin Hrwin] Hsh Hreq Hnot Hroom Hq [Hpos Hmax] (Hsz & Hsz0 & Hlen) Haddr Hsrc Hnone _ Hsend].
  rewrite <- Hbs in Hq1. set (i := pool_base pool + k) in *.
  assert (Hm1 : mbuf (bufs s1) = aset i b (mbuf (bufs s))) by (by rewrite Hbs).
  assert (Hiw : in_window (read_pool cr ar) i) by (apply Hsh; unfold in_window; lia).
  destruct Hr as (Har & Hport & Hrange).
  eapply wp_mono.
  { apply (aread_found_spec idr cr st s1 ar pr (qb ++ [i]) (read_pool cr ar)); try done.
    - split; [|done]. by rewrite Hact, aget_aset_ne.
    - destruct Hrwin as (?&?&?). split_and!; try done. by rewrite Hm1, length_aset.
    - by rewrite Hbs.
    - rewrite Hm1. apply Forall_aset; [done|].
      pose proof (fw_len _ _ _ _ _ Hfw) as Hfl. rewrite length_user_bytes in Hfl. lia.
    - rewrite Hm1. destruct Hw as (Haw & _ & Hpwr).
      by apply (senders_after_write s s1 _ idw aw a' q (q ++ [get_portid fn idw]) i b b0 cw (user_bytes s cw)).
    - exists i, b. rewrite Hm1. split; [set_solver|]. split; [done|]. split; [by eapply aget_aset_same|done]. }
  intros r2 s2 (Hr2 & k2 & b2 & q1 & q2 & a2 & r2' & a2' & h & Hk2 & Hb2 & Hm2 & Hqb & _ & Hs2 & Ha2' & ->).
  rewrite Hm1 in Hb2. assert (Hi : pool_base (read_pool cr ar) + k2 = i).
  { by eapply (search_new_message (read_pool cr ar) (local_addr cr) (remote_addr cr) (bufs s) qb i b k2 b2). }
  rewrite Hi in *. rewrite (aget_aset_same _ _ _ _ Hb0) in Hb2. injection Hb2 as <-.
  split; [done|]. simpl. split; [by apply (forwarded_bytes s s1 idw cw cr b)|]. split.
  - apply (discard_last (bufs s1) qb i b Hq1 Hni). rewrite Hm1. by eapply aget_aset_same.
  - destruct (fw_sender _ _ _ _ _ Hfw) as [E1 E2]. destruct Hw as (Haw & _).
    by eapply (sender_cleared s s1 idw aw (get_actid fn idr) a' q b a2 r2' a2').
Qed.

(** A write to a local port that finds no free buffer fails but leaves its request
    registered: every later write on the port fails and changes nothing, no matter
    which buffers have become free by then. *)
Theorem awrite_no_buffer_stuck id c st s a p q :
  valid_id id s a p -> ac_lock a = false -> resource_is_used (pt_resource p) = true ->
  pt_mbufferid p < 0 -> node_is_local (ac_remote a) = true ->
  act_reqs a q -> get_portid fn id ∉ q -> alen q < rq_max_capacity (ac_requests a) ->
  window_ok (ac_mbufferpool_aux a) (bufs s) -> mbuf_lock (bufs s) = false -> 0 ≤ cfg_size c ->
  Forall (fun b => cfg_size c ≤ alen (msg_data (mb_message b)) /\ mb_used b = true) (mbuf (bufs s)) ->
  wp (active_awrite fn id c st) (fun r s' =>
    r = (err EBUSY, st) /\
    forall bs' c' st',
      wp (active_awrite fn id c' st') (fun r' s'' => r' = (err EBUSY, st') /\ s'' = set_bufs bs' s')
         (set_bufs bs' s')) s.
Proof.
  intros Hid Hl Hu Hmb Hloc Hreq Hnot Hcap Hwin Hml Hsz Hall.
  eapply wp_mono.
  { apply (awrite_forward_spec id c st s a p q); try done.
    eapply Forall_impl; [exact Hall|]. by intros b [? _]. }
  intros r s' [[_ _ (a' & Hact & Hreq' & Hfr)] [(-> & _)|(_ & k & b0 & _ & _ & Hb0 & Hu0 & _)]].
  - split; [done|]. intros bs' c' st'. destruct Hid as (Ha & Hp & Hpr).
    destruct (af_port _ _ Hfr _ _ Hp) as [fl Hp'].
    apply (awrite_requested id c' st' (set_bufs bs' s') a' (pt_set_flags fl p)).
    + split_and!; [simpl; rewrite Hact; by eapply aget_aset_same|done|apply Hpr|].
      rewrite (act_frame_nports _ _ Hfr). apply Hpr.
    + rewrite (af_active _ _ Hfr). done.
    + done.
    + done.
    + rewrite (af_active _ _ Hfr). done.
    + rewrite (ar_flag _ _ Hreq' _ _ Hp'). apply bool_decide_true. set_solver.
  - destruct (Forall_aget _ _ _ _ Hall Hb0) as [_ Hu0']. congruence.
Qed.

(** ** Completion of a hardware operation *)

(** The state in which the second half of [active_wait] starts on a port that owns
    buffer [k] of [pool]. *)
Record waiting (id : Z) (s : noc) (a : active) (p : port) (pool : mbuffer_pool) (k : Z) (b : mbuffer) : Prop := {
  wt_id : valid_id id s a p;
  wt_unlocked : ac_lock a = false /\ mbuf_lock (bufs s) = false;
  wt_window : window_ok pool (bufs s);
  wt_buffer : pt_mbufferpool p = Some pool /\ pt_mbufferid p = k;
  wt_range : 0 ≤ k < nmbuffers pool;
  wt_message : aget (mbuf (bufs s)) (pool_base pool + k) = Some b;
  wt_used : mb_used b = true;
}.

(** The active once the operation is over: not busy, and the port owns no buffer. *)
Definition wait_done (portid : Z) (a : active) (p : port) : active :=
  let a1 := ac_set_ports (aset portid (pt_set_mbuffer (-1) None p) (ac_ports a)) a in
  ac_set_resource (resource_set_notbusy (ac_resource a1)) a1.

(** The last steps, common to all outcomes. *)
Lemma wait_finish actid portid pool k keep a p b (Q : unit -> noc -> Prop) s :
  aget (actives s) actid = Some a -> aget (ac_ports a) portid = Some p ->
  window_ok pool (bufs s) -> mbuf_lock (bufs s) = false -> 0 ≤ k < nmbuffers pool ->
  aget (mbuf (bufs s)) (pool_base pool + k) = Some b -> mb_used b = true ->
  Q tt (set_actives (aset actid (ac_set_lock false (wait_done portid a p)) (actives s))
         (set_bufs (if keep =? MBUFFER_KEEP_MESSAGE
             then set_mbuf_age (u64 (mbuf_age (bufs s) + 1))
                    (set_mbuf (aset (pool_base pool + k) (mbuffer_kept (mbuf_age (bufs s)) b) (mbuf (bufs s))) (bufs s))
             else set_mbuf (aset (pool_base pool + k) (mbuffer_reset b) (mbuf (bufs s))) (bufs s)) s)) ->
  wp (wait_release actid portid (Some pool) k keep) Q s.
Proof.
  intros Ha Hp Hwin Hml Hk Hb Hu HQ. unfold wait_release. wp_step. apply wp_with_bufs.
  eapply wp_mono; [by apply (mbuffer_release_spec pool k _ _ b)|].
  rewrite Hu. intros r bs [(?&_)|(_ & -> & ->)]; [done|].
  wp_step. eapply wp_with_active; [done|]. eapply wp_port_update; [done|].
  wp_step. eapply wp_with_active; [simpl; by eapply aget_aset_same|]. wp_step.
  eapply wp_unlock_active; [simpl; by eapply aget_aset_same, aget_aset_same|].
  unfold set_actives, set_bufs in *. simpl in *. by rewrite !aset_aset_eq.
Qed.

(** (C23) When the hardware has completed a read, the second half of [active_wait]
    copies the message to the reader if it is addressed to it, and otherwise keeps the
    message, at the end of the queue, exactly when the port it is addressed to is in
    use; in both cases the active is no longer busy and the port owns no buffer. *)
Theorem active_wait_read id c st s a p pool k b qb t1 t2 pd :
  waiting id s a p pool k b -> resource_is_readable (ac_resource a) = true ->
  0 ≤ cfg_size c ≤ alen (msg_data (mb_message b)) ->
  (forall l, do_header_check fn (mb_set_latency l b) c = do_header_check fn b c) ->
  aget (ac_ports a) (get_portid fn (h_dest (msg_header (mb_message b)))) = Some pd ->
  queue (bufs s) qb -> mb_stored b = false ->
  0 ≤ mbuf_age (bufs s) -> mbuf_age (bufs s) + 1 < UINT64_MAX ->
  wp (active_wait_end fn id k 0 t1 t2 c st) (fun r s' =>
    actives s' = aset (get_actid fn id) (wait_done (get_portid fn id) a p) (actives s) /\
    if do_header_check fn b c
    then fst r = ACTIVE_COMM_SUCCESS /\ queue (bufs s') qb /\
         umem s' = mem_write (cfg_buffer c) (take (Z.to_nat (cfg_size c)) (msg_data (mb_message b))) (umem s)
    else r = (ACTIVE_COMM_AGAIN, st) /\ umem s' = umem s /\
         queue (bufs s') (if resource_is_used (pt_resource pd) then qb ++ [pool_base pool + k] else qb)) s.
Proof.
  intros Hw Hread Hsz Hlat Hpd Hq Hst Hpos Hmax.
  destruct Hw as [(Ha & Hp & Hpr) [Hl Hml] Hwin [Hpool Hmb] Hk Hb Hu].
  unfold active_wait_end. wp_step. eapply wp_lock_active; [done|done|].
  wp_step. eapply wp_active_read; [simpl; by eapply aget_aset_same|].
  wp_step. eapply wp_active_port_read; [simpl; by eapply aget_aset_same|done|].
  rewrite Hpool. simpl. wp_step. wp_step. apply wp_mbuffer_get; [done|].
  wp_step. apply wp_compute_latency. intros l.
  wp_step. eapply wp_buf_update; [done|]. rewrite Hread.
  set (b1 := mb_set_latency _ b). wp_step. wp_step. eapply wp_buf_read; [simpl; by eapply aget_aset_same|].
  replace (do_header_check fn b1 c) with (do_header_check fn b c) by (symmetry; apply Hlat).
  destruct (do_header_check fn b c).
  - wp_step. apply wp_read_clock. intros t3 h3. wp_step. apply wp_copy_to_user; [simpl; lia|].
    wp_step. apply wp_read_clock. intros t4 h4. wp_step. apply wp_compute_latency. intros l2.
    wp_step. eapply wp_buf_update; [simpl; by eapply aget_aset_same|]. wp_step. simpl.
    wp_step. eapply wp_buf_read; [simpl; by eapply aget_aset_same, aget_aset_same|]. wp_step.
    wp_step. eapply (wait_finish _ _ pool k _ _ p (mb_set_latency _ b1)); simpl;
      [by eapply aget_aset_same|done|by destruct Hwin as (?&?&?); split_and!; simpl; rewrite ?length_aset|
       done|done|by eapply aget_aset_same, aget_aset_same|done|].
    wp_step. simpl. split; [rewrite aset_aset_eq; by destruct a; simpl in *; subst|]. split_and!; try done.
    rewrite !aset_aset_eq. eapply (queue_write_unstored (bufs s)); try done.
    unfold mb_stored. simpl. by rflags.
  - wp_step. eapply wp_unwrap; [done|]. wp_step. simpl.
    wp_step. eapply wp_buf_read; [simpl; by eapply aget_aset_same|]. wp_step. simpl.
    wp_step. eapply (wait_finish _ _ pool k _ _ p b1); simpl;
      [by eapply aget_aset_same|done|by destruct Hwin as (?&?&?); split_and!; simpl; rewrite ?length_aset|
       done|done|by eapply aget_aset_same|done|].
    wp_step. simpl. split; [rewrite aset_aset_eq; by destruct a; simpl in *; subst|]. split_and!; try done.
    destruct (resource_is_used (pt_resource pd)); simpl.
    + unfold set_mbuf_age, set_mbuf. simpl. rewrite aset_aset_eq.
      eapply (queue_store (bufs s) qb _ b (mbuffer_kept (mbuf_age (bufs s)) b1)); try done.
      unfold mb_stored. unfold mb_used in Hu. simpl. rflags. by rewrite Hu.
    + rewrite !aset_aset_eq. eapply (queue_write_unstored (bufs s)); try done.
      unfold mb_stored. simpl. by rflags.
Qed.

End spec.
