(* ===== verification/ActivePorts.v ===== *)
(** Ports of actives: search, allocation and release
    (active_search, active_alloc and active_release of src/kernel/noc/active.c).

    The invariant ties the counters of an active to the ports it has in use. *)

From S2P Require Import Prelude.
From S2P Require Import Hlib.
From S2P Require Import Mbuffer.
From S2P Require Import Requests.
From S2P Require Import Active.
From S2P Require Import ActiveSpec.

Section ports.
Context `{H : Hlib} `{N : NocHw} (fn : active_functions).

Definition port_used (p : port) : bool := resource_is_used (pt_resource p).

Record ports_ok (a : active) : Prop := {
  po_length : alen (ac_ports a) = ac_nports a;
  po_used : used_ports (ac_portpool a) = countb port_used (ac_ports a);
  po_refcount : ac_refcount a = countb port_used (ac_ports a);
  po_unlocked : ac_lock a = false;
}.

Definition pool_ok (s : noc) : Prop :=
  Forall ports_ok (actives s) /\ mbuf_lock (bufs s) = false.

(** The active that [active_search] looks for. *)
Definition act_hit (local remote type : Z) (a : active) : bool :=
  resource_is_used (ac_resource a) &&
  negb ((type =? ACTIVE_TYPE_INPUT) && negb (resource_is_readable (ac_resource a))) &&
  negb ((type =? ACTIVE_TYPE_OUTPUT) && negb (resource_is_writable (ac_resource a))) &&
  (ac_local a =? local) && (ac_remote a =? remote).

Context {HL : HlibLaws H}.

Lemma pool_ok_get s i a : pool_ok s -> aget (actives s) i = Some a -> ports_ok a.
Proof. intros [Hall _] Ha. by eapply Forall_aget. Qed.

Lemma active_search_spec local remote type s :
  pool_ok s ->
  wp (active_search local remote type) (fun r s' =>
    s' = s /\
    ((r = err EBUSY /\ Forall (fun a => act_hit local remote type a = false) (actives s)) \/
     (exists a, aget (actives s) r = Some a /\ act_hit local remote type a = true /\
        forall j b, j < r -> aget (actives s) j = Some b -> act_hit local remote type b = false))) s.
Proof.
  intros Hok. unfold active_search. wp_step. wp_step. rewrite Nat2Z.id.
  set (f := fun i => match aget (actives s) i with Some a => act_hit local remote type a | None => false end).
  apply (wp_kfor (fun i r t => r = err EBUSY /\ t = s /\ forall j, 0 ≤ j < i -> f j = false)).
  - split_and!; try done. lia.
  - intros j r t Hj (-> & -> & Hpre). destruct (aget_is_Some (actives s) j) as [a Ha]; [lia|].
    wp_step. eapply wp_lock_active; [done|by apply (po_unlocked _ (pool_ok_get _ _ _ Hok Ha))|].
    wp_step. eapply wp_active_read; [simpl; by eapply aget_aset_same|].
    wp_step. eapply wp_unlock_active; [simpl; by eapply aget_aset_same|]. wp_step.
    rewrite ac_unlock_lock by (by apply (po_unlocked _ (pool_ok_get _ _ _ Hok Ha))).
    simpl. rewrite aset_aset_eq.
    assert (set_actives (aset j a (actives s)) (set_actives (aset j (ac_set_lock true a) (actives s)) s) = s) as ->.
    { unfold set_actives. simpl. rewrite aset_id by done. by destruct s. }
    assert (Hf : f j = act_hit local remote type a) by (unfold f; by rewrite Ha).
    set (skip := if negb _ then _ else _).
    assert (Hskip : skip = negb (act_hit local remote type a)).
    { unfold skip, act_hit.
      destruct (resource_is_used _), (type =? ACTIVE_TYPE_INPUT), (type =? ACTIVE_TYPE_OUTPUT),
        (resource_is_readable _), (resource_is_writable _), (ac_local a =? local), (ac_remote a =? remote); done. }
    rewrite Hskip. destruct (act_hit local remote type a) eqn:Eh; simpl.
    + split; [done|]. right. exists a. split_and!; try done. intros k b Hk Hb.
      pose proof (aget_lt _ _ _ Hb). specialize (Hpre k ltac:(lia)). unfold f in Hpre. by rewrite Hb in Hpre.
    + split_and!; try done. intros k Hk. destruct (decide (k = j)) as [->|]; [done|apply Hpre; lia].
  - intros r t (-> & -> & Hpre). split; [done|]. left. split; [done|].
    apply Forall_aget_iff. intros i a Ha. pose proof (aget_lt _ _ _ Ha).
    specialize (Hpre i ltac:(lia)). unfold f in Hpre. by rewrite Ha in Hpre.
Qed.

Lemma choose_port_spec {S} (a : active) (Q : Z -> S -> Prop) (s : S) :
  ports_ok a ->
  (forall r, (r = err EINVAL /\ Forall (fun p => port_used p = true) (ac_ports a)) \/
             (exists x, aget (ac_ports a) r = Some x /\ port_used x = false /\
                forall j y, j < r -> aget (ac_ports a) j = Some y -> port_used y = true) -> Q r s) ->
  wp (portpool_choose_port (ac_portpool a)) Q s.
Proof.
  intros [Hlen Hused _ _] HQ. unfold portpool_choose_port.
  change (nports (ac_portpool a)) with (ac_nports a). change (ports (ac_portpool a)) with (ac_ports a).
  rewrite Hused, <- Hlen. wp_step.
  - rewrite Nat2Z.id.
    apply (wp_kfor (fun i r t => r = err EINVAL /\ t = s /\
             forall j y, j < i -> aget (ac_ports a) j = Some y -> port_used y = true)).
    + split_and!; try done. intros j y Hj Hy. apply aget_lt in Hy. lia.
    + intros j r t Hj (-> & -> & Hpre). destruct (aget_is_Some (ac_ports a) j) as [x Hx]; [lia|].
      wp_step. eapply wp_unwrap; [done|]. fold (port_used x).
      destruct (port_used x) eqn:Eu; wp_step; simpl.
      * split_and!; try done. intros k y Hk Hy. destruct (decide (k = j)) as [->|]; [congruence|].
        eapply Hpre; [|done]. lia.
      * apply HQ. right. exists x. done.
    + intros r t (-> & -> & Hpre). apply HQ. left. split; [done|].
      apply Forall_aget_iff. intros i x Hx. eapply Hpre; [|done]. apply aget_lt in Hx. lia.
  - wp_step. apply HQ. left. split; [done|]. apply Forall_aget_iff. intros i x Hx.
    apply not_false_is_true. intros Eu.
    pose proof (countb_pos (fun p => negb (port_used p)) (ac_ports a) i x Hx) as Hpos.
    specialize (Hpos (proj2 (negb_true_iff _) Eu)).
    assert (countb (fun p => negb (port_used p)) (ac_ports a) = alen (ac_ports a) - countb port_used (ac_ports a)); [|lia].
    clear. induction (ac_ports a) as [|x l IH]; simpl; [done|]. rewrite IH. destruct (port_used x); simpl; lia.
Qed.

(** The active with port [p] marked as used, or as unused. *)
Definition act_take (a : active) (p : Z) (x : port) : active :=
  let a1 := ac_set_ports (aset p (pt_set_resource (resource_set_used (pt_resource x)) (pt_set_flags 0 x)) (ac_ports a)) a in
  let a2 := ac_set_refcount (ac_refcount a1 + 1) a1 in
  ac_set_portpool (pp_set_used (used_ports (ac_portpool a2) + 1) (ac_portpool a2)) a2.

Definition act_drop (a : active) (p : Z) (x : port) : active :=
  let a1 := ac_set_ports (aset p (pt_set_resource (resource_set_unused (pt_resource x)) x) (ac_ports a)) a in
  let a2 := ac_set_refcount (ac_refcount a1 - 1) a1 in
  ac_set_portpool (pp_set_used (used_ports (ac_portpool a2) - 1) (ac_portpool a2)) a2.

Lemma act_take_ports a p x :
  ac_ports (act_take a p x) =
  aset p (pt_set_resource (resource_set_used (pt_resource x)) (pt_set_flags 0 x)) (ac_ports a).
Proof. done. Qed.

Lemma act_drop_ports a p x :
  ac_ports (act_drop a p x) = aset p (pt_set_resource (resource_set_unused (pt_resource x)) x) (ac_ports a).
Proof. done. Qed.

Lemma port_used_take r f x : port_used (pt_set_resource (resource_set_used r) (pt_set_flags f x)) = true.
Proof. unfold port_used. simpl. by rflags. Qed.

Lemma port_used_drop r x : port_used (pt_set_resource (resource_set_unused r) x) = false.
Proof. unfold port_used. simpl. by rflags. Qed.

Lemma act_take_ok a p x :
  ports_ok a -> aget (ac_ports a) p = Some x -> port_used x = false -> ports_ok (act_take a p x).
Proof.
  intros [Hlen Hused Href Hl] Hx Hu.
  assert (Hc : countb port_used (ac_ports (act_take a p x)) = countb port_used (ac_ports a) + 1).
  { rewrite act_take_ports, (countb_aset _ _ _ _ _ Hx), Hu, port_used_take. simpl. lia. }
  split; [by rewrite act_take_ports, length_aset| | |done].
  - rewrite Hc, <- Hused. done.
  - rewrite Hc, <- Href. done.
Qed.

Lemma act_drop_ok a p x :
  ports_ok a -> aget (ac_ports a) p = Some x -> port_used x = true -> ports_ok (act_drop a p x).
Proof.
  intros [Hlen Hused Href Hl] Hx Hu.
  assert (Hc : countb port_used (ac_ports (act_drop a p x)) = countb port_used (ac_ports a) - 1).
  { rewrite act_drop_ports, (countb_aset _ _ _ _ _ Hx), Hu, port_used_drop. simpl. lia. }
  split; [by rewrite act_drop_ports, length_aset| | |done].
  - rewrite Hc, <- Hused. done.
  - rewrite Hc, <- Href. done.
Qed.

Lemma pool_ok_set s i a' : pool_ok s -> ports_ok a' -> pool_ok (set_actives (aset i a' (actives s)) s).
Proof. intros [Hall Hl] Ha. split; [by apply Forall_aset|done]. Qed.

(** Which port an allocation takes. *)
Definition alloc_choice (a : active) (portid type p : Z) : Prop :=
  if type =? ACTIVE_TYPE_OUTPUT
  then forall j y, j < p -> aget (ac_ports a) j = Some y -> port_used y = true
  else p = portid.

(** The outcomes of [active_alloc] on an active; [b] is the state of its lock. *)
Definition alloc_post (actid portid type : Z) (a : active) (b : bool) (r : Z) (a' : active) : Prop :=
  (r < 0 /\ a' = ac_set_lock b a /\
   ((r = err EINVAL /\ (type =? ACTIVE_TYPE_OUTPUT) = true /\ Forall (fun p => port_used p = true) (ac_ports a)) \/
    (r = err EINVAL /\ (type =? ACTIVE_TYPE_OUTPUT) = false /\ ~ (0 ≤ portid < ac_nports a)) \/
    (r = err EBUSY /\ (type =? ACTIVE_TYPE_OUTPUT) = false /\
       exists x, aget (ac_ports a) portid = Some x /\ port_used x = true))) \/
  (exists p x, aget (ac_ports a) p = Some x /\ port_used x = false /\ alloc_choice a portid type p /\
     r = ACTIVE_LADDRESS_COMPOSE actid p (ac_nports a) /\ a' = ac_set_lock b (act_take a p x)).

Lemma alloc_take actid portid type a b p x :
  aget (ac_ports a) p = Some x -> alloc_choice a portid type p -> (port_used x = true -> p = portid /\ (type =? ACTIVE_TYPE_OUTPUT) = false) ->
  wp (q ← port_read p;
      if negb (resource_is_used (pt_resource q)) then
        port_update p (fun p => pt_set_resource (resource_set_used (pt_resource p)) (pt_set_flags 0 p));;
        kmodify (fun a => ac_set_refcount (ac_refcount a + 1) a);;
        kmodify (fun a => ac_set_portpool (pp_set_used (used_ports (ac_portpool a) + 1) (ac_portpool a)) a);;
        mret (ACTIVE_LADDRESS_COMPOSE actid p (ac_nports a))
      else mret (err EBUSY)) (alloc_post actid portid type a b) (ac_set_lock b a).
Proof.
  intros Hx Hch Hsame. wp_step. eapply wp_port_read; [done|]. fold (port_used x).
  destruct (port_used x) eqn:Eu; simpl.
  - wp_step. left. split_and!; [apply err_neg|done|]. right; right. split; [done|].
    destruct (Hsame eq_refl) as [<- E]. split; [done|]. by exists x.
  - wp_step. eapply wp_port_update; [done|]. repeat wp_step. right. exists p, x. done.
Qed.

Lemma active_alloc_port_spec actid portid type a b :
  ports_ok a ->
  wp (active_alloc_port actid portid type) (alloc_post actid portid type a b) (ac_set_lock b a).
Proof.
  intros Hok. unfold active_alloc_port. wp_step. wp_step.
  change (ac_nports (ac_set_lock b a)) with (ac_nports a).
  change (ac_portpool (ac_set_lock b a)) with (ac_portpool a).
  destruct (type =? ACTIVE_TYPE_OUTPUT) eqn:Et; wp_step.
  - wp_step. apply (choose_port_spec a); [done|].
    intros r [[-> Hall]|(x & Hx & Hux & Hmin)].
    + wp_step. rewrite (proj2 (Z.ltb_lt _ 0) (err_neg EINVAL)). wp_step. left.
      split_and!; [apply err_neg|done|]. by left.
    + wp_step. rewrite (proj2 (Z.ltb_ge _ 0)) by (apply aget_lt in Hx; lia).
      apply (alloc_take _ _ _ _ _ r x); [done| |congruence]. unfold alloc_choice. by rewrite Et.
  - wp_step. destruct (WITHIN portid 0 (ac_nports a)) eqn:Ew; simpl.
    + apply WITHIN_true in Ew. destruct (aget_is_Some (ac_ports a) portid) as [x Hx].
      { by rewrite (po_length _ Hok). }
      apply (alloc_take _ _ _ _ _ portid x); [done| |done]. unfold alloc_choice. by rewrite Et.
    + apply WITHIN_false in Ew. wp_step. left. split_and!; [apply err_neg|done|]. right; left. done.
Qed.

Lemma ports_ok_unlock a : ports_ok a -> ac_set_lock false a = a.
Proof. intros Hok. pose proof (po_unlocked _ Hok). destruct a. simpl in *. by subst. Qed.

(** ** Allocation and release on the pool *)

(** The active that a search selects: the first one that fits. *)
Definition first_hit (local remote type : Z) (s : noc) (i : Z) (a : active) : Prop :=
  aget (actives s) i = Some a /\ act_hit local remote type a = true /\
  forall j b, j < i -> aget (actives s) j = Some b -> act_hit local remote type b = false.

Lemma active_alloc_cases local remote portid type s :
  pool_ok s ->
  wp (active_alloc local remote portid type) (fun r s' =>
    (r = err EBUSY /\ s' = s /\ Forall (fun a => act_hit local remote type a = false) (actives s)) \/
    (exists i a a', first_hit local remote type s i a /\ alloc_post i portid type a false r a' /\
       s' = set_actives (aset i a' (actives s)) s)) s.
Proof.
  intros Hok. unfold active_alloc. wp_step. eapply wp_mono; [by apply active_search_spec|].
  intros i s1 [-> [[-> Hno]|(a & Ha & Hh & Hmin)]].
  { rewrite (proj2 (Z.ltb_lt _ 0) (err_neg EBUSY)). wp_step. by left. }
  rewrite (proj2 (Z.ltb_ge _ 0)) by (apply aget_lt in Ha; lia).
  pose proof (pool_ok_get _ _ _ Hok Ha) as Hpo.
  wp_step. eapply wp_lock_active; [done|by apply Hpo|].
  wp_step. eapply wp_with_active; [simpl; by eapply aget_aset_same|].
  eapply wp_mono; [by apply active_alloc_port_spec|].
  intros r a' Hpost. wp_step. eapply wp_unlock_active; [simpl; by eapply aget_aset_same, aget_aset_same|].
  wp_step. right. exists i, a, (ac_set_lock false a').
  split; [done|]. split.
  - destruct Hpost as [(Hr & -> & Hc)|(p & x & Hx & Hu & Hch & -> & ->)]; [by left|].
    right. by exists p, x.
  - unfold set_actives. simpl. by rewrite !aset_aset_eq.
Qed.

(** A port that can be released: no message for it is stored. *)
Definition no_pending (a : active) (portid : Z) (s : noc) : Prop :=
  resource_is_readable (ac_resource a) = true ->
  forall j b, 0 ≤ j < nmbuffers (ac_mbufferpool a) ->
    aget (mbuf (bufs s)) (pool_base (ac_mbufferpool a) + j) = Some b ->
    mb_matches (ac_mbufferpool a) (ACTIVE_LADDRESS_COMPOSE (ac_local a) portid (ac_nports a)) ACTIVE_ANY_SRC b
    = false.

(** The buffers an active refers to, in an order. *)
Definition bufs_ok (a : active) (s : noc) : Prop :=
  window_ok (ac_mbufferpool a) (bufs s) /\ exists qb, queue (bufs s) qb.

Lemma release_pending a portid s :
  mbuf_lock (bufs s) = false -> bufs_ok a s ->
  wp (if resource_is_readable (ac_resource a) then
        r ← with_bufs (mbuffer_search (ac_mbufferpool a)
              (ACTIVE_LADDRESS_COMPOSE (ac_local a) portid (ac_nports a)) ACTIVE_ANY_SRC);
        mret (0 <=? r)
      else mret false)
     (fun b s' => s' = s /\ (b = false <-> no_pending a portid s)) s.
Proof.
  intros Hl [Hwin [qb Hq]]. unfold no_pending. destruct (resource_is_readable (ac_resource a)); [|by wp_step].
  wp_step. apply wp_with_bufs. eapply wp_mono.
  { apply mbuffer_search_spec; [done|done|]. intros i b. by eapply queue_ages. }
  intros r bs [-> Hr]. wp_step. split; [by destruct s|].
  destruct Hr as [[-> Hno]|(b & Hr & Hb & Hm & _)].
  - pose proof (err_neg EINVAL). rewrite (proj2 (Z.leb_gt _ _)) by lia. split; [|done]. intros _ _. exact Hno.
  - rewrite (proj2 (Z.leb_le _ _)) by lia. split; [done|]. intros Hno. rewrite (Hno eq_refl r b Hr Hb) in Hm. done.
Qed.

(** The outcomes of [active_release]. *)
Definition release_post (portid : Z) (a : active) (p : port) (s : noc) (r : Z) (a' : active) : Prop :=
  (r < 0 /\ a' = a /\
   ((r = err EBADF /\ resource_is_used (ac_resource a) = false) \/
    (r = err EBUSY /\ ~ no_pending a portid s) \/
    (r = err EINVAL /\ port_used p = false))) \/
  (r = 0 /\ resource_is_used (ac_resource a) = true /\ no_pending a portid s /\ port_used p = true /\
   a' = act_drop a portid p).

Lemma release_body actid portid a p s :
  aget (actives s) actid = Some a -> aget (ac_ports a) portid = Some p -> ac_lock a = false ->
  wp (p ← with_active actid (port_read portid);
      if resource_is_used (pt_resource p) then
        with_active actid (
          port_update portid (fun p => pt_set_resource (resource_set_unused (pt_resource p)) p);;
          kmodify (fun a => ac_set_refcount (ac_refcount a - 1) a);;
          kmodify (fun a => ac_set_portpool (pp_set_used (used_ports (ac_portpool a) - 1) (ac_portpool a)) a));;
        mret 0
      else mret (err EINVAL))
     (fun r s' => if port_used p
        then r = 0 /\ s' = set_actives (aset actid (ac_set_lock true (act_drop a portid p)) (actives s)) s
        else r = err EINVAL /\ s' = set_actives (aset actid (ac_set_lock true a) (actives s)) s)
     (set_actives (aset actid (ac_set_lock true a) (actives s)) s).
Proof.
  intros Ha Hp Hl. wp_step. eapply wp_active_port_read; [simpl; by eapply aget_aset_same|done|].
  fold (port_used p). destruct (port_used p); [|by wp_step].
  wp_step. eapply wp_with_active; [simpl; by eapply aget_aset_same|].
  wp_step. eapply wp_port_update; [done|]. repeat wp_step.
  split; [done|]. unfold set_actives. simpl. by rewrite aset_aset_eq.
Qed.

Lemma active_release_cases id a p s :
  valid_id fn id s a p -> pool_ok s -> bufs_ok a s ->
  wp (active_release fn id) (fun r s' => exists a',
    release_post (get_portid fn id) a p s r a' /\ s' = set_actives (aset (get_actid fn id) a' (actives s)) s) s.
Proof.
  intros Hid Hok Hb. pose proof Hid as (Ha & Hp & Hpr).
  assert (Hl : ac_lock a = false) by (by eapply po_unlocked, pool_ok_get).
  unfold active_release. wp_step. apply (wp_valid_call fn id a p); [done|]. wp_step. wp_step; [done|].
  wp_step. eapply wp_lock_active; [done|done|].
  wp_step. eapply wp_active_read; [simpl; by eapply aget_aset_same|].
  set (s1 := set_actives (aset (get_actid fn id) (ac_set_lock true a) (actives s)) s).
  assert (Hun : forall (r : Z) a', release_post (get_portid fn id) a p s r a' -> ac_lock a' = false ->
    wp (unlock_active (get_actid fn id);; mret r) (fun r s' => exists a',
      release_post (get_portid fn id) a p s r a' /\ s' = set_actives (aset (get_actid fn id) a' (actives s)) s)
      (set_actives (aset (get_actid fn id) (ac_set_lock true a') (actives s)) s)).
  { intros r a' Hpost Hl'. wp_step. eapply wp_unlock_active; [simpl; by eapply aget_aset_same|]. wp_step.
    exists a'. split; [done|]. rewrite ac_unlock_lock by done. unfold set_actives. simpl. by rewrite aset_aset_eq. }
  simpl. destruct (resource_is_used (ac_resource a)) eqn:Eu; simpl; wp_step.
  2:{ wp_step. apply Hun; [|done]. left. split_and!; [apply err_neg|done|by left]. }
  wp_step. eapply wp_mono; [apply (release_pending a (get_portid fn id) s1); [apply Hok|exact Hb]|].
  intros b s2 [-> Hpend]. change (no_pending a (get_portid fn id) s1) with (no_pending a (get_portid fn id) s) in Hpend.
  destruct b.
  { wp_step. apply Hun; [|done]. left. split_and!; [apply err_neg|done|]. right; left. split; [done|].
    intros Hno. by apply Hpend in Hno. }
  eapply wp_mono; [by apply release_body|]. simpl. intros r s2. destruct (port_used p) eqn:Ep; intros [-> ->].
  - apply Hun; [|done]. right. split_and!; try done. by apply Hpend.
  - apply Hun; [|done]. left. split_and!; [apply err_neg|done|]. by right; right.
Qed.

Lemma compose_nonneg i p n : 0 ≤ i -> 0 ≤ p -> 0 ≤ n -> 0 ≤ ACTIVE_LADDRESS_COMPOSE i p n.
Proof. unfold ACTIVE_LADDRESS_COMPOSE. nia. Qed.

Lemma alloc_post_taken i portid type a p x r a' :
  ports_ok a -> 0 ≤ i -> aget (ac_ports a) p = Some x -> port_used x = false -> alloc_choice a portid type p ->
  alloc_post i portid type a false r a' -> 0 ≤ r.
Proof.
  intros Hok Hi Hx Hu Hch [(_ & _ & Hc)|(p' & x' & Hx' & _ & _ & -> & _)].
  2:{ apply aget_lt in Hx'. pose proof (po_length _ Hok). apply compose_nonneg; lia. }
  exfalso. unfold alloc_choice in Hch.
  destruct Hc as [(_ & E & Hall)|[(_ & E & Hr)|(_ & E & y & Hy & Hyu)]].
  - rewrite (Forall_aget _ _ _ _ Hall Hx) in Hu. done.
  - rewrite E in Hch. subst p. apply aget_lt in Hx. rewrite (po_length _ Hok) in Hx. done.
  - rewrite E in Hch. congruence.
Qed.

Lemma first_hit_unique local remote type s i j a b :
  first_hit local remote type s i a -> first_hit local remote type s j b -> i = j /\ a = b.
Proof.
  intros (Ha & Hha & Hi) (Hb & Hhb & Hj).
  destruct (Ztrichotomy i j) as [E|[->|E]]; [|split; congruence|].
  - rewrite (Hj i a) in Hha by (done || lia). done.
  - rewrite (Hi j b) in Hhb by (done || lia). done.
Qed.

(** ** Theorems *)

(** (C22) [active_alloc] keeps the counters of every active equal to the number of its
    ports in use.  It succeeds exactly when the first active that connects the two
    nodes in the given direction has the wanted port unused (the requested port of an
    input, the first unused one of an output); the result then is the address of that
    port, which is now in use; on failure nothing changes. *)
Theorem active_alloc_correct local remote portid type s :
  pool_ok s ->
  wp (active_alloc local remote portid type) (fun r s' =>
    pool_ok s' /\
    (0 ≤ r <-> exists i a p x, first_hit local remote type s i a /\ aget (ac_ports a) p = Some x /\
                 port_used x = false /\ alloc_choice a portid type p) /\
    (r < 0 -> s' = s) /\
    (forall i a, 0 ≤ r -> first_hit local remote type s i a ->
       exists p x, alloc_choice a portid type p /\ aget (ac_ports a) p = Some x /\ port_used x = false /\
         r = ACTIVE_LADDRESS_COMPOSE i p (ac_nports a) /\
         s' = set_actives (aset i (act_take a p x) (actives s)) s)) s.
Proof.
  intros Hok. eapply wp_mono; [by apply active_alloc_cases|].
  intros r s' [(-> & -> & Hno)|(i & a & a' & Hf & Hpost & ->)].
  - pose proof (err_neg EBUSY). split_and!; try done; [|intros; lia]. split; [lia|].
    intros (i & a & p & x & (Ha & Hh & _) & _). rewrite (Forall_aget _ _ _ _ Hno Ha) in Hh. done.
  - pose proof Hf as (Ha & _). pose proof (pool_ok_get _ _ _ Hok Ha) as Hpo.
    pose proof (aget_lt _ _ _ Ha) as Hi.
    assert (Hiff : 0 ≤ r <-> exists i a p x, first_hit local remote type s i a /\ aget (ac_ports a) p = Some x /\
                 port_used x = false /\ alloc_choice a portid type p).
    { split.
      - intros Hr. destruct Hpost as [(? & _)|(p & x & Hx & Hu & Hch & _)]; [lia|]. by exists i, a, p, x.
      - intros (j & b & p & x & Hf' & Hx & Hu & Hch).
        destruct (first_hit_unique _ _ _ _ _ _ _ _ Hf Hf') as [<- <-].
        eapply (alloc_post_taken i portid type a p x); try done; lia. }
    destruct Hpost as [(Hr & -> & _)|(p & x & Hx & Hu & Hch & Er & ->)]; rewrite ports_ok_unlock.
    + rewrite set_actives_id by done. split_and!; [done|done|done|intros; lia].
    + done.
    + split_and!; [by apply pool_ok_set, act_take_ok|done|intros Hr|].
      * apply aget_lt in Hx. pose proof (po_length _ Hpo). pose proof (compose_nonneg i p (ac_nports a)). lia.
      * intros j b _ Hf'. destruct (first_hit_unique _ _ _ _ _ _ _ _ Hf Hf') as [<- <-]. by exists p, x.
    + by apply act_take_ok.
Qed.

(** The address of a port of a pool whose actives have [n] ports determines the port. *)
Definition addresses_ok (n : Z) : Prop :=
  forall i p, 0 ≤ i -> 0 ≤ p < n ->
    get_actid fn (ACTIVE_LADDRESS_COMPOSE i p n) = i /\ get_portid fn (ACTIVE_LADDRESS_COMPOSE i p n) = p.

Lemma address_valid n s i a p x :
  addresses_ok n -> ports_ok a -> ac_nports a = n -> aget (actives s) i = Some a -> aget (ac_ports a) p = Some x ->
  valid_id fn (ACTIVE_LADDRESS_COMPOSE i p n) s a x /\
  get_actid fn (ACTIVE_LADDRESS_COMPOSE i p n) = i /\ get_portid fn (ACTIVE_LADDRESS_COMPOSE i p n) = p.
Proof.
  intros Had Hpo Hn Ha Hx. pose proof (aget_lt _ _ _ Ha). pose proof (aget_lt _ _ _ Hx).
  rewrite (po_length _ Hpo), Hn in *. destruct (Had i p) as [E1 E2]; [lia|lia|].
  unfold valid_id. rewrite E1, E2, Hn. auto.
Qed.

Lemma act_drop_take a p x y :
  ac_lock a = false ->
  act_drop (act_take a p x) p y =
  ac_set_ports (aset p (pt_set_resource (resource_set_unused (pt_resource y)) y) (ac_ports a)) a.
Proof.
  intros Hl. unfold act_drop, act_take, ac_ports. destruct a as [??????? [ps n u] ????]. simpl.
  rewrite aset_aset_eq. unfold ac_set_ports, ac_set_portpool, pp_set_ports. simpl. by rewrite !Z.add_simpl_r.
Qed.

(** Releasing a port that is in use and has no messages. *)
Lemma release_used n s i a p x :
  addresses_ok n -> pool_ok s -> ac_nports a = n -> aget (actives s) i = Some a -> aget (ac_ports a) p = Some x ->
  resource_is_used (ac_resource a) = true -> bufs_ok a s -> no_pending a p s ->
  wp (active_release fn (ACTIVE_LADDRESS_COMPOSE i p n)) (fun r s' =>
    if port_used x then r = 0 /\ s' = set_actives (aset i (act_drop a p x) (actives s)) s
    else r = err EINVAL /\ s' = s) s.
Proof.
  intros Had Hok Hn Ha Hx Hu Hb Hno. pose proof (pool_ok_get _ _ _ Hok Ha) as Hpo.
  destruct (address_valid n s i a p x) as (Hid & E1 & E2); try done.
  eapply wp_mono; [by apply (active_release_cases _ a x)|]. rewrite E1, E2.
  intros r s' (a' & Hpost & ->).
  destruct Hpost as [(Hr & -> & [[_ ?]|[[_ Hc]|[-> ->]]])|(-> & _ & _ & -> & ->)]; try congruence.
  - split; [done|]. by rewrite set_actives_id.
  - done.
Qed.

(** The outcomes of [active_alloc] in short. *)
Lemma active_alloc_result local remote portid type s :
  pool_ok s ->
  wp (active_alloc local remote portid type) (fun r s' =>
    (r < 0 /\ s' = s) \/
    (exists i a p x, first_hit local remote type s i a /\ aget (ac_ports a) p = Some x /\ port_used x = false /\
       alloc_choice a portid type p /\ 0 ≤ r /\ r = ACTIVE_LADDRESS_COMPOSE i p (ac_nports a) /\
       s' = set_actives (aset i (act_take a p x) (actives s)) s)) s.
Proof.
  intros Hok. eapply wp_mono; [by apply active_alloc_cases|].
  intros r s1 [(-> & -> & _)|(i & a & a' & Hf & Hpost & ->)]; [left; split; [apply err_neg|done]|].
  pose proof Hf as (Ha & _). pose proof (pool_ok_get _ _ _ Hok Ha) as Hpo. pose proof (aget_lt _ _ _ Ha).
  destruct Hpost as [(Hr & -> & _)|(p & x & Hx & Hu & Hch & -> & ->)].
  - left. split; [done|]. by rewrite ports_ok_unlock, set_actives_id.
  - right. exists i, a, p, x. rewrite ports_ok_unlock by (by apply act_take_ok).
    pose proof (aget_lt _ _ _ Hx). pose proof (po_length _ Hpo).
    split_and!; try done. apply compose_nonneg; lia.
Qed.

(** A port that was just allocated can be released as long as no message for it
    is stored, which makes the port unused and gives the active its counters back;
    releasing it a second time fails with [-EINVAL] and changes nothing. *)
Theorem active_alloc_release local remote portid type s n :
  addresses_ok n -> pool_ok s ->
  Forall (fun a => ac_nports a = n /\ bufs_ok a s /\ forall p, no_pending a p s) (actives s) ->
  wp (r ← active_alloc local remote portid type;
      if r <? 0 then mret (r, 0, err EINVAL) else
      r1 ← active_release fn r;
      r2 ← active_release fn r;
      mret (r, r1, r2))
     (fun res s' =>
        snd (fst res) = 0 /\ snd res = err EINVAL /\ pool_ok s' /\
        (s' = s \/ exists i a p x y, aget (actives s) i = Some a /\ aget (ac_ports a) p = Some x /\
           port_used x = false /\ port_used y = false /\
           s' = set_actives (aset i (ac_set_ports (aset p y (ac_ports a)) a) (actives s)) s)) s.
Proof.
  intros Had Hok Hall. wp_step. eapply wp_mono; [by apply active_alloc_result|].
  intros r s1 [[Hr ->]|(i & a & p & x & (Ha & Hh & _) & Hx & Hu & _ & Hr & Er & ->)].
  { rewrite (proj2 (Z.ltb_lt _ 0) Hr). wp_step. auto. }
  rewrite (proj2 (Z.ltb_ge _ 0) Hr), Er. clear Hr Er.
  pose proof (pool_ok_get _ _ _ Hok Ha) as Hpo. destruct (Forall_aget _ _ _ _ Hall Ha) as (Hn & Hb & Hno).
  rewrite Hn. set (y := pt_set_resource (resource_set_used (pt_resource x)) (pt_set_flags 0 x)).
  set (z := pt_set_resource (resource_set_unused (pt_resource y)) y).
  pose proof (aget_aset_same _ _ _ y Hx) as Hy.
  pose proof (aget_aset_same _ _ _ z Hx) as Hz.
  assert (Hau : resource_is_used (ac_resource a) = true).
  { unfold act_hit in Hh. rewrite !andb_true_iff in Hh. tauto. }
  assert (Hok1 := pool_ok_set s i _ Hok (act_take_ok a p x Hpo Hx Hu)).
  wp_step. eapply wp_mono.
  { apply (release_used n _ i (act_take a p x) p y); try done; [simpl; by eapply aget_aset_same|apply Hno]. }
  unfold y at 1. rewrite port_used_take. intros r1 s2 [-> ->].
  rewrite act_drop_take by apply Hpo.
  change (pt_set_resource (resource_set_unused (pt_resource y)) y) with z.
  unfold set_actives. simpl. rewrite aset_aset_eq.
  assert (Hok2 : ports_ok (ac_set_ports (aset p z (ac_ports a)) a)).
  { unfold z. rewrite <- (act_drop_take a p x) by apply Hpo.
    apply act_drop_ok; [by apply act_take_ok|done|apply port_used_take]. }
  wp_step. eapply wp_mono.
  { apply (release_used n _ i (ac_set_ports (aset p z (ac_ports a)) a) p z); try done;
      [by apply (pool_ok_set s)|simpl; by eapply aget_aset_same|apply Hno]. }
  unfold z at 1. rewrite port_used_drop. intros r2 s3 [-> ->]. wp_step.
  split_and!; try done; [by apply (pool_ok_set s)|].
  right. exists i, a, p, x, z. split_and!; try done. apply port_used_drop.
Qed.

Lemma port_requested_zero r x : port_is_requested (pt_set_resource r (pt_set_flags 0 x)) = false.
Proof. done. Qed.

(** A port that is released while its write request is pending, and then
    allocated again, is no longer marked as requested although its request is still in
    the ring buffer: no queue of requests describes the active any more. *)
Theorem release_forgets_request n s i a p x q :
  addresses_ok n -> pool_ok s -> ac_nports a = n ->
  first_hit (ac_local a) (ac_remote a) ACTIVE_TYPE_OUTPUT s i a ->
  bufs_ok a s -> no_pending a p s ->
  aget (ac_ports a) p = Some x -> port_used x = true ->
  (forall j y, j < p -> aget (ac_ports a) j = Some y -> port_used y = true) ->
  act_reqs a q -> p ∈ q ->
  wp (active_release fn (ACTIVE_LADDRESS_COMPOSE i p n);;
      active_alloc (ac_local a) (ac_remote a) 0 ACTIVE_TYPE_OUTPUT)
     (fun r s' => r = ACTIVE_LADDRESS_COMPOSE i p n /\
        exists a', aget (actives s') i = Some a' /\ ac_requests a' = ac_requests a /\
          forall q', ~ act_reqs a' q') s.
Proof.
  intros Had Hok Hn (Ha & Hh & Hmin) Hb Hno Hx Hu Hlow Hreq Hq.
  pose proof (pool_ok_get _ _ _ Hok Ha) as Hpo.
  assert (Hau : resource_is_used (ac_resource a) = true).
  { unfold act_hit in Hh. rewrite !andb_true_iff in Hh. tauto. }
  wp_step. eapply wp_mono; [by apply (release_used n _ i a p x)|]. rewrite Hu. intros r s1 [-> ->].
  set (y := pt_set_resource (resource_set_unused (pt_resource x)) x).
  set (s1 := set_actives _ s).
  assert (Hf1 : first_hit (ac_local a) (ac_remote a) ACTIVE_TYPE_OUTPUT s1 i (act_drop a p x)).
  { split_and!; [by eapply aget_aset_same|done|]. intros j b Hj.
    simpl. rewrite aget_aset_ne by lia. by apply Hmin. }
  assert (Hy : aget (ac_ports (act_drop a p x)) p = Some y) by (by eapply aget_aset_same).
  eapply wp_mono; [apply active_alloc_cases|].
  { by apply pool_ok_set, act_drop_ok. }
  intros r s2 [(_ & _ & Hall)|(j & b & b' & Hf & Hpost & ->)].
  { destruct Hf1 as (H1 & H2 & _). rewrite (Forall_aget _ _ _ _ Hall H1) in H2. done. }
  destruct (first_hit_unique _ _ _ _ _ _ _ _ Hf1 Hf) as [<- <-].
  destruct Hpost as [(_ & _ & Hbad)|(p' & z & Hz & Hzu & Hch & -> & ->)].
  { exfalso. destruct Hbad as [(_ & _ & Hall)|[(_ & [=] & _)|(_ & [=] & _)]].
    pose proof (Forall_aget _ _ _ _ Hall Hy) as E. unfold y in E. by rewrite port_used_drop in E. }
  assert (p' = p) as ->.
  { unfold alloc_choice in Hch. simpl in Hch. destruct (Ztrichotomy p' p) as [E|[E|E]]; [|done|].
    - rewrite act_drop_ports, aget_aset_ne in Hz by lia. rewrite (Hlow p' z) in Hzu by done. done.
    - pose proof (Hch p y ltac:(lia) Hy) as E'. unfold y in E'. by rewrite port_used_drop in E'. }
  split; [by rewrite <- Hn|]. eexists. split; [by eapply aget_aset_same, aget_aset_same|].
  split; [done|]. intros q' Hq'.
  assert (q' = q) as -> by (by eapply requests_repr_unique; [apply Hq'|apply Hreq]).
  set (w := pt_set_resource (resource_set_used (pt_resource z)) (pt_set_flags 0 z)).
  assert (Hw : aget (ac_ports (ac_set_lock false (act_take (act_drop a p x) p z))) p = Some w).
  { by eapply aget_aset_same. }
  pose proof (ar_flag _ _ Hq' p w Hw) as E. rewrite bool_decide_true in E by done.
  unfold w in E. by rewrite port_requested_zero in E.
Qed.

End ports.
