(* ===== verification/ActiveInit.v ===== *)
(** Creation of the actives of a facility (_active_create and _active_open of
    src/kernel/noc/active.c, as do_mailbox_init and do_portal_init call them).

    Mailboxes and portals are set up in the same way: the input active of the local
    node is created and one output active is opened for each node of the processor.
    The section below verifies this for an arbitrary table of functions. *)

From S2P Require Import Prelude.
From S2P Require Import Hlib.
From S2P Require Import Mbuffer.
From S2P Require Import Requests.
From S2P Require Import Active.
From S2P Require Import ActiveSpec.
From S2P Require Import ActivePorts.

(** The nodes of the processor, from the HAL. *)
Class NocTopology `{NocHw} := {
  PROCESSOR_NOC_NODES_NUM : Z;
  processor_node_get_num : Z;
}.

Class NocTopologyLaws `(T : NocTopology) : Prop := {
  node_num_range : 0 ≤ processor_node_get_num < PROCESSOR_NOC_NODES_NUM;
  node_num_local : node_is_local processor_node_get_num = true;
}.

Section init.
Context `{H : Hlib} `{N : NocHw} {T : NocTopology} (fn : active_functions).

(** Opening an output active for every node, as the initialisation does. *)
Definition open_all (local : Z) : K noc unit :=
  kfor (Z.to_nat PROCESSOR_NOC_NODES_NUM) 0 (fun i _ =>
    r ← _active_open fn local i;
    KASSERT (0 <=? r);;
    mret (tt, false)) tt.

(** An active none of whose ports is in use. *)
Record act_fresh (n : Z) (pool aux : mbuffer_pool) (a : active) : Prop := {
  fr_ports : ports_ok a;
  fr_unused : Forall (fun p => port_used p = false) (ac_ports a);
  fr_reqs : act_reqs a [];
  fr_nports : ac_nports a = n;
  fr_pools : ac_mbufferpool a = pool /\ ac_mbufferpool_aux a = aux;
  fr_capacity : rq_max_capacity (ac_requests a) = n;
  fr_idle : Forall (fun p => pt_mbufferid p < 0) (ac_ports a);
}.

(** The input active of [local], and the output active from [local] to [remote]. *)
Definition is_input (local : Z) (a : active) : Prop :=
  flags_of (ac_resource a) = RFlags true false true false /\ ac_local a = local /\ ac_remote a = -1.

Definition is_output (local remote : Z) (a : active) : Prop :=
  flags_of (ac_resource a) = RFlags true false false true /\ ac_local a = local /\ ac_remote a = remote.

(** The pool after the input active and the output actives to nodes below [k]. *)
Record pool_opened (n local : Z) (pool aux : mbuffer_pool) (k : Z) (s : noc) : Prop := {
  od_fresh : Forall (act_fresh n pool aux) (actives s);
  od_lock : mbuf_lock (bufs s) = false;
  od_input : exists a, aget (actives s) 0 = Some a /\ is_input local a;
  od_outputs i : 0 ≤ i < k -> exists a, aget (actives s) (1 + i) = Some a /\ is_output local i a;
  od_rest i a : 1 + k ≤ i -> aget (actives s) i = Some a -> resource_is_used (ac_resource a) = false;
}.

Context {HL : HlibLaws H} {TL : NocTopologyLaws T}.

Lemma fresh_pool_ok n pool aux s :
  Forall (act_fresh n pool aux) (actives s) -> mbuf_lock (bufs s) = false -> pool_ok s.
Proof. intros Hf Hl. split; [|done]. eapply Forall_impl; [exact Hf|]. by intros a []. Qed.

Lemma active_init_fresh n pool aux hwfd local remote mode a :
  act_fresh n pool aux a -> act_fresh n pool aux (active_init hwfd local remote mode a).
Proof.
  intros [[H1 H2 H3 H4] Hu [] Hn Hp Hc Hi]. split; try done. split; try done.
  simpl. change (ac_ports (active_init hwfd local remote mode a)) with (ac_ports a).
  clear - Hu. induction Hu as [|x l Hx _ IH]; simpl; [done|]. rewrite Hx. simpl. lia.
Qed.

Lemma set_used_fresh n pool aux r a : act_fresh n pool aux a -> act_fresh n pool aux (ac_set_resource r a).
Proof. intros [[] ? [] ? ?]. split; [by split|done|by split|done..]. Qed.

Lemma _active_alloc_spec s :
  wp _active_alloc (fun r s' =>
    (r = None /\ s' = s /\ Forall (fun a => resource_is_used (ac_resource a) = true) (actives s)) \/
    (exists i a, r = Some i /\ aget (actives s) i = Some a /\ resource_is_used (ac_resource a) = false /\
       (forall j b, j < i -> aget (actives s) j = Some b -> resource_is_used (ac_resource b) = true) /\
       s' = set_actives (aset i (ac_set_resource (resource_set_used RESOURCE_INITIALIZER) a) (actives s)) s)) s.
Proof.
  unfold _active_alloc. wp_step. wp_step. rewrite Nat2Z.id.
  apply (wp_kfor (fun i r t => r = None /\ t = s /\
    forall j b, j < i -> aget (actives s) j = Some b -> resource_is_used (ac_resource b) = true)).
  - split_and!; try done. intros j b Hj Hb. apply aget_lt in Hb. lia.
  - intros j r t Hj (-> & -> & Hpre). destruct (aget_is_Some (actives s) j) as [a Ha]; [lia|].
    wp_step. eapply wp_active_read; [done|]. destruct (resource_is_used (ac_resource a)) eqn:Eu; simpl.
    + wp_step. split_and!; try done. intros k b Hk Hb. destruct (decide (k = j)) as [->|]; [congruence|].
      eapply Hpre; [|done]. lia.
    + wp_step. eapply wp_with_active; [done|]. wp_step. wp_step. right. by exists j, a.
  - intros r t (-> & -> & Hpre). left. split_and!; try done. apply Forall_aget_iff.
    intros i a Ha. eapply Hpre; [|done]. apply aget_lt in Ha. lia.
Qed.

(** The entries of a table as the initialisation of the facilities sets them. *)
Lemma fifo_empty n :
  (exists k, 0 ≤ k /\ n = 2 ^ k) -> requests_repr (RequestsFifo 0 0 n 0 (replicate (Z.to_nat n) (-1))) [].
Proof.
  intros (k & Hk & Hn). assert (Hpos : 0 < n) by (subst; by apply Z.pow_pos_nonneg).
  split; simpl; try done; try lia.
  - by exists k.
  - rewrite length_replicate. lia.
  - intros j Hj. unfold slot_of. simpl. rewrite Z.mod_small by lia.
    unfold request_at, aget. simpl. rewrite bool_decide_true by lia.
    rewrite lookup_replicate_2 by lia. by destruct (bool_decide (0 ≤ j)).
Qed.

Lemma ports_fresh (l : list port) :
  let l' := map (fun p => Port RESOURCE_INITIALIZER (pt_flags p) (-1) None) l in
  Forall (fun p => port_used p = false) l' /\ countb port_used l' = 0.
Proof.
  intros l'. assert (Hun : Forall (fun p => port_used p = false) l').
  { apply Forall_map, Forall_true. intros p. apply initializer_unused. }
  split; [done|]. induction Hun as [|x k Hx _ IH]; simpl; [done|]. rewrite Hx. simpl. lia.
Qed.

Lemma table_entry_fresh n pool aux r f size (l : list port) :
  (exists k, 0 ≤ k /\ n = 2 ^ k) -> alen l = n -> Forall (fun p => pt_flags p = 0) l ->
  act_fresh n pool aux
    (Active r f (-1) (-1) (-1) 0 size
       (PortPool (map (fun p => Port RESOURCE_INITIALIZER (pt_flags p) (-1) None) l) n 0)
       pool aux (RequestsFifo 0 0 n 0 (replicate (Z.to_nat n) (-1))) false).
Proof.
  intros Hn Hlen Hfl. destruct (ports_fresh l) as [Hun Hc].
  split; [split| |split| | | |]; try done; try (unfold ac_ports; simpl; rewrite ?length_map; done).
  - by apply fifo_empty.
  - by apply NoDup_nil.
  - intros p x. unfold ac_ports. simpl. unfold aget. case_bool_decide; [|done].
    rewrite list_lookup_fmap. intros (y & Hy & ->)%fmap_Some. unfold port_is_requested. simpl.
    pose proof (Forall_lookup_1 _ _ _ _ Hfl Hy) as ->. done.
  - unfold ac_ports. simpl. by apply Forall_map, Forall_true.
Qed.

(** What the steps of the initialisation leave alone. *)
Definition init_frame (s s' : noc) : Prop :=
  bufs s' = bufs s /\ umem s' = umem s /\ alen (actives s') = alen (actives s).

Lemma init_input n pool aux hwfd local a :
  act_fresh n pool aux a ->
  let a' := active_init hwfd local (-1) resource_set_rdonly
              (ac_set_resource (resource_set_used RESOURCE_INITIALIZER) a) in
  act_fresh n pool aux a' /\ is_input local a'.
Proof.
  intros Hf a'. split; [by apply active_init_fresh, set_used_fresh|]. unfold is_input. simpl.
  rewrite flags_set_notbusy. split_and!; [|done|done].
  pose proof (flags_set_rdonly (resource_set_used RESOURCE_INITIALIZER)) as [= -> _ -> ->].
  by rewrite used_set_used.
Qed.

Lemma init_output n pool aux hwfd local remote a :
  act_fresh n pool aux a ->
  let a' := active_init hwfd local remote resource_set_wronly
              (ac_set_resource (resource_set_used RESOURCE_INITIALIZER) a) in
  act_fresh n pool aux a' /\ is_output local remote a'.
Proof.
  intros Hf a'. split; [by apply active_init_fresh, set_used_fresh|]. unfold is_output. simpl.
  rewrite flags_set_notbusy. split_and!; [|done|done].
  pose proof (flags_set_wronly (resource_set_used RESOURCE_INITIALIZER)) as [= -> _ -> ->].
  by rewrite used_set_used.
Qed.

Lemma _active_create_spec n pool aux local s :
  Forall (act_fresh n pool aux) (actives s) -> mbuf_lock (bufs s) = false -> 0 < alen (actives s) ->
  Forall (fun a => resource_is_used (ac_resource a) = false) (actives s) ->
  (forall h, 0 ≤ fst (do_create fn local h)) ->
  wp (_active_create fn local) (fun r s' => r = 0 /\ init_frame s s' /\ pool_opened n local pool aux 0 s') s.
Proof.
  intros Hf Hl Hlen Hun Hhw. unfold _active_create.
  wp_step. eapply wp_mono; [by apply active_search_spec; [..|by eapply fresh_pool_ok]|].
  intros r s1 [-> [[-> _]|(a & Ha & Hh & _)]].
  2:{ unfold act_hit in Hh. by rewrite (Forall_aget _ _ _ _ Hun Ha) in Hh. }
  pose proof (err_neg EBUSY). rewrite (proj2 (Z.leb_gt 0 _)) by done.
  wp_step. eapply wp_mono; [apply _active_alloc_spec|].
  intros o s1 [(-> & -> & Hall)|(i & a & -> & Ha & Hu & Hmin & ->)].
  { destruct (aget_is_Some (actives s) 0) as [a Ha]; [lia|].
    pose proof (Forall_aget _ _ _ _ Hall Ha) as E. pose proof (Forall_aget _ _ _ _ Hun Ha). simpl in *. congruence. }
  assert (i = 0) as ->.
  { destruct (decide (i = 0)); [done|]. destruct (aget_is_Some (actives s) 0) as [b Hb]; [lia|].
    pose proof (aget_lt _ _ _ Ha). pose proof (Hmin 0 b ltac:(lia) Hb).
    pose proof (Forall_aget _ _ _ _ Hun Hb). simpl in *. congruence. }
  wp_step. apply wp_with_hw. simpl. rewrite (proj2 (Z.ltb_ge _ 0)) by apply Hhw.
  wp_step. eapply wp_with_active; [simpl; by eapply aget_aset_same|]. wp_step. wp_step.
  destruct (init_input n pool aux (fst (do_create fn local (hwst s))) local a) as [Hf' Hi];
    [by eapply Forall_aget|].
  split; [done|]. unfold set_actives. simpl. rewrite aset_aset_eq.
  split; [split_and!; simpl; rewrite ?length_aset; done|].
  split; simpl.
  - by apply Forall_aset.
  - done.
  - eexists. split; [by eapply aget_aset_same|done].
  - intros; lia.
  - intros j b Hj. rewrite aget_aset_ne by lia. intros Hb. by apply (Forall_aget _ _ _ _ Hun Hb).
Qed.

(** An active other than [1 + i] does not connect [local] to node [i]. *)
Lemma opened_other n local pool aux k s i j b :
  pool_opened n local pool aux k s -> 0 ≤ i -> aget (actives s) j = Some b -> j <> 1 + i ->
  act_hit local i ACTIVE_TYPE_OUTPUT b = false.
Proof.
  intros Hod Hi Hb Hne. pose proof (aget_lt _ _ _ Hb). unfold act_hit. simpl. destruct (decide (1 + k ≤ j)).
  { by rewrite (od_rest _ _ _ _ _ _ Hod j b). }
  destruct (decide (j = 0)) as [->|].
  - destruct (od_input _ _ _ _ _ _ Hod) as (c & Hc & [= _ _ _ Ew] & _).
    rewrite Hb in Hc. injection Hc as <-. rewrite Ew. simpl. by rewrite !andb_false_r.
  - destruct (od_outputs _ _ _ _ _ _ Hod (j - 1)) as (c & Hc & _ & _ & Er); [lia|].
    replace (1 + (j - 1)) with j in Hc by lia. rewrite Hb in Hc. injection Hc as <-.
    rewrite (proj2 (Z.eqb_neq (ac_remote b) i)) by lia. by rewrite andb_false_r.
Qed.

(** No active connects [local] to a node that was not opened yet. *)
Lemma opened_no_hit n local pool aux k s :
  0 ≤ k -> pool_opened n local pool aux k s ->
  Forall (fun a => act_hit local k ACTIVE_TYPE_OUTPUT a = false) (actives s).
Proof.
  intros Hk Hod. apply Forall_aget_iff. intros i a Ha. destruct (decide (i = 1 + k)) as [->|].
  - unfold act_hit. by rewrite (od_rest _ _ _ _ _ _ Hod (1 + k) a).
  - by eapply opened_other.
Qed.

Lemma opened_used n local pool aux k s i a :
  pool_opened n local pool aux k s -> i < 1 + k -> aget (actives s) i = Some a ->
  resource_is_used (ac_resource a) = true.
Proof.
  intros Hod Hi Ha. pose proof (aget_lt _ _ _ Ha). destruct (decide (i = 0)) as [->|].
  - destruct (od_input _ _ _ _ _ _ Hod) as (b & Hb & [= ] & _). congruence.
  - destruct (od_outputs _ _ _ _ _ _ Hod (i - 1)) as (b & Hb & [= ] & _); [lia|].
    replace (1 + (i - 1)) with i in Hb by lia. congruence.
Qed.

Lemma opened_next n local pool aux k s a a' h ce :
  pool_opened n local pool aux k s -> 0 ≤ k -> aget (actives s) (1 + k) = Some a ->
  act_fresh n pool aux a' -> is_output local k a' ->
  pool_opened n local pool aux (k + 1) (Noc (bufs s) (aset (1 + k) a' (actives s)) ce (umem s) h).
Proof.
  intros Hod Hk Ha Hf Ho. split; simpl.
  - apply Forall_aset; [apply Hod|done].
  - apply Hod.
  - rewrite aget_aset_ne by lia. apply Hod.
  - intros i Hi. destruct (decide (i = k)) as [->|].
    + eexists. split; [by eapply aget_aset_same|done].
    + rewrite aget_aset_ne by lia. eapply od_outputs; [done|]. lia.
  - intros i b Hi. rewrite aget_aset_ne by lia. eapply od_rest; [done|]. lia.
Qed.

(** The first part of [_active_open] measures the clock. *)
Lemma wp_clock_error (e : Z) s (Q : unit -> noc -> Prop) :
  (forall h ce, Q tt (Noc (bufs s) (actives s) ce (umem s) h)) ->
  wp (if e =? 0 then
        t1 ← read_clock; t2 ← read_clock; kmodify (set_clock_error (u64 (t2 - t1)))
      else mret tt) Q s.
Proof.
  intros HQ. destruct (e =? 0).
  - wp_step. apply wp_read_clock. intros t1 h1. wp_step. apply wp_read_clock. intros t2 h2. wp_step. apply HQ.
  - wp_step. destruct s. apply HQ.
Qed.

(** The hardware part of [_active_open]. *)
Lemma wp_open_hw local k i s (Q : Z + Z -> noc -> Prop) :
  node_is_local local = true -> (forall h, node_is_local k = false -> 0 ≤ fst (do_open fn local k h)) ->
  (forall hwfd h, Q (inr hwfd) (set_hwst h s)) ->
  wp (if node_is_local local && negb (node_is_local k) then
        hwfd ← with_hw (do_open fn local k);
        if hwfd <? 0 then _active_free i;; mret (inl hwfd) else mret (inr hwfd)
      else if negb (node_is_local local) then mret (inl (err EINVAL))
      else mret (inr (err EINVAL))) Q s.
Proof.
  intros -> Hhw HQ. destruct (node_is_local k) eqn:Ek; simpl.
  - wp_step. specialize (HQ (err EINVAL) (hwst s)). by destruct s.
  - wp_step. apply wp_with_hw. rewrite (proj2 (Z.ltb_ge _ 0)) by (by apply Hhw). wp_step. apply HQ.
Qed.

Lemma _active_open_spec n local pool aux k s :
  node_is_local local = true -> (forall h, node_is_local k = false -> 0 ≤ fst (do_open fn local k h)) ->
  0 ≤ k -> 1 + k < alen (actives s) -> pool_opened n local pool aux k s ->
  wp (_active_open fn local k) (fun r s' => r = 1 + k /\ init_frame s s' /\ pool_opened n local pool aux (k + 1) s') s.
Proof.
  intros Hloc Hhw Hk Hlen Hod. unfold _active_open. wp_step. wp_step. wp_step.
  apply wp_clock_error. intros h ce. set (s1 := Noc _ _ _ _ _).
  assert (Hod1 : pool_opened n local pool aux k s1) by (by destruct Hod).
  assert (Hpo : pool_ok s1) by (eapply fresh_pool_ok; [apply Hod1|apply Hod1]).
  wp_step. eapply wp_mono; [by apply active_search_spec|].
  intros r s2 [-> [[-> _]|(a & Ha & Hh & _)]].
  2:{ by rewrite (Forall_aget _ _ _ _ (opened_no_hit _ _ _ _ _ _ Hk Hod1) Ha) in Hh. }
  pose proof (err_neg EBUSY). rewrite (proj2 (Z.leb_gt 0 _)) by done.
  destruct (aget_is_Some (actives s1) (1 + k)) as [b Hb]; [simpl; lia|].
  pose proof (od_rest _ _ _ _ _ _ Hod1 (1 + k) b ltac:(lia) Hb) as Hbu.
  wp_step. eapply wp_mono; [apply _active_alloc_spec|].
  intros o s2 [(-> & -> & Hall)|(i & a & -> & Ha & Hu & Hmin & ->)].
  { pose proof (Forall_aget _ _ _ _ Hall Hb). simpl in *. congruence. }
  assert (i = 1 + k) as ->.
  { destruct (Ztrichotomy i (1 + k)) as [E|[E|E]]; [|done|].
    - rewrite (opened_used _ _ _ _ _ _ _ _ Hod1 E Ha) in Hu. done.
    - rewrite (Hmin (1 + k) b ltac:(lia) Hb) in Hbu. done. }
  wp_step. apply wp_open_hw; [done|done|]. intros hwfd h'.
  wp_step. eapply wp_with_active; [simpl; by eapply aget_aset_same|]. wp_step. wp_step.
  destruct (init_output n pool aux hwfd local k a) as [Hf' Hi]; [eapply Forall_aget; [apply Hod1|done]|].
  split; [done|]. simpl. rewrite aset_aset_eq.
  split; [split_and!; simpl; rewrite ?length_aset; done|].
  by eapply (opened_next n local pool aux k s1 a).
Qed.

Lemma open_all_spec n local pool aux s :
  node_is_local local = true ->
  (forall k h, node_is_local k = false -> 0 ≤ fst (do_open fn local k h)) ->
  PROCESSOR_NOC_NODES_NUM < alen (actives s) -> pool_opened n local pool aux 0 s ->
  wp (open_all local) (fun _ s' =>
    init_frame s s' /\ pool_opened n local pool aux PROCESSOR_NOC_NODES_NUM s') s.
Proof.
  intros Hloc Hhw Hlen Hod. pose proof node_num_range. unfold open_all.
  apply (wp_kfor (fun i _ t => init_frame s t /\ pool_opened n local pool aux i t)).
  - done.
  - intros k r t Hk [(E1 & E2 & E3) Ht]. wp_step. eapply wp_mono.
    { apply (_active_open_spec n local pool aux k t); [done|apply Hhw|lia|lia|done]. }
    intros r' t' (-> & (E1' & E2' & E3') & Ht'). wp_step. wp_step; [apply Z.leb_le; lia|]. wp_step.
    split; [|done]. unfold init_frame. split_and!; congruence.
  - intros r t [Hf Ht]. rewrite Z.add_0_l, Z2Nat.id in Ht by lia. done.
Qed.

(** The actives that the allocations of an opened pool find. *)
Lemma opened_input_hit n local pool aux k s :
  pool_opened n local pool aux k s ->
  exists a, first_hit local (-1) ACTIVE_TYPE_INPUT s 0 a /\ act_fresh n pool aux a.
Proof.
  intros Hod. destruct (od_input _ _ _ _ _ _ Hod) as (a & Ha & Hin). exists a.
  split; [|eapply Forall_aget; [apply Hod|done]].
  split_and!; [done| |intros j b Hj Hb; apply aget_lt in Hb; lia].
  destruct Hin as ([= Eu _ Er _] & El & Em). unfold act_hit. by rewrite Eu, Er, El, Em, !Z.eqb_refl.
Qed.

Lemma opened_output_hit n local pool aux k s i :
  pool_opened n local pool aux k s -> 0 ≤ i < k ->
  exists a, first_hit local i ACTIVE_TYPE_OUTPUT s (1 + i) a /\ act_fresh n pool aux a /\ is_output local i a.
Proof.
  intros Hod Hi. destruct (od_outputs _ _ _ _ _ _ Hod i Hi) as (a & Ha & Ho). exists a.
  split; [|split; [eapply Forall_aget; [apply Hod|done]|done]].
  split_and!; [done| |].
  - destruct Ho as ([= Eu _ _ Ew] & El & Em). unfold act_hit. by rewrite Eu, Ew, El, Em, !Z.eqb_refl.
  - intros j b Hj Hb. eapply opened_other; [done|lia|done|lia].
Qed.

(** Allocating a port of an active none of whose ports is in use. *)
Lemma alloc_fresh local remote port type n pool aux s i a :
  pool_ok s -> first_hit local remote type s i a -> act_fresh n pool aux a -> 0 ≤ port < n ->
  exists p x, alloc_choice a port type p /\ aget (ac_ports a) p = Some x /\ port_used x = false /\
    active_alloc local remote port type s =
    Done (ACTIVE_LADDRESS_COMPOSE i p n) (set_actives (aset i (act_take a p x) (actives s)) s).
Proof.
  intros Hok Hf Hfr Hport. pose proof Hf as (Ha & Hh & _). pose proof (aget_lt _ _ _ Ha).
  pose proof (po_length _ (fr_ports _ _ _ _ Hfr)) as Hlen. rewrite (fr_nports _ _ _ _ Hfr) in Hlen.
  destruct (proj1 (wp_returns _ _ _) (active_alloc_cases local remote port type s Hok)) as (r & s' & E & Hr).
  destruct Hr as [(_ & _ & Hall)|(j & b & b' & Hf' & Hpost & ->)].
  { rewrite (Forall_aget _ _ _ _ Hall Ha) in Hh. done. }
  destruct (first_hit_unique _ _ _ _ _ _ _ _ Hf Hf') as [<- <-].
  assert (Hfree : forall q y, aget (ac_ports a) q = Some y -> port_used y = false).
  { intros q y Hy. exact (Forall_aget _ _ _ _ (fr_unused _ _ _ _ Hfr) Hy). }
  destruct Hpost as [(_ & _ & Hbad)|(p & x & Hx & Hu & Hch & -> & ->)].
  - exfalso. destruct (aget_is_Some (ac_ports a) port) as [y Hy]; [lia|]. pose proof (Hfree _ _ Hy) as Hyu.
    destruct Hbad as [(_ & _ & Hall)|[(_ & _ & Hr)|(_ & _ & z & Hz & Hzu)]].
    + rewrite (Forall_aget _ _ _ _ Hall Hy) in Hyu. done.
    + rewrite (fr_nports _ _ _ _ Hfr) in Hr. lia.
    + rewrite (Hfree _ _ Hz) in Hzu. done.
  - exists p, x. split_and!; try done.
    rewrite (fr_nports _ _ _ _ Hfr), ports_ok_unlock in E; [done|]. by apply act_take_ok; [apply Hfr|..].
Qed.

Lemma act_take_reqs a p x : act_reqs a [] -> aget (ac_ports a) p = Some x -> act_reqs (act_take a p x) [].
Proof.
  intros [Hr Hp Hg Hn Hfl] Hx. split; try done.
  - by rewrite act_take_ports, length_aset.
  - intros q y. rewrite act_take_ports. destruct (decide (q = p)) as [->|].
    + rewrite (aget_aset_same _ _ _ _ Hx). by intros [= <-].
    + rewrite aget_aset_ne by done. apply Hfl.
Qed.

(** A facility whose table was initialised can be created and opened. *)
Lemma facility_init n pool aux s :
  Forall (act_fresh n pool aux) (actives s) -> mbuf_lock (bufs s) = false ->
  Forall (fun a => resource_is_used (ac_resource a) = false) (actives s) ->
  (forall h, 0 ≤ fst (do_create fn processor_node_get_num h)) ->
  (forall k h, node_is_local k = false -> 0 ≤ fst (do_open fn processor_node_get_num k h)) ->
  PROCESSOR_NOC_NODES_NUM < alen (actives s) ->
  wp (r ← _active_create fn processor_node_get_num;
      KASSERT (0 <=? r);;
      open_all processor_node_get_num)
     (fun _ s' => bufs s' = bufs s /\
        pool_opened n processor_node_get_num pool aux PROCESSOR_NOC_NODES_NUM s') s.
Proof.
  intros Hf Hl Hun Hc Ho Hlen. pose proof node_num_range.
  wp_step. eapply wp_mono; [apply (_active_create_spec n pool aux); try done; lia|].
  intros r s1 (-> & (E1 & _ & E3) & Hod). wp_step. wp_step; [done|].
  eapply wp_mono; [apply (open_all_spec n _ pool aux s1); try done; [apply node_num_local|lia]|].
  intros [] s2 [(E1' & _) Hod2]. split; [congruence|done].
Qed.

End init.
