(* ===== verification/Facility.v ===== *)
(** A facility after its initialisation: the two ends of a connection on the local node.

    Mailboxes and portals share the actives, so what holds for a pair of ports of the
    local node is proved once, for a facility with [n] ports per active, the pools
    [pool] and [aux], and addresses that its functions take apart. *)

From S2P Require Import Prelude.
From S2P Require Import Hlib.
From S2P Require Import Mbuffer.
From S2P Require Import Requests.
From S2P Require Import Active.
From S2P Require Import ActiveSpec.
From S2P Require Import ActivePorts.
From S2P Require Import ActiveInit.

(** The formulas by which an address of a facility with [n] ports is taken apart. *)
Lemma laddress_split n i p :
  0 ≤ i -> 0 ≤ p ≤ n ->
  0 ≤ ACTIVE_LADDRESS_COMPOSE i p n /\
  Z.quot (ACTIVE_LADDRESS_COMPOSE i p n) (n + 1) = i /\ Z.rem (ACTIVE_LADDRESS_COMPOSE i p n) (n + 1) = p.
Proof.
  intros Hi Hp. assert (Hpos : 0 ≤ ACTIVE_LADDRESS_COMPOSE i p n) by (apply compose_nonneg; lia).
  split; [done|]. rewrite Z.quot_div_nonneg, Z.rem_mod_nonneg by lia. unfold ACTIVE_LADDRESS_COMPOSE in *.
  split.
  - rewrite Z.add_comm, Z.div_add by lia. rewrite Z.div_small by lia. lia.
  - rewrite Z.add_comm, Z.mod_add by lia. by apply Z.mod_small; lia.
Qed.

Section facility.
Context `{H : Hlib} `{N : NocHw} {T : NocTopology} (fn : active_functions).
Context (n : Z) (pool aux : mbuffer_pool).

Record facility_ready (s : noc) : Prop := {
  fa_pool : pool_opened n processor_node_get_num pool aux PROCESSOR_NOC_NODES_NUM s;
  fa_unused : Forall (fun b => mb_used b = false) (mbuf (bufs s));
  fa_queue : queue (bufs s) [];
  fa_age : mbuf_age (bufs s) = 0;
  fa_window : window_ok pool (bufs s) /\ window_ok aux (bufs s);
  fa_shared i : in_window aux i -> in_window pool i;
  fa_aux : 0 < nmbuffers aux;
  fa_ports : 1 < n;
}.

(** The pool with port [p] of the input active and port [q] of the active to the local
    node allocated. *)
Definition pair_noc (s : noc) (ai : active) (p : Z) (x : port) (ao : active) (q : Z) (y : port) : noc :=
  set_actives (aset (1 + processor_node_get_num) (act_take ao q y) (aset 0 (act_take ai p x) (actives s))) s.

Record pair_ports (s : noc) (ai : active) (p : Z) (x : port) (ao : active) (q : Z) (y : port) : Prop := {
  pp_input : first_hit processor_node_get_num (-1) ACTIVE_TYPE_INPUT s 0 ai;
  pp_input_fresh : act_fresh n pool aux ai;
  pp_input_port : aget (ac_ports ai) p = Some x;
  pp_output : aget (actives s) (1 + processor_node_get_num) = Some ao;
  pp_output_fresh : act_fresh n pool aux ao;
  pp_output_dir : is_output processor_node_get_num processor_node_get_num ao;
  pp_output_port : aget (ac_ports ao) q = Some y;
}.

Context {HL : HlibLaws H} {TL : NocTopologyLaws T}.
Context (addresses : addresses_ok fn n).

Lemma pair_range s ai p x ao q y :
  pair_ports s ai p x ao q y -> 0 ≤ p < n /\ 0 ≤ q < n.
Proof.
  intros [_ Hfi Hx _ Hfo _ Hy]. apply aget_lt in Hx, Hy.
  rewrite (po_length _ (fr_ports _ _ _ _ Hfi)), (fr_nports _ _ _ _ Hfi) in Hx.
  by rewrite (po_length _ (fr_ports _ _ _ _ Hfo)), (fr_nports _ _ _ _ Hfo) in Hy.
Qed.

(** The ports that an input and an output allocation take. *)
Lemma facility_ports s port :
  facility_ready s -> 0 ≤ port < n ->
  let local := processor_node_get_num in
  exists ai x ao q y, pair_ports s ai port x ao q y /\
    active_alloc local (-1) port ACTIVE_TYPE_INPUT s =
      Done (ACTIVE_LADDRESS_COMPOSE 0 port n) (set_actives (aset 0 (act_take ai port x) (actives s)) s) /\
    active_alloc local local port ACTIVE_TYPE_OUTPUT (set_actives (aset 0 (act_take ai port x) (actives s)) s) =
      Done (ACTIVE_LADDRESS_COMPOSE (1 + local) q n) (pair_noc s ai port x ao q y).
Proof.
  intros Hrd Hport local. pose proof node_num_range as Hl. fold local in Hl.
  pose proof (fa_pool _ Hrd) as Hod.
  assert (Hok : pool_ok s) by (eapply fresh_pool_ok; apply Hod).
  destruct (opened_input_hit _ _ _ _ _ _ Hod) as (ai & Hfi & Hai).
  destruct (alloc_fresh _ _ port _ _ _ _ _ _ _ Hok Hfi Hai Hport) as (p & x & Hp & Hx & Hxu & E1).
  assert (p = port) as -> by exact Hp.
  set (n1 := set_actives (aset 0 (act_take ai port x) (actives s)) s) in *.
  assert (Hok1 : pool_ok n1) by (apply pool_ok_set; [done|apply act_take_ok; [apply Hai|done|done]]).
  destruct (opened_output_hit _ _ _ _ _ _ local Hod) as (ao & (Hao & Hho & Hmin) & Hfo & Ho); [lia|].
  assert (Hf1 : first_hit local local ACTIVE_TYPE_OUTPUT n1 (1 + local) ao).
  { split_and!; [simpl; by rewrite aget_aset_ne by lia|done|]. intros j b Hj.
    simpl. destruct (decide (j = 0)) as [->|]; [|rewrite aget_aset_ne by done; by apply Hmin].
    destruct Hfi as (Ha0 & _). rewrite (aget_aset_same _ _ _ _ Ha0). intros [= <-]. by apply (Hmin 0 ai). }
  destruct (alloc_fresh _ _ port _ _ _ _ _ _ _ Hok1 Hf1 Hfo Hport) as (q & y & _ & Hy & _ & E2).
  exists ai, x, ao, q, y. by split_and!.
Qed.

(** The two ends satisfy what the delivery of a message asks for, for a reader that
    accepts the messages of the writer. *)
Lemma facility_pair s ai p x ao q y src dst size remote :
  facility_ready s -> pair_ports s ai p x ao q y ->
  0 ≤ size -> Forall (fun b => size ≤ alen (msg_data (mb_message b))) (mbuf (bufs s)) ->
  let local := processor_node_get_num in
  (forall b, h_src (msg_header (mb_message b)) = ACTIVE_LADDRESS_COMPOSE local q n ->
     source_check pool b remote = true /\ source_check aux b remote = true) ->
  let fdr := ACTIVE_LADDRESS_COMPOSE 0 p n in
  let fdw := ACTIVE_LADDRESS_COMPOSE (1 + local) q n in
  local_pair fn fdw fdr
    (ActiveConfig fdw (ACTIVE_LADDRESS_COMPOSE local q n) (ACTIVE_LADDRESS_COMPOSE local p n) src size)
    (ActiveConfig fdr (ACTIVE_LADDRESS_COMPOSE local p n) remote dst size)
    (pair_noc s ai p x ao q y) (act_take ao q y) (act_take ai p x)
    (pt_set_resource (resource_set_used (pt_resource y)) (pt_set_flags 0 y))
    (pt_set_resource (resource_set_used (pt_resource x)) (pt_set_flags 0 x)) [] [] aux.
Proof.
  intros Hrd Hpp Hsz Hlen local Hsrc fdr fdw. destruct (pair_range _ _ _ _ _ _ _ Hpp) as [Hp Hq].
  destruct Hpp as [(Hai & _) Hfi Hx Hao Hfo (_ & _ & Hrem) Hy].
  pose proof node_num_range as Hloc. fold local in Hloc, Hao, Hrem.
  destruct (addresses 0 p) as [E1 E2]; [lia|lia|]. destruct (addresses (1 + local) q) as [E3 E4]; [lia|lia|].
  fold fdr in E1, E2. fold fdw in E3, E4.
  destruct (fa_window _ Hrd) as [Hw1 Hw2]. pose proof (fa_ports _ Hrd) as Hn.
  set (rp := read_pool fn (ActiveConfig fdr (ACTIVE_LADDRESS_COMPOSE local p n) remote dst size) (act_take ai p x)).
  assert (Hrp : rp = pool \/ rp = aux).
  { unfold rp, read_pool. destruct (fr_pools _ _ _ _ Hfi) as [P1 P2]. case_match; [by right|by left]. }
  pose proof (aget_aset_same (actives s) 0 ai (act_take ai p x) Hai) as Hai'.
  split; unfold valid_id; simpl; rewrite ?E1, ?E2, ?E3, ?E4; fold rp; try done.
  - rewrite (aget_aset_same _ _ ao); [|by rewrite aget_aset_ne by lia].
    split_and!; [done|by eapply aget_aset_same|lia|]. change (q < ac_nports ao). rewrite (fr_nports _ _ _ _ Hfo). lia.
  - rewrite aget_aset_ne by lia.
    split_and!; [done|by eapply aget_aset_same|lia|]. change (p < ac_nports ai). rewrite (fr_nports _ _ _ _ Hfi). lia.
  - lia.
  - split_and!; [apply Hfo|apply Hfi|]. apply (fa_pool _ Hrd).
  - by rflags.
  - exact (Forall_aget _ _ _ _ (fr_idle _ _ _ _ Hfo) Hy).
  - rewrite Hrem. apply node_num_local.
  - apply Hfo.
  - split; [done|]. by destruct Hrp as [-> | ->].
  - destruct Hrp as [-> | ->]; [apply Hrd|auto].
  - by apply act_take_reqs; [apply Hfo|].
  - set_solver.
  - rewrite (fr_capacity _ _ _ _ Hfo). lia.
  - apply Hrd.
  - by rewrite (fa_age _ Hrd).
  - intros b Hb. destruct (Hsrc b Hb). by destruct Hrp as [-> | ->].
  - intros i b Hi. set_solver.
  - pose proof (fa_aux _ Hrd). destruct (window_get aux (bufs s) 0 Hw2) as [b Hb]; [lia|].
    exists 0, b. split; [lia|]. split; [done|]. exact (Forall_aget _ _ _ _ (fa_unused _ Hrd) Hb).
  - intros i b Hb Hs. rewrite (unused_unstored b) in Hs; [done|]. exact (Forall_aget _ _ _ _ (fa_unused _ Hrd) Hb).
Qed.

End facility.
