(* ===== verification/Mailbox.v ===== *)
(** Mailboxes over the hardware (src/kernel/noc/mailbox.c and the constants of
    include/nanvix/kernel/mailbox.h).

    The mailboxes of the HAL are the class [MailboxHw].  The file holds the table of
    functions that the actives of the facility use, the initialisation of its tables,
    and the theorem that the initialisation leaves a pool in which every node can be
    reached. *)

From S2P Require Import Prelude.
From S2P Require Import Hlib.
From S2P Require Import Mbuffer.
From S2P Require Import Requests.
From S2P Require Import Active.
From S2P Require Import ActiveSpec.
From S2P Require Import ActivePorts.
From S2P Require Import ActiveInit.
From S2P Require Import Facility.

(** ** The HAL *)

Class MailboxHw `{NocTopology} := {
  NANVIX_IKC_USES_ONLY_MAILBOX : bool;
  HAL_MAILBOX_CREATE_MAX : Z;
  HAL_MAILBOX_OPEN_MAX : Z;
  HAL_MAILBOX_RESERVED_SIZE : Z;
  HAL_MAILBOX_DATA_SIZE : Z;
  mailbox_create : Z -> hw -> Z * hw;
  mailbox_open : Z -> hw -> Z * hw;
  mailbox_aread : Z -> Z -> Z -> hw -> Z * hw;
  mailbox_awrite : Z -> mbuffer_message -> Z -> hw -> Z * hw;
  mailbox_wait : Z -> hw -> Z * list (Z * mbuffer_message) * hw;
  mailbox_message_addr : Z -> Z;
  mailbox_message_sizeof : Z;
}.

(** What the initialisation relies on: the buffers are aligned, and the HAL has a
    mailbox to create and one to open for every other node. *)
Class MailboxHwLaws `(M : MailboxHw) : Prop := {
  mailbox_message_aligned i : Z.land (mailbox_message_addr i) 7 = 0;
  mailbox_message_words : Z.rem mailbox_message_sizeof 8 = 0;
  mailbox_create_ok h : 0 ≤ fst (mailbox_create processor_node_get_num h);
  mailbox_open_ok remote h : node_is_local remote = false -> 0 ≤ fst (mailbox_open remote h);
  mailbox_open_max : PROCESSOR_NOC_NODES_NUM ≤ HAL_MAILBOX_CREATE_MAX + HAL_MAILBOX_OPEN_MAX;
}.

Section mailbox.
Context `{H : Hlib} `{M : MailboxHw}.

(** ** Constants *)

Definition MAILBOX_PORT_NR : Z := if NANVIX_IKC_USES_ONLY_MAILBOX then 64 else 16.
Definition MAILBOX_ANY_SOURCE : Z := PROCESSOR_NOC_NODES_NUM.
Definition MAILBOX_ANY_PORT : Z := MAILBOX_PORT_NR.
Definition HW_MAILBOX_MAX : Z := HAL_MAILBOX_CREATE_MAX + HAL_MAILBOX_OPEN_MAX + 1.
Definition KMAILBOX_MESSAGE_HEADER_SIZE : Z := HAL_MAILBOX_RESERVED_SIZE.
Definition KMAILBOX_MESSAGE_DATA_SIZE : Z := HAL_MAILBOX_DATA_SIZE.
Definition KMAILBOX_MESSAGE_BUFFERS_MAX : Z := if NANVIX_IKC_USES_ONLY_MAILBOX then 64 else 32.
Definition KMAILBOX_AUX_BUFFERS_MAX : Z := 16.

(** ** Functions of the actives *)

Definition wrapper_mailbox_open (local remote : Z) (h : hw) : Z * hw := mailbox_open remote h.

Definition wrapper_mailbox_allow (act : active) (remote : Z) (h : hw) : Z * hw := (0, h).

Definition mailbox_header_config (buf : mbuffer) (config : active_config) : mbuffer :=
  let m := mb_message buf in
  let h := msg_header m in
  mb_set_message
    (MbufferMessage (MbufferHeader (remote_addr config) (local_addr config) (h_size h) (h_unused h)) (msg_data m))
    buf.

Definition mailbox_get_actid (id : Z) : Z :=
  if id <? 0 then id else Z.quot id (MAILBOX_PORT_NR + 1).

Definition mailbox_get_portid (id : Z) : Z :=
  if id <? 0 then id else Z.rem id (MAILBOX_PORT_NR + 1).

Definition mailbox_source_check (buf : mbuffer) (src_mask : Z) : bool :=
  if src_mask =? -1 then true else
  let mask_node := mailbox_get_actid src_mask in
  let mask_port := mailbox_get_portid src_mask in
  let msg_source := h_src (msg_header (mb_message buf)) in
  if negb (mask_node =? MAILBOX_ANY_SOURCE) && negb (mask_node =? mailbox_get_actid msg_source) then false else
  if negb (mask_port =? MAILBOX_ANY_PORT) && negb (mask_port =? mailbox_get_portid msg_source) then false else
  true.

Definition mailbox_header_check (buf : mbuffer) (config : active_config) : bool :=
  (h_dest (msg_header (mb_message buf)) =? local_addr config) &&
  mailbox_source_check buf (remote_addr config).

Definition mailbox_laddress_calc (fd port : Z) : Z := ACTIVE_LADDRESS_COMPOSE fd port MAILBOX_PORT_NR.

Definition mailbox_functions : active_functions :=
  ActiveFunctions _ _ mailbox_create wrapper_mailbox_open wrapper_mailbox_allow mailbox_aread mailbox_awrite
    mailbox_wait mailbox_header_config mailbox_header_check mailbox_get_actid mailbox_get_portid.

(** ** Initialisation *)

Definition mbufferpool : mbuffer_pool := MbufferPool 0 KMAILBOX_MESSAGE_BUFFERS_MAX mailbox_source_check.

Definition mbufferpool_aux : mbuffer_pool :=
  MbufferPool (KMAILBOX_MESSAGE_BUFFERS_MAX - KMAILBOX_AUX_BUFFERS_MAX) KMAILBOX_AUX_BUFFERS_MAX
    mailbox_source_check.

(** The assignments to one port and to one mailbox; the fields that they do not
    mention keep their values. *)
Definition mailbox_port_init (p : port) : port := Port RESOURCE_INITIALIZER (pt_flags p) (-1) None.

Definition mailbox_entry_init (a : active) : active :=
  Active (ac_resource a) (ac_flags a) (-1) (-1) (-1) 0
    (KMAILBOX_MESSAGE_HEADER_SIZE + KMAILBOX_MESSAGE_DATA_SIZE)
    (PortPool (map mailbox_port_init (ac_ports a)) MAILBOX_PORT_NR 0)
    mbufferpool mbufferpool_aux
    (RequestsFifo 0 0 MAILBOX_PORT_NR 0 (replicate (Z.to_nat MAILBOX_PORT_NR) (-1)))
    false.

(** The tables have the lengths over which the loops of the source run. *)
Definition do_mailbox_table_init (s : noc) : noc :=
  Noc (Mbuffers (map mbuffer_reset (mbuf (bufs s))) 0 false)
      (map mailbox_entry_init (actives s)) (clock_error s) (umem s) (hwst s).

Definition do_mailbox_init : K noc unit :=
  let local := processor_node_get_num in
  KASSERT (Z.land (mailbox_message_addr 0) 7 =? 0);;
  KASSERT (Z.land (mailbox_message_addr 1) 7 =? 0);;
  KASSERT (Z.rem mailbox_message_sizeof 8 =? 0);;
  KASSERT (Z.rem mailbox_message_sizeof 8 =? 0);;
  kmodify do_mailbox_table_init;;
  r ← _active_create mailbox_functions local;
  KASSERT (0 <=? r);;
  open_all mailbox_functions local.

(** ** Operations *)

Definition do_mailbox_alloc (local remote port type : Z) : K noc Z := active_alloc local remote port type.
Definition do_mailbox_release (mbxid : Z) : K noc Z := active_release mailbox_functions mbxid.
Definition do_mailbox_aread (mbxid : Z) (config : active_config) (stats : pstats) : K noc (Z * pstats) :=
  active_aread mailbox_functions mbxid config stats.
Definition do_mailbox_awrite (mbxid : Z) (config : active_config) (stats : pstats) : K noc (Z * pstats) :=
  active_awrite mailbox_functions mbxid config stats.
Definition do_mailbox_wait (mbxid : Z) (config : active_config) (stats : pstats) : K noc (Z * pstats) :=
  active_wait mailbox_functions mbxid config stats.

(** ** Addresses and sources *)

Context {HL : HlibLaws H}.

Lemma mailbox_port_nr_min : 16 ≤ MAILBOX_PORT_NR.
Proof. unfold MAILBOX_PORT_NR. by case_match. Qed.

Lemma mailbox_laddress i p :
  0 ≤ i -> 0 ≤ p ≤ MAILBOX_PORT_NR ->
  0 ≤ mailbox_laddress_calc i p /\
  mailbox_get_actid (mailbox_laddress_calc i p) = i /\ mailbox_get_portid (mailbox_laddress_calc i p) = p.
Proof.
  intros Hi Hp. destruct (laddress_split MAILBOX_PORT_NR i p Hi Hp) as (Hpos & Hq & Hr).
  unfold mailbox_laddress_calc, mailbox_get_actid, mailbox_get_portid.
  by rewrite (proj2 (Z.ltb_ge _ 0) Hpos).
Qed.

Lemma mailbox_addresses_ok : addresses_ok mailbox_functions MAILBOX_PORT_NR.
Proof. intros i p Hi Hp. destruct (mailbox_laddress i p) as (_ & ? & ?); [lia|lia|done]. Qed.

(** A receiver that expects messages from port [port] of node [node] accepts a
    message exactly when it comes from that node, unless [node] stands for any node,
    and from that port, unless [port] stands for any port; the address [-1] accepts
    every message. *)
Theorem mailbox_source_check_correct buf node port node' port' :
  0 ≤ node -> 0 ≤ port ≤ MAILBOX_PORT_NR -> 0 ≤ node' -> 0 ≤ port' < MAILBOX_PORT_NR ->
  h_src (msg_header (mb_message buf)) = mailbox_laddress_calc node' port' ->
  mailbox_source_check buf (-1) = true /\
  (mailbox_source_check buf (mailbox_laddress_calc node port) = true <->
   (node = MAILBOX_ANY_SOURCE \/ node = node') /\ (port = MAILBOX_ANY_PORT \/ port = port')).
Proof.
  intros Hn Hp Hn' Hp' Hsrc. split; [done|].
  destruct (mailbox_laddress node port) as (Hpos & E1 & E2); [lia|lia|].
  destruct (mailbox_laddress node' port') as (_ & E3 & E4); [lia|lia|].
  unfold mailbox_source_check. rewrite Hsrc, E1, E2, E3, E4, (proj2 (Z.eqb_neq _ (-1))) by lia.
  destruct (Z.eqb_spec node MAILBOX_ANY_SOURCE), (Z.eqb_spec node node'),
    (Z.eqb_spec port MAILBOX_ANY_PORT), (Z.eqb_spec port port'); simpl; intuition congruence.
Qed.

(** ** Initialisation *)

(** The static tables before the initialisation: their sizes, and the fields that the
    initialisation leaves to the zeroed memory. *)
Record mailbox_statics (s : noc) : Prop := {
  ms_bufs : alen (mbuf (bufs s)) = KMAILBOX_MESSAGE_BUFFERS_MAX;
  ms_actives : alen (actives s) = HW_MAILBOX_MAX;
  ms_unused : Forall (fun a => resource_is_used (ac_resource a) = false) (actives s);
  ms_ports : Forall (fun a => alen (ac_ports a) = MAILBOX_PORT_NR) (actives s);
  ms_flags : Forall (fun a => Forall (fun p => pt_flags p = 0) (ac_ports a)) (actives s);
}.

Lemma mailbox_entry_fresh a :
  alen (ac_ports a) = MAILBOX_PORT_NR -> Forall (fun p => pt_flags p = 0) (ac_ports a) ->
  act_fresh MAILBOX_PORT_NR mbufferpool mbufferpool_aux (mailbox_entry_init a).
Proof.
  intros Hlen Hfl. apply table_entry_fresh; [|done|done]. unfold MAILBOX_PORT_NR.
  destruct NANVIX_IKC_USES_ONLY_MAILBOX; [by exists 6|by exists 4].
Qed.

Lemma do_mailbox_init_spec {TL : NocTopologyLaws _} {ML : MailboxHwLaws M} s :
  mailbox_statics s ->
  wp do_mailbox_init (fun _ s' => bufs s' = bufs (do_mailbox_table_init s) /\
    pool_opened MAILBOX_PORT_NR processor_node_get_num mbufferpool mbufferpool_aux PROCESSOR_NOC_NODES_NUM s') s.
Proof.
  intros [Hb Ha Hun Hpt Hfl]. unfold do_mailbox_init.
  do 2 (wp_step; wp_step; [by rewrite mailbox_message_aligned|]).
  do 2 (wp_step; wp_step; [by rewrite mailbox_message_words|]). wp_step. wp_step.
  eapply (facility_init mailbox_functions MAILBOX_PORT_NR mbufferpool mbufferpool_aux).
  - apply Forall_map, Forall_forall. intros a Hin. apply mailbox_entry_fresh;
      by (eapply Forall_forall in Hin; [exact Hin|]).
  - done.
  - by apply Forall_map.
  - apply mailbox_create_ok.
  - intros k h Hk. by apply mailbox_open_ok.
  - simpl. rewrite length_map, Ha. pose proof mailbox_open_max. unfold HW_MAILBOX_MAX. lia.
Qed.

Lemma mailbox_windows bs :
  alen (mbuf bs) = KMAILBOX_MESSAGE_BUFFERS_MAX ->
  window_ok mbufferpool bs /\ window_ok mbufferpool_aux bs /\
  (forall i, in_window mbufferpool_aux i -> in_window mbufferpool i).
Proof.
  intros Hlen. unfold window_ok, in_window. simpl. rewrite Hlen. unfold KMAILBOX_AUX_BUFFERS_MAX.
  unfold KMAILBOX_MESSAGE_BUFFERS_MAX. case_match; (split; [|split]; [lia|lia|intros; lia]).
Qed.

(** The tables after the initialisation. *)
Lemma mailbox_facility s b :
  pool_opened MAILBOX_PORT_NR processor_node_get_num mbufferpool mbufferpool_aux PROCESSOR_NOC_NODES_NUM s ->
  bufs s = Mbuffers (map mbuffer_reset b) 0 false -> alen b = KMAILBOX_MESSAGE_BUFFERS_MAX ->
  facility_ready MAILBOX_PORT_NR mbufferpool mbufferpool_aux s.
Proof.
  intros Hod Hb Hlen. pose proof mailbox_port_nr_min.
  destruct (mailbox_windows (bufs s)) as (Hw1 & Hw2 & Hsub); [rewrite Hb; simpl; by rewrite length_map|].
  split; try done; rewrite ?Hb.
  - apply Forall_map, Forall_true. intros c. unfold mb_used. simpl. by rflags.
  - apply buffers_fresh.
  - done.
  - lia.
Qed.

End mailbox.
