(* ===== verification/Portal.v ===== *)
(** Portals over the hardware (src/kernel/noc/portal.c and the constants of
    include/nanvix/kernel/portal.h).

    The portals of the HAL are the class [PortalHw].  A portal differs from a mailbox in
    that a read must be allowed for the node it comes from. *)

From S2P Require Import Prelude.
From S2P Require Import Hlib.
From S2P Require Import Mbuffer.
From S2P Require Import Requests.
From S2P Require Import Active.
From S2P Require Import ActiveSpec.
From S2P Require Import ActivePorts.
From S2P Require Import ActiveInit.
From S2P Require Import Facility.

(** ** The HAL *)

Class PortalHw `{NocTopology} := {
  HAL_PORTAL_CREATE_MAX : Z;
  HAL_PORTAL_OPEN_MAX : Z;
  HAL_PORTAL_RESERVED_SIZE : Z;
  HAL_PORTAL_DATA_SIZE : Z;
  portal_create : Z -> hw -> Z * hw;
  portal_open : Z -> Z -> hw -> Z * hw;
  portal_allow : Z -> Z -> hw -> Z * hw;
  portal_aread : Z -> Z -> Z -> hw -> Z * hw;
  portal_awrite : Z -> mbuffer_message -> Z -> hw -> Z * hw;
  portal_wait : Z -> hw -> Z * list (Z * mbuffer_message) * hw;
  portal_message_addr : Z -> Z;
  portal_message_sizeof : Z;
}.

Class PortalHwLaws `(P : PortalHw) : Prop := {
  portal_message_aligned i : Z.land (portal_message_addr i) 7 = 0;
  portal_message_words : Z.rem portal_message_sizeof 8 = 0;
  portal_create_ok h : 0 ≤ fst (portal_create processor_node_get_num h);
  portal_open_ok remote h : node_is_local remote = false -> 0 ≤ fst (portal_open processor_node_get_num remote h);
  portal_open_max : PROCESSOR_NOC_NODES_NUM ≤ HAL_PORTAL_CREATE_MAX + HAL_PORTAL_OPEN_MAX;
}.

Section portal.
Context `{H : Hlib} `{P : PortalHw}.

(** ** Constants *)

Definition KPORTAL_PORT_NR : Z := 16.
Definition HW_PORTAL_MAX : Z := HAL_PORTAL_CREATE_MAX + HAL_PORTAL_OPEN_MAX + 1.
Definition KPORTAL_MESSAGE_HEADER_SIZE : Z := HAL_PORTAL_RESERVED_SIZE.
Definition KPORTAL_MESSAGE_DATA_SIZE : Z := HAL_PORTAL_DATA_SIZE.
Definition PORTAL_ANY_SOURCE : Z := PROCESSOR_NOC_NODES_NUM.
Definition PORTAL_ANY_PORT : Z := KPORTAL_PORT_NR.
Definition KPORTAL_MESSAGE_BUFFERS_MAX : Z := 32.
Definition KPORTAL_AUX_BUFFERS_MAX : Z := 16.

(** ** Functions of the actives *)

Definition wrapper_portal_allow (act : active) (remote : Z) (h : hw) : Z * hw :=
  if active_is_allowed act then
    if negb (ac_remote act =? remote) then (err EBUSY, h) else (0, h)
  else portal_allow (ac_hwfd act) remote h.

Definition portal_header_config (buf : mbuffer) (config : active_config) : mbuffer :=
  let m := mb_message buf in
  let h := msg_header m in
  mb_set_message
    (MbufferMessage (MbufferHeader (remote_addr config) (local_addr config) (cfg_size config) (h_unused h)) (msg_data m))
    buf.

Definition portal_get_actid (id : Z) : Z :=
  if id <? 0 then id else Z.quot id (KPORTAL_PORT_NR + 1).

Definition portal_get_portid (id : Z) : Z :=
  if id <? 0 then id else Z.rem id (KPORTAL_PORT_NR + 1).

Definition portal_source_check (buf : mbuffer) (src_mask : Z) : bool :=
  if src_mask =? -1 then true else
  let mask_node := portal_get_actid src_mask in
  let mask_port := portal_get_portid src_mask in
  let msg_source := h_src (msg_header (mb_message buf)) in
  if negb (mask_node =? PORTAL_ANY_SOURCE) && negb (mask_node =? portal_get_actid msg_source) then false else
  if negb (mask_port =? PORTAL_ANY_PORT) && negb (mask_port =? portal_get_portid msg_source) then false else
  true.

Definition portal_header_check (buf : mbuffer) (config : active_config) : bool :=
  (h_dest (msg_header (mb_message buf)) =? local_addr config) &&
  portal_source_check buf (remote_addr config).

Definition portal_laddress_calc (fd port : Z) : Z := ACTIVE_LADDRESS_COMPOSE fd port KPORTAL_PORT_NR.

Definition portal_functions : active_functions :=
  ActiveFunctions _ _ portal_create portal_open wrapper_portal_allow portal_aread portal_awrite
    portal_wait portal_header_config portal_header_check portal_get_actid portal_get_portid.

(** ** Initialisation *)

Definition pbufferpool : mbuffer_pool := MbufferPool 0 KPORTAL_MESSAGE_BUFFERS_MAX portal_source_check.

Definition pbufferpool_aux : mbuffer_pool :=
  MbufferPool (KPORTAL_MESSAGE_BUFFERS_MAX - KPORTAL_AUX_BUFFERS_MAX) KPORTAL_AUX_BUFFERS_MAX
    portal_source_check.

(** The assignments to one port and to one portal; the fields that they do not
    mention keep their values. *)
Definition portal_port_init (p : port) : port := Port RESOURCE_INITIALIZER (pt_flags p) (-1) None.

Definition portal_entry_init (a : active) : active :=
  Active (ac_resource a) (ac_flags a) (-1) (-1) (-1) 0
    (KPORTAL_MESSAGE_HEADER_SIZE + KPORTAL_MESSAGE_DATA_SIZE)
    (PortPool (map portal_port_init (ac_ports a)) KPORTAL_PORT_NR 0)
    pbufferpool pbufferpool_aux
    (RequestsFifo 0 0 KPORTAL_PORT_NR 0 (replicate (Z.to_nat KPORTAL_PORT_NR) (-1)))
    false.

Definition do_portal_table_init (s : noc) : noc :=
  Noc (Mbuffers (map mbuffer_reset (mbuf (bufs s))) 0 false)
      (map portal_entry_init (actives s)) (clock_error s) (umem s) (hwst s).

Definition do_portal_init : K noc unit :=
  let local := processor_node_get_num in
  KASSERT (Z.land (portal_message_addr 0) 7 =? 0);;
  KASSERT (Z.land (portal_message_addr 1) 7 =? 0);;
  KASSERT (Z.rem portal_message_sizeof 8 =? 0);;
  KASSERT (Z.rem portal_message_sizeof 8 =? 0);;
  kmodify do_portal_table_init;;
  r ← _active_create portal_functions local;
  KASSERT (0 <=? r);;
  open_all portal_functions local.

(** ** Operations *)

Definition do_portal_alloc (local remote port type : Z) : K noc Z := active_alloc local remote port type.
Definition do_portal_release (portalid : Z) : K noc Z := active_release portal_functions portalid.
Definition do_portal_aread (portalid : Z) (config : active_config) (stats : pstats) : K noc (Z * pstats) :=
  active_aread portal_functions portalid config stats.
Definition do_portal_awrite (portalid : Z) (config : active_config) (stats : pstats) : K noc (Z * pstats) :=
  active_awrite portal_functions portalid config stats.
Definition do_portal_wait (portalid : Z) (config : active_config) (stats : pstats) : K noc (Z * pstats) :=
  active_wait portal_functions portalid config stats.

(** ** Addresses and sources *)

Context {HL : HlibLaws H}.

Lemma portal_laddress i p :
  0 ≤ i -> 0 ≤ p ≤ KPORTAL_PORT_NR ->
  0 ≤ portal_laddress_calc i p /\
  portal_get_actid (portal_laddress_calc i p) = i /\ portal_get_portid (portal_laddress_calc i p) = p.
Proof.
  intros Hi Hp. destruct (laddress_split KPORTAL_PORT_NR i p Hi Hp) as (Hpos & Hq & Hr).
  unfold portal_laddress_calc, portal_get_actid, portal_get_portid.
  by rewrite (proj2 (Z.ltb_ge _ 0) Hpos).
Qed.

Lemma portal_addresses_ok : addresses_ok portal_functions KPORTAL_PORT_NR.
Proof. intros i p Hi Hp. destruct (portal_laddress i p) as (_ & ? & ?); [lia|lia|done]. Qed.

(** A message is accepted by a reader that expects its sender. *)
Lemma portal_source_exact b src :
  h_src (msg_header (mb_message b)) = src -> portal_source_check b src = true.
Proof.
  intros E. unfold portal_source_check. rewrite E, !Z.eqb_refl. simpl. rewrite !andb_false_r. by case_match.
Qed.

(** ** Initialisation *)

Record portal_statics (s : noc) : Prop := {
  ps_bufs : alen (mbuf (bufs s)) = KPORTAL_MESSAGE_BUFFERS_MAX;
  ps_actives : alen (actives s) = HW_PORTAL_MAX;
  ps_unused : Forall (fun a => resource_is_used (ac_resource a) = false) (actives s);
  ps_ports : Forall (fun a => alen (ac_ports a) = KPORTAL_PORT_NR) (actives s);
  ps_flags : Forall (fun a => Forall (fun p => pt_flags p = 0) (ac_ports a)) (actives s);
}.

Lemma portal_entry_fresh a :
  alen (ac_ports a) = KPORTAL_PORT_NR -> Forall (fun p => pt_flags p = 0) (ac_ports a) ->
  act_fresh KPORTAL_PORT_NR pbufferpool pbufferpool_aux (portal_entry_init a).
Proof. intros Hlen Hfl. apply table_entry_fresh; [by exists 4|done|done]. Qed.

Lemma do_portal_init_spec {TL : NocTopologyLaws _} {PL : PortalHwLaws P} s :
  portal_statics s ->
  wp do_portal_init (fun _ s' => bufs s' = bufs (do_portal_table_init s) /\
    pool_opened KPORTAL_PORT_NR processor_node_get_num pbufferpool pbufferpool_aux PROCESSOR_NOC_NODES_NUM s') s.
Proof.
  intros [Hb Ha Hun Hpt Hfl]. unfold do_portal_init.
  do 2 (wp_step; wp_step; [by rewrite portal_message_aligned|]).
  do 2 (wp_step; wp_step; [by rewrite portal_message_words|]). wp_step. wp_step.
  eapply (facility_init portal_functions KPORTAL_PORT_NR pbufferpool pbufferpool_aux).
  - apply Forall_map, Forall_forall. intros a Hin. apply portal_entry_fresh;
      by (eapply Forall_forall in Hin; [exact Hin|]).
  - done.
  - by apply Forall_map.
  - apply portal_create_ok.
  - intros k h Hk. by apply portal_open_ok.
  - simpl. rewrite length_map, Ha. pose proof portal_open_max. unfold HW_PORTAL_MAX. lia.
Qed.

Lemma portal_facility s b :
  pool_opened KPORTAL_PORT_NR processor_node_get_num pbufferpool pbufferpool_aux PROCESSOR_NOC_NODES_NUM s ->
  bufs s = Mbuffers (map mbuffer_reset b) 0 false -> alen b = KPORTAL_MESSAGE_BUFFERS_MAX ->
  facility_ready KPORTAL_PORT_NR pbufferpool pbufferpool_aux s.
Proof.
  intros Hod Hb Hlen. split; try done; rewrite ?Hb.
  - apply Forall_map, Forall_true. intros c. unfold mb_used. simpl. by rflags.
  - apply buffers_fresh.
  - done.
  - unfold window_ok. simpl. rewrite length_map, Hlen.
    unfold KPORTAL_MESSAGE_BUFFERS_MAX, KPORTAL_AUX_BUFFERS_MAX. lia.
  - intros i. unfold in_window. simpl. unfold KPORTAL_MESSAGE_BUFFERS_MAX, KPORTAL_AUX_BUFFERS_MAX. lia.
Qed.

End portal.
