(* ===== verification/Communicator.v ===== *)
(** Communicators: the virtual mailboxes and portals of the users
    (src/kernel/noc/communicator.{c,h}).

    A communicator owns a port of an active and records the operation in progress on
    it.  The table of functions through which it reaches the active is part of the
    state, because the facilities assign to it at run time.  The operations are
    verified against an abstract state machine with the phases of [cphase]. *)

From S2P Require Import Prelude.
From S2P Require Import Hlib.
From S2P Require Import MemLayout.
From S2P Require Import Mbuffer.
From S2P Require Import Requests.
From S2P Require Import Active.

(** ** Constants and data *)

Definition COMMUNICATOR_FLAGS_FINISHED : Z := Z.shiftl 1 0.
Definition COMMUNICATOR_FLAGS_ALLOWED : Z := Z.shiftl 1 1.

Definition COMM_IOCTL_GET_VOLUME : Z := 1.
Definition COMM_IOCTL_GET_LATENCY : Z := 2.
Definition COMM_IOCTL_GET_NCREATES : Z := 3.
Definition COMM_IOCTL_GET_NUNLINKS : Z := 4.
Definition COMM_IOCTL_GET_NOPENS : Z := 5.
Definition COMM_IOCTL_GET_NCLOSES : Z := 6.
Definition COMM_IOCTL_GET_NREADS : Z := 7.
Definition COMM_IOCTL_GET_NWRITES : Z := 8.
Definition COMM_IOCTL_SET_REMOTE : Z := 9.

Definition ACTIVE_CONFIG_INITIALIZER : active_config := ActiveConfig (-1) (-1) (-1) 0 0.
Definition PSTATS_INITIALIZER : pstats := Pstats 0 0.

Record communicator_counters := CommunicatorCounters {
  cc_lock : spinlock_t;
  ncreates : Z;
  nunlinks : Z;
  nopens : Z;
  ncloses : Z;
  nreads : Z;
  nwrites : Z;
}.

Record communicator_functions `{Hlib} `{NocHw} := CommunicatorFunctions {
  do_release : Z -> K noc Z;
  do_comm : Z -> active_config -> pstats -> K noc (Z * pstats);
  do_wait_comm : Z -> active_config -> pstats -> K noc (Z * pstats);
  laddress_calc : Z -> Z -> Z;
}.
Arguments CommunicatorFunctions {_ _} do_release do_comm do_wait_comm laddress_calc.

Record communicator `{Hlib} := Communicator {
  cm_resource : resource;
  cm_flags : Z;
  cm_config : active_config;
  cm_stats : pstats;
  cm_lock : spinlock_t;
}.
Arguments Communicator {_} cm_resource cm_flags cm_config cm_stats cm_lock.

(** A pool of communicators with what its entries share, over the pool of actives. *)
Record comms `{Hlib} `{NocHw} := Comms {
  cs_noc : noc;
  communicators : list communicator;
  counters : communicator_counters;
  cm_fn : communicator_functions;
}.
Arguments Comms {_ _} cs_noc communicators counters cm_fn.

(** How the target stores an integer of [size] bytes, and the size of [size_t]. *)
Class Abi := {
  sizeof_size_t : Z;
  store_int : Z -> Z -> list Z;
}.

Section communicator.
Context `{H : Hlib} `{N : NocHw} `{ML : MemLayout} `{AB : Abi} (t : mm_target).

Definition cm_set_resource (r : resource) (c : communicator) : communicator :=
  Communicator r (cm_flags c) (cm_config c) (cm_stats c) (cm_lock c).
Definition cm_set_flags (f : Z) (c : communicator) : communicator :=
  Communicator (cm_resource c) f (cm_config c) (cm_stats c) (cm_lock c).
Definition cm_set_config (x : active_config) (c : communicator) : communicator :=
  Communicator (cm_resource c) (cm_flags c) x (cm_stats c) (cm_lock c).
Definition cm_set_stats (x : pstats) (c : communicator) : communicator :=
  Communicator (cm_resource c) (cm_flags c) (cm_config c) x (cm_lock c).
Definition cm_set_lock (b : spinlock_t) (c : communicator) : communicator :=
  Communicator (cm_resource c) (cm_flags c) (cm_config c) (cm_stats c) b.

Definition cfg_set_buffer (buffer size : Z) (c : active_config) : active_config :=
  ActiveConfig (cfg_fd c) (local_addr c) (remote_addr c) buffer size.
Definition cfg_set_remote (remote : Z) (c : active_config) : active_config :=
  ActiveConfig (cfg_fd c) (local_addr c) remote (cfg_buffer c) (cfg_size c).

Definition cs_set_noc (x : noc) (s : comms) : comms := Comms x (communicators s) (counters s) (cm_fn s).
Definition cs_set_comms (x : list communicator) (s : comms) : comms := Comms (cs_noc s) x (counters s) (cm_fn s).
Definition cs_set_counters (x : communicator_counters) (s : comms) : comms :=
  Comms (cs_noc s) (communicators s) x (cm_fn s).
Definition cs_set_fn (x : communicator_functions) (s : comms) : comms :=
  Comms (cs_noc s) (communicators s) (counters s) x.

Definition cc_set_lock (b : spinlock_t) (c : communicator_counters) : communicator_counters :=
  CommunicatorCounters b (ncreates c) (nunlinks c) (nopens c) (ncloses c) (nreads c) (nwrites c).
Definition inc_ncreates (c : communicator_counters) : communicator_counters :=
  CommunicatorCounters (cc_lock c) (u64 (ncreates c + 1)) (nunlinks c) (nopens c) (ncloses c) (nreads c) (nwrites c).
Definition inc_nunlinks (c : communicator_counters) : communicator_counters :=
  CommunicatorCounters (cc_lock c) (ncreates c) (u64 (nunlinks c + 1)) (nopens c) (ncloses c) (nreads c) (nwrites c).
Definition inc_nopens (c : communicator_counters) : communicator_counters :=
  CommunicatorCounters (cc_lock c) (ncreates c) (nunlinks c) (u64 (nopens c + 1)) (ncloses c) (nreads c) (nwrites c).
Definition inc_ncloses (c : communicator_counters) : communicator_counters :=
  CommunicatorCounters (cc_lock c) (ncreates c) (nunlinks c) (nopens c) (u64 (ncloses c + 1)) (nreads c) (nwrites c).
Definition inc_nreads (c : communicator_counters) : communicator_counters :=
  CommunicatorCounters (cc_lock c) (ncreates c) (nunlinks c) (nopens c) (ncloses c) (u64 (nreads c + 1)) (nwrites c).
Definition inc_nwrites (c : communicator_counters) : communicator_counters :=
  CommunicatorCounters (cc_lock c) (ncreates c) (nunlinks c) (nopens c) (ncloses c) (nreads c) (u64 (nwrites c + 1)).

Definition with_noc {A} (m : K noc A) : K comms A := kzoom (fun s => Some (cs_noc s)) cs_set_noc m.
Definition with_comm {A} (i : Z) (m : K communicator A) : K comms A :=
  kzoom (fun s => aget (communicators s) i) (fun c s => cs_set_comms (aset i c (communicators s)) s) m.
Definition with_counters {A} (m : K communicator_counters A) : K comms A :=
  kzoom (fun s => Some (counters s)) cs_set_counters m.

Definition comm_read (i : Z) : K comms communicator := with_comm i (kgets (fun c => c)).
Definition comm_update (i : Z) (f : communicator -> communicator) : K comms unit := with_comm i (kmodify f).
Definition lock_comm (i : Z) : K comms unit := with_comm i (spinlock_lock cm_lock cm_set_lock).
Definition unlock_comm (i : Z) : K comms unit := with_comm i (spinlock_unlock cm_set_lock).
Definition lock_counters : K comms unit := with_counters (spinlock_lock cc_lock cc_set_lock).
Definition unlock_counters : K comms unit := with_counters (spinlock_unlock cc_set_lock).

(** ** Flags *)

Definition communicator_set_finished (c : communicator) : communicator :=
  cm_set_flags (Z.lor (cm_flags c) COMMUNICATOR_FLAGS_FINISHED) c.
Definition communicator_set_notfinished (c : communicator) : communicator :=
  cm_set_flags (Z.land (cm_flags c) (Z.lnot COMMUNICATOR_FLAGS_FINISHED)) c.
Definition communicator_set_allowed (c : communicator) : communicator :=
  cm_set_flags (Z.lor (cm_flags c) COMMUNICATOR_FLAGS_ALLOWED) c.
Definition communicator_set_notallowed (c : communicator) : communicator :=
  cm_set_flags (Z.land (cm_flags c) (Z.lnot COMMUNICATOR_FLAGS_ALLOWED)) c.
Definition communicator_is_finished (c : communicator) : bool :=
  negb (Z.land (cm_flags c) COMMUNICATOR_FLAGS_FINISHED =? 0).
Definition communicator_is_allowed (c : communicator) : bool :=
  negb (Z.land (cm_flags c) COMMUNICATOR_FLAGS_ALLOWED =? 0).

(** ** Operations *)

Definition communicator_alloc (config : active_config) (type : Z) : K comms Z :=
  n ← kgets (fun s => alen (communicators s));
  kfor (Z.to_nat n) 0 (fun i ret =>
    lock_comm i;;
    c ← comm_read i;
    if negb (resource_is_used (cm_resource c)) then
      let r := resource_set_used RESOURCE_INITIALIZER in
      comm_update i (fun c =>
        Communicator (if type =? ACTIVE_TYPE_INPUT then resource_set_rdonly r else resource_set_wronly r)
          0 config PSTATS_INITIALIZER (cm_lock c));;
      unlock_comm i;;
      mret (i, true)
    else
      unlock_comm i;;
      mret (ret, false)) (err EAGAIN).

(** The direction of a communicator does not fit [type]. *)
Definition bad_direction (c : communicator) (type : Z) : bool :=
  if type =? ACTIVE_TYPE_INPUT then negb (resource_is_readable (cm_resource c))
  else negb (resource_is_writable (cm_resource c)).

Definition communicator_free (id type : Z) : K comms Z :=
  n ← kgets (fun s => alen (communicators s));
  KASSERT (WITHIN id 0 n);;
  lock_comm id;;
  c ← comm_read id;
  ret ← (
    if negb (resource_is_used (cm_resource c)) then mret (err EBADF) else
    if bad_direction c type then mret (err EBADF) else
    if resource_is_busy (cm_resource c) then mret (err EBUSY) else
    f ← kgets cm_fn;
    r ← with_noc (do_release f (cfg_fd (cm_config c)));
    (if r =? 0 then
       comm_update id (fun c => cm_set_resource (resource_set_unused (cm_resource c)) c);;
       lock_counters;;
       with_counters (kmodify (if type =? ACTIVE_TYPE_INPUT then inc_nunlinks else inc_ncloses));;
       unlock_counters
     else mret tt);;
    mret r);
  unlock_comm id;;
  mret ret.

Definition communicator_operate (id type : Z) : K comms Z :=
  lock_comm id;;
  c ← comm_read id;
  ret ← (
    if negb (resource_is_used (cm_resource c)) then mret (err EBADF) else
    if bad_direction c type then mret (err EBADF) else
    if (type =? ACTIVE_TYPE_INPUT) && negb (communicator_is_allowed c) then mret (err EACCES) else
    if resource_is_busy (cm_resource c) then mret (err EBUSY) else
    f ← kgets cm_fn;
    r ← with_noc (do_comm f (cfg_fd (cm_config c)) (cm_config c) (cm_stats c));
    comm_update id (cm_set_stats (snd r));;
    if 0 <=? fst r then
      (if fst r =? ACTIVE_COMM_RECEIVED
       then comm_update id (fun c => communicator_set_notallowed (communicator_set_finished c))
       else mret tt);;
      comm_update id (fun c => cm_set_resource (resource_set_busy (cm_resource c)) c);;
      mret (cfg_size (cm_config c))
    else mret (fst r));
  unlock_comm id;;
  mret ret.

(** The steps under the label [release]. *)
Definition wait_finish_comm (id : Z) : K comms unit :=
  comm_update id (fun c =>
    cm_set_resource (resource_set_notbusy (cm_resource c)) (cm_set_config (cfg_set_buffer 0 0 (cm_config c)) c));;
  unlock_comm id.

Definition communicator_wait (id : Z) : K comms Z :=
  lock_comm id;;
  c ← comm_read id;
  if negb (resource_is_used (cm_resource c)) then unlock_comm id;; mret (err EBADF) else
  if negb (resource_is_busy (cm_resource c)) then unlock_comm id;; mret (err EBADF) else
  if communicator_is_finished c then
    comm_update id communicator_set_notfinished;;
    wait_finish_comm id;;
    mret 0
  else
  unlock_comm id;;
  f ← kgets cm_fn;
  r ← with_noc (do_wait_comm f (cfg_fd (cm_config c)) (cm_config c) (cm_stats c));
  comm_update id (cm_set_stats (snd r));;
  lock_comm id;;
  (if fst r =? ACTIVE_COMM_SUCCESS then
     comm_update id communicator_set_notallowed;;
     c ← comm_read id;
     (if resource_is_readable (cm_resource c)
      then comm_update id (fun c => cm_set_config (cfg_set_remote (-1) (cm_config c)) c) else mret tt);;
     lock_counters;;
     with_counters (kmodify (if resource_is_readable (cm_resource c) then inc_nreads else inc_nwrites));;
     unlock_counters
   else mret tt);;
  wait_finish_comm id;;
  mret (fst r).

Definition communicator_ioctl_valid (ptr size : Z) : bool :=
  negb (ptr =? 0) && mm_check_area t ptr size UMEM_AREA.

Definition store_user (ptr size value : Z) : K comms unit :=
  with_noc (kmodify (fun s => set_umem (mem_write ptr (store_int size value) (umem s)) s)).

(** The counter a request asks for. *)
Definition ioctl_counter (request : Z) (c : communicator) (cc : communicator_counters) : option Z :=
  if request =? COMM_IOCTL_GET_LATENCY then Some (latency (cm_stats c))
  else if request =? COMM_IOCTL_GET_NCREATES then Some (ncreates cc)
  else if request =? COMM_IOCTL_GET_NUNLINKS then Some (nunlinks cc)
  else if request =? COMM_IOCTL_GET_NOPENS then Some (nopens cc)
  else if request =? COMM_IOCTL_GET_NCLOSES then Some (ncloses cc)
  else if request =? COMM_IOCTL_GET_NREADS then Some (nreads cc)
  else if request =? COMM_IOCTL_GET_NWRITES then Some (nwrites cc)
  else None.

(** The arguments of the request are [arg0] and [arg1]. *)
Definition communicator_ioctl (id request arg0 arg1 : Z) : K comms Z :=
  lock_comm id;;
  lock_counters;;
  c ← comm_read id;
  ret ← (
    if negb (resource_is_used (cm_resource c)) then mret (err EBADF) else
    if resource_is_busy (cm_resource c) then mret (err EBUSY) else
    if request =? COMM_IOCTL_GET_VOLUME then
      if negb (communicator_ioctl_valid arg0 sizeof_size_t) then mret (err EFAULT) else
      store_user arg0 sizeof_size_t (volume (cm_stats c));;
      mret 0
    else if request =? COMM_IOCTL_SET_REMOTE then
      f ← kgets cm_fn;
      comm_update id (fun c => cm_set_config (cfg_set_remote (laddress_calc f arg0 arg1) (cm_config c)) c);;
      mret 0
    else
      cc ← kgets counters;
      match ioctl_counter request c cc : option Z with
      | Some v =>
          if negb (communicator_ioctl_valid arg0 8) then mret (err EFAULT) else
          store_user arg0 8 v;;
          mret 0
      | None => mret (err ENOTSUP)
      end);
  unlock_counters;;
  unlock_comm id;;
  mret ret.

End communicator.
