(* ===== verification/CommSpec.v ===== *)
(** The operations on communicators refine a state machine.

    A communicator is free, idle, or has an operation pending; an input communicator
    may be allowed to read, and a pending operation may already be finished.  Each
    operation maps the phase of its communicator, and the result of the underlying
    operation on the active, to a new phase and a result. *)

From S2P Require Import Prelude.
From S2P Require Import Hlib.
From S2P Require Import Mbuffer.
From S2P Require Import Requests.
From S2P Require Import Active.
From S2P Require Import ActiveSpec.
From S2P Require Import Communicator.

(** ** The state machine *)

Inductive dir := Input | Output.

#[export] Instance dir_eq_dec : EqDecision dir.
Proof. solve_decision. Defined.

Inductive cphase :=
| Free
| Idle (d : dir) (allowed : bool)
| Pending (d : dir) (allowed finished : bool).

Definition dir_of (type : Z) : dir := if type =? ACTIVE_TYPE_INPUT then Input else Output.

Section spec.
Context `{H : Hlib} `{N : NocHw}.

(** An operation is refused, and with which error. *)
Definition operate_refused (type : Z) (ph : cphase) : option Z :=
  match ph with
  | Free => Some (err EBADF)
  | Idle d allowed =>
      if bool_decide (d <> dir_of type) then Some (err EBADF)
      else if bool_decide (d = Input) && negb allowed then Some (err EACCES) else None
  | Pending d allowed _ =>
      if bool_decide (d <> dir_of type) then Some (err EBADF)
      else if bool_decide (d = Input) && negb allowed then Some (err EACCES) else Some (err EBUSY)
  end.

(** The phase after the active returned [r >= 0]. *)
Definition operate_next (r : Z) (ph : cphase) : cphase :=
  match ph with
  | Idle d allowed => Pending d (allowed && negb (r =? ACTIVE_COMM_RECEIVED)) (r =? ACTIVE_COMM_RECEIVED)
  | _ => ph
  end.

Definition wait_next (r : Z) (ph : cphase) : cphase :=
  match ph with
  | Pending d allowed true => Idle d allowed
  | Pending d allowed false => Idle d (allowed && negb (r =? ACTIVE_COMM_SUCCESS))
  | _ => ph
  end.

Definition free_refused (type : Z) (ph : cphase) : option Z :=
  match ph with
  | Free => Some (err EBADF)
  | Idle d _ => if bool_decide (d <> dir_of type) then Some (err EBADF) else None
  | Pending d _ _ => if bool_decide (d <> dir_of type) then Some (err EBADF) else Some (err EBUSY)
  end.

(** ** Abstraction *)

Definition comm_dir (c : communicator) : dir :=
  if resource_is_readable (cm_resource c) then Input else Output.

Definition phase (c : communicator) : cphase :=
  if resource_is_used (cm_resource c) then
    if resource_is_busy (cm_resource c)
    then Pending (comm_dir c) (communicator_is_allowed c) (communicator_is_finished c)
    else Idle (comm_dir c) (communicator_is_allowed c)
  else Free.

(** A communicator in use has one direction, and is finished only while it is busy. *)
Record comm_ok (c : communicator) : Prop := {
  co_unlocked : cm_lock c = false;
  co_direction : resource_is_used (cm_resource c) = true ->
    resource_is_writable (cm_resource c) = negb (resource_is_readable (cm_resource c));
  co_finished : resource_is_used (cm_resource c) = true -> resource_is_busy (cm_resource c) = false ->
    communicator_is_finished c = false;
}.

Definition comms_ok (s : comms) : Prop := Forall comm_ok (communicators s) /\ cc_lock (counters s) = false.

(** ** Flags *)

Lemma flag_testbit f k : 0 ≤ k -> negb (Z.land f (Z.shiftl 1 k) =? 0) = Z.testbit f k.
Proof.
  intros Hk. rewrite Z.shiftl_1_l. destruct (Z.testbit f k) eqn:E.
  - apply negb_true_iff, Z.eqb_neq. intros E0.
    assert (E1 : Z.testbit (Z.land f (2 ^ k)) k = true) by (by rewrite Z.land_spec, E, Z.pow2_bits_true).
    by rewrite E0, Z.bits_0 in E1.
  - apply negb_false_iff, Z.eqb_eq, Z.bits_inj'. intros j Hj. rewrite Z.land_spec, Z.bits_0.
    destruct (decide (j = k)) as [->|]; [by rewrite E|]. rewrite Z.pow2_bits_false by done. apply andb_false_r.
Qed.

Lemma finished_bit c : communicator_is_finished c = Z.testbit (cm_flags c) 0.
Proof. by apply flag_testbit. Qed.

Lemma allowed_bit c : communicator_is_allowed c = Z.testbit (cm_flags c) 1.
Proof. by apply flag_testbit. Qed.

Lemma finished_set_finished c : communicator_is_finished (communicator_set_finished c) = true.
Proof. rewrite finished_bit. unfold communicator_set_finished, cm_set_flags, cm_flags. by rewrite Z.lor_spec, orb_true_r. Qed.

Lemma finished_set_notfinished c : communicator_is_finished (communicator_set_notfinished c) = false.
Proof.
  rewrite finished_bit. unfold communicator_set_notfinished, cm_set_flags, cm_flags.
  by rewrite Z.land_spec, Z.lnot_spec, andb_false_r.
Qed.

Lemma allowed_set_finished c : communicator_is_allowed (communicator_set_finished c) = communicator_is_allowed c.
Proof. rewrite !allowed_bit. unfold communicator_set_finished, cm_set_flags, cm_flags. by rewrite Z.lor_spec, orb_false_r. Qed.

Lemma allowed_set_notfinished c : communicator_is_allowed (communicator_set_notfinished c) = communicator_is_allowed c.
Proof.
  rewrite !allowed_bit. unfold communicator_set_notfinished, cm_set_flags, cm_flags.
  by rewrite Z.land_spec, Z.lnot_spec, andb_true_r.
Qed.

Lemma allowed_set_allowed c : communicator_is_allowed (communicator_set_allowed c) = true.
Proof. rewrite allowed_bit. unfold communicator_set_allowed, cm_set_flags, cm_flags. by rewrite Z.lor_spec, orb_true_r. Qed.

Lemma allowed_set_notallowed c : communicator_is_allowed (communicator_set_notallowed c) = false.
Proof.
  rewrite allowed_bit. unfold communicator_set_notallowed, cm_set_flags, cm_flags.
  by rewrite Z.land_spec, Z.lnot_spec, andb_false_r.
Qed.

Lemma finished_set_allowed c : communicator_is_finished (communicator_set_allowed c) = communicator_is_finished c.
Proof. rewrite !finished_bit. unfold communicator_set_allowed, cm_set_flags, cm_flags. by rewrite Z.lor_spec, orb_false_r. Qed.

Lemma finished_set_notallowed c : communicator_is_finished (communicator_set_notallowed c) = communicator_is_finished c.
Proof.
  rewrite !finished_bit. unfold communicator_set_notallowed, cm_set_flags, cm_flags.
  by rewrite Z.land_spec, Z.lnot_spec, andb_true_r.
Qed.

(** Fields other than the flags do not matter. *)
Lemma allowed_set_stats st c : communicator_is_allowed (cm_set_stats st c) = communicator_is_allowed c.
Proof. done. Qed.
Lemma finished_set_stats st c : communicator_is_finished (cm_set_stats st c) = communicator_is_finished c.
Proof. done. Qed.
Lemma allowed_set_resource r c : communicator_is_allowed (cm_set_resource r c) = communicator_is_allowed c.
Proof. done. Qed.
Lemma finished_set_resource r c : communicator_is_finished (cm_set_resource r c) = communicator_is_finished c.
Proof. done. Qed.
Lemma allowed_set_config x c : communicator_is_allowed (cm_set_config x c) = communicator_is_allowed c.
Proof. done. Qed.
Lemma finished_set_config x c : communicator_is_finished (cm_set_config x c) = communicator_is_finished c.
Proof. done. Qed.

(** Evaluates the flags of a communicator after a sequence of updates. *)
Ltac cflags :=
  repeat progress rewrite ?allowed_set_stats, ?finished_set_stats, ?allowed_set_resource, ?finished_set_resource,
    ?allowed_set_config, ?finished_set_config, ?finished_set_finished, ?finished_set_notfinished,
    ?allowed_set_finished, ?allowed_set_notfinished, ?allowed_set_allowed, ?allowed_set_notallowed,
    ?finished_set_allowed, ?finished_set_notallowed.

(** ** Rules *)

Lemma wp_with_noc {A} (m : K noc A) (Q : A -> comms -> Prop) s :
  wp m (fun a n => Q a (cs_set_noc n s)) (cs_noc s) -> wp (with_noc m) Q s.
Proof. intros Hm. unfold with_noc. by eapply wp_zoom. Qed.

Lemma wp_noc_result {A} (m : K noc A) a n (Q : A -> comms -> Prop) s :
  m (cs_noc s) = Done a n -> Q a (cs_set_noc n s) -> wp (with_noc m) Q s.
Proof. intros Hm HQ. apply wp_with_noc. unfold wp. by rewrite Hm. Qed.

Lemma wp_with_comm {A} i (m : K communicator A) (Q : A -> comms -> Prop) c s :
  aget (communicators s) i = Some c ->
  wp m (fun a c' => Q a (cs_set_comms (aset i c' (communicators s)) s)) c -> wp (with_comm i m) Q s.
Proof. intros Hc Hm. unfold with_comm. by eapply wp_zoom. Qed.

Lemma cs_set_comms_id i c s : aget (communicators s) i = Some c -> cs_set_comms (aset i c (communicators s)) s = s.
Proof. intros Hc. rewrite aset_id by done. by destruct s. Qed.

Lemma wp_comm_read i c (Q : communicator -> comms -> Prop) s :
  aget (communicators s) i = Some c -> Q c s -> wp (comm_read i) Q s.
Proof.
  intros Hc HQ. unfold comm_read. eapply wp_with_comm; [done|]. wp_step. by rewrite cs_set_comms_id.
Qed.

Lemma wp_comm_update i f c (Q : unit -> comms -> Prop) s :
  aget (communicators s) i = Some c -> Q tt (cs_set_comms (aset i (f c) (communicators s)) s) ->
  wp (comm_update i f) Q s.
Proof. intros Hc HQ. unfold comm_update. eapply wp_with_comm; [done|]. by wp_step. Qed.

Lemma wp_lock_comm i c (Q : unit -> comms -> Prop) s :
  aget (communicators s) i = Some c -> cm_lock c = false ->
  Q tt (cs_set_comms (aset i (cm_set_lock true c) (communicators s)) s) -> wp (lock_comm i) Q s.
Proof. intros Hc Hl HQ. unfold lock_comm. eapply wp_with_comm; [done|]. by wp_step. Qed.

Lemma wp_unlock_comm i c (Q : unit -> comms -> Prop) s :
  aget (communicators s) i = Some c ->
  Q tt (cs_set_comms (aset i (cm_set_lock false c) (communicators s)) s) -> wp (unlock_comm i) Q s.
Proof. intros Hc HQ. unfold unlock_comm. eapply wp_with_comm; [done|]. by wp_step. Qed.

(** A counter is updated under its lock. *)
Lemma wp_count f (Q : unit -> comms -> Prop) s :
  cc_lock (counters s) = false ->
  (forall b c, f (cc_set_lock b c) = cc_set_lock b (f c)) -> cc_lock (f (counters s)) = false ->
  Q tt (cs_set_counters (f (counters s)) s) ->
  wp (lock_counters;; with_counters (kmodify f);; unlock_counters) Q s.
Proof.
  intros Hl Hf Hfl HQ. unfold lock_counters, unlock_counters, with_counters.
  wp_step. wp_step; [done|]. wp_step; [done|]. wp_step. wp_step; [done|]. wp_step. wp_step; [done|]. wp_step.
  unfold cs_set_counters in *. simpl. rewrite Hf.
  replace (cc_set_lock false (cc_set_lock true (f (counters s)))) with (f (counters s)); [done|].
  destruct (f (counters s)). simpl in *. by subst.
Qed.

Lemma wp_count_bind {A} f (m : K comms A) (Q : A -> comms -> Prop) s :
  cc_lock (counters s) = false ->
  (forall b c, f (cc_set_lock b c) = cc_set_lock b (f c)) -> cc_lock (f (counters s)) = false ->
  wp m Q (cs_set_counters (f (counters s)) s) ->
  wp (lock_counters;; with_counters (kmodify f);; unlock_counters;; m) Q s.
Proof.
  intros Hl Hf Hfl HQ. pose proof (wp_count f (fun _ => wp m Q) s Hl Hf Hfl HQ) as Hw.
  unfold wp, mbind, K_bind in *. destruct (lock_counters s); [|done..].
  destruct (with_counters (kmodify f) s0); [|done..]. by destruct (unlock_counters s1).
Qed.

Lemma comms_ok_get s i c : comms_ok s -> aget (communicators s) i = Some c -> comm_ok c.
Proof. intros [Hall _] Hc. by eapply Forall_aget. Qed.

Lemma cm_unlock_lock c : cm_lock c = false -> cm_set_lock false (cm_set_lock true c) = c.
Proof. destruct c. simpl. by intros ->. Qed.

Lemma comms_ok_set s i c n f : comms_ok s -> comm_ok c ->
  comms_ok (Comms n (aset i c (communicators s)) (counters s) f).
Proof. intros [Hall Hl] Hc. split; [by apply Forall_aset|done]. Qed.

(** Unlocking writes the communicator back. *)
Lemma wp_unlock_ret {A} (v : A) i c c0 (Q : A -> comms -> Prop) n l cc f :
  aget l i = Some c0 -> cm_lock c = false ->
  Q v (Comms n (aset i c l) cc f) ->
  wp (unlock_comm i;; mret v) Q (Comms n (aset i (cm_set_lock true c) l) cc f).
Proof.
  intros Hc Hl HQ. wp_step. eapply wp_unlock_comm; [simpl; by eapply aget_aset_same|]. wp_step.
  rewrite cm_unlock_lock by done. unfold cs_set_comms. simpl. by rewrite aset_aset_eq.
Qed.

Lemma bad_direction_dir c type :
  comm_ok c -> resource_is_used (cm_resource c) = true ->
  bad_direction c type = bool_decide (comm_dir c <> dir_of type).
Proof.
  intros Hok Hu. unfold bad_direction, comm_dir, dir_of. rewrite (co_direction _ Hok Hu).
  by destruct (type =? ACTIVE_TYPE_INPUT), (resource_is_readable (cm_resource c)).
Qed.

Lemma input_allowed c type :
  comm_dir c = dir_of type -> (type =? ACTIVE_TYPE_INPUT) = bool_decide (comm_dir c = Input).
Proof. intros ->. unfold dir_of. by destruct (type =? ACTIVE_TYPE_INPUT). Qed.

(** ** Operating *)

(** The updates of a successful operation. *)
Definition operated (r : Z) (st : pstats) (c : communicator) : communicator :=
  let c1 := cm_set_stats st c in
  let c2 := if r =? ACTIVE_COMM_RECEIVED then communicator_set_notallowed (communicator_set_finished c1) else c1 in
  cm_set_resource (resource_set_busy (cm_resource c2)) c2.

Context {HL : HlibLaws H}.

Lemma operated_phase r st c :
  comm_ok c -> resource_is_used (cm_resource c) = true -> resource_is_busy (cm_resource c) = false ->
  comm_ok (operated r st c) /\ phase (operated r st c) = operate_next r (phase c) /\
  cm_config (operated r st c) = cm_config c /\ cm_stats (operated r st c) = st.
Proof.
  intros Hok Hu Hb. pose proof (co_finished _ Hok Hu Hb) as Hfin. unfold operated.
  destruct (r =? ACTIVE_COMM_RECEIVED) eqn:Er.
  - split; [split; simpl; rflags; try apply Hok; done|].
    split_and!; try done. unfold phase, comm_dir. simpl. rflags. rewrite Hu, Hb. simpl. rewrite Er. f_equal; cflags; try done.
    by rewrite andb_false_r.
  - split; [split; simpl; rflags; try apply Hok; done|].
    split_and!; try done. unfold phase, comm_dir. simpl. rflags. rewrite Hu, Hb. simpl. rewrite Er. f_equal; cflags; try done.
    by rewrite andb_true_r.
Qed.

(** The guards of the code, in the order of the code. *)
Lemma operate_refused_guards {A} type c (k : K comms A) (g : Z -> K comms A) :
  comm_ok c ->
  match operate_refused type (phase c) with Some e => g e | None => k end =
  if negb (resource_is_used (cm_resource c)) then g (err EBADF) else
  if bad_direction c type then g (err EBADF) else
  if (type =? ACTIVE_TYPE_INPUT) && negb (communicator_is_allowed c) then g (err EACCES) else
  if resource_is_busy (cm_resource c) then g (err EBUSY) else k.
Proof.
  intros Hok. unfold phase. destruct (resource_is_used (cm_resource c)) eqn:Eu; [simpl|done].
  rewrite bad_direction_dir by done.
  destruct (resource_is_busy (cm_resource c)); simpl.
  all: destruct (decide (comm_dir c = dir_of type)) as [E|E];
    [rewrite bool_decide_false by (intros ?; done); rewrite <- (input_allowed c type E);
     by destruct ((type =? ACTIVE_TYPE_INPUT) && negb (communicator_is_allowed c))
    |by rewrite bool_decide_true].
Qed.

Lemma operate_allowed type c :
  comm_ok c -> operate_refused type (phase c) = None ->
  resource_is_used (cm_resource c) = true /\ resource_is_busy (cm_resource c) = false.
Proof.
  intros _. unfold phase. destruct (resource_is_used (cm_resource c)), (resource_is_busy (cm_resource c)); simpl;
    repeat case_match; done.
Qed.

Lemma operated_lock r st c :
  cm_set_resource (resource_set_busy (cm_resource (if r =? ACTIVE_COMM_RECEIVED
      then communicator_set_notallowed (communicator_set_finished (cm_set_stats st (cm_set_lock true c)))
      else cm_set_stats st (cm_set_lock true c))))
    (if r =? ACTIVE_COMM_RECEIVED
      then communicator_set_notallowed (communicator_set_finished (cm_set_stats st (cm_set_lock true c)))
      else cm_set_stats st (cm_set_lock true c)) =
  cm_set_lock true (operated r st c).
Proof. unfold operated. by destruct (r =? ACTIVE_COMM_RECEIVED). Qed.

Lemma wp_received r i c c0 (Q : unit -> comms -> Prop) n l cc f :
  aget l i = Some c0 ->
  Q tt (Comms n (aset i (if r =? ACTIVE_COMM_RECEIVED
      then communicator_set_notallowed (communicator_set_finished c) else c) l) cc f) ->
  wp (if r =? ACTIVE_COMM_RECEIVED
      then comm_update i (fun c => communicator_set_notallowed (communicator_set_finished c)) else mret tt) Q
     (Comms n (aset i c l) cc f).
Proof.
  intros Hc HQ. destruct (r =? ACTIVE_COMM_RECEIVED); [|by wp_step].
  eapply wp_comm_update; [simpl; by eapply aget_aset_same|]. unfold cs_set_comms. simpl. by rewrite aset_aset_eq.
Qed.

(** An operation that is refused does not reach the active. *)
Lemma communicator_operate_refused id type s c e :
  comms_ok s -> aget (communicators s) id = Some c -> operate_refused type (phase c) = Some e ->
  wp (communicator_operate id type) (fun ret s' => ret = e /\ s' = s) s.
Proof.
  intros Hok Hc Eref. pose proof (comms_ok_get _ _ _ Hok Hc) as Hco. pose proof (co_unlocked _ Hco) as Hl.
  unfold communicator_operate. wp_step. eapply wp_lock_comm; [done|done|].
  wp_step. eapply wp_comm_read; [simpl; by eapply aget_aset_same|].
  destruct s as [n0 cs cc f]. simpl in *. unfold cs_set_comms; simpl.
  change (bad_direction (cm_set_lock true c) type) with (bad_direction c type).
  change (communicator_is_allowed (cm_set_lock true c)) with (communicator_is_allowed c).
  wp_step. rewrite <- (operate_refused_guards type c _ mret) by done. rewrite Eref.
  wp_step. eapply wp_unlock_ret; [done|done|]. by rewrite aset_id.
Qed.

Lemma communicator_operate_spec id type s c r st n :
  comms_ok s -> aget (communicators s) id = Some c ->
  do_comm (cm_fn s) (cfg_fd (cm_config c)) (cm_config c) (cm_stats c) (cs_noc s) = Done (r, st) n ->
  wp (communicator_operate id type) (fun ret s' =>
    match operate_refused type (phase c) with
    | Some e => ret = e /\ s' = s
    | None =>
        if r <? 0 then ret = r /\
          s' = Comms n (aset id (cm_set_stats st c) (communicators s)) (counters s) (cm_fn s)
        else ret = cfg_size (cm_config c) /\
          s' = Comms n (aset id (operated r st c) (communicators s)) (counters s) (cm_fn s)
    end) s.
Proof.
  intros Hok Hc Hcomm. pose proof (comms_ok_get _ _ _ Hok Hc) as Hco. pose proof (co_unlocked _ Hco) as Hl.
  destruct (operate_refused type (phase c)) as [e|] eqn:Eref; [by eapply communicator_operate_refused|].
  unfold communicator_operate. wp_step. eapply wp_lock_comm; [done|done|].
  wp_step. eapply wp_comm_read; [simpl; by eapply aget_aset_same|].
  destruct s as [n0 cs cc f]. simpl in *. unfold cs_set_comms; simpl.
  change (bad_direction (cm_set_lock true c) type) with (bad_direction c type).
  change (communicator_is_allowed (cm_set_lock true c)) with (communicator_is_allowed c).
  wp_step. rewrite <- (operate_refused_guards type c _ mret) by done.
  rewrite Eref. wp_step. wp_step. wp_step. eapply wp_noc_result; [done|]. wp_step.
  eapply wp_comm_update; [simpl; by eapply aget_aset_same|]. simpl. rewrite aset_aset_eq.
  rewrite Z.leb_antisym. destruct (r <? 0) eqn:Er; simpl.
  - wp_step. by eapply (wp_unlock_ret r id (cm_set_stats st c)).
  - wp_step. apply (wp_received r id (cm_set_stats st (cm_set_lock true c)) c); [done|].
    wp_step. eapply wp_comm_update; [simpl; by eapply aget_aset_same|]. wp_step. simpl.
    rewrite aset_aset_eq, operated_lock.
    eapply wp_unlock_ret; [done| |done]. unfold operated. by destruct (r =? ACTIVE_COMM_RECEIVED).
Qed.

(** (C20) [communicator_operate] implements the state machine: it refuses the operation
    with the error of the phase and changes nothing, or it calls the active, after
    which the communicator is pending, and finished if the message was received at
    once. *)
Theorem communicator_operate_refines id type s c r st n :
  comms_ok s -> aget (communicators s) id = Some c ->
  do_comm (cm_fn s) (cfg_fd (cm_config c)) (cm_config c) (cm_stats c) (cs_noc s) = Done (r, st) n ->
  wp (communicator_operate id type) (fun ret s' => comms_ok s' /\
    match operate_refused type (phase c) with
    | Some e => ret = e /\ s' = s
    | None => exists c', s' = Comms n (aset id c' (communicators s)) (counters s) (cm_fn s) /\
        cm_config c' = cm_config c /\ cm_stats c' = st /\
        if r <? 0 then ret = r /\ phase c' = phase c
        else ret = cfg_size (cm_config c) /\ phase c' = operate_next r (phase c)
    end) s.
Proof.
  intros Hok Hc Hcomm. pose proof (comms_ok_get _ _ _ Hok Hc) as Hco.
  eapply wp_mono; [by apply (communicator_operate_spec id type s c r st n)|]. intros ret s'.
  destruct (operate_refused type (phase c)) as [e|] eqn:Eref; [by intros [-> ->]|].
  destruct (operate_allowed type c Hco Eref) as [Hu Hb].
  destruct (operated_phase r st c Hco Hu Hb) as (Hok' & Hph & Hcf & Hst).
  destruct (r <? 0) eqn:Er; intros [-> ->].
  - split; [by apply (comms_ok_set s); [|destruct Hco; split]|]. by exists (cm_set_stats st c).
  - split; [by apply (comms_ok_set s)|]. by exists (operated r st c).
Qed.

(** ** Waiting *)

(** The communicator after a wait. *)
Definition wait_finished (c : communicator) : communicator :=
  cm_set_resource (resource_set_notbusy (cm_resource c)) (cm_set_config (cfg_set_buffer 0 0 (cm_config c)) c).

Definition wait_success (c : communicator) : communicator :=
  let c1 := communicator_set_notallowed c in
  if resource_is_readable (cm_resource c1) then cm_set_config (cfg_set_remote (-1) (cm_config c1)) c1 else c1.

Definition wait_count (c : communicator) : communicator_counters -> communicator_counters :=
  if resource_is_readable (cm_resource c) then inc_nreads else inc_nwrites.

Definition waited (r : Z) (st : pstats) (c : communicator) : communicator :=
  let c1 := cm_set_stats st c in
  wait_finished (if r =? ACTIVE_COMM_SUCCESS then wait_success c1 else c1).

Lemma wait_success_resource c : cm_resource (wait_success c) = cm_resource c.
Proof. unfold wait_success. by case_match. Qed.

Lemma wait_success_lock b c : cm_set_lock b (wait_success c) = wait_success (cm_set_lock b c).
Proof.
  unfold wait_success. change (cm_resource (communicator_set_notallowed (cm_set_lock b c))) with
    (cm_resource (communicator_set_notallowed c)). by case_match.
Qed.

Lemma waited_ok r st c :
  comm_ok c -> resource_is_used (cm_resource c) = true -> communicator_is_finished c = false ->
  comm_ok (waited r st c) /\
  phase (waited r st c) = Idle (comm_dir c) (communicator_is_allowed c && negb (r =? ACTIVE_COMM_SUCCESS)).
Proof.
  intros Hok Hu Hf. unfold waited.
  set (c1 := if r =? ACTIVE_COMM_SUCCESS then _ else _).
  assert (Hr : cm_resource c1 = cm_resource c).
  { unfold c1. case_match; [by rewrite wait_success_resource|done]. }
  assert (Hal : communicator_is_allowed c1 = communicator_is_allowed c && negb (r =? ACTIVE_COMM_SUCCESS)).
  { unfold c1, wait_success. destruct (r =? ACTIVE_COMM_SUCCESS); [|by rewrite andb_true_r].
    rewrite andb_false_r. by case_match; cflags. }
  assert (Hfi : communicator_is_finished c1 = false).
  { unfold c1, wait_success. by repeat case_match; cflags. }
  assert (Hlk : cm_lock c1 = false).
  { unfold c1, wait_success. repeat case_match; apply Hok. }
  split.
  - split; [done|simpl; rflags; rewrite Hr; apply Hok|done].
  - unfold phase, comm_dir, wait_finished. simpl. rflags. rewrite Hr, Hu. by cflags; rewrite Hal.
Qed.

Lemma wait_finish_spec i c c0 (Q : unit -> comms -> Prop) n l cc f :
  aget l i = Some c0 -> cm_lock c = false ->
  Q tt (Comms n (aset i (wait_finished c) l) cc f) ->
  wp (wait_finish_comm i) Q (Comms n (aset i (cm_set_lock true c) l) cc f).
Proof.
  intros Hc Hl HQ. unfold wait_finish_comm. wp_step.
  eapply wp_comm_update; [simpl; by eapply aget_aset_same|].
  eapply wp_unlock_comm; [simpl; by eapply aget_aset_same, aget_aset_same|].
  unfold cs_set_comms. simpl. rewrite !aset_aset_eq. destruct c as [? ? ? ? lk]. simpl in *. by subst.
Qed.

(** The part of a wait that follows a successful operation. *)
Lemma wait_success_spec i c c0 (Q : unit -> comms -> Prop) n l cc f :
  aget l i = Some c0 -> cc_lock cc = false ->
  Q tt (Comms n (aset i (wait_success c) l) (wait_count c cc) f) ->
  wp (comm_update i communicator_set_notallowed;;
      c ← comm_read i;
      (if resource_is_readable (cm_resource c)
       then comm_update i (fun c => cm_set_config (cfg_set_remote (-1) (cm_config c)) c) else mret tt);;
      lock_counters;;
      with_counters (kmodify (if resource_is_readable (cm_resource c) then inc_nreads else inc_nwrites));;
      unlock_counters) Q (Comms n (aset i c l) cc f).
Proof.
  intros Hc Hl HQ. wp_step. eapply wp_comm_update; [simpl; by eapply aget_aset_same|].
  unfold cs_set_comms. simpl. rewrite aset_aset_eq.
  wp_step. eapply wp_comm_read; [simpl; by eapply aget_aset_same|].
  unfold wait_success, wait_count in HQ. simpl in HQ.
  change (cm_resource (communicator_set_notallowed c)) with (cm_resource c).
  destruct (resource_is_readable (cm_resource c)); wp_step.
  - eapply wp_comm_update; [simpl; by eapply aget_aset_same|]. apply wp_count; try done.
    unfold cs_set_comms, cs_set_counters. simpl. by rewrite aset_aset_eq.
  - wp_step. by apply wp_count.
Qed.

Lemma finished_ok c :
  comm_ok c -> resource_is_used (cm_resource c) = true ->
  let c' := wait_finished (communicator_set_notfinished c) in
  comm_ok c' /\ phase c' = Idle (comm_dir c) (communicator_is_allowed c).
Proof.
  intros Hok Hu c'. unfold c', wait_finished. split.
  - split; [apply Hok|simpl; rflags; apply Hok|by cflags].
  - unfold phase, comm_dir. simpl. rflags. rewrite Hu. by cflags.
Qed.

(** A wait on an operation that is already finished does not reach the active. *)
Lemma communicator_wait_finished id s c :
  comms_ok s -> aget (communicators s) id = Some c ->
  resource_is_used (cm_resource c) = true -> resource_is_busy (cm_resource c) = true ->
  communicator_is_finished c = true ->
  wp (communicator_wait id) (fun ret s' => ret = 0 /\
    s' = cs_set_comms (aset id (wait_finished (communicator_set_notfinished c)) (communicators s)) s) s.
Proof.
  intros Hok Hc Eu Eb Ef. pose proof (comms_ok_get _ _ _ Hok Hc) as Hco. pose proof (co_unlocked _ Hco) as Hl.
  unfold communicator_wait. wp_step. eapply wp_lock_comm; [done|done|].
  wp_step. eapply wp_comm_read; [simpl; by eapply aget_aset_same|].
  destruct s as [n0 cs cc f]. simpl in *. unfold cs_set_comms; simpl.
  change (communicator_is_finished (cm_set_lock true c)) with (communicator_is_finished c).
  rewrite Eu, Eb, Ef. simpl. wp_step. eapply wp_comm_update; [simpl; by eapply aget_aset_same|].
  unfold cs_set_comms. simpl. rewrite aset_aset_eq.
  wp_step. apply (wait_finish_spec id (communicator_set_notfinished c) c); [done|done|]. by wp_step.
Qed.

Lemma communicator_wait_spec id s c r st n :
  comms_ok s -> aget (communicators s) id = Some c ->
  do_wait_comm (cm_fn s) (cfg_fd (cm_config c)) (cm_config c) (cm_stats c) (cs_noc s) = Done (r, st) n ->
  wp (communicator_wait id) (fun ret s' =>
    if resource_is_used (cm_resource c) && resource_is_busy (cm_resource c) then
      if communicator_is_finished c then ret = 0 /\
        s' = cs_set_comms (aset id (wait_finished (communicator_set_notfinished c)) (communicators s)) s
      else ret = r /\
        s' = Comms n (aset id (waited r st c) (communicators s))
               (if r =? ACTIVE_COMM_SUCCESS then wait_count c (counters s) else counters s) (cm_fn s)
    else ret = err EBADF /\ s' = s) s.
Proof.
  intros Hok Hc Hw. pose proof (comms_ok_get _ _ _ Hok Hc) as Hco. pose proof (co_unlocked _ Hco) as Hl.
  destruct (resource_is_used (cm_resource c) && resource_is_busy (cm_resource c) && communicator_is_finished c) eqn:Ed.
  { apply andb_true_iff in Ed as [[Eu Eb]%andb_true_iff Ef]. rewrite Eu, Eb, Ef. by apply communicator_wait_finished. }
  unfold communicator_wait. wp_step. eapply wp_lock_comm; [done|done|].
  wp_step. eapply wp_comm_read; [simpl; by eapply aget_aset_same|].
  destruct s as [n0 cs cc f]. simpl in *. unfold cs_set_comms; simpl. pose proof Hok as [_ Hcc]. simpl in Hcc.
  change (communicator_is_finished (cm_set_lock true c)) with (communicator_is_finished c).
  destruct (resource_is_used (cm_resource c)) eqn:Eu; simpl.
  2:{ eapply wp_unlock_ret; [done|done|]. by rewrite aset_id. }
  destruct (resource_is_busy (cm_resource c)) eqn:Eb; simpl.
  2:{ eapply wp_unlock_ret; [done|done|]. by rewrite aset_id. }
  destruct (communicator_is_finished c) eqn:Ef; [done|].
  wp_step. eapply wp_unlock_comm; [simpl; by eapply aget_aset_same|].
  rewrite cm_unlock_lock by done. unfold cs_set_comms. simpl. rewrite aset_aset_eq.
  wp_step. wp_step. wp_step. eapply wp_noc_result; [done|]. wp_step.
  eapply wp_comm_update; [simpl; by eapply aget_aset_same|]. unfold cs_set_noc, cs_set_comms. simpl. rewrite aset_aset_eq.
  wp_step. eapply wp_lock_comm; [simpl; by eapply aget_aset_same|done|].
  unfold cs_set_comms, waited. simpl. rewrite aset_aset_eq.
  destruct (waited_ok r st c Hco Eu Ef) as [Hok' _]. revert Hok'. unfold waited.
  destruct (r =? ACTIVE_COMM_SUCCESS); intros Hok'; wp_step.
  - apply (wait_success_spec id (cm_set_lock true (cm_set_stats st c)) c); [done|done|].
    rewrite <- wait_success_lock. wp_step.
    apply (wait_finish_spec id (wait_success (cm_set_stats st c)) c); [done|apply Hok'|]. by wp_step.
  - wp_step. wp_step. apply (wait_finish_spec id (cm_set_stats st c) c); [done|done|]. by wp_step.
Qed.

(** (C21) [communicator_wait] implements the state machine: it fails on a communicator
    that has no operation pending; if the operation was already finished it returns at
    once, without counting the operation; otherwise it waits on the active and, when
    that succeeds, revokes the permission to read, forgets the remote of a reader and
    counts the operation.  In the last two cases the communicator is idle and has no
    buffer. *)
Theorem communicator_wait_refines id s c r st n :
  comms_ok s -> aget (communicators s) id = Some c ->
  do_wait_comm (cm_fn s) (cfg_fd (cm_config c)) (cm_config c) (cm_stats c) (cs_noc s) = Done (r, st) n ->
  wp (communicator_wait id) (fun ret s' => comms_ok s' /\
    match phase c with
    | Pending d allowed finished => exists c',
        phase c' = wait_next r (phase c) /\ cfg_buffer (cm_config c') = 0 /\ cfg_size (cm_config c') = 0 /\
        if finished then
          ret = 0 /\ remote_addr (cm_config c') = remote_addr (cm_config c) /\
          s' = Comms (cs_noc s) (aset id c' (communicators s)) (counters s) (cm_fn s)
        else
          let ok := r =? ACTIVE_COMM_SUCCESS in
          ret = r /\ cm_stats c' = st /\
          remote_addr (cm_config c') =
            (if ok && bool_decide (d = Input) then -1 else remote_addr (cm_config c)) /\
          s' = Comms n (aset id c' (communicators s))
                 (if ok then (if bool_decide (d = Input) then inc_nreads else inc_nwrites) (counters s)
                  else counters s) (cm_fn s)
    | _ => ret = err EBADF /\ s' = s
    end) s.
Proof.
  intros Hok Hc Hw. pose proof (comms_ok_get _ _ _ Hok Hc) as Hco.
  eapply wp_mono; [by apply (communicator_wait_spec id s c r st n)|]. intros ret s'.
  destruct (resource_is_used (cm_resource c)) eqn:Eu; simpl.
  2:{ assert (phase c = Free) as -> by (unfold phase; by rewrite Eu). by intros [-> ->]. }
  destruct (resource_is_busy (cm_resource c)) eqn:Eb; simpl.
  2:{ assert (phase c = Idle (comm_dir c) (communicator_is_allowed c)) as -> by (unfold phase; by rewrite Eu, Eb).
      by intros [-> ->]. }
  assert (phase c = Pending (comm_dir c) (communicator_is_allowed c) (communicator_is_finished c)) as ->
    by (unfold phase; by rewrite Eu, Eb).
  destruct (communicator_is_finished c) eqn:Ef; intros [-> ->].
  { destruct (finished_ok c Hco Eu) as [Hok' Hph].
    split; [by apply (comms_ok_set s)|]. by exists (wait_finished (communicator_set_notfinished c)). }
  destruct (waited_ok r st c Hco Eu Ef) as [Hok' Hph].
  split; [|exists (waited r st c); split; [done|]].
  - split; [apply Forall_aset; [apply Hok|done]|]. unfold wait_count. case_match; [|apply Hok]. case_match; apply Hok.
  - unfold waited, wait_success, wait_count, comm_dir. simpl.
    by destruct (r =? ACTIVE_COMM_SUCCESS), (resource_is_readable (cm_resource c)).
Qed.

(** ** Allocation and release *)

Lemma allocated_ok type config b :
  let r := resource_set_used RESOURCE_INITIALIZER in
  let c := Communicator (if type =? ACTIVE_TYPE_INPUT then resource_set_rdonly r else resource_set_wronly r)
             0 config PSTATS_INITIALIZER b in
  phase c = Idle (dir_of type) false /\ (b = false -> comm_ok c).
Proof.
  intros r c. unfold phase, comm_dir, dir_of, c, r. simpl. split.
  - destruct (type =? ACTIVE_TYPE_INPUT); by rflags.
  - intros ->. destruct (type =? ACTIVE_TYPE_INPUT); split; simpl; rflags; done.
Qed.

Lemma communicator_alloc_spec config type s :
  comms_ok s ->
  wp (communicator_alloc config type) (fun r s' => comms_ok s' /\
    ((r = err EAGAIN /\ s' = s /\ Forall (fun c => phase c <> Free) (communicators s)) \/
     (exists c c', aget (communicators s) r = Some c /\ phase c = Free /\
        (forall j b, j < r -> aget (communicators s) j = Some b -> phase b <> Free) /\
        s' = cs_set_comms (aset r c' (communicators s)) s /\
        phase c' = Idle (dir_of type) false /\ cm_config c' = config))) s.
Proof.
  intros Hok. unfold communicator_alloc. wp_step. wp_step. rewrite Nat2Z.id.
  apply (wp_kfor (fun i r t => r = err EAGAIN /\ t = s /\
    forall j b, j < i -> aget (communicators s) j = Some b -> phase b <> Free)).
  - split_and!; try done. intros j b Hj Hb. apply aget_lt in Hb. lia.
  - intros j r t Hj (-> & -> & Hpre). destruct (aget_is_Some (communicators s) j) as [c Hc]; [lia|].
    pose proof (comms_ok_get _ _ _ Hok Hc) as Hco. pose proof (co_unlocked _ Hco) as Hl.
    wp_step. eapply wp_lock_comm; [done|done|].
    wp_step. eapply wp_comm_read; [simpl; by eapply aget_aset_same|]. simpl.
    destruct s as [n cs cc f]. unfold cs_set_comms. simpl in *.
    destruct (resource_is_used (cm_resource c)) eqn:Eu; simpl.
    + eapply wp_unlock_ret; [done|done|]. rewrite aset_id by done. split_and!; try done.
      intros k b Hk Hb. destruct (decide (k = j)) as [->|]; [|eapply Hpre; [|done]; lia].
      rewrite Hc in Hb. injection Hb as <-. unfold phase. rewrite Eu. by case_match.
    + wp_step. eapply wp_comm_update; [simpl; by eapply aget_aset_same|].
      unfold cs_set_comms. simpl. rewrite aset_aset_eq.
      destruct (allocated_ok type config false) as [Hph Hok']. specialize (Hok' eq_refl).
      eapply (wp_unlock_ret _ j (Communicator _ 0 config PSTATS_INITIALIZER false)); [done|done|].
      split; [by apply (comms_ok_set (Comms n cs cc f))|]. right.
      exists c. eexists. split_and!; try done. unfold phase. by rewrite Eu.
  - intros r t (-> & -> & Hpre). split; [done|]. left. split_and!; try done.
    apply Forall_aget_iff. intros i c Hc. eapply Hpre; [|done]. apply aget_lt in Hc. lia.
Qed.

Lemma free_refused_guards {A} type c (k : K comms A) (g : Z -> K comms A) :
  comm_ok c ->
  match free_refused type (phase c) with Some e => g e | None => k end =
  if negb (resource_is_used (cm_resource c)) then g (err EBADF) else
  if bad_direction c type then g (err EBADF) else
  if resource_is_busy (cm_resource c) then g (err EBUSY) else k.
Proof.
  intros Hok. unfold phase. destruct (resource_is_used (cm_resource c)) eqn:Eu; [simpl|done].
  rewrite bad_direction_dir by done. destruct (resource_is_busy (cm_resource c)); simpl; by destruct (bool_decide (comm_dir c <> dir_of type)).
Qed.

Lemma communicator_free_spec id type s c r n :
  comms_ok s -> aget (communicators s) id = Some c ->
  do_release (cm_fn s) (cfg_fd (cm_config c)) (cs_noc s) = Done r n ->
  wp (communicator_free id type) (fun ret s' => comms_ok s' /\
    match free_refused type (phase c) with
    | Some e => ret = e /\ s' = s
    | None => ret = r /\
        if r =? 0 then exists c', phase c' = Free /\
          s' = Comms n (aset id c' (communicators s))
                 ((if type =? ACTIVE_TYPE_INPUT then inc_nunlinks else inc_ncloses) (counters s)) (cm_fn s)
        else s' = cs_set_noc n s
    end) s.
Proof.
  intros Hok Hc Hrel. pose proof (comms_ok_get _ _ _ Hok Hc) as Hco. pose proof (co_unlocked _ Hco) as Hl.
  unfold communicator_free. wp_step. wp_step. wp_step. wp_step; [by apply WITHIN_true, (aget_lt _ _ _ Hc)|].
  wp_step. eapply wp_lock_comm; [done|done|].
  wp_step. eapply wp_comm_read; [simpl; by eapply aget_aset_same|].
  destruct s as [n0 cs cc f]. simpl in *. unfold cs_set_comms; simpl. pose proof Hok as [Hall Hcc]. simpl in Hcc.
  change (bad_direction (cm_set_lock true c) type) with (bad_direction c type).
  wp_step. rewrite <- (free_refused_guards type c _ mret) by done.
  destruct (free_refused type (phase c)) as [e|].
  { wp_step. eapply wp_unlock_ret; [done|done|]. by rewrite aset_id. }
  wp_step. wp_step. wp_step. eapply wp_noc_result; [done|]. unfold cs_set_noc. simpl. wp_step.
  destruct (r =? 0).
  - wp_step. eapply wp_comm_update; [simpl; by eapply aget_aset_same|]. unfold cs_set_comms. simpl.
    rewrite aset_aset_eq. apply wp_count; [done|by destruct (type =? ACTIVE_TYPE_INPUT)|by destruct (type =? ACTIVE_TYPE_INPUT)|].
    wp_step. unfold cs_set_counters. simpl.
    eapply (wp_unlock_ret r id (cm_set_resource (resource_set_unused (cm_resource c)) c)); [done|done|].
    split; [|split; [done|]].
    + split; [|by destruct (type =? ACTIVE_TYPE_INPUT)]. apply Forall_aset; [done|].
      split; simpl; rflags; done.
    + eexists. split; [|done]. unfold phase. simpl. by rflags.
  - wp_step. wp_step. eapply wp_unlock_ret; [done|done|]. by rewrite aset_id.
Qed.

(** [communicator_alloc] takes the first free communicator, or fails with
    [-EAGAIN] when there is none; freeing it with the same direction releases its port,
    makes it free again and counts the release, and no other communicator is touched. *)
Theorem communicator_alloc_free config type s n :
  comms_ok s -> do_release (cm_fn s) (cfg_fd config) (cs_noc s) = Done 0 n ->
  wp (id ← communicator_alloc config type;
      if id <? 0 then mret (id, 0) else r ← communicator_free id type; mret (id, r))
     (fun res s' => comms_ok s' /\ snd res = 0 /\
        ((fst res = err EAGAIN /\ s' = s /\ Forall (fun c => phase c <> Free) (communicators s)) \/
         (exists c c', aget (communicators s) (fst res) = Some c /\ phase c = Free /\
            (forall j b, j < fst res -> aget (communicators s) j = Some b -> phase b <> Free) /\
            phase c' = Free /\
            s' = Comms n (aset (fst res) c' (communicators s))
                   ((if type =? ACTIVE_TYPE_INPUT then inc_nunlinks else inc_ncloses) (counters s)) (cm_fn s)))) s.
Proof.
  intros Hok Hrel. wp_step. eapply wp_mono; [by apply communicator_alloc_spec|].
  intros id s1 [Hok1 [(-> & -> & Hall)|(c & c1 & Hc & Hph & Hmin & -> & Hph1 & Hcf)]].
  { rewrite (proj2 (Z.ltb_lt _ 0) (err_neg EAGAIN)). wp_step. split; [done|]. split; [done|]. by left. }
  pose proof (aget_lt _ _ _ Hc). rewrite (proj2 (Z.ltb_ge _ 0)) by lia.
  wp_step. eapply wp_mono.
  { apply (communicator_free_spec id type _ c1 0 n); [done|simpl; by eapply aget_aset_same|]. by rewrite Hcf. }
  rewrite Hph1. simpl. rewrite bool_decide_false by (intros ?; done).
  intros r s2 (Hok2 & -> & c' & Hph' & ->). wp_step. split; [done|]. split; [done|]. right.
  exists c, c'. simpl. by rewrite aset_aset_eq.
Qed.

(** ** Phases *)

Lemma not_all_busy (l : list communicator) :
  0 < alen l -> Forall (fun c => phase c = Free) l -> ~ Forall (fun c => phase c <> Free) l.
Proof. destruct l as [|c l]; simpl; [lia|]. intros _ Hf Hn. inversion Hf; inversion Hn. congruence. Qed.

Lemma another_free (l : list communicator) i c :
  1 < alen l -> Forall (fun c => phase c = Free) l -> ~ Forall (fun c => phase c <> Free) (aset i c l).
Proof.
  intros Hlen Hf Hn. destruct (aget_is_Some l (if decide (i = 0) then 1 else 0)) as [x Hx]; [case_decide; lia|].
  assert (Hx' : aget (aset i c l) (if decide (i = 0) then 1 else 0) = Some x).
  { rewrite aget_aset_ne; [done|]. case_decide; lia. }
  apply (Forall_aget _ _ _ _ Hn Hx'). exact (Forall_aget _ _ _ _ Hf Hx).
Qed.

Lemma pending_used c d al fin :
  phase c = Pending d al fin ->
  resource_is_used (cm_resource c) = true /\ resource_is_busy (cm_resource c) = true /\
  communicator_is_finished c = fin.
Proof. unfold phase. intros E. repeat case_match; try done. by injection E. Qed.

(** A communicator with a finished operation on the buffer of [cfg]. *)
Definition comm_done (d : dir) (cfg : active_config) (c : communicator) : Prop :=
  comm_ok c /\ phase c = Pending d false true /\ cm_config c = cfg.

Lemma idle_used c d al :
  phase c = Idle d al ->
  resource_is_used (cm_resource c) = true /\ resource_is_busy (cm_resource c) = false /\
  comm_dir c = d /\ communicator_is_allowed c = al.
Proof. unfold phase. intros E. repeat case_match; try done. by injection E as -> ->. Qed.

Lemma comm_done_operated d cfg st c al :
  comm_ok c -> phase c = Idle d al -> cm_config c = cfg ->
  comm_done d cfg (operated ACTIVE_COMM_RECEIVED st c).
Proof.
  intros Hok Hph Hcf. destruct (idle_used c d al Hph) as (Hu & Hb & _ & _).
  destruct (operated_phase ACTIVE_COMM_RECEIVED st c Hok Hu Hb) as (Hok' & Hph' & Hcf' & _).
  split_and!; [done| |by rewrite Hcf']. rewrite Hph', Hph. simpl. by rewrite andb_false_r.
Qed.

End spec.
