(* ===== verification/Vmailbox.v ===== *)
(** Virtual mailboxes (src/kernel/noc/vmailbox.c).

    The facility joins the communicators to the mailboxes of the hardware. *)

From S2P Require Import Prelude.
From S2P Require Import Hlib.
From S2P Require Import MemLayout.
From S2P Require Import Mbuffer.
From S2P Require Import Requests.
From S2P Require Import Active.
From S2P Require Import ActiveSpec.
From S2P Require Import ActivePorts.
From S2P Require Import ActiveInit.
From S2P Require Import Mailbox.
From S2P Require Import Communicator.
From S2P Require Import CommSpec.

Section vmailbox.
Context `{H : Hlib} `{M : MailboxHw} `{ML : MemLayout} `{AB : Abi} (t : mm_target).

(** ** Definitions *)

Definition KMAILBOX_MAX : Z := if NANVIX_IKC_USES_ONLY_MAILBOX then 256 else 64.

Definition VMAILBOX_GET_LADDRESS_PORT (mbxid : Z) : Z := Z.rem mbxid (MAILBOX_PORT_NR + 1).

(** The assignments to one entry; the flags keep their value. *)
Definition vmailbox_entry_init (c : communicator) : communicator :=
  Communicator RESOURCE_INITIALIZER (cm_flags c) ACTIVE_CONFIG_INITIALIZER PSTATS_INITIALIZER false.

Definition vmailbox_functions : communicator_functions :=
  CommunicatorFunctions do_mailbox_release do_mailbox_aread do_mailbox_wait mailbox_laddress_calc.

Definition do_vmailbox_init : K comms unit :=
  kmodify (fun s =>
    Comms (cs_noc s) (map vmailbox_entry_init (communicators s))
      (CommunicatorCounters false 0 0 0 0 0 0) vmailbox_functions).

(** [junk] is what the stack holds where the fields [buffer] and [size] of the local
    variable [config] are, which the routine does not initialise. *)
Definition do_vmailbox_alloc (junk : Z * Z) (local remote port type : Z) : K comms Z :=
  fd ← with_noc (do_mailbox_alloc local remote port type);
  if fd <? 0 then mret fd else
  let config := ActiveConfig fd
    (ACTIVE_LADDRESS_COMPOSE local (VMAILBOX_GET_LADDRESS_PORT fd) MAILBOX_PORT_NR)
    (if type =? ACTIVE_TYPE_OUTPUT then ACTIVE_LADDRESS_COMPOSE remote port MAILBOX_PORT_NR else -1)
    (fst junk) (snd junk) in
  mbxid ← communicator_alloc config type;
  if mbxid <? 0 then
    r ← with_noc (do_mailbox_release fd);
    if r <? 0 then kpanic else mret mbxid
  else
    lock_counters;;
    with_counters (kmodify (if type =? ACTIVE_TYPE_INPUT then inc_ncreates else inc_nopens));;
    unlock_counters;;
    mret mbxid.

Definition do_vmailbox_create (junk : Z * Z) (local port : Z) : K comms Z :=
  if negb (node_is_local local) then mret (err EINVAL) else
  do_vmailbox_alloc junk local (-1) port ACTIVE_TYPE_INPUT.

Definition do_vmailbox_open (junk : Z * Z) (remote remote_port : Z) : K comms Z :=
  do_vmailbox_alloc junk processor_node_get_num remote remote_port ACTIVE_TYPE_OUTPUT.

Definition do_vmailbox_unlink (mbxid : Z) : K comms Z := communicator_free mbxid ACTIVE_TYPE_INPUT.
Definition do_vmailbox_close (mbxid : Z) : K comms Z := communicator_free mbxid ACTIVE_TYPE_OUTPUT.

(** The unprotected assignments at the start of a read or a write. *)
Definition set_do_comm (f : Z -> active_config -> pstats -> K noc (Z * pstats)) : K comms unit :=
  kmodify (fun s => cs_set_fn
    (CommunicatorFunctions (do_release (cm_fn s)) f (do_wait_comm (cm_fn s)) (laddress_calc (cm_fn s))) s).

Definition vmailbox_prepare_read (mbxid buffer size : Z) : K comms unit :=
  comm_update mbxid (fun c => cm_set_config (cfg_set_buffer buffer size (cm_config c)) c);;
  set_do_comm do_mailbox_aread;;
  lock_comm mbxid;;
  comm_update mbxid communicator_set_allowed;;
  unlock_comm mbxid.

Definition vmailbox_prepare_write (mbxid buffer size : Z) : K comms unit :=
  comm_update mbxid (fun c => cm_set_config (cfg_set_buffer buffer size (cm_config c)) c);;
  set_do_comm do_mailbox_awrite.

Definition do_vmailbox_aread (mbxid buffer size : Z) : K comms Z :=
  vmailbox_prepare_read mbxid buffer size;;
  communicator_operate mbxid ACTIVE_TYPE_INPUT.

Definition do_vmailbox_awrite (mbxid buffer size : Z) : K comms Z :=
  vmailbox_prepare_write mbxid buffer size;;
  communicator_operate mbxid ACTIVE_TYPE_OUTPUT.

Definition do_vmailbox_wait (mbxid : Z) : K comms Z :=
  ret ← communicator_wait mbxid;
  (if ret =? ACTIVE_COMM_SUCCESS then
     c ← comm_read mbxid;
     if resource_is_readable (cm_resource c)
     then comm_update mbxid (fun c => cm_set_config (cfg_set_remote (-1) (cm_config c)) c)
     else mret tt
   else mret tt);;
  mret ret.

Definition do_vmailbox_ioctl (mbxid request arg0 arg1 : Z) : K comms Z :=
  communicator_ioctl t mbxid request arg0 arg1.

Definition do_vmailbox_get_port (mbxid : Z) : K comms Z :=
  if negb (WITHIN mbxid 0 KMAILBOX_MAX) then mret (err EINVAL) else
  lock_comm mbxid;;
  c ← comm_read mbxid;
  let ret := if negb (resource_is_used (cm_resource c)) then err EBADF
             else VMAILBOX_GET_LADDRESS_PORT (cfg_fd (cm_config c)) in
  unlock_comm mbxid;;
  mret ret.

Definition vmailbox_init : K comms unit :=
  with_noc do_mailbox_init;;
  do_vmailbox_init.

End vmailbox.
