(* ===== verification/VmailboxSpec.v ===== *)
(** Correctness of virtual mailboxes: initialisation, delivery of messages between
    mailboxes of the local node, and two interferences between operations. *)

From S2P Require Import Prelude.
From S2P Require Import Hlib.
From S2P Require Import Mbuffer.
From S2P Require Import Requests.
From S2P Require Import Active.
From S2P Require Import ActiveSpec.
From S2P Require Import ActivePorts.
From S2P Require Import ActiveInit.
From S2P Require Import Facility.
From S2P Require Import Mailbox.
From S2P Require Import Communicator.
From S2P Require Import CommSpec.
From S2P Require Import Vmailbox.

Section vmailbox.
Context `{H : Hlib} `{M : MailboxHw}.

(** ** Initialisation *)

(** The state of the facility before any mailbox is created. *)
Record vmailbox_ready (s : comms) : Prop := {
  vr_noc : facility_ready MAILBOX_PORT_NR mbufferpool mbufferpool_aux (cs_noc s);
  vr_comms : comms_ok s;
  vr_free : Forall (fun c => phase c = Free) (communicators s);
  vr_count : alen (communicators s) = KMAILBOX_MAX;
  vr_counters : counters s = CommunicatorCounters false 0 0 0 0 0 0;
  vr_fn : cm_fn s = vmailbox_functions;
}.

Context {HL : HlibLaws H}.

Lemma vmailbox_entry_free c : phase (vmailbox_entry_init c) = Free /\ comm_ok (vmailbox_entry_init c).
Proof.
  unfold phase, vmailbox_entry_init. simpl. rflags. split; [done|].
  split; simpl; rflags; done.
Qed.

(** The initialisation of the mailboxes never panics.  It leaves an input mailbox
    for the local node and an output mailbox to every node, none of whose ports is in
    use or has a pending request, all message buffers free and no virtual mailbox in
    use. *)
Theorem vmailbox_init_correct {TL : NocTopologyLaws _} {MHL : MailboxHwLaws M} s :
  mailbox_statics (cs_noc s) -> alen (communicators s) = KMAILBOX_MAX ->
  wp vmailbox_init (fun _ s' => vmailbox_ready s') s.
Proof.
  intros Hst Hlen. unfold vmailbox_init. wp_step. apply wp_with_noc.
  eapply wp_mono; [by apply do_mailbox_init_spec|]. intros [] n [Hb Hod].
  unfold do_vmailbox_init. wp_step. split; simpl; try done.
  - by eapply mailbox_facility; [..|apply Hst].
  - split; [|done]. apply Forall_map, Forall_true. intros c. apply vmailbox_entry_free.
  - apply Forall_map, Forall_true. intros c. apply vmailbox_entry_free.
  - by rewrite length_map.
Qed.

(** ** Creating a mailbox *)

(** A virtual mailbox is allocated when a port and a communicator are available. *)
Lemma vmailbox_alloc_spec junk local remote port type s fd n :
  comms_ok s -> do_mailbox_alloc local remote port type (cs_noc s) = Done fd n -> 0 ≤ fd ->
  ~ Forall (fun c => phase c <> Free) (communicators s) ->
  wp (do_vmailbox_alloc junk local remote port type) (fun r s' => comms_ok s' /\
    exists c c', aget (communicators s) r = Some c /\ phase c = Free /\
      s' = Comms n (aset r c' (communicators s))
             ((if type =? ACTIVE_TYPE_INPUT then inc_ncreates else inc_nopens) (counters s)) (cm_fn s) /\
      phase c' = Idle (dir_of type) false /\
      cm_config c' = ActiveConfig fd
        (ACTIVE_LADDRESS_COMPOSE local (VMAILBOX_GET_LADDRESS_PORT fd) MAILBOX_PORT_NR)
        (if type =? ACTIVE_TYPE_OUTPUT then ACTIVE_LADDRESS_COMPOSE remote port MAILBOX_PORT_NR else -1)
        (fst junk) (snd junk)) s.
Proof.
  intros Hok Hal Hfd Hfree. unfold do_vmailbox_alloc. wp_step. eapply wp_noc_result; [done|].
  rewrite (proj2 (Z.ltb_ge fd 0)) by done. wp_step.
  assert (Hok1 : comms_ok (cs_set_noc n s)) by apply Hok.
  eapply wp_mono; [by apply communicator_alloc_spec|].
  intros r s1 [Hok2 [(_ & _ & Hall)|(c & c' & Hc & Hph & _ & -> & Hph' & Hcf)]]; [done|].
  pose proof (aget_lt _ _ _ Hc). rewrite (proj2 (Z.ltb_ge r 0)) by lia.
  destruct Hok2 as [Hok2 Hcl]. destruct s as [n0 cs cc f]. unfold cs_set_noc, cs_set_comms in *. simpl in *.
  apply wp_count_bind; simpl; [done|by destruct (type =? ACTIVE_TYPE_INPUT)..|]. wp_step.
  split; [split; [done|by destruct (type =? ACTIVE_TYPE_INPUT)]|]. exists c, c'. done.
Qed.

(** ** Delivery on the local node *)

Context {TL : NocTopologyLaws _}.

Lemma vmailbox_get_port_compose i p :
  0 ≤ i -> 0 ≤ p ≤ MAILBOX_PORT_NR ->
  VMAILBOX_GET_LADDRESS_PORT (ACTIVE_LADDRESS_COMPOSE i p MAILBOX_PORT_NR) = p.
Proof. intros Hi Hp. unfold VMAILBOX_GET_LADDRESS_PORT. by apply laddress_split. Qed.

(** ** Operations that complete at once *)

Lemma vmailbox_awrite_spec id buffer size s c st n al :
  comms_ok s -> aget (communicators s) id = Some c -> phase c = Idle Output al ->
  let cfg := cfg_set_buffer buffer size (cm_config c) in
  do_mailbox_awrite (cfg_fd cfg) cfg (cm_stats c) (cs_noc s) = Done (ACTIVE_COMM_RECEIVED, st) n ->
  wp (do_vmailbox_awrite id buffer size) (fun r s' => r = size /\ comms_ok s' /\ cs_noc s' = n /\
    exists c', communicators s' = aset id c' (communicators s) /\ comm_done Output cfg c') s.
Proof.
  intros Hok Hc Hph cfg Hw. pose proof (comms_ok_get _ _ _ Hok Hc) as Hco.
  unfold do_vmailbox_awrite, vmailbox_prepare_write, set_do_comm.
  wp_step. wp_step. eapply wp_comm_update; [done|]. fold cfg. wp_step.
  set (c1 := cm_set_config cfg c). set (s1 := cs_set_fn _ _).
  assert (Hok1 : comm_ok c1) by (by destruct Hco).
  assert (Hoks : comms_ok s1) by (by apply (comms_ok_set s)).
  eapply wp_mono.
  { eapply (communicator_operate_spec id ACTIVE_TYPE_OUTPUT s1 c1); [done|simpl; by eapply aget_aset_same|exact Hw]. }
  change (phase c1) with (phase c). rewrite Hph. simpl. intros r s' [-> ->].
  rewrite aset_aset_eq. pose proof (comm_done_operated Output cfg st c1 al Hok1 Hph eq_refl) as Hdone.
  split; [done|]. split; [|split; [done|by eexists]].
  split; [apply Forall_aset; [apply Hok|apply Hdone]|apply Hok].
Qed.

(** The communicator after the assignments at the start of a read. *)
Definition prepared_read (buffer size : Z) (c : communicator) : communicator :=
  communicator_set_allowed (cm_set_config (cfg_set_buffer buffer size (cm_config c)) c).

Lemma prepare_read_spec id buffer size s c (Q : unit -> comms -> Prop) :
  comms_ok s -> aget (communicators s) id = Some c ->
  (let s' := Comms (cs_noc s) (aset id (prepared_read buffer size c) (communicators s)) (counters s)
     (CommunicatorFunctions (do_release (cm_fn s)) do_mailbox_aread (do_wait_comm (cm_fn s)) (laddress_calc (cm_fn s))) in
   comm_ok (prepared_read buffer size c) -> comms_ok s' -> Q tt s') ->
  wp (vmailbox_prepare_read id buffer size) Q s.
Proof.
  intros Hok Hc HQ. pose proof (comms_ok_get _ _ _ Hok Hc) as Hco. unfold vmailbox_prepare_read, set_do_comm.
  wp_step. eapply wp_comm_update; [done|]. wp_step. wp_step. wp_step.
  eapply wp_lock_comm; [simpl; by eapply aget_aset_same|apply Hco|].
  wp_step. eapply wp_comm_update; [simpl; by eapply aget_aset_same, aget_aset_same|].
  eapply wp_unlock_comm; [simpl; by eapply aget_aset_same, aget_aset_same, aget_aset_same|].
  unfold cs_set_fn, cs_set_comms. simpl. rewrite !aset_aset_eq.
  replace (cm_set_lock false _) with (prepared_read buffer size c)
    by (unfold prepared_read; destruct c, Hco; simpl in *; by subst).
  assert (Hok1 : comm_ok (prepared_read buffer size c)).
  { destruct Hco as [Hl1 Hd1 Hf1]. split; [done|done|]. unfold prepared_read. intros Hu Hb.
    rewrite finished_set_allowed. by apply Hf1. }
  apply HQ; [done|]. by apply (comms_ok_set s).
Qed.

Lemma vmailbox_aread_spec id buffer size s c st n al :
  comms_ok s -> aget (communicators s) id = Some c -> phase c = Idle Input al ->
  let cfg := cfg_set_buffer buffer size (cm_config c) in
  do_mailbox_aread (cfg_fd cfg) cfg (cm_stats c) (cs_noc s) = Done (ACTIVE_COMM_RECEIVED, st) n ->
  wp (do_vmailbox_aread id buffer size) (fun r s' => r = size /\ comms_ok s' /\ cs_noc s' = n /\
    exists c', communicators s' = aset id c' (communicators s) /\ comm_done Input cfg c') s.
Proof.
  intros Hok Hc Hph cfg Hr. unfold do_vmailbox_aread. wp_step. apply (prepare_read_spec id buffer size s c); [done|done|].
  set (c1 := prepared_read buffer size c). intros s1 Hok1 Hoks.
  destruct (idle_used c Input al Hph) as (Hu & Hb & Hd & _).
  assert (Hph1 : phase c1 = Idle Input true).
  { unfold phase, c1, prepared_read. simpl. rewrite Hu, Hb, allowed_set_allowed. f_equal. exact Hd. }
  eapply wp_mono.
  { eapply (communicator_operate_spec id ACTIVE_TYPE_INPUT s1 c1); [done|simpl; by eapply aget_aset_same|exact Hr]. }
  rewrite Hph1. simpl. intros r s' [-> ->].
  rewrite aset_aset_eq. pose proof (comm_done_operated Input cfg st c1 true Hok1 Hph1 eq_refl) as Hdone.
  split; [done|]. split; [|split; [done|by eexists]].
  split; [apply Forall_aset; [apply Hok|apply Hdone]|apply Hok].
Qed.

Lemma vmailbox_wait_spec id s c d cfg :
  comms_ok s -> aget (communicators s) id = Some c -> comm_done d cfg c ->
  wp (do_vmailbox_wait id) (fun r s' => r = 0 /\ comms_ok s' /\ cs_noc s' = cs_noc s /\
    exists c', communicators s' = aset id c' (communicators s) /\ phase c' = Idle d false) s.
Proof.
  intros Hok Hc (Hco & Hph & Hcf). destruct (pending_used c d false true Hph) as (Hu & Hb & Hf).
  unfold do_vmailbox_wait. wp_step. eapply wp_mono; [by apply (communicator_wait_finished id s c)|].
  intros r s1 [-> ->]. destruct (finished_ok c Hco Hu) as [Hok' Hph'].
  set (c1 := wait_finished (communicator_set_notfinished c)) in *.
  assert (Hph1 : phase c1 = Idle d false).
  { rewrite Hph'. unfold phase in Hph. rewrite Hu, Hb in Hph. by injection Hph as -> -> _. }
  wp_step. simpl. wp_step. eapply wp_comm_read; [simpl; by eapply aget_aset_same|].
  destruct (resource_is_readable (cm_resource c1)).
  - eapply wp_comm_update; [simpl; by eapply aget_aset_same|]. wp_step.
    unfold cs_set_comms. simpl. rewrite aset_aset_eq. split; [done|]. split; [|split; [done|by eexists]].
    apply (comms_ok_set s); [done|]. by destruct Hok'.
  - wp_step. wp_step. split; [done|]. split; [by apply (comms_ok_set s)|]. split; [done|by eexists].
Qed.

(** ** The two ends of a connection on the local node *)

Lemma vmailbox_connect_spec junk junk' port s :
  vmailbox_ready s -> 0 ≤ port < MAILBOX_PORT_NR ->
  let local := processor_node_get_num in
  wp (i ← do_vmailbox_create junk local port; o ← do_vmailbox_open junk' local port; mret (i, o))
     (fun io s' => comms_ok s' /\ fst io <> snd io /\
        exists ai x ao q y ci co, pair_ports MAILBOX_PORT_NR mbufferpool mbufferpool_aux (cs_noc s) ai port x ao q y /\
          cs_noc s' = pair_noc (cs_noc s) ai port x ao q y /\
          aget (communicators s') (fst io) = Some ci /\ aget (communicators s') (snd io) = Some co /\
          phase ci = Idle Input false /\ phase co = Idle Output false /\
          cm_config ci = ActiveConfig (mailbox_laddress_calc 0 port) (mailbox_laddress_calc local port) (-1)
                           (fst junk) (snd junk) /\
          cm_config co = ActiveConfig (mailbox_laddress_calc (1 + local) q) (mailbox_laddress_calc local q)
                           (mailbox_laddress_calc local port) (fst junk') (snd junk')) s.
Proof.
  intros Hrd Hport local. pose proof node_num_range as Hl. fold local in Hl. pose proof mailbox_port_nr_min.
  destruct (facility_ports _ _ _ (cs_noc s) port (vr_noc _ Hrd) Hport) as (ai & x & ao & q & y & Hpp & E1 & E2).
  fold local in E1, E2. destruct (pair_range _ _ _ _ _ _ _ _ _ _ Hpp) as [_ Hq].
  assert (Hmax : 1 < alen (communicators s)) by (rewrite (vr_count _ Hrd); unfold KMAILBOX_MAX; by case_match).
  assert (Hnl : node_is_local local = true) by apply node_num_local.
  unfold do_vmailbox_create. rewrite Hnl. simpl. wp_step. eapply wp_mono.
  { apply (vmailbox_alloc_spec junk local (-1) port ACTIVE_TYPE_INPUT s _ _ (vr_comms _ Hrd) E1).
    - by apply mailbox_laddress; lia.
    - apply not_all_busy; [lia|apply Hrd]. }
  intros i s1 (Hok1 & c & ci & Hc & _ & -> & Hphi & Hcfi). simpl in Hok1. wp_step. eapply wp_mono.
  { apply (vmailbox_alloc_spec junk' local local port ACTIVE_TYPE_OUTPUT _ _ _ Hok1 E2).
    - by apply mailbox_laddress; lia.
    - apply another_free; [done|apply Hrd]. }
  intros o s2 (Hok2 & c2 & co & Hc2 & Hph2 & -> & Hpho & Hcfo). wp_step. simpl in *.
  assert (Hio : i <> o).
  { intros <-. rewrite (aget_aset_same _ _ _ _ Hc) in Hc2. injection Hc2 as <-. rewrite Hph2 in Hphi. done. }
  split; [done|]. split; [done|]. exists ai, x, ao, q, y, ci, co. split_and!; try done.
  - rewrite aget_aset_ne by done. by eapply aget_aset_same.
  - by eapply aget_aset_same.
  - rewrite Hcfi. unfold mailbox_laddress_calc. by rewrite vmailbox_get_port_compose by lia.
  - rewrite Hcfo. unfold mailbox_laddress_calc. by rewrite vmailbox_get_port_compose by lia.
Qed.

(** (C9) A message sent through a mailbox to the local node is delivered.  After the
    initialisation, creating a mailbox on a port and opening it from the same node
    succeed; a write and a read then complete at once with the size of the message,
    the waits return without blocking, the buffer of the reader holds the bytes of the
    writer, and no message stays behind. *)
Theorem vmailbox_delivery junk junk' port src dst size s :
  vmailbox_ready s -> 0 ≤ port < MAILBOX_PORT_NR -> 0 ≤ size ->
  Forall (fun b => size ≤ alen (msg_data (mb_message b))) (mbuf (bufs (cs_noc s))) ->
  wp (i ← do_vmailbox_create junk processor_node_get_num port;
      o ← do_vmailbox_open junk' processor_node_get_num port;
      w ← do_vmailbox_awrite o src size;
      r ← do_vmailbox_aread i dst size;
      ri ← do_vmailbox_wait i;
      ro ← do_vmailbox_wait o;
      mret (w, r, ri, ro))
     (fun res s' =>
        res = (size, size, 0, 0) /\
        mem_read (umem (cs_noc s')) dst (Z.to_nat size) = mem_read (umem (cs_noc s)) src (Z.to_nat size) /\
        queue (bufs (cs_noc s')) []) s.
Proof.
  intros Hrd Hport Hsz Hlen. apply wp_bind_pair.
  eapply wp_mono; [by apply vmailbox_connect_spec|]. intros [i o] s1; simpl.
  intros (Hok1 & Hio & ai & x & ao & q & y & ci & co & Hpp & Hn & Hci & Hco & Hphi & Hpho & Hcfi & Hcfo).
  pose proof (facility_pair mailbox_functions _ _ _ mailbox_addresses_ok (cs_noc s) ai port x ao q y src dst size (-1)
    (vr_noc _ Hrd) Hpp Hsz Hlen ltac:(done)) as Hlp.
  rewrite <- Hn in Hlp.
  pose proof (local_write mailbox_functions ltac:(done) ltac:(done) ltac:(done) _ _ _ _ (cm_stats co) _ _ _ _ _ _ _ _ Hlp) as Hw.
  apply wp_returns in Hw as ([rw st1] & n1 & E1 & Hrw & k & b0 & b & a' & Hse). simpl in Hrw. subst rw.
  wp_step. eapply wp_mono.
  { eapply (vmailbox_awrite_spec o src size s1 co); [done|done|done|]. rewrite Hcfo. exact E1. }
  intros w s2 (-> & Hok2 & Hn2 & co2 & Hcs2 & Hdo).
  pose proof (local_read mailbox_functions ltac:(done) ltac:(done) ltac:(done) _ _ _ _ (cm_stats ci) _ _ _ _ _ _ _ _ _ _ _ _ _ Hlp Hse) as Hr.
  apply wp_returns in Hr as ([rr st2] & n2 & E2 & Hrr & Hmem & Hqu & _). simpl in Hrr. subst rr.
  assert (Hci2 : aget (communicators s2) i = Some ci) by (by rewrite Hcs2, aget_aset_ne).
  wp_step. eapply wp_mono.
  { eapply (vmailbox_aread_spec i dst size s2 ci); [done|done|done|]. rewrite Hcfi, Hn2. exact E2. }
  intros r s3 (-> & Hok3 & Hn3 & ci3 & Hcs3 & Hdi).
  wp_step. eapply wp_mono.
  { eapply (vmailbox_wait_spec i s3 ci3 Input _ Hok3); [|exact Hdi]. rewrite Hcs3. by eapply aget_aset_same. }
  intros ri s4 (-> & Hok4 & Hn4 & ci4 & Hcs4 & _).
  wp_step. eapply wp_mono.
  { eapply (vmailbox_wait_spec o s4 co2 Output _ Hok4); [|exact Hdo].
    rewrite Hcs4, aget_aset_ne, Hcs3, aget_aset_ne, Hcs2 by done. by eapply aget_aset_same. }
  intros ro s5 (-> & _ & Hn5 & _). wp_step. split; [done|].
  rewrite Hn5, Hn4, Hn3. split; [|done]. rewrite Hn in Hmem. exact Hmem.
Qed.

(** ** Interference *)

(** A second read of a mailbox whose read is still pending fails with [-EBUSY],
    but replaces the buffer and the size of the pending read: the wait that completes
    the first read will use those of the second. *)
Theorem vmailbox_aread_redirects id buffer size s c al fin :
  comms_ok s -> aget (communicators s) id = Some c -> phase c = Pending Input al fin ->
  wp (do_vmailbox_aread id buffer size) (fun r s' => r = err EBUSY /\ cs_noc s' = cs_noc s /\
    exists c', communicators s' = aset id c' (communicators s) /\ phase c' = Pending Input true fin /\
      cfg_buffer (cm_config c') = buffer /\ cfg_size (cm_config c') = size) s.
Proof.
  intros Hok Hc Hph. unfold do_vmailbox_aread. wp_step. apply (prepare_read_spec id buffer size s c); [done|done|].
  intros s1 Hok1 Hoks. destruct (pending_used c _ _ _ Hph) as (Hu & Hb & Hf).
  assert (Hph1 : phase (prepared_read buffer size c) = Pending Input true fin).
  { unfold phase in Hph |- *. unfold prepared_read. simpl. rewrite Hu, Hb in *.
    rewrite allowed_set_allowed, finished_set_allowed. injection Hph as Hd _ Hfin. by f_equal. }
  eapply wp_mono.
  { eapply (communicator_operate_refused id ACTIVE_TYPE_INPUT s1 (prepared_read buffer size c) (err EBUSY));
      [done|simpl; by eapply aget_aset_same|by rewrite Hph1]. }
  intros r s' [-> ->]. split; [done|]. split; [done|]. by exists (prepared_read buffer size c).
Qed.

(** The function through which a read reaches the mailbox is shared by all
    virtual mailboxes and is not protected: when a write to another mailbox starts
    between the two steps of a read, the read performs a write on its own port. *)
Theorem vmailbox_read_write_race i o bi ni bo no s ci co al r st n :
  comms_ok s -> i <> o -> aget (communicators s) i = Some ci -> aget (communicators s) o = Some co ->
  phase ci = Idle Input al ->
  let cfg := cfg_set_buffer bi ni (cm_config ci) in
  do_mailbox_awrite (cfg_fd cfg) cfg (cm_stats ci) (cs_noc s) = Done (r, st) n ->
  wp (vmailbox_prepare_read i bi ni;;
      vmailbox_prepare_write o bo no;;
      communicator_operate i ACTIVE_TYPE_INPUT)
     (fun ret s' => ret = (if r <? 0 then r else ni) /\ cs_noc s' = n) s.
Proof.
  intros Hok Hio Hci Hco Hph cfg Hw. wp_step. apply (prepare_read_spec i bi ni s ci); [done|done|].
  set (c1 := prepared_read bi ni ci). intros s1 Hok1 Hoks.
  destruct (idle_used ci Input al Hph) as (Hu & Hb & Hd & _).
  assert (Hph1 : phase c1 = Idle Input true).
  { unfold phase, c1, prepared_read. simpl. rewrite Hu, Hb, allowed_set_allowed. f_equal. exact Hd. }
  assert (Hco1 : aget (communicators s1) o = Some co) by (simpl; by rewrite aget_aset_ne).
  unfold vmailbox_prepare_write, set_do_comm. wp_step. wp_step. eapply wp_comm_update; [done|]. wp_step.
  set (s2 := cs_set_fn _ _).
  assert (Hoks2 : comms_ok s2).
  { apply (comms_ok_set s1); [done|]. pose proof (comms_ok_get _ _ _ Hok Hco) as Hcoo. by destruct Hcoo. }
  eapply wp_mono.
  { eapply (communicator_operate_spec i ACTIVE_TYPE_INPUT s2 c1); [done| |exact Hw].
    simpl. rewrite aget_aset_ne by done. by eapply aget_aset_same. }
  rewrite Hph1. simpl. intros ret s'. by destruct (r <? 0); intros [-> ->].
Qed.

End vmailbox.
