(* ===== verification/Vportal.v ===== *)
(** Virtual portals (src/kernel/noc/vportal.c).

    A virtual portal is read only after [do_vportal_allow], for one message. *)

From S2P Require Import Prelude.
From S2P Require Import Hlib.
From S2P Require Import MemLayout.
From S2P Require Import Mbuffer.
From S2P Require Import Requests.
From S2P Require Import Active.
From S2P Require Import ActiveInit.
From S2P Require Import Portal.
From S2P Require Import Communicator.

Section vportal.
Context `{H : Hlib} `{P : PortalHw} `{ML : MemLayout} `{AB : Abi} (t : mm_target).

Definition KPORTAL_MAX : Z := 64.

Definition VPORTAL_GET_LADDRESS_PORT (portalid : Z) : Z := Z.rem portalid (KPORTAL_PORT_NR + 1).

(** The assignments to one entry; the flags keep their value. *)
Definition vportal_entry_init (c : communicator) : communicator :=
  Communicator RESOURCE_INITIALIZER (cm_flags c) ACTIVE_CONFIG_INITIALIZER PSTATS_INITIALIZER false.

Definition vportal_functions : communicator_functions :=
  CommunicatorFunctions do_portal_release do_portal_aread do_portal_wait portal_laddress_calc.

Definition do_vportal_init : K comms unit :=
  kmodify (fun s =>
    Comms (cs_noc s) (map vportal_entry_init (communicators s))
      (CommunicatorCounters false 0 0 0 0 0 0) vportal_functions).

(** [junk] is what the stack holds where the fields [buffer] and [size] of the local
    variable [config] are, which the routine does not initialise. *)
Definition do_vportal_alloc (junk : Z * Z) (local remote port type : Z) : K comms Z :=
  fd ← with_noc (do_portal_alloc local remote port type);
  if fd <? 0 then mret fd else
  let config := ActiveConfig fd
    (ACTIVE_LADDRESS_COMPOSE local (VPORTAL_GET_LADDRESS_PORT fd) KPORTAL_PORT_NR)
    (if type =? ACTIVE_TYPE_OUTPUT then ACTIVE_LADDRESS_COMPOSE remote port KPORTAL_PORT_NR else -1)
    (fst junk) (snd junk) in
  portalid ← communicator_alloc config type;
  if portalid <? 0 then
    r ← with_noc (do_portal_release fd);
    if r <? 0 then kpanic else mret portalid
  else
    lock_counters;;
    with_counters (kmodify (if type =? ACTIVE_TYPE_INPUT then inc_ncreates else inc_nopens));;
    unlock_counters;;
    mret portalid.

Definition do_vportal_create (junk : Z * Z) (local port : Z) : K comms Z :=
  if negb (node_is_local local) then mret (err EBADF) else
  do_vportal_alloc junk local (-1) port ACTIVE_TYPE_INPUT.

Definition do_vportal_open (junk : Z * Z) (local remote remote_port : Z) : K comms Z :=
  if negb (node_is_local local) then mret (err EBADF) else
  do_vportal_alloc junk local remote remote_port ACTIVE_TYPE_OUTPUT.

Definition do_vportal_unlink (portalid : Z) : K comms Z := communicator_free portalid ACTIVE_TYPE_INPUT.
Definition do_vportal_close (portalid : Z) : K comms Z := communicator_free portalid ACTIVE_TYPE_OUTPUT.

Definition do_vportal_allow (portalid remote remote_port : Z) : K comms Z :=
  lock_comm portalid;;
  c ← comm_read portalid;
  ret ← (
    if negb (resource_is_used (cm_resource c)) then mret (err EBADF) else
    if negb (resource_is_readable (cm_resource c)) then mret (err EBADF) else
    if communicator_is_allowed c then mret (err EBUSY) else
    comm_update portalid communicator_set_allowed;;
    comm_update portalid (fun c =>
      cm_set_config (cfg_set_remote (ACTIVE_LADDRESS_COMPOSE remote remote_port KPORTAL_PORT_NR) (cm_config c)) c);;
    mret 0);
  unlock_comm portalid;;
  mret ret.

(** The unprotected assignments at the start of a read or a write. *)
Definition vportal_prepare (portalid buffer size : Z)
  (f : Z -> active_config -> pstats -> K noc (Z * pstats)) : K comms unit :=
  comm_update portalid (fun c => cm_set_config (cfg_set_buffer buffer size (cm_config c)) c);;
  kmodify (fun s => cs_set_fn
    (CommunicatorFunctions (do_release (cm_fn s)) f (do_wait_comm (cm_fn s)) (laddress_calc (cm_fn s))) s).

Definition do_vportal_aread (portalid buffer size : Z) : K comms Z :=
  vportal_prepare portalid buffer size do_portal_aread;;
  communicator_operate portalid ACTIVE_TYPE_INPUT.

Definition do_vportal_awrite (portalid buffer size : Z) : K comms Z :=
  vportal_prepare portalid buffer size do_portal_awrite;;
  communicator_operate portalid ACTIVE_TYPE_OUTPUT.

Definition do_vportal_wait (portalid : Z) : K comms Z := communicator_wait portalid.

Definition do_vportal_ioctl (portalid request arg0 arg1 : Z) : K comms Z :=
  communicator_ioctl t portalid request arg0 arg1.

Definition do_vportal_get_port (portalid : Z) : K comms Z :=
  if negb (WITHIN portalid 0 KPORTAL_MAX) then mret (err EINVAL) else
  lock_comm portalid;;
  c ← comm_read portalid;
  let ret := if negb (resource_is_used (cm_resource c)) then err EBADF
             else VPORTAL_GET_LADDRESS_PORT (cfg_fd (cm_config c)) in
  unlock_comm portalid;;
  mret ret.

Definition vportal_init : K comms unit :=
  with_noc do_portal_init;;
  do_vportal_init.

End vportal.
