(* ===== verification/VportalSpec.v ===== *)
(** Correctness of virtual portals: initialisation, and delivery of a message between
    portals of the local node under the control of [do_vportal_allow]. *)

From S2P Require Import Prelude.
From S2P Require Import Hlib.
From S2P Require Import Mbuffer.
From S2P Require Import Requests.
From S2P Require Import Active.
From S2P Require Import ActiveSpec.
From S2P Require Import ActivePorts.
From S2P Require Import ActiveInit.
From S2P Require Import Facility.
From S2P Require Import Portal.
From S2P Require Import Communicator.
From S2P Require Import CommSpec.
From S2P Require Import Vportal.

Section vportal.
Context `{H : Hlib} `{P : PortalHw}.

(** ** Initialisation *)

Record vportal_ready (s : comms) : Prop := {
  vp_noc : facility_ready KPORTAL_PORT_NR pbufferpool pbufferpool_aux (cs_noc s);
  vp_comms : comms_ok s;
  vp_free : Forall (fun c => phase c = Free) (communicators s);
  vp_count : alen (communicators s) = KPORTAL_MAX;
  vp_counters : counters s = CommunicatorCounters false 0 0 0 0 0 0;
  vp_fn : cm_fn s = vportal_functions;
}.

Context {HL : HlibLaws H}.

Lemma vportal_entry_free c : phase (vportal_entry_init c) = Free /\ comm_ok (vportal_entry_init c).
Proof.
  unfold phase, vportal_entry_init. simpl. rflags. split; [done|].
  split; simpl; rflags; done.
Qed.

(** The initialisation of the portals never panics and leaves an input portal for
    the local node and an output portal to every node, with all ports, message buffers
    and virtual portals free. *)
Theorem vportal_init_correct {TL : NocTopologyLaws _} {PL : PortalHwLaws P} s :
  portal_statics (cs_noc s) -> alen (communicators s) = KPORTAL_MAX ->
  wp vportal_init (fun _ s' => vportal_ready s') s.
Proof.
  intros Hst Hlen. unfold vportal_init. wp_step. apply wp_with_noc.
  eapply wp_mono; [by apply do_portal_init_spec|]. intros [] n [Hb Hod].
  unfold do_vportal_init. wp_step. split; simpl; try done.
  - by eapply portal_facility; [..|apply Hst].
  - split; [|done]. apply Forall_map, Forall_true. intros c. apply vportal_entry_free.
  - apply Forall_map, Forall_true. intros c. apply vportal_entry_free.
  - by rewrite length_map.
Qed.

(** ** Creating a portal *)

Lemma vportal_alloc_spec junk local remote port type s fd n :
  comms_ok s -> do_portal_alloc local remote port type (cs_noc s) = Done fd n -> 0 ≤ fd ->
  ~ Forall (fun c => phase c <> Free) (communicators s) ->
  wp (do_vportal_alloc junk local remote port type) (fun r s' => comms_ok s' /\
    exists c c', aget (communicators s) r = Some c /\ phase c = Free /\
      s' = Comms n (aset r c' (communicators s))
             ((if type =? ACTIVE_TYPE_INPUT then inc_ncreates else inc_nopens) (counters s)) (cm_fn s) /\
      phase c' = Idle (dir_of type) false /\
      cm_config c' = ActiveConfig fd
        (ACTIVE_LADDRESS_COMPOSE local (VPORTAL_GET_LADDRESS_PORT fd) KPORTAL_PORT_NR)
        (if type =? ACTIVE_TYPE_OUTPUT then ACTIVE_LADDRESS_COMPOSE remote port KPORTAL_PORT_NR else -1)
        (fst junk) (snd junk)) s.
Proof.
  intros Hok Hal Hfd Hfree. unfold do_vportal_alloc. wp_step. eapply wp_noc_result; [done|].
  rewrite (proj2 (Z.ltb_ge fd 0)) by done. wp_step.
  assert (Hok1 : comms_ok (cs_set_noc n s)) by apply Hok.
  eapply wp_mono; [by apply communicator_alloc_spec|].
  intros r s1 [Hok2 [(_ & _ & Hall)|(c & c' & Hc & Hph & _ & -> & Hph' & Hcf)]]; [done|].
  pose proof (aget_lt _ _ _ Hc). rewrite (proj2 (Z.ltb_ge r 0)) by lia.
  destruct Hok2 as [Hok2 Hcl]. destruct s as [n0 cs cc f]. unfold cs_set_noc, cs_set_comms in *. simpl in *.
  apply wp_count_bind; simpl; [done|by destruct (type =? ACTIVE_TYPE_INPUT)..|]. wp_step.
  split; [split; [done|by destruct (type =? ACTIVE_TYPE_INPUT)]|]. exists c, c'. done.
Qed.

Lemma vportal_get_port_compose i p :
  0 ≤ i -> 0 ≤ p ≤ KPORTAL_PORT_NR ->
  VPORTAL_GET_LADDRESS_PORT (ACTIVE_LADDRESS_COMPOSE i p KPORTAL_PORT_NR) = p.
Proof. intros Hi Hp. unfold VPORTAL_GET_LADDRESS_PORT. by apply laddress_split. Qed.

(** ** Operations *)

Lemma vportal_get_port_spec id s c d al :
  comms_ok s -> aget (communicators s) id = Some c -> alen (communicators s) = KPORTAL_MAX -> phase c = Idle d al ->
  wp (do_vportal_get_port id) (fun r s' => r = VPORTAL_GET_LADDRESS_PORT (cfg_fd (cm_config c)) /\ s' = s) s.
Proof.
  intros Hok Hc Hlen Hph. pose proof (comms_ok_get _ _ _ Hok Hc) as Hco. destruct (idle_used c d al Hph) as (Hu & _).
  unfold do_vportal_get_port. rewrite <- Hlen, (proj2 (WITHIN_true _ _ _) (aget_lt _ _ _ Hc)). simpl.
  wp_step. eapply wp_lock_comm; [done|apply Hco|].
  wp_step. eapply wp_comm_read; [simpl; by eapply aget_aset_same|]. simpl. rewrite Hu. simpl.
  destruct s as [n0 cs cc f]. eapply wp_unlock_ret; [done|apply Hco|]. simpl in *. by rewrite aset_id.
Qed.

(** [do_vportal_allow] on an idle portal. *)
Definition vportal_allowed (remote : Z) (c : communicator) : communicator :=
  cm_set_config (cfg_set_remote remote (cm_config c)) (communicator_set_allowed c).

Lemma vportal_allow_spec id remote port s c :
  comms_ok s -> aget (communicators s) id = Some c -> phase c = Idle Input false ->
  let c' := vportal_allowed (ACTIVE_LADDRESS_COMPOSE remote port KPORTAL_PORT_NR) c in
  wp (do_vportal_allow id remote port) (fun r s' => r = 0 /\ comms_ok s' /\
    s' = cs_set_comms (aset id c' (communicators s)) s /\ phase c' = Idle Input true) s.
Proof.
  intros Hok Hc Hph c'. pose proof (comms_ok_get _ _ _ Hok Hc) as Hco.
  destruct (idle_used c _ _ Hph) as (Hu & Hb & Hd & Hal).
  assert (Hr : resource_is_readable (cm_resource c) = true) by (unfold comm_dir in Hd; by case_match).
  unfold do_vportal_allow. wp_step. eapply wp_lock_comm; [done|apply Hco|].
  wp_step. eapply wp_comm_read; [simpl; by eapply aget_aset_same|]. simpl.
  change (communicator_is_allowed (cm_set_lock true c)) with (communicator_is_allowed c).
  rewrite Hu, Hr, Hal. simpl. wp_step. wp_step. eapply wp_comm_update; [simpl; by eapply aget_aset_same|].
  wp_step. eapply wp_comm_update; [simpl; by eapply aget_aset_same, aget_aset_same|]. wp_step.
  destruct s as [n0 cs cc f]. unfold cs_set_comms. simpl. rewrite !aset_aset_eq.
  eapply (wp_unlock_ret 0 id c'); [done|apply Hco|]. split; [done|].
  assert (Hph' : phase c' = Idle Input true).
  { unfold phase, c', vportal_allowed. simpl. rewrite Hu, Hb. f_equal; [exact Hd|]. apply allowed_set_allowed. }
  split; [|done]. apply (comms_ok_set (Comms n0 cs cc f)); [done|].
  destruct Hco as [Hl1 Hd1 Hf1]. split; [done|done|]. intros Hu' Hb'.
  change (communicator_is_finished (communicator_set_allowed c) = false). rewrite finished_set_allowed. by apply Hf1.
Qed.

(** A read or a write that completes at once. *)
Lemma vportal_transfer_spec f type id buffer size s c st n al :
  comms_ok s -> aget (communicators s) id = Some c -> phase c = Idle (dir_of type) al ->
  (dir_of type = Input -> al = true) ->
  let cfg := cfg_set_buffer buffer size (cm_config c) in
  f (cfg_fd cfg) cfg (cm_stats c) (cs_noc s) = Done (ACTIVE_COMM_RECEIVED, st) n ->
  wp (vportal_prepare id buffer size f;; communicator_operate id type) (fun r s' =>
    r = size /\ comms_ok s' /\ cs_noc s' = n /\
    exists c', communicators s' = aset id c' (communicators s) /\ comm_done (dir_of type) cfg c') s.
Proof.
  intros Hok Hc Hph Hal cfg Hf. pose proof (comms_ok_get _ _ _ Hok Hc) as Hco.
  unfold vportal_prepare. wp_step. wp_step. eapply wp_comm_update; [done|]. fold cfg. wp_step.
  set (c1 := cm_set_config cfg c). set (s1 := cs_set_fn _ _).
  assert (Hok1 : comm_ok c1) by (by destruct Hco).
  assert (Hoks : comms_ok s1) by (by apply (comms_ok_set s)).
  eapply wp_mono.
  { eapply (communicator_operate_spec id type s1 c1); [done|simpl; by eapply aget_aset_same|exact Hf]. }
  change (phase c1) with (phase c). rewrite Hph. simpl. rewrite bool_decide_false by (intros Hne; done).
  replace (bool_decide (dir_of type = Input) && negb al) with false
    by (case_bool_decide as E; [by rewrite (Hal E)|done]).
  intros r s' [-> ->]. rewrite aset_aset_eq.
  pose proof (comm_done_operated (dir_of type) cfg st c1 al Hok1 Hph eq_refl) as Hdone.
  split; [done|]. split; [|split; [done|by eexists]].
  split; [apply Forall_aset; [apply Hok|apply Hdone]|apply Hok].
Qed.

Lemma vportal_wait_spec id s c d cfg :
  comms_ok s -> aget (communicators s) id = Some c -> comm_done d cfg c ->
  wp (do_vportal_wait id) (fun r s' => r = 0 /\ comms_ok s' /\ cs_noc s' = cs_noc s /\
    exists c', communicators s' = aset id c' (communicators s) /\ phase c' = Idle d false) s.
Proof.
  intros Hok Hc (Hco & Hph & Hcf). destruct (pending_used c d false true Hph) as (Hu & Hb & Hf).
  eapply wp_mono; [by apply (communicator_wait_finished id s c)|].
  intros r s1 [-> ->]. destruct (finished_ok c Hco Hu) as [Hok' Hph'].
  split; [done|]. split; [by apply (comms_ok_set s)|]. split; [done|]. eexists. split; [done|].
  rewrite Hph'. unfold phase in Hph. rewrite Hu, Hb in Hph. by injection Hph as -> -> _.
Qed.

(** A read without an authorisation does not reach the port. *)
Lemma vportal_read_denied id buffer size s c :
  comms_ok s -> aget (communicators s) id = Some c -> phase c = Idle Input false ->
  wp (do_vportal_aread id buffer size) (fun r s' => r = err EACCES /\ cs_noc s' = cs_noc s) s.
Proof.
  intros Hok Hc Hph. pose proof (comms_ok_get _ _ _ Hok Hc) as Hco.
  unfold do_vportal_aread, vportal_prepare. wp_step. wp_step. eapply wp_comm_update; [done|]. wp_step.
  set (c1 := cm_set_config _ c). set (s1 := cs_set_fn _ _).
  assert (Hok1 : comm_ok c1) by (by destruct Hco).
  assert (Hoks : comms_ok s1) by (by apply (comms_ok_set s)).
  eapply wp_mono.
  { eapply (communicator_operate_refused id ACTIVE_TYPE_INPUT s1 c1 (err EACCES));
      [done|simpl; by eapply aget_aset_same|]. change (phase c1) with (phase c). by rewrite Hph. }
  by intros r s' [-> ->].
Qed.

(** ** The two ends of a connection on the local node *)

Context {TL : NocTopologyLaws _} {PL : PortalHwLaws P}.

Lemma vportal_connect_spec junk junk' port s :
  vportal_ready s -> 0 ≤ port < KPORTAL_PORT_NR ->
  let local := processor_node_get_num in
  wp (i ← do_vportal_create junk local port; o ← do_vportal_open junk' local local port; mret (i, o))
     (fun io s' => comms_ok s' /\ fst io <> snd io /\ alen (communicators s') = KPORTAL_MAX /\
        exists ai x ao q y ci co, pair_ports KPORTAL_PORT_NR pbufferpool pbufferpool_aux (cs_noc s) ai port x ao q y /\
          cs_noc s' = pair_noc (cs_noc s) ai port x ao q y /\
          aget (communicators s') (fst io) = Some ci /\ aget (communicators s') (snd io) = Some co /\
          phase ci = Idle Input false /\ phase co = Idle Output false /\
          cm_config ci = ActiveConfig (portal_laddress_calc 0 port) (portal_laddress_calc local port) (-1)
                           (fst junk) (snd junk) /\
          cm_config co = ActiveConfig (portal_laddress_calc (1 + local) q) (portal_laddress_calc local q)
                           (portal_laddress_calc local port) (fst junk') (snd junk')) s.
Proof.
  intros Hrd Hport local. pose proof node_num_range as Hl. fold local in Hl.
  destruct (facility_ports _ _ _ (cs_noc s) port (vp_noc _ Hrd) Hport) as (ai & x & ao & q & y & Hpp & E1 & E2).
  fold local in E1, E2. destruct (pair_range _ _ _ _ _ _ _ _ _ _ Hpp) as [_ Hq].
  assert (Hmax : 1 < alen (communicators s)) by (by rewrite (vp_count _ Hrd)).
  assert (Hnl : node_is_local local = true) by apply node_num_local.
  unfold do_vportal_create. rewrite Hnl. simpl. wp_step. eapply wp_mono.
  { apply (vportal_alloc_spec junk local (-1) port ACTIVE_TYPE_INPUT s _ _ (vp_comms _ Hrd) E1).
    - by apply portal_laddress; lia.
    - apply not_all_busy; [lia|apply Hrd]. }
  intros i s1 (Hok1 & c & ci & Hc & _ & -> & Hphi & Hcfi). simpl in Hok1.
  unfold do_vportal_open. rewrite Hnl. simpl. wp_step. eapply wp_mono.
  { apply (vportal_alloc_spec junk' local local port ACTIVE_TYPE_OUTPUT _ _ _ Hok1 E2).
    - by apply portal_laddress; lia.
    - apply another_free; [done|apply Hrd]. }
  intros o s2 (Hok2 & c2 & co & Hc2 & Hph2 & -> & Hpho & Hcfo). wp_step. simpl in *.
  assert (Hio : i <> o).
  { intros <-. rewrite (aget_aset_same _ _ _ _ Hc) in Hc2. injection Hc2 as <-. rewrite Hph2 in Hphi. done. }
  split; [done|]. split; [done|]. rewrite !length_aset. split; [apply Hrd|].
  exists ai, x, ao, q, y, ci, co. split_and!; try done.
  - rewrite aget_aset_ne by done. by eapply aget_aset_same.
  - by eapply aget_aset_same.
  - rewrite Hcfi. unfold portal_laddress_calc. by rewrite vportal_get_port_compose by lia.
  - rewrite Hcfo. unfold portal_laddress_calc. by rewrite vportal_get_port_compose by lia.
Qed.

(** (C10) A message sent through a portal to the local node is delivered once the reader
    has allowed the port of the writer, and each authorisation admits one message: the
    write and the read complete with the size of the message, the waits return without
    blocking, the buffer of the reader holds the bytes of the writer, no message stays
    behind, and a further read is refused with [-EACCES]. *)
Theorem vportal_delivery junk junk' port src dst size buffer' size' s :
  vportal_ready s -> 0 ≤ port < KPORTAL_PORT_NR -> 0 ≤ size ->
  Forall (fun b => size ≤ alen (msg_data (mb_message b))) (mbuf (bufs (cs_noc s))) ->
  let local := processor_node_get_num in
  wp (i ← do_vportal_create junk local port;
      o ← do_vportal_open junk' local local port;
      q ← do_vportal_get_port o;
      a ← do_vportal_allow i local q;
      w ← do_vportal_awrite o src size;
      r ← do_vportal_aread i dst size;
      ri ← do_vportal_wait i;
      ro ← do_vportal_wait o;
      again ← do_vportal_aread i buffer' size';
      mret (a, w, r, ri, ro, again))
     (fun res s' =>
        res = (0, size, size, 0, 0, err EACCES) /\
        mem_read (umem (cs_noc s')) dst (Z.to_nat size) = mem_read (umem (cs_noc s)) src (Z.to_nat size) /\
        queue (bufs (cs_noc s')) []) s.
Proof.
  intros Hrd Hport Hsz Hlen local. apply wp_bind_pair.
  eapply wp_mono; [by apply vportal_connect_spec|]. intros [i o] s1; simpl. fold local.
  intros (Hok1 & Hio & Hcn & ai & x & ao & q & y & ci & co & Hpp & Hn & Hci & Hco & Hphi & Hpho & Hcfi & Hcfo).
  pose proof node_num_range as Hl. fold local in Hl. destruct (pair_range _ _ _ _ _ _ _ _ _ _ Hpp) as [_ Hq].
  wp_step. eapply wp_mono; [by apply (vportal_get_port_spec o s1 co Output false)|].
  intros q' s1' [-> ->]. rewrite Hcfo. simpl. unfold portal_laddress_calc at 1.
  rewrite vportal_get_port_compose by lia.
  wp_step. eapply wp_mono; [by apply (vportal_allow_spec i local q s1 ci)|].
  intros ra s2 (-> & Hok2 & -> & Hphi2). set (ci2 := vportal_allowed _ ci) in *.
  set (remote := ACTIVE_LADDRESS_COMPOSE local q KPORTAL_PORT_NR) in *.
  pose proof (facility_pair portal_functions _ _ _ portal_addresses_ok (cs_noc s) ai port x ao q y src dst size remote
    (vp_noc _ Hrd) Hpp Hsz Hlen ltac:(intros b Hb; split; by apply portal_source_exact)) as Hlp.
  rewrite <- Hn in Hlp.
  pose proof (local_write portal_functions ltac:(done) ltac:(done) ltac:(done) _ _ _ _ (cm_stats co) _ _ _ _ _ _ _ _ Hlp) as Hw.
  apply wp_returns in Hw as ([rw st1] & n1 & E1 & Hrw & k & b0 & b & a' & Hse). simpl in Hrw. subst rw.
  wp_step. eapply wp_mono.
  { eapply (vportal_transfer_spec do_portal_awrite ACTIVE_TYPE_OUTPUT o src size _ co _ _ false Hok2);
      [simpl; by rewrite aget_aset_ne|done|done|]. rewrite Hcfo. exact E1. }
  intros w s3 (-> & Hok3 & Hn3 & co3 & Hcs3 & Hdo). simpl in Hcs3.
  pose proof (local_read portal_functions ltac:(done) ltac:(done) ltac:(done) _ _ _ _ (cm_stats ci2) _ _ _ _ _ _ _ _ _ _ _ _ _ Hlp Hse) as Hr.
  apply wp_returns in Hr as ([rr st2] & n2 & E2 & Hrr & Hmem & Hqu & _). simpl in Hrr. subst rr.
  wp_step. eapply wp_mono.
  { eapply (vportal_transfer_spec do_portal_aread ACTIVE_TYPE_INPUT i dst size s3 ci2 _ _ true Hok3);
      [rewrite Hcs3, aget_aset_ne by done; by eapply aget_aset_same|done|done|].
    unfold ci2, vportal_allowed. simpl. rewrite Hcfi, Hn3. exact E2. }
  intros r s4 (-> & Hok4 & Hn4 & ci4 & Hcs4 & Hdi).
  assert (Hi4 : aget (communicators s4) i = Some ci4).
  { rewrite Hcs4. eapply aget_aset_same. rewrite Hcs3, aget_aset_ne by done. by eapply aget_aset_same. }
  wp_step. eapply wp_mono; [by eapply (vportal_wait_spec i s4 ci4 Input)|].
  intros ri s5 (-> & Hok5 & Hn5 & ci5 & Hcs5 & Hph5).
  wp_step. eapply wp_mono.
  { eapply (vportal_wait_spec o s5 co3 Output _ Hok5); [|exact Hdo].
    rewrite Hcs5, aget_aset_ne, Hcs4, aget_aset_ne, Hcs3 by done. eapply aget_aset_same. by rewrite aget_aset_ne. }
  intros ro s6 (-> & Hok6 & Hn6 & co6 & Hcs6 & _).
  wp_step. eapply wp_mono.
  { eapply (vportal_read_denied i buffer' size' s6 ci5 Hok6); [|done].
    rewrite Hcs6, aget_aset_ne, Hcs5 by done. by eapply aget_aset_same. }
  intros again s7 [-> Hn7]. wp_step. split; [done|].
  rewrite Hn7, Hn6, Hn5, Hn4. split; [|done]. rewrite Hn in Hmem. exact Hmem.
Qed.

End vportal.
