(* ===== verification/ThreadBase.v ===== *)
(** The data of the thread system (include/nanvix/kernel/thread.h and the variables of
    src/kernel/pm/thread/{multithread,common}.c).

    A pointer to a thread is an index of the table [threads], and [None] for [NULL].
    Threads are linked through their field [next], which the scheduling queue, the
    condition variables and the hand-over of a terminated thread share.  The cores, the
    contexts and the addresses of the table belong to the HAL and the linker and are the
    class [CoreHw]. *)

From S2P Require Import Prelude.
From S2P Require Import Hlib.
From S2P Require Import MemLayout.
From S2P Require Import Kpool.

(** ** The HAL *)

Class CoreHw := {
  cores : Type;
  CORES_NUM : Z;
  core_wakeup : Z -> cores -> cores;
  core_start : Z -> cores -> Z * cores;
  context_create : Z -> Z -> cores -> Z;
  (** what [context_switch_to] stores in its first argument *)
  context_save : Z -> cores -> Z;
  thread_ctx_addr : Z -> Z;
  thread_idle_addr : Z;
}.

(** ** Constants and data *)

Definition SYS_THREAD_MAX `{CoreHw} : Z := CORES_NUM.
Definition THREAD_MAX `{CoreHw} : Z := 2 * (SYS_THREAD_MAX - 1).
Definition KTHREAD_MAX `{CoreHw} : Z := SYS_THREAD_MAX + THREAD_MAX.
Definition KTHREAD_EXIT_VALUE_NUM `{CoreHw} : Z := 3 * KTHREAD_MAX.
Definition IDLE_THREAD_MAX `{CoreHw} : Z := SYS_THREAD_MAX - 1.

Definition KTHREAD_NULL_TID : Z := -1.
Definition KTHREAD_MASTER_TID : Z := 0.
Definition THREAD_CREATE_NTRIALS : Z := 5.

Inductive thread_state :=
| THREAD_NOT_STARTED | THREAD_STARTED | THREAD_RUNNING | THREAD_SLEEPING | THREAD_STOPPED
| THREAD_TERMINATED | THREAD_ZOMBIE.

#[export] Instance thread_state_eq_dec : EqDecision thread_state.
Proof. solve_decision. Defined.

Record thread := Thread {
  tid : Z;
  coreid : Z;
  state : thread_state;
  arg : Z;
  start : Z;
  ctx : Z;
  next : option Z;
}.

Record condvar := Condvar { cv_lock : spinlock_t; cv_queue : option Z }.
Record semaphore := Semaphore { sem_count : Z; sem_lock : spinlock_t; sem_cond : condvar }.
Record schedule_queue := ScheduleQueue { sq_size : Z; sq_head : option Z; sq_tail : option Z; sq_sem : semaphore }.
Record exit_value := ExitValue { ev_tid : Z; ev_retval : Z }.

Definition COND_INITIALIZER : condvar := Condvar SPINLOCK_UNLOCKED None.
Definition SEMAPHORE_INITIALIZER (x : Z) : semaphore := Semaphore x SPINLOCK_UNLOCKED COND_INITIALIZER.

(** The threads that called [kernel_sleep], by core: the identifier and the condition
    variable, and the lock of the table. *)
Record sleep_queues := SleepQueues { sl_lock : spinlock_t; sl_queues : list (Z * condvar) }.

(** The thread system.  [tm_pool] is the pool from which the stacks come. *)
Record tm `{CoreHw} := Tm {
  tm_cores : cores;
  threads : list thread;
  joincond : list condvar;
  nthreads : Z;
  next_tid : Z;
  lock_tm : spinlock_t;
  ustacks : list Z;
  kstacks : list Z;
  sched_queue : schedule_queue;
  idle_fence : spinlock_t;
  exit_values : list exit_value;
  next_exit_value : Z;
  tm_pool : kpool unit;
  tm_sleep : sleep_queues;
}.
Arguments Tm {_} tm_cores threads joincond nthreads next_tid lock_tm ustacks kstacks sched_queue idle_fence
  exit_values next_exit_value tm_pool tm_sleep.

Definition set_tid (x : Z) (h : thread) : thread :=
  Thread x (coreid h) (state h) (arg h) (start h) (ctx h) (next h).
Definition set_coreid (x : Z) (h : thread) : thread :=
  Thread (tid h) x (state h) (arg h) (start h) (ctx h) (next h).
Definition set_state (x : thread_state) (h : thread) : thread :=
  Thread (tid h) (coreid h) x (arg h) (start h) (ctx h) (next h).
Definition set_ctx (x : Z) (h : thread) : thread :=
  Thread (tid h) (coreid h) (state h) (arg h) (start h) x (next h).
Definition set_next (x : option Z) (h : thread) : thread :=
  Thread (tid h) (coreid h) (state h) (arg h) (start h) (ctx h) x.

Definition cv_set_lock (b : spinlock_t) (c : condvar) : condvar := Condvar b (cv_queue c).
Definition cv_set_queue (q : option Z) (c : condvar) : condvar := Condvar (cv_lock c) q.
Definition sem_set_count (n : Z) (x : semaphore) : semaphore := Semaphore n (sem_lock x) (sem_cond x).
Definition sem_set_lock (b : spinlock_t) (x : semaphore) : semaphore := Semaphore (sem_count x) b (sem_cond x).
Definition sem_set_cond (c : condvar) (x : semaphore) : semaphore := Semaphore (sem_count x) (sem_lock x) c.

Section setters.
Context `{C : CoreHw}.

Definition tm_set_cores (x : cores) (s : tm) : tm :=
  Tm x (threads s) (joincond s) (nthreads s) (next_tid s) (lock_tm s) (ustacks s) (kstacks s) (sched_queue s)
    (idle_fence s) (exit_values s) (next_exit_value s) (tm_pool s) (tm_sleep s).
Definition tm_set_threads (x : list thread) (s : tm) : tm :=
  Tm (tm_cores s) x (joincond s) (nthreads s) (next_tid s) (lock_tm s) (ustacks s) (kstacks s) (sched_queue s)
    (idle_fence s) (exit_values s) (next_exit_value s) (tm_pool s) (tm_sleep s).
Definition tm_set_joincond (x : list condvar) (s : tm) : tm :=
  Tm (tm_cores s) (threads s) x (nthreads s) (next_tid s) (lock_tm s) (ustacks s) (kstacks s) (sched_queue s)
    (idle_fence s) (exit_values s) (next_exit_value s) (tm_pool s) (tm_sleep s).
Definition tm_set_nthreads (x : Z) (s : tm) : tm :=
  Tm (tm_cores s) (threads s) (joincond s) x (next_tid s) (lock_tm s) (ustacks s) (kstacks s) (sched_queue s)
    (idle_fence s) (exit_values s) (next_exit_value s) (tm_pool s) (tm_sleep s).
Definition tm_set_next_tid (x : Z) (s : tm) : tm :=
  Tm (tm_cores s) (threads s) (joincond s) (nthreads s) x (lock_tm s) (ustacks s) (kstacks s) (sched_queue s)
    (idle_fence s) (exit_values s) (next_exit_value s) (tm_pool s) (tm_sleep s).
Definition tm_set_lock (x : spinlock_t) (s : tm) : tm :=
  Tm (tm_cores s) (threads s) (joincond s) (nthreads s) (next_tid s) x (ustacks s) (kstacks s) (sched_queue s)
    (idle_fence s) (exit_values s) (next_exit_value s) (tm_pool s) (tm_sleep s).
Definition tm_set_stacks (u k : list Z) (s : tm) : tm :=
  Tm (tm_cores s) (threads s) (joincond s) (nthreads s) (next_tid s) (lock_tm s) u k (sched_queue s)
    (idle_fence s) (exit_values s) (next_exit_value s) (tm_pool s) (tm_sleep s).
Definition tm_set_queue (x : schedule_queue) (s : tm) : tm :=
  Tm (tm_cores s) (threads s) (joincond s) (nthreads s) (next_tid s) (lock_tm s) (ustacks s) (kstacks s) x
    (idle_fence s) (exit_values s) (next_exit_value s) (tm_pool s) (tm_sleep s).
Definition tm_set_exits (x : list exit_value) (n : Z) (s : tm) : tm :=
  Tm (tm_cores s) (threads s) (joincond s) (nthreads s) (next_tid s) (lock_tm s) (ustacks s) (kstacks s)
    (sched_queue s) (idle_fence s) x n (tm_pool s) (tm_sleep s).
Definition tm_set_fence (x : spinlock_t) (s : tm) : tm :=
  Tm (tm_cores s) (threads s) (joincond s) (nthreads s) (next_tid s) (lock_tm s) (ustacks s) (kstacks s)
    (sched_queue s) x (exit_values s) (next_exit_value s) (tm_pool s) (tm_sleep s).
Definition tm_set_pool (x : kpool unit) (s : tm) : tm :=
  Tm (tm_cores s) (threads s) (joincond s) (nthreads s) (next_tid s) (lock_tm s) (ustacks s) (kstacks s)
    (sched_queue s) (idle_fence s) (exit_values s) (next_exit_value s) x (tm_sleep s).
Definition tm_set_sleep (x : sleep_queues) (s : tm) : tm :=
  Tm (tm_cores s) (threads s) (joincond s) (nthreads s) (next_tid s) (lock_tm s) (ustacks s) (kstacks s)
    (sched_queue s) (idle_fence s) (exit_values s) (next_exit_value s) (tm_pool s) x.

Definition thread_read (i : Z) : K tm thread :=
  kgets (fun s => aget (threads s) i) ≫= fun o : option thread => kunwrap o.
Definition thread_update (i : Z) (f : thread -> thread) : K tm unit :=
  h ← thread_read i;
  kmodify (fun s => tm_set_threads (aset i (f h) (threads s)) s).

(** The dereference of a pointer. *)
Definition deref (p : option Z) : K tm Z := kunwrap p.

Definition lock_threads : K tm unit := spinlock_lock lock_tm tm_set_lock.
Definition unlock_threads : K tm unit := spinlock_unlock tm_set_lock.

End setters.
