(* ===== verification/Cond.v ===== *)
(** Sleeping, condition variables and semaphores (src/kernel/pm/{sleep,cond,semaphore}.c).

    A condition variable is a list of sleeping threads, linked through the table of
    threads.  [cond_wait] and [semaphore_down] are cut where the core sleeps, so that
    several threads interleave. *)

From S2P Require Import Prelude.
From S2P Require Import Hlib.
From S2P Require Import ThreadBase.

(** ** Sleeping and waking *)

Section sleep.
Context `{C : CoreHw}.

Definition thread_wakeup (i : Z) : K tm unit :=
  h ← thread_read i;
  kmodify (fun s => tm_set_cores (core_wakeup (coreid h) (tm_cores s)) s).

(** ** Condition variables

    [cv] and [set_cv] reach the condition variable in the state. *)

Section condvar.
Context (cv : tm -> option condvar) (set_cv : condvar -> tm -> tm).

Definition with_cv {A} (m : K condvar A) : K tm A := kzoom cv set_cv m.

(** [cond_wait] up to the point where the core sleeps; [unlock] releases the lock that
    the caller holds, which the thread takes again when it wakes up. *)
Definition cond_wait_begin (curr : Z) (unlock : K tm unit) : K tm unit :=
  with_cv (spinlock_lock cv_lock cv_set_lock);;
  q ← with_cv (kgets cv_queue);
  thread_update curr (set_next q);;
  with_cv (kmodify (cv_set_queue (Some curr)));;
  with_cv (spinlock_unlock cv_set_lock);;
  unlock.

(** The loop over the sleeping threads.  A list without a cycle is shorter than the
    table, so the loop that exceeds [n] threads does not end. *)
Fixpoint cond_wake (n : nat) : K tm unit :=
  match n with
  | O => khang
  | S n =>
      q ← with_cv (kgets cv_queue);
      match q : option Z with
      | None => mret tt
      | Some i =>
          thread_wakeup i;;
          h ← thread_read i;
          with_cv (kmodify (cv_set_queue (next h)));;
          cond_wake n
      end
  end.

Definition cond_broadcast : K tm Z :=
  with_cv (spinlock_lock cv_lock cv_set_lock);;
  n ← kgets (fun s => length (threads s));
  cond_wake (S n);;
  with_cv (spinlock_unlock cv_set_lock);;
  mret 0.

End condvar.

(** ** Semaphores

    [sem] and [set_sem] reach the semaphore in the state. *)

Section semaphore.
Context (sem : tm -> option semaphore) (set_sem : semaphore -> tm -> tm).

Definition with_sem {A} (m : K semaphore A) : K tm A := kzoom sem set_sem m.
Definition sem_cv (s : tm) : option condvar := sem_cond <$> sem s.
Definition set_sem_cv (c : condvar) (s : tm) : tm :=
  match sem s with Some x => set_sem (sem_set_cond c x) s | None => s end.

Definition semaphore_up : K tm unit :=
  with_sem (spinlock_lock sem_lock sem_set_lock);;
  with_sem (kmodify (fun x => sem_set_count (sem_count x + 1) x));;
  cond_broadcast sem_cv set_sem_cv;;
  with_sem (spinlock_unlock sem_set_lock).

(** One iteration of [semaphore_down] by thread [curr]: [true] when the semaphore was
    taken; [false] when the thread goes to sleep, to try again when it wakes up. *)
Definition semaphore_down_try (curr : Z) : K tm bool :=
  with_sem (spinlock_lock sem_lock sem_set_lock);;
  n ← with_sem (kgets sem_count);
  if 0 <? n then
    with_sem (kmodify (fun x => sem_set_count (sem_count x - 1) x));;
    with_sem (spinlock_unlock sem_set_lock);;
    mret true
  else
    cond_wait_begin sem_cv set_sem_cv curr (with_sem (spinlock_unlock sem_set_lock));;
    mret false.

End semaphore.

End sleep.

