(* ===== verification/CondSpec.v ===== *)
(** Correctness of condition variables and semaphores. *)

From S2P Require Import Prelude.
From S2P Require Import Hlib.
From S2P Require Import ThreadBase.
From S2P Require Import Cond.

(** ** Linked lists of threads *)

Fixpoint linked (l : list thread) (p : option Z) (w : list Z) : Prop :=
  match w with
  | [] => p = None
  | i :: w => p = Some i /\ exists h, aget l i = Some h /\ linked l (next h) w
  end.

Lemma linked_fun l p w w' : linked l p w -> linked l p w' -> w = w'.
Proof.
  revert p w'. induction w as [|i w IH]; intros p [|j w']; simpl; [done|intros -> (? & _); done|intros (-> & _) ?; done|].
  intros (-> & h & Hh & Hw) ([= <-] & h' & Hh' & Hw'). rewrite Hh in Hh'. injection Hh' as <-. f_equal. by eapply IH.
Qed.

Lemma linked_suffix l p w1 i w2 :
  linked l p (w1 ++ i :: w2) -> exists h, aget l i = Some h /\ linked l (next h) w2.
Proof.
  revert p. induction w1 as [|j w1 IH]; intros p; simpl; [by intros (_ & ?)|].
  intros (_ & h & _ & Hw). by eapply IH.
Qed.

Lemma linked_nodup l p w : linked l p w -> NoDup w.
Proof.
  revert p. induction w as [|i w IH]; intros p; simpl; [by intros; apply NoDup_nil|].
  intros (_ & h & Hh & Hw). apply NoDup_cons. split; [|by eapply IH].
  intros (w1 & w2 & ->)%list_elem_of_split.
  destruct (linked_suffix _ _ _ _ _ Hw) as (h' & Hh' & Hw'). rewrite Hh in Hh'. injection Hh' as <-.
  pose proof (linked_fun _ _ _ _ Hw Hw') as E. apply (f_equal length) in E. rewrite length_app in E. simpl in E. lia.
Qed.

Lemma linked_elem l p w i : linked l p w -> i ∈ w -> exists h, aget l i = Some h.
Proof.
  intros Hw (w1 & w2 & ->)%list_elem_of_split. destruct (linked_suffix _ _ _ _ _ Hw) as (h & Hh & _). by exists h.
Qed.

Lemma linked_other l p w i h : i ∉ w -> linked l p w -> linked (aset i h l) p w.
Proof.
  revert p. induction w as [|j w IH]; intros p Hi; simpl; [done|].
  intros (-> & x & Hx & Hw). apply not_elem_of_cons in Hi as [Hne Hi]. split; [done|]. exists x.
  rewrite aget_aset_ne by done. by split; [|apply IH].
Qed.

Lemma linked_keep l p w i h h' : aget l i = Some h -> next h' = next h -> linked l p w -> linked (aset i h' l) p w.
Proof.
  intros Hi Hn. revert p. induction w as [|j w IH]; intros p; simpl; [done|].
  intros (-> & x & Hx & Hw). split; [done|]. destruct (decide (i = j)) as [<-|].
  - exists h'. split; [by eapply aget_aset_same|]. rewrite Hi in Hx. injection Hx as <-. rewrite Hn. by apply IH.
  - exists x. rewrite aget_aset_ne by done. by split; [|apply IH].
Qed.

Lemma linked_length l p w : linked l p w -> (length w ≤ length l)%nat.
Proof.
  intros Hw. pose proof (linked_nodup _ _ _ Hw) as Hnd.
  assert (Hsub : w ⊆ seqZ 0 (alen l)).
  { intros i Hi. destruct (linked_elem _ _ _ _ Hw Hi) as [h Hh]. apply aget_lt in Hh. apply elem_of_seqZ. lia. }
  pose proof (submseteq_length _ _ (NoDup_submseteq _ _ Hnd Hsub)) as Hle. rewrite length_seqZ in Hle. lia.
Qed.

(** Appending at the tail. *)
Lemma linked_snoc l p w z i h hi :
  linked l p (w ++ [z]) -> i ∉ w ++ [z] -> aget l z = Some h -> aget l i = Some hi ->
  linked (aset i (set_next None hi) (aset z (set_next (Some i) h) l)) p (w ++ [z; i]).
Proof.
  intros Hw Hi Hz Hl. assert (Hne : i <> z) by set_solver.
  revert p Hw. induction w as [|j w IH]; intros p; simpl.
  - intros (-> & x & Hx & Hn). split; [done|]. exists (set_next (Some i) h).
    rewrite aget_aset_ne by done. split; [by eapply aget_aset_same|]. split; [done|].
    exists (set_next None hi). split; [|done]. eapply aget_aset_same. by rewrite aget_aset_ne.
  - intros (-> & x & Hx & Hw). split; [done|]. pose proof (linked_nodup l (Some j) (j :: w ++ [z])) as Hnd.
    apply NoDup_cons in Hnd as [Hj _]; [|simpl; eauto]. exists x.
    rewrite !aget_aset_ne by set_solver. split; [done|]. apply IH; [set_solver|done].
Qed.

(** ** Parts of the state *)

Class TmLens `{CoreHw} {X} (get : tm -> option X) (set : X -> tm -> tm) : Prop := {
  lens_get_set x x' s : get s = Some x' -> get (set x s) = Some x;
  lens_set_set x x' s : get s <> None -> set x (set x' s) = set x s;
  lens_set_get x s : get s = Some x -> set x s = s;
  lens_threads x s : threads (set x s) = threads s;
  lens_cores x s : tm_cores (set x s) = tm_cores s;
  lens_get_threads l s : get (tm_set_threads l s) = get s;
  lens_get_cores c s : get (tm_set_cores c s) = get s;
  lens_set_threads l x s : set x (tm_set_threads l s) = tm_set_threads l (set x s);
  lens_set_cores c x s : set x (tm_set_cores c s) = tm_set_cores c (set x s);
}.

#[export] Instance sem_cv_lens `{CoreHw} sem set_sem `{!TmLens sem set_sem} : TmLens (sem_cv sem) (set_sem_cv sem set_sem).
Proof.
  split; unfold sem_cv, set_sem_cv.
  - intros c c' s Hs. destruct (sem s) as [x|] eqn:E; [|done]. by rewrite (lens_get_set _ _ _ E).
  - intros c c' s Hs. destruct (sem s) as [x|] eqn:E; [|done]. rewrite (lens_get_set _ _ _ E).
    by rewrite lens_set_set by (by rewrite E).
  - intros c s Hs. destruct (sem s) as [x|] eqn:E; [|done]. injection Hs as <-. destruct x. by apply lens_set_get.
  - intros c s. destruct (sem s); [apply lens_threads|done].
  - intros c s. destruct (sem s); [apply lens_cores|done].
  - intros l s. by rewrite lens_get_threads.
  - intros l s. by rewrite lens_get_cores.
  - intros l c s. rewrite lens_get_threads. destruct (sem s); [apply lens_set_threads|done].
  - intros l c s. rewrite lens_get_cores. destruct (sem s); [apply lens_set_cores|done].
Qed.

Section spec.
Context `{C : CoreHw}.

Lemma wp_thread_read i h (Q : thread -> tm -> Prop) s : aget (threads s) i = Some h -> Q h s -> wp (thread_read i) Q s.
Proof. intros E HQ. unfold thread_read. wp_step. wp_step. rewrite E. by wp_step. Qed.

Lemma wp_thread_update i f h (Q : unit -> tm -> Prop) s :
  aget (threads s) i = Some h -> Q tt (tm_set_threads (aset i (f h) (threads s)) s) -> wp (thread_update i f) Q s.
Proof. intros E HQ. unfold thread_update. wp_step. eapply wp_thread_read; [done|]. by wp_step. Qed.

Lemma tm_set_threads_set l l' s : tm_set_threads l (tm_set_threads l' s) = tm_set_threads l s.
Proof. done. Qed.

(** Waking the threads [w]. *)
Definition wake_one (l : list thread) (c : cores) (i : Z) : cores :=
  match aget l i with Some h => core_wakeup (coreid h) c | None => c end.
Definition wake_all (l : list thread) (w : list Z) (c : cores) : cores := fold_left (wake_one l) w c.

(** ** Condition variables *)

Section condvar.
Context (cv : tm -> option condvar) (set_cv : condvar -> tm -> tm) `{!TmLens cv set_cv}.

Lemma wp_with_cv {A} (m : K condvar A) c (Q : A -> tm -> Prop) s :
  cv s = Some c -> wp m (fun a c' => Q a (set_cv c' s)) c -> wp (with_cv cv set_cv m) Q s.
Proof. intros Hc Hm. unfold with_cv. wp_step; [exact Hc|done]. Qed.

Lemma cond_wake_spec n w c (Q : unit -> tm -> Prop) s :
  cv s = Some c -> linked (threads s) (cv_queue c) w -> (length w < n)%nat ->
  Q tt (set_cv (cv_set_queue None c) (tm_set_cores (wake_all (threads s) w (tm_cores s)) s)) ->
  wp (cond_wake cv set_cv n) Q s.
Proof.
  revert w c s. induction n as [|n IH]; intros w c s Hc Hw Hn HQ; [lia|]. simpl. wp_step.
  eapply wp_with_cv; [exact Hc|]. wp_step. rewrite lens_set_get by done. destruct w as [|i w].
  - simpl in Hw. rewrite Hw. wp_step. replace c with (cv_set_queue None c) in Hc by (by destruct c; simpl in *; subst).
    rewrite lens_set_get in HQ by (by rewrite lens_get_cores). by destruct s.
  - destruct Hw as (-> & h & Hh & Hw). wp_step. unfold thread_wakeup. wp_step. eapply wp_thread_read; [done|]. wp_step.
    wp_step. eapply wp_thread_read; [done|]. wp_step.
    eapply wp_with_cv; [rewrite lens_get_cores; exact Hc|]. wp_step.
    apply (IH w (cv_set_queue (next h) c)).
    + eapply lens_get_set. rewrite lens_get_cores. exact Hc.
    + by rewrite lens_threads.
    + simpl in Hn. lia.
    + rewrite lens_threads, lens_cores. simpl. unfold wake_all in HQ. simpl in HQ. unfold wake_one at 2 in HQ. rewrite Hh in HQ.
      rewrite <- lens_set_cores, lens_set_set; [exact HQ|]. simpl. rewrite !lens_get_cores. by rewrite Hc.
Qed.

Lemma cond_broadcast_spec w c (Q : Z -> tm -> Prop) s :
  cv s = Some c -> cv_lock c = false -> linked (threads s) (cv_queue c) w ->
  Q 0 (set_cv (Condvar false None) (tm_set_cores (wake_all (threads s) w (tm_cores s)) s)) ->
  wp (cond_broadcast cv set_cv) Q s.
Proof.
  intros Hc Hl Hw HQ. assert (Hsome : cv s <> None) by congruence. unfold cond_broadcast.
  wp_step. eapply wp_with_cv; [exact Hc|]. wp_step; [done|]. wp_step. wp_step. rewrite lens_threads.
  wp_step. eapply (cond_wake_spec _ w (cv_set_lock true c)).
  - by eapply lens_get_set.
  - by rewrite lens_threads.
  - pose proof (linked_length _ _ _ Hw). lia.
  - wp_step. eapply wp_with_cv; [eapply lens_get_set; rewrite lens_get_cores; by eapply lens_get_set|].
    wp_step. wp_step. rewrite lens_threads, lens_cores, <- lens_set_cores.
    rewrite !lens_set_set; [exact HQ|by rewrite lens_get_cores..|].
    erewrite lens_get_set; [done|]. rewrite lens_get_cores. exact Hc.
Qed.

Lemma cond_wait_spec curr h c unlock (Q : unit -> tm -> Prop) s :
  cv s = Some c -> cv_lock c = false -> aget (threads s) curr = Some h ->
  wp unlock Q (set_cv (Condvar false (Some curr)) (tm_set_threads (aset curr (set_next (cv_queue c) h) (threads s)) s)) ->
  wp (cond_wait_begin cv set_cv curr unlock) Q s.
Proof.
  intros Hc Hl Hh HQ. assert (Hsome : cv s <> None) by congruence. unfold cond_wait_begin.
  wp_step. eapply wp_with_cv; [exact Hc|]. wp_step; [done|]. wp_step.
  eapply wp_with_cv; [by eapply lens_get_set|]. wp_step. rewrite lens_set_set by done.
  wp_step. eapply wp_thread_update; [rewrite lens_threads; exact Hh|]. rewrite lens_threads, <- lens_set_threads.
  wp_step. eapply wp_with_cv; [eapply lens_get_set; rewrite lens_get_threads; exact Hc|]. wp_step.
  rewrite lens_set_set by (by rewrite lens_get_threads). wp_step.
  eapply wp_with_cv; [eapply lens_get_set; rewrite lens_get_threads; exact Hc|]. wp_step.
  rewrite lens_set_set by (by rewrite lens_get_threads). exact HQ.
Qed.

End condvar.

(** ** Semaphores *)

Section semaphore.
Context (sem : tm -> option semaphore) (set_sem : semaphore -> tm -> tm) `{!TmLens sem set_sem}.

Abbreviation with_sem := (with_sem sem set_sem) (only parsing).

Lemma wp_with_sem {A} (m : K semaphore A) x (Q : A -> tm -> Prop) s :
  sem s = Some x -> wp m (fun a x' => Q a (set_sem x' s)) x -> wp (with_sem m) Q s.
Proof. intros Hx Hm. unfold Cond.with_sem. wp_step; [exact Hx|done]. Qed.

Lemma sem_cv_get s x : sem s = Some x -> sem_cv sem s = Some (sem_cond x).
Proof. intros Hx. unfold sem_cv. by rewrite Hx. Qed.

Lemma set_sem_cv_get c s x : sem s = Some x -> set_sem_cv sem set_sem c s = set_sem (sem_set_cond c x) s.
Proof. intros Hx. unfold set_sem_cv. by rewrite Hx. Qed.

Definition sem_unlocked (x : semaphore) : Prop := sem_lock x = false /\ cv_lock (sem_cond x) = false.

Lemma semaphore_up_spec w x (Q : unit -> tm -> Prop) s :
  sem s = Some x -> sem_unlocked x -> linked (threads s) (cv_queue (sem_cond x)) w ->
  Q tt (set_sem (Semaphore (sem_count x + 1) false (Condvar false None))
          (tm_set_cores (wake_all (threads s) w (tm_cores s)) s)) ->
  wp (semaphore_up sem set_sem) Q s.
Proof.
  intros Hx [Hl Hcl] Hw HQ. assert (Hsome : sem s <> None) by congruence. unfold semaphore_up.
  wp_step. eapply wp_with_sem; [exact Hx|]. wp_step; [done|]. wp_step.
  eapply wp_with_sem; [by eapply lens_get_set|]. wp_step. rewrite lens_set_set by done.
  set (x1 := sem_set_count _ _). assert (Hx1 : sem (set_sem x1 s) = Some x1) by (by eapply lens_get_set).
  wp_step. eapply (cond_broadcast_spec (sem_cv sem) (set_sem_cv sem set_sem)); [by apply sem_cv_get|done|by rewrite lens_threads|].
  rewrite lens_threads, lens_cores, <- lens_set_cores.
  assert (Hx2 : sem (set_sem x1 (tm_set_cores (wake_all (threads s) w (tm_cores s)) s)) = Some x1)
    by (eapply lens_get_set; rewrite lens_get_cores; exact Hx).
  rewrite (set_sem_cv_get _ _ x1) by done. rewrite lens_set_set by (by rewrite lens_get_cores).
  eapply wp_with_sem; [eapply lens_get_set; rewrite lens_get_cores; exact Hx|]. wp_step.
  rewrite lens_set_set by (by rewrite lens_get_cores). exact HQ.
Qed.

Lemma semaphore_down_spec curr h x (Q : bool -> tm -> Prop) s :
  sem s = Some x -> sem_unlocked x -> aget (threads s) curr = Some h ->
  (0 < sem_count x -> Q true (set_sem (Semaphore (sem_count x - 1) false (sem_cond x)) s)) ->
  (sem_count x ≤ 0 -> Q false (set_sem (Semaphore (sem_count x) false (Condvar false (Some curr)))
     (tm_set_threads (aset curr (set_next (cv_queue (sem_cond x)) h) (threads s)) s))) ->
  wp (semaphore_down_try sem set_sem curr) Q s.
Proof.
  intros Hx [Hl Hcl] Hh Htake Hsleep. assert (Hsome : sem s <> None) by congruence. unfold semaphore_down_try.
  wp_step. eapply wp_with_sem; [exact Hx|]. wp_step; [done|]. wp_step.
  set (x1 := sem_set_lock true x). assert (Hx1 : sem (set_sem x1 s) = Some x1) by (by eapply lens_get_set).
  eapply wp_with_sem; [exact Hx1|]. wp_step. rewrite (lens_set_get x1) by done.
  wp_step.
  - wp_step. eapply wp_with_sem; [exact Hx1|]. wp_step. rewrite lens_set_set by done. wp_step.
    eapply wp_with_sem; [by eapply lens_get_set|]. wp_step. rewrite lens_set_set by done. wp_step. apply Htake. by apply Z.ltb_lt.
  - wp_step. eapply (cond_wait_spec (sem_cv sem) (set_sem_cv sem set_sem)); [by apply sem_cv_get|done|rewrite lens_threads; exact Hh|].
    rewrite lens_threads, <- lens_set_threads. set (s2 := tm_set_threads _ _).
    assert (Hs2 : sem s2 = Some x) by (unfold s2; by rewrite lens_get_threads).
    assert (Hx2 : sem (set_sem x1 s2) = Some x1) by (by eapply lens_get_set).
    rewrite (set_sem_cv_get _ _ x1) by done. rewrite lens_set_set by (by rewrite Hs2).
    eapply wp_with_sem; [by eapply lens_get_set|]. wp_step. rewrite lens_set_set by (by rewrite Hs2).
    wp_step. apply Hsleep. by apply Z.ltb_ge.
Qed.

(** Threads that use the semaphore.  [sc_asleep] are the threads whose core sleeps, and
    [sc_balance] counts the completed operations.  A core wakes up when its thread has
    been taken off the list of the condition variable. *)
Record sem_config := SemConfig { sc_state : tm; sc_asleep : gset Z; sc_balance : Z }.

Definition sem_waits (s : tm) (i : Z) : Prop :=
  exists x w, sem s = Some x /\ linked (threads s) (cv_queue (sem_cond x)) w /\ i ∈ w.

Inductive sem_step : sem_config -> sem_config -> Prop :=
| sem_step_up s s' A n :
    semaphore_up sem set_sem s = Done tt s' -> sem_step (SemConfig s A n) (SemConfig s' A (n + 1))
| sem_step_take i h s s' A n :
    i ∉ A -> aget (threads s) i = Some h -> semaphore_down_try sem set_sem i s = Done true s' ->
    sem_step (SemConfig s A n) (SemConfig s' A (n - 1))
| sem_step_sleep i h s s' A n :
    i ∉ A -> aget (threads s) i = Some h -> semaphore_down_try sem set_sem i s = Done false s' ->
    sem_step (SemConfig s A n) (SemConfig s' ({[i]} ∪ A) n)
| sem_step_wake i s A n :
    i ∈ A -> ~ sem_waits s i -> sem_step (SemConfig s A n) (SemConfig s (A ∖ {[i]}) n).

Record sem_ok (c : sem_config) (x : semaphore) (w : list Z) : Prop := {
  sm_get : sem (sc_state c) = Some x;
  sm_unlocked : sem_unlocked x;
  sm_linked : linked (threads (sc_state c)) (cv_queue (sem_cond x)) w;
  sm_asleep : forall i, i ∈ w -> i ∈ sc_asleep c;
  sm_count : sem_count x = sc_balance c /\ 0 ≤ sem_count x;
  sm_available : 0 < sem_count x -> w = [];
}.

Lemma sem_ok_step c c' x w : sem_ok c x w -> sem_step c c' -> exists x' w', sem_ok c' x' w'.
Proof.
  intros Hok Hst. destruct Hst as [s s' A n E|i h s s' A n Hi Hh E|i h s s' A n Hi Hh E|i s A n Hi Hno];
    destruct Hok as [Hx Hu Hw HA [Hn H0] Hav]; simpl in *.
  - pose proof (wp_Done _ _ _ _ _ E (semaphore_up_spec w x (fun _ s' => s' = _) s Hx Hu Hw eq_refl)) as ->. simpl.
    exists (Semaphore (sem_count x + 1) false (Condvar false None)), []. split; simpl; [eapply lens_get_set; rewrite lens_get_cores; exact Hx|done|done|by intros ? ?%not_elem_of_nil|lia|done].
  - pose proof (wp_Done _ (fun b s' => b = true -> 0 < sem_count x /\ s' = set_sem (Semaphore (sem_count x - 1) false (sem_cond x)) s)
      _ _ _ E) as (Hpos & ->); [apply (semaphore_down_spec i h x); try done|done|].
    exists (Semaphore (sem_count x - 1) false (sem_cond x)), w.
    split; simpl; [by eapply lens_get_set|by destruct Hu|by rewrite lens_threads|done|lia|]. intros _. by apply Hav.
  - pose proof (wp_Done _ (fun b s' => b = false -> sem_count x ≤ 0 /\ s' = set_sem (Semaphore (sem_count x) false (Condvar false (Some i)))
     (tm_set_threads (aset i (set_next (cv_queue (sem_cond x)) h) (threads s)) s)) _ _ _ E) as (Hle & ->);
      [apply (semaphore_down_spec i h x); try done|done|].
    assert (Hiw : i ∉ w) by (intros ?; by apply Hi, HA).
    exists (Semaphore (sem_count x) false (Condvar false (Some i))), (i :: w).
    split; simpl; [eapply lens_get_set; rewrite lens_get_threads; exact Hx|done| |set_solver|done|lia].
    rewrite lens_threads. simpl. split; [done|]. eexists. split; [by eapply aget_aset_same|]. simpl.
    by apply linked_other.
  - exists x, w. split; try done. simpl. intros j Hj. apply elem_of_difference. split; [by apply HA|].
    intros ->%elem_of_singleton. apply Hno. by exists x, w.
Qed.


End semaphore.
End spec.
