(* ===== verification/Thread.v ===== *)
(** Threads and the scheduler (src/kernel/pm/thread/{multithread,common}.c).

    [me] is the core that executes a routine.  A routine that switches to another thread
    is followed on its core: [thread_yield] returns in the thread that runs next. *)

From S2P Require Import Prelude.
From S2P Require Import Hlib.
From S2P Require Import MemLayout.
From S2P Require Import Kpool.
From S2P Require Import ThreadBase.
From S2P Require Import Cond.

Section thread.
Context `{H : Hlib} `{C : CoreHw} `{ML : MemLayout} (t : mm_target).

Definition KERNEL_THREAD_ID (i : Z) : Z := i.
Definition USER_THREAD_ID (i : Z) : Z := i - SYS_THREAD_MAX.
Definition IDLE_THREAD (coreid : Z) : Z := coreid.
Definition is_user_thread (i : Z) : bool := WITHIN i SYS_THREAD_MAX (SYS_THREAD_MAX + THREAD_MAX).

(** ** Exit values (common.c) *)

Definition thread_save_retval (retval : Z) (leaving : Z) : K tm unit :=
  if retval =? 0 then mret tt else
  h ← thread_read leaving;
  n ← kgets next_exit_value;
  l ← kgets exit_values;
  _ ← kunwrap (aget l n);
  kmodify (tm_set_exits (aset n (ExitValue (tid h) retval) l) (Z.rem (n + 1) KTHREAD_EXIT_VALUE_NUM)).

(** The value stored through [retval], when it is not [NULL]. *)
Definition thread_search_retval (tid : Z) : K tm Z :=
  kgets (fun s => match search (fun e => ev_tid e =? tid) (exit_values s) with
                  | Some i => match aget (exit_values s) i with Some e => ev_retval e | None => 0 end
                  | None => 0
                  end).

(** ** The table of threads *)

Fixpoint get_curr (me i : Z) (l : list thread) (curr : option Z) : option Z :=
  match l with
  | [] => curr
  | h :: l =>
      if negb (coreid h =? me) then get_curr me (i + 1) l curr
      else if decide (state h = THREAD_RUNNING) then Some i
      else get_curr me (i + 1) l (if decide (state h = THREAD_TERMINATED) then Some i else curr)
  end.

Definition thread_get_curr (me : Z) : K tm (option Z) := kgets (fun s => get_curr me 0 (threads s) None).

Definition thread_get (tid' : Z) : K tm (option Z) :=
  KASSERT (KTHREAD_NULL_TID <? tid');;
  kgets (fun s => search (fun h => tid h =? tid') (threads s)).

Definition put_page (a : Z) : K tm Z := kzoom (fun s => Some (tm_pool s)) tm_set_pool (kpage_put a).
Definition get_page : K tm Z := kzoom (fun s => Some (tm_pool s)) tm_set_pool (kpage_get tt true).

Definition thread_free (i : Z) : K tm unit :=
  KASSERT (WITHIN i 0 KTHREAD_MAX);;
  h ← thread_read i;
  KASSERT (bool_decide (state h = THREAD_ZOMBIE));;
  let utid := USER_THREAD_ID i in
  u ← kgets ustacks;
  k ← kgets kstacks;
  us ← kunwrap (aget u utid);
  ks ← kunwrap (aget k utid);
  put_page us;;
  put_page ks;;
  kmodify (tm_set_stacks (aset utid 0 u) (aset utid 0 k));;
  thread_update i (fun h => set_tid KTHREAD_NULL_TID (set_state THREAD_NOT_STARTED (set_coreid (-1) h)));;
  kmodify (fun s => tm_set_nthreads (nthreads s - 1) s).

(** The first thread that is not started or a zombie, from index 1. *)
Definition thread_available (h : thread) : bool :=
  bool_decide (state h = THREAD_NOT_STARTED) || bool_decide (state h = THREAD_ZOMBIE).

Definition thread_alloc : K tm (option Z) :=
  l ← kgets threads;
  match search_from thread_available 1 (tail l) with
  | None => mret None
  | Some i =>
      h ← thread_read i;
      (if decide (state h = THREAD_NOT_STARTED)
       then kmodify (fun s => tm_set_nthreads (nthreads s + 1) s)
       else thread_free i);;
      thread_update i (set_state THREAD_STARTED);;
      mret (Some i)
  end.

(** ** Scheduling *)

Definition queue_sem (s : tm) : option semaphore := Some (sq_sem (sched_queue s)).
Definition set_queue_sem (x : semaphore) (s : tm) : tm :=
  let q := sched_queue s in tm_set_queue (ScheduleQueue (sq_size q) (sq_head q) (sq_tail q) x) s.

Definition thread_schedule (i : Z) : K tm unit :=
  KASSERT (is_user_thread i);;
  q ← kgets sched_queue;
  (if sq_size q =? 0 then mret tt
   else last ← deref (sq_tail q); thread_update last (set_next (Some i)));;
  thread_update i (fun h => set_coreid (-1) (set_next None h));;
  kmodify (tm_set_queue (ScheduleQueue (sq_size q + 1)
    (if sq_size q =? 0 then Some i else sq_head q) (Some i) (sq_sem q)));;
  semaphore_up queue_sem set_queue_sem.

Definition thread_switch_to (me prev nxt : Z) : K tm Z :=
  c ← thread_get_curr me;
  i ← deref c;
  hc ← thread_read i;
  if tid hc =? KTHREAD_MASTER_TID then mret (err EINVAL) else
  if (thread_ctx_addr prev =? 0) || negb (mm_is_kaddr_on t (thread_ctx_addr prev)) then mret (err EINVAL) else
  hp ← thread_read prev;
  if negb (ctx hp =? 0) then mret (err EINVAL) else
  if (thread_ctx_addr nxt =? 0) || negb (mm_is_kaddr_on t (thread_ctx_addr nxt)) then mret (err EINVAL) else
  hn ← thread_read nxt;
  if (ctx hn =? 0) || negb (mm_is_kaddr_on t (ctx hn)) then mret (err EINVAL) else
  s ← kgets tm_cores;
  thread_update prev (set_ctx (context_save me s));;
  thread_update nxt (set_ctx 0);;
  mret 0.

(** The choice of the next thread. *)
Definition yield_next (me curr idle : Z) : K tm Z :=
  q ← kgets sched_queue;
  if negb (sq_size q =? 0) then
    nxt ← deref (sq_head q);
    hn ← thread_read nxt;
    kmodify (tm_set_queue (ScheduleQueue (sq_size q - 1) (next hn) (sq_tail q) (sq_sem q)));;
    thread_update nxt (fun h => set_coreid me (set_next None h));;
    hc ← thread_read curr;
    (if decide (state hc = THREAD_TERMINATED) then mret tt else
     thread_update curr (set_state THREAD_STOPPED);;
     if curr =? idle then mret tt else thread_schedule curr);;
    mret nxt
  else
    hc ← thread_read curr;
    if decide (state hc = THREAD_TERMINATED) then mret idle else mret curr.

(** A terminated thread becomes a zombie and is handed to the next thread. *)
Definition yield_retire (curr idle nxt : Z) : K tm unit :=
  hc ← thread_read curr;
  if decide (state hc = THREAD_TERMINATED) then
    KASSERT (negb (curr =? idle) && negb (curr =? nxt));;
    thread_update curr (set_state THREAD_ZOMBIE);;
    thread_update nxt (set_next (Some curr))
  else mret tt.

(** Under the lock. *)
Definition yield_select (me curr : Z) : K tm Z :=
  hc ← thread_read curr;
  let idle := IDLE_THREAD (coreid hc) in
  lock_threads;;
  nxt ← yield_next me curr idle;
  yield_retire curr idle nxt;;
  thread_update nxt (set_state THREAD_RUNNING);;
  unlock_threads;;
  mret nxt.

(** The reaping of a terminated thread by the thread that takes its core. *)
Definition yield_reap (curr : Z) : K tm unit :=
  lock_threads;;
  h ← thread_read curr;
  (match next h with
   | Some z =>
       hz ← thread_read z;
       if decide (state hz = THREAD_ZOMBIE) then thread_free z;; thread_update curr (set_next None) else mret tt
   | None => mret tt
   end);;
  unlock_threads.

(** The switch from [curr] to [nxt]: [nxt] when it takes place and [curr] goes on when
    it fails, since [thread_yield] does not look at the result. *)
Definition yield_switch (me curr nxt : Z) : K tm Z :=
  h ← thread_read curr;
  KASSERT (ctx h =? 0);;
  if curr =? nxt then mret curr else
  r ← thread_switch_to me curr nxt;
  mret (if r =? 0 then nxt else curr).

(** [thread_yield] on core [me], from the call by the current thread to the return in
    the thread that runs afterwards, which is the result; a thread that had not run
    before is at the start of [thread_start] instead, which reaps in the same way. *)
Definition thread_yield (me : Z) : K tm (Z + Z) :=
  c ← thread_get_curr me;
  curr ← deref c;
  h ← thread_read curr;
  if tid h =? KTHREAD_MASTER_TID then mret (inl (err EINVAL)) else
  nxt ← yield_select me curr;
  now ← yield_switch me curr nxt;
  hn ← thread_read now;
  KASSERT (ctx hn =? 0);;
  yield_reap now;;
  mret (inr now).

(** ** Creation and termination *)

Definition join_cv (i : Z) (s : tm) : option condvar := aget (joincond s) i.
Definition set_join_cv (i : Z) (c : condvar) (s : tm) : tm := tm_set_joincond (aset i c (joincond s)) s.

(** [thread_exit], to the return in the thread that takes over the core. *)
Definition thread_exit (me retval : Z) : K tm (Z + Z) :=
  c ← thread_get_curr me;
  curr ← deref c;
  KASSERT (is_user_thread curr);;
  lock_threads;;
  thread_save_retval retval curr;;
  thread_update curr (set_state THREAD_TERMINATED);;
  cond_broadcast (join_cv (KERNEL_THREAD_ID curr)) (set_join_cv (KERNEL_THREAD_ID curr));;
  unlock_threads;;
  thread_yield me.

(** The result is the error, or the identifier that is stored through [tid]. *)
Definition thread_create (entry a : Z) : K tm (Z + Z) :=
  KASSERT (negb (entry =? 0));;
  lock_threads;;
  n ← thread_alloc;
  match n : option Z with
  | None => unlock_threads;; mret (inl (err EAGAIN))
  | Some i =>
      kstack ← get_page;
      if kstack =? 0 then unlock_threads;; mret (inl (err EAGAIN)) else
      ustack ← get_page;
      if ustack =? 0 then put_page kstack;; unlock_threads;; mret (inl (err EAGAIN)) else
      _tid ← kgets next_tid;
      kmodify (tm_set_next_tid (_tid + 1));;
      let utid := USER_THREAD_ID i in
      thread_update i (fun h => Thread _tid (coreid h) (state h) a entry (ctx h) None);;
      u ← kgets ustacks;
      k ← kgets kstacks;
      _ ← kunwrap (aget u utid);
      _ ← kunwrap (aget k utid);
      kmodify (tm_set_stacks (aset utid ustack u) (aset utid kstack k));;
      x ← kgets (fun s => context_create ustack kstack (tm_cores s));
      thread_update i (set_ctx x);;
      KASSERT (negb (x =? 0));;
      thread_schedule i;;
      unlock_threads;;
      mret (inr _tid)
  end.

(** ** Joining *)

(** [thread_join] up to the point where it returns, or sleeps until thread [i]
    terminates ([inl i]). *)
Definition thread_join_begin (me tid' : Z) : K tm (Z + unit) :=
  KASSERT (KTHREAD_NULL_TID <? tid');;
  c ← thread_get_curr me;
  curr ← deref c;
  h ← thread_read curr;
  KASSERT (negb (tid' =? tid h));;
  KASSERT (negb (tid' =? KTHREAD_MASTER_TID));;
  lock_threads;;
  o ← thread_get tid';
  match o : option Z with
  | None => mret (inr tt)
  | Some i =>
      hi ← thread_read i;
      if decide (state hi = THREAD_NOT_STARTED \/ state hi = THREAD_TERMINATED \/ state hi = THREAD_ZOMBIE)
      then mret (inr tt)
      else
        cond_wait_begin (join_cv (KERNEL_THREAD_ID i)) (set_join_cv (KERNEL_THREAD_ID i)) curr unlock_threads;;
        mret (inl i)
  end.

(** The rest of [thread_join], with the lock held: the result and the exit value. *)
Definition thread_join_end (tid' : Z) : K tm (Z * Z) :=
  n ← kgets next_tid;
  v ← thread_search_retval tid';
  unlock_threads;;
  mret (if tid' <? n then (0, v) else (err EINVAL, 0)).

(** ** Initialisation *)

Fixpoint start_core (coreid : Z) (trials : nat) : K tm Z :=
  match trials with
  | O => mret (err EBUSY)
  | S n =>
      r ← kgets (fun s => core_start coreid (tm_cores s));
      kmodify (tm_set_cores (snd r));;
      if (fst r =? err EBUSY) && negb (Nat.eqb n 0) then start_core coreid n else mret (fst r)
  end.

Definition init_idle (core : Z) : K tm unit :=
  o ← thread_alloc;
  i ← match o : option Z with Some i => mret i | None => kpanic end;
  id ← kgets next_tid;
  kmodify (tm_set_next_tid (id + 1));;
  KASSERT (id =? core);;
  thread_update i (fun h => Thread id core THREAD_RUNNING 0 thread_idle_addr (ctx h) None);;
  KASSERT (KERNEL_THREAD_ID i =? core);;
  ret ← start_core core (Z.to_nat THREAD_CREATE_NTRIALS);
  KASSERT (ret =? 0).

Definition thread_init : K tm unit :=
  KASSERT (IDLE_THREAD_MAX =? CORES_NUM - 1);;
  n ← kgets nthreads;
  KASSERT (n =? 1);;
  kmodify (tm_set_stacks (replicate (Z.to_nat THREAD_MAX) 0) (replicate (Z.to_nat THREAD_MAX) 0));;
  kmodify (tm_set_fence true);;
  kfor (Z.to_nat IDLE_THREAD_MAX) 1 (fun core _ => init_idle core;; mret (tt, false)) tt.

End thread.
