(* ===== verification/ThreadSpec.v ===== *)
(** The invariant of the thread system and the effect of scheduling on it. *)

From S2P Require Import Prelude.
From S2P Require Import Hlib.
From S2P Require Import MemLayout.
From S2P Require Import Kpool.
From S2P Require Import ThreadBase.
From S2P Require Import Cond.
From S2P Require Import CondSpec.
From S2P Require Import Thread.

(** What the thread system relies on: contexts live in kernel memory. *)
Class CoreHwLaws `(C : CoreHw) `{MemLayout} (t : mm_target) : Prop := {
  cores_many : 1 < CORES_NUM;
  context_create_ok u k c : context_create u k c <> 0 /\ mm_is_kaddr_on t (context_create u k c) = true;
  context_save_ok me c : context_save me c <> 0 /\ mm_is_kaddr_on t (context_save me c) = true;
  thread_ctx_ok i : thread_ctx_addr i <> 0 /\ mm_is_kaddr_on t (thread_ctx_addr i) = true;
}.

(** The threads without their links. *)
Definition strip (l : list thread) : list thread := map (set_next None) l.

Lemma strip_aget l i : aget (strip l) i = set_next None <$> aget l i.
Proof. unfold strip, aget. case_bool_decide; [|done]. apply list_lookup_fmap. Qed.

Lemma strip_aset l i h : strip (aset i h l) = aset i (set_next None h) (strip l).
Proof. unfold strip, aset. case_bool_decide; [|done]. apply list_fmap_insert. Qed.

Lemma strip_aset_next l i h p : aget l i = Some h -> strip (aset i (set_next p h) l) = strip l.
Proof. intros Hi. rewrite strip_aset. apply aset_id. by rewrite strip_aget, Hi. Qed.

Lemma length_strip l : length (strip l) = length l.
Proof. apply length_map. Qed.

#[export] Instance queue_sem_lens `{CoreHw} : TmLens queue_sem set_queue_sem.
Proof. split; try done. intros x s [= <-]. by destruct s as [? ? ? ? ? ? ? ? []]. Qed.

#[export] Instance join_cv_lens `{CoreHw} i : TmLens (join_cv i) (set_join_cv i).
Proof.
  split; unfold join_cv, set_join_cv; simpl; try done.
  - intros x x' s Hx. by eapply aget_aset_same.
  - intros x x' s _. unfold tm_set_joincond. simpl. by rewrite aset_aset_eq.
  - intros x s Hx. rewrite aset_id by done. by destruct s.
Qed.

Section spec.
Context `{H : Hlib} `{C : CoreHw} `{ML : MemLayout} (t : mm_target).

(** ** The invariant *)

(** The scheduling queue holds the threads [q]. *)
Record queue_ok (s : tm) (q : list Z) : Prop := {
  qo_size : sq_size (sched_queue s) = alen q;
  qo_head : linked (threads s) (sq_head (sched_queue s)) q;
  qo_tail : q <> [] -> sq_tail (sched_queue s) = last q;
}.

(** The threads on the list of a condition variable are among [A]. *)
Definition cond_ok (l : list thread) (A : gset Z) (c : condvar) : Prop :=
  cv_lock c = false /\ exists w, linked l (cv_queue c) w /\ forall i, i ∈ w -> i ∈ A.

Record chains_ok (s : tm) (A : gset Z) : Prop := {
  ch_sem : sem_lock (sq_sem (sched_queue s)) = false /\ cond_ok (threads s) A (sem_cond (sq_sem (sched_queue s)));
  ch_join j c : aget (joincond s) j = Some c -> cond_ok (threads s) A c;
  ch_sleep k id c : aget (sl_queues (tm_sleep s)) k = Some (id, c) -> cond_ok (threads s) A c;
}.

Definition ctx_saved (h : thread) : Prop := ctx h <> 0 /\ mm_is_kaddr_on t (ctx h) = true.
Definition runs (l : list thread) (me i : Z) : Prop :=
  exists h, aget l i = Some h /\ state h = THREAD_RUNNING /\ coreid h = me.
Definition is_user (i : Z) : Prop := SYS_THREAD_MAX ≤ i < KTHREAD_MAX.

(** The states of the threads, for the threads [q] in the queue and [A] asleep. *)
Record tab_ok (l : list thread) (q : list Z) (A : gset Z) : Prop := {
  to_length : alen l = KTHREAD_MAX;
  to_ready i h : i ∈ q -> aget l i = Some h ->
    is_user i /\ coreid h = -1 /\ (state h = THREAD_STARTED \/ state h = THREAD_STOPPED) /\ ctx_saved h /\ 0 < tid h;
  to_stopped i h : aget l i = Some h -> is_user i -> state h = THREAD_STOPPED -> i ∈ q;
  to_running i h : aget l i = Some h -> state h = THREAD_RUNNING ->
    0 ≤ coreid h < CORES_NUM /\ (i = coreid h \/ is_user i /\ coreid h <> 0) /\ (coreid h <> 0 -> ctx h = 0 /\ 0 < tid h);
  to_one c : 0 ≤ c < CORES_NUM -> exists i, runs l c i;
  to_unique c i j : runs l c i -> runs l c j -> i = j;
  to_idle c h : 1 ≤ c < CORES_NUM -> aget l c = Some h -> coreid h = c /\ 0 < tid h /\
    (state h = THREAD_RUNNING \/ state h = THREAD_STOPPED /\ ctx_saved h);
  to_alive i h : aget l i = Some h -> state h <> THREAD_TERMINATED /\ state h <> THREAD_ZOMBIE;
  to_asleep i : i ∈ A -> exists c, runs l c i;
}.

(** Links point into the table. *)
Definition links_ok (l : list thread) : Prop :=
  forall i h z, aget l i = Some h -> next h = Some z -> 0 ≤ z < alen l.

Record sched_ok (s : tm) (q : list Z) (A : gset Z) : Prop := {
  so_lock : lock_tm s = false;
  so_queue : queue_ok s q;
  so_chains : chains_ok s A;
  so_tab : tab_ok (strip (threads s)) q A;
  so_links : links_ok (threads s);
  so_join : alen (joincond s) = KTHREAD_MAX;
  so_sleep : sl_lock (tm_sleep s) = false /\ alen (sl_queues (tm_sleep s)) = KTHREAD_MAX;
  so_stacks : alen (ustacks s) = THREAD_MAX /\ alen (kstacks s) = THREAD_MAX;
  so_pool : kpool_wf (tm_pool s);
  so_tid : 0 < next_tid s;
  so_exits : alen (exit_values s) = KTHREAD_EXIT_VALUE_NUM /\ 0 ≤ next_exit_value s < KTHREAD_EXIT_VALUE_NUM;
}.

(** What an operation on the queue leaves alone. *)
Definition same_rest (s s' : tm) : Prop :=
  lock_tm s' = lock_tm s /\ joincond s' = joincond s /\ tm_sleep s' = tm_sleep s /\ nthreads s' = nthreads s /\ next_tid s' = next_tid s /\
  ustacks s' = ustacks s /\ kstacks s' = kstacks s /\ exit_values s' = exit_values s /\
  next_exit_value s' = next_exit_value s /\ tm_pool s' = tm_pool s.

Context {HL : HlibLaws H}.

(** ** The queue *)

Lemma wp_lock_threads Q s : lock_tm s = false -> Q tt (tm_set_lock true s) -> wp lock_threads Q s.
Proof. intros. unfold lock_threads. by wp_step. Qed.

Lemma linked_strip l l' p w :
  linked l p w -> (forall i h, i ∈ w -> aget l i = Some h -> exists h', aget l' i = Some h' /\ next h' = next h) ->
  linked l' p w.
Proof.
  revert p. induction w as [|i w IH]; intros p; simpl; [done|]. intros (-> & h & Hh & Hw) Heq. split; [done|].
  destruct (Heq i h) as (h' & Hh' & Hn); [set_solver|done|]. exists h'. split; [done|]. rewrite Hn. apply IH; [done|].
  intros j hj Hj. apply Heq. set_solver.
Qed.

(** A change of the table that leaves the links of the sleeping threads alone. *)
Lemma cond_ok_set l l' A c :
  cond_ok l A c ->
  (forall i h, i ∈ A -> aget l i = Some h -> exists h', aget l' i = Some h' /\ next h' = next h) -> cond_ok l' A c.
Proof.
  intros [Hl (w & Hw & HA)] Hk. split; [done|]. exists w. split; [|done]. eapply linked_strip; [done|]. auto.
Qed.

Lemma cond_ok_empty l A : cond_ok l A (Condvar false None).
Proof. split; [done|]. exists []. split; [done|]. by intros ? ?%not_elem_of_nil. Qed.

Lemma cond_ok_mono l A A' c : cond_ok l A c -> (forall i, i ∈ A -> i ∈ A') -> cond_ok l A' c.
Proof. intros [Hl (w & Hw & HA)] Hsub. split; [done|]. exists w. auto. Qed.

(** Thread [i] goes to sleep on a list; the other lists are not affected. *)
Lemma cond_ok_push l A c i h :
  cond_ok l A c -> aget l i = Some h -> i ∉ A ->
  cond_ok (aset i (set_next (cv_queue c) h) l) ({[i]} ∪ A) (Condvar false (Some i)).
Proof.
  intros [_ (w & Hw & HA)] Hi HiA. split; [done|]. exists (i :: w). split; [|set_solver]. simpl. split; [done|].
  eexists. split; [by eapply aget_aset_same|]. simpl. apply linked_other; [|done]. auto.
Qed.

Lemma cond_ok_other l A c i h : cond_ok l A c -> i ∉ A -> cond_ok (aset i h l) ({[i]} ∪ A) c.
Proof.
  intros [Hl (w & Hw & HA)] HiA. split; [done|]. exists w. split; [|set_solver]. apply linked_other; [|done]. auto.
Qed.

Lemma cond_head l A c z : cond_ok l A c -> cv_queue c = Some z -> 0 ≤ z < alen l.
Proof.
  intros [_ (w & Hw & _)] E. rewrite E in Hw. destruct w as [|i w]; [done|]. destruct Hw as ([= ->] & h & Hh & _). by eapply aget_lt.
Qed.

Lemma chains_ok_set s s' A :
  chains_ok s A -> joincond s' = joincond s -> tm_sleep s' = tm_sleep s -> sq_sem (sched_queue s') = sq_sem (sched_queue s) ->
  (forall i h, i ∈ A -> aget (threads s) i = Some h -> exists h', aget (threads s') i = Some h' /\ next h' = next h) ->
  chains_ok s' A.
Proof.
  intros [[Hu Hs] Hj Hsl] Ej El Es Hk. split; rewrite ?Es, ?Ej, ?El.
  - split; [done|]. by eapply cond_ok_set.
  - intros j c Hc. eapply cond_ok_set; [by eapply Hj|done].
  - intros k id c Hc. eapply cond_ok_set; [by eapply Hsl|done].
Qed.

Lemma links_ok_set l i h :
  links_ok l -> (forall z, next h = Some z -> 0 ≤ z < alen l) -> links_ok (aset i h l).
Proof.
  intros Hl Hn k hk z Hk Hz. rewrite length_aset. destruct (decide (i = k)) as [<-|].
  - pose proof (aget_lt _ _ _ Hk) as Hlt. rewrite length_aset in Hlt. rewrite aget_aset_eq in Hk by done.
    injection Hk as <-. by apply Hn.
  - rewrite aget_aset_ne in Hk by done. by eapply Hl.
Qed.

Lemma links_ok_keep l i h h' : links_ok l -> aget l i = Some h -> next h' = next h -> links_ok (aset i h' l).
Proof. intros Hl Hi Hn. apply links_ok_set; [done|]. intros z. rewrite Hn. by eapply Hl. Qed.

(** The table after [i] has been linked behind the tail of [q]. *)
Definition link_tail (q : list Z) (i : Z) (l : list thread) : list thread :=
  match last q with
  | Some z => match aget l z with Some hz => aset z (set_next (Some i) hz) l | None => l end
  | None => l
  end.

Lemma link_tail_other q i l j : j ∉ q -> aget (link_tail q i l) j = aget l j.
Proof.
  intros Hj. unfold link_tail. destruct (last q) as [z|] eqn:E; [|done]. destruct (aget l z) as [hz|]; [|done].
  rewrite aget_aset_ne; [done|]. intros ->. apply Hj. apply last_Some in E as [q' ->]. set_solver.
Qed.

Lemma link_tail_strip q i l : strip (link_tail q i l) = strip l.
Proof.
  unfold link_tail. destruct (last q) as [z|]; [|done]. destruct (aget l z) as [hz|] eqn:E; [|done].
  by apply strip_aset_next.
Qed.

Lemma link_tail_links q i l : links_ok l -> 0 ≤ i < alen l -> links_ok (link_tail q i l).
Proof.
  intros Hl Hi. unfold link_tail. destruct (last q) as [z|]; [|done]. destruct (aget l z) as [hz|]; [|done].
  apply links_ok_set; [done|]. by intros y [= <-].
Qed.

Lemma length_link_tail q i l : length (link_tail q i l) = length l.
Proof. unfold link_tail. repeat case_match; try done. by rewrite length_aset. Qed.

Lemma link_tail_linked q i l p h h' :
  linked l p q -> i ∉ q -> aget l i = Some h -> next h' = None ->
  linked (aset i h' (link_tail q i l)) (if alen q =? 0 then Some i else p) (q ++ [i]).
Proof.
  intros Hq Hi Hh Hn. assert (Hh1 : aget (link_tail q i l) i = Some h) by (by rewrite link_tail_other).
  destruct q as [|z q _] using rev_ind.
  { simpl. split; [done|]. exists h'. split; [by eapply aget_aset_same|done]. }
  rewrite length_app. simpl. rewrite (proj2 (Z.eqb_neq _ _)) by lia. rewrite <- app_assoc. simpl.
  destruct (linked_elem _ _ _ z Hq) as [hz Hz]; [set_solver|].
  pose proof (linked_snoc l p q z i hz h Hq Hi Hz Hh) as Hl.
  unfold link_tail in *. rewrite last_snoc, Hz in *.
  replace (aset i h' (aset z (set_next (Some i) hz) l))
    with (aset i h' (aset i (set_next None h) (aset z (set_next (Some i) hz) l))) by apply aset_aset_eq.
  eapply linked_keep; [by eapply aget_aset_same|by rewrite Hn|exact Hl].
Qed.

Lemma schedule_tail_spec q i s (Q : unit -> tm -> Prop) :
  queue_ok s q -> Q tt (tm_set_threads (link_tail q i (threads s)) s) ->
  wp (if sq_size (sched_queue s) =? 0 then mret tt
      else last ← deref (sq_tail (sched_queue s)); thread_update last (set_next (Some i))) Q s.
Proof.
  intros [Hsz Hhd Htl] HQ. rewrite Hsz. unfold link_tail in HQ. destruct q as [|z q _] using rev_ind; [by destruct s|].
  rewrite length_app. simpl. rewrite (proj2 (Z.eqb_neq _ _)) by lia.
  rewrite last_snoc in HQ. rewrite Htl, last_snoc by (by destruct q). wp_step. unfold deref. wp_step; [done|].
  destruct (linked_elem _ _ _ z Hhd) as [hz Hz]; [set_solver|]. rewrite Hz in HQ.
  eapply wp_thread_update; [exact Hz|done].
Qed.

Lemma thread_schedule_spec i h s q A :
  queue_ok s q -> chains_ok s A -> aget (threads s) i = Some h -> is_user i -> i ∉ q -> i ∉ A ->
  (forall j, j ∈ q -> j ∉ A) ->
  wp (thread_schedule i) (fun _ s' =>
    queue_ok s' (q ++ [i]) /\ chains_ok s' A /\ same_rest s s' /\ (links_ok (threads s) -> links_ok (threads s')) /\
    strip (threads s') = aset i (set_coreid (-1) (set_next None h)) (strip (threads s))) s.
Proof.
  intros Hqok Hch Hi Hu Hq HA HqA. unfold thread_schedule.
  wp_step. wp_step; [unfold is_user_thread; apply WITHIN_true; unfold is_user, KTHREAD_MAX in Hu; lia|].
  wp_step. wp_step. wp_step. apply (schedule_tail_spec q); [done|]. set (l1 := link_tail q i (threads s)).
  assert (Hi1 : aget l1 i = Some h) by (unfold l1; by rewrite link_tail_other).
  wp_step. eapply wp_thread_update; [exact Hi1|]. set (h' := set_coreid (-1) (set_next None h)).
  set (l2 := aset i h' l1). wp_step. wp_step. set (s2 := tm_set_queue _ _).
  assert (Hch2 : chains_ok s2 A).
  { apply (chains_ok_set s); [done|done|done|done|]. intros j hj Hj Hjh. exists hj. split; [|done]. simpl. unfold l2, l1.
    rewrite aget_aset_ne by set_solver. rewrite link_tail_other; [done|]. intros Hjq. by apply (HqA j). }
  destruct Hch2 as [[Hun [Hul (w & Hw & HwA)]] Hjn Hsl].
  eapply (semaphore_up_spec queue_sem set_queue_sem); [done|by split|exact Hw|].
  split_and!; [|split; simpl|done| |simpl].
  - destruct Hqok as [Hsz Hhd Htl]. split; simpl; [rewrite Hsz, length_app; simpl; lia| |by rewrite last_snoc].
    rewrite Hsz. by eapply link_tail_linked.
  - split; [done|]. apply cond_ok_empty.
  - exact Hjn.
  - exact Hsl.
  - intros Hl. simpl. apply links_ok_set; [|done]. apply link_tail_links; [done|]. by eapply aget_lt.
  - unfold l2, l1. by rewrite strip_aset, link_tail_strip.
Qed.

(** Taking the head of the queue. *)
Lemma queue_ok_tail s j q h hj me :
  queue_ok s (j :: q) -> aget (threads s) j = Some hj -> h = set_coreid me (set_next None hj) ->
  let sq := sched_queue s in
  queue_ok (tm_set_threads (aset j h (threads s))
    (tm_set_queue (ScheduleQueue (sq_size sq - 1) (next hj) (sq_tail sq) (sq_sem sq)) s)) q.
Proof.
  intros [Hsz Hhd Htl] Hj -> sq. pose proof (linked_nodup _ _ _ Hhd) as [Hnj _]%NoDup_cons.
  destruct Hhd as (E & h' & Hh' & Hq). rewrite Hj in Hh'. injection Hh' as <-. split; simpl.
  - unfold sq. rewrite Hsz. simpl. lia.
  - by apply linked_other.
  - intros Hne. unfold sq. rewrite Htl by done. by destruct q.
Qed.

(** ** Facts from the invariant *)

Lemma get_curr_running me i l k c :
  aget l (k - i) = Some c -> i ≤ k -> coreid c = me -> state c = THREAD_RUNNING ->
  (forall j h, aget l (j - i) = Some h -> i ≤ j -> coreid h = me -> state h = THREAD_RUNNING -> j = k) ->
  forall p, get_curr me i l p = Some k.
Proof.
  revert i. induction l as [|h l IH]; intros i Hk Hle Hc Hs Hone p; [by unfold aget in Hk; case_bool_decide|]. simpl.
  destruct (decide (i = k)) as [->|Hne].
  { rewrite Z.sub_diag in Hk. injection Hk as ->. rewrite Hc, Z.eqb_refl. simpl. by rewrite decide_True. }
  assert (Hrest : forall p, get_curr me (i + 1) l p = Some k).
  { apply IH; [|lia|done|done|].
    - rewrite aget_cons_S in Hk by lia. by replace (k - (i + 1)) with (k - i - 1) by lia.
    - intros j hj Hj Hij. apply (Hone j hj); [|lia]. rewrite aget_cons_S by lia. by replace (j - i - 1) with (j - (i + 1)) by lia. }
  destruct (coreid h =? me) eqn:Ec; simpl; [|apply Hrest]. destruct (decide (state h = THREAD_RUNNING)); [|apply Hrest].
  exfalso. apply Hne. apply (Hone i h); [by rewrite Z.sub_diag|lia|by apply Z.eqb_eq|done].
Qed.

Lemma runs_strip l me i : runs (strip l) me i <-> runs l me i.
Proof.
  unfold runs. rewrite strip_aget. destruct (aget l i) as [h|]; simpl; naive_solver.
Qed.

Lemma get_curr_spec l me i :
  runs l me i -> (forall j, runs l me j -> j = i) -> get_curr me 0 l None = Some i.
Proof.
  intros (h & Hh & Hs & Hc) Hone. apply (get_curr_running me 0 l i h); try done.
  - by rewrite Z.sub_0_r.
  - apply aget_lt in Hh. lia.
  - intros j hj Hj _ Hcj Hsj. apply Hone. exists hj. by rewrite Z.sub_0_r in Hj.
Qed.

Lemma tab_ready_awake l q A j : tab_ok l q A -> j ∈ q -> j ∉ A.
Proof.
  intros Ht Hj HA. destruct (to_asleep _ _ _ Ht j HA) as (c & h & Hh & Hs & _).
  destruct (to_ready _ _ _ Ht j h Hj Hh) as (_ & _ & [?|?] & _); congruence.
Qed.

Lemma tab_running_free l q A me i : tab_ok l q A -> runs l me i -> i ∉ q.
Proof.
  intros Ht (h & Hh & Hs & _) Hi. destruct (to_ready _ _ _ Ht i h Hi Hh) as (_ & _ & [?|?] & _); congruence.
Qed.

Lemma tab_one_curr s q A me i :
  tab_ok (strip (threads s)) q A -> runs (threads s) me i -> get_curr me 0 (threads s) None = Some i.
Proof.
  intros Ht Hi. apply get_curr_spec; [done|]. intros j Hj. eapply (to_unique _ _ _ Ht me); by apply runs_strip.
Qed.

(** ** Choosing the next thread *)

(** The queue after thread [i] of core [me] gave way to its head. *)
Definition requeue (me i : Z) (q : list Z) : list Z := if i =? me then q else q ++ [i].

Definition give_way (me i : Z) (h : thread) : thread :=
  if i =? me then set_state THREAD_STOPPED h else set_coreid (-1) (set_state THREAD_STOPPED h).

Definition take_over (me : Z) (h : thread) : thread := set_state THREAD_RUNNING (set_coreid me h).

Lemma yield_next_spec me i s j q A hi hj :
  queue_ok s (j :: q) -> chains_ok s A -> i ∉ j :: q -> (forall k, k ∈ j :: q -> k ∉ A) -> i = me \/ is_user i ->
  aget (threads s) i = Some hi -> state hi = THREAD_RUNNING -> coreid hi = me -> i ∉ A ->
  aget (threads s) j = Some hj ->
  wp (yield_next me i me) (fun n s' => n = j /\
    queue_ok s' (requeue me i q) /\ chains_ok s' A /\ same_rest s s' /\ (links_ok (threads s) -> links_ok (threads s')) /\
    strip (threads s') = aset i (give_way me i (set_next None hi)) (aset j (set_coreid me (set_next None hj)) (strip (threads s)))) s.
Proof.
  intros Hq Hch Hijq HqA Hwho Hi Hsi Hci HiA Hj. unfold yield_next. wp_step. wp_step.
  assert (Esz : (sq_size (sched_queue s) =? 0) = false) by (by rewrite (qo_size _ _ Hq)). rewrite Esz. simpl negb. cbv iota.
  pose proof (qo_head _ _ Hq) as (Eh & _). wp_step. unfold deref. wp_step; [exact Eh|].
  wp_step. eapply wp_thread_read; [exact Hj|]. wp_step. wp_step. wp_step. eapply wp_thread_update; [exact Hj|].
  set (s2 := tm_set_threads _ _).
  assert (Hq2 : queue_ok s2 q) by (by apply (queue_ok_tail s j q _ hj me)).
  apply not_elem_of_cons in Hijq as [Hij Hiq].
  assert (Hch2 : chains_ok s2 A).
  { apply (chains_ok_set s); [done|done|done|done|]. intros k hk Hk Hkh. exists hk. split; [|done]. simpl.
    rewrite aget_aset_ne; [done|]. intros <-. by apply (HqA j); [set_solver|]. }
  assert (Hi2 : aget (threads s2) i = Some hi) by (simpl; by rewrite aget_aset_ne).
  wp_step. eapply wp_thread_read; [exact Hi2|]. rewrite decide_False by congruence. wp_step. wp_step.
  eapply wp_thread_update; [exact Hi2|]. set (s3 := tm_set_threads _ s2).
  assert (Hi3 : aget (threads s3) i = Some (set_state THREAD_STOPPED hi)) by (simpl; by eapply aget_aset_same).
  assert (Hq3 : queue_ok s3 q).
  { destruct Hq2 as [Z1 Z2 Z3]. split; [done| |done]. by eapply linked_keep. }
  assert (Hch3 : chains_ok s3 A).
  { apply (chains_ok_set s2); [done|done|done|done|]. intros k hk Hk Hkh. exists hk. split; [|done]. cbn [threads s3 tm_set_threads].
    rewrite aget_aset_ne; [done|]. by intros <-. }
  assert (Hl3 : links_ok (threads s) -> links_ok (threads s3)).
  { intros Hl. apply (links_ok_keep _ i hi); [|done|done]. by apply links_ok_set. }
  unfold requeue, give_way. destruct (i =? me) eqn:Eim.
  - wp_step. wp_step. split_and!; try done. simpl. rewrite !strip_aset. done.
  - eapply wp_mono; [apply (thread_schedule_spec i (set_state THREAD_STOPPED hi) s3 q A); try done|].
    + apply Z.eqb_neq in Eim. by destruct Hwho.
    + intros k Hk. apply HqA. set_solver.
    + intros [] s' (Z1 & Z2 & Z3 & Zl & Z4). wp_step. split_and!; try done; [by auto|]. rewrite Z4. simpl. rewrite !strip_aset. simpl.
      by rewrite aset_aset_eq.
Qed.

(** ** Handing a core over *)

Definition ready (i : Z) (h : thread) : Prop :=
  is_user i /\ coreid h = -1 /\ (state h = THREAD_STARTED \/ state h = THREAD_STOPPED) /\ ctx_saved h /\ 0 < tid h.

Lemma aget_two {X} (l : list X) i j hi hj x y k :
  aget l i = Some hi -> aget l j = Some hj -> i <> j ->
  aget (aset j y (aset i x l)) k = if decide (k = j) then Some y else if decide (k = i) then Some x else aget l k.
Proof.
  intros Hi Hj Hne. destruct (decide (k = j)) as [->|].
  - eapply aget_aset_same. by rewrite aget_aset_ne.
  - rewrite aget_aset_ne by done. destruct (decide (k = i)) as [->|]; [by eapply aget_aset_same|by rewrite aget_aset_ne].
Qed.

Lemma aset_pair {X} (l : list X) i j a b c d :
  j <> i -> aset j a (aset i b (aset j c (aset i d l))) = aset j a (aset i b l).
Proof. intros Hne. by rewrite (aset_comm _ i j), aset_aset_eq, aset_aset_eq by done. Qed.

(** Core [me] passes from thread [i] to thread [j]. *)
Record handover (me i j : Z) (q q' : list Z) (hi' hj' : thread) : Prop := {
  ho_next : state hj' = THREAD_RUNNING /\ coreid hj' = me /\ ctx hj' = 0 /\ 0 < tid hj' /\ (j = me \/ is_user j);
  ho_prev : state hi' <> THREAD_RUNNING /\ state hi' <> THREAD_TERMINATED /\ state hi' <> THREAD_ZOMBIE;
  ho_idle : i = me -> coreid hi' = me /\ 0 < tid hi' /\ state hi' = THREAD_STOPPED /\ ctx_saved hi';
  ho_prev_queue : i ∈ q' -> ready i hi';
  ho_prev_stopped : is_user i -> state hi' = THREAD_STOPPED -> i ∈ q';
  ho_next_queue : j ∉ q';
  ho_others k : k <> i -> k <> j -> k ∈ q' <-> k ∈ q;
}.

Lemma tab_handover l q A me i j hi hj hi' hj' q' :
  tab_ok l q A -> runs l me i -> aget l i = Some hi -> aget l j = Some hj -> i <> j -> state hj <> THREAD_RUNNING ->
  0 < me < CORES_NUM -> i ∉ A -> handover me i j q q' hi' hj' ->
  tab_ok (aset j hj' (aset i hi' l)) q' A.
Proof.
  intros Ht Hru Hi Hj Hne Hsj Hme HiA Ho. set (l' := aset j hj' (aset i hi' l)).
  pose proof (fun k => aget_two l i j hi hj hi' hj' k Hi Hj Hne) as Hget. fold l' in Hget.
  destruct Ho as [(S1 & S2 & S3 & S4 & S5) (P1 & P2 & P3) Hidle Hpq Hps Hnq Hoth].
  assert (Hruns : forall c k, runs l' c k <-> (k = j /\ c = me) \/ (k <> i /\ k <> j /\ runs l c k)).
  { intros c k. unfold runs. rewrite Hget. destruct (decide (k = j)) as [->|]; [naive_solver|].
    destruct (decide (k = i)) as [->|]; naive_solver. }
  split.
  - unfold l'. rewrite !length_aset. apply Ht.
  - intros k h Hk. rewrite Hget. destruct (decide (k = j)) as [->|]; [done|].
    destruct (decide (k = i)) as [->|]; [intros [= <-]; by apply Hpq|]. intros Hh. eapply (to_ready _ _ _ Ht); [by apply Hoth|done].
  - intros k h. rewrite Hget. destruct (decide (k = j)) as [->|]; [intros [= <-]; congruence|].
    destruct (decide (k = i)) as [->|]; [intros [= <-]; apply Hps|]. intros Hh Hu Hs. apply Hoth; [done..|]. by eapply (to_stopped _ _ _ Ht).
  - intros k h. rewrite Hget. destruct (decide (k = j)) as [->|].
    { intros [= <-] _. rewrite S2. split; [lia|]. split; [|done]. destruct S5 as [->|]; [by left|right; split; [done|lia]]. }
    destruct (decide (k = i)) as [->|]; [by intros [= <-]|]. apply (to_running _ _ _ Ht).
  - intros c Hc. destruct (to_one _ _ _ Ht c Hc) as [k Hk]. destruct (decide (k = i)) as [->|].
    + exists j. apply Hruns. left. split; [done|]. destruct Hk as (h & Hh & _ & E), Hru as (h' & Hh' & _ & E'). congruence.
    + exists k. apply Hruns. right. split; [done|]. split; [|done]. intros ->. destruct Hk as (h & Hh & E & _). congruence.
  - intros c k1 k2. rewrite !Hruns. intros [[-> ->]|(N1 & N2 & R1)] [[-> E]|(N3 & N4 & R2)]; try done.
    + exfalso. apply N3. by eapply (to_unique _ _ _ Ht me).
    + subst c. exfalso. apply N1. by eapply (to_unique _ _ _ Ht me).
    + by eapply (to_unique _ _ _ Ht c).
  - intros c h Hc. rewrite Hget. destruct (decide (c = j)) as [->|].
    { intros [= <-]. destruct S5 as [->|Hu]; [by split_and!; [| |left]|]. unfold is_user, SYS_THREAD_MAX in Hu. lia. }
    destruct (decide (c = i)) as [->|]; [|apply (to_idle _ _ _ Ht c h Hc)].
    intros [= <-]. assert (i = me) as ->.
    { destruct Hru as (h' & Hh' & _ & E'). destruct (to_idle _ _ _ Ht i h' Hc Hh') as (E & _). congruence. }
    destruct (Hidle eq_refl) as (Z1 & Z2 & Z3 & Z4). split_and!; [done|done|by right].
  - intros k h. rewrite Hget. destruct (decide (k = j)) as [->|]; [intros [= <-]; rewrite S1; done|].
    destruct (decide (k = i)) as [->|]; [by intros [= <-]|]. apply (to_alive _ _ _ Ht).
  - intros k Hk. destruct (to_asleep _ _ _ Ht k Hk) as [c Hc]. exists c. apply Hruns. right.
    split; [by intros ->|]. split; [|done]. intros ->. destruct Hc as (h & Hh & E & _). congruence.
Qed.

Lemma sched_ok_rest s s' q q' A A' :
  sched_ok s q A -> same_rest s s' -> queue_ok s' q' -> chains_ok s' A' -> tab_ok (strip (threads s')) q' A' ->
  links_ok (threads s') -> sched_ok s' q' A'.
Proof.
  intros [Hl _ _ _ _ Hj Hsl Hst Hp Ht He] (E1 & E2 & E0 & E3 & E4 & E5 & E6 & E7 & E8 & E9) Hq Hc Htab Hlinks.
  split; try done; rewrite ?E0, ?E1, ?E2, ?E4, ?E5, ?E6, ?E7, ?E8, ?E9; done.
Qed.

(** The thread of which [h] is what remains without its link. *)
Lemma strip_aget_inv l i h : aget (strip l) i = Some h -> exists h', aget l i = Some h' /\ h = set_next None h'.
Proof. rewrite strip_aget. destruct (aget l i) as [h'|]; [|done]. intros [= <-]. by exists h'. Qed.

Lemma reap_nothing i h s :
  lock_tm s = false -> aget (threads s) i = Some h -> links_ok (threads s) ->
  (forall z hz, aget (threads s) z = Some hz -> state hz <> THREAD_ZOMBIE) ->
  wp (yield_reap i) (fun _ s' => s' = s) s.
Proof.
  intros Hl Hi Hlinks Hz. unfold yield_reap. wp_step. apply wp_lock_threads; [done|]. wp_step.
  eapply wp_thread_read; [exact Hi|]. wp_step. destruct s; simpl in *; subst.
  destruct (next h) as [z|] eqn:En; [|by wp_step; unfold unlock_threads; wp_step].
  destruct (aget_is_Some _ z (Hlinks i h z Hi En)) as [hz Hhz]. wp_step. eapply wp_thread_read; [exact Hhz|].
  rewrite decide_False by (by eapply Hz). wp_step. unfold unlock_threads. by wp_step.
Qed.

Context {CL : CoreHwLaws C t} {MLL : MemLayoutLaws ML}.

Lemma switch_spec me i j k hi hj hk s :
  get_curr me 0 (threads s) None = Some k -> aget (threads s) k = Some hk -> tid hk <> KTHREAD_MASTER_TID ->
  aget (threads s) i = Some hi -> ctx hi = 0 -> aget (threads s) j = Some hj -> ctx_saved hj -> i <> j ->
  wp (thread_switch_to t me i j) (fun r s' => r = 0 /\
    s' = tm_set_threads (aset j (set_ctx 0 hj) (aset i (set_ctx (context_save me (tm_cores s)) hi) (threads s))) s) s.
Proof.
  intros Hc Hk Htid Hi Hctx Hj [Hj0 Hjk] Hne. unfold thread_switch_to. wp_step. unfold thread_get_curr. wp_step.
  rewrite Hc. wp_step. unfold deref. wp_step; [done|]. wp_step. eapply wp_thread_read; [exact Hk|].
  rewrite (proj2 (Z.eqb_neq _ _)) by done.
  destruct (thread_ctx_ok i) as [Ai Bi], (thread_ctx_ok j) as [Aj Bj].
  rewrite (proj2 (Z.eqb_neq (thread_ctx_addr i) 0)), Bi by done. simpl. wp_step. eapply wp_thread_read; [exact Hi|].
  rewrite Hctx. simpl. rewrite (proj2 (Z.eqb_neq (thread_ctx_addr j) 0)), Bj by done. simpl.
  wp_step. eapply wp_thread_read; [exact Hj|]. rewrite (proj2 (Z.eqb_neq (ctx hj) 0)), Hjk by done. simpl.
  wp_step. wp_step. wp_step. eapply wp_thread_update; [exact Hi|]. wp_step.
  eapply wp_thread_update; [simpl; by rewrite aget_aset_ne|]. by wp_step.
Qed.

(** ** Yielding *)

Lemma thread_yield_empty s A me i :
  sched_ok s [] A -> runs (threads s) me i -> 0 < me ->
  wp (thread_yield t me) (fun r s' => r = inr i /\ s' = s) s.
Proof.
  intros Hok Hru Hme. pose proof (so_tab _ _ _ Hok) as Ht. pose proof (tab_one_curr _ _ _ _ _ Ht Hru) as Hc.
  destruct Hru as (h & Hh & Hs & Hcore).
  destruct (to_running _ _ _ Ht i (set_next None h)) as (_ & _ & Hctx); [by rewrite strip_aget, Hh|done|].
  simpl in Hctx. destruct Hctx as [Hctx Htid]; [lia|].
  unfold thread_yield. wp_step. unfold thread_get_curr. wp_step. rewrite Hc. wp_step. unfold deref. wp_step; [done|].
  wp_step. eapply wp_thread_read; [exact Hh|]. rewrite (proj2 (Z.eqb_neq _ _)) by (unfold KTHREAD_MASTER_TID; lia).
  assert (Hsel : wp (yield_select me i) (fun n s' => n = i /\ s' = s) s).
  { unfold yield_select. wp_step. eapply wp_thread_read; [exact Hh|]. wp_step. apply wp_lock_threads; [apply Hok|].
    wp_step. unfold yield_next. wp_step. wp_step. simpl. rewrite (qo_size _ _ (so_queue _ _ _ Hok)). simpl.
    wp_step. eapply wp_thread_read; [exact Hh|]. rewrite decide_False by congruence. wp_step.
    wp_step. unfold yield_retire. wp_step. eapply wp_thread_read; [exact Hh|]. rewrite decide_False by congruence. wp_step.
    wp_step. eapply wp_thread_update; [exact Hh|]. wp_step. unfold unlock_threads. wp_step. wp_step. split; [done|].
    pose proof (so_lock _ _ _ Hok) as Hl. destruct s; simpl in *. subst. unfold tm_set_threads, tm_set_lock. simpl.
    f_equal. apply aset_id. rewrite Hh. f_equal. destruct h; simpl in *. by subst. }
  wp_step. eapply wp_mono; [exact Hsel|]. intros n s1 [-> ->]. wp_step. unfold yield_switch. wp_step.
  eapply wp_thread_read; [exact Hh|]. wp_step. rewrite Hctx. wp_step; [done|]. rewrite Z.eqb_refl. wp_step. wp_step.
  eapply wp_thread_read; [exact Hh|]. wp_step. rewrite Hctx. wp_step; [done|]. wp_step.
  eapply wp_mono; [apply (reap_nothing i h); [apply Hok|done|apply Hok|]|].
  - intros z hz Hz. apply (to_alive _ _ _ Ht z (set_next None hz)). by rewrite strip_aget, Hz.
  - intros [] s1 ->. by wp_step.
Qed.

Lemma same_rest_lock b s s' : same_rest (tm_set_lock b s) s' -> same_rest s (tm_set_lock (lock_tm s) s').
Proof. by intros (E1 & E2 & E0 & E3 & E4 & E5 & E6 & E7 & E8 & E9). Qed.

Lemma yield_select_spec me i s j q A hi hj :
  lock_tm s = false -> queue_ok s (j :: q) -> chains_ok s A -> links_ok (threads s) ->
  i ∉ j :: q -> (forall k, k ∈ j :: q -> k ∉ A) -> i = me \/ is_user i ->
  aget (threads s) i = Some hi -> state hi = THREAD_RUNNING -> coreid hi = me -> i ∉ A ->
  aget (threads s) j = Some hj ->
  wp (yield_select me i) (fun n s' => n = j /\
    queue_ok s' (requeue me i q) /\ chains_ok s' A /\ same_rest s s' /\ links_ok (threads s') /\
    strip (threads s') = aset j (take_over me (set_next None hj)) (aset i (give_way me i (set_next None hi)) (strip (threads s)))) s.
Proof.
  intros Hlock Hq Hch Hl Hijq HqA Hwho Hi Hsi Hci HiA Hj. unfold yield_select. wp_step. eapply wp_thread_read; [exact Hi|].
  wp_step. apply wp_lock_threads; [done|]. wp_step. unfold IDLE_THREAD. rewrite Hci. eapply wp_mono.
  { apply (yield_next_spec me i (tm_set_lock true s) j q A hi hj); try done; [by destruct Hq|by destruct Hch]. }
  intros n s1 (-> & Hq1 & Hch1 & Hr1 & Hl1 & Hst1). specialize (Hl1 Hl). simpl in Hst1.
  assert (Hij : i <> j) by set_solver.
  assert (Hsi1 : aget (strip (threads s)) i = Some (set_next None hi)) by (by rewrite strip_aget, Hi).
  assert (Hsj1 : aget (strip (threads s)) j = Some (set_next None hj)) by (by rewrite strip_aget, Hj).
  destruct (strip_aget_inv (threads s1) i (give_way me i (set_next None hi))) as (hi1 & Hi1 & Ei1).
  { rewrite Hst1. eapply aget_aset_same. by rewrite aget_aset_ne. }
  destruct (strip_aget_inv (threads s1) j (set_coreid me (set_next None hj))) as (hj1 & Hj1 & Ej1).
  { rewrite Hst1, aget_aset_ne by done. by eapply aget_aset_same. }
  assert (Hs1 : state hi1 = THREAD_STOPPED).
  { apply (f_equal state) in Ei1. unfold give_way in Ei1. by destruct (i =? me). }
  wp_step. unfold yield_retire. wp_step. eapply wp_thread_read; [exact Hi1|]. rewrite decide_False by congruence. wp_step.
  wp_step. eapply wp_thread_update; [exact Hj1|]. wp_step. unfold unlock_threads. wp_step. wp_step.
  split; [done|]. simpl. split_and!.
  - destruct Hq1 as [Z1 Z2 Z3]. split; [done| |done]. simpl. by eapply linked_keep.
  - eapply (chains_ok_set s1); [done|done|done|done|]. intros k hk Hk Hkh. simpl. destruct (decide (j = k)) as [<-|].
    + rewrite Hj1 in Hkh. injection Hkh as <-. eexists. split; [by eapply aget_aset_same|done].
    + rewrite aget_aset_ne by done. by exists hk.
  - apply same_rest_lock in Hr1. by rewrite Hlock in Hr1.
  - by eapply links_ok_keep.
  - rewrite strip_aset, Hst1. rewrite (aset_comm _ i j) by done. rewrite aset_aset_eq. f_equal.
    destruct hj1, hj; simpl in *. unfold take_over. simpl. by injection Ej1 as <- <- <- <- <- <-.
Qed.

(** What a step of core [me] leaves to the other cores. *)
Definition other_cores (me : Z) (s s' : tm) : Prop :=
  forall c k, c <> me -> runs (threads s') c k <-> runs (threads s) c k.

Lemma strip_fields l i h h' : aget l i = Some h -> aget (strip l) i = Some h' -> h' = set_next None h.
Proof. intros Hh. rewrite strip_aget, Hh. by intros [= <-]. Qed.

Lemma runs_two l l' me i j hi hj x y :
  strip l' = aset j y (aset i x (strip l)) -> aget l i = Some hi -> aget l j = Some hj -> i <> j ->
  state x <> THREAD_RUNNING -> state y = THREAD_RUNNING -> coreid y = me ->
  forall c k, runs l' c k <-> (k = j /\ c = me) \/ (k <> i /\ k <> j /\ runs l c k).
Proof.
  intros E Hi Hj Hne Hx Hy Hc c k. rewrite <- (runs_strip l'), <- (runs_strip l), E. unfold runs.
  rewrite (aget_two (strip l) i j (set_next None hi) (set_next None hj)) by (rewrite ?strip_aget, ?Hi, ?Hj; done).
  destruct (decide (k = j)) as [->|]; [naive_solver|]. destruct (decide (k = i)) as [->|]; naive_solver.
Qed.

Lemma yield_switch_spec me i j hi hj s :
  get_curr me 0 (threads s) None = Some j -> 0 < tid hj ->
  aget (threads s) i = Some hi -> ctx hi = 0 -> aget (threads s) j = Some hj -> ctx_saved hj -> i <> j ->
  wp (yield_switch t me i j) (fun n s' => n = j /\
    s' = tm_set_threads (aset j (set_ctx 0 hj) (aset i (set_ctx (context_save me (tm_cores s)) hi) (threads s))) s) s.
Proof.
  intros Hc Htid Hi Hctx Hj Hsv Hne. unfold yield_switch. wp_step. eapply wp_thread_read; [exact Hi|]. wp_step.
  rewrite Hctx. wp_step; [done|]. rewrite (proj2 (Z.eqb_neq i j)) by done. wp_step.
  eapply wp_mono; [apply (switch_spec me i j j hi hj hj); try done; unfold KTHREAD_MASTER_TID; lia|].
  intros r s2 [-> ->]. by wp_step.
Qed.

(** A change of the contexts of two threads keeps the lists. *)
Lemma ctx_pair_ok s i j hi hj x y q A :
  aget (threads s) i = Some hi -> aget (threads s) j = Some hj -> i <> j ->
  queue_ok s q -> chains_ok s A -> links_ok (threads s) ->
  let s' := tm_set_threads (aset j (set_ctx y hj) (aset i (set_ctx x hi) (threads s))) s in
  queue_ok s' q /\ chains_ok s' A /\ links_ok (threads s') /\ same_rest s s' /\
  strip (threads s') = aset j (set_ctx y (set_next None hj)) (aset i (set_ctx x (set_next None hi)) (strip (threads s))).
Proof.
  intros Hi Hj Hne [Z1 Z2 Z3] Hch Hl s'. assert (Hj1 : aget (aset i (set_ctx x hi) (threads s)) j = Some hj) by (by rewrite aget_aset_ne).
  split_and!.
  - split; [done| |done]. simpl. eapply linked_keep; [exact Hj1|done|]. by eapply linked_keep.
  - eapply (chains_ok_set s); [done|done|done|done|]. intros k hk Hk Hkh. cbn [s' threads tm_set_threads].
    rewrite (aget_two _ i j hi hj) by done. destruct (decide (k = j)) as [->|]; [eexists; split; [done|]; simpl; congruence|].
    destruct (decide (k = i)) as [->|]; [eexists; split; [done|]; simpl; congruence|]. by exists hk.
  - apply (links_ok_keep _ j hj); [by eapply links_ok_keep|done|done].
  - done.
  - simpl. by rewrite !strip_aset.
Qed.

Lemma tab_no_zombie l q A : tab_ok (strip l) q A -> forall z hz, aget l z = Some hz -> state hz <> THREAD_ZOMBIE.
Proof. intros Ht z hz Hz. apply (to_alive _ _ _ Ht z (set_next None hz)). by rewrite strip_aget, Hz. Qed.

(** The thread that gives way and the thread that takes over, when both go on. *)
Lemma yield_handover me i j q hi hj x :
  0 < me < CORES_NUM -> i <> j -> i ∉ q -> j ∉ q -> coreid hi = me -> i = me \/ is_user i ->
  0 < tid hi -> ready j hj -> x <> 0 /\ mm_is_kaddr_on t x = true ->
  handover me i j (j :: q) (requeue me i q) (set_ctx x (give_way me i hi)) (set_ctx 0 (take_over me hj)).
Proof.
  intros Hme Hij Hiq Hjq Hci Hwho Hti (Huj & _ & _ & _ & Htj) Hx. unfold requeue, give_way.
  destruct (Z.eqb_spec i me) as [Ei|Ei].
  - subst i. split; simpl; try done.
    + split_and!; auto.
    + intros Hu _. unfold is_user, SYS_THREAD_MAX in Hu. lia.
    + intros k N1 N2. set_solver.
  - destruct Hwho as [?|Hu]; [done|]. split; simpl; try done.
    + split_and!; auto.
    + intros _. unfold ready. simpl. split_and!; auto.
    + intros _ _. set_solver.
    + set_solver.
    + intros k N1 N2. set_solver.
Qed.

Lemma thread_yield_next s j q A me i :
  sched_ok s (j :: q) A -> runs (threads s) me i -> 0 < me < CORES_NUM -> i ∉ A ->
  wp (thread_yield t me) (fun r s' => r = inr j /\ sched_ok s' (requeue me i q) A /\ runs (threads s') me j /\
    other_cores me s s' /\ same_rest s s') s.
Proof.
  intros Hok Hru Hme HiA. pose proof (so_tab _ _ _ Hok) as Ht. pose proof (tab_one_curr _ _ _ _ _ Ht Hru) as Hc.
  destruct Hru as (hi & Hi & Hsi & Hci). pose proof (qo_head _ _ (so_queue _ _ _ Hok)) as Hhd.
  destruct (linked_elem _ _ _ j Hhd) as [hj Hj]; [set_solver|]. pose proof (linked_nodup _ _ _ Hhd) as [Hjq _]%NoDup_cons.
  assert (Hsi1 : aget (strip (threads s)) i = Some (set_next None hi)) by (by rewrite strip_aget, Hi).
  assert (Hsj1 : aget (strip (threads s)) j = Some (set_next None hj)) by (by rewrite strip_aget, Hj).
  destruct (to_running _ _ _ Ht i _ Hsi1 Hsi) as (_ & Hwho & Hctx). simpl in Hwho, Hctx. destruct Hctx as [Hctx Htid]; [lia|].
  pose proof (to_ready _ _ _ Ht j _ ltac:(set_solver) Hsj1) as Hrj.
  assert (Hru : runs (strip (threads s)) me i) by (by exists (set_next None hi)).
  pose proof (tab_running_free _ _ _ _ _ Ht Hru) as [Hij Hiq]%not_elem_of_cons.
  unfold thread_yield. wp_step. unfold thread_get_curr. wp_step. rewrite Hc. wp_step. unfold deref. wp_step; [done|].
  wp_step. eapply wp_thread_read; [exact Hi|]. rewrite (proj2 (Z.eqb_neq _ _)) by (unfold KTHREAD_MASTER_TID; lia).
  wp_step. eapply wp_mono.
  { apply (yield_select_spec me i s j q A hi hj); try done; try apply Hok; [set_solver|intros k; by eapply tab_ready_awake|].
    destruct Hwho as [Hw|[Hw _]]; [left; congruence|by right]. }
  intros n s1 (-> & Hq1 & Hch1 & Hr1 & Hl1 & Hst1).
  set (xi := give_way me i (set_next None hi)) in *. set (xj := take_over me (set_next None hj)) in *.
  assert (Hxi : state xi = THREAD_STOPPED /\ ctx xi = 0) by (unfold xi, give_way; by destruct (i =? me)).
  destruct (strip_aget_inv (threads s1) i xi) as (hi1 & Hi1 & Ei1); [rewrite Hst1, aget_aset_ne by done; by eapply aget_aset_same|].
  destruct (strip_aget_inv (threads s1) j xj) as (hj1 & Hj1 & Ej1); [rewrite Hst1; eapply aget_aset_same; by rewrite aget_aset_ne|].
  assert (Hruns1 := runs_two (threads s) (threads s1) me i j hi hj xi xj Hst1 Hi Hj Hij
    ltac:(destruct Hxi as (-> & _); done) eq_refl eq_refl).
  assert (Hc1 : get_curr me 0 (threads s1) None = Some j).
  { apply get_curr_spec; [apply Hruns1; by left|]. intros k [[-> _]|(N1 & _ & Hk)]%Hruns1; [done|].
    exfalso. apply N1. by eapply (to_unique _ _ _ Ht me); [apply runs_strip|]. }
  destruct Hrj as (Huj & Hcj & Hstj & Hsvj & Htj).
  wp_step. eapply wp_mono; [apply (yield_switch_spec me i j hi1 hj1); try done|].
  { apply (f_equal tid) in Ej1. simpl in *. lia. }
  { apply (f_equal ctx) in Ei1. simpl in Ei1. destruct Hxi. congruence. }
  { apply (f_equal ctx) in Ej1. unfold ctx_saved in *. simpl in *. by rewrite <- Ej1. }
  intros n s2 [-> ->]. destruct (ctx_pair_ok s1 i j hi1 hj1 (context_save me (tm_cores s1)) 0 _ A Hi1 Hj1 Hij Hq1 Hch1 Hl1) as (Hq2 & Hch2 & Hl2 & Hr2 & Hst2).
  set (s2 := tm_set_threads _ s1) in *. rewrite <- Ei1, <- Ej1, Hst1 in Hst2.
  rewrite (aset_comm _ i j), !aset_aset_eq in Hst2 by done.
  assert (Hok2 : sched_ok s2 (requeue me i q) A).
  { eapply (sched_ok_rest s); [done|by destruct Hr2 as (?&?&?&?&?&?&?&?&?)|done..| |done]. rewrite Hst2.
    eapply (tab_handover _ (j :: q) A me i j); [done|done|exact Hsi1|exact Hsj1|done| |lia|done|].
    - simpl. destruct Hstj as [Hx|Hx]; simpl in Hx; congruence.
    - apply yield_handover; try done. + simpl. destruct Hwho as [Hw|[Hw _]]; [left; congruence|by right]. + apply context_save_ok. }
  assert (Hj2 : aget (threads s2) j = Some (set_ctx 0 hj1)) by (simpl; eapply aget_aset_same; by rewrite aget_aset_ne).
  wp_step. eapply wp_thread_read; [exact Hj2|]. wp_step. wp_step; [done|]. wp_step.
  eapply wp_mono; [apply (reap_nothing j _ _ (so_lock _ _ _ Hok2) Hj2 Hl2); by eapply tab_no_zombie, Hok2|].
  intros [] s3 ->. wp_step.
  assert (Hruns2 := runs_two (threads s) (threads s2) me i j hi hj _ _ Hst2 Hi Hj Hij ltac:(simpl; destruct Hxi as (-> & _); done) eq_refl eq_refl).
  split; [done|]. split; [done|]. split; [apply Hruns2; by left|]. split; [|done].
  intros c k Hck. rewrite Hruns2. split.
  - intros [[_ ?]|(_ & _ & ?)]; done.
  - intros Hk. right. split_and!; [| |done]; intros ->.
    + apply Hck. destruct Hk as (h & Hh & _ & E). congruence.
    + destruct Hk as (h & Hh & E & _). rewrite Hj in Hh. injection Hh as <-. simpl in Hstj. destruct Hstj; congruence.
Qed.

(** ** Termination *)

(** The thread that follows a terminated thread on core [me]. *)
Definition successor (me : Z) (q : list Z) : Z := match q with [] => me | j :: _ => j end.

Lemma next_terminated me i s q A hi n hn :
  queue_ok s q -> chains_ok s A -> links_ok (threads s) -> n = successor me q ->
  aget (threads s) i = Some hi -> state hi = THREAD_TERMINATED -> aget (threads s) n = Some hn -> n <> i -> n ∉ A ->
  (q = [] -> coreid hn = me) ->
  wp (yield_next me i me) (fun r s' => r = n /\ queue_ok s' (tail q) /\ chains_ok s' A /\ links_ok (threads s') /\
    same_rest s s' /\ exists hn', hn' = set_coreid me (set_next (next hn') hn) /\
      threads s' = aset n hn' (threads s)) s.
Proof.
  intros Hq Hch Hl Hn Hi Hsi Hhn Hne HnA Hidle. unfold yield_next. wp_step. wp_step. rewrite (qo_size _ _ Hq).
  destruct q as [|j q]; simpl in Hn; subst n.
  - simpl. wp_step. eapply wp_thread_read; [exact Hi|]. rewrite decide_True by done. wp_step.
    split_and!; try done. exists hn. split; [|by rewrite aset_id]. destruct hn; simpl in *. f_equal. by rewrite Hidle.
  - simpl (alen _ =? 0). simpl negb. cbv iota. pose proof (qo_head _ _ Hq) as (Eh & _). wp_step. unfold deref. wp_step; [exact Eh|].
    wp_step. eapply wp_thread_read; [exact Hhn|]. wp_step. wp_step. wp_step. eapply wp_thread_update; [exact Hhn|].
    wp_step. eapply wp_thread_read; [simpl; by rewrite aget_aset_ne|]. rewrite decide_True by done. wp_step. wp_step. wp_step.
    split; [done|]. rewrite <- (qo_size _ _ Hq). split_and!.
    + by apply (queue_ok_tail s j q _ hn me).
    + apply (chains_ok_set s); [done|done|done|done|]. intros k hk Hk Hkh. exists hk. split; [|done]. simpl.
      rewrite aget_aset_ne; [done|]. by intros <-.
    + by apply links_ok_set.
    + done.
    + by exists (set_coreid me (set_next None hn)).
Qed.

Lemma select_terminated me i s q A hi n hn :
  lock_tm s = false -> queue_ok s q -> chains_ok s A -> links_ok (threads s) -> n = successor me q ->
  aget (threads s) i = Some hi -> state hi = THREAD_TERMINATED -> coreid hi = me -> i <> me -> i ∉ A -> i ∉ q ->
  aget (threads s) n = Some hn -> n <> i -> n ∉ A -> n ∉ tail q -> (q = [] -> coreid hn = me) ->
  wp (yield_select me i) (fun r s' => r = n /\ queue_ok s' (tail q) /\ chains_ok s' A /\ links_ok (threads s') /\
    same_rest s s' /\
    threads s' = aset n (set_next (Some i) (take_over me hn)) (aset i (set_state THREAD_ZOMBIE hi) (threads s))) s.
Proof.
  intros Hlock Hq Hch Hl Hn Hi Hsi Hci Him HiA Hiq Hhn Hne HnA Hnq Hidle. unfold yield_select.
  wp_step. eapply wp_thread_read; [exact Hi|]. wp_step. apply wp_lock_threads; [done|]. wp_step.
  unfold IDLE_THREAD. rewrite Hci. eapply wp_mono.
  { apply (next_terminated me i (tm_set_lock true s) q A hi n hn); try done; [by destruct Hq|by destruct Hch]. }
  intros r s1 (-> & Hq1 & Hch1 & Hl1 & Hr1 & hn' & En' & Et1). simpl in Et1.
  assert (Hi1 : aget (threads s1) i = Some hi) by (by rewrite Et1, aget_aset_ne).
  assert (Hn1 : aget (threads s1) n = Some hn') by (rewrite Et1; by eapply aget_aset_same).
  wp_step. unfold yield_retire. wp_step. eapply wp_thread_read; [exact Hi1|]. rewrite decide_True by done.
  wp_step. rewrite (proj2 (Z.eqb_neq i me)), (proj2 (Z.eqb_neq i n)) by done. wp_step; [done|].
  wp_step. eapply wp_thread_update; [exact Hi1|]. eapply wp_thread_update; [simpl; by rewrite aget_aset_ne|].
  wp_step. eapply wp_thread_update; [simpl; eapply aget_aset_same; by rewrite aget_aset_ne|].
  wp_step. unfold unlock_threads. wp_step. wp_step. simpl. rewrite aset_aset_eq.
  set (l2 := aset n _ _). assert (El2 : l2 = aset n (set_next (Some i) (take_over me hn)) (aset i (set_state THREAD_ZOMBIE hi) (threads s))).
  { unfold l2. rewrite Et1, (aset_comm _ i n) by done. rewrite aset_aset_eq. f_equal. rewrite En'. done. }
  split; [done|]. split_and!; [..|done].
  - destruct Hq1 as [Z1 Z2 Z3]. split; [done| |done]. simpl. apply linked_other; [done|]. apply linked_other; [|done].
    intros Hit. apply Hiq. destruct q; [done|by apply list_elem_of_further].
  - eapply (chains_ok_set s1); [done|done|done|done|]. intros k hk Hk Hkh. simpl. unfold l2.
    rewrite !aget_aset_ne by (intros <-; done). by exists hk.
  - apply links_ok_set; [by eapply links_ok_keep|]. simpl. intros z [= <-]. rewrite length_aset. by eapply aget_lt.
  - apply same_rest_lock in Hr1. by rewrite Hlock in Hr1.
Qed.

Definition freed (h : thread) : thread := set_tid KTHREAD_NULL_TID (set_state THREAD_NOT_STARTED (set_coreid (-1) h)).

(** What freeing a thread changes besides the table. *)
Definition freed_rest (s s' : tm) : Prop :=
  tm_cores s' = tm_cores s /\ tm_sleep s' = tm_sleep s /\ joincond s' = joincond s /\ next_tid s' = next_tid s /\
  sched_queue s' = sched_queue s /\ exit_values s' = exit_values s /\ next_exit_value s' = next_exit_value s /\
  length (ustacks s') = length (ustacks s) /\ length (kstacks s') = length (kstacks s) /\ kpool_wf (tm_pool s').

Lemma wp_put_page a (Q : Z -> tm -> Prop) s :
  kpool_wf (tm_pool s) -> (forall r p, kpool_wf p -> Q r (tm_set_pool p s)) -> wp (put_page a) Q s.
Proof.
  intros Hwf HQ. unfold put_page. wp_step; [done|]. eapply wp_mono; [by apply kpage_put_cases|]. intros r p.
  intros [(_ & _ & ->)|[(_ & _ & _ & ->)|(_ & _ & _ & Hp & _)]]; by apply HQ.
Qed.

Lemma thread_free_spec z hz s :
  aget (threads s) z = Some hz -> state hz = THREAD_ZOMBIE -> is_user z ->
  alen (ustacks s) = THREAD_MAX -> alen (kstacks s) = THREAD_MAX -> kpool_wf (tm_pool s) ->
  wp (thread_free z) (fun _ s' => threads s' = aset z (freed hz) (threads s) /\ lock_tm s' = lock_tm s /\ freed_rest s s') s.
Proof.
  intros Hz Hs Hu Hlu Hlk Hp. unfold is_user in Hu. pose proof cores_many as Hcm. unfold SYS_THREAD_MAX in *.
  unfold thread_free. wp_step. wp_step; [apply WITHIN_true; lia|]. wp_step. eapply wp_thread_read; [exact Hz|].
  wp_step. rewrite bool_decide_true by done. wp_step; [done|]. wp_step. wp_step. wp_step. wp_step.
  assert (Hrange : 0 ≤ USER_THREAD_ID z < THREAD_MAX) by (unfold USER_THREAD_ID, SYS_THREAD_MAX, KTHREAD_MAX, SYS_THREAD_MAX in *; lia).
  destruct (aget_is_Some (ustacks s) (USER_THREAD_ID z)) as [us Hus]; [lia|].
  destruct (aget_is_Some (kstacks s) (USER_THREAD_ID z)) as [ks Hks]; [lia|].
  wp_step. wp_step; [exact Hus|]. wp_step. wp_step; [exact Hks|].
  wp_step. apply wp_put_page; [done|]. intros _ p1 Hp1. wp_step. apply wp_put_page; [done|]. intros _ p2 Hp2.
  wp_step. wp_step. wp_step. eapply wp_thread_update; [exact Hz|]. wp_step. split; [done|]. split; [done|].
  unfold freed_rest. simpl. by rewrite !length_aset.
Qed.

Lemma reap_zombie n z hn hz s :
  lock_tm s = false -> aget (threads s) n = Some hn -> next hn = Some z -> n <> z ->
  aget (threads s) z = Some hz -> state hz = THREAD_ZOMBIE -> is_user z ->
  alen (ustacks s) = THREAD_MAX -> alen (kstacks s) = THREAD_MAX -> kpool_wf (tm_pool s) ->
  wp (yield_reap n) (fun _ s' =>
    threads s' = aset n (set_next None hn) (aset z (freed hz) (threads s)) /\ lock_tm s' = false /\ freed_rest s s') s.
Proof.
  intros Hl Hn En Hne Hz Hs Hu Hlu Hlk Hp. unfold yield_reap. wp_step. apply wp_lock_threads; [done|].
  wp_step. eapply wp_thread_read; [exact Hn|]. rewrite En. wp_step. wp_step. eapply wp_thread_read; [exact Hz|].
  rewrite decide_True by done. wp_step. eapply wp_mono; [by apply (thread_free_spec z hz)|].
  intros [] s1 (Et & El & Hr). eapply wp_thread_update; [rewrite Et; simpl; by rewrite aget_aset_ne|].
  unfold unlock_threads. wp_step. simpl. by rewrite Et.
Qed.

(** ** Exit values *)

Definition save_exit (v id : Z) (e : list exit_value * Z) : list exit_value * Z :=
  if v =? 0 then e
  else (aset (snd e) (ExitValue id v) (fst e), Z.rem (snd e + 1) KTHREAD_EXIT_VALUE_NUM).

Lemma save_retval_spec v i h s :
  aget (threads s) i = Some h -> alen (exit_values s) = KTHREAD_EXIT_VALUE_NUM ->
  0 ≤ next_exit_value s < KTHREAD_EXIT_VALUE_NUM ->
  wp (thread_save_retval v i) (fun _ s' =>
    let e := save_exit v (tid h) (exit_values s, next_exit_value s) in
    s' = tm_set_exits (fst e) (snd e) s /\ alen (fst e) = KTHREAD_EXIT_VALUE_NUM /\
    0 ≤ snd e < KTHREAD_EXIT_VALUE_NUM) s.
Proof.
  intros Hh Hl Hn. unfold thread_save_retval, save_exit. destruct (v =? 0); simpl.
  { wp_step. split_and!; try done; try lia. by destruct s. }
  wp_step. eapply wp_thread_read; [exact Hh|]. wp_step. wp_step. wp_step. wp_step. wp_step.
  destruct (aget_is_Some (exit_values s) (next_exit_value s)) as [e He]; [lia|]. wp_step; [exact He|]. wp_step.
  rewrite length_aset. split; [done|]. split; [done|]. apply Z.rem_bound_pos; lia.
Qed.

(** The current thread of a core whose thread has terminated. *)
Lemma get_curr_none me i l p :
  Forall (fun h => coreid h = me -> state h <> THREAD_RUNNING /\ state h <> THREAD_TERMINATED) l -> get_curr me i l p = p.
Proof.
  intros Hall. revert i p. induction Hall as [|h l Hh Hall IH]; intros i p; simpl; [done|].
  destruct (Z.eqb_spec (coreid h) me) as [E|]; simpl; [|apply IH].
  destruct (Hh E). rewrite !decide_False by done. apply IH.
Qed.

Lemma get_curr_terminated me l k h :
  aget l k = Some h -> coreid h = me -> state h = THREAD_TERMINATED ->
  (forall j hj, j <> k -> aget l j = Some hj -> coreid hj = me -> state hj <> THREAD_RUNNING /\ state hj <> THREAD_TERMINATED) ->
  get_curr me 0 l None = Some k.
Proof.
  intros Hk Hc Hs Hoth.
  assert (Hgen : forall l i p, aget l (k - i) = Some h -> i ≤ k ->
    (forall j hj, i ≤ j -> j <> k -> aget l (j - i) = Some hj -> coreid hj = me -> state hj <> THREAD_RUNNING /\ state hj <> THREAD_TERMINATED) ->
    get_curr me i l p = Some k).
  { clear - Hc Hs. intros l. induction l as [|x l IH]; intros i p Hk Hle Hoth; [by unfold aget in Hk; case_bool_decide|]. simpl.
    assert (Htail : forall j hj, i + 1 ≤ j -> aget l (j - (i + 1)) = Some hj -> aget (x :: l) (j - i) = Some hj).
    { intros j hj Hj E. rewrite aget_cons_S by lia. by replace (j - i - 1) with (j - (i + 1)) by lia. }
    destruct (decide (i = k)) as [->|Hne].
    - rewrite Z.sub_diag in Hk. injection Hk as ->. rewrite Hc, Z.eqb_refl. simpl. rewrite decide_False by congruence.
      rewrite decide_True by done. apply get_curr_none. apply Forall_aget_iff. intros j hj Hj. pose proof (aget_lt _ _ _ Hj).
      apply (Hoth (j + k + 1) hj); [lia|lia|]. apply Htail; [lia|]. by replace (j + k + 1 - (k + 1)) with j by lia.
    - assert (Hrest : forall p, get_curr me (i + 1) l p = Some k).
      { intros p'. apply IH; [|lia|].
        - rewrite aget_cons_S in Hk by lia. by replace (k - (i + 1)) with (k - i - 1) by lia.
        - intros j hj Hj Hjk E. apply (Hoth j hj); [lia|done|]. by apply Htail. }
      destruct (Z.eqb_spec (coreid x) me) as [E|]; simpl; [|apply Hrest].
      destruct (Hoth i x) as [H1 H2]; [lia|done|by rewrite Z.sub_diag|done|]. rewrite !decide_False by done. apply Hrest. }
  apply Hgen; [by rewrite Z.sub_0_r|apply aget_lt in Hk; lia|]. intros j hj _ Hj. rewrite Z.sub_0_r. by apply Hoth.
Qed.

Lemma successor_facts l q A me i p :
  tab_ok (strip l) q A -> linked l p q -> runs (strip l) me i -> is_user i -> 0 < me < CORES_NUM ->
  let n := successor me q in
  exists hn, aget l n = Some hn /\ n <> i /\ (n ∉ A) /\ (n ∉ tail q) /\ state hn <> THREAD_RUNNING /\ ctx_saved hn /\
    0 < tid hn /\ (n = me \/ is_user n) /\ (q = [] -> coreid hn = me).
Proof.
  intros Ht Hq Hru Hu Hme n. pose proof (tab_running_free _ _ _ _ _ Ht Hru) as Hiq. destruct q as [|j q]; simpl in n; subst n.
  - assert (Hlen : 0 ≤ me < alen l).
    { rewrite <- (length_strip l), (to_length _ _ _ Ht). unfold KTHREAD_MAX, THREAD_MAX, SYS_THREAD_MAX. lia. }
    destruct (aget_is_Some l me Hlen) as [hn Hn]. exists hn.
    assert (Hsn : aget (strip l) me = Some (set_next None hn)) by (by rewrite strip_aget, Hn).
    destruct (to_idle _ _ _ Ht me _ ltac:(lia) Hsn) as (Hc & Htid & Hst). simpl in *.
    assert (Hmi : me <> i) by (unfold is_user, SYS_THREAD_MAX in Hu; lia).
    assert (Hnr : state hn <> THREAD_RUNNING).
    { intros E. apply Hmi. eapply (to_unique _ _ _ Ht me); [|exact Hru]. by exists (set_next None hn). }
    destruct Hst as [?|[Hst Hsv]]; [done|]. split_and!; try done; [|by apply not_elem_of_nil|by left].
    intros HA. destruct (to_asleep _ _ _ Ht me HA) as (c & h & Hh & E & _). rewrite Hsn in Hh. injection Hh as <-. done.
  - pose proof (linked_nodup _ _ _ Hq) as [Hjq _]%NoDup_cons.
    destruct (linked_elem _ _ _ j Hq) as [hn Hn]; [set_solver|]. exists hn.
    assert (Hsn : aget (strip l) j = Some (set_next None hn)) by (by rewrite strip_aget, Hn).
    destruct (to_ready _ _ _ Ht j _ ltac:(set_solver) Hsn) as (Huj & _ & Hst & Hsv & Htid). simpl in *.
    split_and!; try done; [set_solver| |destruct Hst; congruence|by right].
    eapply tab_ready_awake; [exact Ht|set_solver].
Qed.

Lemma thread_yield_terminated s l0 h0 q A me i n :
  tab_ok (strip l0) q A -> aget l0 i = Some h0 -> state h0 = THREAD_RUNNING -> coreid h0 = me -> is_user i -> i ∉ A ->
  0 < me < CORES_NUM -> threads s = aset i (set_state THREAD_TERMINATED h0) l0 -> n = successor me q ->
  lock_tm s = false -> queue_ok s q -> chains_ok s A -> links_ok (threads s) ->
  alen (ustacks s) = THREAD_MAX -> alen (kstacks s) = THREAD_MAX -> kpool_wf (tm_pool s) ->
  wp (thread_yield t me) (fun r s' => r = inr n /\ lock_tm s' = false /\ queue_ok s' (tail q) /\ chains_ok s' A /\
    links_ok (threads s') /\ joincond s' = joincond s /\ tm_sleep s' = tm_sleep s /\ next_tid s' = next_tid s /\ exit_values s' = exit_values s /\
    next_exit_value s' = next_exit_value s /\ length (ustacks s') = length (ustacks s) /\
    length (kstacks s') = length (kstacks s) /\ kpool_wf (tm_pool s') /\
    exists hn x, aget l0 n = Some hn /\ n <> i /\
      strip (threads s') = aset n (set_ctx 0 (take_over me (set_next None hn))) (aset i (freed (set_ctx x (set_next None h0))) (strip l0))) s.
Proof.
  intros Ht Hi Hs Hc Hu HiA Hme Et Hn Hlock Hq Hch Hl Hsu Hsk Hp.
  assert (Hsi : aget (strip l0) i = Some (set_next None h0)) by (by rewrite strip_aget, Hi).
  assert (Hru : runs (strip l0) me i) by (by exists (set_next None h0)).
  pose proof (tab_running_free _ _ _ _ _ Ht Hru) as Hiq.
  destruct (to_running _ _ _ Ht i _ Hsi Hs) as (_ & _ & Hctx). simpl in Hctx. destruct Hctx as [Hctx Htid]; [lia|].
  assert (Hq0 : linked l0 (sq_head (sched_queue s)) q).
  { replace l0 with (aset i h0 (threads s)) by (rewrite Et, aset_aset_eq; by apply aset_id). apply linked_other; [done|]. apply Hq. }
  destruct (successor_facts l0 q A me i _ Ht Hq0 Hru Hu Hme) as (hn & Hhn & Hne & HnA & Hnq & Hnr & Hsv & Htn & Hwho & Hidle).
  rewrite <- Hn in *.
  assert (His : aget (threads s) i = Some (set_state THREAD_TERMINATED h0)) by (rewrite Et; by eapply aget_aset_same).
  assert (Hns : aget (threads s) n = Some hn) by (by rewrite Et, aget_aset_ne).
  assert (Hnorun : forall k hk, k <> i -> aget (threads s) k = Some hk -> coreid hk = me -> state hk <> THREAD_RUNNING /\ state hk <> THREAD_TERMINATED).
  { intros k hk Hki Hk Hck. rewrite Et, aget_aset_ne in Hk by done.
    assert (Hk0 : aget (strip l0) k = Some (set_next None hk)) by (by rewrite strip_aget, Hk). split.
    - intros E. apply Hki. eapply (to_unique _ _ _ Ht me); [|exact Hru]. by exists (set_next None hk).
    - apply (to_alive _ _ _ Ht k _ Hk0). }
  unfold thread_yield. wp_step. unfold thread_get_curr. wp_step.
  rewrite (get_curr_terminated me _ i (set_state THREAD_TERMINATED h0)) by done. wp_step. unfold deref. wp_step; [done|].
  wp_step. eapply wp_thread_read; [exact His|]. simpl. rewrite (proj2 (Z.eqb_neq _ _)) by (unfold KTHREAD_MASTER_TID; lia).
  wp_step. eapply wp_mono.
  { apply (select_terminated me i s q A (set_state THREAD_TERMINATED h0) n hn); try done. unfold is_user, SYS_THREAD_MAX in Hu. lia. }
  intros r s1 (-> & Hq1 & Hch1 & Hl1 & Hr1 & Et1). change (set_state THREAD_ZOMBIE (set_state THREAD_TERMINATED h0)) with (set_state THREAD_ZOMBIE h0) in Et1.
  set (zi := set_state THREAD_ZOMBIE h0) in *. set (zn := set_next (Some i) (take_over me hn)) in *.
  assert (Hi1 : aget (threads s1) i = Some zi) by (rewrite Et1, aget_aset_ne by done; by eapply aget_aset_same).
  assert (Hn1 : aget (threads s1) n = Some zn) by (rewrite Et1; eapply aget_aset_same; by rewrite aget_aset_ne).
  assert (Hc1 : get_curr me 0 (threads s1) None = Some n).
  { apply get_curr_spec; [by exists zn|]. intros k (hk & Hk & Ek & Eck). rewrite Et1, (aget_two _ i n _ _ _ _ _ His Hns) in Hk by done.
    destruct (decide (k = n)); [done|]. destruct (decide (k = i)); [injection Hk as <-; done|]. by destruct (Hnorun k hk). }
  wp_step. eapply wp_mono; [by apply (yield_switch_spec me i n zi zn)|]. intros r s2 [-> ->].
  set (x := context_save me (tm_cores s1)).
  destruct (ctx_pair_ok s1 i n zi zn x 0 (tail q) A Hi1 Hn1 ltac:(done) Hq1 Hch1 Hl1) as (Hq2 & Hch2 & Hl2 & Hr2 & _).
  set (s2 := tm_set_threads _ s1) in *. destruct Hr1 as (A1 & A2 & A0 & A3 & A4 & A5 & A6 & A7 & A8 & A9).
  assert (Hn2 : aget (threads s2) n = Some (set_ctx 0 zn)) by (simpl; eapply aget_aset_same; by rewrite aget_aset_ne).
  assert (Hi2 : aget (threads s2) i = Some (set_ctx x zi)) by (simpl; rewrite aget_aset_ne by done; by eapply aget_aset_same).
  wp_step. eapply wp_thread_read; [exact Hn2|]. wp_step. wp_step; [done|]. wp_step. eapply wp_mono.
  { apply (reap_zombie n i (set_ctx 0 zn) (set_ctx x zi) s2); try done; simpl; rewrite ?A1, ?A5, ?A6, ?A9; done. }
  intros [] s3 (Et3 & Hl3 & B1 & B0 & B2 & B3 & B4 & B5 & B6 & B7 & B8 & B9). wp_step. split; [done|]. split; [done|].
  assert (Hit : i ∉ tail q) by (destruct q; [done|]; intros ?; apply Hiq; by apply list_elem_of_further).
  unfold s2 in B0, B2, B3, B5, B6, B7, B8. simpl in B0, B2, B3, B5, B6, B7, B8. split_and!; try done; try congruence.
  - destruct Hq2 as [Z1 Z2 Z3]. split; rewrite B4; [done| |done]. rewrite Et3. by apply linked_other; [|apply linked_other].
  - eapply (chains_ok_set s2); [done|done|done|by rewrite B4|]. intros k hk Hk Hkh. rewrite Et3, !aget_aset_ne by (intros <-; done). by exists hk.
  - rewrite Et3. apply links_ok_set; [|done]. eapply links_ok_keep; [done|exact Hi2|done].
  - exists hn, x. split; [done|]. split; [done|]. rewrite Et3. cbn [threads tm_set_threads s2].
    rewrite Et1, Et, !strip_aset, !aset_pair, aset_aset_eq by done. done.
Qed.

End spec.
