(* ===== verification/ThreadOps.v ===== *)
(** Termination, creation, joining and idling: each operation of the thread system keeps
    its invariant. *)

From S2P Require Import Prelude.
From S2P Require Import Hlib.
From S2P Require Import MemLayout.
From S2P Require Import Kpool.
From S2P Require Import ThreadBase.
From S2P Require Import Cond.
From S2P Require Import CondSpec.
From S2P Require Import Thread.
From S2P Require Import ThreadSpec.

Section ops.
Context `{H : Hlib} `{C : CoreHw} `{ML : MemLayout} (t : mm_target).
Context {HL : HlibLaws H} {CL : CoreHwLaws C t} {MLL : MemLayoutLaws ML}.

Abbreviation sched_ok := (sched_ok t).
Abbreviation tab_ok := (tab_ok t).

(** ** Termination *)

(** The threads that wait for thread [i] leave its condition variable. *)
Lemma join_broadcast_spec i s A (Q : Z -> tm -> Prop) :
  chains_ok s A -> 0 ≤ i < alen (joincond s) ->
  (forall c, chains_ok (tm_set_joincond (aset i (Condvar false None) (joincond s)) (tm_set_cores c s)) A ->
     Q 0 (tm_set_joincond (aset i (Condvar false None) (joincond s)) (tm_set_cores c s))) ->
  wp (cond_broadcast (join_cv i) (set_join_cv i)) Q s.
Proof.
  intros [Hsem Hj Hsl] Hi HQ. destruct (aget_is_Some _ _ Hi) as [c Hc]. destruct (Hj i c Hc) as [Hl (w & Hw & HA)].
  eapply (cond_broadcast_spec (join_cv i) (set_join_cv i)); [exact Hc|exact Hl|exact Hw|]. unfold set_join_cv. simpl.
  apply HQ. split; [done| |exact Hsl]. simpl. intros j c'. destruct (decide (i = j)) as [<-|Hne].
  - rewrite (aget_aset_same _ _ _ _ Hc). intros [= <-]. apply cond_ok_empty.
  - rewrite aget_aset_ne by done. apply Hj.
Qed.

Lemma exit_handover me i q n h0 hn x :
  0 < me < CORES_NUM -> is_user i -> n = successor me q -> i ∉ q -> NoDup q -> 0 < tid hn -> n = me \/ is_user n ->
  handover t me i n q (tail q) (freed (set_ctx x h0)) (set_ctx 0 (take_over me hn)).
Proof.
  intros Hme Hu Hn Hiq Hnd Htid Hwho.
  assert (Hit : i ∉ tail q) by (destruct q; [done|]; intros ?; apply Hiq; by apply list_elem_of_further).
  split; simpl; try done.
  - intros ->. unfold is_user, SYS_THREAD_MAX in Hu. lia.
  - destruct q as [|j q]; simpl in *; subst n; [by apply not_elem_of_nil|]. by apply NoDup_cons in Hnd as [? _].
  - intros k N1 N2. destruct q as [|j q]; simpl in *; subst n; [done|]. set_solver.
Qed.

Lemma thread_exit_spec s q A me i h v :
  sched_ok s q A -> aget (threads s) i = Some h -> state h = THREAD_RUNNING -> coreid h = me -> is_user i ->
  0 < me < CORES_NUM -> i ∉ A ->
  let n := successor me q in
  wp (thread_exit t me v) (fun r s' => r = inr n /\ sched_ok s' (tail q) A /\ runs (threads s') me n /\
    other_cores me s s' /\ next_tid s' = next_tid s /\
    (exit_values s', next_exit_value s') = save_exit v (tid h) (exit_values s, next_exit_value s) /\
    exists h', aget (threads s') i = Some h' /\ state h' = THREAD_NOT_STARTED) s.
Proof.
  intros Hok Hi Hs Hc Hu Hme HiA n. pose proof (so_tab _ _ _ _ Hok) as Ht.
  assert (Hru : runs (threads s) me i) by (by exists h).
  pose proof (tab_one_curr t _ _ _ _ _ Ht Hru) as Hcur. pose proof (proj2 (runs_strip _ _ _) Hru) as Hrus.
  pose proof (tab_running_free t _ _ _ _ _ Ht Hrus) as Hiq.
  destruct (so_exits _ _ _ _ Hok) as [Hel Hen]. pose proof (so_join _ _ _ _ Hok) as Hjl.
  unfold thread_exit. wp_step. unfold thread_get_curr. wp_step. rewrite Hcur. wp_step. unfold deref. wp_step; [done|].
  wp_step. wp_step; [unfold is_user_thread; apply WITHIN_true; unfold is_user, KTHREAD_MAX in Hu; lia|].
  wp_step. apply wp_lock_threads; [apply Hok|]. wp_step.
  eapply wp_mono; [by apply (save_retval_spec v i h)|]. intros [] s1 (-> & He1 & He2). simpl in He1, He2.
  wp_step. eapply wp_thread_update; [exact Hi|]. set (l1 := aset i _ _). wp_step.
  eapply join_broadcast_spec; [|simpl; rewrite Hjl; unfold KERNEL_THREAD_ID, is_user, SYS_THREAD_MAX in *; lia|].
  { apply (chains_ok_set s); [apply Hok|done|done|done|]. intros k hk Hk Hkh. simpl. unfold l1.
    rewrite aget_aset_ne by (intros <-; done). by exists hk. }
  intros c Hch. wp_step. unfold unlock_threads. wp_step. simpl in *.
  set (s2 := tm_set_lock false _). eapply wp_mono.
  { apply (thread_yield_terminated t s2 (threads s) h q A me i n); try done; try apply Hok.
    - destruct (so_queue _ _ _ _ Hok) as [Z1 Z2 Z3]. split; [done| |done]. by apply linked_other.
    - by destruct Hch.
    - apply (links_ok_keep _ i h); [apply Hok|done|done]. }
  intros r s' (-> & Hl & Hq' & Hch' & Hlk & E1 & E0 & E2 & E3 & E4 & E5 & E6 & Hp & hn & x & Hn & Hni & Est). split; [done|].
  destruct (successor_facts t (threads s) q A me i _ Ht (qo_head _ _ (so_queue _ _ _ _ Hok)) Hrus Hu Hme)
    as (hn' & Hn' & _ & _ & _ & Hnr & _ & Htid & Hwho & _). fold n in Hn', Hwho. rewrite Hn in Hn'. injection Hn' as <-.
  assert (Hruns := runs_two (threads s) (threads s') me i n h hn _ _ Est Hi Hn ltac:(done) ltac:(done) eq_refl eq_refl).
  split_and!; [|apply Hruns; by left| |done| |].
  - split; rewrite ?E0, ?E1, ?E2, ?E3, ?E4, ?E5, ?E6; simpl; rewrite ?length_aset; try done; try apply Hok.
    rewrite Est. eapply (tab_handover t _ q A me i n); [done|done|by rewrite strip_aget, Hi|by rewrite strip_aget, Hn|done|done|done|done|].
    apply exit_handover; try done. eapply linked_nodup, (so_queue _ _ _ _ Hok).
  - intros c' k Hck. rewrite Hruns. split; [intros [[_ ?]|(_ & _ & ?)]; done|]. intros Hk. right.
    split_and!; [| |done]; intros ->.
    + apply Hck. destruct Hk as (h' & Hh' & _ & E). congruence.
    + destruct Hk as (h' & Hh' & E & _). congruence.
  - rewrite E3, E4. simpl. by destruct (save_exit _ _ _).
  - destruct (strip_aget_inv (threads s') i (freed (set_ctx x (set_next None h)))) as (h' & Hh' & E).
    { rewrite Est, aget_aset_ne by done. eapply aget_aset_same. by rewrite strip_aget, Hi. }
    exists h'. split; [done|]. by apply (f_equal state) in E.
Qed.

(** ** Creation *)

Lemma wp_get_page (Q : Z -> tm -> Prop) s :
  kpool_wf (tm_pool s) -> (forall r p, kpool_wf p -> Q r (tm_set_pool p s)) -> wp get_page Q s.
Proof.
  intros Hwf HQ. unfold get_page. wp_step; [done|]. eapply wp_mono; [by apply kpage_get_cases|]. intros r p.
  intros [(_ & -> & _)|(i & _ & _ & _ & _ & Hp & _)]; by apply HQ.
Qed.

Lemma aget_tail {X} (l : list X) k : 0 ≤ k -> aget (tail l) k = aget l (k + 1).
Proof.
  intros Hk. destruct l as [|x l]; simpl.
  - unfold aget. by repeat case_bool_decide.
  - rewrite aget_cons_S by lia. by replace (k + 1 - 1) with k by lia.
Qed.

Lemma thread_alloc_spec s q A :
  tab_ok (strip (threads s)) q A ->
  wp thread_alloc (fun o s' =>
    match o with
    | None => s' = s
    | Some i => exists h, aget (threads s) i = Some h /\ state h = THREAD_NOT_STARTED /\ is_user i /\
        s' = tm_set_threads (aset i (set_state THREAD_STARTED h) (threads s)) (tm_set_nthreads (nthreads s + 1) s)
    end) s.
Proof.
  intros Ht. unfold thread_alloc. wp_step. wp_step. destruct (search_from _ 1 _) as [i|] eqn:E; [|by wp_step].
  apply search_from_Some in E as (Hi & (h & Hh & Hav) & _). rewrite aget_tail in Hh by lia.
  replace (i - 1 + 1) with i in Hh by lia.
  assert (Hsi : aget (strip (threads s)) i = Some (set_next None h)) by (by rewrite strip_aget, Hh).
  assert (Hns : state h = THREAD_NOT_STARTED).
  { unfold thread_available in Hav. apply orb_true_iff in Hav as [Hav%bool_decide_eq_true|Hav%bool_decide_eq_true]; [done|].
    by destruct (to_alive _ _ _ _ Ht i _ Hsi). }
  wp_step. eapply wp_thread_read; [exact Hh|]. rewrite decide_True by done. wp_step. wp_step. wp_step.
  eapply wp_thread_update; [exact Hh|]. wp_step. exists h. split_and!; try done.
  unfold is_user. pose proof (aget_lt _ _ _ Hsi) as Hlt. rewrite (to_length _ _ _ _ Ht) in Hlt. split; [|lia].
  destruct (decide (SYS_THREAD_MAX ≤ i)) as [|Hlow]; [done|]. exfalso.
  destruct (to_idle _ _ _ _ Ht i _ ltac:(unfold SYS_THREAD_MAX in Hlow; lia) Hsi) as (_ & _ & [Hx|[Hx _]]); simpl in Hx; congruence.
Qed.

Lemma tab_new l q q' A i h h' :
  tab_ok l q A -> aget l i = Some h -> is_user i -> state h = THREAD_NOT_STARTED -> state h' = THREAD_STARTED ->
  q' = q \/ q' = q ++ [i] /\ ready t i h' ->
  tab_ok (aset i h' l) q' A.
Proof.
  intros Ht Hi Hu Hs Hs' Hq'.
  assert (Hiq : i ∉ q) by (intros Hin; destruct (to_ready _ _ _ _ Ht i h Hin Hi) as (_ & _ & [?|?] & _); congruence).
  assert (Hget : forall k, aget (aset i h' l) k = if decide (k = i) then Some h' else aget l k).
  { intros k. destruct (decide (k = i)) as [->|]; [by eapply aget_aset_same|by rewrite aget_aset_ne]. }
  assert (Hruns : forall c k, runs (aset i h' l) c k <-> runs l c k).
  { intros c k. unfold runs. rewrite Hget. destruct (decide (k = i)) as [->|]; [|done].
    split; intros (x & E & Ex & _); simplify_eq; congruence. }
  assert (Hin : forall k, k <> i -> k ∈ q' <-> k ∈ q) by (intros k Hk; destruct Hq' as [->|[-> _]]; set_solver).
  split.
  - rewrite length_aset. apply Ht.
  - intros k x Hk. rewrite Hget. destruct (decide (k = i)) as [->|Hne].
    + intros [= <-]. destruct Hq' as [->|[_ Hr]]; [done|exact Hr].
    + intros Hx. eapply (to_ready _ _ _ _ Ht); [by apply Hin|done].
  - intros k x. rewrite Hget. destruct (decide (k = i)) as [->|Hne]; [intros [= <-]; congruence|].
    intros Hx Hux Hst. apply Hin; [done|]. by eapply (to_stopped _ _ _ _ Ht).
  - intros k x. rewrite Hget. destruct (decide (k = i)) as [->|Hne]; [intros [= <-]; congruence|]. apply (to_running _ _ _ _ Ht).
  - intros c Hc. destruct (to_one _ _ _ _ Ht c Hc) as [k Hk]. exists k. by apply Hruns.
  - intros c k1 k2. rewrite !Hruns. apply (to_unique _ _ _ _ Ht).
  - intros c x Hc. rewrite Hget. destruct (decide (c = i)) as [->|Hne]; [|by apply (to_idle _ _ _ _ Ht)].
    unfold is_user, SYS_THREAD_MAX in Hu. lia.
  - intros k x. rewrite Hget. destruct (decide (k = i)) as [->|Hne]; [intros [= <-]; rewrite Hs'; done|]. apply (to_alive _ _ _ _ Ht).
  - intros k Hk. destruct (to_asleep _ _ _ _ Ht k Hk) as [c Hc]. exists c. by apply Hruns.
Qed.

(** A change of a thread that is neither queued nor asleep. *)
Lemma lists_other s s' i h h' q A :
  queue_ok s q -> chains_ok s A -> links_ok (threads s) -> aget (threads s) i = Some h -> i ∉ q -> i ∉ A ->
  next h' = None \/ next h' = next h ->
  threads s' = aset i h' (threads s) -> sched_queue s' = sched_queue s -> joincond s' = joincond s -> tm_sleep s' = tm_sleep s ->
  queue_ok s' q /\ chains_ok s' A /\ links_ok (threads s').
Proof.
  intros [Z1 Z2 Z3] Hch Hl Hi Hq HA Hn Et Eq Ej El. split_and!.
  - split; rewrite Eq; [done| |done]. rewrite Et. by apply linked_other.
  - apply (chains_ok_set s); [done|done|done|by rewrite Eq|]. intros k hk Hk Hkh. rewrite Et, aget_aset_ne by (intros <-; done). by exists hk.
  - rewrite Et. apply links_ok_set; [done|]. intros z Hz. destruct Hn as [Hn|Hn]; [congruence|]. rewrite Hn in Hz. by eapply Hl.
Qed.

Lemma not_started_free s q A i h :
  tab_ok (strip (threads s)) q A -> aget (threads s) i = Some h -> state h = THREAD_NOT_STARTED -> (i ∉ q) /\ (i ∉ A).
Proof.
  intros Ht Hi Hs. assert (Hsi : aget (strip (threads s)) i = Some (set_next None h)) by (by rewrite strip_aget, Hi). split.
  - intros Hin. destruct (to_ready _ _ _ _ Ht i _ Hin Hsi) as (_ & _ & [Hx|Hx] & _); simpl in Hx; congruence.
  - intros HA. destruct (to_asleep _ _ _ _ Ht i HA) as (c & x & Hx & E & _). rewrite Hsi in Hx. injection Hx as <-. simpl in E. congruence.
Qed.

(** A creation that fails for want of stacks keeps the slot it took. *)
Lemma sched_started s q A i h n p :
  sched_ok s q A -> aget (threads s) i = Some h -> state h = THREAD_NOT_STARTED -> is_user i -> kpool_wf p ->
  sched_ok (tm_set_pool p (tm_set_threads (aset i (set_state THREAD_STARTED h) (threads s)) (tm_set_nthreads n s))) q A.
Proof.
  intros Hok Hi Hs Hu Hp. pose proof (so_tab _ _ _ _ Hok) as Ht. destruct (not_started_free _ _ _ _ _ Ht Hi Hs) as [Hiq HiA].
  destruct (lists_other s (tm_set_pool p (tm_set_threads (aset i (set_state THREAD_STARTED h) (threads s)) (tm_set_nthreads n s)))
    i h (set_state THREAD_STARTED h) q A) as (Hq & Hch & Hl); try done; try apply Hok; [by right|].
  split; try done; try apply Hok. simpl. rewrite strip_aset.
  eapply (tab_new _ q); [done|by rewrite strip_aget, Hi|done|done|done|by left].
Qed.

(** The cores run the same threads. *)
Definition same_cores (s s' : tm) : Prop := forall c k, runs (threads s') c k <-> runs (threads s) c k.

Lemma same_cores_set s s' i h h' :
  aget (threads s) i = Some h -> state h <> THREAD_RUNNING -> state h' <> THREAD_RUNNING ->
  strip (threads s') = aset i h' (strip (threads s)) -> same_cores s s'.
Proof.
  intros Hi Hs Hs' E c k. rewrite <- (runs_strip (threads s')), <- (runs_strip (threads s)), E. unfold runs.
  destruct (decide (i = k)) as [<-|]; [|by rewrite aget_aset_ne].
  rewrite (aget_aset_same _ _ (set_next None h)) by (by rewrite strip_aget, Hi). rewrite strip_aget, Hi. simpl.
  split; intros (x & Ex & Es & _); simplify_eq; simpl in *; congruence.
Qed.

Lemma thread_create_spec s q A entry a :
  sched_ok s q A -> entry <> 0 ->
  wp (thread_create entry a) (fun r s' => same_cores s s' /\ 
    match r with
    | inl e => e = err EAGAIN /\ sched_ok s' q A /\ next_tid s' = next_tid s
    | inr id => id = next_tid s /\ next_tid s' = id + 1 /\
        exists i h, sched_ok s' (q ++ [i]) A /\ aget (threads s') i = Some h /\ tid h = id /\ start h = entry /\ arg h = a
    end) s.
Proof.
  intros Hok He. pose proof (so_tab _ _ _ _ Hok) as Ht. pose proof (so_lock _ _ _ _ Hok) as Hlock.
  unfold thread_create. wp_step. rewrite (proj2 (Z.eqb_neq entry 0)) by done. wp_step; [done|].
  wp_step. apply wp_lock_threads; [done|]. wp_step. eapply wp_mono; [by apply (thread_alloc_spec _ q A)|].
  intros [i|] s1; [intros (h & Hi & Hs & Hu & ->)|intros ->].
  2: { wp_step. unfold unlock_threads. wp_step. wp_step. destruct s; simpl in *; subst. done. }
  simpl in Hi. destruct (not_started_free _ _ _ _ _ Ht Hi Hs) as [Hiq HiA].
  assert (Hleak : forall p, kpool_wf p ->
    let s' := tm_set_lock false (tm_set_pool p (tm_set_threads (aset i (set_state THREAD_STARTED h) (threads s)) (tm_set_nthreads (nthreads s + 1) (tm_set_lock true s)))) in
    same_cores s s' /\ sched_ok s' q A).
  { intros p Hp s'. split; [eapply same_cores_set; [exact Hi|congruence| |simpl; by rewrite strip_aset]; done|].
    pose proof (sched_started s q A i h (nthreads s + 1) p Hok Hi Hs Hu Hp) as Hst.
    split; try done; try apply Hst; [by destruct (so_queue _ _ _ _ Hst)|by destruct (so_chains _ _ _ _ Hst)]. }
  wp_step. apply wp_get_page; [apply Hok|]. intros ks p1 Hp1. wp_step.
  { wp_step. unfold unlock_threads. wp_step. wp_step. split; [by apply Hleak|]. split; [done|]. split; [by apply Hleak|done]. }
  wp_step. apply wp_get_page; [done|]. intros us p2 Hp2. wp_step.
  { wp_step. apply wp_put_page; [done|]. intros _ p3 Hp3. wp_step. unfold unlock_threads. wp_step. wp_step.
    split; [by apply (Hleak p3)|]. split; [done|]. split; [by apply (Hleak p3)|done]. }
  wp_step. wp_step. wp_step. wp_step. wp_step. eapply wp_thread_update; [simpl; by eapply aget_aset_same|].
  simpl. rewrite aset_aset_eq. wp_step. wp_step. wp_step. wp_step.
  destruct (so_stacks _ _ _ _ Hok) as [Hul Hkl].
  assert (Hrange : 0 ≤ USER_THREAD_ID i < THREAD_MAX) by (unfold USER_THREAD_ID, is_user, SYS_THREAD_MAX, KTHREAD_MAX, SYS_THREAD_MAX in *; lia).
  destruct (aget_is_Some (ustacks s) (USER_THREAD_ID i)) as [u1 Hu1]; [lia|].
  destruct (aget_is_Some (kstacks s) (USER_THREAD_ID i)) as [k1 Hk1]; [lia|].
  wp_step. wp_step; [exact Hu1|]. wp_step. wp_step; [exact Hk1|]. wp_step. wp_step. wp_step. wp_step.
  set (x := context_create _ _ _). destruct (context_create_ok us ks (tm_cores s)) as [Hx0 Hxk].
  wp_step. eapply wp_thread_update; [simpl; by eapply aget_aset_same|]. simpl. rewrite aset_aset_eq.
  set (h3 := set_ctx x _). wp_step. simpl in x. rewrite (proj2 (Z.eqb_neq x 0)) by done. wp_step; [done|].
  wp_step. set (s3 := tm_set_threads _ _).
  destruct (lists_other s s3 i h h3 q A) as (Hq3 & Hch3 & Hl3); try done; try apply Hok; [by left|].
  eapply wp_mono; [apply (thread_schedule_spec i h3 s3 q A); try done|].
  { simpl. by eapply aget_aset_same. }
  { intros j Hj. by eapply tab_ready_awake. }
  intros [] s4 (Hq4 & Hch4 & (R1 & R2 & R0 & R3 & R4 & R5 & R6 & R7 & R8 & R9) & Hl4 & Est). specialize (Hl4 Hl3).
  cbn [threads tm_set_threads s3] in Est. rewrite strip_aset, aset_aset_eq in Est.
  set (h4 := set_coreid (-1) (set_next None h3)) in *.
  wp_step. unfold unlock_threads. wp_step. wp_step. split; [|split; [done|]].
  { eapply (same_cores_set s _ i h h4); [done|congruence|done|exact Est]. }
  split; [done|].
  destruct (strip_aget_inv (threads s4) i h4) as (h5 & Hh5 & E5).
  { rewrite Est. eapply aget_aset_same. by rewrite strip_aget, Hi. }
  exists i, h5. split_and!; [|exact Hh5|by apply (f_equal tid) in E5|by apply (f_equal start) in E5|by apply (f_equal arg) in E5].
  split; simpl; rewrite ?R0, ?R2, ?R4, ?R5, ?R6, ?R7, ?R8, ?R9; simpl; rewrite ?length_aset; try done; try apply Hok.
  - by destruct Hq4.
  - by destruct Hch4.
  - rewrite Est. eapply (tab_new _ q); [done|by rewrite strip_aget, Hi|done|done|done|]. right. split; [done|].
    unfold ready. simpl. split; [done|]. split; [done|]. split; [by left|]. split; [done|apply Hok].
  - pose proof (so_tid _ _ _ _ Hok). lia.
Qed.

(** ** Sleeping and waking *)

Lemma tab_asleep l q A A' :
  tab_ok l q A -> (forall i, i ∈ A' -> i ∈ A \/ exists c, runs l c i) -> tab_ok l q A'.
Proof.
  intros [] HA. split; try done. intros i Hi. destruct (HA i Hi); [auto|done].
Qed.

(** A running thread goes to sleep on the list [c] of a condition variable. *)
Lemma sleep_ok s s' q A me i h c :
  sched_ok s q A -> runs (threads s) me i -> i ∉ A -> aget (threads s) i = Some h -> cond_ok (threads s) A c ->
  threads s' = aset i (set_next (cv_queue c) h) (threads s) ->
  chains_ok s' ({[i]} ∪ A) -> (sq_size (sched_queue s'), sq_head (sched_queue s'), sq_tail (sched_queue s')) =
    (sq_size (sched_queue s), sq_head (sched_queue s), sq_tail (sched_queue s)) ->
  lock_tm s' = false -> alen (joincond s') = KTHREAD_MAX ->
  sl_lock (tm_sleep s') = false /\ alen (sl_queues (tm_sleep s')) = KTHREAD_MAX ->
  ustacks s' = ustacks s /\ kstacks s' = kstacks s /\ tm_pool s' = tm_pool s /\ next_tid s' = next_tid s /\
  exit_values s' = exit_values s /\ next_exit_value s' = next_exit_value s ->
  same_cores s s' /\ sched_ok s' q ({[i]} ∪ A).
Proof.
  intros Hok Hru HiA Hi Hc Et Hch [= Eq1 Eq2 Eq3] El Ej Esl (E1 & E2 & E3 & E4 & E5 & E6). pose proof (so_tab _ _ _ _ Hok) as Ht.
  pose proof (tab_running_free t _ _ _ _ _ Ht (proj2 (runs_strip _ _ _) Hru)) as Hiq.
  assert (Est : strip (threads s') = strip (threads s)) by (rewrite Et; by apply strip_aset_next).
  split; [intros c' k; rewrite <- (runs_strip (threads s')), <- (runs_strip (threads s)), Est; done|].
  split; rewrite ?E1, ?E2, ?E3, ?E4, ?E5, ?E6; try done; try apply Hok.
  - destruct (so_queue _ _ _ _ Hok). split; rewrite ?Eq1, ?Eq2, ?Eq3; try done. rewrite Et. by apply linked_other.
  - rewrite Est. eapply tab_asleep; [exact Ht|]. intros j. rewrite elem_of_union, elem_of_singleton. intros [->|]; [|by left].
    right. exists me. by apply runs_strip.
  - rewrite Et. apply links_ok_set; [apply Hok|]. simpl. intros z. by eapply cond_head.
Qed.

Lemma idle_down_spec s q A me i :
  sched_ok s q A -> runs (threads s) me i -> i ∉ A ->
  wp (semaphore_down_try queue_sem set_queue_sem i) (fun b s' =>
    same_cores s s' /\ sched_ok s' q (if b then A else {[i]} ∪ A)) s.
Proof.
  intros Hok Hru HiA. assert (Hru' := Hru). destruct Hru' as (h & Hi & _).
  destruct (so_chains _ _ _ _ Hok) as [[Hu Hs] Hj Hsl].
  eapply (semaphore_down_spec queue_sem set_queue_sem i h (sq_sem (sched_queue s))); [done|by split; [|apply Hs]|exact Hi|..].
  - intros _. split; [done|]. split; try apply Hok; [by destruct (so_queue _ _ _ _ Hok)|by split].
  - intros _. eapply (sleep_ok s _ q A me i h); try done; try apply Hok. split; simpl.
    + split; [done|]. by apply cond_ok_push.
    + intros j c Hc. apply cond_ok_other; [by eapply Hj|done].
    + intros k id c Hc. apply cond_ok_other; [by eapply Hsl|done].
Qed.

(** A thread on the list of a condition variable. *)
Definition on_list (s : tm) (i : Z) (c : condvar) : Prop := exists w, linked (threads s) (cv_queue c) w /\ i ∈ w.
Definition waits (s : tm) (i : Z) : Prop :=
  on_list s i (sem_cond (sq_sem (sched_queue s))) \/
  (exists j c, aget (joincond s) j = Some c /\ on_list s i c) \/
  (exists k id c, aget (sl_queues (tm_sleep s)) k = Some (id, c) /\ on_list s i c).

Lemma cond_ok_wake s A c i : cond_ok (threads s) A c -> ~ on_list s i c -> cond_ok (threads s) (A ∖ {[i]}) c.
Proof.
  intros [Hl (w & Hw & HA)] Hno. split; [done|]. exists w. split; [done|]. intros j Hjw. apply elem_of_difference.
  split; [by apply HA|]. intros ->%elem_of_singleton. apply Hno. by exists w.
Qed.

Lemma wake_spec s q A i : sched_ok s q A -> ~ waits s i -> sched_ok s q (A ∖ {[i]}).
Proof.
  intros Hok Hno. split; try apply Hok.
  - destruct (so_chains _ _ _ _ Hok) as [[Hu Hs] Hj Hsl]. split.
    + split; [done|]. apply cond_ok_wake; [done|]. intros ?. apply Hno. by left.
    + intros j c Hc. apply cond_ok_wake; [by eapply Hj|]. intros ?. apply Hno. right. left. by exists j, c.
    + intros k id c Hc. apply cond_ok_wake; [by eapply Hsl|]. intros ?. apply Hno. do 2 right. by exists k, id, c.
  - eapply tab_asleep; [apply Hok|]. intros j Hj. left. set_solver.
Qed.

(** ** Joining *)

(** The value that was saved for [id] last, or zero. *)
Definition exit_value_of (id : Z) (l : list exit_value) : Z :=
  match search (fun e => ev_tid e =? id) l with
  | Some i => match aget l i with Some e => ev_retval e | None => 0 end
  | None => 0
  end.

Lemma thread_join_begin_spec s q A me i h id :
  sched_ok s q A -> aget (threads s) i = Some h -> state h = THREAD_RUNNING -> coreid h = me -> i ∉ A ->
  KTHREAD_NULL_TID < id -> id <> tid h -> id <> KTHREAD_MASTER_TID ->
  wp (thread_join_begin me id) (fun r s' =>
    match r with
    | inr _ => s' = tm_set_lock true s
    | inl k => same_cores s s' /\ sched_ok s' q ({[i]} ∪ A)
    end) s.
Proof.
  intros Hok Hi Hs Hc HiA Hid Hne Hnm. pose proof (so_tab _ _ _ _ Hok) as Ht.
  assert (Hru : runs (threads s) me i) by (by exists h).
  pose proof (tab_one_curr t _ _ _ _ _ Ht Hru) as Hcur.
  pose proof (tab_running_free t _ _ _ _ _ Ht (proj2 (runs_strip _ _ _) Hru)) as Hiq.
  unfold thread_join_begin. wp_step. wp_step; [by apply Z.ltb_lt|]. wp_step. unfold thread_get_curr. wp_step. rewrite Hcur.
  wp_step. unfold deref. wp_step; [done|]. wp_step. eapply wp_thread_read; [exact Hi|].
  wp_step. wp_step; [by rewrite (proj2 (Z.eqb_neq _ _))|]. wp_step. wp_step; [by rewrite (proj2 (Z.eqb_neq _ _))|].
  wp_step. apply wp_lock_threads; [apply Hok|]. wp_step. unfold thread_get. wp_step. wp_step; [by apply Z.ltb_lt|]. wp_step.
  destruct (search _ _) as [k|] eqn:E; [|by wp_step]. apply search_Some in E as (_ & (hk & Hk & _) & _). simpl in Hk.
  wp_step. eapply wp_thread_read; [exact Hk|]. case_decide; [by wp_step|].
  destruct (so_chains _ _ _ _ Hok) as [[Hu Hsm] Hj Hsl].
  assert (Hkr : 0 ≤ k < alen (joincond s)).
  { rewrite (so_join _ _ _ _ Hok), <- (to_length _ _ _ _ Ht), length_strip. by eapply aget_lt. }
  destruct (aget_is_Some _ _ Hkr) as [c Hck]. pose proof (Hj k c Hck) as Hcok.
  wp_step. eapply (cond_wait_spec (join_cv k) (set_join_cv k) i h c); [exact Hck|by apply Hcok|exact Hi|].
  unfold unlock_threads. wp_step. wp_step. eapply (sleep_ok s _ q A me i h c); try done; try apply Hok.
  - split; simpl.
    + split; [done|]. by apply cond_ok_other.
    + intros j cj. destruct (decide (k = j)) as [<-|Hkj].
      * rewrite (aget_aset_same _ _ _ _ Hck). intros [= <-]. by apply cond_ok_push.
      * rewrite aget_aset_ne by done. intros Hcj. apply cond_ok_other; [by eapply Hj|done].
    + intros j id0 cj Hcj. apply cond_ok_other; [by eapply Hsl|done].
  - simpl. rewrite length_aset. apply Hok.
Qed.

Lemma thread_join_end_spec s id :
  lock_tm s = false ->
  wp (thread_join_end id) (fun r s' => s' = s /\
    r = (if id <? next_tid s then (0, exit_value_of id (exit_values s)) else (err EINVAL, 0))) (tm_set_lock true s).
Proof.
  intros Hl. unfold thread_join_end, thread_search_retval. wp_step. wp_step. wp_step. wp_step. wp_step.
  unfold unlock_threads. wp_step. wp_step. split; [|done]. destruct s; simpl in *. by subst.
Qed.

End ops.
