(* ===== verification/Sleep.v ===== *)
(** * Sleeping threads

    Model of src/kernel/sys/sleep.c: a thread sleeps on the condition variable of
    its core until another thread wakes it up by its identifier.  [kernel_sleep] is
    split where the core sleeps. *)

From stdpp Require Import base gmap list.
From S2P Require Import Prelude.
From S2P Require Import Hlib.
From S2P Require Import MemLayout.
From S2P Require Import Kpool.
From S2P Require Import ThreadBase.
From S2P Require Import Cond.
From S2P Require Import Thread.

Open Scope Z_scope.

Section sleep.
Context `{H : Hlib} `{C : CoreHw}.

Definition sl_set_lock (b : spinlock_t) (s : tm) : tm :=
  tm_set_sleep (SleepQueues b (sl_queues (tm_sleep s))) s.
Definition sl_set_queues (l : list (Z * condvar)) (s : tm) : tm :=
  tm_set_sleep (SleepQueues (sl_lock (tm_sleep s)) l) s.

Definition lock_sleep : K tm unit := spinlock_lock (fun s => sl_lock (tm_sleep s)) sl_set_lock.
Definition unlock_sleep : K tm unit := spinlock_unlock sl_set_lock.

(** The condition variable of entry [k], and the assignment to its identifier. *)
Definition sleep_cv (k : Z) (s : tm) : option condvar := snd <$> aget (sl_queues (tm_sleep s)) k.
Definition set_sleep_cv (k : Z) (c : condvar) (s : tm) : tm :=
  match aget (sl_queues (tm_sleep s)) k with
  | Some (id, _) => sl_set_queues (aset k (id, c) (sl_queues (tm_sleep s))) s
  | None => s
  end.
Definition sleep_set_tid (k id : Z) : K tm unit :=
  o ← kgets (fun s => aget (sl_queues (tm_sleep s)) k);
  e ← kunwrap o;
  kmodify (fun s => sl_set_queues (aset k (id, snd (e : Z * condvar)) (sl_queues (tm_sleep s))) s).

(** [kernel_sleep] of the thread on core [me], up to the point where the core sleeps; the
    result is the entry it uses. *)
Definition kernel_sleep_begin (me : Z) : K tm Z :=
  c ← thread_get_curr me;
  curr ← deref c;
  h ← thread_read curr;
  lock_sleep;;
  sleep_set_tid (coreid h) (tid h);;
  cond_wait_begin (sleep_cv (coreid h)) (set_sleep_cv (coreid h)) curr unlock_sleep;;
  mret (coreid h).

Definition kernel_sleep_end (coreid' : Z) : K tm Z :=
  lock_sleep;;
  sleep_set_tid coreid' (-1);;
  unlock_sleep;;
  mret 0.

Definition kernel_wakeup (tid' : Z) : K tm Z :=
  if tid' <? 0 then mret (err EINVAL) else
  lock_sleep;;
  o ← kgets (fun s => search (fun e : Z * condvar => tid' =? fst e) (sl_queues (tm_sleep s)));
  match o : option Z with
  | Some i =>
      cond_broadcast (sleep_cv i) (set_sleep_cv i);;
      unlock_sleep;;
      mret 0
  | None => unlock_sleep;; mret (err EAGAIN)
  end.

End sleep.
