(* ===== verification/SleepSpec.v ===== *)
(** * Sleeping threads: specification

    Sleeping and waking keep the invariant of the thread system, and a wake-up takes the
    thread with the given identifier off its list and signals its core. *)

From stdpp Require Import base gmap list.
From S2P Require Import Prelude.
From S2P Require Import Hlib.
From S2P Require Import MemLayout.
From S2P Require Import Kpool.
From S2P Require Import ThreadBase.
From S2P Require Import Cond.
From S2P Require Import CondSpec.
From S2P Require Import Thread.
From S2P Require Import ThreadSpec.
From S2P Require Import ThreadOps.
From S2P Require Import Sleep.

Open Scope Z_scope.

#[export] Instance sleep_cv_lens `{CoreHw} k : TmLens (sleep_cv k) (set_sleep_cv k).
Proof.
  split; unfold sleep_cv, set_sleep_cv; simpl; try (intros; by destruct (aget (sl_queues (tm_sleep s)) k) as [[]|]).
  - intros x x' s Hx. destruct (aget (sl_queues (tm_sleep s)) k) as [[id c]|] eqn:E; [|done]. simpl.
    by rewrite (aget_aset_same _ _ _ _ E).
  - intros x x' s Hx. destruct (aget (sl_queues (tm_sleep s)) k) as [[id c]|] eqn:E; [|done]. simpl.
    rewrite (aget_aset_same _ _ _ _ E). unfold sl_set_queues, tm_set_sleep. simpl. by rewrite aset_aset_eq.
  - intros x s Hx. destruct (aget (sl_queues (tm_sleep s)) k) as [[id c]|] eqn:E; [|done]. simpl in Hx. injection Hx as <-.
    rewrite aset_id by done. unfold sl_set_queues. by destruct s as [? ? ? ? ? ? ? ? ? ? ? ? ? []].
Qed.

Section spec.
Context `{H : Hlib} `{C : CoreHw} `{ML : MemLayout} (t : mm_target).
Context {HL : HlibLaws H} {CL : CoreHwLaws C t} {MLL : MemLayoutLaws ML}.

Abbreviation sched_ok := (sched_ok t).

Lemma wp_lock_sleep Q s : sl_lock (tm_sleep s) = false -> Q tt (sl_set_lock true s) -> wp lock_sleep Q s.
Proof. intros. unfold lock_sleep. by wp_step. Qed.

Lemma wp_sleep_set_tid k id e (Q : unit -> tm -> Prop) s :
  aget (sl_queues (tm_sleep s)) k = Some e -> Q tt (sl_set_queues (aset k (id, snd e) (sl_queues (tm_sleep s))) s) ->
  wp (sleep_set_tid k id) Q s.
Proof. intros He HQ. unfold sleep_set_tid. do 2 wp_step. wp_step. wp_step; [exact He|]. by wp_step. Qed.

(** A change of the table of sleeping threads, entry [k]. *)
Lemma sched_ok_entry s q A k e e' :
  sched_ok s q A -> aget (sl_queues (tm_sleep s)) k = Some e -> cond_ok (threads s) A (snd e') ->
  sched_ok (tm_set_sleep (SleepQueues false (aset k e' (sl_queues (tm_sleep s)))) s) q A.
Proof.
  intros Hok He Hc. split; try apply Hok.
  - by destruct (so_queue _ _ _ _ Hok).
  - destruct (so_chains _ _ _ _ Hok) as [Hs Hj Hsl]. split; [done|done|]. simpl. intros k' id c.
    destruct (decide (k = k')) as [<-|Hne].
    + rewrite (aget_aset_same _ _ _ _ He). by intros [= ->].
    + rewrite aget_aset_ne by done. apply Hsl.
  - simpl. rewrite length_aset. split; [done|]. apply Hok.
Qed.

Lemma sched_ok_cores s q A c : sched_ok s q A -> sched_ok (tm_set_cores c s) q A.
Proof.
  intros Hok. split; try apply Hok; [by destruct (so_queue _ _ _ _ Hok)|by destruct (so_chains _ _ _ _ Hok)].
Qed.

Lemma sleep_entry s q A k : sched_ok s q A -> 0 ≤ k < CORES_NUM -> exists e, aget (sl_queues (tm_sleep s)) k = Some e.
Proof.
  intros Hok Hk. destruct (aget_is_Some (sl_queues (tm_sleep s)) k) as [e He]; [|by exists e].
  destruct (so_sleep _ _ _ _ Hok) as [_ ->]. unfold KTHREAD_MAX, THREAD_MAX, SYS_THREAD_MAX. lia.
Qed.

Lemma kernel_sleep_spec s q A me i h :
  sched_ok s q A -> aget (threads s) i = Some h -> state h = THREAD_RUNNING -> coreid h = me -> 0 ≤ me < CORES_NUM -> i ∉ A ->
  wp (kernel_sleep_begin me) (fun k s' => k = me /\ same_cores s s' /\ sched_ok s' q ({[i]} ∪ A) /\
    exists c, aget (sl_queues (tm_sleep s')) me = Some (tid h, Condvar false (Some i)) /\
      threads s' = aset i (set_next (cv_queue c) h) (threads s) /\ cond_ok (threads s) A c /\ tm_cores s' = tm_cores s /\
      forall k', k' <> me -> aget (sl_queues (tm_sleep s')) k' = aget (sl_queues (tm_sleep s)) k') s.
Proof.
  intros Hok Hi Hs Hc Hme HiA. assert (Hru : runs (threads s) me i) by (by exists h).
  pose proof (tab_one_curr t _ _ _ _ _ (so_tab _ _ _ _ Hok) Hru) as Hcur.
  destruct (sleep_entry s q A me Hok Hme) as [[id c] He]. destruct (so_chains _ _ _ _ Hok) as [[Hu Hsm] Hj Hsl].
  pose proof (Hsl me id c He) as Hcok. destruct (so_sleep _ _ _ _ Hok) as [Hsk Hsn].
  unfold kernel_sleep_begin. wp_step. unfold thread_get_curr. wp_step. rewrite Hcur. wp_step. unfold deref. wp_step; [done|].
  wp_step. eapply wp_thread_read; [exact Hi|]. wp_step. apply wp_lock_sleep; [done|]. rewrite Hc.
  wp_step. eapply wp_sleep_set_tid; [exact He|]. wp_step. simpl.
  eapply (cond_wait_spec (sleep_cv me) (set_sleep_cv me) i h c).
  { unfold sleep_cv. simpl. by rewrite (aget_aset_same _ _ _ _ He). }
  { apply Hcok. }
  { exact Hi. }
  unfold unlock_sleep. wp_step. wp_step. unfold set_sleep_cv. simpl. rewrite (aget_aset_same _ _ _ _ He). simpl. rewrite aset_aset_eq.
  split; [done|]. match goal with |- same_cores s ?x /\ _ => set (s' := x) end.
  destruct (sleep_ok t s s' q A me i h c Hok Hru HiA Hi Hcok) as [Hsame Hok']; try done; try apply Hok.
  - split; simpl.
    + split; [done|]. by apply cond_ok_other.
    + intros j cj Hcj. apply cond_ok_other; [by eapply Hj|done].
    + intros k' id' c'. destruct (decide (me = k')) as [<-|Hne].
      * rewrite (aget_aset_same _ _ _ _ He). intros [= <- <-]. by apply cond_ok_push.
      * rewrite aget_aset_ne by done. intros Hk'. apply cond_ok_other; [by eapply Hsl|done].
  - simpl. rewrite length_aset. by split.
  - split; [done|]. split; [done|]. exists c. split_and!; try done.
    + simpl. by rewrite (aget_aset_same _ _ _ _ He).
    + intros k' Hk'. simpl. by rewrite aget_aset_ne.
Qed.

Lemma kernel_sleep_end_spec s q A k :
  sched_ok s q A -> 0 ≤ k < CORES_NUM ->
  wp (kernel_sleep_end k) (fun r s' => r = 0 /\ threads s' = threads s /\ sched_ok s' q A) s.
Proof.
  intros Hok Hk. destruct (sleep_entry s q A k Hok Hk) as [e He]. unfold kernel_sleep_end.
  wp_step. apply wp_lock_sleep; [apply Hok|]. wp_step. eapply wp_sleep_set_tid; [exact He|].
  unfold unlock_sleep. do 2 wp_step. wp_step. split_and!; try done.
  apply (sched_ok_entry s q A k e); [done|done|]. destruct e as [id c]. by apply (ch_sleep _ _ (so_chains _ _ _ _ Hok) k id).
Qed.

(** The entry of a thread that sleeps. *)
Definition sleeps_at (s : tm) (k id : Z) : Prop :=
  exists c, aget (sl_queues (tm_sleep s)) k = Some (id, c) /\
    forall j e, j < k -> aget (sl_queues (tm_sleep s)) j = Some e -> fst e <> id.

Lemma kernel_wakeup_spec s q A id :
  sched_ok s q A ->
  wp (kernel_wakeup id) (fun r s' => threads s' = threads s /\ sched_ok s' q A /\
    ((r = err EINVAL /\ id < 0 /\ s' = s) \/ (r = err EAGAIN /\ 0 ≤ id /\ s' = s /\ forall e, e ∈ sl_queues (tm_sleep s) -> fst e <> id) \/
     r = 0 /\ exists k c w, sleeps_at s k id /\ aget (sl_queues (tm_sleep s)) k = Some (id, c) /\
       linked (threads s) (cv_queue c) w /\ tm_cores s' = wake_all (threads s) w (tm_cores s) /\
       aget (sl_queues (tm_sleep s')) k = Some (id, Condvar false None))) s.
Proof.
  intros Hok. unfold kernel_wakeup. wp_step.
  { wp_step. split_and!; try done. left. split_and!; try done. lia. }
  wp_step. apply wp_lock_sleep; [apply Hok|]. do 2 wp_step. simpl. destruct (search _ _) as [k|] eqn:Es.
  - apply search_Some in Es as (_ & ([id' c] & He & Eid) & Hmin). simpl in Eid. apply Z.eqb_eq in Eid as <-.
    destruct (ch_sleep _ _ (so_chains _ _ _ _ Hok) k id c He) as [Hcl (w & Hw & _)].
    wp_step. eapply (cond_broadcast_spec (sleep_cv k) (set_sleep_cv k) w c); [|done|done|].
    { unfold sleep_cv. simpl. by rewrite He. }
    unfold unlock_sleep. do 2 wp_step. wp_step. unfold set_sleep_cv. simpl. rewrite He. simpl. split; [done|]. split.
    + apply (sched_ok_cores (tm_set_sleep (SleepQueues false (aset k (id, Condvar false None) (sl_queues (tm_sleep s)))) s)).
      eapply sched_ok_entry; [done|done|]. apply cond_ok_empty.
    + do 2 right. split; [done|]. exists k, c, w. split_and!; try done; [|by rewrite (aget_aset_same _ _ _ _ He)].
      exists c. split; [done|]. intros j e Hj Hje Heq. specialize (Hmin j e Hj Hje). simpl in Hmin. lia.
  - apply search_None in Es. unfold unlock_sleep. do 2 wp_step. wp_step.
    assert (E : sl_set_lock false (sl_set_lock true s) = s).
    { destruct (so_sleep _ _ _ _ Hok) as [Hl _]. destruct s as [? ? ? ? ? ? ? ? ? ? ? ? ? []]. simpl in *. by subst. }
    rewrite E. split_and!; try done. right. left. split_and!; try done; [lia|]. intros e He Heq.
    rewrite Forall_forall in Es. specialize (Es e He). simpl in Es. lia.
Qed.

End spec.
