(* ===== verification/ThreadSteps.v ===== *)
(** * The cores as a transition system

    The steps of the cores on the thread system, and that each of them keeps the
    invariant of ThreadSpec. *)

From stdpp Require Import base gmap list.
From S2P Require Import Prelude.
From S2P Require Import Hlib.
From S2P Require Import MemLayout.
From S2P Require Import Kpool.
From S2P Require Import ThreadBase.
From S2P Require Import Cond.
From S2P Require Import CondSpec.
From S2P Require Import Thread.
From S2P Require Import ThreadSpec.
From S2P Require Import ThreadOps.
From S2P Require Import Sleep.
From S2P Require Import SleepSpec.

Open Scope Z_scope.

Section steps.
Context `{H : Hlib} `{C : CoreHw} `{ML : MemLayout} (t : mm_target).
Context {HL : HlibLaws H} {CL : CoreHwLaws C t} {MLL : MemLayoutLaws ML}.

Abbreviation sched_ok := (sched_ok t).

(** One step of a core: a call that does not block, or the part of a call up to the
    point where the core sleeps or from there to the end.  [A] are the threads whose
    core sleeps. *)
Inductive tm_step : tm * gset Z -> tm * gset Z -> Prop :=
| tstep_yield me i r s s' A :
    0 < me -> runs (threads s) me i -> i ∉ A -> thread_yield t me s = Done r s' -> tm_step (s, A) (s', A)
| tstep_exit me i v r s s' A :
    0 < me -> runs (threads s) me i -> is_user i -> i ∉ A -> thread_exit t me v s = Done r s' -> tm_step (s, A) (s', A)
| tstep_create entry a r s s' A :
    entry <> 0 -> thread_create entry a s = Done r s' -> tm_step (s, A) (s', A)
| tstep_down me i b s s' A :
    runs (threads s) me i -> i ∉ A -> semaphore_down_try queue_sem set_queue_sem i s = Done b s' ->
    tm_step (s, A) (s', if b then A else {[i]} ∪ A)
| tstep_join_sleep me i h id k s s' A :
    aget (threads s) i = Some h -> state h = THREAD_RUNNING -> coreid h = me -> i ∉ A ->
    KTHREAD_NULL_TID < id -> id <> tid h -> id <> KTHREAD_MASTER_TID ->
    thread_join_begin me id s = Done (inl k) s' -> tm_step (s, A) (s', {[i]} ∪ A)
| tstep_join_now me i h id r s s1 s' A :
    aget (threads s) i = Some h -> state h = THREAD_RUNNING -> coreid h = me -> i ∉ A ->
    KTHREAD_NULL_TID < id -> id <> tid h -> id <> KTHREAD_MASTER_TID ->
    thread_join_begin me id s = Done (inr tt) s1 -> thread_join_end id s1 = Done r s' -> tm_step (s, A) (s', A)
| tstep_join_end id r s s' A :
    (lock_threads;; thread_join_end id) s = Done r s' -> tm_step (s, A) (s', A)
| tstep_sleep me i h k s s' A :
    aget (threads s) i = Some h -> state h = THREAD_RUNNING -> coreid h = me -> i ∉ A ->
    kernel_sleep_begin me s = Done k s' -> tm_step (s, A) (s', {[i]} ∪ A)
| tstep_sleep_end k r s s' A :
    0 ≤ k < CORES_NUM -> kernel_sleep_end k s = Done r s' -> tm_step (s, A) (s', A)
| tstep_wakeup id r s s' A :
    kernel_wakeup id s = Done r s' -> tm_step (s, A) (s', A)
| tstep_wake i s A : i ∈ A -> ~ waits s i -> tm_step (s, A) (s, A ∖ {[i]}).

Lemma runs_range s q A me i : sched_ok s q A -> runs (threads s) me i -> 0 ≤ me < CORES_NUM.
Proof.
  intros Hok (h & Hi & Hs & <-). assert (Hsi : aget (strip (threads s)) i = Some (set_next None h)) by (by rewrite strip_aget, Hi).
  by destruct (to_running _ _ _ _ (so_tab _ _ _ _ Hok) i _ Hsi Hs).
Qed.

Lemma tm_step_ok c c' q : sched_ok (fst c) q (snd c) -> tm_step c c' -> exists q', sched_ok (fst c') q' (snd c').
Proof.
  intros Hok Hst. destruct Hst as [me i r s s' A Hme Hru HA E|me i v r s s' A Hme Hru Hu HA E|entry a r s s' A He E
    |me i b s s' A Hru HA E|me i h id k s s' A Hi Hs Hc HA H1 H2 H3 E|me i h id r s s1 s' A Hi Hs Hc HA H1 H2 H3 E E'|id r s s' A E
    |me i h k s s' A Hi Hs Hc HA E|k r s s' A Hk E|id r s s' A E|i s A Hi Hno]; simpl in *.
  - destruct (runs_range _ _ _ _ _ Hok Hru) as [_ Hc]. destruct q as [|j q].
    + destruct (wp_Done _ _ _ _ _ E (thread_yield_empty t s A me i Hok Hru Hme)) as [_ ->]. by exists [].
    + destruct (wp_Done _ _ _ _ _ E (thread_yield_next t s j q A me i Hok Hru ltac:(lia) HA)) as (_ & Hok' & _). by eexists.
  - destruct (runs_range _ _ _ _ _ Hok Hru) as [_ Hc]. destruct Hru as (h & Hi & Hs & Hch).
    destruct (wp_Done _ _ _ _ _ E (thread_exit_spec t s q A me i h v Hok Hi Hs Hch Hu ltac:(lia) HA)) as (_ & Hok' & _). by eexists.
  - destruct (wp_Done _ _ _ _ _ E (thread_create_spec t s q A entry a Hok He)) as (_ & Hr).
    destruct r as [e|id]; [destruct Hr as (_ & Hok' & _); by eexists|]. destruct Hr as (_ & _ & i & h & Hok' & _). by eexists.
  - destruct (wp_Done _ _ _ _ _ E (idle_down_spec t s q A me i Hok Hru HA)) as (_ & Hok'). by eexists.
  - destruct (wp_Done _ _ _ _ _ E (thread_join_begin_spec t s q A me i h id Hok Hi Hs Hc HA H1 H2 H3)) as (_ & Hok'). by eexists.
  - pose proof (wp_Done _ _ _ _ _ E (thread_join_begin_spec t s q A me i h id Hok Hi Hs Hc HA H1 H2 H3)) as E1. simpl in E1. subst s1.
    destruct (wp_Done _ _ _ _ _ E' (thread_join_end_spec s id (so_lock _ _ _ _ Hok))) as [-> _]. by exists q.
  - assert (Hw : wp (lock_threads;; thread_join_end id) (fun _ s' => s' = s) s).
    { wp_step. apply wp_lock_threads; [apply Hok|]. eapply wp_mono; [apply thread_join_end_spec, Hok|]. by intros ? ? [-> _]. }
    rewrite (wp_Done _ _ _ _ _ E Hw). by exists q.
  - pose proof (runs_range _ _ _ me i Hok (ex_intro _ h (conj Hi (conj Hs Hc)))) as Hr.
    destruct (wp_Done _ _ _ _ _ E (kernel_sleep_spec t s q A me i h Hok Hi Hs Hc Hr HA)) as (_ & _ & Hok' & _). by eexists.
  - destruct (wp_Done _ _ _ _ _ E (kernel_sleep_end_spec t s q A k Hok Hk)) as (_ & _ & Hok'). by eexists.
  - destruct (wp_Done _ _ _ _ _ E (kernel_wakeup_spec t s q A id Hok)) as (_ & Hok' & _). by eexists.
  - exists q. by eapply wake_spec.
Qed.

Lemma thread_yield_total s q A me i :
  sched_ok s q A -> runs (threads s) me i -> 0 < me -> i ∉ A -> wp (thread_yield t me) (fun _ _ => True) s.
Proof.
  intros Hok Hru Hme HA. pose proof (runs_range _ _ _ _ _ Hok Hru) as Hr.
  destruct q as [|j q]; [exact (wp_defined _ _ _ (thread_yield_empty t s A me i Hok Hru Hme))|].
  exact (wp_defined _ _ _ (thread_yield_next t s j q A me i Hok Hru ltac:(lia) HA)).
Qed.

Lemma tm_steps_ok c c' q :
  sched_ok (fst c) q (snd c) -> rtc tm_step c c' -> exists q', sched_ok (fst c') q' (snd c').
Proof.
  intros Hok Hst. revert q Hok. induction Hst as [|c c1 c' Hstep _ IH]; intros q Hok; [by exists q|].
  destruct (tm_step_ok _ _ _ Hok Hstep) as [q1 Hok1]. by apply (IH q1).
Qed.

End steps.
