(* ===== verification/Scheduler.v ===== *)
(** The thread system as a whole: its initialisation, the invariant of every
    interleaving, the order of scheduling, and the window in which a thread that yields
    is exposed to other cores. *)

From S2P Require Import Prelude.
From S2P Require Import Hlib.
From S2P Require Import MemLayout.
From S2P Require Import Kpool.
From S2P Require Import ThreadBase.
From S2P Require Import Cond.
From S2P Require Import CondSpec.
From S2P Require Import Thread.
From S2P Require Import ThreadSpec.
From S2P Require Import ThreadOps.
From S2P Require Import Sleep.
From S2P Require Import SleepSpec.
From S2P Require Import ThreadSteps.

Section scheduler.
Context `{H : Hlib} `{C : CoreHw} `{ML : MemLayout} (t : mm_target).

Abbreviation sched_ok := (sched_ok t).
Abbreviation tab_ok := (tab_ok t).

(** The static initial values. *)
Definition thread_unused : thread := Thread KTHREAD_NULL_TID 0 THREAD_NOT_STARTED 0 0 0 None.
Definition thread_master (kmain : Z) : thread := Thread KTHREAD_MASTER_TID 0 THREAD_RUNNING 0 kmain 0 None.

Record tm_static (kmain : Z) (s : tm) : Prop := {
  ts_threads : threads s = thread_master kmain :: replicate (Z.to_nat (KTHREAD_MAX - 1)) thread_unused;
  ts_join : joincond s = replicate (Z.to_nat KTHREAD_MAX) COND_INITIALIZER;
  ts_nthreads : nthreads s = 1;
  ts_next_tid : next_tid s = 1;
  ts_lock : lock_tm s = false;
  ts_queue : sched_queue s = ScheduleQueue 0 None None (SEMAPHORE_INITIALIZER 0);
  ts_exits : alen (exit_values s) = KTHREAD_EXIT_VALUE_NUM /\ next_exit_value s = 0;
  ts_pool : kpool_wf (tm_pool s);
  ts_sleep : tm_sleep s = SleepQueues false (replicate (Z.to_nat KTHREAD_MAX) (KTHREAD_NULL_TID, COND_INITIALIZER));
}.

Context {HL : HlibLaws H} {CL : CoreHwLaws C t} {MLL : MemLayoutLaws ML}.

(** ** Initialisation *)

(** The idle threads of the cores below [c] have been created. *)
Record init_upto (kmain c : Z) (s : tm) : Prop := {
  iu_length : alen (threads s) = KTHREAD_MAX;
  iu_master : aget (threads s) 0 = Some (thread_master kmain);
  iu_idle k : 0 < k < c -> aget (threads s) k = Some (Thread k k THREAD_RUNNING 0 thread_idle_addr 0 None);
  iu_unused k : c ≤ k < KTHREAD_MAX -> aget (threads s) k = Some thread_unused;
  iu_tid : next_tid s = c;
  iu_rest : lock_tm s = false /\ joincond s = replicate (Z.to_nat KTHREAD_MAX) COND_INITIALIZER /\
    sched_queue s = ScheduleQueue 0 None None (SEMAPHORE_INITIALIZER 0) /\
    alen (ustacks s) = THREAD_MAX /\ alen (kstacks s) = THREAD_MAX /\ kpool_wf (tm_pool s) /\
    alen (exit_values s) = KTHREAD_EXIT_VALUE_NUM /\ next_exit_value s = 0 /\
    tm_sleep s = SleepQueues false (replicate (Z.to_nat KTHREAD_MAX) (KTHREAD_NULL_TID, COND_INITIALIZER));
}.

Lemma max_bounds : CORES_NUM < KTHREAD_MAX.
Proof. pose proof cores_many. unfold KTHREAD_MAX, THREAD_MAX, SYS_THREAD_MAX. lia. Qed.

Lemma init_alloc kmain c s (Q : option Z -> tm -> Prop) :
  init_upto kmain c s -> 1 ≤ c < KTHREAD_MAX ->
  Q (Some c) (tm_set_threads (aset c (set_state THREAD_STARTED thread_unused) (threads s)) (tm_set_nthreads (nthreads s + 1) s)) ->
  wp thread_alloc Q s.
Proof.
  intros Hi Hc HQ. unfold thread_alloc. wp_step. wp_step.
  assert (E : search_from thread_available 1 (tail (threads s)) = Some c).
  { destruct (search_from thread_available 1 (tail (threads s))) as [k|] eqn:E.
    - apply search_from_Some in E as (Hk & (h & Hh & Hav) & Hmin). rewrite aget_tail in Hh by lia.
      replace (k - 1 + 1) with k in Hh by lia. f_equal.
      destruct (Z.lt_trichotomy k c) as [Hlt|[?|Hgt]]; [|done|].
      + rewrite (iu_idle _ _ _ Hi k) in Hh by lia. injection Hh as <-. done.
      + specialize (Hmin c thread_unused ltac:(lia)). rewrite aget_tail in Hmin by lia.
        replace (c - 1 + 1) with c in Hmin by lia. rewrite (iu_unused _ _ _ Hi c) in Hmin by lia. by specialize (Hmin eq_refl).
    - apply search_from_None in E. exfalso. pose proof (iu_unused _ _ _ Hi c ltac:(lia)) as Hu.
      replace c with (c - 1 + 1) in Hu by lia. rewrite <- aget_tail in Hu by lia.
      by pose proof (Forall_aget _ _ _ _ E Hu). }
  rewrite E. wp_step. eapply wp_thread_read; [apply (iu_unused _ _ _ Hi); lia|]. rewrite decide_True by done. wp_step. wp_step. wp_step.
  eapply wp_thread_update; [apply (iu_unused _ _ _ Hi); lia|]. by wp_step.
Qed.

Lemma init_idle_spec kmain c s :
  (forall k x, fst (core_start k x) = 0) -> init_upto kmain c s -> 1 ≤ c < CORES_NUM ->
  wp (init_idle c) (fun _ s' => init_upto kmain (c + 1) s') s.
Proof.
  intros Hstart Hi Hc. pose proof max_bounds. unfold init_idle. wp_step. eapply init_alloc; [done|lia|].
  wp_step. wp_step. wp_step. wp_step. wp_step. wp_step. wp_step. simpl. wp_step; [by rewrite (iu_tid _ _ _ Hi), Z.eqb_refl|].
  pose proof (iu_unused _ _ _ Hi c ltac:(lia)) as Hu.
  wp_step. eapply wp_thread_update; [simpl; by eapply aget_aset_same|]. simpl. rewrite aset_aset_eq.
  wp_step. wp_step; [by rewrite Z.eqb_refl|]. wp_step. change (Z.to_nat THREAD_CREATE_NTRIALS) with 5%nat. simpl.
  wp_step. wp_step. wp_step. wp_step. rewrite Hstart. pose proof (err_neg EBUSY).
  rewrite (proj2 (Z.eqb_neq 0 (err EBUSY))) by lia. simpl. wp_step. wp_step; [done|].
  rewrite (iu_tid _ _ _ Hi). set (h := Thread c c _ _ _ _ _). split; simpl.
  - rewrite length_aset. apply Hi.
  - rewrite aget_aset_ne by lia. apply Hi.
  - intros k Hk. destruct (decide (c = k)) as [<-|]; [by eapply aget_aset_same|]. rewrite aget_aset_ne by done. apply Hi. lia.
  - intros k Hk. rewrite aget_aset_ne by lia. apply Hi. lia.
  - done.
  - apply Hi.
Qed.

Lemma init_static kmain s :
  tm_static kmain s -> init_upto kmain 1
    (tm_set_fence true (tm_set_stacks (replicate (Z.to_nat THREAD_MAX) 0) (replicate (Z.to_nat THREAD_MAX) 0) s)).
Proof.
  intros [Et Ej _ Htid Hl Hq [He Hn] Hp Hsl]. pose proof max_bounds. pose proof cores_many.
  assert (0 ≤ THREAD_MAX) by (unfold THREAD_MAX, SYS_THREAD_MAX; lia).
  split; simpl; rewrite ?Et; try done.
  - simpl. rewrite length_replicate. lia.
  - lia.
  - intros k Hk. rewrite aget_cons_S by lia. destruct (aget_is_Some (replicate (Z.to_nat (KTHREAD_MAX - 1)) thread_unused) (k - 1)) as [x Hx].
    { rewrite length_replicate. lia. }
    by rewrite (aget_replicate _ _ _ _ Hx) in Hx.
  - split_and!; try done; rewrite length_replicate; lia.
Qed.

Lemma init_lookup kmain s k h :
  init_upto kmain CORES_NUM s -> aget (threads s) k = Some h ->
  (k = 0 /\ h = thread_master kmain) \/ (0 < k < CORES_NUM /\ h = Thread k k THREAD_RUNNING 0 thread_idle_addr 0 None) \/
  (is_user k /\ h = thread_unused).
Proof.
  intros Hi Hk. pose proof (aget_lt _ _ _ Hk) as Hr. rewrite (iu_length _ _ _ Hi) in Hr.
  destruct (decide (k = 0)) as [->|]; [left; rewrite (iu_master _ _ _ Hi) in Hk; by injection Hk|].
  destruct (decide (k < CORES_NUM)).
  - right; left. rewrite (iu_idle _ _ _ Hi k) in Hk by lia. split; [lia|]. by injection Hk.
  - right; right. rewrite (iu_unused _ _ _ Hi k) in Hk by lia. split; [unfold is_user, SYS_THREAD_MAX; lia|]. by injection Hk.
Qed.

Lemma init_tab kmain s : init_upto kmain CORES_NUM s -> tab_ok (strip (threads s)) [] ∅.
Proof.
  intros Hi. pose proof cores_many.
  assert (Hlook : forall k h, aget (strip (threads s)) k = Some h ->
    (k = 0 /\ h = thread_master kmain) \/ (0 < k < CORES_NUM /\ h = Thread k k THREAD_RUNNING 0 thread_idle_addr 0 None) \/
    (is_user k /\ h = thread_unused)).
  { intros k h (h' & Hh' & ->)%strip_aget_inv. destruct (init_lookup _ _ _ _ Hi Hh') as [[-> ->]|[[? ->]|[? ->]]]; auto. }
  assert (Hruns : forall c k, runs (strip (threads s)) c k <-> k = c /\ 0 ≤ c < CORES_NUM).
  { intros c k. split.
    - intros (h & Hh & Hs & Hc). destruct (Hlook k h Hh) as [[-> ->]|[[? ->]|[? ->]]]; simpl in *; try done; split; lia.
    - intros [-> Hc]. destruct (decide (c = 0)) as [->|].
      + exists (thread_master kmain). rewrite strip_aget, (iu_master _ _ _ Hi). done.
      + eexists. rewrite strip_aget, (iu_idle _ _ _ Hi c) by lia. done. }
  split.
  - rewrite length_strip. apply Hi.
  - by intros ? ? ?%not_elem_of_nil.
  - intros k h Hk Hu Hs. destruct (Hlook k h Hk) as [[-> ->]|[[? ->]|[? ->]]]; done.
  - intros k h Hk Hs. destruct (Hlook k h Hk) as [[-> ->]|[[? ->]|[? ->]]]; simpl in *; try done; split_and!; try lia; auto.
  - intros c Hc. exists c. by apply Hruns.
  - intros c i j [-> _]%Hruns [-> _]%Hruns. done.
  - intros c h Hc Hk. destruct (Hlook c h Hk) as [[-> ->]|[[? ->]|[Hu ->]]]; [lia|simpl; split_and!; [done|lia|by left]|].
    unfold is_user, SYS_THREAD_MAX in Hu. lia.
  - intros k h Hk. destruct (Hlook k h Hk) as [[-> ->]|[[? ->]|[? ->]]]; done.
  - intros i Hi'. by apply not_elem_of_empty in Hi'.
Qed.

Lemma thread_init_spec kmain s :
  tm_static kmain s -> (forall k x, fst (core_start k x) = 0) -> wp thread_init (fun _ s' => sched_ok s' [] ∅) s.
Proof.
  intros Hst Hstart. pose proof cores_many. pose proof max_bounds. unfold thread_init.
  wp_step. wp_step; [by rewrite Z.eqb_refl|]. wp_step. wp_step. wp_step. rewrite (ts_nthreads _ _ Hst). wp_step; [done|].
  wp_step. wp_step. wp_step. wp_step.
  apply (wp_kfor (fun c _ s' => init_upto kmain c s')); [by apply init_static| |].
  - intros c [] s' Hc Hi. unfold IDLE_THREAD_MAX, SYS_THREAD_MAX in Hc. wp_step.
    eapply wp_mono; [apply (init_idle_spec kmain); [done|done|lia]|]. intros [] s2 Hi2. by wp_step.
  - intros [] s' Hi. replace (1 + Z.of_nat (Z.to_nat IDLE_THREAD_MAX)) with CORES_NUM in Hi
      by (unfold IDLE_THREAD_MAX, SYS_THREAD_MAX; lia).
    destruct (iu_rest _ _ _ Hi) as (Hl & Hj & Hq & Hu & Hk & Hp & He & Hn & Hsl). split; try done.
    + by split; rewrite Hq.
    + assert (Hnil : forall l, exists w, linked l None w /\ forall i, i ∈ w -> i ∈ (∅ : gset Z))
        by (intros l; exists []; split; [done|]; by intros ? ?%not_elem_of_nil).
      split; rewrite ?Hq, ?Hj, ?Hsl; [by split| |].
      * by intros j c ->%aget_replicate.
      * by intros j id c [= -> ->]%aget_replicate.
    + by eapply init_tab.
    + intros k h z Hk' Hz. destruct (init_lookup _ _ _ _ Hi Hk') as [[-> ->]|[[? ->]|[? ->]]]; done.
    + rewrite Hj, length_replicate. lia.
    + rewrite Hsl. simpl. rewrite length_replicate. split; [done|lia].
    + rewrite (iu_tid _ _ _ Hi). lia.
    + unfold KTHREAD_EXIT_VALUE_NUM. split; [done|]. rewrite Hn. lia.
Qed.

(** ** The invariant of every interleaving *)


(** ** The order of scheduling *)

(** Core [me] executes a thread, which is awake. *)
Definition core_awake (s : tm) (A : gset Z) (me : Z) : Prop := 0 < me /\ exists i, runs (threads s) me i /\ i ∉ A.

Lemma yield_awake s A me j s' :
  runs (threads s') me j -> other_cores me s s' -> j ∉ A -> forall c, core_awake s A c -> core_awake s' A c.
Proof.
  intros Hj Hoth HjA c (Hc & k & Hk & HkA). split; [done|]. destruct (decide (c = me)) as [->|]; [by exists j|].
  exists k. split; [by apply Hoth|done].
Qed.

Lemma yields_spec s q A mes :
  sched_ok s q A -> Forall (core_awake s A) mes -> (length mes ≤ length q)%nat ->
  wp (kseq (map (thread_yield t) mes)) (fun rs s' =>
    rs = map inr (take (length mes) q) /\ (mes = [] -> s' = s) /\
    forall i me, last mes = Some me -> last rs = Some (inr i) -> runs (threads s') me i) s.
Proof.
  revert s q. induction mes as [|me mes IH]; intros s q Hok Hmes Hlen; simpl.
  { wp_step. done. }
  apply Forall_cons in Hmes as [(Hme & i & Hru & HiA) Hmes]. destruct q as [|j q]; [simpl in Hlen; lia|].
  destruct (runs_range t _ _ _ _ _ Hok Hru) as [_ Hc]. simpl in Hlen.
  assert (HjA : j ∉ A) by (eapply tab_ready_awake; [apply Hok|set_solver]).
  wp_step. eapply wp_mono; [apply (thread_yield_next t s j q A me i Hok Hru ltac:(lia) HiA)|].
  intros r s1 (-> & Hok1 & Hj1 & Hoth & _).
  assert (Hmes1 : Forall (core_awake s1 A) mes) by (eapply Forall_impl; [exact Hmes|]; by eapply yield_awake).
  assert (Htake : take (length mes) (requeue me i q) = take (length mes) q).
  { unfold requeue. destruct (i =? me); [done|]. apply take_app_le. lia. }
  wp_step. eapply wp_mono.
  { apply (IH s1 (requeue me i q) Hok1 Hmes1). unfold requeue. destruct (i =? me); [lia|]. rewrite length_app. lia. }
  intros rs s2 (-> & Hnil & Hlast). rewrite Htake in *. wp_step. split; [done|]. split; [done|]. intros k me' Hme' Hk.
  destruct mes as [|me2 mes].
  - simpl in *. injection Hme' as <-. injection Hk as <-. by rewrite Hnil.
  - apply Hlast; [done|]. destruct q as [|j2 q]; [simpl in Hlen; lia|]. done.
Qed.

(** (C15) Scheduling is first in, first out: whichever cores yield, the [n]-th yield
    hands its core to the [n]-th thread of the queue, so a thread that waits behind [k]
    others runs after [k + 1] yields. *)
Theorem scheduler_fifo s q A mes :
  sched_ok s q A -> Forall (core_awake s A) mes -> (length mes ≤ length q)%nat ->
  wp (kseq (map (thread_yield t) mes)) (fun rs s' =>
    rs = map inr (take (length mes) q) /\
    forall i me, last mes = Some me -> last rs = Some (inr i) -> runs (threads s') me i) s.
Proof.
  intros Hok Hmes Hlen. eapply wp_mono; [by apply (yields_spec s q A)|]. by intros rs s' (-> & _ & ?).
Qed.

(** ** A thread that yields is exposed before its context is saved *)

Lemma switch_refused me i j k hi hj hk s :
  get_curr me 0 (threads s) None = Some k -> aget (threads s) k = Some hk -> tid hk <> KTHREAD_MASTER_TID ->
  aget (threads s) i = Some hi -> ctx hi = 0 -> aget (threads s) j = Some hj -> ctx hj = 0 -> i <> j ->
  wp (yield_switch t me i j) (fun n s' => n = i /\ s' = s) s.
Proof.
  intros Hc Hk Htid Hi Hctx Hj Hctx' Hne. unfold yield_switch. wp_step. eapply wp_thread_read; [exact Hi|]. wp_step.
  rewrite Hctx. wp_step; [done|]. rewrite (proj2 (Z.eqb_neq i j)) by done. wp_step.
  assert (Hr : wp (thread_switch_to t me i j) (fun r s' => r = err EINVAL /\ s' = s) s).
  { unfold thread_switch_to. wp_step. unfold thread_get_curr. wp_step.
    rewrite Hc. wp_step. unfold deref. wp_step; [done|]. wp_step. eapply wp_thread_read; [exact Hk|].
    rewrite (proj2 (Z.eqb_neq _ _)) by done. destruct (thread_ctx_ok i) as [Ai Bi], (thread_ctx_ok j) as [Aj Bj].
    rewrite (proj2 (Z.eqb_neq (thread_ctx_addr i) 0)), Bi by done. simpl. wp_step. eapply wp_thread_read; [exact Hi|].
    rewrite Hctx. simpl. rewrite (proj2 (Z.eqb_neq (thread_ctx_addr j) 0)), Bj by done. simpl.
    wp_step. eapply wp_thread_read; [exact Hj|]. rewrite Hctx'. simpl. by wp_step. }
  eapply wp_mono; [exact Hr|]. intros r s' [-> ->]. wp_step. pose proof (err_neg EINVAL).
  by rewrite (proj2 (Z.eqb_neq _ _)) by lia.
Qed.

(** The table after core [me] selected [j] in the place of [i]. *)
Lemma selected_curr s s1 me i j hi hj :
  strip (threads s1) = aset j (take_over me (set_next None hj)) (aset i (give_way me i (set_next None hi)) (strip (threads s))) ->
  aget (threads s) i = Some hi -> aget (threads s) j = Some hj -> i <> j ->
  (forall c k k', runs (threads s) c k -> runs (threads s) c k' -> k = k') -> runs (threads s) me i ->
  state hj <> THREAD_RUNNING ->
  (forall c k, runs (threads s1) c k <-> (k = j /\ c = me) \/ (k <> i /\ k <> j /\ runs (threads s) c k)) /\
  (forall c k k', runs (threads s1) c k -> runs (threads s1) c k' -> k = k').
Proof.
  intros Est Hi Hj Hne Huniq Hru Hnr.
  assert (Hruns := runs_two (threads s) (threads s1) me i j hi hj _ _ Est Hi Hj Hne
    ltac:(unfold give_way; by destruct (i =? me)) eq_refl eq_refl).
  split; [exact Hruns|]. intros c k k'. rewrite !Hruns. intros [[-> ->]|(N1 & N2 & R1)] [[-> E]|(N3 & N4 & R2)]; try done.
  - exfalso. apply N3. by eapply Huniq.
  - subst c. exfalso. apply N1. by eapply Huniq.
  - by eapply Huniq.
Qed.

Lemma selected_fields s s1 me i j hi hj k h :
  strip (threads s1) = aset j (take_over me (set_next None hj)) (aset i (give_way me i (set_next None hi)) (strip (threads s))) ->
  aget (threads s) i = Some hi -> aget (threads s) j = Some hj -> i <> j -> aget (threads s) k = Some h ->
  exists h', aget (threads s1) k = Some h' /\ ctx h' = ctx h /\ tid h' = tid h /\
    (k = i -> state h' = THREAD_STOPPED) /\ (state h' = THREAD_ZOMBIE -> state h = THREAD_ZOMBIE).
Proof.
  intros Est Hi Hj Hne Hk.
  assert (Hs : aget (strip (threads s1)) k = Some (if decide (k = j) then take_over me (set_next None hj)
    else if decide (k = i) then give_way me i (set_next None hi) else set_next None h)).
  { rewrite Est, (aget_two _ i j (set_next None hi) (set_next None hj)) by (rewrite ?strip_aget, ?Hi, ?Hj; done).
    rewrite strip_aget, Hk. by repeat case_decide. }
  apply strip_aget_inv in Hs as (h' & Hh' & E). exists h'. split; [done|].
  assert (Hproj : ctx h' = ctx (set_next None h') /\ tid h' = tid (set_next None h') /\ state h' = state (set_next None h')) by done.
  rewrite <- E in Hproj. destruct Hproj as (-> & -> & ->). unfold give_way.
  repeat case_decide; simplify_eq; simpl; try done. by destruct (i =? me).
Qed.

(** A core that takes a thread whose context has not been saved goes on as before. *)
Lemma yield_steal s A a c me ha hc :
  lock_tm s = false -> queue_ok s [a] -> chains_ok s A -> links_ok (threads s) ->
  (forall c k k', runs (threads s) c k -> runs (threads s) c k' -> k = k') ->
  (forall z h, aget (threads s) z = Some h -> state h <> THREAD_ZOMBIE) ->
  runs (threads s) me c -> is_user c -> c <> me -> a <> c -> a ∉ A -> c ∉ A ->
  aget (threads s) a = Some ha -> ctx ha = 0 -> 0 < tid ha -> state ha <> THREAD_RUNNING ->
  aget (threads s) c = Some hc -> ctx hc = 0 -> 0 < tid hc ->
  wp (thread_yield t me) (fun r s' => r = inr c /\ queue_ok s' [c] /\ chains_ok s' A /\ links_ok (threads s') /\
    strip (threads s') = aset a (take_over me (set_next None ha)) (aset c (give_way me c (set_next None hc)) (strip (threads s)))) s.
Proof.
  intros Hlock Hq Hch Hl Huniq Hnz Hru Huc Hcm Hac HaA HcA Ha Hxa Hta Hsa Hc Hxc Htc.
  assert (Hcur : get_curr me 0 (threads s) None = Some c) by (apply get_curr_spec; [done|]; intros j Hj; by eapply Huniq).
  assert (Hru' := Hru). destruct Hru' as (x & Ex & Esc & Ecc). rewrite Hc in Ex. injection Ex as <-.
  unfold thread_yield. wp_step. unfold thread_get_curr. wp_step. rewrite Hcur. wp_step. unfold deref. wp_step; [done|].
  wp_step. eapply wp_thread_read; [exact Hc|]. rewrite (proj2 (Z.eqb_neq _ _)) by (unfold KTHREAD_MASTER_TID; lia).
  wp_step. eapply wp_mono.
  { apply (yield_select_spec t me c s a [] A hc ha); try done; [set_solver|intros k; set_solver|by right]. }
  intros n s1 (-> & Hq1 & Hch1 & Hr1 & Hl1 & Est1).
  destruct (selected_curr s s1 me c a hc ha Est1 Hc Ha ltac:(done) Huniq Hru Hsa) as [Hruns1 Huniq1].
  destruct (selected_fields s s1 me c a hc ha a ha Est1 Hc Ha ltac:(done) Ha) as (ha1 & Ha1 & Exa & Eta & _).
  destruct (selected_fields s s1 me c a hc ha c hc Est1 Hc Ha ltac:(done) Hc) as (hc1 & Hc1 & Exc & _).
  assert (Hcur1 : get_curr me 0 (threads s1) None = Some a).
  { apply get_curr_spec; [apply Hruns1; by left|]. intros j Hj. eapply Huniq1; [exact Hj|]. apply Hruns1. by left. }
  wp_step. eapply wp_mono.
  { apply (switch_refused me c a a hc1 ha1 ha1); try done; [unfold KTHREAD_MASTER_TID; lia|congruence|congruence]. }
  intros now s2 [-> ->]. wp_step. eapply wp_thread_read; [exact Hc1|]. wp_step. rewrite Exc, Hxc. wp_step; [done|]. wp_step.
  eapply wp_mono; [apply (reap_nothing c hc1); [|exact Hc1|exact Hl1|]|].
  - destruct Hr1 as (-> & _). done.
  - intros z hz Hz Hzz. destruct (aget_is_Some (threads s) z) as [h Hh].
    { apply aget_lt in Hz. apply (f_equal length) in Est1. rewrite !length_aset, !length_strip in Est1. lia. }
    destruct (selected_fields s s1 me c a hc ha z h Est1 Hc Ha ltac:(done) Hh) as (h' & Hh' & _ & _ & _ & Hzi).
    rewrite Hz in Hh'. injection Hh' as <-. by apply (Hnz z h), Hzi.
  - intros [] s3 ->. wp_step. split; [done|]. unfold requeue in Hq1. by rewrite (proj2 (Z.eqb_neq c me)) in Hq1.
Qed.

(** A thread that yields is put in the scheduling queue before its context is
    saved.  When another core takes it from there in between, the switch on that core
    fails, which [thread_yield] ignores: the core goes on with its own thread [c], which
    is now marked as stopped and is in the queue for a second core to run, while the
    thread [a] that yielded counts as running on that core, runs on none and is in no
    queue. *)
Theorem thread_yield_race s A a b c c1 c2 :
  sched_ok s [b] A -> runs (threads s) c1 a -> runs (threads s) c2 c -> is_user a -> is_user c ->
  0 < c1 -> 0 < c2 -> c1 <> c2 -> a ∉ A -> c ∉ A ->
  wp (n ← yield_select c1 a;
      other ← thread_yield t c2;
      now ← yield_switch t c1 a n;
      mret (other, now))
     (fun res s' => res = (inr c, b) /\
        linked (threads s') (sq_head (sched_queue s')) [c] /\
        (exists h, aget (threads s') c = Some h /\ state h = THREAD_STOPPED) /\
        get_curr c2 0 (threads s') None = Some a /\ get_curr c1 0 (threads s') None = Some b) s.
Proof.
  intros Hok Ha Hc Hua Huc H1 H2 Hne HaA HcA. pose proof (so_tab _ _ _ _ Hok) as Ht.
  pose proof (qo_head _ _ (so_queue _ _ _ _ Hok)) as (_ & hb & Hb & _).
  assert (Hac : a <> c) by (intros ->; destruct Ha as (x & Ex & _ & E), Hc as (y & Ey & _ & E'); congruence).
  pose proof (tab_running_free t _ _ _ _ _ Ht (proj2 (runs_strip _ _ _) Ha)) as Hab.
  pose proof (tab_running_free t _ _ _ _ _ Ht (proj2 (runs_strip _ _ _) Hc)) as Hcb.
  apply not_elem_of_cons in Hab as [Hab _], Hcb as [Hcb _].
  assert (HbA : b ∉ A) by (eapply tab_ready_awake; [exact Ht|set_solver]).
  assert (Huniq : forall c k k', runs (threads s) c k -> runs (threads s) c k' -> k = k').
  { intros c0 k k' Hk Hk'. eapply (to_unique _ _ _ _ Ht c0); by apply runs_strip. }
  assert (Hctx : forall c0 k h, 0 < c0 -> runs (threads s) c0 k -> aget (threads s) k = Some h -> ctx h = 0 /\ 0 < tid h).
  { intros c0 k h Hc0 (x & Ex & Es & Ec) Hk. rewrite Hk in Ex. injection Ex as ->.
    destruct (to_running _ _ _ _ Ht k (set_next None x)) as (_ & _ & E); [by rewrite strip_aget, Hk|done|]. apply E. simpl. lia. }
  destruct (to_ready _ _ _ _ Ht b (set_next None hb)) as (Hub & _ & Hstb & Hsvb & Htb); [set_solver|by rewrite strip_aget, Hb|].
  assert (Hnb : state hb <> THREAD_RUNNING) by (simpl in Hstb; destruct Hstb; congruence).
  assert (Ha' := Ha). destruct Ha' as (ha & Hha & Hsa & Hca). assert (Hc' := Hc). destruct Hc' as (hc & Hhc & Hsc & Hcc).
  destruct (Hctx c1 a ha H1 Ha Hha) as [Hxa Hta]. destruct (Hctx c2 c hc H2 Hc Hhc) as [Hxc Htc].
  wp_step. eapply wp_mono.
  { apply (yield_select_spec t c1 a s b [] A ha hb); try done; try apply Hok; [set_solver| |by right]. intros k. set_solver. }
  intros n s1 (-> & Hq1 & Hch1 & Hr1 & Hl1 & Est1).
  destruct (selected_curr s s1 c1 a b ha hb Est1 Hha Hb Hab Huniq Ha Hnb) as [Hruns1 Huniq1].
  destruct (selected_fields s s1 c1 a b ha hb a ha Est1 Hha Hb Hab Hha) as (ha1 & Ha1 & Exa & Eta & Esa & _).
  destruct (selected_fields s s1 c1 a b ha hb c hc Est1 Hha Hb Hab Hhc) as (hc1 & Hc1 & Exc & Etc & _).
  destruct (selected_fields s s1 c1 a b ha hb b hb Est1 Hha Hb Hab Hb) as (hb1 & Hb1 & Exb & Etb & _).
  assert (Hua' : a <> c1) by (destruct (runs_range t _ _ _ _ _ Hok Ha); unfold is_user, SYS_THREAD_MAX in Hua; lia).
  assert (Huc' : c <> c2) by (destruct (runs_range t _ _ _ _ _ Hok Hc); unfold is_user, SYS_THREAD_MAX in Huc; lia).
  unfold requeue in Hq1. rewrite (proj2 (Z.eqb_neq a c1)) in Hq1 by done. simpl in Hq1.
  assert (Hnz1 : forall z h, aget (threads s1) z = Some h -> state h <> THREAD_ZOMBIE).
  { intros z hz Hz Hzz. destruct (aget_is_Some (threads s) z) as [h Hh].
    { apply aget_lt in Hz. apply (f_equal length) in Est1. rewrite !length_aset, !length_strip in Est1. lia. }
    destruct (selected_fields s s1 c1 a b ha hb z h Est1 Hha Hb Hab Hh) as (h' & Hh' & _ & _ & _ & Hzi).
    rewrite Hz in Hh'. injection Hh' as <-. eapply (tab_no_zombie t _ _ _ Ht z h Hh), Hzi, Hzz. }
  wp_step. eapply wp_mono.
  { apply (yield_steal s1 A a c c2 ha1 hc1); try done; try congruence; try lia.
    - destruct Hr1 as (-> & _). apply Hok.
    - apply Hruns1. right. split_and!; [done|set_solver|done].
    - rewrite Esa; done. }
  intros r s2 (-> & Hq2 & Hch2 & Hl2 & Est2).
  destruct (selected_curr s1 s2 c2 c a hc1 ha1 Est2 Hc1 Ha1 ltac:(done) Huniq1) as [Hruns2 Huniq2];
    [apply Hruns1; right; split_and!; [done|set_solver|done]|rewrite Esa; done|].
  destruct (selected_fields s1 s2 c2 c a hc1 ha1 a ha1 Est2 Hc1 Ha1 ltac:(done) Ha1) as (ha2 & Ha2 & Exa2 & _).
  destruct (selected_fields s1 s2 c2 c a hc1 ha1 b hb1 Est2 Hc1 Ha1 ltac:(done) Hb1) as (hb2 & Hb2 & Exb2 & Etb2 & _).
  destruct (selected_fields s1 s2 c2 c a hc1 ha1 c hc1 Est2 Hc1 Ha1 ltac:(done) Hc1) as (hc2 & Hc2 & _ & _ & Esc2 & _).
  assert (Hb2r : runs (threads s2) c1 b).
  { apply Hruns2. right. split_and!; [set_solver|set_solver|]. apply Hruns1. by left. }
  assert (Ha2r : runs (threads s2) c2 a) by (apply Hruns2; by left).
  wp_step. eapply wp_mono.
  { apply (yield_switch_spec t c1 a b ha2 hb2); try done; try congruence; try lia.
    - apply get_curr_spec; [done|]. intros j Hj. by eapply Huniq2.
    - rewrite Etb2, Etb. exact Htb.
    - unfold ctx_saved in *. by rewrite Exb2, Exb. }
  intros n s3 [-> ->].
  destruct (ctx_pair_ok s2 a b ha2 hb2 (context_save c1 (tm_cores s2)) 0 [c] A Ha2 Hb2 Hab Hq2 Hch2 Hl2) as (Hq3 & _ & _ & _ & Est3).
  set (s3 := tm_set_threads _ s2) in *. wp_step. split; [done|]. split; [apply Hq3|]. split.
  { exists hc2. split; [|by apply Esc2]. simpl. by rewrite !aget_aset_ne. }
  assert (Hsame : forall c0 k, runs (threads s3) c0 k <-> runs (threads s2) c0 k).
  { intros c0 k. unfold runs. simpl. rewrite (aget_two _ a b ha2 hb2) by done.
    destruct (decide (k = b)) as [->|]; [|destruct (decide (k = a)) as [->|]; [|done]]; rewrite ?Ha2, ?Hb2;
      split; intros (x & Ex & Es & Ec); injection Ex as <-; eexists; (split; [done|]); done. }
  split; apply get_curr_spec; [by apply Hsame| |by apply Hsame|]; intros j Hj%Hsame; by eapply Huniq2.
Qed.

(** ** Exit values *)

(** The value [v] of thread [id] is at position [p], and [m] values have been saved since. *)
Definition exit_kept (id v p m : Z) (s : tm) : Prop :=
  let n := KTHREAD_EXIT_VALUE_NUM in
  alen (exit_values s) = n /\ 0 ≤ p < n /\ 0 ≤ m /\ next_exit_value s = (p + 1 + m) `mod` n /\
  (forall k e, aget (exit_values s) k = Some e -> if decide (k = p) then e = ExitValue id v else ev_tid e <> id).

Lemma exit_kept_save id v p m s w j h :
  exit_kept id v p m s -> m + 1 < KTHREAD_EXIT_VALUE_NUM -> aget (threads s) j = Some h -> tid h <> id ->
  wp (thread_save_retval w j) (fun _ s' => threads s' = threads s /\ exists m', m ≤ m' ≤ m + 1 /\ exit_kept id v p m' s') s.
Proof.
  intros (Hl & Hp & Hm & Hn & Hk) Hlt Hj Hne. set (n := KTHREAD_EXIT_VALUE_NUM) in *.
  assert (Hr : 0 ≤ next_exit_value s < n) by (rewrite Hn; apply Z.mod_pos_bound; lia).
  eapply wp_mono; [by apply (save_retval_spec w j h)|]. intros [] s' (-> & Hl' & Hn'). split; [done|]. simpl.
  unfold save_exit in *. destruct (w =? 0); simpl in *; [exists m; split; [lia|done]|].
  exists (m + 1). split; [lia|]. split_and!; simpl; [done|lia|lia|lia| |].
  - rewrite Z.rem_mod_nonneg by lia. rewrite Hn, Zplus_mod_idemp_l. f_equal. lia.
  - intros k e. assert (Hpn : next_exit_value s <> p).
    { rewrite Hn. intros E. apply (f_equal (fun x => (x - p) `mod` n)) in E. rewrite Zminus_mod_idemp_l, Z.sub_diag in E.
      replace (p + 1 + m - p) with (m + 1) in E by lia. rewrite !Z.mod_small in E by lia. lia. }
    destruct (decide (next_exit_value s = k)) as [<-|]; [|rewrite aget_aset_ne by done; apply Hk].
    rewrite aget_aset_eq by lia. intros [= <-]. by rewrite decide_False.
Qed.

Lemma exit_kept_saves id v p m s more :
  exit_kept id v p m s -> m + alen more < KTHREAD_EXIT_VALUE_NUM ->
  Forall (fun x => exists h, aget (threads s) (snd x) = Some h /\ tid h <> id) more ->
  wp (kseq (map (fun x => thread_save_retval (fst x) (snd x)) more)) (fun _ s' => exists m', exit_kept id v p m' s') s.
Proof.
  revert m s. induction more as [|[w j] more IH]; intros m s Hk Hlt Hall; simpl; [wp_step; by exists m|].
  apply Forall_cons in Hall as [(h & Hj & Hne) Hall]. simpl in *. wp_step.
  eapply wp_mono; [eapply exit_kept_save; [done|lia|done|done]|]. intros [] s1 (Et & m' & Hm' & Hk').
  wp_step. eapply wp_mono; [apply (IH m' s1 Hk'); [lia|by rewrite Et]|]. intros rs s2 Hex. by wp_step.
Qed.

(** The exit value of a thread is what a join finds, as long as fewer than
    [KTHREAD_EXIT_VALUE_NUM] other threads have terminated since. *)
Theorem thread_retval_roundtrip s v i h more :
  alen (exit_values s) = KTHREAD_EXIT_VALUE_NUM -> 0 ≤ next_exit_value s < KTHREAD_EXIT_VALUE_NUM ->
  aget (threads s) i = Some h -> v <> 0 -> Forall (fun e => ev_tid e <> tid h) (exit_values s) ->
  Forall (fun x => exists hx, aget (threads s) (snd x) = Some hx /\ tid hx <> tid h) more ->
  alen more < KTHREAD_EXIT_VALUE_NUM ->
  wp (thread_save_retval v i;;
      kseq (map (fun x => thread_save_retval (fst x) (snd x)) more);;
      thread_search_retval (tid h)) (fun r _ => r = v) s.
Proof.
  intros Hl Hn Hi Hv Hnew Hmore Hlt. set (p := next_exit_value s) in *.
  wp_step. eapply wp_mono; [by apply (save_retval_spec v i h)|]. intros [] s1 (-> & _). unfold save_exit.
  rewrite (proj2 (Z.eqb_neq v 0)) by done. simpl. wp_step.
  assert (Hk : exit_kept (tid h) v p 0 (tm_set_exits (aset p (ExitValue (tid h) v) (exit_values s)) (Z.rem (p + 1) KTHREAD_EXIT_VALUE_NUM) s)).
  { split_and!; simpl; [by rewrite length_aset|lia|lia|lia|rewrite Z.rem_mod_nonneg by lia; f_equal; lia|].
    intros k e. destruct (decide (k = p)) as [->|]; [rewrite aget_aset_eq by lia; by intros [= <-]|].
    rewrite aget_aset_ne by done. intros He. exact (Forall_aget _ _ _ _ Hnew He). }
  eapply wp_mono; [by apply (exit_kept_saves (tid h) v p 0 _ more Hk)|]. intros _ s2 (m & Hl2 & Hp & _ & _ & Hget).
  unfold thread_search_retval. wp_step. destruct (aget_is_Some (exit_values s2) p) as [e He]; [lia|].
  pose proof (Hget p e He) as Ee. rewrite decide_True in Ee by done.
  destruct (search_complete (fun e => ev_tid e =? tid h) (exit_values s2) p e He) as [k Hs]; [subst e; simpl; apply Z.eqb_refl|].
  rewrite Hs. apply search_Some in Hs as (_ & (x & Hx & Ex) & _). rewrite Hx. pose proof (Hget k x Hx) as Hgx.
  destruct (decide (k = p)) as [->|]; [by subst|]. apply Z.eqb_eq in Ex. done.
Qed.

End scheduler.
