(* ===== verification/SysThread.v ===== *)
(** * Kernel calls on threads

    Model of src/kernel/sys/thread.c, and that the calls, whatever the user passes,
    are steps of the thread system or have no effect. *)

From stdpp Require Import base gmap list.
From S2P Require Import Prelude.
From S2P Require Import Hlib.
From S2P Require Import MemLayout.
From S2P Require Import ThreadBase.
From S2P Require Import CondSpec.
From S2P Require Import Thread.
From S2P Require Import ThreadSpec.
From S2P Require Import ThreadOps.
From S2P Require Import Sleep.
From S2P Require Import SleepSpec.
From S2P Require Import ThreadSteps.

Open Scope Z_scope.

(** The optional checks of the pointers are disabled in thread.h. *)
Definition KERNEL_THREAD_BAD_START : bool := false.
Definition KERNEL_THREAD_BAD_ARG : bool := false.
Definition KERNEL_THREAD_BAD_JOIN : bool := false.
Definition KERNEL_THREAD_BAD_EXIT : bool := false.

Section systhread.
Context `{H : Hlib} `{C : CoreHw} `{ML : MemLayout} (t : mm_target).

Definition thread_get_curr_id (me : Z) : K tm Z :=
  c ← thread_get_curr me;
  curr ← deref c;
  h ← thread_read curr;
  mret (tid h).

Definition kernel_thread_get_id (me : Z) : K tm Z := thread_get_curr_id me.

Definition kernel_thread_create (start arg : Z) : K tm (Z + Z) :=
  if start =? 0 then mret (inl (err EINVAL)) else
  if KERNEL_THREAD_BAD_START && mm_is_kaddr_on t start then mret (inl (err EINVAL)) else
  if KERNEL_THREAD_BAD_ARG && (negb (arg =? 0) && mm_is_kaddr_on t arg) then mret (inl (err EINVAL)) else
  thread_create start arg.

(** The result is what the call returns to the thread, or the thread that has taken
    over the core. *)
Definition kernel_thread_exit (me retval : Z) : K tm (Z + Z) :=
  if KERNEL_THREAD_BAD_EXIT && (negb (retval =? 0) && mm_is_kaddr_on t retval) then mret (inl (err EINVAL)) else
  r ← thread_exit t me retval;
  match r : Z + Z with
  | inl _ => mret (inl (err EAGAIN))
  | inr n => mret (inr n)
  end.

(** The call sleeps until a thread terminates ([inl]), or returns a result and, when it
    joins, the exit value.  [buf] is the address for the exit value. *)
Definition kernel_thread_join (me tid' buf : Z) : K tm (Z + (Z * option Z)) :=
  if tid' <? 0 then mret (inr (err EINVAL, None)) else
  if KERNEL_THREAD_BAD_JOIN && (negb (buf =? 0) && mm_is_kaddr_on t buf) then mret (inr (err EINVAL, None)) else
  c ← thread_get_curr_id me;
  if tid' =? c then mret (inr (err EINVAL, None)) else
  if WITHIN tid' 0 SYS_THREAD_MAX then mret (inr (err EINVAL, None)) else
  r ← thread_join_begin me tid';
  match r : Z + unit with
  | inl i => mret (inl i)
  | inr _ => v ← thread_join_end tid'; mret (inr (fst v, Some (snd v)))
  end.

Definition kernel_thread_yield (me : Z) : K tm (Z + Z) :=
  c ← thread_get_curr_id me;
  if c =? KTHREAD_MASTER_TID then mret (inl (err EINVAL)) else
  thread_yield t me.

(** ** The calls are steps *)

Inductive thread_call :=
| CallGetId | CallCreate (start arg : Z) | CallExit (retval : Z) | CallJoin (tid buf : Z)
| CallYield | CallSleep | CallWakeup (tid : Z).

(** The call runs to its end, or to the point where it sleeps. *)
Definition run_thread_call (me : Z) (c : thread_call) : K tm unit :=
  match c with
  | CallGetId => kernel_thread_get_id me;; mret tt
  | CallCreate start arg => kernel_thread_create start arg;; mret tt
  | CallExit retval => kernel_thread_exit me retval;; mret tt
  | CallJoin tid buf => kernel_thread_join me tid buf;; mret tt
  | CallYield => kernel_thread_yield me;; mret tt
  | CallSleep => kernel_sleep_begin me;; mret tt
  | CallWakeup tid => kernel_wakeup tid;; mret tt
  end.

Context {HL : HlibLaws H} {CL : CoreHwLaws C t} {MLL : MemLayoutLaws ML}.

Lemma thread_get_curr_id_spec s q A me i h :
  sched_ok t s q A -> aget (threads s) i = Some h -> state h = THREAD_RUNNING -> coreid h = me ->
  wp (thread_get_curr_id me) (fun r s' => r = tid h /\ s' = s) s.
Proof.
  intros Hok Hi Hs Hc. assert (Hru : runs (threads s) me i) by (by exists h).
  pose proof (tab_one_curr t _ _ _ _ _ (so_tab _ _ _ _ Hok) Hru) as Hcur.
  unfold thread_get_curr_id, thread_get_curr. do 2 wp_step. rewrite Hcur. wp_step. unfold deref. wp_step; [done|].
  wp_step. eapply wp_thread_read; [exact Hi|]. by wp_step.
Qed.

(** A call that is one step. *)
Lemma wp_one_step {A} (m : K tm A) s B :
  wp m (fun _ _ => True) s -> (forall r s', m s = Done r s' -> exists B', tm_step t (s, B) (s', B')) ->
  wp m (fun _ s' => exists B', rtc (tm_step t) (s, B) (s', B')) s.
Proof.
  unfold wp. intros Hw Hst. destruct (m s) eqn:E; try done. destruct (Hst _ _ eq_refl) as [B' HB]. by eapply ex_intro, rtc_once.
Qed.

Lemma kernel_thread_join_steps s q A me i h id buf :
  sched_ok t s q A -> aget (threads s) i = Some h -> state h = THREAD_RUNNING -> coreid h = me -> i ∉ A ->
  wp (kernel_thread_join me id buf) (fun r s' => exists A', rtc (tm_step t) (s, A) (s', A') /\
    (r = inr (err EINVAL, None) -> s' = s)) s.
Proof.
  intros Hok Hi Hs Hc HA. unfold kernel_thread_join. simpl.
  destruct (Z.ltb_spec id 0) as [|H0]; [wp_step; by exists A|].
  wp_step. eapply wp_mono; [by eapply thread_get_curr_id_spec|]. intros r s1 [-> ->].
  destruct (Z.eqb_spec id (tid h)) as [|H1]; [wp_step; by exists A|].
  destruct (WITHIN id 0 SYS_THREAD_MAX) eqn:Hw; [wp_step; by exists A|].
  assert (Hid : id <> KTHREAD_MASTER_TID).
  { intros ->. apply WITHIN_false in Hw. unfold KTHREAD_MASTER_TID, SYS_THREAD_MAX in Hw. pose proof cores_many. lia. }
  assert (Hpos : KTHREAD_NULL_TID < id) by (unfold KTHREAD_NULL_TID; lia).
  wp_step. eapply wp_mono; [eapply wp_with_run, thread_join_begin_spec; done|]. intros [k|[]] s1 [Hr E].
  - wp_step. exists ({[i]} ∪ A). split; [|done]. eapply rtc_once, tstep_join_sleep; done.
  - subst s1. wp_step. eapply wp_mono; [eapply wp_with_run, thread_join_end_spec, Hok|]. intros v s2 [[-> _] E2].
    wp_step. exists A. split; [|done]. eapply rtc_once, (tstep_join_now t me i h id); done.
Qed.


End systhread.
