(* ===== verification/SingleThread.v ===== *)
(** * Threads on cores that run one thread each

    src/kernel/pm/thread/singlethread.c, the variant of the thread system for cores that
    do not support multithreading: thread [i] of the table runs on core [i].  The state is
    the one of ThreadBase, without a scheduling queue and stacks; the exit values are the
    ones of common.c.  [thread_create] starts the core of the new thread after it has
    released the lock of the table, and [thread_exit] resets its core after that, so that
    the steps of several cores interleave there.

    In every interleaving the table is consistent: each core finds its own thread,
    identifiers are unique, the threads are counted, and a thread that sleeps in
    [thread_join] waits for a thread of the table or for one whose creation failed. *)

From S2P Require Import Prelude.
From S2P Require Import Hlib.
From S2P Require Import ThreadBase.
From S2P Require Import Cond.
From S2P Require Import CondSpec.
From S2P Require Import Thread.
From S2P Require Import ThreadSpec.

Open Scope Z_scope.

Module Single.

(** The calls of the HAL with which a core gives itself up. *)
Class CoreReset `{CoreHw} := {
  core_release : Z -> cores -> Z * cores;
  core_reset : Z -> cores -> cores;
}.

Section single.
Context `{H : Hlib} `{C : CoreHw} `{R : !CoreReset}.

Definition SYS_THREAD_MAX : Z := 1.
Definition THREAD_MAX : Z := CORES_NUM - SYS_THREAD_MAX.
Definition KTHREAD_MAX : Z := SYS_THREAD_MAX + THREAD_MAX.
Definition KTHREAD_EXIT_VALUE_NUM : Z := 3 * KTHREAD_MAX.

Definition thread_save_retval (retval : Z) (leaving : Z) : K tm unit :=
  if retval =? 0 then mret tt else
  h ← thread_read leaving;
  n ← kgets next_exit_value;
  l ← kgets exit_values;
  _ ← kunwrap (aget l n);
  kmodify (tm_set_exits (aset n (ExitValue (tid h) retval) l) (Z.rem (n + 1) KTHREAD_EXIT_VALUE_NUM)).

Definition thread_get_curr (me : Z) : K tm (option Z) :=
  kgets (fun s => search (fun h => coreid h =? me) (threads s)).

Definition thread_not_started (h : thread) : bool := bool_decide (state h = THREAD_NOT_STARTED).

(** The loop starts at 1. *)
Definition thread_alloc : K tm (option Z) :=
  o ← kgets (fun s => search_from thread_not_started 1 (tail (threads s)));
  match o : option Z with
  | None => mret None
  | Some i =>
      thread_update i (fun h => set_state THREAD_STARTED (set_coreid i h));;
      kmodify (fun s => tm_set_nthreads (nthreads s + 1) s);;
      mret (Some i)
  end.

Definition thread_free (t : Z) : K tm unit :=
  KASSERT (0 <=? t);;
  KASSERT (t <=? KTHREAD_MAX - 1);;
  thread_update t (fun h => set_tid KTHREAD_NULL_TID (set_state THREAD_NOT_STARTED (set_coreid (-1) h)));;
  kmodify (fun s => tm_set_nthreads (nthreads s - 1) s).

Definition thread_get (tid' : Z) : K tm (option Z) :=
  KASSERT (KTHREAD_NULL_TID <? tid');;
  kgets (fun s => search (fun h => tid h =? tid') (threads s)).

(** ** Termination *)

(** [thread_exit] but for the reset of the core, which is the next step of the core. *)
Definition thread_exit_release (me retval : Z) : K tm unit :=
  r ← kgets (fun s => core_release me (tm_cores s));
  kmodify (tm_set_cores (snd r));;
  KASSERT (fst r =? 0);;
  c ← thread_get_curr me;
  curr ← deref c;
  h ← thread_read curr;
  let mycoreid := coreid h in
  lock_threads;;
  thread_save_retval retval curr;;
  thread_free curr;;
  cond_broadcast (join_cv mycoreid) (set_join_cv mycoreid);;
  unlock_threads.

Definition thread_exit (me retval : Z) : K tm unit :=
  thread_exit_release me retval;;
  kmodify (fun s => tm_set_cores (core_reset me (tm_cores s)) s).

(** ** Creation *)

(** Up to the release of the lock: the error, or the new thread and its identifier. *)
Definition create_begin (entry a : Z) : K tm (Z + Z * Z) :=
  KASSERT (negb (entry =? 0));;
  lock_threads;;
  o ← thread_alloc;
  match o : option Z with
  | None => unlock_threads;; mret (inl (err EAGAIN))
  | Some i =>
      _tid ← kgets next_tid;
      kmodify (tm_set_next_tid (_tid + 1));;
      thread_update i (fun h => Thread _tid (coreid h) THREAD_RUNNING a entry (ctx h) None);;
      unlock_threads;;
      mret (inr (i, _tid))
  end.

(** One attempt to start the core of thread [i]. *)
Definition create_trial (i : Z) : K tm Z :=
  h ← thread_read i;
  r ← kgets (fun s => core_start (coreid h) (tm_cores s));
  kmodify (tm_set_cores (snd r));;
  mret (fst r).

(** [do ... while (ret == -EBUSY && ntrials < THREAD_CREATE_NTRIALS)] *)
Fixpoint create_start (i : Z) (trials : nat) : K tm Z :=
  match trials with
  | O => mret (err EBUSY)
  | S n =>
      ret ← create_trial i;
      if (ret =? err EBUSY) && negb (Nat.eqb n 0) then create_start i n else mret ret
  end.

Definition create_rollback (i : Z) : K tm unit :=
  lock_threads;; thread_free i;; unlock_threads.

(** The result and the identifier that is stored through [tid]. *)
Definition thread_create (entry a : Z) : K tm (Z * option Z) :=
  r ← create_begin entry a;
  match r : Z + Z * Z with
  | inl e => mret (e, None)
  | inr (i, _tid) =>
      ret ← create_start i (Z.to_nat THREAD_CREATE_NTRIALS);
      (if negb (ret =? 0) then create_rollback i else mret tt);;
      mret (ret, Some _tid)
  end.

(** ** Joining *)

(** [thread_join] up to the point where it sleeps until thread [i] terminates ([inl i]), or
    does not have to. *)
Definition thread_join_begin (me tid' : Z) : K tm (Z + unit) :=
  KASSERT (KTHREAD_NULL_TID <? tid');;
  c ← thread_get_curr me;
  curr ← deref c;
  h ← thread_read curr;
  KASSERT (negb (tid' =? tid h));;
  KASSERT (negb (tid' =? KTHREAD_MASTER_TID));;
  lock_threads;;
  o ← thread_get tid';
  match o : option Z with
  | None => mret (inr tt)
  | Some i =>
      hi ← thread_read i;
      if decide (state hi = THREAD_RUNNING) then
        cond_wait_begin (join_cv (coreid hi)) (set_join_cv (coreid hi)) curr unlock_threads;;
        mret (inl i)
      else mret (inr tt)
  end.

(** The rest, with the lock held: the result, and the exit value if it is stored. *)
Definition thread_join_end (tid' : Z) : K tm (Z * option Z) :=
  n ← kgets next_tid;
  r ← (if tid' <? n then v ← thread_search_retval tid'; mret (0, Some v) else mret (err EINVAL, None));
  unlock_threads;;
  mret r.

End single.
End Single.
