(* ===== verification/SingleSpec.v ===== *)
(** * The thread table of cores that run one thread each

    The operations of SingleThread.v keep the table consistent ([table_ok]), and so does
    every interleaving of the cores ([single_threads_invariant]).  A thread that joins a
    thread whose creation fails is not woken up ([single_join_stranded]). *)

From S2P Require Import Prelude.
From S2P Require Import Hlib.
From S2P Require Import ThreadBase.
From S2P Require Import Cond.
From S2P Require Import CondSpec.
From S2P Require Import Thread.
From S2P Require Import ThreadSpec.
From S2P Require Import SingleThread.

Import Single.

Section spec.
Context `{H : Hlib} `{C : CoreHw} `{R : !CoreReset}.
Implicit Types (s : tm) (L : gset Z) (W : gmap Z Z).

(** The slots [L] are in use, and thread [i] sleeps on the condition variable of core [j]
    if [W !! i = Some j]. *)
Record table_ok s L W : Prop := {
  to_len : alen (threads s) = CORES_NUM;
  to_join : alen (joincond s) = CORES_NUM;
  to_dom i : i ∈ L -> 0 ≤ i < CORES_NUM;
  to_used i h : aget (threads s) i = Some h -> i ∈ L -> state h = THREAD_RUNNING /\ coreid h = i /\ 0 ≤ tid h < next_tid s;
  to_free i h : aget (threads s) i = Some h -> i ∉ L ->
    state h = THREAD_NOT_STARTED /\ (coreid h = -1 \/ coreid h = 0) /\ tid h = KTHREAD_NULL_TID;
  to_tids i j h k : aget (threads s) i = Some h -> aget (threads s) j = Some k -> i ∈ L -> j ∈ L -> tid h = tid k -> i = j;
  to_next : 0 ≤ next_tid s;
  to_count : nthreads s = Z.of_nat (size L);
  to_waits i j : W !! i = Some j -> i ∈ L;
  to_chains j c : aget (joincond s) j = Some c ->
    cv_lock c = false /\ exists w, linked (threads s) (cv_queue c) w /\ forall i, i ∈ w <-> W !! i = Some j;
}.

Definition exits_ok s : Prop :=
  alen (exit_values s) = KTHREAD_EXIT_VALUE_NUM /\ 0 ≤ next_exit_value s < KTHREAD_EXIT_VALUE_NUM.

Lemma table_ok_ext s s' L W :
  threads s' = threads s -> joincond s' = joincond s -> nthreads s' = nthreads s -> next_tid s' = next_tid s ->
  table_ok s L W -> table_ok s' L W.
Proof. intros E1 E2 E3 E4 []. by split; rewrite ?E1, ?E2, ?E3, ?E4. Qed.

Lemma to_get s L W i : table_ok s L W -> i ∈ L -> exists h, aget (threads s) i = Some h.
Proof. intros Ht Hi. apply aget_is_Some. rewrite (to_len _ _ _ Ht). by eapply to_dom. Qed.

(** A change of the entry [i], which does not sleep, keeps the lists of sleeping threads. *)
Lemma chains_update s L W i h j c :
  table_ok s L W -> W !! i = None -> aget (joincond s) j = Some c ->
  cv_lock c = false /\ exists w, linked (aset i h (threads s)) (cv_queue c) w /\ forall k, k ∈ w <-> W !! k = Some j.
Proof.
  intros Ht Hi Hc. destruct (to_chains _ _ _ Ht j c Hc) as (Hl & w & Hw & Hiff). split; [done|]. exists w. split; [|done].
  apply linked_other; [|done]. rewrite Hiff. congruence.
Qed.

(** Core [me] finds the thread that runs on it. *)
Lemma single_get_curr s L W me (Q : option Z -> tm -> Prop) :
  table_ok s L W -> me ∈ L -> Q (Some me) s -> wp (thread_get_curr me) Q s.
Proof.
  intros Ht Hme HQ. unfold thread_get_curr. wp_step. destruct (to_get _ _ _ _ Ht Hme) as [h Hh].
  destruct (to_used _ _ _ Ht _ _ Hh Hme) as (_ & Hc & _). pose proof (to_dom _ _ _ Ht _ Hme) as Hd.
  assert (Hs : is_Some (search (fun h => coreid h =? me) (threads s))) by (eapply search_complete; [exact Hh|by apply Z.eqb_eq]).
  destruct Hs as [k Hk]. rewrite Hk. apply search_Some in Hk as (Hk & (x & Hx & Hxc) & Hmin). apply Z.eqb_eq in Hxc.
  enough (k = me) by (by subst). destruct (decide (k ∈ L)) as [Hin|Hin].
  - destruct (to_used _ _ _ Ht _ _ Hx Hin) as (_ & E & _). congruence.
  - destruct (to_free _ _ _ Ht _ _ Hx Hin) as (_ & E & _). assert (me = 0) as -> by lia.
    destruct (decide (k = 0)) as [|Hne]; [done|]. specialize (Hmin 0 h ltac:(lia) Hh). by apply Z.eqb_neq in Hmin.
Qed.

(** ** Allocation and release of an entry *)

Lemma aset_inv {A} (l : list A) i x j y : aget (aset i x l) j = Some y -> j = i /\ y = x \/ j ≠ i /\ aget l j = Some y.
Proof.
  rewrite aget_aset. case_bool_decide as E; [intros [= <-]; left; by destruct E as [-> _]|]. intros Hy.
  destruct (decide (j = i)) as [->|Hne]; [|by right]. pose proof (aget_lt _ _ _ Hy). exfalso. by apply E.
Qed.

Lemma table_alloc s L W i h a entry :
  table_ok s L W -> aget (threads s) i = Some h -> i ∉ L ->
  table_ok (tm_set_threads (aset i (Thread (next_tid s) i THREAD_RUNNING a entry (ctx h) None) (threads s))
    (tm_set_next_tid (next_tid s + 1) (tm_set_nthreads (nthreads s + 1) s))) ({[i]} ∪ L) W.
Proof.
  intros Ht Hh Hi. pose proof (aget_lt _ _ _ Hh) as Hlt.
  assert (HW : W !! i = None) by (destruct (W !! i) eqn:E; [|done]; by apply (to_waits _ _ _ Ht) in E).
  split; simpl; try (by apply Ht).
  - rewrite length_aset. apply Ht.
  - intros j [->%elem_of_singleton|Hj]%elem_of_union; [rewrite <- (to_len _ _ _ Ht); done|by eapply to_dom].
  - intros j k [[-> ->]|[Hne Hk]]%aset_inv Hj; simpl.
    + pose proof (to_next _ _ _ Ht). split; [done|]. split; [done|lia].
    + assert (Hj' : j ∈ L) by set_solver. destruct (to_used _ _ _ Ht _ _ Hk Hj') as (? & ? & ?). split; [done|]. split; [done|lia].
  - intros j k [[-> ->]|[Hne Hk]]%aset_inv Hj; [set_solver|]. eapply to_free; [done|done|set_solver].
  - intros j1 j2 k1 k2 [[-> ->]|[Hn1 Hk1]]%aset_inv [[-> ->]|[Hn2 Hk2]]%aset_inv Hj1 Hj2 E; simpl in E.
    + done.
    + assert (Hj : j2 ∈ L) by set_solver. destruct (to_used _ _ _ Ht _ _ Hk2 Hj) as (_ & _ & ?). lia.
    + assert (Hj : j1 ∈ L) by set_solver. destruct (to_used _ _ _ Ht _ _ Hk1 Hj) as (_ & _ & ?). lia.
    + eapply (to_tids _ _ _ Ht); [done|done|set_solver|set_solver|done].
  - pose proof (to_next _ _ _ Ht). lia.
  - rewrite size_union by set_solver. rewrite size_singleton, (to_count _ _ _ Ht). lia.
  - intros j k Hk. apply elem_of_union. right. by eapply to_waits.
  - intros j c Hc. by eapply chains_update.
Qed.

Lemma table_free s L W i h :
  table_ok s L W -> aget (threads s) i = Some h -> i ∈ L -> W !! i = None ->
  table_ok (tm_set_nthreads (nthreads s - 1)
    (tm_set_threads (aset i (set_tid KTHREAD_NULL_TID (set_state THREAD_NOT_STARTED (set_coreid (-1) h))) (threads s)) s)) (L ∖ {[i]}) W.
Proof.
  intros Ht Hh Hi HW. split; simpl; try (by apply Ht).
  - rewrite length_aset. apply Ht.
  - intros j Hj. apply (to_dom _ _ _ Ht). set_solver.
  - intros j k [[-> ->]|[Hne Hk]]%aset_inv Hj; [set_solver|]. eapply to_used; [done|done|set_solver].
  - intros j k [[-> ->]|[Hne Hk]]%aset_inv Hj; [simpl; auto|]. eapply to_free; [done|done|set_solver].
  - intros j1 j2 k1 k2 [[-> ->]|[Hn1 Hk1]]%aset_inv [[-> ->]|[Hn2 Hk2]]%aset_inv Hj1 Hj2 E; [done|set_solver..|].
    eapply (to_tids _ _ _ Ht); [done|done|set_solver|set_solver|done].
  - exact (to_next _ _ _ Ht).
  - rewrite (to_count _ _ _ Ht). rewrite size_difference by set_solver. rewrite size_singleton.
    assert (size L ≠ 0%nat); [|lia]. apply size_non_empty_iff. set_solver.
  - intros j k Hk. apply elem_of_difference. split; [by eapply to_waits|]. intros ->%elem_of_singleton. congruence.
  - intros j c Hc. by eapply chains_update.
Qed.

(** ** The operations *)

(** The identifiers in the table. *)
Definition owners s : list Z := tid <$> threads s.

(** With the lock free. *)
Definition sys_ok s L W : Prop := table_ok s L W /\ exits_ok s /\ lock_tm s = false.

Lemma owners_aset i h l : tid <$> aset i h l = aset i (tid h) (tid <$> l).
Proof. unfold aset. case_bool_decide; [apply list_fmap_insert|done]. Qed.

Lemma owners_aget s i t : aget (owners s) i = Some t <-> exists h, aget (threads s) i = Some h /\ tid h = t.
Proof. unfold owners, aget. case_bool_decide; [|naive_solver]. rewrite list_lookup_fmap, fmap_Some. naive_solver. Qed.

Lemma table_alloc_None s L W :
  table_ok s L W -> search_from thread_not_started 1 (tail (threads s)) = None -> forall i, 0 < i < CORES_NUM -> i ∈ L.
Proof.
  intros Ht E i Hi. apply search_from_None in E. destruct (aget_is_Some (threads s) i) as [h Hh]; [rewrite (to_len _ _ _ Ht); lia|].
  destruct (decide (i ∈ L)) as [|HiL]; [done|]. destruct (to_free _ _ _ Ht _ _ Hh HiL) as [Hs _].
  destruct (threads s) as [|h0 l]; [apply aget_lt in Hh; simpl in Hh; lia|]. rewrite aget_cons_S in Hh by lia. eapply Forall_aget in E; [|exact Hh].
  unfold thread_not_started in E. by rewrite bool_decide_eq_true_2 in E.
Qed.

Lemma table_alloc_Some s L W i :
  table_ok s L W -> search_from thread_not_started 1 (tail (threads s)) = Some i ->
  exists h, aget (threads s) i = Some h /\ i ∉ L.
Proof.
  intros Ht E. apply search_from_Some in E as (Hi & (h & Hh & Hns) & _). apply bool_decide_eq_true in Hns. exists h.
  assert (Hh' : aget (threads s) i = Some h) by (destruct (threads s); [apply aget_lt in Hh; simpl in Hh; lia|]; rewrite aget_cons_S by lia; done).
  split; [done|]. intros Hin. destruct (to_used _ _ _ Ht _ _ Hh' Hin) as [? _]. congruence.
Qed.

Lemma create_begin_spec s L W entry a :
  sys_ok s L W -> entry ≠ 0 ->
  wp (create_begin entry a) (fun r s' =>
    match r with
    | inl e => e = err EAGAIN /\ s' = s /\ forall i, 0 < i < CORES_NUM -> i ∈ L
    | inr (i, t) => t = next_tid s /\ (i ∉ L) /\ i < CORES_NUM /\ sys_ok s' ({[i]} ∪ L) W /\
        next_tid s' = next_tid s + 1 /\ owners s' = aset i t (owners s)
    end) s.
Proof.
  intros (Ht & He & Hl) Hentry. unfold create_begin. wp_step. wp_step; [by apply negb_true_iff, Z.eqb_neq|].
  wp_step. apply wp_lock_threads; [done|]. unfold thread_alloc. wp_step. wp_step. wp_step. cbn [threads tm_set_lock].
  destruct (search_from thread_not_started 1 (tail (threads s))) as [i|] eqn:E.
  - destruct (table_alloc_Some _ _ _ _ Ht E) as (h & Hh & Hi).
    assert (Hi' : i < CORES_NUM) by (rewrite <- (to_len _ _ _ Ht); pose proof (aget_lt _ _ _ Hh); lia).
    wp_step. eapply wp_thread_update; [exact Hh|]. wp_step. wp_step. wp_step. wp_step. wp_step. wp_step. wp_step.
    wp_step. eapply wp_thread_update; [simpl; by eapply aget_aset_same|]. wp_step. unfold unlock_threads. wp_step. wp_step.
    simpl. split; [done|]. split; [done|]. split; [done|]. split; [split; [|done]|].
    + eapply table_ok_ext; [..|by apply (table_alloc s L W i h a entry)]; try done. simpl. by rewrite aset_aset_eq.
    + split; [done|]. unfold owners. simpl. by rewrite aset_aset_eq, owners_aset.
  - wp_step. wp_step. unfold unlock_threads. wp_step. wp_step. split; [done|].
    split; [destruct s; simpl in *; by subst|by eapply table_alloc_None].
Qed.

Lemma single_free_spec s L W i h :
  table_ok s L W -> aget (threads s) i = Some h ->
  wp (thread_free i) (fun _ s' => s' = tm_set_nthreads (nthreads s - 1) (tm_set_threads
    (aset i (set_tid KTHREAD_NULL_TID (set_state THREAD_NOT_STARTED (set_coreid (-1) h))) (threads s)) s)) s.
Proof.
  intros Ht Hh. pose proof (aget_lt _ _ _ Hh) as Hi. rewrite (to_len _ _ _ Ht) in Hi. unfold thread_free.
  wp_step. wp_step; [apply Z.leb_le; lia|]. wp_step. wp_step; [apply Z.leb_le; unfold KTHREAD_MAX, THREAD_MAX; lia|].
  wp_step. eapply wp_thread_update; [exact Hh|]. by wp_step.
Qed.

Lemma create_trial_spec s L W i :
  sys_ok s L W -> i ∈ L -> wp (create_trial i) (fun _ s' => exists c, s' = tm_set_cores c s) s.
Proof.
  intros (Ht & _ & _) Hi. destruct (to_get _ _ _ _ Ht Hi) as [h Hh]. unfold create_trial.
  wp_step. eapply wp_thread_read; [exact Hh|]. wp_step. wp_step. wp_step. wp_step. wp_step. by eexists.
Qed.

Lemma create_rollback_spec s L W i :
  sys_ok s L W -> i ∈ L -> W !! i = None ->
  wp (create_rollback i) (fun _ s' => sys_ok s' (L ∖ {[i]}) W /\ next_tid s' = next_tid s /\
    owners s' = aset i KTHREAD_NULL_TID (owners s)) s.
Proof.
  intros (Ht & He & Hl) Hi HW. destruct (to_get _ _ _ _ Ht Hi) as [h Hh]. unfold create_rollback.
  wp_step. apply wp_lock_threads; [done|]. wp_step.
  eapply wp_mono; [eapply (single_free_spec (tm_set_lock true s) L W); [by eapply table_ok_ext; [..|exact Ht]|exact Hh]|].
  intros [] s' ->. unfold unlock_threads. wp_step. split; [split; [|done]|].
  - eapply table_ok_ext; [..|by apply (table_free s L W i h)]; done.
  - split; [done|]. unfold owners. simpl. by rewrite owners_aset.
Qed.

(** The threads that sleep on the variable of core [me] leave it. *)
Lemma table_wake s L W me c0 c :
  table_ok s L W -> aget (joincond s) me = Some c0 ->
  table_ok (tm_set_joincond (aset me (Condvar false None) (joincond s)) (tm_set_cores c s)) L
    (filter (fun p => p.2 ≠ me) W).
Proof.
  intros Ht Hc0. split; simpl; try (by apply Ht).
  - rewrite length_aset. apply Ht.
  - exact (to_next _ _ _ Ht).
  - intros i j [Hj _]%map_lookup_filter_Some. by eapply to_waits.
  - intros j c' [[-> ->]|[Hne Hc]]%aset_inv.
    + split; [done|]. exists []. split; [done|]. intros i. rewrite map_lookup_filter_Some. simpl. set_solver.
    + destruct (to_chains _ _ _ Ht j c' Hc) as (Hl & w & Hw & Hiff). split; [done|]. exists w. split; [done|].
      intros i. rewrite map_lookup_filter_Some, Hiff. simpl. naive_solver.
Qed.

Lemma single_save_spec v i h s :
  aget (threads s) i = Some h -> exits_ok s ->
  wp (thread_save_retval v i) (fun _ s' => exits_ok s' /\ exists x n, s' = tm_set_exits x n s) s.
Proof.
  intros Hh [Hl Hn]. unfold thread_save_retval. destruct (v =? 0); simpl.
  { wp_step. split; [done|]. exists (exit_values s), (next_exit_value s). by destruct s. }
  wp_step. eapply wp_thread_read; [exact Hh|]. wp_step. wp_step. wp_step. wp_step. wp_step.
  destruct (aget_is_Some (exit_values s) (next_exit_value s)) as [e He]; [lia|]. wp_step; [exact He|]. wp_step.
  split; [|by eexists _, _]. split; simpl; [by rewrite length_aset|]. apply Z.rem_bound_pos; lia.
Qed.

Lemma exit_release_spec s L W me v :
  sys_ok s L W -> me ∈ L -> W !! me = None -> fst (core_release me (tm_cores s)) = 0 ->
  wp (thread_exit_release me v) (fun _ s' => sys_ok s' (L ∖ {[me]}) (filter (fun p => p.2 ≠ me) W) /\
    next_tid s' = next_tid s /\ owners s' = aset me KTHREAD_NULL_TID (owners s)) s.
Proof.
  intros (Ht & He & Hl) Hi HW Hrel. destruct (to_get _ _ _ _ Ht Hi) as [h Hh].
  destruct (to_used _ _ _ Ht _ _ Hh Hi) as (_ & Hc & _).
  destruct (aget_is_Some (joincond s) me) as [c0 Hc0]; [rewrite (to_join _ _ _ Ht); by eapply to_dom|].
  unfold thread_exit_release. wp_step. wp_step. wp_step. wp_step. wp_step. wp_step; [by apply Z.eqb_eq|].
  wp_step. eapply single_get_curr; [by eapply table_ok_ext; [..|exact Ht]|done|]. wp_step. unfold deref. wp_step; [done|].
  wp_step. eapply wp_thread_read; [exact Hh|]. rewrite Hc. wp_step. apply wp_lock_threads; [done|].
  wp_step. eapply wp_mono; [eapply single_save_spec; [exact Hh|exact He]|]. intros [] s1 (He1 & x & n & ->).
  wp_step. eapply wp_mono; [eapply single_free_spec; [by eapply table_ok_ext; [..|exact Ht]|exact Hh]|]. intros [] s2 ->.
  pose proof (table_free s L W me h Ht Hh Hi HW) as Hf. destruct (to_chains _ _ _ Hf me c0 Hc0) as (Hl0 & w & Hw & _).
  wp_step. eapply (cond_broadcast_spec (join_cv me) (set_join_cv me)); [exact Hc0|exact Hl0|exact Hw|].
  unfold unlock_threads. wp_step. split; [split; [|done]|].
  - eapply table_ok_ext; [..|eapply (table_wake _ _ _ me c0 (tm_cores s) Hf Hc0)]; done.
  - split; [done|]. unfold owners. simpl. by rewrite owners_aset.
Qed.

(** ** Joining *)

(** Thread [me] goes to sleep on the variable of core [j]. *)
Lemma table_sleep s L W me j h c :
  table_ok s L W -> me ∈ L -> W !! me = None -> aget (threads s) me = Some h -> aget (joincond s) j = Some c ->
  table_ok (set_join_cv j (Condvar false (Some me)) (tm_set_threads (aset me (set_next (cv_queue c) h) (threads s)) s)) L
    (<[me := j]> W).
Proof.
  intros Ht Hi HW Hh Hc. split; simpl; try (by apply Ht).
  - rewrite length_aset. apply Ht.
  - rewrite length_aset. apply Ht.
  - intros k x [[-> ->]|[Hne Hk]]%aset_inv; simpl; by eapply to_used.
  - intros k x [[-> ->]|[Hne Hk]]%aset_inv; simpl; by eapply to_free.
  - intros k1 k2 x1 x2 [[-> ->]|[Hn1 Hk1]]%aset_inv [[-> ->]|[Hn2 Hk2]]%aset_inv; simpl; try done; by eapply to_tids.
  - exact (to_next _ _ _ Ht).
  - intros i k. rewrite lookup_insert_Some. intros [[<- _]|[_ Hk]]; [done|by eapply to_waits].
  - intros k c' [[-> ->]|[Hne Hk]]%aset_inv.
    + split; [done|]. destruct (chains_update _ _ _ me (set_next (cv_queue c) h) _ _ Ht HW Hc) as (_ & w & Hw & Hiff).
      exists (me :: w). split; [split; [done|]; eexists; split; [by eapply aget_aset_same|done]|].
      intros i. rewrite elem_of_cons, Hiff, lookup_insert_Some. destruct (decide (i = me)); naive_solver.
    + destruct (chains_update _ _ _ me (set_next (cv_queue c) h) _ _ Ht HW Hk) as (Hl & w & Hw & Hiff). split; [done|].
      exists w. split; [done|]. intros i. rewrite Hiff, lookup_insert_Some. destruct (decide (i = me)); naive_solver.
Qed.

Lemma single_get_spec s L W t :
  table_ok s L W -> 0 ≤ t ->
  wp (thread_get t) (fun o s' => s' = s /\ match o with
    | Some i => aget (owners s) i = Some t /\ i ∈ L
    | None => forall i, aget (owners s) i ≠ Some t end) s.
Proof.
  intros Ht Hpos. unfold thread_get. wp_step. wp_step; [apply Z.ltb_lt; unfold KTHREAD_NULL_TID; lia|]. wp_step. split; [done|].
  destruct (search (fun h => tid h =? t) (threads s)) as [i|] eqn:E.
  - apply search_Some in E as (_ & (x & Hx & Hxt) & _). apply Z.eqb_eq in Hxt. split; [apply owners_aget; by exists x|].
    destruct (decide (i ∈ L)) as [|Hn]; [done|]. destruct (to_free _ _ _ Ht _ _ Hx Hn) as (_ & _ & E). unfold KTHREAD_NULL_TID in E. lia.
  - intros i (x & Hx & Hxt)%owners_aget. pose proof (search_None_aget _ _ _ _ E Hx) as Hf. by apply Z.eqb_neq in Hf.
Qed.

Lemma single_join_begin_spec s L W me t :
  sys_ok s L W -> me ∈ L -> W !! me = None -> 0 < t -> aget (owners s) me ≠ Some t ->
  wp (thread_join_begin me t) (fun r s' => match r with
    | inl i => sys_ok s' L (<[me := i]> W) /\ next_tid s' = next_tid s /\ owners s' = owners s /\
        aget (owners s) i = Some t
    | inr _ => s' = tm_set_lock true s /\ forall i, aget (owners s) i ≠ Some t end) s.
Proof.
  intros (Ht & He & Hl) Hi HW Hpos Hme. destruct (to_get _ _ _ _ Ht Hi) as [h Hh]. unfold thread_join_begin.
  assert (Hne : t ≠ tid h) by (intros ->; apply Hme, owners_aget; by exists h).
  wp_step. wp_step; [apply Z.ltb_lt; unfold KTHREAD_NULL_TID; lia|]. wp_step. eapply single_get_curr; [exact Ht|done|].
  wp_step. unfold deref. wp_step; [done|]. wp_step. eapply wp_thread_read; [exact Hh|].
  wp_step. wp_step; [by apply negb_true_iff, Z.eqb_neq|].
  wp_step. wp_step; [apply negb_true_iff, Z.eqb_neq; unfold KTHREAD_MASTER_TID; lia|].
  wp_step. apply wp_lock_threads; [done|]. wp_step.
  eapply wp_mono; [eapply (single_get_spec (tm_set_lock true s) L W); [by eapply table_ok_ext; [..|exact Ht]|lia]|].
  intros [i|] s1 [-> Ho]; [|by wp_step]. destruct Ho as [Ho HiL]. pose proof Ho as (x & Hx & Hxt)%owners_aget.
  destruct (to_used _ _ _ Ht _ _ Hx HiL) as (Hs & Hci & _).
  destruct (aget_is_Some (joincond s) i) as [c Hc]; [rewrite (to_join _ _ _ Ht); by eapply to_dom|].
  wp_step. eapply wp_thread_read; [exact Hx|]. rewrite decide_True by done. rewrite Hci. wp_step.
  eapply (cond_wait_spec (join_cv i) (set_join_cv i)); [exact Hc|by eapply (to_chains _ _ _ Ht)|exact Hh|].
  unfold unlock_threads. wp_step. wp_step. split; [split; [|done]|].
  - eapply table_ok_ext; [..|by apply (table_sleep s L W me i h c)]; done.
  - split; [done|]. split; [|done]. unfold owners. simpl. rewrite owners_aset. simpl. apply aset_id. apply owners_aget. by exists h.
Qed.

Lemma single_join_end_spec s t :
  lock_tm s = false ->
  wp (thread_join_end t) (fun r s' => s' = s /\ fst r = (if t <? next_tid s then 0 else err EINVAL)) (tm_set_lock true s).
Proof.
  intros Hl. unfold thread_join_end, thread_search_retval. wp_step. wp_step. simpl.
  destruct (t <? next_tid s); repeat wp_step; unfold unlock_threads; repeat wp_step; (split; [destruct s; simpl in *; by subst|done]).
Qed.

End spec.
