(* ===== verification/SingleSteps.v ===== *)
(** * Interleavings of cores that run one thread each

    The cores of SingleThread.v as a step relation.  A step is what a core does while it
    holds the lock of the table, or one attempt to start a core.  The phases of the
    threads that run are part of the configuration; the identifiers whose creation failed
    and the ones for which [thread_join] returned 0 are recorded as ghost state. *)

From S2P Require Import Prelude.
From S2P Require Import Hlib.
From S2P Require Import ThreadBase.
From S2P Require Import Thread.
From S2P Require Import ThreadSpec.
From S2P Require Import SingleThread.
From S2P Require Import SingleSpec.

Import Single.

Section steps.
Context `{H : Hlib} `{C : CoreHw} `{R : !CoreReset}.

(** What the thread of a core is doing. *)
Inductive phase :=
| Idle
| Creating (i t : Z) (trials : nat)
| Asleep (j t : Z)
| Woken (t : Z).

Record config := Config {
  st : tm;
  phases : gmap Z phase;
  leaving : gset Z;
  failed : gset Z;
  joined : gset Z;
}.

(** The broadcast of core [me]. *)
Definition wake (me : Z) (p : phase) : phase :=
  match p with Asleep j t => if decide (j = me) then Woken t else p | _ => p end.

Definition record_join (r : Z * option Z) (t : Z) (J : gset Z) : gset Z := if fst r =? 0 then {[t]} ∪ J else J.

(** A routine is called under the conditions it asserts: [thread_join] neither for the
    master nor for the caller, [thread_exit] on a core that the HAL releases. *)
Inductive step : config -> config -> Prop :=
| StCreateFail s P X F J me entry a e s' :
    P !! me = Some Idle -> entry ≠ 0 -> create_begin entry a s = Done (inl e) s' ->
    step (Config s P X F J) (Config s' P X F J)
| StCreate s P X F J me entry a i t s' :
    P !! me = Some Idle -> entry ≠ 0 -> create_begin entry a s = Done (inr (i, t)) s' ->
    step (Config s P X F J) (Config s' (<[me := Creating i t (Z.to_nat THREAD_CREATE_NTRIALS)]> P) X F J)
| StStart s P X F J me i t n s' :
    P !! me = Some (Creating i t (S n)) -> create_trial i s = Done 0 s' ->
    step (Config s P X F J) (Config s' (<[i := Idle]> (<[me := Idle]> P)) X F J)
| StBusy s P X F J me i t n s' :
    P !! me = Some (Creating i t (S n)) -> create_trial i s = Done (err EBUSY) s' ->
    step (Config s P X F J) (Config s' (<[me := Creating i t n]> P) X F J)
| StStartFail s P X F J me i t n r s' :
    P !! me = Some (Creating i t (S n)) -> create_trial i s = Done r s' -> r ≠ 0 -> r ≠ err EBUSY ->
    step (Config s P X F J) (Config s' (<[me := Creating i t 0]> P) X F J)
| StRollback s P X F J me i t s' :
    P !! me = Some (Creating i t 0) -> create_rollback i s = Done tt s' ->
    step (Config s P X F J) (Config s' (<[me := Idle]> P) X ({[t]} ∪ F) J)
| StExit s P X F J me v s' :
    P !! me = Some Idle -> fst (core_release me (tm_cores s)) = 0 -> thread_exit_release me v s = Done tt s' ->
    step (Config s P X F J) (Config s' (wake me <$> delete me P) ({[me]} ∪ X) F J)
| StReset s P X F J me :
    me ∈ X ->
    step (Config s P X F J) (Config (tm_set_cores (core_reset me (tm_cores s)) s) P (X ∖ {[me]}) F J)
| StSleep s P X F J me t j s' :
    P !! me = Some Idle -> 0 < t -> aget (owners s) me ≠ Some t -> thread_join_begin me t s = Done (inl j) s' ->
    step (Config s P X F J) (Config s' (<[me := Asleep j t]> P) X F J)
| StJoin s P X F J me t s1 r s' :
    P !! me = Some Idle -> 0 < t -> aget (owners s) me ≠ Some t -> thread_join_begin me t s = Done (inr tt) s1 -> thread_join_end t s1 = Done r s' ->
    step (Config s P X F J) (Config s' P X F (record_join r t J))
| StJoinEnd s P X F J me t r s' :
    P !! me = Some (Woken t) -> (lock_threads;; thread_join_end t) s = Done r s' ->
    step (Config s P X F J) (Config s' (<[me := Idle]> P) X F (record_join r t J)).

(** The static initialisation: the master runs. *)
Definition initial (c0 : cores) (kmain : Z) (s : tm) : Prop :=
  tm_cores s = c0 /\
  threads s = Thread KTHREAD_MASTER_TID 0 THREAD_RUNNING 0 kmain 0 None ::
    replicate (Z.to_nat (KTHREAD_MAX - 1)) (Thread KTHREAD_NULL_TID 0 THREAD_NOT_STARTED 0 0 0 None) /\
  joincond s = replicate (Z.to_nat KTHREAD_MAX) COND_INITIALIZER /\ nthreads s = 1 /\ next_tid s = KTHREAD_MASTER_TID + 1 /\
  lock_tm s = SPINLOCK_UNLOCKED /\
  exit_values s = replicate (Z.to_nat KTHREAD_EXIT_VALUE_NUM) (ExitValue KTHREAD_NULL_TID 0) /\ next_exit_value s = 0.

Inductive reachable (c0 : cores) (kmain : Z) : config -> Prop :=
| ReachInit s : initial c0 kmain s -> reachable c0 kmain (Config s {[0 := Idle]} ∅ ∅ ∅)
| ReachStep c c' : reachable c0 kmain c -> step c c' -> reachable c0 kmain c'.

(** ** The invariant *)

(** The thread [t] was created and is not in the table any more. *)
Definition gone (s : tm) (t : Z) : Prop := 0 ≤ t < next_tid s /\ forall i, aget (owners s) i ≠ Some t.

(** Threads that sleep, by the core whose variable they sleep on. *)
Definition asleep (P : gmap Z phase) : gmap Z Z := omap (fun p => match p with Asleep j _ => Some j | _ => None end) P.

(** The slots in use are the ones of the threads that run and of the ones that are created. *)
Definition creates (P : gmap Z phase) (i : Z) : Prop := exists me t n, P !! me = Some (Creating i t n).

(** The routines that the threads may call or are in the middle of. *)
Definition routines_return (c : config) : Prop :=
  forall me p, phases c !! me = Some p ->
  match p with
  | Idle =>
      (forall entry a, entry ≠ 0 -> exists r s', create_begin entry a (st c) = Done r s') /\
      (forall v, fst (core_release me (tm_cores (st c))) = 0 -> exists s', thread_exit_release me v (st c) = Done tt s') /\
      (forall t, 0 < t -> aget (owners (st c)) me ≠ Some t -> exists r s', thread_join_begin me t (st c) = Done r s')
  | Creating i t (S _) => exists r s', create_trial i (st c) = Done r s'
  | Creating i t 0 => exists s', create_rollback i (st c) = Done tt s'
  | Asleep _ _ => True
  | Woken t => exists r s', (lock_threads;; thread_join_end t) (st c) = Done r s'
  end.

Record config_ok (c : config) (L : gset Z) : Prop := {
  ok_sys : sys_ok (st c) L (asleep (phases c));
  ok_used i : i ∈ L <-> is_Some (phases c !! i) \/ creates (phases c) i;
  ok_new i : creates (phases c) i -> phases c !! i = None;
  ok_creator me k i t n t' n' :
    phases c !! me = Some (Creating i t n) -> phases c !! k = Some (Creating i t' n') -> me = k;
  ok_creating me i t n : phases c !! me = Some (Creating i t n) -> aget (owners (st c)) i = Some t;
  ok_asleep me j t : phases c !! me = Some (Asleep j t) -> j ∈ L /\ aget (owners (st c)) j = Some t \/ t ∈ failed c;
  ok_woken me t : phases c !! me = Some (Woken t) -> gone (st c) t;
  ok_failed t : t ∈ failed c -> gone (st c) t;
  ok_joined t : t ∈ joined c -> gone (st c) t;
}.

(** ** Facts about identifiers *)

Lemma owners_used s L W i t : table_ok s L W -> aget (owners s) i = Some t -> i ∈ L <-> 0 ≤ t < next_tid s.
Proof.
  intros Ht (h & Hh & <-)%owners_aget. split.
  - intros Hi. by destruct (to_used _ _ _ Ht _ _ Hh Hi) as (_ & _ & ?).
  - intros Hpos. destruct (decide (i ∈ L)) as [|Hi]; [done|].
    destruct (to_free _ _ _ Ht _ _ Hh Hi) as (_ & _ & E). unfold KTHREAD_NULL_TID in E. lia.
Qed.

Lemma owners_unique s L W i j t :
  table_ok s L W -> i ∈ L -> aget (owners s) i = Some t -> aget (owners s) j = Some t -> i = j.
Proof.
  intros Ht Hi Ho Ho'. assert (Hj : j ∈ L) by (apply (owners_used _ _ _ _ _ Ht Ho'), (owners_used _ _ _ _ _ Ht Ho), Hi).
  apply owners_aget in Ho as (h & Hh & <-), Ho' as (k & Hk & E). by eapply (to_tids _ _ _ Ht).
Qed.

Lemma gone_same s s' t : next_tid s' = next_tid s -> owners s' = owners s -> gone s t -> gone s' t.
Proof. unfold gone. by intros -> ->. Qed.

Lemma gone_aset s s' i x t :
  next_tid s ≤ next_tid s' -> owners s' = aset i x (owners s) -> x = next_tid s \/ x = KTHREAD_NULL_TID -> gone s t -> gone s' t.
Proof.
  unfold KTHREAD_NULL_TID. intros Hn Ho Hx [Ht Hg]. split; [lia|]. rewrite Ho. intros j [[_ ->]|[_ Hj]]%aset_inv; [lia|by eapply Hg].
Qed.

(** The thread of the slot that is released is gone. *)
Lemma gone_free s s' L W i t :
  table_ok s L W -> i ∈ L -> next_tid s' = next_tid s -> owners s' = aset i KTHREAD_NULL_TID (owners s) ->
  aget (owners s) i = Some t -> gone s' t.
Proof.
  intros Ht Hi Hn Ho Hown. pose proof (proj1 (owners_used _ _ _ _ _ Ht Hown) Hi) as Hr. split; [lia|]. rewrite Ho.
  intros j [[_ ->]|[Hne Hj]]%aset_inv; [unfold KTHREAD_NULL_TID in Hr; lia|]. apply Hne. symmetry. by eapply owners_unique.
Qed.

(** ** Facts about phases *)

Lemma asleep_Some P i j : asleep P !! i = Some j <-> exists t, P !! i = Some (Asleep j t).
Proof.
  unfold asleep. rewrite lookup_omap_Some. split.
  - intros (p & E & Hp). destruct p; simplify_eq. by eexists.
  - intros (t & Hp). by exists (Asleep j t).
Qed.

Lemma asleep_awake P i p : P !! i = Some p -> (forall j t, p ≠ Asleep j t) -> asleep P !! i = None.
Proof. intros Hi Hp. apply eq_None_not_Some. intros [j (t & Hj)%asleep_Some]. apply (Hp j t). congruence. Qed.

Lemma asleep_None P i : P !! i = None -> asleep P !! i = None.
Proof. intros Hi. unfold asleep. by rewrite lookup_omap, Hi. Qed.

Lemma asleep_insert P i p : asleep P !! i = None -> (forall j t, p ≠ Asleep j t) -> asleep (<[i := p]> P) = asleep P.
Proof.
  intros Hi Hp. apply map_eq. intros k. apply option_eq. intros j. rewrite !asleep_Some. destruct (decide (i = k)) as [<-|Hne].
  - rewrite lookup_insert_eq. split; [intros (t & [= ->]); by destruct (Hp j t)|]. intros Hj%asleep_Some. congruence.
  - by rewrite lookup_insert_ne.
Qed.

Lemma asleep_push P i j t : asleep (<[i := Asleep j t]> P) = <[i := j]> (asleep P).
Proof. unfold asleep. by erewrite omap_insert_Some. Qed.

Lemma asleep_wake P me : asleep P !! me = None -> asleep (wake me <$> delete me P) = filter (fun p => p.2 ≠ me) (asleep P).
Proof.
  intros Hme. apply map_eq. intros k. apply option_eq. intros j. rewrite asleep_Some, map_lookup_filter_Some, asleep_Some. simpl.
  setoid_rewrite lookup_fmap_Some. setoid_rewrite lookup_delete_Some. split.
  - intros (t & p & Hp & Hne & Hk). destruct p as [| |j' t'|]; simpl in Hp; try done. case_decide; naive_solver.
  - intros [(t & Hk) Hj]. exists t, (Asleep j t). simpl. rewrite decide_False by done. split; [done|]. split; [|done].
    intros <-. assert (asleep P !! me = Some j) by (apply asleep_Some; by exists t). congruence.
Qed.

(** ** Preservation *)

Implicit Types (P : gmap Z phase) (s : tm) (L X F J : gset Z).

Definition creating_of (p : phase) : option (Z * Z) := match p with Creating i t _ => Some (i, t) | _ => None end.

Lemma creating_of_inv p i t : creating_of p = Some (i, t) -> exists n, p = Creating i t n.
Proof. destruct p; [done| |done..]. intros [= -> ->]. by eexists. Qed.

(** A thread enters another phase and creates the same thread, if any. *)
Lemma quiet_creating P me p q k i t n :
  P !! me = Some p -> creating_of q = creating_of p -> <[me := q]> P !! k = Some (Creating i t n) ->
  exists n', P !! k = Some (Creating i t n').
Proof.
  intros Hp Hq [[-> ->]|[Hne Hk]]%lookup_insert_Some; [|by exists n].
  symmetry in Hq. apply creating_of_inv in Hq as [n' ->]. by exists n'.
Qed.

Lemma quiet_creates P me p q i :
  P !! me = Some p -> creating_of q = creating_of p -> creates (<[me := q]> P) i <-> creates P i.
Proof.
  intros Hp Hq. split.
  - intros (k & t & n & Hk). destruct (quiet_creating _ _ _ _ _ _ _ _ Hp Hq Hk) as [n' Hk']. by exists k, t, n'.
  - intros (k & t & n & Hk). destruct (decide (me = k)) as [<-|Hne].
    + assert (E : creating_of q = Some (i, t)) by (rewrite Hq; by simplify_eq). apply creating_of_inv in E as [n' ->].
      exists me, t, n'. apply lookup_insert_eq.
    + exists k, t, n. by rewrite lookup_insert_ne.
Qed.

Lemma quiet_is_Some P me (p q : phase) i : P !! me = Some p -> is_Some (<[me := q]> P !! i) <-> is_Some (P !! i).
Proof. intros Hp. rewrite lookup_insert_is_Some. destruct (decide (me = i)) as [<-|]; [rewrite Hp|]; naive_solver. Qed.

Lemma ok_quiet s P X F J L me p q s' X' J' :
  config_ok (Config s P X F J) L -> P !! me = Some p -> creating_of q = creating_of p ->
  sys_ok s' L (asleep (<[me := q]> P)) -> next_tid s' = next_tid s -> owners s' = owners s ->
  (forall j t, q = Asleep j t -> j ∈ L /\ aget (owners s) j = Some t \/ t ∈ F) -> (forall t, q = Woken t -> gone s t) ->
  (forall t, t ∈ J' -> gone s t) -> config_ok (Config s' (<[me := q]> P) X' F J') L.
Proof.
  intros Hok Hp Hq Hsys Hn Ho Hsl Hwk HJ. pose proof (fun t => gone_same s s' t Hn Ho) as Hg. split; simpl.
  - done.
  - intros i. rewrite (ok_used _ _ Hok), (quiet_creates _ _ _ _ _ Hp Hq). simpl. by rewrite (quiet_is_Some _ _ _ _ _ Hp).
  - intros i Hi%(quiet_creates _ _ _ _ _ Hp Hq). apply (ok_new _ _ Hok) in Hi. simpl in Hi.
    apply eq_None_not_Some. rewrite (quiet_is_Some _ _ _ _ _ Hp), Hi. by intros [].
  - intros k1 k2 i t n t' n' H1 H2. destruct (quiet_creating _ _ _ _ _ _ _ _ Hp Hq H1) as [n1 H1'].
    destruct (quiet_creating _ _ _ _ _ _ _ _ Hp Hq H2) as [n2 H2']. by eapply (ok_creator _ _ Hok).
  - intros k i t n H1. destruct (quiet_creating _ _ _ _ _ _ _ _ Hp Hq H1) as [n1 H1']. rewrite Ho. by eapply (ok_creating _ _ Hok).
  - intros k j t [[_ E]|[_ Hk]]%lookup_insert_Some; rewrite Ho; [by apply Hsl|by eapply (ok_asleep _ _ Hok)].
  - intros k t [[_ E]|[_ Hk]]%lookup_insert_Some; apply Hg; [by apply Hwk|by eapply (ok_woken _ _ Hok)].
  - intros t Ht. apply Hg. by apply (ok_failed _ _ Hok).
  - intros t Ht. by apply Hg, HJ.
Qed.

(** The state changes, and the phases do not. *)
Lemma ok_state s P X F J L s' X' J' me p :
  config_ok (Config s P X F J) L -> P !! me = Some p -> sys_ok s' L (asleep P) -> next_tid s' = next_tid s -> owners s' = owners s ->
  (forall t, t ∈ J' -> gone s t) -> config_ok (Config s' P X' F J') L.
Proof.
  intros Hok Hp Hsys Hn Ho HJ. rewrite <- (insert_id P me p Hp). eapply ok_quiet; try done; [by rewrite insert_id| |].
  - intros j t ->. by eapply (ok_asleep _ _ Hok).
  - intros t ->. by eapply (ok_woken _ _ Hok).
Qed.

Lemma ok_creating_used s P X F J L me i t n : config_ok (Config s P X F J) L -> P !! me = Some (Creating i t n) -> i ∈ L /\ P !! i = None.
Proof.
  intros Hok Hp. assert (Hc : creates P i) by (by exists me, t, n).
  split; [apply (ok_used _ _ Hok); by right|by apply (ok_new _ _ Hok)].
Qed.

Lemma ok_create s P X F J L me i t n s' :
  config_ok (Config s P X F J) L -> P !! me = Some Idle -> i ∉ L -> t = next_tid s ->
  sys_ok s' ({[i]} ∪ L) (asleep P) -> next_tid s' = next_tid s + 1 -> owners s' = aset i t (owners s) ->
  config_ok (Config s' (<[me := Creating i t n]> P) X F J) ({[i]} ∪ L).
Proof.
  intros Hok Hp Hi Ht Hsys Hn Ho. assert (Hg : forall u, gone s u -> gone s' u) by (intros u; eapply gone_aset; [lia|exact Ho|by left]).
  assert (HiP : P !! i = None) by (apply eq_None_not_Some; intros Hs; apply Hi, (ok_used _ _ Hok); by left).
  assert (HiC : ~ creates P i) by (intros Hs; apply Hi, (ok_used _ _ Hok); by right).
  assert (Hcr : forall k, creates (<[me := Creating i t n]> P) k <-> k = i \/ creates P k).
  { intros k. split.
    - intros (m & t1 & n1 & [[<- E]|[_ Hk]]%lookup_insert_Some); [left; congruence|right; by exists m, t1, n1].
    - intros [->|(m & t1 & n1 & Hk)]; [exists me, t, n; apply lookup_insert_eq|]. exists m, t1, n1. rewrite lookup_insert_ne; [done|]. intros <-. congruence. }
  assert (Hown : forall k u, k ≠ i -> aget (owners s) k = Some u -> aget (owners s') k = Some u) by (intros k u Hne Hk; by rewrite Ho, aget_aset_ne).
  assert (HL : forall k, k ∈ L -> k ≠ i) by (intros k Hk ->; done).
  split; simpl.
  - rewrite asleep_insert; [done|by eapply asleep_awake|done].
  - intros k. rewrite elem_of_union, elem_of_singleton, (ok_used _ _ Hok), Hcr. simpl. rewrite (quiet_is_Some _ _ _ _ _ Hp). tauto.
  - intros k [->|Hk]%Hcr; apply eq_None_not_Some; rewrite (quiet_is_Some _ _ _ _ _ Hp); apply eq_None_not_Some; [done|by apply (ok_new _ _ Hok)].
  - intros k1 k2 j t1 n1 t2 n2 [[<- E1]|[N1 H1]]%lookup_insert_Some [[<- E2]|[N2 H2]]%lookup_insert_Some; simplify_eq; try done.
    + destruct HiC. by exists k2, t2, n2.
    + destruct HiC. by exists k1, t1, n1.
    + by eapply (ok_creator _ _ Hok).
  - intros k j t1 n1 [[<- E1]|[N1 H1]]%lookup_insert_Some.
    + injection E1 as -> -> ->. destruct (to_get _ _ _ j (proj1 Hsys)) as [h Hh]; [set_solver|].
      assert (Hj : aget (owners s') j = Some (tid h)) by (apply owners_aget; by exists h).
      rewrite Hj. rewrite Ho in Hj. apply aset_inv in Hj as [[_ ->]|[? _]]; done.
    + apply Hown; [|by eapply (ok_creating _ _ Hok)]. by apply HL, (ok_creating_used _ _ _ _ _ _ _ _ _ _ Hok H1).
  - intros k j t1 [[<- E1]|[N1 H1]]%lookup_insert_Some; [done|]. destruct (ok_asleep _ _ Hok _ _ _ H1) as [[HjL Hj]|Hj]; [left|by right].
    split; [set_solver|]. apply Hown; [|done]. by apply HL.
  - intros k t1 [[<- E1]|[N1 H1]]%lookup_insert_Some; [done|]. by apply Hg, (ok_woken _ _ Hok k).
  - intros t1 Hf. by apply Hg, (ok_failed _ _ Hok).
  - intros t1 Hf. by apply Hg, (ok_joined _ _ Hok).
Qed.

(** Nothing creates slot [i] any more once its creator is done. *)
Lemma creates_done s P X F J L me i t n k :
  config_ok (Config s P X F J) L -> P !! me = Some (Creating i t n) ->
  creates (<[me := Idle]> P) k <-> creates P k /\ k ≠ i.
Proof.
  intros Hok Hp. split.
  - intros (m & t1 & n1 & [[_ E]|[Hne Hk]]%lookup_insert_Some); [done|]. split; [by exists m, t1, n1|].
    intros ->. apply Hne. by eapply (ok_creator _ _ Hok).
  - intros [(m & t1 & n1 & Hk) Hne]. exists m, t1, n1. rewrite lookup_insert_ne; [done|]. intros ->. congruence.
Qed.

Lemma idle_creating P k me i t n : <[k := Idle]> P !! me = Some (Creating i t n) -> me ≠ k /\ P !! me = Some (Creating i t n).
Proof. intros [[_ E]|[Hne Hk]]%lookup_insert_Some; [done|]. split; [congruence|done]. Qed.

Lemma idle_asleep P k me j t : <[k := Idle]> P !! me = Some (Asleep j t) -> P !! me = Some (Asleep j t).
Proof. by intros [[_ E]|[Hne Hk]]%lookup_insert_Some. Qed.

Lemma idle_woken P k me t : <[k := Idle]> P !! me = Some (Woken t) -> P !! me = Some (Woken t).
Proof. by intros [[_ E]|[Hne Hk]]%lookup_insert_Some. Qed.

Lemma ok_start s P X F J L me i t n s' :
  config_ok (Config s P X F J) L -> P !! me = Some (Creating i t n) ->
  sys_ok s' L (asleep P) -> next_tid s' = next_tid s -> owners s' = owners s ->
  config_ok (Config s' (<[i := Idle]> (<[me := Idle]> P)) X F J) L.
Proof.
  intros Hok Hp Hsys Hn Ho. destruct (ok_creating_used _ _ _ _ _ _ _ _ _ _ Hok Hp) as [HiL HiP].
  assert (Hne : me ≠ i) by congruence. assert (HiP' : <[me := Idle]> P !! i = None) by (by rewrite lookup_insert_ne).
  pose proof (fun t => gone_same s s' t Hn Ho) as Hg. pose proof (fun k => creates_done _ _ _ _ _ _ _ _ _ _ k Hok Hp) as Hd.
  assert (Hcr : forall k, creates (<[i := Idle]> (<[me := Idle]> P)) k <-> creates P k /\ k ≠ i).
  { intros k. rewrite <- Hd. split.
    - intros (m & t1 & n1 & [_ Hk]%idle_creating). by exists m, t1, n1.
    - intros (m & t1 & n1 & Hk). exists m, t1, n1. rewrite lookup_insert_ne; [done|]. intros <-. congruence. }
  split; simpl.
  - rewrite !asleep_insert; [done|by eapply asleep_awake|done| |done]. rewrite asleep_insert; [by apply asleep_None|by eapply asleep_awake|done].
  - intros k. rewrite (ok_used _ _ Hok), Hcr, lookup_insert_is_Some. simpl. rewrite (quiet_is_Some _ _ _ _ _ Hp).
    destruct (decide (i = k)) as [<-|Hik]; [|naive_solver]. split; [by left; left|]. intros _. right. by exists me, t, n.
  - intros k [Hk Hki]%Hcr. rewrite lookup_insert_ne by done. apply eq_None_not_Some. rewrite (quiet_is_Some _ _ _ _ _ Hp).
    apply eq_None_not_Some. by apply (ok_new _ _ Hok).
  - intros k1 k2 j t1 n1 t2 n2 [_ [_ H1]%idle_creating]%idle_creating [_ [_ H2]%idle_creating]%idle_creating. by eapply (ok_creator _ _ Hok).
  - intros k j t1 n1 [_ [_ H1]%idle_creating]%idle_creating. rewrite Ho. by eapply (ok_creating _ _ Hok).
  - intros k j t1 H1%idle_asleep%idle_asleep. rewrite Ho. by eapply (ok_asleep _ _ Hok).
  - intros k t1 H1%idle_woken%idle_woken. by eapply Hg, (ok_woken _ _ Hok).
  - intros t1 Hf. by apply Hg, (ok_failed _ _ Hok).
  - intros t1 Hf. by apply Hg, (ok_joined _ _ Hok).
Qed.

Lemma ok_rollback s P X F J L me i t n s' :
  config_ok (Config s P X F J) L -> P !! me = Some (Creating i t n) ->
  sys_ok s' (L ∖ {[i]}) (asleep P) -> next_tid s' = next_tid s -> owners s' = aset i KTHREAD_NULL_TID (owners s) ->
  config_ok (Config s' (<[me := Idle]> P) X ({[t]} ∪ F) J) (L ∖ {[i]}).
Proof.
  intros Hok Hp Hsys Hn Ho. destruct (ok_creating_used _ _ _ _ _ _ _ _ _ _ Hok Hp) as [HiL HiP].
  assert (Hg : forall u, gone s u -> gone s' u) by (intros u; eapply gone_aset; [lia|exact Ho|by right]).
  pose proof (ok_creating _ _ Hok _ _ _ _ Hp) as Hown. simpl in Hown.
  pose proof (fun k => creates_done _ _ _ _ _ _ _ _ _ _ k Hok Hp) as Hd. split; simpl.
  - rewrite asleep_insert; [done|by eapply asleep_awake|done].
  - intros k. rewrite elem_of_difference, elem_of_singleton, (ok_used _ _ Hok), Hd, (quiet_is_Some _ _ _ _ _ Hp). simpl.
    split; [naive_solver|]. intros [[x Hx]|[Hk Hki]]; [|naive_solver]. split; [left; by exists x|]. congruence.
  - intros k [Hk Hki]%Hd. apply eq_None_not_Some. rewrite (quiet_is_Some _ _ _ _ _ Hp). apply eq_None_not_Some. by apply (ok_new _ _ Hok).
  - intros k1 k2 j t1 n1 t2 n2 [_ H1]%idle_creating [_ H2]%idle_creating. by eapply (ok_creator _ _ Hok).
  - intros k j t1 n1 [Hkm H1]%idle_creating. rewrite Ho, aget_aset_ne; [by eapply (ok_creating _ _ Hok)|].
    intros <-. apply Hkm. by eapply (ok_creator _ _ Hok).
  - intros k j t1 H1%idle_asleep. destruct (ok_asleep _ _ Hok _ _ _ H1) as [[HjL Hj]|Hj]; [|right; set_solver]. simpl in Hj.
    destruct (decide (i = j)) as [<-|Hij]; [right; assert (t1 = t) as -> by congruence; set_solver|].
    left. split; [set_solver|]. by rewrite Ho, aget_aset_ne.
  - intros k t1 H1%idle_woken. by eapply Hg, (ok_woken _ _ Hok).
  - intros t1 [->%elem_of_singleton|Hf]%elem_of_union; [|by apply Hg, (ok_failed _ _ Hok)].
    eapply gone_free; [exact (proj1 (ok_sys _ _ Hok))|exact HiL|exact Hn|exact Ho|exact Hown].
  - intros t1 Hf. by apply Hg, (ok_joined _ _ Hok).
Qed.

(** ** Termination of a thread *)

Lemma wake_creating P me k i t n : (wake me <$> delete me P) !! k = Some (Creating i t n) -> P !! k = Some (Creating i t n).
Proof.
  rewrite lookup_fmap_Some. intros (p & Hp & [_ Hk]%lookup_delete_Some). destruct p; simpl in Hp; try congruence. by case_decide.
Qed.

Lemma wake_asleep P me k j t : (wake me <$> delete me P) !! k = Some (Asleep j t) -> j ≠ me /\ P !! k = Some (Asleep j t).
Proof.
  rewrite lookup_fmap_Some. intros (p & Hp & [_ Hk]%lookup_delete_Some). destruct p; simpl in Hp; try congruence. case_decide; [done|].
  split; congruence.
Qed.

Lemma wake_woken P me k t :
  (wake me <$> delete me P) !! k = Some (Woken t) -> P !! k = Some (Woken t) \/ P !! k = Some (Asleep me t).
Proof.
  rewrite lookup_fmap_Some. intros (p & Hp & [_ Hk]%lookup_delete_Some).
  destruct p; simpl in Hp; try congruence; [|left; congruence]. case_decide; [right|]; congruence.
Qed.

Lemma wake_creates P me i : P !! me = Some Idle -> creates (wake me <$> delete me P) i <-> creates P i.
Proof.
  intros Hp. split; intros (k & t & n & Hk); exists k, t, n; [by eapply wake_creating|].
  rewrite lookup_fmap, lookup_delete_ne, Hk; [done|]. intros <-. congruence.
Qed.

Lemma ok_exit s P X F J L me s' X' :
  config_ok (Config s P X F J) L -> P !! me = Some Idle ->
  sys_ok s' (L ∖ {[me]}) (filter (fun p => p.2 ≠ me) (asleep P)) -> next_tid s' = next_tid s ->
  owners s' = aset me KTHREAD_NULL_TID (owners s) ->
  config_ok (Config s' (wake me <$> delete me P) X' F J) (L ∖ {[me]}).
Proof.
  intros Hok Hp Hsys Hn Ho. assert (Hme : me ∈ L) by (apply (ok_used _ _ Hok); left; by exists Idle).
  assert (Hg : forall u, gone s u -> gone s' u) by (intros u; eapply gone_aset; [lia|exact Ho|by right]).
  assert (Hcr : ~ creates P me) by (intros Hc; apply (ok_new _ _ Hok) in Hc; simpl in Hc; congruence).
  split; simpl.
  - rewrite asleep_wake; [done|by eapply asleep_awake].
  - intros k. rewrite elem_of_difference, elem_of_singleton, (ok_used _ _ Hok), (wake_creates _ _ _ Hp), lookup_fmap, fmap_is_Some, lookup_delete_is_Some.
    simpl. naive_solver.
  - intros k Hk%(wake_creates _ _ _ Hp). apply (ok_new _ _ Hok) in Hk. simpl in Hk. rewrite lookup_fmap, fmap_None.
    apply lookup_delete_None. by right.
  - intros k1 k2 j t1 n1 t2 n2 H1%wake_creating H2%wake_creating. by eapply (ok_creator _ _ Hok).
  - intros k j t1 n1 H1%wake_creating. rewrite Ho, aget_aset_ne; [by eapply (ok_creating _ _ Hok)|]. intros <-. apply Hcr. by exists k, t1, n1.
  - intros k j t1 [Hj H1]%wake_asleep. destruct (ok_asleep _ _ Hok _ _ _ H1) as [[HjL Hown]|Hf]; [left|by right].
    split; [set_solver|]. by rewrite Ho, aget_aset_ne.
  - intros k t1 [H1|H1]%wake_woken; [by eapply Hg, (ok_woken _ _ Hok)|].
    destruct (ok_asleep _ _ Hok _ _ _ H1) as [[_ Hown]|Hf]; [|by apply Hg, (ok_failed _ _ Hok)].
    eapply gone_free; [exact (proj1 (ok_sys _ _ Hok))|exact Hme|exact Hn|exact Ho|exact Hown].
  - intros t1 Hf. by apply Hg, (ok_failed _ _ Hok).
  - intros t1 Hf. by apply Hg, (ok_joined _ _ Hok).
Qed.

(** ** Every step *)

Context {HL : HlibLaws H}.

Lemma sys_cores c s L (W : gmap Z Z) : sys_ok s L W -> sys_ok (tm_set_cores c s) L W.
Proof. intros (Ht & He & Hl). split; [by eapply table_ok_ext; [..|exact Ht]|done]. Qed.

Lemma ok_trial s P X F J L me i t n r s' :
  config_ok (Config s P X F J) L -> P !! me = Some (Creating i t n) -> create_trial i s = Done r s' -> exists c, s' = tm_set_cores c s.
Proof.
  intros Hok Hp E. destruct (ok_creating_used _ _ _ _ _ _ _ _ _ _ Hok Hp) as [HiL _].
  exact (wp_Done _ _ _ _ _ E (create_trial_spec _ _ _ _ (ok_sys _ _ Hok) HiL)).
Qed.

Lemma ok_retry s P X F J L me i t n m c :
  config_ok (Config s P X F J) L -> P !! me = Some (Creating i t n) ->
  config_ok (Config (tm_set_cores c s) (<[me := Creating i t m]> P) X F J) L.
Proof.
  intros Hok Hp. eapply ok_quiet; [exact Hok|exact Hp|done| |done|done|done|done|apply (ok_joined _ _ Hok)].
  rewrite asleep_insert; [apply sys_cores, Hok|by eapply asleep_awake|done].
Qed.

Lemma ok_record s r t J : fst r = (if t <? next_tid s then 0 else err EINVAL) -> 0 ≤ t -> (forall i, aget (owners s) i ≠ Some t) ->
  (forall u, u ∈ J -> gone s u) -> forall u, u ∈ record_join r t J -> gone s u.
Proof.
  intros Hr Hpos Ho HJ u. unfold record_join. rewrite Hr. destruct (t <? next_tid s) eqn:E.
  2: { rewrite (proj2 (Z.eqb_neq _ _)); [apply HJ|]. pose proof (errno_pos EINVAL). unfold err. lia. }
  apply Z.ltb_lt in E. intros [->%elem_of_singleton|Hu]%elem_of_union; [by split|by apply HJ].
Qed.

Lemma ok_idle s P X F J L me : config_ok (Config s P X F J) L -> P !! me = Some Idle -> me ∈ L /\ asleep P !! me = None.
Proof. intros Hok Hp. split; [apply (ok_used _ _ Hok); left; by exists Idle|by eapply asleep_awake]. Qed.

Lemma ok_join_sleep s P X F J L me t j s' :
  config_ok (Config s P X F J) L -> P !! me = Some Idle -> 0 < t -> aget (owners s) me ≠ Some t ->
  thread_join_begin me t s = Done (inl j) s' -> config_ok (Config s' (<[me := Asleep j t]> P) X F J) L.
Proof.
  intros Hok Hp Ht Hne E. destruct (ok_idle _ _ _ _ _ _ _ Hok Hp) as [Hme HW]. pose proof (ok_sys _ _ Hok) as Hsys. simpl in Hsys.
  destruct (wp_Done _ _ _ _ _ E (single_join_begin_spec _ _ _ _ _ Hsys Hme HW Ht Hne)) as (Hs' & Hn & Ho & Hj).
  eapply ok_quiet; [exact Hok|exact Hp|done|by rewrite asleep_push|done|done| |done|apply (ok_joined _ _ Hok)].
  intros j0 t0 [= <- <-]. left. split; [|done]. destruct Hsys as [Htab _].
  apply owners_aget in Hj as (h & Hh & <-). destruct (decide (j ∈ L)) as [|Hn']; [done|].
  destruct (to_free _ _ _ Htab _ _ Hh Hn') as (_ & _ & Ef). unfold KTHREAD_NULL_TID in Ef. lia.
Qed.

Lemma ok_join_now s P X F J L me t s1 r s' :
  config_ok (Config s P X F J) L -> P !! me = Some Idle -> 0 < t -> aget (owners s) me ≠ Some t ->
  thread_join_begin me t s = Done (inr tt) s1 -> thread_join_end t s1 = Done r s' ->
  config_ok (Config s' P X F (record_join r t J)) L.
Proof.
  intros Hok Hp Ht Hne E1 E2. destruct (ok_idle _ _ _ _ _ _ _ Hok Hp) as [Hme HW]. pose proof (ok_sys _ _ Hok) as Hsys. simpl in Hsys.
  destruct (wp_Done _ _ _ _ _ E1 (single_join_begin_spec _ _ _ _ _ Hsys Hme HW Ht Hne)) as [-> Ho].
  destruct (wp_Done _ _ _ _ _ E2 (single_join_end_spec _ _ (proj2 (proj2 Hsys)))) as [-> Hr].
  eapply ok_state; [exact Hok|exact Hp|done|done|done|]. eapply ok_record; [exact Hr|lia|done|apply (ok_joined _ _ Hok)].
Qed.

Lemma join_woken_spec s t :
  lock_tm s = false ->
  wp (lock_threads;; thread_join_end t) (fun r s' => s' = s /\ fst r = (if t <? next_tid s then 0 else err EINVAL)) s.
Proof. intros Hl. wp_step. apply wp_lock_threads; [done|]. by apply single_join_end_spec. Qed.

Lemma ok_join_end s P X F J L me t r s' :
  config_ok (Config s P X F J) L -> P !! me = Some (Woken t) -> (lock_threads;; thread_join_end t) s = Done r s' ->
  config_ok (Config s' (<[me := Idle]> P) X F (record_join r t J)) L.
Proof.
  intros Hok Hp E. pose proof (ok_sys _ _ Hok) as Hsys. simpl in Hsys. destruct (ok_woken _ _ Hok _ _ Hp) as [Ht Ho].
  destruct (wp_Done _ _ _ _ _ E (join_woken_spec _ _ (proj2 (proj2 Hsys)))) as [-> Hr].
  eapply ok_quiet; [exact Hok|exact Hp|done| |done|done|done|done|].
  - rewrite asleep_insert; [done|by eapply asleep_awake|done].
  - eapply ok_record; [exact Hr|apply Ht|done|apply (ok_joined _ _ Hok)].
Qed.

Lemma step_ok c c' L : config_ok c L -> step c c' -> exists L', config_ok c' L'.
Proof.
  intros Hok Hst. destruct Hst as [s P X F J me entry a e s' Hp He E|s P X F J me entry a i t s' Hp He E|s P X F J me i t n s' Hp E
    |s P X F J me i t n s' Hp E|s P X F J me i t n r s' Hp E _ _|s P X F J me i t s' Hp E|s P X F J me v s' Hp Hr E
    |s P X F J me Hx|s P X F J me t j s' Hp Ht Hne E|s P X F J me t s1 r s' Hp Ht Hne E1 E2|s P X F J me t r s' Hp E];
    pose proof (ok_sys _ _ Hok) as Hsys; simpl in Hsys.
  - destruct (wp_Done _ _ _ _ _ E (create_begin_spec _ _ _ _ _ Hsys He)) as (_ & -> & _). by exists L.
  - destruct (wp_Done _ _ _ _ _ E (create_begin_spec _ _ _ _ _ Hsys He)) as (Ht & Hi & _ & Hs' & Hn & Ho).
    eexists. by eapply ok_create.
  - destruct (ok_trial _ _ _ _ _ _ _ _ _ _ _ _ Hok Hp E) as [c ->]. exists L. eapply ok_start; [exact Hok|exact Hp|by apply sys_cores|done|done].
  - destruct (ok_trial _ _ _ _ _ _ _ _ _ _ _ _ Hok Hp E) as [c ->]. exists L. by eapply ok_retry.
  - destruct (ok_trial _ _ _ _ _ _ _ _ _ _ _ _ Hok Hp E) as [c ->]. exists L. by eapply ok_retry.
  - destruct (ok_creating_used _ _ _ _ _ _ _ _ _ _ Hok Hp) as [HiL HiP].
    destruct (wp_Done _ _ _ _ _ E (create_rollback_spec _ _ _ _ Hsys HiL (asleep_None _ _ HiP))) as (Hs' & Hn & Ho).
    eexists. by eapply ok_rollback.
  - destruct (ok_idle _ _ _ _ _ _ _ Hok Hp) as [Hme HW].
    destruct (wp_Done _ _ _ _ _ E (exit_release_spec _ _ _ _ v Hsys Hme HW Hr)) as (Hs' & Hn & Ho). eexists. by eapply ok_exit.
  - exists L. destruct Hok as [? ? ? ? ? ? ? ? ?]. split; try done. by apply sys_cores.
  - exists L. by eapply ok_join_sleep.
  - exists L. by eapply ok_join_now.
  - exists L. by eapply ok_join_end.
Qed.

Lemma initial_ok c0 kmain s : 0 < CORES_NUM -> initial c0 kmain s -> config_ok (Config s {[0 := Idle]} ∅ ∅ ∅) {[0]}.
Proof.
  intros Hc (_ & Hth & Hjc & Hnt & Hnx & Hl & Hev & Hne).
  assert (HW : asleep {[0 := Idle]} = ∅) by (apply map_eq; intros i; apply option_eq; intros j; rewrite asleep_Some, lookup_empty; split; [|done]; by intros (t & [_ ?]%lookup_singleton_Some)).
  assert (Hent : forall i h, aget (threads s) i = Some h -> i = 0 /\ h = Thread KTHREAD_MASTER_TID 0 THREAD_RUNNING 0 kmain 0 None \/
    i ≠ 0 /\ h = Thread KTHREAD_NULL_TID 0 THREAD_NOT_STARTED 0 0 0 None).
  { intros i h Hh. pose proof (aget_lt _ _ _ Hh). rewrite Hth in Hh. destruct (decide (i = 0)) as [->|Hi]; [left; split; [done|]; by injection Hh as <-|right].
    split; [done|]. rewrite aget_cons_S in Hh by lia. by eapply aget_replicate. }
  split; simpl; try set_solver.
  - rewrite HW. split; [|split; [|done]].
    + split.
      * rewrite Hth. simpl. rewrite length_replicate. unfold KTHREAD_MAX, THREAD_MAX. lia.
      * rewrite Hjc, length_replicate. unfold KTHREAD_MAX, THREAD_MAX. lia.
      * intros i ->%elem_of_singleton. lia.
      * intros i h [[-> ->]|[Hi ->]]%Hent Hin; [|set_solver]. rewrite Hnx. simpl. unfold KTHREAD_MASTER_TID. split; [done|]. split; [done|lia].
      * intros i h [[-> ->]|[Hi ->]]%Hent Hin; [set_solver|]. simpl. auto.
      * intros i j h k _ _ ->%elem_of_singleton ->%elem_of_singleton. done.
      * rewrite Hnx. unfold KTHREAD_MASTER_TID. lia.
      * by rewrite size_singleton.
      * done.
      * intros j c. rewrite Hjc. intros ->%aget_replicate. split; [done|]. exists []. split; [done|]. intros i. rewrite lookup_empty. set_solver.
    + split; [rewrite Hev, length_replicate|rewrite Hne]; unfold KTHREAD_EXIT_VALUE_NUM, KTHREAD_MAX, THREAD_MAX, SYS_THREAD_MAX; lia.
  - intros i. rewrite elem_of_singleton. split; [intros ->; left; by rewrite lookup_singleton_eq|].
    intros [[x [-> _]%lookup_singleton_Some]|(m & t & n & [_ ?]%lookup_singleton_Some)]; done.
  - by intros i (m & t & n & [_ ?]%lookup_singleton_Some).
  - by intros m k i t n t' n' [_ ?]%lookup_singleton_Some.
  - by intros m i t n [_ ?]%lookup_singleton_Some.
  - by intros m j t [_ ?]%lookup_singleton_Some.
  - by intros m t [_ ?]%lookup_singleton_Some.
Qed.

Lemma reachable_ok c0 kmain c : 0 < CORES_NUM -> reachable c0 kmain c -> exists L, config_ok c L.
Proof.
  intros Hc. induction 1 as [s Hi|c c' _ [L IH] Hst]; [|by eapply step_ok]. eexists. by eapply initial_ok.
Qed.

Lemma wp_exists {A} (m : K tm A) Q s : wp m Q s -> exists r s', m s = Done r s'.
Proof. intros (r & s' & E & _)%wp_returns. by exists r, s'. Qed.

Lemma wp_exists_unit (m : K tm unit) Q s : wp m Q s -> exists s', m s = Done tt s'.
Proof. intros ([] & s' & E)%wp_exists. by exists s'. Qed.

Lemma ok_return c L : config_ok c L -> routines_return c.
Proof.
  intros Hok me p Hp. destruct c as [s P X F J]. pose proof (ok_sys _ _ Hok) as Hsys. simpl in *. destruct p as [|i t [|n]|j t|t].
  - destruct (ok_idle _ _ _ _ _ _ _ Hok Hp) as [Hme HW]. split; [|split].
    + intros entry a He. eapply wp_exists, create_begin_spec; [exact Hsys|done].
    + intros v Hr. eapply wp_exists_unit, exit_release_spec; [exact Hsys|done..].
    + intros t Ht Hne. eapply wp_exists, single_join_begin_spec; [exact Hsys|done..].
  - destruct (ok_creating_used _ _ _ _ _ _ _ _ _ _ Hok Hp) as [HiL HiP].
    eapply wp_exists_unit, create_rollback_spec; [exact Hsys|done|by apply asleep_None].
  - destruct (ok_creating_used _ _ _ _ _ _ _ _ _ _ Hok Hp) as [HiL HiP]. eapply wp_exists, create_trial_spec; [exact Hsys|done].
  - done.
  - eapply wp_exists, join_woken_spec, Hsys.
Qed.

(** ** [thread_create] as steps *)

Lemma create_start_steps n s P X F J me i t r s' :
  P !! me = Some (Creating i t n) -> n ≠ 0%nat -> create_start i n s = Done r s' ->
  rtc step (Config s P X F J) (Config s' (if r =? 0 then <[i := Idle]> (<[me := Idle]> P) else <[me := Creating i t 0]> P) X F J).
Proof.
  revert s P. induction n as [|n IH]; intros s P Hp Hn E; [done|]. simpl in E.
  destruct (create_trial i s) as [r1 s1| | |] eqn:E1; unfold mbind, K_bind in E; rewrite E1 in E; try done.
  pose proof (errno_pos EBUSY) as Hpos. destruct (r1 =? err EBUSY) eqn:Eb; simpl in E.
  - apply Z.eqb_eq in Eb. subst r1. eapply rtc_l; [by eapply StBusy|]. destruct n as [|n]; simpl in E.
    + injection E as <- <-. rewrite (proj2 (Z.eqb_neq _ _)) by (unfold err; lia). done.
    + eapply (IH _ (<[me := Creating i t (S n)]> P)) in E; [|by rewrite lookup_insert_eq|done]. by rewrite !insert_insert_eq in E.
  - injection E as <- <-. destruct (r1 =? 0) eqn:E0; apply rtc_once.
    + apply Z.eqb_eq in E0. subst r1. by eapply StStart.
    + eapply StStartFail; [done|exact E1|by apply Z.eqb_neq|by apply Z.eqb_neq].
Qed.

(** A call of [thread_create] that is not interleaved with other cores is a sequence of steps. *)
Lemma thread_create_steps s P X F J me entry a r o s' :
  P !! me = Some Idle -> entry ≠ 0 -> thread_create entry a s = Done (r, o) s' ->
  rtc step (Config s P X F J) (Config s' P X F J) /\ o = None \/
  exists t, o = Some t /\
    if r =? 0 then exists i, rtc step (Config s P X F J) (Config s' (<[i := Idle]> (<[me := Idle]> P)) X F J)
    else rtc step (Config s P X F J) (Config s' P X ({[t]} ∪ F) J).
Proof.
  intros Hp He E. unfold thread_create, mbind, K_bind in E. destruct (create_begin entry a s) as [[e|[i t]] s1| | |] eqn:E1; try done.
  { injection E as <- <- <-. left. split; [|done]. apply rtc_once. by eapply StCreateFail. }
  right. destruct (create_start i (Z.to_nat THREAD_CREATE_NTRIALS) s1) as [r1 s2| | |] eqn:E2; try done.
  eapply (create_start_steps _ _ (<[me := Creating i t (Z.to_nat THREAD_CREATE_NTRIALS)]> P) X F J) in E2; [|by rewrite lookup_insert_eq|done].
  rewrite !insert_insert_eq in E2. assert (Hst : step (Config s P X F J) (Config s1 (<[me := Creating i t (Z.to_nat THREAD_CREATE_NTRIALS)]> P) X F J)) by (by eapply StCreate).
  destruct (r1 =? 0) eqn:E0; simpl in E.
  - injection E as <- <- <-. exists t. split; [done|]. rewrite E0. exists i. by eapply rtc_l.
  - destruct (create_rollback i s2) as [[] s3| | |] eqn:E3; try done. injection E as <- <- <-. exists t. split; [done|]. rewrite E0.
    eapply rtc_l; [exact Hst|]. eapply rtc_r; [exact E2|].
    replace P with (<[me := Idle]> (<[me := Creating i t 0]> P)) at 2 by (by rewrite insert_insert_eq, insert_id).
    eapply StRollback; [by rewrite lookup_insert_eq|exact E3].
Qed.

(** ** Properties *)

(** A thread that sleeps on the variable of a core without a thread stays asleep. *)
Lemma asleep_stays c c' L k i t :
  config_ok c L -> phases c !! k = Some (Asleep i t) -> phases c !! i = None -> step c c' -> phases c' !! k = Some (Asleep i t).
Proof.
  intros Hok Hk Hi Hst. destruct Hst as [s P X F J me entry a e s' Hp He E|s P X F J me entry a j u s' Hp He E|s P X F J me j u n s' Hp E
    |s P X F J me j u n s' Hp E|s P X F J me j u n r s' Hp E _ _|s P X F J me j u s' Hp E|s P X F J me v s' Hp Hr E
    |s P X F J me Hx|s P X F J me u j s' Hp Ht Hne E|s P X F J me u s1 r s' Hp Ht Hne E1 E2|s P X F J me u r s' Hp E];
    simpl in *; try done; try (rewrite lookup_insert_ne; [done|congruence]).
  - destruct (ok_creating_used _ _ _ _ _ _ _ _ _ _ Hok Hp) as [_ Hj]. by rewrite !lookup_insert_ne by congruence.
  - rewrite lookup_fmap, lookup_delete_ne, Hk by congruence. simpl. by rewrite decide_False by congruence.
Qed.

Lemma asleep_forever c c' L k i t :
  rtc (fun a b => step a b /\ phases b !! i = None) c c' ->
  config_ok c L -> phases c !! k = Some (Asleep i t) -> phases c !! i = None -> phases c' !! k = Some (Asleep i t).
Proof.
  intros Hr. revert L. induction Hr as [c|c c1 c' [Hst Hi1] Hr IH]; intros L Hok Hk Hi; [done|].
  destruct (step_ok _ _ _ Hok Hst) as [L1 Hok1]. eapply IH; [exact Hok1| |done]. exact (asleep_stays _ _ _ _ _ _ Hok Hk Hi Hst).
Qed.



End steps.
