(* ===== verification/Stacks.v ===== *)
(** * The stacks of the threads

    The pages of the kernel pool that the thread system holds are exactly the stacks of
    its threads, whatever the cores do and however the threads were created and
    terminated: no page is lost, released twice or given to two threads.  The pool is
    shared, so [R] are the pages that belong to other components.

    That the operations return is the subject of ThreadSpec and ThreadOps; here only
    their effect on the stacks matters, so the statements are about the runs that
    return ([wlp]). *)

From stdpp Require Import base gmap list.
From S2P Require Import Prelude.
From S2P Require Import Hlib.
From S2P Require Import MemLayout.
From S2P Require Import Kpool.
From S2P Require Import ThreadBase.
From S2P Require Import Cond.
From S2P Require Import Thread.
From S2P Require Import Sleep.
From S2P Require Import ThreadSteps.

Open Scope Z_scope.

(** ** Runs that return *)

Definition wlp {S A} (m : K S A) (Q : A -> S -> Prop) (s : S) : Prop :=
  match m s with Done a s' => Q a s' | _ => True end.

Lemma wp_wlp {S A} (m : K S A) Q s : wp m Q s -> wlp m Q s.
Proof. unfold wp, wlp. by destruct (m s). Qed.

Lemma wlp_mono {S A} (m : K S A) (Q Q' : A -> S -> Prop) s :
  wlp m Q s -> (forall a s', Q a s' -> Q' a s') -> wlp m Q' s.
Proof. unfold wlp. destruct (m s); auto. Qed.

Lemma wlp_bind {S A B} (m : K S A) (f : A -> K S B) Q s :
  wlp m (fun a s' => wlp (f a) Q s') s -> wlp (m ≫= f) Q s.
Proof. unfold wlp, mbind, K_bind. by destruct (m s). Qed.

Lemma wlp_if {S A} (b : bool) (m1 m2 : K S A) Q s :
  (b = true -> wlp m1 Q s) -> (b = false -> wlp m2 Q s) -> wlp (if b then m1 else m2) Q s.
Proof. destruct b; auto. Qed.

Lemma wlp_assert {S} b (Q : unit -> S -> Prop) s : (b = true -> Q tt s) -> wlp (KASSERT b) Q s.
Proof. intros HQ. destruct b; [by apply HQ|done]. Qed.

Lemma wlp_unwrap {S A} (o : option A) (Q : A -> S -> Prop) s : (forall a, o = Some a -> Q a s) -> wlp (kunwrap o) Q s.
Proof. intros HQ. destruct o; [by apply HQ|done]. Qed.

Lemma wlp_Done {S A} (m : K S A) Q s a s' : m s = Done a s' -> wlp m Q s -> Q a s'.
Proof. unfold wlp. by intros ->. Qed.

Lemma wlp_kfor {S A} (P : S -> Prop) n i (body : Z -> A -> K S (A * bool)) a s :
  P s -> (forall j b t, P t -> wlp (body j b) (fun _ => P) t) -> wlp (kfor n i body a) (fun _ => P) s.
Proof.
  intros HP Hb. revert i a s HP. induction n as [|n IH]; intros i a s HP; [done|]. simpl. apply wlp_bind.
  eapply wlp_mono; [by apply Hb|]. intros [b [|]] t Ht; [done|]. by apply IH.
Qed.

Section stacks.
Context `{H : Hlib} `{C : CoreHw} `{ML : MemLayout} (t : mm_target).

(** ** Steps that do not touch the stacks *)

(** No thread becomes unused. *)
Record same_stacks (s s' : tm) : Prop := {
  ss_pool : tm_pool s' = tm_pool s;
  ss_ustacks : ustacks s' = ustacks s;
  ss_kstacks : kstacks s' = kstacks s;
  ss_unused i h' : aget (threads s') i = Some h' -> state h' = THREAD_NOT_STARTED ->
    exists h, aget (threads s) i = Some h /\ state h = THREAD_NOT_STARTED;
}.

#[export] Instance same_stacks_refl : Reflexive same_stacks.
Proof. intros s. split; eauto. Qed.

#[export] Instance same_stacks_trans : Transitive same_stacks.
Proof.
  intros s1 s2 s3 [P1 U1 K1 N1] [P2 U2 K2 N2]. split; [congruence..|].
  intros i h Hh Hn. destruct (N2 _ _ Hh Hn) as (h2 & Hh2 & Hn2). by apply (N1 i h2).
Qed.

Definition mild {A} (m : K tm A) : Prop := forall s, wlp m (fun _ s' => same_stacks s s') s.

Lemma mild_ret {A} (a : A) : mild (mret a).
Proof. intros s. exact (same_stacks_refl s). Qed.

Lemma mild_gets {A} (f : tm -> A) : mild (kgets f).
Proof. intros s. exact (same_stacks_refl s). Qed.

Lemma mild_hang {A} : mild (khang (A := A)).
Proof. by intros s. Qed.

Lemma mild_unwrap {A} (o : option A) : mild (kunwrap o).
Proof. intros s. by apply wlp_unwrap. Qed.

Lemma mild_assert b : mild (KASSERT b).
Proof. intros s. by apply wlp_assert. Qed.

Lemma mild_modify f : (forall s, same_stacks s (f s)) -> mild (kmodify f).
Proof. intros Hf s. unfold wlp. simpl. apply Hf. Qed.

Lemma mild_bind {A B} (m : K tm A) (f : A -> K tm B) : mild m -> (forall a, mild (f a)) -> mild (m ≫= f).
Proof.
  intros Hm Hf s. apply wlp_bind. eapply wlp_mono; [apply Hm|]. intros a s1 H1.
  eapply wlp_mono; [apply Hf|]. intros b s2 H2. exact (same_stacks_trans _ _ _ H1 H2).
Qed.

Lemma mild_zoom {T A} (g : tm -> option T) p (m : K T A) : (forall x s, same_stacks s (p x s)) -> mild (kzoom g p m).
Proof. intros Hp s. unfold wlp, kzoom. destruct (g s); [|done]. by destruct (m _). Qed.

Lemma mild_lock g p : (forall b s, same_stacks s (p b s)) -> mild (spinlock_lock g p).
Proof. intros Hp s. unfold wlp, spinlock_lock. by destruct (g s). Qed.

Lemma mild_read i : mild (thread_read i).
Proof. apply mild_bind; [apply mild_gets|]. intros o. apply mild_unwrap. Qed.

(** Changing a field of a thread does not make it unused. *)
Lemma same_stacks_set i h h' s :
  aget (threads s) i = Some h -> (state h' = THREAD_NOT_STARTED -> state h = THREAD_NOT_STARTED) ->
  same_stacks s (tm_set_threads (aset i h' (threads s)) s).
Proof.
  intros Hh Hst. split; try done. intros j x Hx Hn. simpl in Hx. rewrite aget_aset in Hx.
  case_bool_decide as Hc; [|by exists x]. destruct Hc as [<- _]. injection Hx as <-. by exists h; auto.
Qed.

Lemma mild_update i f :
  (forall h, state (f h) = THREAD_NOT_STARTED -> state h = THREAD_NOT_STARTED) -> mild (thread_update i f).
Proof.
  intros Hf s. apply wlp_bind. unfold thread_read. apply wlp_bind. unfold wlp at 1. simpl.
  apply wlp_unwrap. intros h Hh. unfold wlp. simpl. by eapply same_stacks_set, Hf.
Qed.

End stacks.

Create HintDb mild discriminated.

(** Goes through a routine; what is left is what its primitive steps change. *)
Ltac mild :=
  repeat (intros; match goal with
  | |- mild (mbind _ _) => apply mild_bind
  | |- mild (mret _) => apply mild_ret
  | |- mild (kgets _) => apply mild_gets
  | |- mild khang => apply mild_hang
  | |- mild (kunwrap _) => apply mild_unwrap
  | |- mild (deref _) => apply mild_unwrap
  | |- mild (KASSERT _) => apply mild_assert
  | |- mild (kmodify _) => apply mild_modify
  | |- mild (spinlock_unlock _) => apply mild_modify
  | |- mild (kzoom _ _ _) => apply mild_zoom
  | |- mild (spinlock_lock _ _) => apply mild_lock
  | |- mild (thread_read _) => apply mild_read
  | |- mild (thread_update _ _) => apply mild_update
  | |- mild (if ?b then _ else _) => destruct b
  | |- mild (match ?x with _ => _ end) => destruct x
  | |- mild _ => solve [auto with mild nocore | assumption]
  | |- same_stacks _ _ => solve [auto with mild nocore | split; simpl; eauto]
  | |- state _ = _ => simpl in *; congruence
  end).

Section operations.
Context `{H : Hlib} `{C : CoreHw} `{ML : MemLayout} (t : mm_target).

Section condvar.
Context (cv : tm -> option condvar) (set_cv : condvar -> tm -> tm) (Hcv : forall c s, same_stacks s (set_cv c s)).

Lemma mild_wakeup i : mild (thread_wakeup i).
Proof. unfold thread_wakeup. mild. Qed.
#[local] Hint Resolve mild_wakeup Hcv : mild.

Lemma mild_cond_wait_begin i unlock : mild unlock -> mild (cond_wait_begin cv set_cv i unlock).
Proof. intros Hu. unfold cond_wait_begin, with_cv. mild. Qed.

Lemma mild_cond_broadcast : mild (cond_broadcast cv set_cv).
Proof.
  assert (Hwake : forall n, mild (cond_wake cv set_cv n)).
  { intros n. induction n as [|n IH]; simpl; [apply mild_hang|]. unfold with_cv. mild. }
  unfold cond_broadcast, with_cv. mild.
Qed.

End condvar.

Lemma same_queue_sem x s : same_stacks s (set_queue_sem x s).
Proof. split; simpl; eauto. Qed.

Lemma same_queue_cv c s : same_stacks s (set_sem_cv queue_sem set_queue_sem c s).
Proof. apply same_queue_sem. Qed.

Lemma same_join_cv i c s : same_stacks s (set_join_cv i c s).
Proof. split; simpl; eauto. Qed.

Lemma same_sleep_cv k c s : same_stacks s (set_sleep_cv k c s).
Proof. unfold set_sleep_cv. destruct (aget _ k) as [[id x]|]; split; simpl; eauto. Qed.
#[local] Hint Resolve same_queue_sem same_queue_cv same_join_cv same_sleep_cv mild_wakeup
  mild_cond_wait_begin mild_cond_broadcast : mild.

Lemma mild_schedule i : mild (thread_schedule i).
Proof. unfold thread_schedule, semaphore_up, with_sem. mild. Qed.
#[local] Hint Resolve mild_schedule : mild.

Lemma mild_lock_threads : mild lock_threads.
Proof. unfold lock_threads. mild. Qed.

Lemma mild_unlock_threads : mild unlock_threads.
Proof. unfold unlock_threads. mild. Qed.

Lemma mild_get_curr me : mild (thread_get_curr me).
Proof. unfold thread_get_curr. mild. Qed.
#[local] Hint Resolve mild_lock_threads mild_unlock_threads mild_get_curr : mild.

Lemma mild_yield_select me curr : mild (yield_select me curr).
Proof. unfold yield_select, yield_next, yield_retire. mild. Qed.

Lemma mild_yield_switch me curr nxt : mild (yield_switch t me curr nxt).
Proof. unfold yield_switch, thread_switch_to. mild. Qed.

Lemma mild_down i : mild (semaphore_down_try queue_sem set_queue_sem i).
Proof. unfold semaphore_down_try, with_sem. mild. apply mild_cond_wait_begin; mild. Qed.

Lemma mild_join_begin me id : mild (thread_join_begin me id).
Proof. unfold thread_join_begin, thread_get. mild. Qed.

Lemma mild_join_end id : mild (thread_join_end id).
Proof. unfold thread_join_end, thread_search_retval. mild. Qed.

Lemma mild_sleep_begin me : mild (kernel_sleep_begin me).
Proof. unfold kernel_sleep_begin, lock_sleep, sleep_set_tid. mild. apply mild_cond_wait_begin; unfold unlock_sleep; mild. Qed.

Lemma mild_sleep_end k : mild (kernel_sleep_end k).
Proof. unfold kernel_sleep_end, lock_sleep, unlock_sleep, sleep_set_tid. mild. Qed.

Lemma mild_wakeup_call id : mild (kernel_wakeup id).
Proof. unfold kernel_wakeup, lock_sleep, unlock_sleep. mild. Qed.

Lemma mild_save_retval v i : mild (thread_save_retval v i).
Proof. unfold thread_save_retval. mild. Qed.

End operations.

(** ** The stacks own their pages *)

Section invariant.
Context `{H : Hlib} `{C : CoreHw} `{ML : MemLayout} (t : mm_target).

(** The user stack or the kernel stack of a user thread. *)
Definition stack_at (s : tm) (x : bool * Z) : option Z := aget (if fst x then ustacks s else kstacks s) (snd x).
Definition is_stack (s : tm) (a : Z) : Prop := a <> 0 /\ exists x, stack_at s x = Some a.
Definition clear_at (s : tm) (i : Z) : Prop := forall b a, stack_at s (b, USER_THREAD_ID i) = Some a -> a = 0.

Record stacks_ok (R : gset Z) (s : tm) : Prop := {
  sk_pool : kpool_wf (tm_pool s);
  sk_used a : a ∈ used_pages (tm_pool s) <-> a ∈ R \/ is_stack s a;
  sk_apart a : a ∈ R -> ~ is_stack s a;
  sk_one x y a : stack_at s x = Some a -> stack_at s y = Some a -> a <> 0 -> x = y;
  sk_unused i h : aget (threads s) i = Some h -> state h = THREAD_NOT_STARTED -> clear_at s i;
}.

Lemma stack_at_same s s' x : same_stacks s s' -> stack_at s' x = stack_at s x.
Proof. intros [_ Hu Hk _]. unfold stack_at. by rewrite Hu, Hk. Qed.

Lemma clear_same s s' i : same_stacks s s' -> clear_at s i -> clear_at s' i.
Proof. intros Hs Hc b a. rewrite (stack_at_same _ _ _ Hs). apply Hc. Qed.

Lemma stacks_same R s s' : same_stacks s s' -> stacks_ok R s -> stacks_ok R s'.
Proof.
  intros Hs [H1 H2 H3 H4 H5].
  assert (Hst : forall a, is_stack s' a <-> is_stack s a).
  { intros a. unfold is_stack. by setoid_rewrite (stack_at_same _ _ _ Hs). }
  split.
  - by rewrite (ss_pool _ _ Hs).
  - intros a. by rewrite (ss_pool _ _ Hs), Hst.
  - intros a. rewrite Hst. apply H3.
  - intros x y a. rewrite !(stack_at_same _ _ _ Hs). apply H4.
  - intros i h' Hh' Hn. destruct (ss_unused _ _ Hs _ _ Hh' Hn) as (h & Hh & Hn'). eapply clear_same; [done|]. by eapply H5.
Qed.

Lemma mild_stacks {A} (m : K tm A) R s : mild m -> stacks_ok R s -> wlp m (fun _ s' => stacks_ok R s') s.
Proof. intros Hm Hok. eapply wlp_mono; [apply Hm|]. intros a s' Hs. exact (stacks_same _ _ _ Hs Hok). Qed.

Lemma mild_clear {A} (m : K tm A) R i s :
  mild m -> stacks_ok R s -> clear_at s i -> wlp m (fun _ s' => stacks_ok R s' /\ clear_at s' i) s.
Proof. intros Hm Hok Hc. eapply wlp_mono; [apply Hm|]. intros a s' Hs. split; [exact (stacks_same _ _ _ Hs Hok)|exact (clear_same _ _ _ Hs Hc)]. Qed.

Context {HL : HlibLaws H} {MLL : MemLayoutLaws ML}.

(** ** The pool *)

Lemma used_nonzero (p : kpool unit) a : a ∈ used_pages p -> a <> 0.
Proof.
  intros Ha ->. apply elem_of_used_pages in Ha as (i & Hi & E & _). rewrite kpool_id_to_addr_mul in E by done.
  pose proof kpool_virt_pos. pose proof page_size_pos. nia.
Qed.

(** Releasing a page; a null pointer is not a page. *)
Lemma kpage_put_used a (p : kpool unit) :
  kpool_wf p -> a = 0 \/ a ∈ used_pages p ->
  wp (kpage_put a) (fun _ p' => kpool_wf p' /\ used_pages p' = used_pages p ∖ {[a]}) p.
Proof.
  intros Hwf Ha. eapply wp_mono; [by apply kpage_put_cases|]. intros r p' Hr. cbv zeta in Hr. destruct Ha as [->|Ha].
  - assert (Hk : kpool_is_kpage 0 = false).
    { unfold kpool_is_kpage. pose proof kpool_virt_pos. apply andb_false_iff. left. by apply Z.leb_gt. }
    assert (H0 : 0 ∉ used_pages p) by (intros H0; by apply (used_nonzero p 0)).
    destruct Hr as [(_ & _ & ->)|[(? & _)|(? & _)]]; [|congruence..]. split; [done|]. set_solver.
  - apply elem_of_used_pages in Ha as (i & Hi & -> & Hu). rewrite kpool_id_kpage, kpool_id_roundtrip, Hu in Hr by done.
    destruct Hr as [(? & _)|[(_ & ? & _)|(_ & _ & _ & ? & ? & _)]]; done.
Qed.

Lemma get_page_spec R s :
  stacks_ok R s ->
  wp get_page (fun a s' =>
    a = 0 /\ s' = s \/
    a <> 0 /\ (a ∉ R) /\ ~ is_stack s a /\ exists p, s' = tm_set_pool p s /\ stacks_ok ({[a]} ∪ R) s') s.
Proof.
  intros [Hp Hu Ha H1 Hn]. unfold get_page. eapply wp_zoom; [done|]. eapply wp_mono; [by apply kpage_get_cases|].
  intros a p [(-> & -> & _)|(i & Hi & -> & Hf & _ & Hwf & Hused & _)]; [left; by destruct s|right].
  assert (Hnot : kpool_id_to_addr i ∉ used_pages (tm_pool s)) by (rewrite page_used_elem by done; congruence).
  assert (Hin : kpool_id_to_addr i ∈ used_pages p) by set_solver.
  split_and!.
  - by eapply used_nonzero.
  - intros HR. apply Hnot, Hu. by left.
  - intros HR. apply Hnot, Hu. by right.
  - exists p. split; [done|]. split; try done.
    + intros a. simpl. rewrite Hused, !elem_of_union, Hu. tauto.
    + intros a [->%elem_of_singleton|HR]%elem_of_union Hst; [|by apply (Ha a)]. apply Hnot, Hu. by right.
Qed.

Lemma put_page_spec R s a :
  stacks_ok ({[a]} ∪ R) s -> a ∉ R -> wp (put_page a) (fun _ s' => exists p, s' = tm_set_pool p s /\ stacks_ok R s') s.
Proof.
  intros [Hp Hu Ha H1 Hn] HR. unfold put_page. eapply wp_zoom; [done|].
  eapply wp_mono; [apply kpage_put_used; [done|right; apply Hu; set_solver]|]. intros r p [Hwf Hused].
  exists p. split; [done|]. split; try done.
  - intros b. simpl. rewrite Hused, elem_of_difference, elem_of_singleton, Hu, elem_of_union, elem_of_singleton. split.
    + intros [[[->|?]|?] ?]; [done|by left|by right].
    + intros [Hb|Hb]; (split; [by auto|]); intros ->; [done|]. apply (Ha a); [set_solver|done].
  - intros b Hb. apply Ha. set_solver.
Qed.

(** ** Threads *)

Lemma stack_at_set s k u v b j :
  is_Some (aget (ustacks s) k) -> is_Some (aget (kstacks s) k) ->
  stack_at (tm_set_stacks (aset k u (ustacks s)) (aset k v (kstacks s)) s) (b, j) =
    if decide (j = k) then Some (if b then u else v) else stack_at s (b, j).
Proof.
  intros [x Hx] [y Hy]. unfold stack_at. simpl. destruct b, (decide (j = k)) as [->|].
  - by rewrite (aget_aset_same _ _ _ _ Hx).
  - by rewrite aget_aset_ne.
  - by rewrite (aget_aset_same _ _ _ _ Hy).
  - by rewrite aget_aset_ne.
Qed.

(** The stacks of a thread are released. *)
Lemma stacks_release R s k us ks p :
  stacks_ok R s -> stack_at s (true, k) = Some us -> stack_at s (false, k) = Some ks -> kpool_wf p ->
  used_pages p = used_pages (tm_pool s) ∖ {[us]} ∖ {[ks]} ->
  let s' := tm_set_stacks (aset k 0 (ustacks s)) (aset k 0 (kstacks s)) (tm_set_pool p s) in
  stacks_ok R s' /\ forall b, stack_at s' (b, k) = Some 0.
Proof.
  intros [Hp Hu Ha H1 Hn] Hus Hks Hwf Hused s'.
  assert (Hat : forall b j, stack_at s' (b, j) = if decide (j = k) then Some 0 else stack_at s (b, j)).
  { intros b j. unfold s'. change (ustacks s) with (ustacks (tm_set_pool p s)). change (kstacks s) with (kstacks (tm_set_pool p s)).
    rewrite stack_at_set; [by destruct b|by exists us|by exists ks]. }
  assert (Hst : forall a, is_stack s' a <-> is_stack s a /\ a <> us /\ a <> ks).
  { intros a. split.
    - intros [H0 [[b j] Hx]]. rewrite Hat in Hx. case_decide as Hd; [congruence|]. split; [by split; [|exists (b, j)]|].
      split; intros ->; [pose proof (H1 _ _ _ Hx Hus H0)|pose proof (H1 _ _ _ Hx Hks H0)]; congruence.
    - intros ([H0 [[b j] Hx]] & Hne1 & Hne2). split; [done|]. exists (b, j). rewrite Hat. case_decide as Hd; [|done].
      subst. destruct b; congruence. }
  split; [|intros b; rewrite Hat; by rewrite decide_True]. split; [done| | | |].
  - intros a. change (tm_pool s') with p. rewrite Hused, !elem_of_difference, !elem_of_singleton, Hu, Hst. split; [tauto|].
    intros [HR|?]; [|tauto]. assert (Ha' : a <> 0) by (eapply used_nonzero, Hu; by left).
    split_and!; [by left|..]; intros ->; (apply (Ha _ HR); split; [done|eauto]).
  - intros a HR [Hsa _]%Hst. by apply (Ha a).
  - intros [b j] [b' j'] a. rewrite !Hat. repeat case_decide; try congruence. apply H1.
  - intros i h Hh Hn' b a. rewrite Hat. case_decide; [congruence|]. apply (Hn i h Hh Hn').
Qed.

(** A thread whose stacks are clear may become unused. *)
Lemma update_clear R i f s :
  stacks_ok R s -> clear_at s i -> wlp (thread_update i f) (fun _ s' => stacks_ok R s' /\ clear_at s' i) s.
Proof.
  intros [Hp Hu Ha H1 Hn] Hc. apply wlp_bind. unfold thread_read. apply wlp_bind. unfold wlp at 1. simpl.
  apply wlp_unwrap. intros h Hh. unfold wlp. simpl. split; [|done]. split; try done.
  intros j x Hx Hn'. simpl in Hx. rewrite aget_aset in Hx. case_bool_decide as Hd; [destruct Hd as [-> _]; exact Hc|].
  exact (Hn j x Hx Hn').
Qed.

Lemma thread_free_stacks R i s :
  stacks_ok R s -> wlp (thread_free i) (fun _ s' => stacks_ok R s' /\ clear_at s' i) s.
Proof.
  intros Hok. unfold thread_free. apply wlp_bind, wlp_assert. intros _. apply wlp_bind.
  eapply wlp_mono; [apply mild_read|]. intros h s0 Hs0. eapply stacks_same in Hok; [|exact Hs0]. clear s Hs0.
  apply wlp_bind, wlp_assert. intros _. apply wlp_bind. unfold wlp at 1. simpl. apply wlp_bind. unfold wlp at 1. simpl.
  apply wlp_bind, wlp_unwrap. intros us Hus. apply wlp_bind, wlp_unwrap. intros ks Hks.
  apply wlp_bind, wp_wlp. unfold put_page at 1. eapply wp_zoom; [done|].
  assert (Hin : forall b a, stack_at s0 (b, USER_THREAD_ID i) = Some a -> a = 0 \/ a ∈ used_pages (tm_pool s0)).
  { intros b a Hat. destruct (decide (a = 0)) as [|Hne]; [by left|right]. apply (sk_used _ _ Hok). right. split; [done|eauto]. }
  eapply wp_mono; [apply kpage_put_used; [apply Hok|by apply (Hin true)]|]. intros _ p [Hp Eu].
  apply wlp_bind, wp_wlp. unfold put_page. eapply wp_zoom; [done|].
  eapply wp_mono; [apply kpage_put_used; [done|]|].
  { destruct (Hin false ks Hks) as [|Hk]; [by left|right]. simpl. rewrite Eu. apply elem_of_difference. split; [done|].
    intros ->%elem_of_singleton. pose proof (used_nonzero _ _ Hk). by pose proof (sk_one _ _ Hok (true, _) (false, _) us Hus Hks ltac:(done)). }
  intros _ p' [Hp' Eu']. simpl in Eu'. rewrite Eu in Eu'.
  destruct (stacks_release R s0 (USER_THREAD_ID i) us ks p' Hok Hus Hks Hp' Eu') as [Hok' Hclear].
  apply wlp_bind. unfold wlp at 1. simpl. apply wlp_bind. eapply wlp_mono; [apply (update_clear R i)|].
  - exact Hok'.
  - intros b a. rewrite Hclear. congruence.
  - intros _ s2 [Hok2 Hc2]. apply (mild_clear (kmodify _) R i s2); [mild|done|done].
Qed.

(** The thread is taken, and has no stacks yet. *)
Definition taken_at (s : tm) (i : Z) : Prop :=
  clear_at s i /\ forall h, aget (threads s) i = Some h -> state h <> THREAD_NOT_STARTED.

Lemma taken_same s s' i : same_stacks s s' -> taken_at s i -> taken_at s' i.
Proof.
  intros Hs [Hc Hb]. split; [by apply (clear_same s)|]. intros h' Hh' Hn.
  destruct (ss_unused _ _ Hs _ _ Hh' Hn) as (h & Hh & Hn'). by apply (Hb h).
Qed.

Lemma thread_alloc_stacks R s :
  stacks_ok R s -> wlp thread_alloc (fun o s' => stacks_ok R s' /\ if o is Some i then taken_at s' i else True) s.
Proof.
  intros Hok. unfold thread_alloc. apply wlp_bind. unfold wlp at 1. simpl.
  destruct (search_from thread_available 1 _) as [i|]; [|by split]. apply wlp_bind.
  unfold thread_read at 1. apply wlp_bind. unfold wlp at 1. simpl. apply wlp_unwrap. intros h Hh. apply wlp_bind.
  apply (wlp_mono _ (fun _ s' => stacks_ok R s' /\ clear_at s' i)).
  - destruct (decide _) as [Hn|_]; [|by apply thread_free_stacks].
    apply mild_clear; [mild|done|]. by apply (sk_unused _ _ Hok i h).
  - intros u s1 [Hok1 Hc1]. apply wlp_bind.
    apply (wlp_mono _ (fun _ s2 => stacks_ok R s2 /\ taken_at s2 i)); [|by intros v s2 ?].
    pose proof (update_clear R i (set_state THREAD_STARTED) s1 Hok1 Hc1) as Hup. revert Hup.
    unfold wlp, thread_update, thread_read, mbind, K_bind, kgets, kunwrap. simpl.
    destruct (aget (threads s1) i) as [h1|] eqn:E; simpl; [|done]. intros [? ?]. split; [done|]. split; [done|].
    simpl. intros h2. rewrite (aget_aset_same _ _ _ _ E). by intros [= <-].
Qed.

(** The pages taken for a thread become its stacks. *)
Lemma stacks_assign R s k us ks :
  stacks_ok ({[us]} ∪ ({[ks]} ∪ R)) s -> us <> ks -> us <> 0 -> ks <> 0 -> us ∉ R -> ks ∉ R ->
  stack_at s (true, k) = Some 0 -> stack_at s (false, k) = Some 0 ->
  (forall i h, USER_THREAD_ID i = k -> aget (threads s) i = Some h -> state h <> THREAD_NOT_STARTED) ->
  stacks_ok R (tm_set_stacks (aset k us (ustacks s)) (aset k ks (kstacks s)) s).
Proof.
  intros [Hp Hu Ha H1 Hn] Hne Hus Hks HuR HkR Hu0 Hk0 Hbusy. set (s' := tm_set_stacks _ _ s).
  assert (Hat : forall b j, stack_at s' (b, j) = if decide (j = k) then Some (if b then us else ks) else stack_at s (b, j)).
  { intros b j. apply stack_at_set; by eexists. }
  assert (Hst : forall a, is_stack s' a <-> a = us \/ a = ks \/ is_stack s a).
  { intros a. split.
    - intros [H0 [[b j] Hx]]. rewrite Hat in Hx. case_decide as Hd; [destruct b; naive_solver|]. right; right. split; eauto.
    - intros [->|[->|[H0 [[b j] Hx]]]].
      + split; [done|]. exists (true, k). by rewrite Hat, decide_True.
      + split; [done|]. exists (false, k). by rewrite Hat, decide_True.
      + split; [done|]. exists (b, j). rewrite Hat. case_decide as Hd; [|done]. subst. destruct b; congruence. }
  assert (Hfree : forall b j, stack_at s (b, j) <> Some us /\ stack_at s (b, j) <> Some ks).
  { assert (Hiu : us ∈ {[us]} ∪ ({[ks]} ∪ R)) by (rewrite elem_of_union, elem_of_singleton; by left).
    assert (Hik : ks ∈ {[us]} ∪ ({[ks]} ∪ R)) by (rewrite !elem_of_union, !elem_of_singleton; auto).
    intros b j. split; intros Hx; [apply (Ha us Hiu)|apply (Ha ks Hik)]; split; eauto. }
  split; [done| | | |].
  - intros a. change (tm_pool s') with (tm_pool s). rewrite Hu, Hst, !elem_of_union, !elem_of_singleton. tauto.
  - intros a HR [->|[->|Hsa]]%Hst; [done|done|]. apply (Ha a); [|done]. rewrite !elem_of_union. auto.
  - intros [b j] [b' j'] a. rewrite !Hat. destruct (Hfree b j), (Hfree b' j').
    repeat case_decide; [destruct b, b'; congruence|destruct b; congruence|destruct b'; congruence|apply H1].
  - intros i h Hh Hns b a. rewrite Hat. case_decide as Hd; [|apply (Hn i h Hh Hns)]. by destruct (Hbusy i h).
Qed.

Lemma mild_unlock_ret {A} (x : A) : mild (unlock_threads;; mret x).
Proof. apply mild_bind; [apply mild_unlock_threads|]. intros _. apply mild_ret. Qed.

Lemma mild_taken {A} (m : K tm A) R i s :
  mild m -> stacks_ok R s -> taken_at s i -> wlp m (fun _ s' => stacks_ok R s' /\ taken_at s' i) s.
Proof. intros Hm Hok Ht. eapply wlp_mono; [apply Hm|]. intros a s' Hs. split; [exact (stacks_same _ _ _ Hs Hok)|exact (taken_same _ _ _ Hs Ht)]. Qed.

Lemma thread_create_stacks R entry a s : stacks_ok R s -> wlp (thread_create entry a) (fun _ s' => stacks_ok R s') s.
Proof.
  intros Hok. unfold thread_create. apply wlp_bind, wlp_assert. intros _. apply wlp_bind.
  eapply wlp_mono; [apply (mild_stacks _ R); [apply mild_lock_threads|done]|]. clear s Hok. intros [] s Hok. apply wlp_bind.
  eapply wlp_mono; [by apply (thread_alloc_stacks R)|]. clear s Hok. intros [i|] s [Hok Htk]; [|exact (mild_stacks _ R s (mild_unlock_ret _) Hok)].
  apply wlp_bind, wp_wlp. eapply wp_mono; [by apply (get_page_spec R)|].
  intros ks s1 [(-> & ->)|(Hk0 & HkR & HkS & p & -> & Hok1)]; [exact (mild_stacks _ R s (mild_unlock_ret _) Hok)|].
  rewrite (proj2 (Z.eqb_neq ks 0)) by done. apply wlp_bind, wp_wlp. eapply wp_mono; [by apply (get_page_spec ({[ks]} ∪ R))|].
  intros us s1 [(-> & ->)|(Hu0 & HuR & HuS & p' & -> & Hok2)].
  { simpl. apply wlp_bind, wp_wlp. eapply wp_mono; [by apply (put_page_spec R)|]. intros r s2 (q & -> & Hok2).
    exact (mild_stacks _ R _ (mild_unlock_ret _) Hok2). }
  rewrite (proj2 (Z.eqb_neq us 0)) by done.
  set (s1 := tm_set_pool p' (tm_set_pool p s)) in *. assert (Htk1 : taken_at s1 i) by exact Htk. clear Htk.
  apply wlp_bind. unfold wlp at 1. simpl. apply wlp_bind.
  eapply wlp_mono; [apply (mild_taken _ ({[us]} ∪ ({[ks]} ∪ R)) i); [|exact Hok2|exact Htk1]; mild|]. intros [] s2 [Hok3 Htk3].
  apply wlp_bind. eapply wlp_mono; [apply (mild_taken _ ({[us]} ∪ ({[ks]} ∪ R)) i); [|exact Hok3|exact Htk3]; mild|]. intros [] s3 [Hok4 [Hc Hb]].
  apply wlp_bind. unfold wlp at 1. simpl. apply wlp_bind. unfold wlp at 1. simpl.
  apply wlp_bind, wlp_unwrap. intros u0 Hu1. apply wlp_bind, wlp_unwrap. intros k0 Hk1. apply wlp_bind. unfold wlp at 1. simpl.
  pose proof (Hc true u0 Hu1) as ->. pose proof (Hc false k0 Hk1) as ->.
  apply mild_stacks.
  - mild; first [apply mild_schedule|apply mild_unlock_threads].
  - apply stacks_assign; try done.
    + intros ->. apply HuR. by apply elem_of_union_l, elem_of_singleton.
    + intros HR. apply HuR. by apply elem_of_union_r.
    + intros j h E. assert (j = i) as -> by (unfold USER_THREAD_ID in E; lia). apply Hb.
Qed.

Lemma thread_yield_stacks R me s : stacks_ok R s -> wlp (thread_yield t me) (fun _ s' => stacks_ok R s') s.
Proof.
  intros Hok. unfold thread_yield.
  do 3 (apply wlp_bind; eapply wlp_mono; [apply (mild_stacks _ R); [mild; apply mild_get_curr|eassumption]|]; clear s Hok; intros ? s Hok).
  destruct (_ =? _); [done|].
  apply wlp_bind. eapply wlp_mono; [apply (mild_stacks _ R); [apply mild_yield_select|done]|]. clear s Hok. intros nxt s Hok.
  apply wlp_bind. eapply wlp_mono; [apply (mild_stacks _ R); [apply mild_yield_switch|done]|]. clear s Hok. intros now s Hok.
  apply wlp_bind. eapply wlp_mono; [apply (mild_stacks _ R); [apply mild_read|done]|]. clear s Hok. intros hn s Hok.
  apply wlp_bind, wlp_assert. intros _. apply wlp_bind.
  apply (wlp_mono _ (fun _ s' => stacks_ok R s')); [|by intros].
  unfold yield_reap. apply wlp_bind.
  eapply wlp_mono; [apply (mild_stacks _ R); [apply mild_lock_threads|done]|]. clear s Hok. intros [] s Hok.
  apply wlp_bind. eapply wlp_mono; [apply (mild_stacks _ R); [apply mild_read|done]|]. clear s Hok. intros hx s Hok.
  apply wlp_bind. apply (wlp_mono _ (fun _ s' => stacks_ok R s')); [|intros [] s' Hs'; by apply mild_stacks; [apply mild_unlock_threads|]].
  destruct (next hx) as [z|]; [|done]. apply wlp_bind.
  eapply wlp_mono; [apply (mild_stacks _ R); [apply mild_read|done]|]. clear s Hok. intros hz s Hok.
  destruct (decide _); [|done]. apply wlp_bind. eapply wlp_mono; [by apply (thread_free_stacks R)|].
  intros [] s' [Hok' _]. apply mild_stacks; [mild|done].
Qed.

Lemma thread_exit_stacks R me v s : stacks_ok R s -> wlp (thread_exit t me v) (fun _ s' => stacks_ok R s') s.
Proof.
  intros Hok. unfold thread_exit.
  do 3 (apply wlp_bind; eapply wlp_mono; [apply (mild_stacks _ R); [mild; apply mild_get_curr|eassumption]|]; clear s Hok; intros ? s Hok).
  apply wlp_bind. eapply wlp_mono; [apply (mild_stacks _ R); [apply mild_lock_threads|done]|]. clear s Hok. intros [] s Hok.
  apply wlp_bind. eapply wlp_mono; [apply (mild_stacks _ R); [apply mild_save_retval|done]|]. clear s Hok. intros [] s Hok.
  apply wlp_bind. eapply wlp_mono; [apply (mild_stacks _ R); [mild|done]|]. clear s Hok. intros [] s Hok.
  apply wlp_bind. eapply wlp_mono; [apply (mild_stacks _ R); [apply mild_cond_broadcast, same_join_cv|done]|]. clear s Hok. intros r s Hok.
  apply wlp_bind. eapply wlp_mono; [apply (mild_stacks _ R); [apply mild_unlock_threads|done]|]. clear s Hok. intros [] s Hok.
  by apply thread_yield_stacks.
Qed.

Lemma mild_start_core k n : mild (start_core k n).
Proof. induction n as [|n IH]; simpl; mild. Qed.

(** Initialisation, when the thread system holds no page. *)
Lemma thread_init_stacks s :
  kpool_wf (tm_pool s) -> wlp thread_init (fun _ s' => stacks_ok (used_pages (tm_pool s)) s') s.
Proof.
  intros Hp. set (R := used_pages (tm_pool s)). unfold thread_init. apply wlp_bind, wlp_assert. intros _.
  apply wlp_bind. unfold wlp at 1. simpl. apply wlp_bind, wlp_assert. intros _. apply wlp_bind. unfold wlp at 1. simpl.
  set (z := replicate (Z.to_nat THREAD_MAX) 0). assert (Hz : forall x a, stack_at (tm_set_stacks z z s) x = Some a -> a = 0).
  { intros [[] k] a; unfold stack_at; simpl; apply aget_replicate. }
  assert (Hok : stacks_ok R (tm_set_stacks z z s)).
  { assert (Hno : forall a, ~ is_stack (tm_set_stacks z z s) a) by (intros a [H0 [x Hx]]; by apply Hz in Hx).
    split; [done| | | |].
    - intros a. split; [by left|]. intros [?|Ha]; [done|by apply Hno in Ha].
    - intros a _. apply Hno.
    - intros x y a Hx%Hz. done.
    - intros i h _ _ b a. apply Hz. }
  apply wlp_bind. eapply wlp_mono; [apply (mild_stacks _ R); [mild|exact Hok]|]. intros [] s1 Hok1.
  apply wlp_kfor; [done|]. intros core [] s2 Hok2. apply wlp_bind.
  apply (wlp_mono _ (fun _ s' => stacks_ok R s')); [|by intros]. unfold init_idle. apply wlp_bind.
  eapply wlp_mono; [by apply (thread_alloc_stacks R)|]. intros [i|] s3 [Hok3 _]; [|done]. apply mild_stacks; [|done].
  apply mild_bind; [apply mild_ret|]. intros j. mild. apply mild_start_core.
Qed.

(** ** Every interleaving *)

Lemma tm_step_stacks R c c' : tm_step t c c' -> stacks_ok R (fst c) -> stacks_ok R (fst c').
Proof.
  intros Hst Hok. destruct Hst as [me i r s s' A ??? E|me i v r s s' A ???? E|entry a r s s' A ? E|me i b s s' A ?? E
    |me i h id k s s' A ??????? E|me i h id r s s1 s' A ??????? E E'|id r s s' A E|me i h k s s' A ???? E|k r s s' A ? E
    |id r s s' A E|i s A ??]; simpl in *.
  - exact (wlp_Done _ _ _ _ _ E (thread_yield_stacks R me s Hok)).
  - exact (wlp_Done _ _ _ _ _ E (thread_exit_stacks R me v s Hok)).
  - exact (wlp_Done _ _ _ _ _ E (thread_create_stacks R entry a s Hok)).
  - exact (wlp_Done _ _ _ _ _ E (mild_stacks _ R s (mild_down i) Hok)).
  - exact (wlp_Done _ _ _ _ _ E (mild_stacks _ R s (mild_join_begin me id) Hok)).
  - pose proof (wlp_Done _ _ _ _ _ E (mild_stacks _ R s (mild_join_begin me id) Hok)) as Hok1.
    exact (wlp_Done _ _ _ _ _ E' (mild_stacks _ R s1 (mild_join_end id) Hok1)).
  - exact (wlp_Done _ _ _ _ _ E (mild_stacks _ R s (mild_bind _ _ mild_lock_threads (fun _ => mild_join_end id)) Hok)).
  - exact (wlp_Done _ _ _ _ _ E (mild_stacks _ R s (mild_sleep_begin me) Hok)).
  - exact (wlp_Done _ _ _ _ _ E (mild_stacks _ R s (mild_sleep_end k) Hok)).
  - exact (wlp_Done _ _ _ _ _ E (mild_stacks _ R s (mild_wakeup_call id) Hok)).
  - done.
Qed.

End invariant.
