(* ===== verification/KernelPool.v ===== *)
(** * Page tables and stacks in one pool

    The memory manager and the thread system take pages from the same pool of kernel
    pages: page tables on one side, the stacks of the threads on the other.  The two
    components are put together here, with the pool shared and with threads that may
    write anything to their stacks.  The invariants of both components hold in every
    interleaving of kernel calls on memory and steps of the cores, and every page of the
    pool that is in use is either the page table of exactly one entry or exactly one
    stack of one thread. *)

From stdpp Require Import base gmap list.
From S2P Require Import Prelude.
From S2P Require Import Hlib.
From S2P Require Import MemLayout.
From S2P Require Import Frame.
From S2P Require Import Kpool.
From S2P Require Import Upage.
From S2P Require Import SysMm.
From S2P Require Import SysMmSpec.
From S2P Require Import ThreadBase.
From S2P Require Import Thread.
From S2P Require Import ThreadSpec.
From S2P Require Import ThreadSteps.
From S2P Require Import Scheduler.
From S2P Require Import SysThread.
From S2P Require Import Stacks.

Open Scope Z_scope.

Section kernel.
Context `{H : Hlib} `{M : MemLayout} `{B : Bitmap} `{U : !Mmu} `{C : CoreHw} (t : mm_target).

Record kern := Kern { k_mm : mm; k_tm : tm }.

(** The pool after a step of one component, as the other one sees it. *)
Definition share_mm (sm : mm) (st : tm) : tm := tm_set_pool (set_kpages (kpages (pool sm)) (tm_pool st)) st.
Definition share_tm (st : tm) (km : list (list pte)) (sm : mm) : mm := set_pool (Kpool (kpages (tm_pool st)) km) sm.

(** [km] differs from the pages of [sm] at most in stacks. *)
Definition stacks_written (st st' : tm) (sm : mm) (km : list (list pte)) : Prop :=
  alen km = alen (kmem (pool sm)) /\ Forall (fun tab => alen tab = PGTAB_ENTRIES) km /\
  forall i, ~ is_stack st (kpool_id_to_addr i) -> ~ is_stack st' (kpool_id_to_addr i) ->
    aget km i = aget (kmem (pool sm)) i.

Inductive kern_step : kern * gset Z -> kern * gset Z -> Prop :=
| kern_mm c r sm sm' st A :
    mm_call_ok c -> run_mm_call c sm = Done r sm' -> kern_step (Kern sm st, A) (Kern sm' (share_mm sm' st), A)
| kern_tm km sm st st' A A' :
    tm_step t (st, A) (st', A') -> stacks_written st st' sm km ->
    kern_step (Kern sm st, A) (Kern (share_tm st' km sm) st', A').

(** After the initialisation of both components. *)
Record kern_initial (s : kern) : Prop := {
  ki_mm : mm_wf (k_mm s);
  ki_root : is_Some (pgdirs (k_mm s) !! root_pgdir);
  ki_tables a : ~ is_table (k_mm s) a;
  ki_tm : exists kmain s0, tm_static kmain s0 /\ (forall k x, fst (core_start k x) = 0) /\
    used_pages (tm_pool s0) = ∅ /\ thread_init s0 = Done tt (k_tm s);
  ki_shared : kpages (pool (k_mm s)) = kpages (tm_pool (k_tm s));
}.

Record kern_ok (s : kern) (A : gset Z) (tables stacks : gset Z) : Prop := {
  ko_mm : mm_wf (k_mm s);
  ko_root : is_Some (pgdirs (k_mm s) !! root_pgdir);
  ko_tm : exists q, sched_ok t (k_tm s) q A;
  ko_shared : kpages (pool (k_mm s)) = kpages (tm_pool (k_tm s));
  ko_owned : owned stacks (k_mm s);
  ko_stacks : stacks_ok tables (k_tm s);
  ko_tables a : a ∈ tables <-> is_table (k_mm s) a;
  ko_is_stack a : a ∈ stacks <-> is_stack (k_tm s) a;
}.

Context {HL : HlibLaws H} {MLL : MemLayoutLaws M} {BL : BitmapLaws B} {FC : FrameConfig} {UL : MmuLaws U}
  {CL : CoreHwLaws C t}.

Lemma used_shared {C1 C2} (p : kpool C1) (q : kpool C2) : kpages p = kpages q -> used_pages p = used_pages q.
Proof. intros E. unfold used_pages, page_used. by rewrite E. Qed.

Lemma wf_shared {C1 C2} (p : kpool C1) (q : kpool C2) :
  kpool_wf p -> kpool_wf q -> kpool_wf (set_kpages (kpages p) q).
Proof. intros (Hl & _ & Hc) (_ & Hm & _). split_and!; [exact Hl|exact Hm|exact Hc]. Qed.

Lemma sched_ok_pool st q A p : sched_ok t st q A -> kpool_wf p -> sched_ok t (tm_set_pool p st) q A.
Proof. intros [? [] [] ? ? ? ? ? ? ? ?] Hp. split; try done; by split. Qed.

(** ** A call on memory *)

Lemma kern_mm_ok sm sm' st A T S :
  kern_ok (Kern sm st) A T S -> mm_wf sm' -> is_Some (pgdirs sm' !! root_pgdir) -> keeps_owned sm sm' ->
  exists T', kern_ok (Kern sm' (share_mm sm' st)) A T' S.
Proof.
  intros [Hm Hr [q Ht] Hsh Ho Hs HT HS] Hwf' Hr' Hk. simpl in *.
  pose proof (Hk _ Ho) as Ho'. pose proof (wf_shared _ _ (wf_pool _ Hwf') (sk_pool _ _ Hs)) as Hp.
  exists (used_pages (pool sm') ∖ S).
  assert (HT' : forall a, a ∈ used_pages (pool sm') ∖ S <-> is_table sm' a).
  { intros a. rewrite elem_of_difference, (own_used _ _ Ho'). split; [tauto|]. intros Hta. split; [by right|].
    intros HaS. by apply (own_apart _ _ Ho' a). }
  split; simpl; try done.
  - exists q. by apply sched_ok_pool.
  - split; try done; simpl.
    + intros a. rewrite (used_shared _ (pool sm')) by done. rewrite HT', (own_used _ _ Ho'), HS. unfold is_stack, stack_at. simpl. tauto.
    + intros a Hta%HT' Hst. apply (own_apart _ _ Ho' a); [by apply HS|done].
    + apply (sk_one _ _ Hs).
    + apply (sk_unused _ _ Hs).
Qed.

(** ** A step of the cores *)

(** Page tables are not stacks, so they keep their contents. *)
Lemma share_tm_translate st st' sm km T pd v :
  stacks_ok T st -> stacks_ok T st' -> (forall a, a ∈ T <-> is_table sm a) -> stacks_written st st' sm km ->
  mm_is_uaddr v = true -> translate (share_tm st' km sm) pd v = translate sm pd v.
Proof.
  intros Hs Hs' HT (_ & _ & Hkm) Hv. unfold translate. change (slot (share_tm st' km sm) pd v) with (slot sm pd v).
  destruct (slot sm pd v) as [i|] eqn:Hi; [|done]. simpl. unfold pte_at. simpl.
  assert (Hin : kpool_id_to_addr i ∈ T) by (apply HT; by exists pd, v, i).
  rewrite Hkm; [done|by apply (sk_apart _ _ Hs)|by apply (sk_apart _ _ Hs')].
Qed.

Lemma share_tm_wf st st' sm km T :
  mm_wf sm -> stacks_ok T st -> stacks_ok T st' -> (forall a, a ∈ T <-> is_table sm a) -> stacks_written st st' sm km ->
  mm_wf (share_tm st' km sm).
Proof.
  intros Hm Hs Hs' HT Hkm. pose proof Hkm as (Hl & Htab & _). pose proof (wf_pool _ Hm) as (_ & Hlen & _).
  pose proof (sk_pool _ _ Hs') as (Hl' & _ & Hc'). split.
  - split_and!; simpl; [done|congruence|done].
  - done.
  - apply (wf_null _ Hm).
  - apply (wf_dirs _ Hm).
  - intros pd v e Hv He Hp. destruct (wf_slot _ Hm pd v e Hv He Hp) as (i & Hi & Hf & _). exists i. split_and!; try done; try lia.
    rewrite (used_shared _ (tm_pool st')) by done. apply (sk_used _ _ Hs'). left. apply HT. exists pd, v, i.
    split_and!; try done. unfold slot. change (pde_at (share_tm st' km sm) pd v) with (pde_at sm pd v) in He. rewrite He. simpl.
    by rewrite Hp, Hf, kpool_frame_roundtrip, kpool_id_roundtrip.
  - apply (wf_distinct _ Hm).
  - intros pd v f Hv. rewrite (share_tm_translate st st' sm km T) by (done || apply Hv). by apply (wf_fits _ Hm).
Qed.

Lemma kern_tm_ok sm st st' A A' T S km :
  kern_ok (Kern sm st) A T S -> tm_step t (st, A) (st', A') -> stacks_written st st' sm km ->
  exists S', kern_ok (Kern (share_tm st' km sm) st') A' T S'.
Proof.
  intros [Hm Hr [q Ht] Hsh Ho Hs HT HS] Hst Hkm. simpl in *.
  pose proof (tm_step_stacks t T _ _ Hst Hs) as Hs'. simpl in Hs'.
  destruct (tm_step_ok t (st, A) (st', A') q Ht Hst) as [q' Ht']. simpl in Ht'.
  exists (used_pages (tm_pool st') ∖ T).
  assert (HS' : forall a, a ∈ used_pages (tm_pool st') ∖ T <-> is_stack st' a).
  { intros a. rewrite elem_of_difference, (sk_used _ _ Hs'). split; [tauto|]. intros Ha. split; [by right|].
    intros HaT. by apply (sk_apart _ _ Hs' a). }
  split; simpl; try done; [by apply (share_tm_wf st st' sm km T)|by exists q'|]. split.
  - intros a. rewrite (used_shared _ (tm_pool st')) by done. rewrite HS', (sk_used _ _ Hs'), HT. tauto.
  - intros a Ha%HS' Hta. apply (sk_apart _ _ Hs' a); [by apply HT|done].
Qed.

Lemma kern_step_ok c c' T S :
  kern_step c c' -> kern_ok (fst c) (snd c) T S -> exists T' S', kern_ok (fst c') (snd c') T' S'.
Proof.
  intros Hst Hok. destruct Hst as [c r sm sm' st A Hc E|km sm st st' A A' Hst Hkm]; simpl in *.
  - pose proof (mm_abs_of sm (ko_mm _ _ _ _ Hok) (ko_root _ _ _ _ Hok)) as Ha.
    destruct (wp_Done _ _ _ _ _ E (mm_call_refines c sm _ Ha Hc)) as (a' & _ & [Hwf Hroot _ _] & Hk).
    destruct (kern_mm_ok sm sm' st A T S Hok Hwf Hroot Hk) as [T' Hok']. by exists T', S.
  - destruct (kern_tm_ok sm st st' A A' T S km Hok Hst Hkm) as [S' Hok']. by exists T, S'.
Qed.

Lemma kern_initial_ok s : kern_initial s -> exists S, kern_ok s ∅ ∅ S.
Proof.
  intros [Hm Hr Hno (kmain & s0 & Hst & Hcs & Hu & E) Hsh].
  pose proof (wp_Done _ _ _ _ _ E (thread_init_spec t kmain s0 Hst Hcs)) as Hok.
  pose proof (wlp_Done _ _ _ _ _ E (thread_init_stacks s0 (ts_pool _ _ Hst))) as Hs. rewrite Hu in Hs.
  exists (used_pages (tm_pool (k_tm s))). split; try done; [by exists []| | |].
  - split; [|intros a _; apply Hno]. intros a. rewrite (used_shared _ _ Hsh). split; [by left|]. intros [?|Ha]; [done|by apply Hno in Ha].
  - intros a. split; [set_solver|]. intros Ha. by apply Hno in Ha.
  - intros a. rewrite (sk_used _ _ Hs). set_solver.
Qed.

Lemma kern_steps_ok c c' T S :
  rtc kern_step c c' -> kern_ok (fst c) (snd c) T S -> exists T' S', kern_ok (fst c') (snd c') T' S'.
Proof.
  intros Hst. revert T S. induction Hst as [c|c c1 c' Hstep _ IH]; intros T S Hok; [by exists T, S|].
  destruct (kern_step_ok _ _ _ _ Hstep Hok) as (T1 & S1 & Hok1). by apply (IH T1 S1).
Qed.


End kernel.
