(* ===== verification/Exception.v ===== *)
(** * User-space exception handling

    Model of src/kernel/pm/exception.c, and of the kernel calls of
    src/kernel/sys/exception.c.  A thread that faults registers in the slot
    of its exception and its core and waits there; one user-space handler takes a
    registered exception with [exception_pause] and lets the thread go on with
    [exception_resume].  The slots' locks and [ulock] are used as binary semaphores:
    they are locked from the start, and are unlocked by another thread than the one
    that locks them.  [exception_wait] and [exception_pause] are therefore split where
    they can block. *)

From stdpp Require Import base gmap list.
From S2P Require Import Prelude.
From S2P Require Import Hlib.
From S2P Require Import MemLayout.
From S2P Require Import ThreadBase.

Open Scope Z_scope.

(** What the HAL defines: the exceptions and what is known about one. *)
Class ExcpHw := {
  exception : Type;
  sizeof_exception : Z;
  EXCEPTIONS_NUM : Z;
}.

Definition EXCP_ACTION_IGNORE : Z := 0.
Definition EXCP_ACTION_HANDLE : Z := 1.
Definition exception_is_valid `{ExcpHw} (x : Z) : bool := (0 <=? x) && (x <? EXCEPTIONS_NUM).

Record waiting `{ExcpHw} := Waiting { w_thread : option Z; w_excp : option exception; w_lock : spinlock_t }.
Record kexception `{ExcpHw} := Kexception { ke_action : Z; ke_waiting : list waiting }.
Record excps `{ExcpHw} := Excps {
  ex_lock : spinlock_t;
  ex_ulock : spinlock_t;
  handling : Z * Z;
  kexceptions : list kexception;
  ex_initialized : bool;
}.
Arguments Waiting {_} w_thread w_excp w_lock.
Arguments Kexception {_} ke_action ke_waiting.
Arguments Excps {_} ex_lock ex_ulock handling kexceptions ex_initialized.

Section exceptions.
Context `{H : Hlib} `{C : CoreHw} `{X : ExcpHw}.

Definition ex_set_lock (b : spinlock_t) (s : excps) : excps :=
  Excps b (ex_ulock s) (handling s) (kexceptions s) (ex_initialized s).
Definition ex_set_ulock (b : spinlock_t) (s : excps) : excps :=
  Excps (ex_lock s) b (handling s) (kexceptions s) (ex_initialized s).
Definition ex_set_handling (x : Z * Z) (s : excps) : excps :=
  Excps (ex_lock s) (ex_ulock s) x (kexceptions s) (ex_initialized s).
Definition ex_set_table (l : list kexception) (s : excps) : excps :=
  Excps (ex_lock s) (ex_ulock s) (handling s) l (ex_initialized s).
Definition ex_set_initialized (s : excps) : excps :=
  Excps (ex_lock s) (ex_ulock s) (handling s) (kexceptions s) true.

Definition lock_excps : K excps unit := spinlock_lock ex_lock ex_set_lock.
Definition unlock_excps : K excps unit := spinlock_unlock ex_set_lock.

(** The field [action] of exception [e], and the slot of exception [e] and core [k]. *)
Definition action_of (e : Z) (s : excps) : option Z := ke_action <$> aget (kexceptions s) e.
Definition slot_of (e k : Z) (s : excps) : option waiting :=
  x ← aget (kexceptions s) e; aget (ke_waiting x) k.

Definition set_action_of (e a : Z) (s : excps) : excps :=
  ex_set_table (match aget (kexceptions s) e with
                | Some x => aset e (Kexception a (ke_waiting x)) (kexceptions s)
                | None => kexceptions s
                end) s.
Definition set_slot_of (e k : Z) (w : waiting) (s : excps) : excps :=
  ex_set_table (match aget (kexceptions s) e with
                | Some x => aset e (Kexception (ke_action x) (aset k w (ke_waiting x))) (kexceptions s)
                | None => kexceptions s
                end) s.

Definition read_action (e : Z) : K excps Z := kgets (action_of e) ≫= fun o : option Z => kunwrap o.
Definition write_action (e a : Z) : K excps unit := read_action e;; kmodify (set_action_of e a).
Definition read_slot (e k : Z) : K excps waiting := kgets (slot_of e k) ≫= fun o : option waiting => kunwrap o.
Definition write_slot (e k : Z) (f : waiting -> waiting) : K excps unit :=
  w ← read_slot e k; kmodify (set_slot_of e k (f w)).

Definition is_waiting (w : waiting) : bool := bool_decide (w_thread w <> None).

(** ** Control *)

Definition exception_control (excpnum action : Z) : K excps Z :=
  KASSERT (exception_is_valid excpnum);;
  KASSERT ((action =? EXCP_ACTION_IGNORE) || (action =? EXCP_ACTION_HANDLE));;
  lock_excps;;
  x ← kgets (fun s => aget (kexceptions s) excpnum) ≫= fun o : option kexception => kunwrap o;
  if (action =? EXCP_ACTION_IGNORE) && bool_decide (search is_waiting (ke_waiting x) <> None)
  then unlock_excps;; mret (err EPERM)
  else write_action excpnum action;; unlock_excps;; mret 0.

(** ** The handler *)

Fixpoint grab_from (i : Z) (l : list kexception) : option (Z * Z) :=
  match l with
  | [] => None
  | x :: l =>
      if ke_action x =? EXCP_ACTION_HANDLE
      then match search is_waiting (ke_waiting x) with Some j => Some (i, j) | None => grab_from (i + 1) l end
      else grab_from (i + 1) l
  end.

Definition exception_grab : K excps bool :=
  o ← kgets (fun s => grab_from 0 (kexceptions s));
  match o : option (Z * Z) with
  | Some p => kmodify (ex_set_handling p);; mret true
  | None => mret false
  end.

(** One round of the loop of [exception_pause], with the lock held: the result, and what
    is copied to [excp], or [None] when the handler goes on to wait for [ulock].  [copy]
    tells whether the caller passes a buffer. *)
Definition pause_try (copy : bool) : K excps (option (Z * option exception)) :=
  b ← exception_grab;
  if b : bool then
    p ← kgets handling;
    x ← (if copy then
           w ← read_slot (fst p) (snd p);
           x ← kunwrap (w_excp w);
           mret (Some x)
         else mret None);
    unlock_excps;;
    mret (Some (0, x))
  else unlock_excps;; mret None.

Definition exception_pause_begin (copy : bool) : K excps (option (Z * option exception)) :=
  lock_excps;;
  l ← kgets kexceptions;
  if existsb (fun x => ke_action x =? EXCP_ACTION_HANDLE) l
  then pause_try copy
  else unlock_excps;; mret (Some (err EPERM, None)).

(** The handler goes on when it gets [ulock]. *)
Definition exception_pause_retry (copy : bool) : K excps (option (Z * option exception)) :=
  spinlock_lock ex_ulock ex_set_ulock;; lock_excps;; pause_try copy.

(** [exception_resume] reads [handling] once before it takes the lock. *)
Definition resume_check : K excps bool :=
  p ← kgets handling;
  mret (negb ((fst p <? 0) || (snd p <? 0))).

Definition resume_locked : K excps Z :=
  lock_excps;;
  p ← kgets handling;
  a ← read_action (fst p);
  if a =? EXCP_ACTION_IGNORE then unlock_excps;; mret (err EINVAL) else
  w ← read_slot (fst p) (snd p);
  if decide (w_thread w = None) then unlock_excps;; mret (err EINVAL) else
  write_slot (fst p) (snd p) (fun w => Waiting None None (w_lock w));;
  write_slot (fst p) (snd p) (fun w => Waiting (w_thread w) (w_excp w) false);;
  kmodify (ex_set_handling (-1, -1));;
  unlock_excps;;
  mret 0.

Definition exception_resume : K excps Z :=
  b ← resume_check;
  if b : bool then resume_locked else mret (err EINVAL).

(** ** The threads that fault *)

(** [exception_wait] in thread [t] on core [coreid], until the slot is set; true when
    the exception is ignored and the function returns. *)
Definition exception_wait_begin (excpnum : Z) (excp : exception) (t coreid : Z) : K excps bool :=
  KASSERT (exception_is_valid excpnum);;
  lock_excps;;
  a ← read_action excpnum;
  if a =? EXCP_ACTION_IGNORE then unlock_excps;; mret true else
  write_slot excpnum coreid (fun w => Waiting (Some t) (w_excp w) (w_lock w));;
  write_slot excpnum coreid (fun w => Waiting (w_thread w) (Some excp) (w_lock w));;
  unlock_excps;;
  mret false.

Definition exception_wait_signal : K excps unit := spinlock_unlock ex_set_ulock.

(** The thread goes on when it gets the lock of its slot. *)
Definition exception_wait_end (excpnum coreid : Z) : K excps Z :=
  w ← read_slot excpnum coreid;
  if w_lock w : bool then khang else
  write_slot excpnum coreid (fun w => Waiting (w_thread w) (w_excp w) true);;
  mret 0.

(** ** Initialisation *)

Definition init_slot (i j : Z) : K excps unit :=
  write_slot i j (fun w => Waiting None (w_excp w) (w_lock w));;
  write_slot i j (fun w => Waiting (w_thread w) (w_excp w) false);;
  write_slot i j (fun w => Waiting (w_thread w) (w_excp w) true).

Definition exception_init : K excps unit :=
  b ← kgets ex_initialized;
  KASSERT (negb b);;
  kmodify (ex_set_lock false);;
  kfor (Z.to_nat EXCEPTIONS_NUM) 0 (fun i _ =>
    write_action i EXCP_ACTION_IGNORE;;
    kfor (Z.to_nat THREAD_MAX) 0 (fun j _ => init_slot i j;; mret (tt, false)) tt;;
    mret (tt, false)) tt;;
  kmodify (ex_set_ulock false);;
  spinlock_lock ex_ulock ex_set_ulock;;
  kmodify (ex_set_handling (-1, -1));;
  kmodify ex_set_initialized.

(** ** Kernel calls *)

Context `{ML : MemLayout} (t : mm_target).

Definition kernel_excp_ctrl (excpnum action : Z) : K excps Z :=
  if negb (exception_is_valid excpnum) then mret (err EINVAL) else
  if negb (action =? EXCP_ACTION_IGNORE) && negb (action =? EXCP_ACTION_HANDLE) then mret (err EINVAL) else
  exception_control excpnum action.

Definition kernel_excp_pause (excp : Z) : K excps (option (Z * option exception)) :=
  if negb (excp =? 0) && negb (mm_check_area t excp sizeof_exception UMEM_AREA)
  then mret (Some (err EFAULT, None))
  else exception_pause_begin (negb (excp =? 0)).

Definition kernel_excp_resume : K excps Z := exception_resume.

End exceptions.
