(* ===== verification/ExceptionSpec.v ===== *)
(** * User-space exception handling: specification

    The protocol between the threads that fault and the handler, in every interleaving:
    no wake-up is lost in either direction.  The last part shows what happens when two
    threads call [exception_resume]. *)

From stdpp Require Import base gmap list.
From S2P Require Import Prelude.
From S2P Require Import Hlib.
From S2P Require Import ThreadBase.
From S2P Require Import Exception.

Open Scope Z_scope.

Section spec.
Context `{H : Hlib} `{HL : !HlibLaws H} `{C : CoreHw} `{X : ExcpHw}.

(** ** The table *)

Lemma slot_of_set_slot e k w0 w e' k' s :
  slot_of e k s = Some w0 ->
  slot_of e' k' (set_slot_of e k w s) = if decide (e' = e /\ k' = k) then Some w else slot_of e' k' s.
Proof.
  unfold slot_of, set_slot_of. simpl. destruct (aget (kexceptions s) e) as [x|] eqn:Ex; simpl; [|done].
  intros Hw. destruct (decide (e' = e)) as [->|Hne].
  - rewrite (aget_aset_same _ _ _ _ Ex), Ex. simpl. destruct (decide (k' = k)) as [->|Hk].
    + rewrite (aget_aset_same _ _ _ _ Hw). by rewrite decide_True.
    + rewrite aget_aset_ne by done. by rewrite decide_False by tauto.
  - rewrite aget_aset_ne by done. by rewrite decide_False by tauto.
Qed.

Lemma slot_of_set_eq e k w0 w s : slot_of e k s = Some w0 -> slot_of e k (set_slot_of e k w s) = Some w.
Proof. intros Hw. by rewrite (slot_of_set_slot _ _ _ _ _ _ _ Hw), decide_True. Qed.

Lemma action_of_set_slot e k w e' s : action_of e' (set_slot_of e k w s) = action_of e' s.
Proof.
  unfold action_of, set_slot_of. simpl. destruct (aget (kexceptions s) e) as [x|] eqn:Ex; [|done].
  destruct (decide (e' = e)) as [->|Hne]; [by rewrite (aget_aset_same _ _ _ _ Ex), Ex|by rewrite aget_aset_ne].
Qed.

Lemma slot_of_set_action e a e' k' s : slot_of e' k' (set_action_of e a s) = slot_of e' k' s.
Proof.
  unfold slot_of, set_action_of. simpl. destruct (aget (kexceptions s) e) as [x|] eqn:Ex; [|done].
  destruct (decide (e' = e)) as [->|Hne]; [by rewrite (aget_aset_same _ _ _ _ Ex), Ex|by rewrite aget_aset_ne].
Qed.

Lemma action_of_set_action e a a0 e' s :
  action_of e s = Some a0 -> action_of e' (set_action_of e a s) = if decide (e' = e) then Some a else action_of e' s.
Proof.
  unfold action_of, set_action_of. simpl. destruct (aget (kexceptions s) e) as [x|] eqn:Ex; [|done]. intros _.
  destruct (decide (e' = e)) as [->|Hne]; [by rewrite (aget_aset_same _ _ _ _ Ex)|by rewrite aget_aset_ne].
Qed.

Lemma wp_read_slot e k w (Q : waiting -> excps -> Prop) s :
  slot_of e k s = Some w -> Q w s -> wp (read_slot e k) Q s.
Proof. intros Hw HQ. unfold read_slot. do 2 wp_step. by wp_step. Qed.

Lemma wp_write_slot e k f w (Q : unit -> excps -> Prop) s :
  slot_of e k s = Some w -> Q tt (set_slot_of e k (f w) s) -> wp (write_slot e k f) Q s.
Proof. intros Hw HQ. unfold write_slot. wp_step. eapply wp_read_slot; [done|]. by wp_step. Qed.

Lemma wp_read_action e a (Q : Z -> excps -> Prop) s :
  action_of e s = Some a -> Q a s -> wp (read_action e) Q s.
Proof. intros Ha HQ. unfold read_action. do 2 wp_step. by wp_step. Qed.

Lemma wp_write_action e a a0 (Q : unit -> excps -> Prop) s :
  action_of e s = Some a0 -> Q tt (set_action_of e a s) -> wp (write_action e a) Q s.
Proof. intros Ha HQ. unfold write_action. wp_step. eapply wp_read_action; [done|]. by wp_step. Qed.

Lemma set_slot_twice e k w w' w0 s :
  slot_of e k s = Some w0 -> set_slot_of e k w (set_slot_of e k w' s) = set_slot_of e k w s.
Proof.
  unfold slot_of, set_slot_of. simpl. destruct (aget (kexceptions s) e) as [x|] eqn:Ex; [|done]. intros _. simpl.
  unfold ex_set_table. simpl. rewrite (aget_aset_same _ _ _ _ Ex). simpl. by rewrite aset_aset_eq, aset_aset_eq.
Qed.

(** What [exception_grab] finds. *)
Lemma grab_from_spec i l :
  match grab_from i l with
  | Some (e, k) => exists x w, i ≤ e /\ aget l (e - i) = Some x /\ ke_action x = EXCP_ACTION_HANDLE /\
      aget (ke_waiting x) k = Some w /\ w_thread w <> None
  | None => forall e x k w, aget l e = Some x -> ke_action x = EXCP_ACTION_HANDLE ->
      aget (ke_waiting x) k = Some w -> w_thread w = None
  end.
Proof.
  revert i. induction l as [|x l IH]; intros i; simpl; [by intros e x k w He; apply aget_lt in He; simpl in He; lia|].
  assert (Hrest : search is_waiting (ke_waiting x) = None \/ ke_action x <> EXCP_ACTION_HANDLE ->
    match grab_from (i + 1) l with
    | Some (e, k) => exists x' w, i ≤ e /\ aget (x :: l) (e - i) = Some x' /\ ke_action x' = EXCP_ACTION_HANDLE /\
        aget (ke_waiting x') k = Some w /\ w_thread w <> None
    | None => forall e x' k w, aget (x :: l) e = Some x' -> ke_action x' = EXCP_ACTION_HANDLE ->
        aget (ke_waiting x') k = Some w -> w_thread w = None
    end).
  { intros Hno. specialize (IH (i + 1)). destruct (grab_from (i + 1) l) as [[e k]|].
    - destruct IH as (y & w & Hle & Hy & Ha & Hw & Ht). exists y, w. split_and!; try done; [lia|].
      rewrite aget_cons_S by lia. by replace (e - i - 1) with (e - (i + 1)) by lia.
    - intros e y k w He Ha Hw. destruct (decide (e = 0)) as [->|].
      + rewrite aget_cons_0 in He. injection He as <-. destruct Hno as [Hno|]; [|done].
        pose proof (search_None_aget _ _ _ _ Hno Hw) as Hf. unfold is_waiting in Hf. apply bool_decide_eq_false in Hf.
        by destruct (decide (w_thread w = None)).
      + pose proof (aget_lt _ _ _ He). rewrite aget_cons_S in He by lia. by apply (IH _ y k w He). }
  destruct (ke_action x =? EXCP_ACTION_HANDLE) eqn:Ea; [|apply Hrest; right; by apply Z.eqb_neq].
  destruct (search is_waiting (ke_waiting x)) as [j|] eqn:Es; [|by apply Hrest; left].
  apply search_Some in Es as (_ & (w & Hw & Hp) & _). exists x, w.
  replace (i - i) with 0 by lia. rewrite aget_cons_0. split_and!; try done; [by apply Z.eqb_eq|].
  unfold is_waiting in Hp. by apply bool_decide_eq_true in Hp.
Qed.

(** ** The protocol *)

(** Where a thread is inside of [exception_wait]: it has set its slot, or has also
    unlocked [ulock] and waits for the lock of the slot. *)
Inductive wait_phase := Registered | Signalled.

(** The shared state, the threads in [exception_wait] by core with their exception, and
    whether the handler waits for [ulock]. *)
Record excp_config := ExcpConfig {
  ec_state : excps;
  ec_waiting : gmap Z (wait_phase * Z * exception);
  ec_blocked : bool;
}.

Definition core_valid (k : Z) : Prop := 0 ≤ k < THREAD_MAX.
Definition excp_valid (e : Z) : Prop := 0 ≤ e < EXCEPTIONS_NUM.

Inductive excp_step : excp_config -> excp_config -> Prop :=
| excp_control e a r s s' P b :
    kernel_excp_ctrl e a s = Done r s' -> excp_step (ExcpConfig s P b) (ExcpConfig s' P b)
| excp_ignored e x t k s s' P b :
    excp_valid e -> core_valid k -> P !! k = None ->
    exception_wait_begin e x t k s = Done true s' -> excp_step (ExcpConfig s P b) (ExcpConfig s' P b)
| excp_register e x t k s s' P b :
    excp_valid e -> core_valid k -> P !! k = None ->
    exception_wait_begin e x t k s = Done false s' ->
    excp_step (ExcpConfig s P b) (ExcpConfig s' (<[k := (Registered, e, x)]> P) b)
| excp_signal e x k s s' P b :
    P !! k = Some (Registered, e, x) -> exception_wait_signal s = Done tt s' ->
    excp_step (ExcpConfig s P b) (ExcpConfig s' (<[k := (Signalled, e, x)]> P) b)
| excp_return e x k r s s' P b :
    P !! k = Some (Signalled, e, x) -> exception_wait_end e k s = Done r s' ->
    excp_step (ExcpConfig s P b) (ExcpConfig s' (delete k P) b)
| excp_pause copy r s s' P :
    exception_pause_begin copy s = Done r s' ->
    excp_step (ExcpConfig s P false) (ExcpConfig s' P (bool_decide (r = None)))
| excp_retry copy r s s' P :
    exception_pause_retry copy s = Done r s' ->
    excp_step (ExcpConfig s P true) (ExcpConfig s' P (bool_decide (r = None)))
| excp_resume r s s' P :
    exception_resume s = Done r s' -> excp_step (ExcpConfig s P false) (ExcpConfig s' P false).

(** A thread's exception is pending until the handler resumes the thread. *)
Definition pending (s : excps) (e k : Z) (x : exception) : Prop :=
  exists t, slot_of e k s = Some (Waiting (Some t) (Some x) true).
Definition resumed (s : excps) (e k : Z) : Prop := slot_of e k s = Some (Waiting None None false).
Definition vacant (s : excps) (e k : Z) : Prop := exists o, slot_of e k s = Some (Waiting None o true).

Record table_ok (s : excps) (P : gmap Z (wait_phase * Z * exception)) : Prop := {
  to_lock : ex_lock s = false;
  to_action e : excp_valid e <-> is_Some (action_of e s);
  to_act e a : action_of e s = Some a -> a = EXCP_ACTION_IGNORE \/ a = EXCP_ACTION_HANDLE;
  to_range k p e x : P !! k = Some (p, e, x) -> excp_valid e /\ core_valid k;
  to_waiting k p e x : P !! k = Some (p, e, x) ->
    pending s e k x /\ action_of e s = Some EXCP_ACTION_HANDLE \/ resumed s e k;
  to_vacant e k : excp_valid e -> core_valid k -> (forall p x, P !! k <> Some (p, e, x)) -> vacant s e k;
  to_bounds e k w : slot_of e k s = Some w -> excp_valid e /\ core_valid k;
}.

(** Besides, a handler that waits for [ulock] finds it unlocked once a thread has
    signalled, and what the handler is handling is pending. *)
Record excp_ok (c : excp_config) : Prop := {
  eo_table : table_ok (ec_state c) (ec_waiting c);
  eo_ulock k e x : ec_blocked c = true -> ec_waiting c !! k = Some (Signalled, e, x) ->
    pending (ec_state c) e k x -> ex_ulock (ec_state c) = false;
  eo_handling e k : handling (ec_state c) = (e, k) -> e = -1 /\ k = -1 \/
    ec_blocked c = false /\ exists p x, ec_waiting c !! k = Some (p, e, x) /\ pending (ec_state c) e k x;
}.

Lemma ok_pending s P e k w :
  table_ok s P -> slot_of e k s = Some w -> w_thread w <> None ->
  action_of e s = Some EXCP_ACTION_HANDLE /\ exists p x, P !! k = Some (p, e, x) /\ pending s e k x.
Proof.
  intros Hok Hw Ht. destruct (to_bounds _ _ Hok _ _ _ Hw) as [He Hk].
  destruct (P !! k) as [[[p e'] x]|] eqn:Ep; [destruct (decide (e' = e)) as [->|Hne]|].
  - destruct (to_waiting _ _ Hok _ _ _ _ Ep) as [[Hp Ha]|Hr]; [by eauto|]. unfold resumed in Hr.
    rewrite Hw in Hr. by injection Hr as ->.
  - destruct (to_vacant _ _ Hok e k He Hk) as [o Ho]; [by intros p' x'; rewrite Ep; intros [= ? ->]|].
    rewrite Hw in Ho. by injection Ho as ->.
  - destruct (to_vacant _ _ Hok e k He Hk) as [o Ho]; [by rewrite Ep|].
    rewrite Hw in Ho. by injection Ho as ->.
Qed.

Lemma grab_ok s P :
  table_ok s P ->
  match grab_from 0 (kexceptions s) with
  | Some (e, k) => exists p x, P !! k = Some (p, e, x) /\ pending s e k x
  | None => forall e k x, ~ pending s e k x
  end.
Proof.
  intros Hok. pose proof (grab_from_spec 0 (kexceptions s)) as Hg.
  destruct (grab_from 0 (kexceptions s)) as [[e k]|].
  - destruct Hg as (x & w & _ & Hx & _ & Hw & Ht). rewrite Z.sub_0_r in Hx.
    apply (ok_pending s P e k w Hok); [|done]. unfold slot_of. by rewrite Hx.
  - intros e k x [t Ht]. destruct (ok_pending s P e k _ Hok Ht) as [Ha _]; [done|].
    unfold slot_of, action_of in *. destruct (aget (kexceptions s) e) as [y|] eqn:Ey; [|done]. simpl in *.
    injection Ha as Ha. by specialize (Hg e y k _ Ey Ha Ht).
Qed.

Lemma pause_try_spec copy s P :
  table_ok s P ->
  wp (pause_try copy) (fun r s' =>
    (exists p e k x, P !! k = Some (p, e, x) /\ pending s e k x /\ r = Some (0, if copy then Some x else None) /\
      s' = ex_set_handling (e, k) s) \/
    r = None /\ s' = s /\ forall e k x, ~ pending s e k x) (ex_set_lock true s).
Proof.
  intros Hok. pose proof (grab_ok s P Hok) as Hg. pose proof (to_lock _ _ Hok) as Hl. unfold pause_try, unlock_excps.
  wp_step. unfold exception_grab. do 2 wp_step. simpl.
  destruct (grab_from 0 (kexceptions s)) as [[e k]|].
  - destruct Hg as (p & x & Hp & [t Ht]). do 3 wp_step. do 2 wp_step. simpl. wp_step.
    destruct copy.
    + wp_step. eapply wp_read_slot; [exact Ht|]. wp_step. eapply wp_unwrap; [done|]. wp_step. wp_step. wp_step.
      wp_step. left. exists p, e, k, x. split_and!; try done; [by exists t|]. destruct s; simpl in *; by subst.
    + wp_step. do 2 wp_step. wp_step. left. exists p, e, k, x. split_and!; try done; [by exists t|].
      destruct s; simpl in *; by subst.
  - do 2 wp_step. wp_step. wp_step. right. split_and!; try done. destruct s; simpl in *; by subst.
Qed.

(** ** Every operation keeps the invariant *)

Lemma table_lock_eq s : ex_lock s = false -> ex_set_lock false (ex_set_lock true s) = s.
Proof. destruct s; simpl. by intros ->. Qed.

(** A change of one slot. *)
Lemma table_ok_slot s P P' e k w0 w :
  table_ok s P -> slot_of e k s = Some w0 ->
  (forall k', k' <> k -> P' !! k' = P !! k') ->
  (forall p e' x, P' !! k = Some (p, e', x) -> e' = e) ->
  (forall e', e' <> e -> forall p x, P !! k <> Some (p, e', x)) ->
  match P' !! k with
  | Some (_, _, x) => (exists t, w = Waiting (Some t) (Some x) true) /\ action_of e s = Some EXCP_ACTION_HANDLE \/ w = Waiting None None false
  | None => exists o, w = Waiting None o true
  end ->
  table_ok (set_slot_of e k w s) P'.
Proof.
  intros Hok Hw0 Hother He' Hee Hw. destruct (to_bounds _ _ Hok _ _ _ Hw0) as [He Hk].
  assert (Hne : forall e' k', ~ (e' = e /\ k' = k) -> slot_of e' k' (set_slot_of e k w s) = slot_of e' k' s).
  { intros e' k' Hd. by rewrite (slot_of_set_slot _ _ _ _ _ _ _ Hw0), decide_False. }
  assert (Heq : slot_of e k (set_slot_of e k w s) = Some w).
  { by eapply slot_of_set_eq. }
  split.
  - apply Hok.
  - intros e'. rewrite action_of_set_slot. apply Hok.
  - intros e' a. rewrite action_of_set_slot. apply Hok.
  - intros k' p e' x Hp. destruct (decide (k' = k)) as [->|Hd]; [by rewrite (He' _ _ _ Hp)|].
    rewrite Hother in Hp by done. by apply (to_range _ _ Hok k' p e' x).
  - intros k' p e' x Hp. rewrite action_of_set_slot. unfold pending, resumed. destruct (decide (k' = k)) as [->|Hd].
    + rewrite (He' _ _ _ Hp). rewrite Heq. rewrite Hp in Hw. destruct Hw as [[[t ->] Ha]| ->]; [left|by right].
      split; [by exists t|done].
    + rewrite Hne by tauto. rewrite Hother in Hp by done. by apply (to_waiting _ _ Hok k' p e' x).
  - intros e' k' Hv Hc Hno. unfold vacant. destruct (decide (e' = e /\ k' = k)) as [[-> ->]|Hd].
    + rewrite Heq. destruct (P' !! k) as [[[p e'] x]|] eqn:Ep; [|by destruct Hw as [o ->]; exists o].
      pose proof (He' _ _ _ eq_refl) as ->. by destruct (Hno p x).
    + rewrite Hne by done. apply (to_vacant _ _ Hok e' k' Hv Hc). intros p x Hp.
      destruct (decide (k' = k)) as [->|]; [|apply (Hno p x); by rewrite Hother].
      apply (Hee e') with p x; [tauto|done].
  - intros e' k' w' Hw'. destruct (decide (e' = e /\ k' = k)) as [[-> ->]|Hd]; [done|].
    rewrite Hne in Hw' by done. by apply (to_bounds _ _ Hok e' k' w').
Qed.

Lemma exception_wait_begin_spec s P e x t k :
  table_ok s P -> excp_valid e -> core_valid k -> P !! k = None ->
  wp (exception_wait_begin e x t k) (fun b s' =>
    if b then s' = s
    else s' = set_slot_of e k (Waiting (Some t) (Some x) true) s /\ table_ok s' (<[k := (Registered, e, x)]> P)) s.
Proof.
  intros Hok He Hk Hp. pose proof (to_lock _ _ Hok) as Hl. unfold exception_wait_begin, lock_excps, unlock_excps.
  destruct (proj1 (to_action _ _ Hok e) He) as [a Ha].
  destruct (to_vacant _ _ Hok e k He Hk) as [o Ho]; [by rewrite Hp|].
  do 2 wp_step. { unfold exception_is_valid, excp_valid in *. lia. }
  do 2 wp_step; [done|]. wp_step. apply wp_read_action with a; [done|]. wp_step.
  - do 2 wp_step. wp_step. by apply table_lock_eq.
  - wp_step. eapply wp_write_slot; [exact Ho|]. wp_step.
    eapply wp_write_slot; [by eapply slot_of_set_eq|].
    do 2 wp_step. wp_step. rewrite (set_slot_twice e k _ _ (Waiting None o true)) by done. simpl.
    assert (E : ex_set_lock false (set_slot_of e k (Waiting (Some t) (Some x) true) (ex_set_lock true s)) =
      set_slot_of e k (Waiting (Some t) (Some x) true) s) by (destruct s; simpl in *; by subst).
    rewrite E. split; [done|]. eapply table_ok_slot; try done.
    + intros k' Hd. by rewrite lookup_insert_ne.
    + intros p e' x'. by rewrite lookup_insert_eq; intros [= <- <- <-].
    + intros e' _ p x'. by rewrite Hp.
    + rewrite lookup_insert_eq. left. split; [by exists t|]. destruct (to_act _ _ Hok e a Ha) as [->| ->]; [|done].
      by destruct (Z.eqb_spec EXCP_ACTION_IGNORE EXCP_ACTION_IGNORE).
Qed.

Lemma exception_wait_end_spec s P e x k :
  table_ok s P -> P !! k = Some (Signalled, e, x) ->
  (resumed s e k -> wp (exception_wait_end e k) (fun r s' =>
     r = 0 /\ s' = set_slot_of e k (Waiting None None true) s /\ table_ok s' (delete k P)) s) /\
  (pending s e k x -> exception_wait_end e k s = Hang).
Proof.
  intros Hok Hp. unfold exception_wait_end. split.
  - intros Hr. wp_step. eapply wp_read_slot; [exact Hr|]. simpl. wp_step. eapply wp_write_slot; [exact Hr|].
    simpl. wp_step. split_and!; try done. eapply table_ok_slot; try done.
    + intros k' Hd. by rewrite lookup_delete_ne.
    + intros p e' x'. by rewrite lookup_delete_eq.
    + intros e' Hne p x'. rewrite Hp. by intros [= _ ?].
    + rewrite lookup_delete_eq. by eexists.
  - intros [t Ht]. unfold read_slot, mbind, K_bind, kgets. by rewrite Ht.
Qed.

Lemma exception_control_spec s P e a :
  table_ok s P -> excp_valid e -> a = EXCP_ACTION_IGNORE \/ a = EXCP_ACTION_HANDLE ->
  wp (exception_control e a) (fun r s' =>
    r = err EPERM /\ s' = s \/ r = 0 /\ s' = set_action_of e a s /\ table_ok s' P) s.
Proof.
  intros Hok He Ha. pose proof (to_lock _ _ Hok) as Hl. unfold exception_control, lock_excps, unlock_excps.
  destruct (proj1 (to_action _ _ Hok e) He) as [a0 Ha0].
  do 2 wp_step. { unfold exception_is_valid, excp_valid in *. lia. }
  do 2 wp_step. { destruct Ha as [->| ->]; done. }
  do 2 wp_step; [done|]. do 3 wp_step.
  destruct (aget (kexceptions s) e) as [y|] eqn:Ey; [|unfold action_of in Ha0; by rewrite Ey in Ha0].
  apply wp_unwrap with y; [done|]. wp_step.
  - do 2 wp_step. wp_step. left. split; [done|]. by apply table_lock_eq.
  - wp_step. eapply wp_write_action; [exact Ha0|]. do 2 wp_step. wp_step. right.
    assert (E : ex_set_lock false (set_action_of e a (ex_set_lock true s)) = set_action_of e a s) by (destruct s; simpl in *; by subst).
    rewrite E. split_and!; try done. split; try by intros; unfold pending, resumed, vacant in *; rewrite ?slot_of_set_action in *; eapply Hok.
    + intros e'. rewrite (action_of_set_action _ _ _ _ _ Ha0). case_decide as Hd; [by subst|apply Hok].
    + intros e' a'. rewrite (action_of_set_action _ _ _ _ _ Ha0). case_decide as Hd; [by intros [= <-]|apply Hok].
    + intros k p e' x Hp. unfold pending, resumed. rewrite slot_of_set_action, (action_of_set_action _ _ _ _ _ Ha0).
      destruct (to_waiting _ _ Hok _ _ _ _ Hp) as [[[t Ht] Hac]|Hr]; [|by right]. left. split; [by exists t|].
      case_decide as Hd; [|done]. subst e'. destruct Ha as [->| ->]; [|done]. exfalso.
      unfold slot_of in Ht. rewrite Ey in Ht. simpl in Ht.
      destruct (search_complete is_waiting _ _ _ Ht) as [j Hj]; [by apply bool_decide_eq_true|].
      assert (bool_decide (search is_waiting (ke_waiting y) <> None) = true) by (by apply bool_decide_eq_true; rewrite Hj).
      simplify_eq/=. by rewrite Hj in *.
    + intros e' k w. rewrite slot_of_set_action. apply Hok.
Qed.

Lemma kernel_excp_ctrl_spec s P e a :
  table_ok s P ->
  wp (kernel_excp_ctrl e a) (fun r s' =>
    (r = err EINVAL \/ r = err EPERM) /\ s' = s \/ r = 0 /\ s' = set_action_of e a s /\ table_ok s' P) s.
Proof.
  intros Hok. unfold kernel_excp_ctrl. destruct (exception_is_valid e) eqn:He; simpl; [|wp_step; by left; auto].
  wp_step; [wp_step; by left; auto|]. eapply wp_mono; [apply (exception_control_spec s P e a Hok)|].
  - unfold exception_is_valid, excp_valid in *. lia.
  - lia.
  - intros r s' [[-> ->]|?]; auto.
Qed.

Lemma exception_resume_spec s P e k p x :
  table_ok s P -> handling s = (e, k) -> P !! k = Some (p, e, x) -> pending s e k x ->
  wp exception_resume (fun r s' => r = 0 /\
    s' = ex_set_handling (-1, -1) (set_slot_of e k (Waiting None None false) s) /\ table_ok s' P) s.
Proof.
  intros Hok Hh Hp [t Ht]. pose proof (to_lock _ _ Hok) as Hl.
  destruct (to_range _ _ Hok _ _ _ _ Hp) as [He Hk]. unfold excp_valid, core_valid in *.
  destruct (ok_pending _ _ _ _ _ Hok Ht) as [Ha _]; [done|].
  unfold exception_resume, resume_check. do 2 wp_step. wp_step. wp_step. rewrite Hh. simpl.
  wp_step; [|lia]. unfold resume_locked, lock_excps, unlock_excps. do 2 wp_step; [done|]. do 2 wp_step. simpl. rewrite Hh. simpl.
  wp_step. apply wp_read_action with EXCP_ACTION_HANDLE; [done|]. simpl. wp_step.
  eapply wp_read_slot; [exact Ht|]. rewrite decide_False by done.
  wp_step. eapply wp_write_slot; [exact Ht|]. wp_step. eapply wp_write_slot; [by eapply slot_of_set_eq|].
  do 2 wp_step. do 2 wp_step. wp_step. rewrite (set_slot_twice e k _ _ (Waiting (Some t) (Some x) true)) by done. simpl.
  assert (E : ex_set_lock false (ex_set_handling (-1, -1) (set_slot_of e k (Waiting None None false) (ex_set_lock true s))) =
    ex_set_handling (-1, -1) (set_slot_of e k (Waiting None None false) s)) by (destruct s; simpl in *; by subst).
  rewrite E. split_and!; try done.
  assert (table_ok (set_slot_of e k (Waiting None None false) s) P) as [? ? ? ? ? ? ?]; [|by split].
  eapply table_ok_slot; try done.
  - intros p' e' x'. rewrite Hp. by intros [= _ -> _].
  - intros e' Hne p' x'. rewrite Hp. by intros [= _ ? _].
  - rewrite Hp. by right.
Qed.

(** A change of the slot of another core leaves what is pending. *)
Lemma pending_other s e k w0 w e' k' x :
  slot_of e k s = Some w0 -> k' <> k -> pending (set_slot_of e k w s) e' k' x <-> pending s e' k' x.
Proof.
  intros Hw Hne. unfold pending. rewrite (slot_of_set_slot _ _ _ _ _ _ _ Hw), decide_False; [done|tauto].
Qed.

Lemma pause_ok s P copy u r s' :
  table_ok s P ->
  (exists p e k x, P !! k = Some (p, e, x) /\ pending s e k x /\ r = Some (0, if copy : bool then Some x else None) /\
     s' = ex_set_handling (e, k) (ex_set_ulock u s)) \/
  r = None /\ s' = ex_set_ulock u s /\ (forall e k x, ~ pending s e k x) ->
  (forall e k, handling s = (e, k) -> e = -1 /\ k = -1 \/ exists p x, P !! k = Some (p, e, x) /\ pending s e k x) ->
  excp_ok (ExcpConfig s' P (bool_decide (r = None))).
Proof.
  intros Hok Hr Hh.
  assert (Hok' : table_ok s' P).
  { destruct Hok. destruct Hr as [(? & ? & ? & ? & _ & _ & _ & ->)|(_ & -> & _)]; by split. }
  destruct Hr as [(p & e & k & x & Hp & Hpe & -> & ->)|(-> & -> & Hno)]; split; simpl; try done.
  - intros e' k' [= <- <-]. right. split; [done|]. by exists p, x.
  - intros k e x _ _ Hpe. by destruct (Hno e k x).
  - intros e k Ehk. destruct (Hh e k Ehk) as [?|(p & x & _ & Hpe)]; [by left|]. by destruct (Hno e k x).
Qed.

Lemma handled s P b :
  excp_ok (ExcpConfig s P b) ->
  forall e k, handling s = (e, k) -> e = -1 /\ k = -1 \/ exists p x, P !! k = Some (p, e, x) /\ pending s e k x.
Proof. intros Hok e k Hh. destruct (eo_handling _ Hok e k Hh) as [?|[_ ?]]; [by left|by right]. Qed.

Lemma excp_pause_spec s P copy :
  table_ok s P ->
  wp (exception_pause_begin copy) (fun r s' =>
    (exists p e k x, P !! k = Some (p, e, x) /\ pending s e k x /\ r = Some (0, if copy then Some x else None) /\
      s' = ex_set_handling (e, k) s) \/
    (forall e k x, ~ pending s e k x) /\ s' = s /\ (r = None \/ r = Some (err EPERM, None))) s.
Proof.
  intros Hok. unfold exception_pause_begin, lock_excps, unlock_excps. do 2 wp_step; [by apply Hok|]. do 2 wp_step. wp_step.
  - eapply wp_mono; [by eapply pause_try_spec|]. intros r s' [?|(-> & -> & ?)]; [by left|right]. by split_and!; try left.
  - do 2 wp_step. wp_step. right. rewrite table_lock_eq by apply Hok. split_and!; try done; [|by right].
    intros e k x [t Ht]. destruct (ok_pending _ _ _ _ _ Hok Ht) as [Ha _]; [done|].
    unfold action_of in Ha. destruct (aget (kexceptions s) e) as [y|] eqn:Ey; [|done]. injection Ha as Ha.
    apply not_true_iff_false in H0. apply H0, existsb_exists. exists y. split; [by apply list_elem_of_In, (aget_elem _ e)|].
    simpl. by rewrite Ha.
Qed.

Lemma excp_retry_spec s P copy :
  table_ok s P -> ex_ulock s = false ->
  wp (exception_pause_retry copy) (fun r s' =>
    (exists p e k x, P !! k = Some (p, e, x) /\ pending s e k x /\ r = Some (0, if copy then Some x else None) /\
      s' = ex_set_handling (e, k) (ex_set_ulock true s)) \/
    r = None /\ s' = ex_set_ulock true s /\ forall e k x, ~ pending s e k x) s.
Proof.
  intros Hok Hu. unfold exception_pause_retry, lock_excps. do 2 wp_step; [done|]. do 2 wp_step; [by apply Hok|].
  eapply wp_mono; [apply (pause_try_spec copy (ex_set_ulock true s) P); destruct Hok; by split|]. done.
Qed.

Lemma excp_retry_Done s P copy r s' :
  table_ok s P -> exception_pause_retry copy s = Done r s' -> ex_ulock s = false.
Proof.
  intros Hok E. destruct (ex_ulock s) eqn:Eu; [|done].
  unfold exception_pause_retry, spinlock_lock, mbind, K_bind in E. by rewrite Eu in E.
Qed.

Lemma register_ok s P b e k x t w0 :
  excp_ok (ExcpConfig s P b) -> P !! k = None -> slot_of e k s = Some w0 ->
  table_ok (set_slot_of e k (Waiting (Some t) (Some x) true) s) (<[k := (Registered, e, x)]> P) ->
  excp_ok (ExcpConfig (set_slot_of e k (Waiting (Some t) (Some x) true) s) (<[k := (Registered, e, x)]> P) b).
Proof.
  intros Hok Hp Hw Hok'. split; simpl; [done| |].
  - intros k' e' x' Hb. destruct (decide (k' = k)) as [->|Hne]; [by rewrite lookup_insert_eq|].
    rewrite lookup_insert_ne by done. rewrite (pending_other _ _ _ _ _ _ _ _ Hw Hne).
    by apply (eo_ulock _ Hok k' e' x').
  - intros e' k' Hh. destruct (eo_handling _ Hok e' k' Hh) as [?|(Hb & p & x' & Hp' & Hpe)]; [by left|right].
    split; [done|]. simpl in *. assert (Hne : k' <> k) by (intros ->; by rewrite Hp in Hp').
    exists p, x'. rewrite lookup_insert_ne by done. by rewrite (pending_other _ _ _ _ _ _ _ _ Hw Hne).
Qed.

Lemma signal_ok s P b e k x :
  excp_ok (ExcpConfig s P b) -> P !! k = Some (Registered, e, x) ->
  excp_ok (ExcpConfig (ex_set_ulock false s) (<[k := (Signalled, e, x)]> P) b).
Proof.
  intros Hok Hp. split; simpl; [|done|].
  - destruct (eo_table _ Hok) as [H1 H2 H3 H4 H5 H6 H7]. split; simpl; try done.
    + intros k' p e' x' Hk'. destruct (decide (k' = k)) as [->|Hne].
      * rewrite lookup_insert_eq in Hk'. injection Hk' as <- <- <-. by apply (H4 k Registered e x).
      * rewrite lookup_insert_ne in Hk' by done. by apply (H4 k' p e' x').
    + intros k' p e' x' Hk'. destruct (decide (k' = k)) as [->|Hne].
      * rewrite lookup_insert_eq in Hk'. injection Hk' as <- <- <-. by apply (H5 k Registered e x).
      * rewrite lookup_insert_ne in Hk' by done. by apply (H5 k' p e' x').
    + intros e' k' He' Hk' Hno. apply (H6 e' k' He' Hk'). simpl. intros p x' Hp'.
      destruct (decide (k' = k)) as [->|Hne]; [|apply (Hno p x'); by rewrite lookup_insert_ne].
      rewrite Hp in Hp'. injection Hp' as _ <- _. apply (Hno Signalled x). by rewrite lookup_insert_eq.
  - intros e' k' Hh. destruct (eo_handling _ Hok e' k' Hh) as [?|(Hb & p & x' & Hp' & Hpe)]; [by left|right].
    split; [done|]. simpl in *. destruct (decide (k' = k)) as [->|Hne].
    + rewrite Hp in Hp'. injection Hp' as _ <- <-. exists Signalled, x. by rewrite lookup_insert_eq.
    + exists p, x'. by rewrite lookup_insert_ne.
Qed.

Lemma return_ok s P b e k :
  excp_ok (ExcpConfig s P b) -> resumed s e k -> table_ok (set_slot_of e k (Waiting None None true) s) (delete k P) ->
  (forall p e' x, P !! k = Some (p, e', x) -> e' = e) ->
  excp_ok (ExcpConfig (set_slot_of e k (Waiting None None true) s) (delete k P) b).
Proof.
  intros Hok Hr Hok' He. split; simpl; [done| |].
  - intros k' e' x' Hb. destruct (decide (k' = k)) as [->|Hne]; [by rewrite lookup_delete_eq|].
    rewrite lookup_delete_ne by done. rewrite (pending_other _ _ _ _ _ _ _ _ Hr Hne). by apply (eo_ulock _ Hok k' e' x').
  - intros e' k' Hh. destruct (eo_handling _ Hok e' k' Hh) as [?|(Hb & p & x' & Hp' & Hpe)]; [by left|right].
    split; [done|]. simpl in *. destruct (decide (k' = k)) as [->|Hne].
    + rewrite (He _ _ _ Hp') in Hpe. destruct Hpe as [t Ht]. unfold resumed in Hr. by rewrite Hr in Ht.
    + exists p, x'. rewrite lookup_delete_ne by done. by rewrite (pending_other _ _ _ _ _ _ _ _ Hr Hne).
Qed.

Lemma excp_step_ok c c' : excp_ok c -> excp_step c c' -> excp_ok c'.
Proof.
  intros Hok Hst. pose proof (eo_table _ Hok) as Ht.
  destruct Hst as [e a r s s' P b E|e x t k s s' P b He Hk Hp E|e x t k s s' P b He Hk Hp E|e x k s s' P b Hp E
    |e x k r s s' P b Hp E|copy r s s' P E|copy r s s' P E|r s s' P E]; simpl in *.
  - destruct (wp_Done _ _ _ _ _ E (kernel_excp_ctrl_spec s P e a Ht)) as [[_ ->]|(_ & -> & Ht')]; [done|].
    assert (Hpe : forall e' k x, pending (set_action_of e a s) e' k x <-> pending s e' k x).
    { intros. unfold pending. by rewrite slot_of_set_action. }
    destruct Hok as [_ H2 H3]. split; simpl in *; [done| |].
    + intros k e' x. rewrite Hpe. apply H2.
    + intros e' k Hh. setoid_rewrite Hpe. by apply H3.
  - pose proof (wp_Done _ _ _ _ _ E (exception_wait_begin_spec s P e x t k Ht He Hk Hp)) as Hw. simpl in Hw. by subst.
  - destruct (wp_Done _ _ _ _ _ E (exception_wait_begin_spec s P e x t k Ht He Hk Hp)) as [-> Ht'].
    destruct (to_vacant _ _ Ht e k He Hk) as [o Ho]; [by rewrite Hp|]. by eapply register_ok.
  - injection E as <-. by apply signal_ok.
  - destruct (exception_wait_end_spec s P e x k Ht Hp) as [Hr Hpe].
    destruct (to_waiting _ _ Ht _ _ _ _ Hp) as [[Hpend _]|Hres]; [by rewrite (Hpe Hpend) in E|].
    destruct (wp_Done _ _ _ _ _ E (Hr Hres)) as (_ & -> & Ht'). apply return_ok; try done.
    intros p e' x'. rewrite Hp. by intros [= _ <- _].
  - pose proof (wp_Done _ _ _ _ _ E (excp_pause_spec s P copy Ht)) as Hr.
    assert (Eu : s = ex_set_ulock (ex_ulock s) s) by (by destruct s).
    destruct Hr as [Hr|(Hno & -> & [->| ->])]; [| |by destruct Hok].
    + eapply (pause_ok s P copy (ex_ulock s)); [done| |by eapply handled]. left. by rewrite <- Eu.
    + eapply (pause_ok s P copy (ex_ulock s)); [done| |by eapply handled]. right. by rewrite <- Eu.
  - pose proof (excp_retry_Done s P copy r s' Ht E) as Hu.
    eapply (pause_ok s P copy true); [done| |by eapply handled].
    exact (wp_Done _ _ _ _ _ E (excp_retry_spec s P copy Ht Hu)).
  - destruct (handling s) as [e k] eqn:Eh. destruct (eo_handling _ Hok e k Eh) as [[-> ->]|(_ & p & x & Hp & Hpe)].
    + unfold exception_resume, resume_check, mbind, K_bind, kgets in E. rewrite Eh in E. simpl in E. by injection E as <- <-.
    + destruct (wp_Done _ _ _ _ _ E (exception_resume_spec s P e k p x Ht Eh Hp Hpe)) as (_ & -> & Ht').
      split; simpl; [done|done|]. intros e' k' [= <- <-]. by left.
Qed.

Lemma excp_steps_ok c c' : excp_ok c -> rtc excp_step c c' -> excp_ok c'.
Proof. intros Hok Hst. induction Hst; [done|]. by eapply IHHst, excp_step_ok. Qed.

(** ** Initialisation *)

Definition shaped (s : excps) : Prop :=
  ex_lock s = false /\ (forall e, excp_valid e <-> is_Some (action_of e s)) /\
  forall e k, excp_valid e /\ core_valid k <-> is_Some (slot_of e k s).

(** The table before [exception_init]. *)
Definition excp_static (s : excps) : Prop := shaped (ex_set_lock false s) /\ ex_initialized s = false.

Definition initial (s : excps) (e : Z) : Prop :=
  action_of e s = Some EXCP_ACTION_IGNORE /\ forall k, core_valid k -> vacant s e k.

Lemma shaped_slot s e k w0 w : shaped s -> slot_of e k s = Some w0 -> shaped (set_slot_of e k w s).
Proof.
  intros (Hl & Ha & Hs) Hw. split_and!; [done|by intros e'; rewrite action_of_set_slot|].
  intros e' k'. rewrite Hs, (slot_of_set_slot _ _ _ _ _ _ _ Hw). case_decide as Hd; [|done]. destruct Hd as [-> ->].
  by rewrite Hw.
Qed.

Lemma shaped_action s e a a0 : shaped s -> action_of e s = Some a0 -> shaped (set_action_of e a s).
Proof.
  intros (Hl & Ha & Hs) Hea. split_and!; [done| |intros e' k'; by rewrite slot_of_set_action].
  intros e'. rewrite Ha, (action_of_set_action _ _ _ _ _ Hea). case_decide as Hd; [|done]. subst. by rewrite Hea.
Qed.

Lemma initial_slot s e k w0 w e' :
  slot_of e k s = Some w0 -> e' <> e -> initial s e' -> initial (set_slot_of e k w s) e'.
Proof.
  intros Hw Hne [Ha Hv]. split; [by rewrite action_of_set_slot|]. intros k' Hk'. unfold vacant.
  rewrite (slot_of_set_slot _ _ _ _ _ _ _ Hw), decide_False by tauto. by apply Hv.
Qed.

Lemma wp_init_slot i j w (Q : unit -> excps -> Prop) s :
  slot_of i j s = Some w -> Q tt (set_slot_of i j (Waiting None (w_excp w) true) s) -> wp (init_slot i j) Q s.
Proof.
  intros Hw HQ. unfold init_slot. wp_step. eapply wp_write_slot; [exact Hw|]. wp_step.
  eapply wp_write_slot; [by eapply slot_of_set_eq|]. eapply wp_write_slot; [eapply slot_of_set_eq; by eapply slot_of_set_eq|].
  rewrite (set_slot_twice i j _ _ (Waiting None (w_excp w) (w_lock w))) by (by eapply slot_of_set_eq).
  by rewrite (set_slot_twice _ _ _ _ _ _ Hw).
Qed.

Lemma init_row s i :
  shaped s -> excp_valid i -> (forall e, 0 ≤ e < i -> initial s e) ->
  wp (write_action i EXCP_ACTION_IGNORE;;
      kfor (Z.to_nat THREAD_MAX) 0 (fun j _ => init_slot i j;; mret (tt, false)) tt;;
      mret (tt, false))
     (fun r s' => r = (tt, false) /\ shaped s' /\ forall e, 0 ≤ e < i + 1 -> initial s' e) s.
Proof.
  intros Hsh Hi Hpre. destruct (proj1 (proj1 (proj2 Hsh) i) Hi) as [a Hai].
  wp_step. eapply wp_write_action; [exact Hai|]. wp_step.
  apply (wp_kfor (fun j _ s' => shaped s' /\ (forall e, 0 ≤ e < i -> initial s' e) /\
    action_of i s' = Some EXCP_ACTION_IGNORE /\ forall k, 0 ≤ k < j -> vacant s' i k)).
  - split_and!; [by eapply shaped_action| |by rewrite (action_of_set_action _ _ _ _ _ Hai), decide_True|lia].
    intros e He. destruct (Hpre e He) as [H1 H2]. split; [|intros k Hk; unfold vacant; rewrite slot_of_set_action; by apply H2].
    rewrite (action_of_set_action _ _ _ _ _ Hai), decide_False by lia. done.
  - intros j [] s1 Hj (Hs1 & Hp1 & Ha1 & Hv1). destruct (proj1 (proj2 (proj2 Hs1) i j)) as [w Hw].
    { split; [done|]. unfold core_valid. lia. }
    wp_step. eapply wp_init_slot; [exact Hw|]. wp_step. split_and!.
    + by eapply shaped_slot.
    + intros e He. eapply initial_slot; [done|lia|by apply Hp1].
    + by rewrite action_of_set_slot.
    + intros k Hk. unfold vacant. rewrite (slot_of_set_slot _ _ _ _ _ _ _ Hw). case_decide as Hd; [by eexists|].
      apply Hv1. destruct (decide (k = j)) as [->|]; [tauto|lia].
  - intros [] s1 (Hs1 & Hp1 & Ha1 & Hv1). wp_step. split_and!; try done. intros e He.
    destruct (decide (e = i)) as [->|]; [|apply Hp1; lia]. split; [done|]. intros k Hk. apply Hv1. unfold core_valid in Hk. lia.
Qed.

Lemma exception_init_spec s :
  excp_static s -> wp exception_init (fun _ s0 => excp_ok (ExcpConfig s0 ∅ false)) s.
Proof.
  intros [Hs Hi]. unfold exception_init. do 2 wp_step. do 2 wp_step; [by rewrite Hi|]. do 3 wp_step.
  apply (wp_kfor (fun i _ s' => shaped s' /\ forall e, 0 ≤ e < i -> initial s' e)).
  - split; [done|lia].
  - intros i [] s1 Hi1 (Hs1 & Hp1). eapply wp_mono; [apply (init_row s1 i Hs1); [unfold excp_valid; lia|done]|].
    by intros r s2 (-> & ?).
  - intros [] s1 ((Hl & Ha & Hsl) & Hp1). do 2 wp_step. do 2 wp_step; [done|]. do 3 wp_step.
    assert (Hp : forall e, excp_valid e -> initial s1 e) by (intros e He; apply Hp1; unfold excp_valid in He; lia).
    split; simpl; [split; simpl; try done| |].
    + intros e a Hea. left. destruct (Hp e) as [Hi' _]; [by apply Ha|]. unfold action_of in *. simpl in *. congruence.
    + intros e k He Hk _. by apply Hp.
    + intros e k w Hw. apply Hsl. by exists w.
    + done.
    + intros e k [= <- <-]. by left.
Qed.

Lemma resume_locked_none s P : table_ok s P -> handling s = (-1, -1) -> resume_locked s = Fault.
Proof.
  intros Hok Hh. assert (Hnone : action_of (-1) (ex_set_lock true s) = None).
  { destruct (action_of _ _) as [a|] eqn:Ea; [|done].
    assert (excp_valid (-1)) by (apply (to_action _ _ Hok); by exists a). unfold excp_valid in *. lia. }
  unfold resume_locked, lock_excps, spinlock_lock, mbind, K_bind. rewrite (to_lock _ _ Hok).
  unfold kgets at 1. simpl. rewrite Hh. unfold read_action, mbind, K_bind, kgets.
  cbn [fst snd]. by rewrite Hnone.
Qed.

(** ** The theorems *)

(** (C6) In every interleaving of threads that fault, a handler and changes of the
    actions, no wake-up is lost.  A thread in [exception_wait] is pending, and stays
    blocked, until the handler has resumed it, and then returns: also when it is resumed
    before it waits.  Whenever a thread that has signalled is pending, the next round of
    [exception_pause] returns the exception of a pending thread, even if the handler was
    asleep, and [exception_resume] resumes exactly that thread. *)
Theorem exception_protocol s :
  excp_static s ->
  wp exception_init (fun _ s0 => forall s P b, rtc excp_step (ExcpConfig s0 ∅ false) (ExcpConfig s P b) ->
    (forall k p e x, P !! k = Some (p, e, x) -> pending s e k x \/ resumed s e k) /\
    (forall k e x, P !! k = Some (Signalled, e, x) ->
      (resumed s e k -> wp (exception_wait_end e k) (fun r _ => r = 0) s) /\
      (pending s e k x -> exception_wait_end e k s = Hang)) /\
    (forall k e x copy, P !! k = Some (Signalled, e, x) -> pending s e k x ->
      wp (if b then exception_pause_retry copy else exception_pause_begin copy) (fun r s' =>
        exists p' e' k' x', P !! k' = Some (p', e', x') /\ pending s e' k' x' /\
          r = Some (0, if copy then Some x' else None) /\
          wp exception_resume (fun r s'' => r = 0 /\ resumed s'' e' k') s') s)) s.
Proof.
  intros Hst. eapply wp_mono; [by apply exception_init_spec|]. intros [] s0 Hok0 s1 P b Hrtc.
  pose proof (excp_steps_ok _ _ Hok0 Hrtc) as Hok.
  pose proof (eo_table _ Hok) as Ht. simpl in Ht. split_and!.
  - intros k p e x Hp. destruct (to_waiting _ _ Ht _ _ _ _ Hp) as [[? _]|?]; [by left|by right].
  - intros k e x Hp. destruct (exception_wait_end_spec s1 P e x k Ht Hp) as [Hr Hpe]. split; [|done].
    intros Hres. eapply wp_mono; [by apply Hr|]. by intros r s' [? _].
  - intros k e x copy Hp Hpe.
    assert (Hthen : forall p' e' k' x' u, P !! k' = Some (p', e', x') -> pending s1 e' k' x' ->
      wp exception_resume (fun r s'' => r = 0 /\ resumed s'' e' k') (ex_set_handling (e', k') (ex_set_ulock u s1))).
    { intros p' e' k' x' u Hp' [t Ht']. eapply wp_mono; [apply (exception_resume_spec _ P e' k' p' x')|].
      - destruct Ht; by split.
      - done.
      - done.
      - by exists t.
      - intros r s' (-> & -> & _). split; [done|]. unfold resumed.
        by apply (slot_of_set_eq e' k' (Waiting (Some t) (Some x') true) _ (ex_set_handling (e', k') (ex_set_ulock u s1))). }
    assert (Eu : s1 = ex_set_ulock (ex_ulock s1) s1) by (by destruct s1). destruct b.
    + pose proof (eo_ulock _ Hok k e x eq_refl Hp Hpe) as Hu.
      eapply wp_mono; [by apply (excp_retry_spec s1 P copy Ht)|].
      intros r s' [(p' & e' & k' & x' & Hp' & Hpe' & -> & ->)|(_ & _ & Hno)]; [|by destruct (Hno e k x)].
      exists p', e', k', x'. split_and!; try done. by eapply Hthen.
    + eapply wp_mono; [by apply (excp_pause_spec s1 P copy Ht)|].
      intros r s' [(p' & e' & k' & x' & Hp' & Hpe' & -> & ->)|(Hno & _)]; [|by destruct (Hno e k x)].
      exists p', e', k', x'. split_and!; try done. rewrite Eu. by eapply Hthen.
Qed.

(** [exception_resume] tests [handling] before it takes the lock: when two threads
    call it for the same exception, the second one accesses the table at index -1. *)
Theorem exception_resume_race s P e k p x :
  table_ok s P -> handling s = (e, k) -> P !! k = Some (p, e, x) -> pending s e k x ->
  wp (b ← resume_check; r ← exception_resume; mret (b, r)) (fun br s' =>
    br = (true, 0) /\ resume_locked s' = Fault) s.
Proof.
  intros Hok Hh Hp Hpe. wp_step. unfold resume_check. do 2 wp_step. wp_step. rewrite Hh. simpl.
  destruct (to_range _ _ Hok _ _ _ _ Hp) as [He Hk]. unfold excp_valid, core_valid in *.
  wp_step. eapply wp_mono; [by apply (exception_resume_spec s P e k p x)|]. intros r s' (-> & -> & Hok').
  wp_step. split; [repeat f_equal; lia|].
  by apply (resume_locked_none _ P).
Qed.

End spec.
