(* ===== verification/Signal.v ===== *)
(** * Signals

    Model of src/kernel/pm/signal.c, of the part of
    include/nanvix/kernel/signal.h that is implemented, and of the kernel calls of
    src/kernel/sys/signal.c.  The table of exception handlers and the upcall belong
    to the HAL. *)

From stdpp Require Import base gmap list.
From S2P Require Import Prelude.
From S2P Require Import Hlib.
From S2P Require Import MemLayout.
From S2P Require Import Exception.

Open Scope Z_scope.

(** The exceptions that are signals, and the HAL's table of exception handlers. *)
Class SignalHw := {
  EXCEPTION_INVALID_OPCODE : Z;
  EXCEPTION_PAGE_FAULT : Z;
  EXCEPTION_PAGE_PROTECTION : Z;
  EXCEPTION_GENERAL_PROTECTION : Z;
  excp_table : Type;
  exception_register : Z -> excp_table -> Z * excp_table;
  exception_unregister : Z -> excp_table -> Z * excp_table;
  load_handler : gmap Z Z -> Z -> Z;
  sizeof_ksigaction : Z;
}.

(** [signals] holds the handlers, 0 for none; [upcalls] are the upcalls that were forged,
    with their handler and signal. *)
Record sigs `{SignalHw} := Sigs {
  sigtab_lock : spinlock_t;
  signals : list Z;
  sig_table : excp_table;
  sig_umem : gmap Z Z;
  upcalls : list (Z * Z);
}.
Arguments Sigs {_} sigtab_lock signals sig_table sig_umem upcalls.

Section signal.
Context `{H : Hlib} `{ML : MemLayout} `{X : ExcpHw} `{G : SignalHw} (t : mm_target).

Definition SIGNALS_NUM : Z := 4.
Definition mapped_signals : list Z :=
  [EXCEPTION_INVALID_OPCODE; EXCEPTION_PAGE_FAULT; EXCEPTION_PAGE_PROTECTION; EXCEPTION_GENERAL_PROTECTION].

Definition sig_set_lock (b : spinlock_t) (s : sigs) : sigs := Sigs b (signals s) (sig_table s) (sig_umem s) (upcalls s).
Definition sig_set_signals (l : list Z) (s : sigs) : sigs := Sigs (sigtab_lock s) l (sig_table s) (sig_umem s) (upcalls s).
Definition sig_set_table (x : excp_table) (s : sigs) : sigs := Sigs (sigtab_lock s) (signals s) x (sig_umem s) (upcalls s).
Definition sig_set_upcalls (l : list (Z * Z)) (s : sigs) : sigs := Sigs (sigtab_lock s) (signals s) (sig_table s) (sig_umem s) l.

Definition lock_sigs : K sigs unit := spinlock_lock sigtab_lock sig_set_lock.
Definition unlock_sigs : K sigs unit := spinlock_unlock sig_set_lock.
Definition signal_read (i : Z) : K sigs Z :=
  kgets (fun s => aget (signals s) i) ≫= fun o : option Z => kunwrap o.
Definition sig_hw (f : excp_table -> Z * excp_table) : K sigs Z :=
  r ← kgets (fun s => f (sig_table s));
  kmodify (sig_set_table (snd r));;
  mret (fst r).

(** What the HAL calls when exception [signum] is registered. *)
Definition signal_handler (signum : Z) : K sigs unit :=
  lock_sigs;;
  handler ← signal_read signum;
  if handler =? 0 then unlock_sigs;; kpanic else
  unlock_sigs;;
  kmodify (fun s => sig_set_upcalls (upcalls s ++ [(handler, signum)]) s).

(** [signal_control] up to the change of the HAL's table, and the change of the handler.
    [sigact] is the handler that the structure holds, or none for a null pointer. *)
Definition signal_register (signum : Z) (handler : Z) : K sigs Z :=
  if negb (handler =? 0) then
    lock_sigs;;
    h ← signal_read signum;
    unlock_sigs;;
    if h =? 0 then sig_hw (exception_register signum) else mret 0
  else sig_hw (exception_unregister signum).

Definition signal_set (signum handler : Z) : K sigs unit :=
  lock_sigs;;
  signal_read signum;;
  kmodify (fun s => sig_set_signals (aset signum handler (signals s)) s);;
  unlock_sigs.

Definition signal_control (signum : Z) (sigact : option Z) : K sigs Z :=
  if negb (existsb (fun x => x =? signum) mapped_signals) then mret (err EINVAL) else
  match sigact with
  | None => mret (err EAGAIN)
  | Some handler =>
      ret ← signal_register signum handler;
      if negb (ret =? 0) then mret ret else
      signal_set signum handler;;
      mret 0
  end.

(** The functions of the header that are not implemented yet. *)
Definition signal_alarm (seconds : Z) : Z := 0.
Definition signal_send (signum tid : Z) : Z := 0.
Definition signal_wait (signum : Z) : Z := 0.

(** ** Kernel calls *)

Definition kernel_sigctl (signum sigact : Z) : K sigs Z :=
  if sigact =? 0 then mret (err EAGAIN) else
  if negb (mm_check_area t sigact sizeof_ksigaction UMEM_AREA) then mret (err EFAULT) else
  handler ← kgets (fun s => load_handler (sig_umem s) sigact);
  if negb (mm_check_area t handler 0 UMEM_AREA) then mret (err EFAULT) else
  signal_control signum (Some handler).

Definition kernel_alarm (seconds : Z) : Z := if seconds <=? 0 then err EINVAL else signal_alarm seconds.
Definition kernel_sigsend (signum tid : Z) : Z :=
  if tid <? 0 then err EINVAL else
  if negb (WITHIN signum 0 EXCEPTIONS_NUM) then err EINVAL else signal_send signum tid.
Definition kernel_sigwait (signum : Z) : Z :=
  if negb (WITHIN signum 0 EXCEPTIONS_NUM) then err EINVAL else signal_wait signum.

(** ** The handlers and the HAL's table agree *)

(** What the HAL documents of its table: [registered x i] tells whether exception [i] has
    a handler in [x]; a registration that succeeds adds one and a failure changes
    nothing. *)
Class SignalHwLaws (registered : excp_table -> Z -> Prop) : Prop := {
  register_spec i x : let r := exception_register i x in
    (fst r = 0 -> forall j, registered (snd r) j <-> registered x j \/ j = i) /\ (fst r <> 0 -> snd r = x);
  unregister_spec i x : let r := exception_unregister i x in
    (fst r = 0 -> forall j, registered (snd r) j <-> registered x j /\ j <> i) /\ (fst r <> 0 -> snd r = x);
  mapped_valid : Forall (fun i => 0 ≤ i < EXCEPTIONS_NUM) mapped_signals;
}.

Context {HL : HlibLaws H} (registered : excp_table -> Z -> Prop) {SL : SignalHwLaws registered}.

Record sig_ok (s : sigs) : Prop := {
  sg_lock : sigtab_lock s = false;
  sg_length : alen (signals s) = EXCEPTIONS_NUM;
  sg_agree i h : aget (signals s) i = Some h -> registered (sig_table s) i <-> h <> 0;
}.

Lemma wp_signal_read i h (Q : Z -> sigs -> Prop) s : aget (signals s) i = Some h -> Q h s -> wp (signal_read i) Q s.
Proof. intros Hh HQ. unfold signal_read. do 2 wp_step. by wp_step. Qed.

Lemma wp_sig_hw f (Q : Z -> sigs -> Prop) s : Q (fst (f (sig_table s))) (sig_set_table (snd (f (sig_table s))) s) -> wp (sig_hw f) Q s.
Proof. intros HQ. unfold sig_hw. by do 5 wp_step. Qed.

Lemma sig_relock s : sigtab_lock s = false -> sig_set_lock false (sig_set_lock true s) = s.
Proof. destruct s; simpl. by intros ->. Qed.

(** After the HAL's table was changed, the table agrees with the new handler. *)
Lemma signal_register_spec s signum h handler :
  sig_ok s -> aget (signals s) signum = Some h ->
  wp (signal_register signum handler) (fun r s' =>
    if decide (r = 0) then
      exists x, s' = sig_set_table x s /\ (registered x signum <-> handler <> 0) /\
        forall j, j <> signum -> registered x j <-> registered (sig_table s) j
    else s' = s) s.
Proof.
  intros Hok Hh. pose proof (sg_lock _ Hok) as Hl. unfold signal_register, lock_sigs, unlock_sigs. wp_step.
  - apply negb_true_iff, Z.eqb_neq in H0. do 2 wp_step; [done|]. wp_step. eapply wp_signal_read; [done|]. do 2 wp_step.
    rewrite sig_relock by done. wp_step.
    + apply Z.eqb_eq in H1. subst h. apply wp_sig_hw. destruct (register_spec signum (sig_table s)) as [Ho Hf]. case_decide.
      * eexists. split; [done|]. split; [rewrite Ho by done; by split; [|right]|]. intros j Hj. rewrite Ho by done. naive_solver.
      * rewrite Hf by done. by destruct s.
    + apply Z.eqb_neq in H1. wp_step. rewrite decide_True by done. exists (sig_table s). split; [by destruct s|].
      split; [|done]. rewrite (sg_agree _ Hok signum h Hh). done.
  - apply negb_false_iff, Z.eqb_eq in H0. subst. apply wp_sig_hw.
    destruct (unregister_spec signum (sig_table s)) as [Ho Hf]. case_decide.
    + eexists. split; [done|]. split; [rewrite Ho by done; naive_solver|]. intros j Hj. rewrite Ho by done. naive_solver.
    + rewrite Hf by done. by destruct s.
Qed.

Lemma signal_set_spec s signum h handler :
  sigtab_lock s = false -> aget (signals s) signum = Some h ->
  wp (signal_set signum handler) (fun _ s' => s' = sig_set_signals (aset signum handler (signals s)) s) s.
Proof.
  intros Hl Hh. unfold signal_set, lock_sigs, unlock_sigs. do 2 wp_step; [done|]. wp_step. eapply wp_signal_read; [done|].
  do 3 wp_step. destruct s; simpl in *. by subst.
Qed.

Lemma signal_control_spec s signum sigact :
  sig_ok s ->
  wp (signal_control signum sigact) (fun r s' => sig_ok s' /\
    ((r <> 0 /\ s' = s) \/ r = 0 /\ exists handler, sigact = Some handler /\ signum ∈ mapped_signals /\
       signals s' = aset signum handler (signals s) /\ upcalls s' = upcalls s)) s.
Proof.
  intros Hok. unfold signal_control. wp_step.
  { wp_step. split; [done|]. left. split; [|done]. pose proof (err_neg EINVAL). lia. }
  apply negb_false_iff, existsb_exists in H0 as (x & Hx & Ex%Z.eqb_eq). subst x. apply list_elem_of_In in Hx.
  destruct sigact as [handler|].
  2:{ wp_step. split; [done|]. left. split; [|done]. pose proof (err_neg EAGAIN). lia. }
  pose proof mapped_valid as Hm. rewrite Forall_forall in Hm. specialize (Hm _ Hx).
  destruct (aget_is_Some (signals s) signum) as [h Hh]; [by rewrite (sg_length _ Hok)|].
  wp_step. eapply wp_mono; [by eapply signal_register_spec|]. intros r s1 Hr. cbn beta in Hr. wp_step.
  - apply negb_true_iff, Z.eqb_neq in H0. rewrite decide_False in Hr by done. subst. wp_step. split; [done|]. by left.
  - apply negb_false_iff, Z.eqb_eq in H0. rewrite decide_True in Hr by done. destruct Hr as (x & -> & Hsig & Hother).
    wp_step. eapply wp_mono; [eapply (signal_set_spec (sig_set_table x s) signum h handler); [apply Hok|done]|].
    intros [] s2 ->. wp_step. split; [|right; split; [done|]; by exists handler]. split; simpl.
    + apply Hok.
    + rewrite length_aset. apply Hok.
    + intros i hi. destruct (decide (signum = i)) as [<-|Hne].
      * rewrite (aget_aset_same _ _ _ _ Hh). by intros [= <-].
      * rewrite aget_aset_ne by done. intros Hi. rewrite Hother by done. by apply (sg_agree _ Hok).
Qed.

(** Signals are forwarded: through any sequence of calls of [signal_control], an
    exception has a handler in the HAL's table if and only if the signal has one, a call
    that fails changes nothing, and an exception of the HAL's table is forwarded to the
    handler of its signal. *)
Theorem signal_forwarding s calls :
  sig_ok s ->
  wp (kseq (map (fun c => signal_control (fst c) (snd c)) calls)) (fun _ s' =>
    sig_ok s' /\ forall i, 0 ≤ i < EXCEPTIONS_NUM -> registered (sig_table s') i ->
      exists h, aget (signals s') i = Some h /\ h <> 0 /\
        wp (signal_handler i) (fun _ s'' => s'' = sig_set_upcalls (upcalls s' ++ [(h, i)]) s') s') s.
Proof.
  intros Hok. apply (wp_mono _ (fun _ s' => sig_ok s')).
  - revert s Hok. induction calls as [|[signum sigact] calls IH]; intros s Hok; simpl; [by wp_step|].
    wp_step. eapply wp_mono; [by apply signal_control_spec|]. intros r s1 [Hok1 _]. wp_step.
    eapply wp_mono; [by apply IH|]. intros rs s2 Hok2. by wp_step.
  - intros _ s' Hok'. split; [done|]. intros i Hi Hreg.
    destruct (aget_is_Some (signals s') i) as [h Hh]; [by rewrite (sg_length _ Hok')|].
    pose proof (proj1 (sg_agree _ Hok' i h Hh) Hreg) as Hne. exists h. split_and!; try done.
    unfold signal_handler, lock_sigs, unlock_sigs. do 2 wp_step; [apply Hok'|]. wp_step. eapply wp_signal_read; [done|].
    rewrite (proj2 (Z.eqb_neq h 0)) by done. do 3 wp_step. by rewrite sig_relock by apply Hok'.
Qed.

(** [signal_control] registers the exception before it stores the handler: an
    exception that arrives in between stops the kernel. *)
Theorem signal_register_race s signum handler :
  sig_ok s -> signum ∈ mapped_signals -> aget (signals s) signum = Some 0 -> handler <> 0 ->
  fst (exception_register signum (sig_table s)) = 0 ->
  wp (signal_register signum handler) (fun r s' =>
    r = 0 /\ registered (sig_table s') signum /\ signal_handler signum s' = Panic) s.
Proof.
  intros Hok _ Hh Hne Hreg. pose proof (sg_lock _ Hok) as Hl.
  unfold signal_register, lock_sigs, unlock_sigs. rewrite (proj2 (Z.eqb_neq handler 0)) by done. simpl.
  do 2 wp_step; [done|]. wp_step. eapply wp_signal_read; [exact Hh|]. do 2 wp_step. rewrite sig_relock by done. simpl.
  apply wp_sig_hw. split; [done|]. destruct (register_spec signum (sig_table s)) as [Ho _]. split; [apply Ho; [done|by right]|].
  unfold signal_handler, lock_sigs, spinlock_lock, signal_read, mbind, K_bind, kgets. simpl. rewrite Hl. simpl. by rewrite Hh.
Qed.

End signal.
