(* ===== verification/Console.v ===== *)
(** * Output, clock and counters

    Model of src/kernel/sys/{write,clock,stats}.c.  The standard output, the clock and
    the performance counters belong to the HAL.  The string functions of the support
    library behave as those of the C library: characters are bytes, and a string ends at
    its first zero byte.  A write past the end of a buffer is undefined. *)

From stdpp Require Import base gmap list.
From S2P Require Import Prelude.
From S2P Require Import Hlib.
From S2P Require Import MemLayout.
From S2P Require Import Active.

Open Scope Z_scope.

(** [cluster_text] is what the format of [kernel_write] prints for a cluster;
    [perf_start], [perf_stop] and [perf_read] act on the first counter. *)
Class ConsoleHw := {
  console : Type;
  cluster_num : Z;
  cluster_text : Z -> list Z;
  stdout_write : list Z -> console -> console;
  console_clock : console -> Z * console;
  perf_start : Z -> console -> Z * console;
  perf_stop : console -> Z * console;
  perf_read : console -> Z;
  store_uint64 : Z -> list Z;
}.

Record con `{ConsoleHw} := Con {
  con_hw : console;
  con_umem : gmap Z Z;
  bigbuf : list Z;
  buf2 : list Z;
}.
Arguments Con {_} con_hw con_umem bigbuf buf2.

Section console.
Context `{H : Hlib} `{ML : MemLayout} `{O : ConsoleHw} (t : mm_target).

Definition WRITE_BUFFER_SIZE : Z := 512.

Definition con_set_hw (x : console) (s : con) : con := Con x (con_umem s) (bigbuf s) (buf2 s).
Definition con_set_umem (x : gmap Z Z) (s : con) : con := Con (con_hw s) x (bigbuf s) (buf2 s).
Definition con_set_bigbuf (x : list Z) (s : con) : con := Con (con_hw s) (con_umem s) x (buf2 s).
Definition con_set_buf2 (x : list Z) (s : con) : con := Con (con_hw s) (con_umem s) (bigbuf s) x.

(** ** Buffers of characters *)

(** [bs] written to [buf] from index [i] on. *)
Definition buf_write (i : Z) (bs buf : list Z) : option (list Z) :=
  if (0 <=? i) && (i + alen bs <=? alen buf)
  then Some (take (Z.to_nat i) buf ++ bs ++ drop (Z.to_nat (i + alen bs)) buf) else None.

(** The characters of the string in [buf], or none when it does not end. *)
Fixpoint cstring (buf : list Z) : option (list Z) :=
  match buf with
  | [] => None
  | b :: buf => if b =? 0 then Some [] else cons b <$> cstring buf
  end.

Definition kstrcpy (bs buf : list Z) : option (list Z) := buf_write 0 (bs ++ [0]) buf.
Definition kstrcat (bs buf : list Z) : option (list Z) :=
  s ← cstring buf; buf_write (alen s) (bs ++ [0]) buf.

Definition bigbuf_update (f : list Z -> option (list Z)) : K con unit :=
  b ← kgets bigbuf; x ← kunwrap (f b); kmodify (con_set_bigbuf x).
Definition buf2_update (f : list Z -> option (list Z)) : K con unit :=
  b ← kgets buf2; x ← kunwrap (f b); kmodify (con_set_buf2 x).

(** ** Kernel calls *)

(** [kernel_write] from the formatting on, once [buf2] holds the string of [n] bytes. *)
Definition write_text (n : Z) : K con Z :=
  let text := cluster_text cluster_num in
  bigbuf_update (kstrcpy text);;
  b2 ← kgets buf2;
  bs ← kunwrap (cstring b2);
  bigbuf_update (kstrcat bs);;
  bigbuf_update (kstrcat [10]);;
  let len := alen text + n + 2 in
  b ← kgets bigbuf;
  if alen b <? len then kfault else
  kmodify (fun s => con_set_hw (stdout_write (take (Z.to_nat len) b) (con_hw s)) s);;
  mret n.

Definition kernel_write (fd buf n : Z) : K con Z :=
  if fd <? 0 then mret (err EINVAL) else
  if buf =? 0 then mret (err EINVAL) else
  if WRITE_BUFFER_SIZE <? n then mret (err EINVAL) else
  if negb (mm_check_area t buf n UMEM_AREA) then mret (err EFAULT) else
  m ← kgets con_umem;
  buf2_update (buf_write 0 (mem_read m buf (Z.to_nat n)));;
  buf2_update (buf_write n [0]);;
  write_text n.

Definition kernel_clock (buffer : Z) : K con Z :=
  if buffer =? 0 then mret (err EINVAL) else
  if negb (mm_check_area t buffer 8 UMEM_AREA) then mret (err EFAULT) else
  r ← kgets (fun s => console_clock (con_hw s));
  kmodify (con_set_hw (snd r));;
  kmodify (fun s => con_set_umem (mem_write buffer (store_uint64 (fst r)) (con_umem s)) s);;
  mret 0.

Definition kernel_stats (buffer perf : Z) : K con Z :=
  if buffer =? 0 then
    if perf <? 0 then mret (err EINVAL) else
    r ← kgets (fun s => perf_start perf (con_hw s));
    kmodify (con_set_hw (snd r));;
    mret (fst r)
  else
    if negb (mm_check_area t buffer 8 UMEM_AREA) then mret (err EFAULT) else
    r ← kgets (fun s => perf_stop (con_hw s));
    kmodify (con_set_hw (snd r));;
    (if fst r =? 0 then
       kmodify (fun s => con_set_umem (mem_write buffer (store_uint64 (perf_read (con_hw s))) (con_umem s)) s)
     else mret tt);;
    mret (fst r).

(** ** The text that is written *)

Definition nonzero (bs : list Z) : Prop := Forall (fun b => b <> 0) bs.

Lemma cstring_app bs rest : nonzero bs -> cstring (bs ++ 0 :: rest) = Some bs.
Proof.
  induction 1 as [|b bs Hb _ IH]; simpl; [done|]. rewrite (proj2 (Z.eqb_neq b 0)) by done. by rewrite IH.
Qed.

Lemma buf_write_fits i bs pre mid post :
  i = alen pre -> length mid = length bs -> buf_write i bs (pre ++ mid ++ post) = Some (pre ++ bs ++ post).
Proof.
  intros -> Hl. unfold buf_write. rewrite !length_app.
  rewrite (proj2 (Z.leb_le 0 _)), (proj2 (Z.leb_le _ _)) by lia. simpl. f_equal.
  rewrite Nat2Z.id, take_app_length. do 2 f_equal.
  replace (Z.to_nat (alen pre + alen bs)) with (length (pre ++ mid)) by (rewrite length_app; lia).
  by rewrite app_assoc, drop_app_length.
Qed.

Lemma buf_write_over i bs buf : 0 ≤ i -> alen buf < i + alen bs -> buf_write i bs buf = None.
Proof.
  intros Hi Hl. unfold buf_write. rewrite (proj2 (Z.leb_le 0 i)), (proj2 (Z.leb_gt _ _)) by lia. done.
Qed.

(** A buffer in parts. *)
Lemma buf_split {A} (buf : list A) n : (n ≤ length buf)%nat -> exists mid post, buf = mid ++ post /\ length mid = n.
Proof. intros Hn. exists (take n buf), (drop n buf). split; [by rewrite take_drop|]. rewrite length_take. lia. Qed.

Lemma kstrcat_fits s bs rest :
  nonzero s -> (length bs ≤ length rest)%nat ->
  exists post, kstrcat bs (s ++ 0 :: rest) = Some ((s ++ bs) ++ 0 :: post) /\ length rest = (length bs + length post)%nat.
Proof.
  intros Hs Hl. unfold kstrcat. rewrite cstring_app by done. simpl.
  destruct (buf_split (0 :: rest) (length (bs ++ [0]))) as (mid & post & E & Hm); [rewrite length_app; simpl; lia|].
  rewrite E. exists post. rewrite (buf_write_fits _ _ s mid post) by done.
  apply (f_equal length) in E. rewrite length_app in E, Hm. simpl in *.
  split; [by rewrite <- !app_assoc|]. lia.
Qed.

Lemma kstrcat_over s bs rest :
  nonzero s -> (length rest < length bs)%nat -> kstrcat bs (s ++ 0 :: rest) = None.
Proof.
  intros Hs Hl. unfold kstrcat. rewrite cstring_app by done. simpl. apply buf_write_over; [lia|].
  rewrite !length_app. simpl. lia.
Qed.

Lemma kstrcpy_fits bs buf :
  (length bs < length buf)%nat -> exists post, kstrcpy bs buf = Some (bs ++ 0 :: post) /\ length buf = (length bs + S (length post))%nat.
Proof.
  intros Hl. unfold kstrcpy. destruct (buf_split buf (length (bs ++ [0]))) as (mid & post & -> & Hm).
  { rewrite length_app. simpl. lia. }
  exists post. rewrite (buf_write_fits 0 _ [] mid post) by done. rewrite <- app_assoc. split; [done|].
  rewrite length_app in Hm. rewrite length_app. simpl in *. lia.
Qed.

Lemma wp_bigbuf_update f x (Q : unit -> con -> Prop) s :
  f (bigbuf s) = Some x -> Q tt (con_set_bigbuf x s) -> wp (bigbuf_update f) Q s.
Proof. intros Hx HQ. unfold bigbuf_update. do 2 wp_step. wp_step. wp_step; [exact Hx|]. by wp_step. Qed.

Lemma wp_buf2_update f x (Q : unit -> con -> Prop) s :
  f (buf2 s) = Some x -> Q tt (con_set_buf2 x s) -> wp (buf2_update f) Q s.
Proof. intros Hx HQ. unfold buf2_update. do 2 wp_step. wp_step. wp_step; [exact Hx|]. by wp_step. Qed.

Lemma nonzero_app l l' : nonzero l -> nonzero l' -> nonzero (l ++ l').
Proof. intros. by apply Forall_app. Qed.

Lemma write_text_fits bs rest s :
  nonzero (cluster_text cluster_num) -> nonzero bs -> buf2 s = bs ++ 0 :: rest ->
  alen (cluster_text cluster_num) + alen bs + 2 ≤ alen (bigbuf s) ->
  wp (write_text (alen bs)) (fun r s' => r = alen bs /\
    con_hw s' = stdout_write (cluster_text cluster_num ++ bs ++ [10; 0]) (con_hw s)) s.
Proof.
  intros Ht Hb E2 Hl. unfold write_text. set (text := cluster_text cluster_num) in *.
  destruct (kstrcpy_fits text (bigbuf s)) as (p1 & E3 & L1); [lia|].
  destruct (kstrcat_fits text bs p1 Ht) as (p2 & E4 & L2); [lia|].
  destruct (kstrcat_fits (text ++ bs) [10] p2 (nonzero_app _ _ Ht Hb)) as (p3 & E5 & L3); [simpl; lia|].
  wp_step. eapply wp_bigbuf_update; [exact E3|]. do 2 wp_step. wp_step.
  wp_step; [simpl; rewrite E2; by apply cstring_app|]. wp_step. eapply wp_bigbuf_update; [exact E4|].
  wp_step. eapply wp_bigbuf_update; [exact E5|]. do 2 wp_step. simpl.
  replace (((text ++ bs) ++ [10]) ++ 0 :: p3) with ((text ++ bs ++ [10; 0]) ++ p3) by (by rewrite <- !app_assoc).
  wp_step; [exfalso; revert H0; rewrite !length_app; simpl; intros Hlt%Z.ltb_lt; lia|].
  do 2 wp_step. wp_step. split; [done|]. simpl. f_equal.
  replace (Z.to_nat (alen text + alen bs + 2)) with (length (text ++ bs ++ [10; 0])) by (rewrite !length_app; simpl; lia).
  apply take_app_length.
Qed.

Lemma bigbuf_update_fault f s : f (bigbuf s) = None -> bigbuf_update f s = Fault.
Proof. intros E. unfold bigbuf_update, mbind, K_bind, kgets. by rewrite E. Qed.

Lemma bigbuf_update_done f x s : f (bigbuf s) = Some x -> bigbuf_update f s = Done tt (con_set_bigbuf x s).
Proof. intros E. unfold bigbuf_update, mbind, K_bind, kgets. by rewrite E. Qed.

Lemma write_text_over bs rest s :
  nonzero (cluster_text cluster_num) -> nonzero bs -> buf2 s = bs ++ 0 :: rest ->
  alen (bigbuf s) < alen (cluster_text cluster_num) + alen bs + 2 -> write_text (alen bs) s = Fault.
Proof.
  intros Ht Hb E2 Hl. unfold write_text. set (text := cluster_text cluster_num) in *.
  destruct (decide (length text < length (bigbuf s))%nat) as [Hlt|].
  2:{ apply fault_bind, bigbuf_update_fault, buf_write_over; [lia|]. rewrite length_app. simpl. lia. }
  destruct (kstrcpy_fits text (bigbuf s) Hlt) as (p1 & E3 & L1).
  rewrite (done_bind _ _ _ _ _ (bigbuf_update_done _ _ _ E3)). rewrite (done_bind (kgets buf2) _ _ _ _ eq_refl).
  cbn [buf2 con_set_bigbuf]. rewrite E2, cstring_app by done. rewrite (done_bind (kunwrap (Some bs)) _ _ _ _ eq_refl).
  destruct (decide (length bs ≤ length p1)%nat) as [Hlt2|].
  2:{ apply fault_bind, bigbuf_update_fault, kstrcat_over; [done|lia]. }
  destruct (kstrcat_fits text bs p1 Ht Hlt2) as (p2 & E4 & L2).
  rewrite (done_bind _ _ _ _ _ (bigbuf_update_done (kstrcat bs) _ (con_set_bigbuf (text ++ 0 :: p1) s) E4)).
  apply fault_bind, bigbuf_update_fault, kstrcat_over; [by apply nonzero_app|simpl; lia].
Qed.

(** [kernel_write] of a text prints it after the number of the cluster, with a line
    feed and a zero byte, when all of this fits in its buffer.  It accepts texts of up to
    512 bytes, but a text that does not fit is written past the end of the buffer. *)
Theorem kernel_write_bounds s fd buf n :
  let text := cluster_text cluster_num in
  let bs := mem_read (con_umem s) buf (Z.to_nat n) in
  alen (bigbuf s) = WRITE_BUFFER_SIZE + 1 -> alen (buf2 s) = WRITE_BUFFER_SIZE + 1 ->
  0 ≤ fd -> buf <> 0 -> 0 ≤ n ≤ WRITE_BUFFER_SIZE -> mm_check_area t buf n UMEM_AREA = true ->
  nonzero text -> nonzero bs ->
  (alen text + n + 2 ≤ WRITE_BUFFER_SIZE + 1 ->
    wp (kernel_write fd buf n) (fun r s' => r = n /\ con_hw s' = stdout_write (text ++ bs ++ [10; 0]) (con_hw s)) s) /\
  (WRITE_BUFFER_SIZE + 1 < alen text + n + 2 -> kernel_write fd buf n s = Fault).
Proof.
  intros text bs H1 H2 Hfd Hbuf Hn Harea Ht Hb. assert (Hlen : alen bs = n) by (unfold bs; rewrite length_mem_read; lia).
  destruct (buf_split (buf2 s) (length bs)) as (mid & post & E2 & Hm); [lia|].
  destruct post as [|z post]; [rewrite E2, app_nil_r in H2; lia|].
  set (s1 := con_set_buf2 (bs ++ z :: post) s). set (s2 := con_set_buf2 (bs ++ 0 :: post) s).
  assert (Erun : kernel_write fd buf n s = write_text n s2).
  { unfold kernel_write. rewrite (proj2 (Z.ltb_ge fd 0)), (proj2 (Z.eqb_neq buf 0)), (proj2 (Z.ltb_ge WRITE_BUFFER_SIZE n)), Harea by lia.
    simpl. rewrite (done_bind (kgets con_umem) _ _ _ _ eq_refl). fold bs.
    assert (Eu : forall f x u, f (buf2 u) = Some x -> buf2_update f u = Done tt (con_set_buf2 x u))
      by (intros f x u E; unfold buf2_update, mbind, K_bind, kgets; by rewrite E).
    rewrite (done_bind _ _ _ _ _ (Eu _ (bs ++ z :: post) s ltac:(rewrite E2; by apply (buf_write_fits 0 bs [] mid (z :: post))))).
    rewrite (done_bind _ _ _ _ _ (Eu (buf_write n [0]) (bs ++ 0 :: post) s1 (buf_write_fits n [0] bs [z] post (eq_sym Hlen) eq_refl))). done. }
  clearbody bs. split; intros Hfit.
  - pose proof (write_text_fits bs post s2 Ht Hb eq_refl) as Hw. fold text in Hw. rewrite Hlen in Hw.
    unfold wp in *. rewrite Erun. apply Hw. simpl. lia.
  - rewrite Erun. rewrite <- Hlen. apply (write_text_over bs post); try done. fold text. simpl. lia.
Qed.

End console.
