(* ===== verification/Syscall.v ===== *)
(** * The kernel-call board

    Model of src/kernel/sys/syscalls.c.  A core that makes a kernel call either runs
    it itself or fills its entry of the board, signals the master core and waits for the
    answer; the master core sweeps the board, runs the call and signals the core back.
    [do_kcall] and [do_kcall2] are split where they wait and where other cores can
    interfere.

    The kernel calls themselves are the operations of [KernelCalls]; the semaphores are
    their counters, which is what CondSpec shows of them: a down that has to wait is a
    step that is not enabled. *)

From stdpp Require Import base gmap list.
From S2P Require Import Prelude.
From S2P Require Import Hlib.
From S2P Require Import ThreadBase.

Open Scope Z_scope.

(** ** Numbers *)

Definition NR__exit : Z := 1.
Definition NR_write : Z := 2.
Definition NR_thread_get_id : Z := 3.
Definition NR_thread_create : Z := 4.
Definition NR_thread_exit : Z := 5.
Definition NR_thread_join : Z := 6.
Definition NR_thread_yield : Z := 7.
Definition NR_sleep : Z := 8.
Definition NR_wakeup : Z := 9.
Definition NR_shutdown : Z := 10.
Definition NR_sigctl : Z := 11.
Definition NR_alarm : Z := 12.
Definition NR_sigsend : Z := 13.
Definition NR_sigwait : Z := 14.
Definition NR_sigreturn : Z := 15.
Definition NR_node_get_num : Z := 16.
Definition NR_sync_create : Z := 17.
Definition NR_sync_open : Z := 18.
Definition NR_sync_unlink : Z := 19.
Definition NR_sync_close : Z := 20.
Definition NR_sync_wait : Z := 21.
Definition NR_sync_signal : Z := 22.
Definition NR_sync_ioctl : Z := 23.
Definition NR_mailbox_create : Z := 24.
Definition NR_mailbox_open : Z := 25.
Definition NR_mailbox_unlink : Z := 26.
Definition NR_mailbox_close : Z := 27.
Definition NR_mailbox_awrite : Z := 28.
Definition NR_mailbox_aread : Z := 29.
Definition NR_mailbox_wait : Z := 30.
Definition NR_mailbox_ioctl : Z := 31.
Definition NR_portal_create : Z := 32.
Definition NR_portal_allow : Z := 33.
Definition NR_portal_open : Z := 34.
Definition NR_portal_unlink : Z := 35.
Definition NR_portal_close : Z := 36.
Definition NR_portal_awrite : Z := 37.
Definition NR_portal_aread : Z := 38.
Definition NR_portal_wait : Z := 39.
Definition NR_portal_ioctl : Z := 40.
Definition NR_clock : Z := 42.
Definition NR_stats : Z := 43.
Definition NR_frame_alloc : Z := 44.
Definition NR_frame_free : Z := 45.
Definition NR_upage_alloc : Z := 46.
Definition NR_upage_free : Z := 47.
Definition NR_upage_map : Z := 48.
Definition NR_upage_link : Z := 49.
Definition NR_upage_unmap : Z := 51.
Definition NR_excp_ctrl : Z := 52.
Definition NR_excp_pause : Z := 53.
Definition NR_excp_resume : Z := 54.
Definition NR_cluster_get_num : Z := 55.
Definition NR_comm_get_port : Z := 56.
Definition NR_last_kcall : Z := 57.
Definition NR_SYSCALLS : Z := NR_last_kcall.

(** ** Words and integers *)

Class Word := { WORD_BITS : Z }.

Definition to_word `{Word} (x : Z) : Z := x `mod` 2 ^ WORD_BITS.
Definition to_int (x : Z) : Z := (x + 2 ^ 31) `mod` 2 ^ 32 - 2 ^ 31.
Definition to_unsigned (x : Z) : Z := x `mod` 2 ^ 32.

(** The arguments of a call. *)
Record kargs := Kargs { arg0 : Z; arg1 : Z; arg2 : Z; arg3 : Z; arg4 : Z }.

(** ** The calls

    The calls that [do_kcall2] makes for the other cores, with the arguments that it
    passes on, and those that [do_kcall] makes on the calling core.  Pointers, sizes
    and addresses are words. *)

Inductive kcall :=
| Kshutdown | Kexit (status : Z) | Kwrite (fd buf n : Z)
| Kthread_create (tid start arg : Z) | Kwakeup (tid : Z) | Ksigctl (signum sigact : Z)
| Knode_get_num | Kcluster_get_num
| Ksync_create (nodes nnodes type : Z) | Ksync_open (nodes nnodes type : Z)
| Ksync_unlink (syncid : Z) | Ksync_close (syncid : Z) | Ksync_signal (syncid : Z)
| Ksync_ioctl (syncid request args : Z)
| Kmailbox_create (local port : Z) | Kmailbox_open (remote port : Z)
| Kmailbox_unlink (mbxid : Z) | Kmailbox_close (mbxid : Z)
| Kmailbox_aread (mbxid buffer size : Z) | Kmailbox_awrite (mbxid buffer size : Z)
| Kmailbox_ioctl (mbxid request args : Z)
| Kportal_create (local port : Z) | Kportal_allow (portalid remote port : Z)
| Kportal_open (local remote port : Z) | Kportal_unlink (portalid : Z) | Kportal_close (portalid : Z)
| Kportal_aread (portalid buffer size : Z) | Kportal_awrite (portalid buffer size : Z)
| Kportal_ioctl (portalid request args : Z)
| Kstats (buffer perf : Z) | Kframe_alloc | Kframe_free (frame : Z)
| Kupage_alloc (vaddr : Z) | Kupage_free (vaddr : Z) | Kupage_map (vaddr frame : Z)
| Kupage_unmap (vaddr : Z) | Kupage_link (vaddr1 vaddr2 : Z)
| Kexcp_ctrl (excpnum action : Z) | Kexcp_resume.

Inductive local_kcall :=
| Lthread_get_id | Lthread_exit (retval : Z) | Lthread_join (tid retval : Z) | Lthread_yield | Lsleep
| Lalarm (seconds : Z) | Lsigsend (signum tid : Z) | Lsigwait (signum : Z) | Lsigreturn
| Lcomm_get_port (id type : Z) | Lsync_wait (syncid : Z) | Lmailbox_wait (mbxid : Z)
| Lportal_wait (portalid : Z) | Lclock (buffer : Z) | Lexcp_pause (excp : Z).

(** The switch of [do_kcall2]; [None] is its default branch. *)
Definition kcall_parse (nr : Z) (a : kargs) : option kcall :=
  let i0 := to_int (arg0 a) in let i1 := to_int (arg1 a) in let i2 := to_int (arg2 a) in
  if nr =? NR_shutdown then Some Kshutdown else
  if nr =? NR__exit then Some (Kexit i0) else
  if nr =? NR_write then Some (Kwrite i0 (arg1 a) (arg2 a)) else
  if nr =? NR_thread_create then Some (Kthread_create (arg0 a) (arg1 a) (arg2 a)) else
  if nr =? NR_wakeup then Some (Kwakeup i0) else
  if nr =? NR_sigctl then Some (Ksigctl i0 (arg1 a)) else
  if nr =? NR_node_get_num then Some Knode_get_num else
  if nr =? NR_cluster_get_num then Some Kcluster_get_num else
  if nr =? NR_sync_create then Some (Ksync_create (arg0 a) i1 i2) else
  if nr =? NR_sync_open then Some (Ksync_open (arg0 a) i1 i2) else
  if nr =? NR_sync_unlink then Some (Ksync_unlink i0) else
  if nr =? NR_sync_close then Some (Ksync_close i0) else
  if nr =? NR_sync_signal then Some (Ksync_signal i0) else
  if nr =? NR_sync_ioctl then Some (Ksync_ioctl i0 (to_unsigned (arg1 a)) (arg2 a)) else
  if nr =? NR_mailbox_create then Some (Kmailbox_create i0 i1) else
  if nr =? NR_mailbox_open then Some (Kmailbox_open i0 i1) else
  if nr =? NR_mailbox_unlink then Some (Kmailbox_unlink i0) else
  if nr =? NR_mailbox_close then Some (Kmailbox_close i0) else
  if nr =? NR_mailbox_aread then Some (Kmailbox_aread i0 (arg1 a) (arg2 a)) else
  if nr =? NR_mailbox_awrite then Some (Kmailbox_awrite i0 (arg1 a) (arg2 a)) else
  if nr =? NR_mailbox_ioctl then Some (Kmailbox_ioctl i0 (to_unsigned (arg1 a)) (arg2 a)) else
  if nr =? NR_portal_create then Some (Kportal_create i0 i1) else
  if nr =? NR_portal_allow then Some (Kportal_allow i0 i1 i2) else
  if nr =? NR_portal_open then Some (Kportal_open i0 i1 i2) else
  if nr =? NR_portal_unlink then Some (Kportal_unlink i0) else
  if nr =? NR_portal_close then Some (Kportal_close i0) else
  if nr =? NR_portal_aread then Some (Kportal_aread i0 (arg1 a) (arg2 a)) else
  if nr =? NR_portal_awrite then Some (Kportal_awrite i0 (arg1 a) (arg2 a)) else
  if nr =? NR_portal_ioctl then Some (Kportal_ioctl i0 (to_unsigned (arg1 a)) (arg2 a)) else
  if nr =? NR_stats then Some (Kstats (arg0 a) i1) else
  if nr =? NR_frame_alloc then Some Kframe_alloc else
  if nr =? NR_frame_free then Some (Kframe_free (arg0 a)) else
  if nr =? NR_upage_alloc then Some (Kupage_alloc (arg0 a)) else
  if nr =? NR_upage_free then Some (Kupage_free (arg0 a)) else
  if nr =? NR_upage_map then Some (Kupage_map (arg0 a) (arg1 a)) else
  if nr =? NR_upage_unmap then Some (Kupage_unmap (arg0 a)) else
  if nr =? NR_upage_link then Some (Kupage_link (arg0 a) (arg1 a)) else
  if nr =? NR_excp_ctrl then Some (Kexcp_ctrl i0 i1) else
  if nr =? NR_excp_resume then Some Kexcp_resume else
  None.

(** The switch of [do_kcall]; [None] is the branch that forwards the call. *)
Definition local_parse (nr : Z) (a : kargs) : option local_kcall :=
  let i0 := to_int (arg0 a) in let i1 := to_int (arg1 a) in
  if nr =? NR_thread_get_id then Some Lthread_get_id else
  if nr =? NR_thread_exit then Some (Lthread_exit (arg0 a)) else
  if nr =? NR_thread_join then Some (Lthread_join i0 (arg1 a)) else
  if nr =? NR_thread_yield then Some Lthread_yield else
  if nr =? NR_sleep then Some Lsleep else
  if nr =? NR_alarm then Some (Lalarm i0) else
  if nr =? NR_sigsend then Some (Lsigsend i0 i1) else
  if nr =? NR_sigwait then Some (Lsigwait i0) else
  if nr =? NR_sigreturn then Some Lsigreturn else
  if nr =? NR_comm_get_port then Some (Lcomm_get_port i0 i1) else
  if nr =? NR_sync_wait then Some (Lsync_wait i0) else
  if nr =? NR_mailbox_wait then Some (Lmailbox_wait i0) else
  if nr =? NR_portal_wait then Some (Lportal_wait i0) else
  if nr =? NR_clock then Some (Lclock (arg0 a)) else
  if nr =? NR_excp_pause then Some (Lexcp_pause (arg0 a)) else
  None.

(** What the kernel calls do, on the rest of the kernel's state: [kernel_call] on the
    master core, [local_call] and [upage_inval] on the core that is given. *)
Class KernelCalls := {
  kernel : Type;
  kernel_call : kcall -> K kernel Z;
  local_call : Z -> local_kcall -> K kernel Z;
  local_inval : Z -> Z -> K kernel Z;
}.

Section board.
Context `{H : Hlib} `{C : CoreHw} `{W : Word} `{KC : KernelCalls}.

Record sysboard := Sysboard {
  sb_args : kargs;
  sb_nr : Z;
  sb_ret : Z;
  sb_sem : Z;
  sb_pending : bool;
}.

Record sys := Sys {
  sy_sem : Z;
  boards : list sysboard;
  sys_next_coreid : Z;
  sy_kernel : kernel;
}.

Definition sy_set_sem (x : Z) (s : sys) : sys := Sys x (boards s) (sys_next_coreid s) (sy_kernel s).
Definition sy_set_boards (x : list sysboard) (s : sys) : sys := Sys (sy_sem s) x (sys_next_coreid s) (sy_kernel s).
Definition sy_set_next (x : Z) (s : sys) : sys := Sys (sy_sem s) (boards s) x (sy_kernel s).
Definition sy_set_kernel (x : kernel) (s : sys) : sys := Sys (sy_sem s) (boards s) (sys_next_coreid s) x.

Definition in_kernel {A} (m : K kernel A) : K sys A := kzoom (fun s => Some (sy_kernel s)) sy_set_kernel m.

Definition board_read (k : Z) : K sys sysboard :=
  kgets (fun s => aget (boards s) k) ≫= fun o : option sysboard => kunwrap o.
Definition board_update (k : Z) (f : sysboard -> sysboard) : K sys unit :=
  b ← board_read k; kmodify (fun s => sy_set_boards (aset k (f b) (boards s)) s).

(** ** The master core *)

(** The sweep: the entry of the first core with a request, from [sys_next_coreid] on,
    or 0 when there is none. *)
Fixpoint sweep (n : nat) : K sys Z :=
  match n with
  | O => mret 0
  | S n =>
      k ← kgets sys_next_coreid;
      b ← board_read k;
      kmodify (sy_set_next ((k + 1) `mod` CORES_NUM));;
      if sb_pending b then mret k else sweep n
  end.

(** [do_kcall2] up to the choice of a core, its [switch], and its end. *)
Definition kcall2_take : K sys Z :=
  n ← kgets sy_sem;
  if n <=? 0 then khang else
  kmodify (sy_set_sem (n - 1));;
  sweep (Z.to_nat CORES_NUM).

(** Numbers are compared as words.  The results of [kernel_exit] and [kernel_stats] are
    not used. *)
Definition kcall2_dispatch (nr : Z) (a : kargs) : K kernel Z :=
  if NR_SYSCALLS <=? nr then mret (err EINVAL) else
  match kcall_parse nr a with
  | Some (Kexit status) => kernel_call (Kexit status);; mret (err ENOSYS)
  | Some (Kstats buffer perf) => kernel_call (Kstats buffer perf);; mret (err ENOSYS)
  | Some c => kernel_call c
  | None => mret (err ENOSYS)
  end.

Definition kcall2_run (k : Z) : K sys Z :=
  b ← board_read k; in_kernel (kcall2_dispatch (sb_nr b) (sb_args b)).

Definition kcall2_reply (k ret : Z) : K sys unit :=
  board_update k (fun b => Sysboard (sb_args b) (sb_nr b) (sb_ret b) (sb_sem b) false);;
  board_update k (fun b => Sysboard (sb_args b) (sb_nr b) (to_word (to_int ret)) (sb_sem b) (sb_pending b));;
  board_update k (fun b => Sysboard (sb_args b) (sb_nr b) (sb_ret b) (sb_sem b + 1) (sb_pending b)).

(** ** The other cores *)

(** [do_kcall] on core [k], when the call is forwarded: up to the signal, the signal,
    and from the answer on. *)
Definition kcall_post (k : Z) (a : kargs) (nr : Z) : K sys unit :=
  board_update k (fun b => Sysboard a (sb_nr b) (sb_ret b) (sb_sem b) (sb_pending b));;
  board_update k (fun b => Sysboard (sb_args b) nr (sb_ret b) (sb_sem b) (sb_pending b));;
  board_update k (fun b => Sysboard (sb_args b) (sb_nr b) (sb_ret b) (sb_sem b) true).

Definition kcall_signal : K sys unit := kmodify (fun s => sy_set_sem (sy_sem s + 1) s).

Definition is_upage_call (nr : Z) : bool :=
  (nr =? NR_upage_alloc) || (nr =? NR_upage_free) || (nr =? NR_upage_map) || (nr =? NR_upage_unmap) ||
  (nr =? NR_upage_link).

Definition kcall_finish (k : Z) (a : kargs) (nr : Z) : K sys Z :=
  b ← board_read k;
  if sb_sem b <=? 0 then khang else
  board_update k (fun b => Sysboard (sb_args b) (sb_nr b) (sb_ret b) (sb_sem b - 1) (sb_pending b));;
  b ← board_read k;
  let ret := to_int (sb_ret b) in
  (if is_upage_call nr then in_kernel (local_inval k (arg0 a));; mret tt else mret tt);;
  mret ret.

(** A call that the core makes itself. *)
Definition kcall_local (k : Z) (c : local_kcall) : K sys Z := in_kernel (local_call k c).

(** ** Initialisation *)

Definition syscall_init : K sys unit :=
  kfor (Z.to_nat CORES_NUM) 0 (fun k _ =>
    board_update k (fun b => Sysboard (sb_args b) (to_word (-1)) (sb_ret b) 0 false);;
    mret (tt, false)) tt.

End board.
