(* ===== verification/SyscallSpec.v ===== *)
(** * The kernel-call board: specification

    Every interleaving of cores that make kernel calls and of the master core that runs
    them: each call is run exactly once, with its own arguments, and its result is what
    the core gets back; no signal is lost; and the sweep is fair. *)

From stdpp Require Import base gmap list.
From S2P Require Import Prelude.
From S2P Require Import Hlib.
From S2P Require Import ThreadBase.
From S2P Require Import Syscall.

Open Scope Z_scope.

Class WordLaws (W : Word) : Prop := { word_int : 32 ≤ WORD_BITS }.

(** Invalidating a translation always returns. *)
Class KernelCallsLaws (KC : KernelCalls) : Prop := {
  local_inval_returns k a x : exists r x', local_inval k a x = Done r x';
}.

Abbreviation request := (kargs * Z)%type (only parsing).

(** Where a core is in [do_kcall]: outside of a forwarded call; its request is on the
    board; it has also signalled the master core.  The master core may find the request
    and answer it before the signal. *)
Inductive phase :=
| Free
| Posted (q : request)
| Called (q : request)
| Early (q : request) (r : Z)
| Answered (q : request) (r : Z).

Definition signalled (p : phase) : phase :=
  match p with Posted q => Called q | Early q r => Answered q r | _ => p end.
Definition answered (r : Z) (p : phase) : phase :=
  match p with Posted q => Early q r | Called q => Answered q r | _ => p end.
Definition wants (p : phase) : option request :=
  match p with Posted q | Called q => Some q | _ => None end.
Definition is_called (p : phase) : bool := match p with Called _ => true | _ => false end.
Definition is_early (p : phase) : bool := match p with Early _ _ => true | _ => false end.

Section spec.
Context `{H : Hlib} `{C : CoreHw} `{W : Word} `{WL : !WordLaws W} `{KC : KernelCalls} `{KL : !KernelCallsLaws KC}.

(** The state, the phases of the cores, what the master core is doing (the core it
    serves, and the result once it has run the call), the calls that were run and the
    calls that returned, with their results. *)
Record sys_config := SysConfig {
  sc_sys : sys;
  sc_phase : list phase;
  sc_master : option (Z * option Z);
  sc_runs : list (Z * request * Z);
  sc_rets : list (Z * request * Z);
}.

Inductive sys_step : sys_config -> sys_config -> Prop :=
| sys_post k a nr s s' ph m xs ys :
    aget ph k = Some Free -> local_parse nr a = None -> kcall_post k a nr s = Done tt s' ->
    sys_step (SysConfig s ph m xs ys) (SysConfig s' (aset k (Posted (a, nr)) ph) m xs ys)
| sys_signal k p s s' ph m xs ys :
    aget ph k = Some p -> signalled p <> p -> kcall_signal s = Done tt s' ->
    sys_step (SysConfig s ph m xs ys) (SysConfig s' (aset k (signalled p) ph) m xs ys)
| sys_finish k a nr r v s s' ph m xs ys :
    aget ph k = Some (Answered (a, nr) r) -> kcall_finish k a nr s = Done v s' ->
    sys_step (SysConfig s ph m xs ys) (SysConfig s' (aset k Free ph) m xs (ys ++ [(k, (a, nr), v)]))
| sys_take k s s' ph xs ys :
    kcall2_take s = Done k s' ->
    sys_step (SysConfig s ph None xs ys) (SysConfig s' ph (Some (k, None)) xs ys)
| sys_run k b r s s' ph xs ys :
    aget (boards s) k = Some b -> kcall2_run k s = Done r s' ->
    sys_step (SysConfig s ph (Some (k, None)) xs ys)
             (SysConfig s' ph (Some (k, Some r)) (xs ++ [(k, (sb_args b, sb_nr b), to_int r)]) ys)
| sys_reply k p r s s' ph xs ys :
    aget ph k = Some p -> kcall2_reply k r s = Done tt s' ->
    sys_step (SysConfig s ph (Some (k, Some r)) xs ys) (SysConfig s' (aset k (answered (to_int r) p) ph) None xs ys)
| sys_other x s ph m xs ys :
    sys_step (SysConfig s ph m xs ys) (SysConfig (sy_set_kernel x s) ph m xs ys).

(** ** The invariant *)

Definition board_ok (b : sysboard) (p : phase) : Prop :=
  match p with
  | Free => sb_pending b = false /\ sb_sem b = 0
  | Posted q | Called q => sb_pending b = true /\ sb_sem b = 0 /\ q = (sb_args b, sb_nr b)
  | Early _ r | Answered _ r => sb_pending b = false /\ sb_sem b = 1 /\ to_int (sb_ret b) = r
  end.

Definition log_of (k : Z) (l : list (Z * request * Z)) : list (Z * request * Z) :=
  List.filter (fun e => fst (fst e) =? k) l.

(** The call of core [k] that was run and has not returned. *)
Definition running (k : Z) (p : phase) (m : option (Z * option Z)) : list (Z * request * Z) :=
  match p with
  | Free => []
  | Posted q | Called q =>
      match m with Some (k', Some r) => if k' =? k then [(k, q, to_int r)] else [] | _ => [] end
  | Early q r | Answered q r => [(k, q, r)]
  end.

Record sys_ok (c : sys_config) : Prop := {
  so_boards : alen (boards (sc_sys c)) = CORES_NUM;
  so_phases : alen (sc_phase c) = CORES_NUM;
  so_next : 0 ≤ sys_next_coreid (sc_sys c) < CORES_NUM;
  so_board k b p : aget (boards (sc_sys c)) k = Some b -> aget (sc_phase c) k = Some p -> board_ok b p;
  so_master k o : sc_master c = Some (k, o) -> exists p, aget (sc_phase c) k = Some p /\ is_Some (wants p);
  so_count : sy_sem (sc_sys c) = countb is_called (sc_phase c) - countb is_early (sc_phase c) -
               (if sc_master c is Some _ then 1 else 0);
  so_log k p : aget (sc_phase c) k = Some p ->
    log_of k (sc_runs c) = log_of k (sc_rets c) ++ running k p (sc_master c);
}.

(** ** Words *)

Lemma to_int_word r : to_int (to_word (to_int r)) = to_int r.
Proof.
  unfold to_int, to_word. pose proof word_int.
  set (x := (r + 2 ^ 31) `mod` 2 ^ 32).
  assert (Hx : 0 ≤ x < 2 ^ 32) by (apply Z.mod_pos_bound; lia).
  replace ((((x - 2 ^ 31) `mod` 2 ^ WORD_BITS) + 2 ^ 31) `mod` 2 ^ 32) with x; [done|].
  replace WORD_BITS with (32 + (WORD_BITS - 32)) by lia. rewrite Z.pow_add_r by lia.
  rewrite <- (Zplus_mod_idemp_l _ (2 ^ 31)), Z.mod_mod_divide by apply Z.divide_factor_l.
  rewrite Zplus_mod_idemp_l. replace (x - 2 ^ 31 + 2 ^ 31) with x by lia. by rewrite Z.mod_small.
Qed.

(** ** The operations *)

Lemma wp_board_read k b (Q : sysboard -> sys -> Prop) s :
  aget (boards s) k = Some b -> Q b s -> wp (board_read k) Q s.
Proof. intros Hb HQ. unfold board_read. do 2 wp_step. by wp_step. Qed.

Lemma wp_board_update k f b (Q : unit -> sys -> Prop) s :
  aget (boards s) k = Some b -> Q tt (sy_set_boards (aset k (f b) (boards s)) s) -> wp (board_update k f) Q s.
Proof. intros Hb HQ. unfold board_update. wp_step. eapply wp_board_read; [done|]. by wp_step. Qed.

Lemma kcall_post_spec k a nr b s :
  aget (boards s) k = Some b ->
  wp (kcall_post k a nr) (fun _ s' =>
    s' = sy_set_boards (aset k (Sysboard a nr (sb_ret b) (sb_sem b) true) (boards s)) s) s.
Proof.
  intros Hb. unfold kcall_post. wp_step. eapply wp_board_update; [exact Hb|]. wp_step.
  eapply wp_board_update; [by eapply aget_aset_same|]. eapply wp_board_update; [eapply aget_aset_same; by eapply aget_aset_same|].
  unfold sy_set_boards. simpl. by rewrite !aset_aset_eq.
Qed.

Lemma kcall2_reply_spec k r b s :
  aget (boards s) k = Some b ->
  wp (kcall2_reply k r) (fun _ s' =>
    s' = sy_set_boards (aset k (Sysboard (sb_args b) (sb_nr b) (to_word (to_int r)) (sb_sem b + 1) false) (boards s)) s) s.
Proof.
  intros Hb. unfold kcall2_reply. wp_step. eapply wp_board_update; [exact Hb|]. wp_step.
  eapply wp_board_update; [by eapply aget_aset_same|]. eapply wp_board_update; [eapply aget_aset_same; by eapply aget_aset_same|].
  unfold sy_set_boards. simpl. by rewrite !aset_aset_eq.
Qed.

Lemma kcall_finish_spec k a nr b s :
  aget (boards s) k = Some b -> 0 < sb_sem b ->
  wp (kcall_finish k a nr) (fun v s' => v = to_int (sb_ret b) /\ exists x,
    s' = sy_set_kernel x (sy_set_boards (aset k (Sysboard (sb_args b) (sb_nr b) (sb_ret b) (sb_sem b - 1) (sb_pending b)) (boards s)) s)) s.
Proof.
  intros Hb Hp. unfold kcall_finish. wp_step. eapply wp_board_read; [exact Hb|]. wp_step; [lia|].
  wp_step. eapply wp_board_update; [exact Hb|]. wp_step. eapply wp_board_read; [by eapply aget_aset_same|]. wp_step.
  wp_step.
  - wp_step. unfold in_kernel. eapply wp_zoom; [done|]. destruct (local_inval_returns k (arg0 a) (sy_kernel s)) as (r & x' & E).
    unfold wp. simpl. rewrite E. simpl. split; [done|]. by exists x'.
  - do 2 wp_step. split; [done|]. exists (sy_kernel s). by destruct s.
Qed.

Lemma in_kernel_Done {A} (m : K kernel A) s r s' :
  in_kernel m s = Done r s' -> exists x, s' = sy_set_kernel x s.
Proof.
  unfold in_kernel, kzoom. destruct (m (sy_kernel s)) as [r' x| | |]; try done. intros [= <- <-]. by exists x.
Qed.

Lemma kcall2_run_Done k s r s' : kcall2_run k s = Done r s' -> exists x, s' = sy_set_kernel x s.
Proof.
  unfold kcall2_run, board_read, mbind, K_bind, kgets. destruct (aget (boards s) k); [|done]. simpl. apply in_kernel_Done.
Qed.

(** The sweep visits the cores in a circle from [sys_next_coreid] on. *)
Definition ahead (s : sys) (k : Z) : Z := (k - sys_next_coreid s) `mod` CORES_NUM.

Lemma circle_small n d : - n < d < n -> d `mod` n = if d <? 0 then d + n else d.
Proof.
  intros Hd. destruct (d <? 0) eqn:E.
  - rewrite <- (Z_mod_plus_full d 1 n). rewrite Z.mod_small; lia.
  - rewrite Z.mod_small; lia.
Qed.

Lemma circle_step n i k :
  0 ≤ i < n -> 0 ≤ k < n -> k <> i -> (k - (i + 1) `mod` n) `mod` n = (k - i) `mod` n - 1.
Proof.
  intros Hi Hk Hne. rewrite (circle_small n (k - i)) by lia. destruct (decide (i + 1 = n)) as [<-|Hn].
  - rewrite Z.mod_same, circle_small by lia. repeat case_match; lia.
  - rewrite (Z.mod_small (i + 1)), circle_small by lia. repeat case_match; lia.
Qed.

Lemma sweep_spec n s :
  alen (boards s) = CORES_NUM -> 0 ≤ sys_next_coreid s < CORES_NUM ->
  (exists k b, aget (boards s) k = Some b /\ sb_pending b = true /\ ahead s k < Z.of_nat n) ->
  wp (sweep n) (fun k s' => exists b, aget (boards s) k = Some b /\ sb_pending b = true /\
    s' = sy_set_next ((k + 1) `mod` CORES_NUM) s /\
    forall k' b', aget (boards s) k' = Some b' -> sb_pending b' = true -> ahead s k ≤ ahead s k') s.
Proof.
  revert s. induction n as [|n IH]; intros s Hl Hn (k & b & Hb & Hp & Hlt).
  - exfalso. unfold ahead in Hlt. pose proof (Z.mod_pos_bound (k - sys_next_coreid s) CORES_NUM). lia.
  - simpl. do 2 wp_step. destruct (aget_is_Some (boards s) (sys_next_coreid s)) as [b0 Hb0]; [lia|].
    wp_step. eapply wp_board_read; [exact Hb0|]. do 2 wp_step. wp_step.
    + wp_step. exists b0. split_and!; try done. intros k' b' _ _. unfold ahead at 1.
      rewrite Z.sub_diag, Z.mod_0_l by lia. apply Z.mod_pos_bound. lia.
    + set (s1 := sy_set_next ((sys_next_coreid s + 1) `mod` CORES_NUM) s).
      assert (Hahead : forall k' b', aget (boards s) k' = Some b' -> sb_pending b' = true -> ahead s1 k' = ahead s k' - 1).
      { intros k' b' Hk' Hp'. pose proof (aget_lt _ _ _ Hk') as Hr. rewrite Hl in Hr.
        apply circle_step; [lia|lia|]. intros ->. congruence. }
      eapply wp_mono; [apply (IH s1)|]; [done|apply Z.mod_pos_bound; lia| |].
      * exists k, b. split_and!; try done. rewrite (Hahead k b Hb Hp). lia.
      * intros k1 s2 (b1 & Hb1 & Hp1 & -> & Hmin). exists b1. split_and!; try done.
        intros k' b' Hk' Hp'. specialize (Hmin k' b' Hk' Hp'). rewrite (Hahead k1 b1), (Hahead k' b') in Hmin by done. lia.
Qed.

Lemma board_of c k p : sys_ok c -> aget (sc_phase c) k = Some p ->
  exists b, aget (boards (sc_sys c)) k = Some b /\ board_ok b p.
Proof.
  intros Hok Hp. pose proof (aget_lt _ _ _ Hp) as Hr. rewrite (so_phases _ Hok), <- (so_boards _ Hok) in Hr.
  destruct (aget_is_Some _ _ Hr) as [b Hb]. exists b. split; [done|]. by apply (so_board _ Hok k).
Qed.

Lemma phase_of c k b : sys_ok c -> aget (boards (sc_sys c)) k = Some b ->
  exists p, aget (sc_phase c) k = Some p /\ board_ok b p.
Proof.
  intros Hok Hb. pose proof (aget_lt _ _ _ Hb) as Hr. rewrite (so_boards _ Hok), <- (so_phases _ Hok) in Hr.
  destruct (aget_is_Some _ _ Hr) as [p Hp]. exists p. split; [done|]. by apply (so_board _ Hok k).
Qed.

Lemma board_pending b p : board_ok b p -> sb_pending b = true <-> is_Some (wants p).
Proof. destruct p; simpl; intros Hb; destruct Hb as [Hp _]; rewrite Hp; split; try done; by intros [? ?]. Qed.

(** Taking a signal: the master core finds the request that is nearest in the circle. *)
Lemma kcall2_take_spec c :
  sys_ok c -> sc_master c = None -> 0 < sy_sem (sc_sys c) ->
  wp kcall2_take (fun k s' => (exists p, aget (sc_phase c) k = Some p /\ is_Some (wants p)) /\
    s' = sy_set_next ((k + 1) `mod` CORES_NUM) (sy_set_sem (sy_sem (sc_sys c) - 1) (sc_sys c)) /\
    forall k' p', aget (sc_phase c) k' = Some p' -> is_Some (wants p') -> ahead (sc_sys c) k ≤ ahead (sc_sys c) k') (sc_sys c).
Proof.
  intros Hok Hm Hpos. pose proof (so_count _ Hok) as Hc. rewrite Hm in Hc. pose proof (countb_nonneg is_early (sc_phase c)).
  destruct (search is_called (sc_phase c)) as [k|] eqn:Es.
  2:{ apply search_None, countb_zero in Es. lia. }
  apply search_Some in Es as (_ & (p & Hp & Hcalled) & _). destruct (board_of c k p Hok Hp) as (b & Hb & Hbp).
  pose proof (so_next _ Hok) as Hn. unfold kcall2_take. do 2 wp_step. wp_step; [lia|]. do 2 wp_step.
  eapply wp_mono; [apply (sweep_spec (Z.to_nat CORES_NUM) (sy_set_sem (sy_sem (sc_sys c) - 1) (sc_sys c)))|].
  - apply Hok.
  - apply Hok.
  - exists k, b. split_and!; [done|apply (board_pending b p Hbp); by destruct p|].
    unfold ahead. pose proof (Z.mod_pos_bound (k - sys_next_coreid (sc_sys c)) CORES_NUM). simpl. lia.
  - intros k1 s' (b1 & Hb1 & Hp1 & -> & Hmin). destruct (phase_of c k1 b1 Hok Hb1) as (p1 & Hph1 & Hbp1). split_and!; try done.
    + exists p1. split; [done|]. by apply (board_pending b1 p1 Hbp1).
    + intros k' p' Hp' Hw. destruct (board_of c k' p' Hok Hp') as (b' & Hb' & Hbp'). apply (Hmin k' b' Hb').
      by apply (board_pending b' p' Hbp').
Qed.

Lemma kcall2_take_Done s k s' : kcall2_take s = Done k s' -> 0 < sy_sem s.
Proof.
  unfold kcall2_take, mbind, K_bind, kgets. destruct (sy_sem s <=? 0) eqn:E; [done|]. lia.
Qed.

(** ** Every step keeps the invariant *)

(** A change of the board and of the phase of one core. *)
Lemma sys_ok_core c k b p b' p' sem next x m xs ys :
  sys_ok c -> aget (boards (sc_sys c)) k = Some b -> aget (sc_phase c) k = Some p -> board_ok b' p' ->
  0 ≤ next < CORES_NUM ->
  (forall k' o, m = Some (k', o) -> exists p0, aget (aset k p' (sc_phase c)) k' = Some p0 /\ is_Some (wants p0)) ->
  sem = countb is_called (sc_phase c) - Z.b2z (is_called p) + Z.b2z (is_called p') -
        (countb is_early (sc_phase c) - Z.b2z (is_early p) + Z.b2z (is_early p')) - (if m is Some _ then 1 else 0) ->
  (forall k' p0, k' <> k -> aget (sc_phase c) k' = Some p0 -> log_of k' xs = log_of k' ys ++ running k' p0 m) ->
  log_of k xs = log_of k ys ++ running k p' m ->
  sys_ok (SysConfig (Sys sem (aset k b' (boards (sc_sys c))) next x) (aset k p' (sc_phase c)) m xs ys).
Proof.
  intros Hok Hb Hp Hbp Hn Hm Hsem Hlog Hlogk. split; simpl.
  - rewrite length_aset. apply Hok.
  - rewrite length_aset. apply Hok.
  - done.
  - intros k0 b0 p0 Hb0 Hp0. destruct (decide (k0 = k)) as [->|Hne].
    + rewrite (aget_aset_same _ _ _ _ Hb) in Hb0. rewrite (aget_aset_same _ _ _ _ Hp) in Hp0. by simplify_eq.
    + rewrite aget_aset_ne in Hb0 by done. rewrite aget_aset_ne in Hp0 by done. by apply (so_board _ Hok k0).
  - done.
  - rewrite !(countb_aset _ _ _ p p') by done. lia.
  - intros k0 p0 Hp0. destruct (decide (k0 = k)) as [->|Hne].
    + rewrite (aget_aset_same _ _ _ _ Hp) in Hp0. by injection Hp0 as <-.
    + rewrite aget_aset_ne in Hp0 by done. by apply Hlog.
Qed.

Lemma master_other c k p : sys_ok c -> aget (sc_phase c) k = Some p -> wants p = None ->
  forall o, sc_master c <> Some (k, o).
Proof.
  intros Hok Hp Hw o Hm. destruct (so_master _ Hok k o Hm) as (p' & Hp' & [q Hq]). congruence.
Qed.

Lemma running_other k p m : (forall o, m <> Some (k, o)) -> wants p <> None -> running k p m = [].
Proof.
  destruct p as [|q|q|q r|q r]; try done; simpl; intros Hm _; destruct m as [[k' [r|]]|]; try done;
    destruct (Z.eqb_spec k' k) as [->|]; try done; by destruct (Hm (Some r)).
Qed.

Lemma log_of_app k l l' : log_of k (l ++ l') = log_of k l ++ log_of k l'.
Proof. apply List.filter_app. Qed.

Lemma call_post_ok c k a nr s' :
  sys_ok c -> aget (sc_phase c) k = Some Free -> kcall_post k a nr (sc_sys c) = Done tt s' ->
  sys_ok (SysConfig s' (aset k (Posted (a, nr)) (sc_phase c)) (sc_master c) (sc_runs c) (sc_rets c)).
Proof.
  intros Hok Hp E. destruct (board_of c k _ Hok Hp) as (b & Hb & Hbp).
  pose proof (wp_Done _ _ _ _ _ E (kcall_post_spec k a nr b _ Hb)) as ->. simpl.
  pose proof (master_other c k _ Hok Hp eq_refl) as Hm. unfold sy_set_boards.
  eapply sys_ok_core; try done.
  - by destruct Hbp as [_ ->].
  - apply Hok.
  - intros k' o Hk'. destruct (so_master _ Hok k' o Hk') as (p' & Hp' & Hw). exists p'.
    rewrite aget_aset_ne; [done|]. intros ->. by apply (Hm o).
  - rewrite (so_count _ Hok). simpl. lia.
  - intros k' p' Hne Hp'. by apply (so_log _ Hok).
  - rewrite running_other by done. by rewrite (so_log _ Hok k _ Hp).
Qed.

Lemma call_signal_ok c k p s' :
  sys_ok c -> aget (sc_phase c) k = Some p -> signalled p <> p -> kcall_signal (sc_sys c) = Done tt s' ->
  sys_ok (SysConfig s' (aset k (signalled p) (sc_phase c)) (sc_master c) (sc_runs c) (sc_rets c)).
Proof.
  intros Hok Hp Hne E. destruct (board_of c k _ Hok Hp) as (b & Hb & Hbp). injection E as <-.
  unfold sy_set_sem. rewrite <- (aset_id _ _ _ Hb). eapply sys_ok_core; try done.
  - by destruct p.
  - apply Hok.
  - intros k' o Hk'. destruct (so_master _ Hok k' o Hk') as (p' & Hp' & Hw).
    destruct (decide (k' = k)) as [->|Hd]; [|exists p'; by rewrite aget_aset_ne].
    exists (signalled p). rewrite (aget_aset_same _ _ _ _ Hp). split; [done|].
    rewrite Hp in Hp'. injection Hp' as <-. by destruct p.
  - rewrite (so_count _ Hok). destruct p; simpl in *; try done; lia.
  - intros k' p' Hd Hp'. by apply (so_log _ Hok).
  - rewrite (so_log _ Hok k _ Hp). by destruct p.
Qed.

Lemma call_finish_ok c k a nr r v s' :
  sys_ok c -> aget (sc_phase c) k = Some (Answered (a, nr) r) -> kcall_finish k a nr (sc_sys c) = Done v s' ->
  v = r /\ sys_ok (SysConfig s' (aset k Free (sc_phase c)) (sc_master c) (sc_runs c) (sc_rets c ++ [(k, (a, nr), v)])).
Proof.
  intros Hok Hp E. destruct (board_of c k _ Hok Hp) as (b & Hb & Hpend & Hsem & Hret).
  destruct (wp_Done _ _ _ _ _ E (kcall_finish_spec k a nr b _ Hb ltac:(lia))) as (-> & x & ->).
  pose proof (master_other c k _ Hok Hp eq_refl) as Hm. split; [done|]. unfold sy_set_kernel, sy_set_boards. simpl.
  eapply sys_ok_core; try done.
  - simpl. rewrite Hsem. split; [done|lia].
  - apply Hok.
  - intros k' o Hk'. destruct (so_master _ Hok k' o Hk') as (p' & Hp' & Hw). exists p'.
    rewrite aget_aset_ne; [done|]. intros ->. by apply (Hm o).
  - rewrite (so_count _ Hok). simpl. lia.
  - intros k' p' Hne Hp'. rewrite log_of_app. simpl. rewrite (proj2 (Z.eqb_neq k k')) by done. rewrite app_nil_r.
    by apply (so_log _ Hok).
  - rewrite log_of_app. simpl. rewrite Z.eqb_refl, app_nil_r. rewrite (so_log _ Hok k _ Hp). simpl. by rewrite Hret.
Qed.

Lemma call_take_ok c k s' :
  sys_ok c -> sc_master c = None -> kcall2_take (sc_sys c) = Done k s' ->
  sys_ok (SysConfig s' (sc_phase c) (Some (k, None)) (sc_runs c) (sc_rets c)).
Proof.
  intros Hok Hm E. pose proof (kcall2_take_Done _ _ _ E) as Hpos. pose proof (so_next _ Hok) as Hn.
  destruct (wp_Done _ _ _ _ _ E (kcall2_take_spec c Hok Hm Hpos)) as (Hk & -> & _).
  destruct Hok as [H1 H2 H3 H4 H5 H6 H7]. rewrite Hm in *. split; simpl; try done.
  - apply Z.mod_pos_bound. lia.
  - by intros k' o [= <- <-].
  - lia.
Qed.

Lemma call_run_ok c k b r s' :
  sys_ok c -> sc_master c = Some (k, None) -> aget (boards (sc_sys c)) k = Some b -> kcall2_run k (sc_sys c) = Done r s' ->
  sys_ok (SysConfig s' (sc_phase c) (Some (k, Some r)) (sc_runs c ++ [(k, (sb_args b, sb_nr b), to_int r)]) (sc_rets c)).
Proof.
  intros Hok Hm Hb E. destruct (kcall2_run_Done _ _ _ _ E) as [x ->].
  destruct (so_master _ Hok k None Hm) as (p & Hp & [q Hq]). destruct (phase_of c k b Hok Hb) as (p' & Hp' & Hbp).
  rewrite Hp in Hp'. injection Hp' as <-.
  destruct Hok as [H1 H2 H3 H4 H5 H6 H7]. rewrite Hm in *. split; simpl; try done.
  - intros k' o [= <- <-]. by eauto.
  - intros k' p' Hp'. rewrite log_of_app, (H7 k' p' Hp'). simpl.
    destruct (Z.eqb_spec k k') as [<-|Hne].
    + rewrite Hp in Hp'. injection Hp' as <-. destruct p; try done; simpl in *; destruct Hbp as (_ & _ & ->);
        by rewrite Z.eqb_refl, app_nil_r.
    + rewrite app_nil_r. f_equal. destruct p'; simpl; try done; by rewrite (proj2 (Z.eqb_neq k k')) by done.
Qed.

Lemma call_reply_ok c k p r s' :
  sys_ok c -> sc_master c = Some (k, Some r) -> aget (sc_phase c) k = Some p -> kcall2_reply k r (sc_sys c) = Done tt s' ->
  sys_ok (SysConfig s' (aset k (answered (to_int r) p) (sc_phase c)) None (sc_runs c) (sc_rets c)).
Proof.
  intros Hok Hm Hp E. destruct (board_of c k p Hok Hp) as (b & Hb & Hbp).
  destruct (so_master _ Hok k _ Hm) as (p' & Hp' & [q Hq]). rewrite Hp in Hp'. injection Hp' as <-.
  pose proof (wp_Done _ _ _ _ _ E (kcall2_reply_spec k r b _ Hb)) as ->. unfold sy_set_boards. simpl.
  eapply sys_ok_core; try done.
  - destruct p; try done; simpl in *; destruct Hbp as (_ & -> & _); split_and!; try done; apply to_int_word.
  - apply Hok.
  - rewrite (so_count _ Hok), Hm. destruct p; try done; simpl; lia.
  - intros k' p' Hne Hp'. rewrite (so_log _ Hok k' p' Hp'), Hm. f_equal.
    destruct p'; try done; simpl; by rewrite (proj2 (Z.eqb_neq k k')) by done.
  - rewrite (so_log _ Hok k p Hp), Hm. destruct p; try done; simpl; by rewrite Z.eqb_refl.
Qed.

Lemma sys_step_ok c c' : sys_ok c -> sys_step c c' -> sys_ok c'.
Proof.
  intros Hok Hst. destruct Hst as [k a nr s s' ph m xs ys Hp _ E|k p s s' ph m xs ys Hp Hne E|k a nr r v s s' ph m xs ys Hp E
    |k s s' ph xs ys E|k b r s s' ph xs ys Hb E|k p r s s' ph xs ys Hp E|x s ph m xs ys].
  - by apply (call_post_ok (SysConfig s ph m xs ys)).
  - by apply (call_signal_ok (SysConfig s ph m xs ys)).
  - by eapply (call_finish_ok (SysConfig s ph m xs ys)).
  - by apply (call_take_ok (SysConfig s ph None xs ys)).
  - by apply (call_run_ok (SysConfig s ph (Some (k, None)) xs ys)).
  - by apply (call_reply_ok (SysConfig s ph (Some (k, Some r)) xs ys)).
  - destruct Hok. by split.
Qed.

(** ** Initialisation *)

Definition sys_static (s : sys) : Prop :=
  alen (boards s) = CORES_NUM /\ 0 < CORES_NUM /\ sy_sem s = 0 /\ sys_next_coreid s = 0.

Definition sys_initial (s : sys) : sys_config :=
  SysConfig s (replicate (Z.to_nat CORES_NUM) Free) None [] [].

Lemma countb_replicate {A} (P : A -> bool) n x : P x = false -> countb P (replicate n x) = 0.
Proof. intros Hx. apply countb_zero. by apply Forall_replicate. Qed.

Lemma syscall_init_spec s : sys_static s -> wp syscall_init (fun _ s0 => sys_ok (sys_initial s0)) s.
Proof.
  intros (Hl & Hc & Hsem & Hnext). unfold syscall_init.
  apply (wp_kfor (fun i _ s' => sys_static s' /\ forall k b, k < i -> aget (boards s') k = Some b -> board_ok b Free)).
  - split; [done|]. intros k b Hk Hb. apply aget_lt in Hb. lia.
  - intros i [] s1 Hi ((Hl1 & _ & Hs1 & Hn1) & Hpre). destruct (aget_is_Some (boards s1) i) as [b Hb]; [lia|].
    wp_step. eapply wp_board_update; [exact Hb|]. wp_step. split; [split_and!; try done; simpl; by rewrite length_aset|].
    intros k b' Hk Hb'. simpl in Hb'. destruct (decide (k = i)) as [->|Hne].
    + rewrite (aget_aset_same _ _ _ _ Hb) in Hb'. by injection Hb' as <-.
    + rewrite aget_aset_ne in Hb' by done. apply (Hpre k b'); [lia|done].
  - intros [] s1 ((Hl1 & _ & Hs1 & Hn1) & Hpre). split; simpl; try done.
    + rewrite length_replicate. lia.
    + lia.
    + intros k b p Hb Hp. apply aget_replicate in Hp as ->. apply (Hpre k b); [|done]. apply aget_lt in Hb. lia.
    + rewrite !countb_replicate by done. lia.
    + intros k p Hp. by apply aget_replicate in Hp as ->.
Qed.

Lemma sys_reach_ok s c : sys_ok (sys_initial s) -> rtc sys_step (sys_initial s) c -> sys_ok c.
Proof.
  generalize (sys_initial s). intros c0 Hok Hrtc. induction Hrtc; [done|]. by eapply IHHrtc, sys_step_ok.
Qed.

(** ** The theorems *)

(** (C5) In every interleaving of the cores and the master core, the calls of a core
    that were run are the calls that returned to it, in this order and with the results
    of those runs, followed by the call in service: each call is run exactly once.  The
    master core, when it takes a signal, always finds a request; a core whose call was
    answered returns with the result; and as long as a core waits, the master core is
    at work, or has a signal to take, or another core is about to signal. *)
Theorem kcall_exactly_once s :
  sys_static s ->
  wp syscall_init (fun _ s0 => forall c, rtc sys_step (sys_initial s0) c ->
    (forall k p, aget (sc_phase c) k = Some p ->
      log_of k (sc_runs c) = log_of k (sc_rets c) ++ running k p (sc_master c)) /\
    (sc_master c = None -> 0 < sy_sem (sc_sys c) ->
      wp kcall2_take (fun k _ => exists p, aget (sc_phase c) k = Some p /\ is_Some (wants p)) (sc_sys c)) /\
    (forall k a nr r, aget (sc_phase c) k = Some (Answered (a, nr) r) ->
      wp (kcall_finish k a nr) (fun v _ => v = r) (sc_sys c)) /\
    (forall k q, aget (sc_phase c) k = Some (Called q) ->
      sc_master c <> None \/ 0 < sy_sem (sc_sys c) \/ exists k' q' r', aget (sc_phase c) k' = Some (Early q' r'))) s.
Proof.
  intros Hst. eapply wp_mono; [by apply syscall_init_spec|]. intros [] s0 Hok0 c Hrtc.
  pose proof (sys_reach_ok s0 c Hok0 Hrtc) as Hok. split_and!.
  - apply Hok.
  - intros Hm Hpos. eapply wp_mono; [by apply (kcall2_take_spec c)|]. by intros k s' [? _].
  - intros k a nr r Hp. destruct (board_of c k _ Hok Hp) as (b & Hb & _ & Hsem & Hret).
    eapply wp_mono; [apply (kcall_finish_spec k a nr b); [done|lia]|]. intros v s' [-> _]. done.
  - intros k q Hp. destruct (sc_master c) as [m|] eqn:Em; [by left|right].
    pose proof (so_count _ Hok) as Hcount. rewrite Em in Hcount.
    pose proof (countb_pos is_called _ _ _ Hp eq_refl). destruct (search is_early (sc_phase c)) as [k'|] eqn:Es.
    + right. apply search_Some in Es as (_ & (p & Hp' & He) & _). destruct p as [| | |q' r'|]; try done. by exists k', q', r'.
    + left. apply search_None, countb_zero in Es. lia.
Qed.

(** While core [k] has a request on the board. *)
Definition on_board (k : Z) (c : sys_config) : Prop :=
  exists p, aget (sc_phase c) k = Some p /\ is_Some (wants p).
Definition wait_step (k : Z) (c c' : sys_config) : Prop := sys_step c c' /\ on_board k c /\ on_board k c'.

(** How many calls can be run before core [k] is answered. *)
Definition turns (k : Z) (c : sys_config) : Z :=
  match sc_master c with
  | None => ahead (sc_sys c) k + 1
  | Some (k', None) => if k' =? k then 1 else ahead (sc_sys c) k + 2
  | Some (k', Some _) => if k' =? k then 0 else ahead (sc_sys c) k + 1
  end.

Lemma ahead_take k k' s :
  0 ≤ sys_next_coreid s < CORES_NUM -> 0 ≤ k < CORES_NUM -> 0 ≤ k' < CORES_NUM -> k' <> k -> ahead s k' ≤ ahead s k ->
  ahead (sy_set_next ((k' + 1) `mod` CORES_NUM) s) k + 1 ≤ ahead s k.
Proof.
  intros Hn Hk Hk' Hne Hle. unfold ahead in *. simpl. rewrite circle_step by done.
  rewrite !circle_small in * by lia. repeat case_match; lia.
Qed.

Lemma turns_step k c c' :
  sys_ok c -> wait_step k c c' -> alen (sc_runs c') + turns k c' ≤ alen (sc_runs c) + turns k c.
Proof.
  intros Hok (Hst & (pk & Hpk & Hwk) & (pk' & Hpk' & Hwk')). unfold turns.
  assert (Hr : 0 ≤ k < CORES_NUM) by (rewrite <- (so_phases _ Hok); by eapply aget_lt).
  destruct Hst as [k1 a nr s s' ph m xs ys Hp _ E|k1 p s s' ph m xs ys Hp Hne E|k1 a nr r v s s' ph m xs ys Hp E
    |k1 s s' ph xs ys E|k1 b r s s' ph xs ys Hb E|k1 p r s s' ph xs ys Hp E|x s ph m xs ys]; simpl in *; unfold ahead in *.
  - destruct (board_of _ k1 _ Hok Hp) as (b & Hb & _). by rewrite (wp_Done _ _ _ _ _ E (kcall_post_spec k1 a nr b _ Hb)).
  - by injection E as <-.
  - destruct (board_of _ k1 _ Hok Hp) as (b & Hb & _ & Hsem & _).
    by destruct (wp_Done _ _ _ _ _ E (kcall_finish_spec k1 a nr b _ Hb ltac:(lia))) as (_ & x & ->).
  - pose proof (kcall2_take_Done _ _ _ E) as Hpos.
    destruct (wp_Done _ _ _ _ _ E (kcall2_take_spec _ Hok eq_refl Hpos)) as ((p1 & Hp1 & _) & -> & Hmin). simpl in *.
    pose proof (Z.mod_pos_bound (k - sys_next_coreid s) CORES_NUM). destruct (Z.eqb_spec k1 k); [lia|].
    pose proof (ahead_take k k1 s (so_next _ Hok) Hr) as Ha. unfold ahead in *. simpl in *.
    assert (0 ≤ k1 < CORES_NUM) by (rewrite <- (so_phases _ Hok); by eapply aget_lt). specialize (Hmin k pk Hpk Hwk). lia.
  - destruct (kcall2_run_Done _ _ _ _ E) as [x ->]. simpl. rewrite length_app. simpl. destruct (k1 =? k); lia.
  - destruct (board_of _ k1 _ Hok Hp) as (b & Hb & _). rewrite (wp_Done _ _ _ _ _ E (kcall2_reply_spec k1 r b _ Hb)). simpl.
    destruct (Z.eqb_spec k1 k) as [->|]; [|lia]. rewrite (aget_aset_same _ _ _ _ Hp) in Hpk'. injection Hpk' as <-.
    destruct p, Hwk'; simpl in *; done.
  - done.
Qed.

(** (C17) The sweep is fair: while the request of a core is on the board, at most
    [CORES_NUM + 1] calls are run, whatever the other cores do. *)
Theorem kcall_fair s c c' k :
  sys_static s ->
  wp syscall_init (fun _ s0 => rtc sys_step (sys_initial s0) c -> rtc (wait_step k) c c' ->
    alen (sc_runs c') ≤ alen (sc_runs c) + CORES_NUM + 1) s.
Proof.
  intros Hst. eapply wp_mono; [by apply syscall_init_spec|]. intros [] s0 Hok0 Hrtc Hwait.
  pose proof (sys_reach_ok s0 c Hok0 Hrtc) as Hok.
  assert (Hle : forall d, 0 < CORES_NUM -> 0 ≤ turns k d ≤ CORES_NUM + 1).
  { intros d Hd. unfold turns, ahead. pose proof (Z.mod_pos_bound (k - sys_next_coreid (sc_sys d)) CORES_NUM).
    destruct (sc_master d) as [[k1 [r|]]|]; try case_match; lia. }
  assert (Hmono : alen (sc_runs c') + turns k c' ≤ alen (sc_runs c) + turns k c).
  { clear Hrtc. induction Hwait as [|c1 c2 c3 Hw _ IH]; [lia|]. pose proof (turns_step k c1 c2 Hok Hw).
    specialize (IH (sys_step_ok _ _ Hok (proj1 Hw))). lia. }
  destruct Hst as (_ & Hc & _). pose proof (Hle c Hc). pose proof (Hle c' Hc). lia.
Qed.

End spec.
