(* ===== verification/Sync.v ===== *)
(** Synchronization points (src/kernel/noc/sync.c).

    A synchronization point is shared by all who create or open it with the same nodes
    and mode, and counts them.  One lock protects the table and the counters; it is
    released while the hardware waits or signals, so [_do_sync_operate] is the sequence
    of [sync_operate_begin], [sync_operate_hw] and [sync_operate_end], and operations
    of several threads interleave there.  The calls to the hardware and the pool of
    resources belong to the HAL and are the classes [SyncHw] and [ResourcePool]. *)

From S2P Require Import Prelude.
From S2P Require Import Hlib.
From S2P Require Import MemLayout.
From S2P Require Import Active.
From S2P Require Import Communicator.

(** ** The HAL *)

Class SyncHw `{NocHw} := {
  SYNC_CREATE_MAX : Z;
  SYNC_OPEN_MAX : Z;
  sync_create : list Z -> Z -> Z -> hw -> Z * hw;
  sync_open : list Z -> Z -> Z -> hw -> Z * hw;
  sync_unlink : Z -> hw -> Z * hw;
  sync_close : Z -> hw -> Z * hw;
  sync_wait : Z -> hw -> Z * hw;
  sync_signal : Z -> hw -> Z * hw;
}.

(** Pools of resources: [resource_alloc] takes an unused entry and marks it as used and
    not busy, or fails when there is none; [resource_free] marks an entry as unused. *)
Class ResourcePool `{Hlib} := {
  resource_alloc : list resource -> Z * list resource;
  resource_free : Z -> list resource -> list resource;
}.

Class ResourcePoolLaws `(RP : ResourcePool) : Prop := {
  resource_alloc_cases rs :
    let (i, rs') := resource_alloc rs in
    (i < 0 /\ rs' = rs /\ Forall (fun r => resource_is_used r = true) rs) \/
    (exists r r', aget rs i = Some r /\ resource_is_used r = false /\ rs' = aset i r' rs /\
       resource_is_used r' = true /\ resource_is_busy r' = false);
  resource_free_spec rs i r : aget rs i = Some r ->
    exists r', resource_free i rs = aset i r' rs /\ resource_is_used r' = false;
}.

(** ** Data *)

Definition VSYNC_TYPE_INPUT : Z := 0.
Definition VSYNC_TYPE_OUTPUT : Z := 1.

Definition KSYNC_IOCTL_GET_LATENCY : Z := 2.
Definition KSYNC_IOCTL_GET_NCREATES : Z := 3.
Definition KSYNC_IOCTL_GET_NUNLINKS : Z := 4.
Definition KSYNC_IOCTL_GET_NOPENS : Z := 5.
Definition KSYNC_IOCTL_GET_NCLOSES : Z := 6.
Definition KSYNC_IOCTL_GET_NWAITS : Z := 9.
Definition KSYNC_IOCTL_GET_NSIGNALS : Z := 10.
Definition KSYNC_MAX : Z := 128.

Record sync_counters := SyncCounters {
  sc_ncreates : Z;
  sc_nunlinks : Z;
  sc_nopens : Z;
  sc_ncloses : Z;
  sc_nwaits : Z;
  sc_nsignals : Z;
}.

Record sync `{Hlib} := Sync {
  sy_resource : resource;
  hwfd : Z;
  refcount : Z;
  sy_mode : Z;
  sy_master : Z;
  sy_nodeslist : Z;
  sy_latency : Z;
}.
Arguments Sync {_} sy_resource hwfd refcount sy_mode sy_master sy_nodeslist sy_latency.

Record syncs `{Hlib} `{NocHw} := Syncs {
  sy_hw : hw;
  vsynctab : list sync;
  vsync_counters : sync_counters;
  vsync_lock : spinlock_t;
  sy_umem : gmap Z Z;
}.
Arguments Syncs {_ _} sy_hw vsynctab vsync_counters vsync_lock sy_umem.

Section sync.
Context `{H : Hlib} `{N : NocHw} {Y : SyncHw} {RP : ResourcePool} `{ML : MemLayout} (t : mm_target).
Context `{AB : Abi}.

Definition sy_set_resource (r : resource) (x : sync) : sync :=
  Sync r (hwfd x) (refcount x) (sy_mode x) (sy_master x) (sy_nodeslist x) (sy_latency x).
Definition sy_set_refcount (n : Z) (x : sync) : sync :=
  Sync (sy_resource x) (hwfd x) n (sy_mode x) (sy_master x) (sy_nodeslist x) (sy_latency x).
Definition sy_set_latency (n : Z) (x : sync) : sync :=
  Sync (sy_resource x) (hwfd x) (refcount x) (sy_mode x) (sy_master x) (sy_nodeslist x) n.

Definition sys_set_hw (h : hw) (s : syncs) : syncs :=
  Syncs h (vsynctab s) (vsync_counters s) (vsync_lock s) (sy_umem s).
Definition sys_set_tab (l : list sync) (s : syncs) : syncs :=
  Syncs (sy_hw s) l (vsync_counters s) (vsync_lock s) (sy_umem s).
Definition sys_set_counters (c : sync_counters) (s : syncs) : syncs :=
  Syncs (sy_hw s) (vsynctab s) c (vsync_lock s) (sy_umem s).
Definition sys_set_lock (b : spinlock_t) (s : syncs) : syncs :=
  Syncs (sy_hw s) (vsynctab s) (vsync_counters s) b (sy_umem s).
Definition sys_set_umem (m : gmap Z Z) (s : syncs) : syncs :=
  Syncs (sy_hw s) (vsynctab s) (vsync_counters s) (vsync_lock s) m.

Definition sc_inc_ncreates (c : sync_counters) : sync_counters :=
  SyncCounters (u64 (sc_ncreates c + 1)) (sc_nunlinks c) (sc_nopens c) (sc_ncloses c) (sc_nwaits c) (sc_nsignals c).
Definition sc_inc_nunlinks (c : sync_counters) : sync_counters :=
  SyncCounters (sc_ncreates c) (u64 (sc_nunlinks c + 1)) (sc_nopens c) (sc_ncloses c) (sc_nwaits c) (sc_nsignals c).
Definition sc_inc_nopens (c : sync_counters) : sync_counters :=
  SyncCounters (sc_ncreates c) (sc_nunlinks c) (u64 (sc_nopens c + 1)) (sc_ncloses c) (sc_nwaits c) (sc_nsignals c).
Definition sc_inc_ncloses (c : sync_counters) : sync_counters :=
  SyncCounters (sc_ncreates c) (sc_nunlinks c) (sc_nopens c) (u64 (sc_ncloses c + 1)) (sc_nwaits c) (sc_nsignals c).
Definition sc_inc_nwaits (c : sync_counters) : sync_counters :=
  SyncCounters (sc_ncreates c) (sc_nunlinks c) (sc_nopens c) (sc_ncloses c) (u64 (sc_nwaits c + 1)) (sc_nsignals c).
Definition sc_inc_nsignals (c : sync_counters) : sync_counters :=
  SyncCounters (sc_ncreates c) (sc_nunlinks c) (sc_nopens c) (sc_ncloses c) (sc_nwaits c) (u64 (sc_nsignals c + 1)).

Definition lock_sync : K syncs unit := spinlock_lock vsync_lock sys_set_lock.
Definition unlock_sync : K syncs unit := spinlock_unlock sys_set_lock.
Definition sync_read (i : Z) : K syncs sync :=
  kgets (fun s => aget (vsynctab s) i) ≫= fun o : option sync => kunwrap o.
Definition sync_update (i : Z) (f : sync -> sync) : K syncs unit :=
  x ← sync_read i;
  kmodify (fun s => sys_set_tab (aset i (f x) (vsynctab s)) s).
Definition sync_hw (f : hw -> Z * hw) : K syncs Z :=
  r ← kgets (fun s => f (sy_hw s));
  kmodify (sys_set_hw (snd r));;
  mret (fst r).

(** The resources of the table, as [vsyncpool] exposes them. *)
Definition set_resources (rs : list resource) (l : list sync) : list sync := zip_with sy_set_resource rs l.

Definition vsyncpool_alloc : K syncs Z :=
  r ← kgets (fun s => resource_alloc (map sy_resource (vsynctab s)));
  kmodify (fun s => sys_set_tab (set_resources (snd r) (vsynctab s)) s);;
  mret (fst r).

Definition vsyncpool_free (i : Z) : K syncs unit :=
  kmodify (fun s =>
    sys_set_tab (set_resources (resource_free i (map sy_resource (vsynctab s))) (vsynctab s)) s).

(** ** Lookup *)

(** The direction of a synchronization point fits [type]. *)
Definition sync_fits (type : Z) (x : sync) : bool :=
  if type =? VSYNC_TYPE_INPUT then resource_is_readable (sy_resource x)
  else resource_is_writable (sy_resource x).

Definition sync_matches (master nodeslist mode type : Z) (x : sync) : bool :=
  resource_is_used (sy_resource x) && sync_fits type x &&
  (sy_mode x =? mode) && (sy_master x =? master) && (sy_nodeslist x =? nodeslist).

Definition do_sync_search (master nodeslist mode type : Z) (tab : list sync) : Z :=
  match search (sync_matches master nodeslist mode type) tab with Some i => i | None => -1 end.

(** A shift by a negative amount, or by the width of the type or more, is undefined. *)
Fixpoint build_nodeslist (nodes : list Z) (nnodes : nat) (nodeslist : Z) : option Z :=
  match nnodes, nodes with
  | O, _ => Some nodeslist
  | S n, node :: nodes =>
      if (0 <=? node) && (node <? 64)
      then build_nodeslist nodes n (Z.lor nodeslist (Z.shiftl 1 node))
      else None
  | S _, [] => None
  end.

Definition sync_build_nodeslist (nodes : list Z) (nnodes : Z) : option Z :=
  build_nodeslist nodes (Z.to_nat nnodes) 0.

(** ** Creating and opening *)

Definition _do_sync_alloc (nodes : list Z) (nnodes mode type : Z)
  (do_alloc : list Z -> Z -> Z -> hw -> Z * hw) : K syncs Z :=
  nodeslist ← kunwrap (sync_build_nodeslist nodes nnodes);
  lock_sync;;
  master ← kunwrap (aget nodes 0);
  syncid ← kgets (fun s => do_sync_search master nodeslist mode type (vsynctab s));
  ret ← (
    if 0 <=? syncid then
      sync_update syncid (fun x => sy_set_refcount (refcount x + 1) x);;
      mret syncid
    else
      syncid ← vsyncpool_alloc;
      if syncid <? 0 then mret (err EAGAIN) else
      fd ← sync_hw (do_alloc nodes nnodes mode);
      if fd <? 0 then
        vsyncpool_free syncid;;
        mret fd
      else
        sync_update syncid (fun x => Sync (sy_resource x) fd 1 mode master nodeslist 0);;
        (if type =? VSYNC_TYPE_INPUT then
           sync_update syncid (fun x => sy_set_resource (resource_set_rdonly (sy_resource x)) x);;
           kmodify (fun s => sys_set_counters (sc_inc_ncreates (vsync_counters s)) s)
         else
           sync_update syncid (fun x => sy_set_resource (resource_set_wronly (sy_resource x)) x);;
           kmodify (fun s => sys_set_counters (sc_inc_nopens (vsync_counters s)) s));;
        mret syncid);
  unlock_sync;;
  mret ret.

Definition do_vsync_create (nodes : list Z) (nnodes mode : Z) : K syncs Z :=
  _do_sync_alloc nodes nnodes mode VSYNC_TYPE_INPUT sync_create.
Definition do_vsync_open (nodes : list Z) (nnodes mode : Z) : K syncs Z :=
  _do_sync_alloc nodes nnodes mode VSYNC_TYPE_OUTPUT sync_open.

(** ** Releasing *)

Definition _do_sync_release (syncid type : Z) (do_release : Z -> hw -> Z * hw) : K syncs Z :=
  lock_sync;;
  x ← sync_read syncid;
  ret ← (
    if negb (resource_is_used (sy_resource x)) then mret (err EBADF) else
    if negb (sync_fits type x) then mret (err EBADF) else
    if resource_is_busy (sy_resource x) then mret (err EBUSY) else
    sync_update syncid (fun x => sy_set_refcount (refcount x - 1) x);;
    if refcount x - 1 =? 0 then
      r ← sync_hw (do_release (hwfd x));
      if r <? 0 then mret r else
      sync_update syncid (fun x => Sync (sy_resource x) (-1) (refcount x) (sy_mode x) (-1) 0 (sy_latency x));;
      kmodify (fun s => sys_set_counters
        ((if type =? VSYNC_TYPE_INPUT then sc_inc_nunlinks else sc_inc_ncloses) (vsync_counters s)) s);;
      vsyncpool_free syncid;;
      mret 0
    else mret 0);
  unlock_sync;;
  mret ret.

Definition do_vsync_unlink (syncid : Z) : K syncs Z := _do_sync_release syncid VSYNC_TYPE_INPUT sync_unlink.
Definition do_vsync_close (syncid : Z) : K syncs Z := _do_sync_release syncid VSYNC_TYPE_OUTPUT sync_close.

(** ** Waiting and signalling *)

(** Up to the release of the lock; [0] when the operation goes on. *)
Definition sync_operate_begin (syncid type : Z) : K syncs Z :=
  lock_sync;;
  x ← sync_read syncid;
  ret ← (
    if negb (resource_is_used (sy_resource x)) then mret (err EBADF) else
    if negb (sync_fits type x) then mret (err EBADF) else
    if resource_is_busy (sy_resource x) then mret (err EBUSY) else
    sync_update syncid (fun x => sy_set_resource (resource_set_busy (sy_resource x)) x);;
    mret 0);
  unlock_sync;;
  mret ret.

(** Without the lock: the result of the hardware and the time it took. *)
Definition sync_operate_hw (syncid : Z) (do_operation : Z -> hw -> Z * hw) : K syncs (Z * Z) :=
  t1 ← sync_hw clock_read;
  x ← sync_read syncid;
  ret ← sync_hw (do_operation (hwfd x));
  t2 ← sync_hw clock_read;
  mret (ret, u64 (t2 - t1)).

Definition sync_operate_end (syncid type : Z) (r : Z * Z) : K syncs Z :=
  lock_sync;;
  (if 0 <=? fst r then
     sync_update syncid (fun x => sy_set_latency (u64 (sy_latency x + snd r)) x);;
     kmodify (fun s => sys_set_counters
       ((if type =? VSYNC_TYPE_INPUT then sc_inc_nwaits else sc_inc_nsignals) (vsync_counters s)) s)
   else mret tt);;
  sync_update syncid (fun x => sy_set_resource (resource_set_notbusy (sy_resource x)) x);;
  unlock_sync;;
  mret (fst r).

Definition _do_sync_operate (syncid type : Z) (do_operation : Z -> hw -> Z * hw) : K syncs Z :=
  ret ← sync_operate_begin syncid type;
  if ret <? 0 then mret ret else
  r ← sync_operate_hw syncid do_operation;
  sync_operate_end syncid type r.

Definition do_vsync_wait (syncid : Z) : K syncs Z := _do_sync_operate syncid VSYNC_TYPE_INPUT sync_wait.
Definition do_vsync_signal (syncid : Z) : K syncs Z := _do_sync_operate syncid VSYNC_TYPE_OUTPUT sync_signal.

(** ** Requests *)

Definition vsync_ioctl_valid (ptr size : Z) : bool :=
  negb (ptr =? 0) && mm_check_area t ptr size UMEM_AREA.

Definition vsync_counter (request : Z) (x : sync) (c : sync_counters) : option Z :=
  if request =? KSYNC_IOCTL_GET_LATENCY then Some (sy_latency x)
  else if request =? KSYNC_IOCTL_GET_NCREATES then Some (sc_ncreates c)
  else if request =? KSYNC_IOCTL_GET_NUNLINKS then Some (sc_nunlinks c)
  else if request =? KSYNC_IOCTL_GET_NOPENS then Some (sc_nopens c)
  else if request =? KSYNC_IOCTL_GET_NCLOSES then Some (sc_ncloses c)
  else if request =? KSYNC_IOCTL_GET_NWAITS then Some (sc_nwaits c)
  else if request =? KSYNC_IOCTL_GET_NSIGNALS then Some (sc_nsignals c)
  else None.

(** [var] is the argument of the request. *)
Definition do_vsync_ioctl (syncid request var : Z) : K syncs Z :=
  lock_sync;;
  x ← sync_read syncid;
  ret ← (
    if negb (resource_is_used (sy_resource x)) then mret (err EBADF) else
    if resource_is_busy (sy_resource x) then mret (err EBUSY) else
    if negb (vsync_ioctl_valid var 8) then mret (err EFAULT) else
    c ← kgets vsync_counters;
    match vsync_counter request x c : option Z with
    | Some v =>
        kmodify (fun s => sys_set_umem (mem_write var (store_int 8 v) (sy_umem s)) s);;
        mret 0
    | None => mret (err ENOTSUP)
    end);
  unlock_sync;;
  mret ret.

Definition sync_entry_init : sync := Sync RESOURCE_INITIALIZER (-1) 0 (-1) (-1) 0 0.

Definition vsync_init : K syncs unit :=
  kmodify (fun s => Syncs (sy_hw s) (map (fun _ => sync_entry_init) (vsynctab s))
    (SyncCounters 0 0 0 0 0 0) (vsync_lock s) (sy_umem s)).

End sync.
