(* ===== verification/SyncSpec.v ===== *)
(** Correctness of the synchronization points: the table holds at most one point for
    each set of nodes, mode and direction; points are reference counted; and an
    operation in progress keeps its point alive whatever other threads do. *)

From S2P Require Import Prelude.
From S2P Require Import Hlib.
From S2P Require Import MemLayout.
From S2P Require Import Active.
From S2P Require Import Communicator.
From S2P Require Import Sync.

Section spec.
Context `{H : Hlib} `{N : NocHw} {Y : SyncHw} {RP : ResourcePool} `{ML : MemLayout} (t : mm_target).
Context `{AB : Abi}.

Definition sy_used (x : sync) : bool := resource_is_used (sy_resource x).
Definition sy_busy (x : sync) : bool := resource_is_busy (sy_resource x).

(** ** The invariant *)

(** What identifies a point: its direction, its mode, its master and its nodes. *)
Definition sync_key (x : sync) : option (bool * Z * Z * Z) :=
  if sy_used x then Some (resource_is_readable (sy_resource x), sy_mode x, sy_master x, sy_nodeslist x) else None.

Definition direction_ok (x : sync) : Prop :=
  sy_used x = true -> resource_is_writable (sy_resource x) = negb (resource_is_readable (sy_resource x)).

Record sync_ok (s : syncs) : Prop := {
  sk_unlocked : vsync_lock s = false;
  sk_direction : Forall direction_ok (vsynctab s);
  sk_unique i j x y k : aget (vsynctab s) i = Some x -> aget (vsynctab s) j = Some y ->
    sync_key x = Some k -> sync_key y = Some k -> i = j;
}.

Definition no_point (k : bool * Z * Z * Z) (s : syncs) : Prop := Forall (fun x => sync_key x <> Some k) (vsynctab s).

(** ** What the operations do *)

(** The result of an allocation of the point [k], for which the hardware is asked with
    [call]. *)
Inductive sync_allocated (k : bool * Z * Z * Z) (call : hw -> Z * hw) (s : syncs) : Z -> syncs -> Prop :=
| allocated_shared i x :
    aget (vsynctab s) i = Some x -> sync_key x = Some k ->
    sync_allocated k call s i (sys_set_tab (aset i (sy_set_refcount (refcount x + 1) x) (vsynctab s)) s)
| allocated_full :
    no_point k s -> Forall (fun x => sy_used x = true) (vsynctab s) -> sync_allocated k call s (err EAGAIN) s
| allocated_refused i x x' r h :
    no_point k s -> aget (vsynctab s) i = Some x -> sy_used x = false ->
    call (sy_hw s) = (r, h) -> r < 0 -> sy_used x' = false ->
    sync_allocated k call s r (sys_set_hw h (sys_set_tab (aset i x' (vsynctab s)) s))
| allocated_new i x x' fd h :
    no_point k s -> aget (vsynctab s) i = Some x -> sy_used x = false ->
    call (sy_hw s) = (fd, h) -> 0 ≤ fd ->
    sync_key x' = Some k -> direction_ok x' -> hwfd x' = fd -> refcount x' = 1 -> sy_busy x' = false ->
    sync_allocated k call s i
      (Syncs h (aset i x' (vsynctab s))
         ((if fst (fst (fst k)) then sc_inc_ncreates else sc_inc_nopens) (vsync_counters s)) (vsync_lock s) (sy_umem s)).

(** The error with which a release or an operation on [x] is refused. *)
Definition sync_refused (type : Z) (x : sync) : option Z :=
  if negb (sy_used x) then Some (err EBADF) else
  if negb (sync_fits type x) then Some (err EBADF) else
  if sy_busy x then Some (err EBUSY) else None.

(** The result of a release of [x], the point [i]. *)
Inductive sync_released (type : Z) (call : Z -> hw -> Z * hw) (i : Z) (x : sync) (s : syncs) : Z -> syncs -> Prop :=
| released_refused e : sync_refused type x = Some e -> sync_released type call i x s e s
| released_shared :
    sync_refused type x = None -> refcount x <> 1 ->
    sync_released type call i x s 0 (sys_set_tab (aset i (sy_set_refcount (refcount x - 1) x) (vsynctab s)) s)
| released_failed r h :
    sync_refused type x = None -> refcount x = 1 -> call (hwfd x) (sy_hw s) = (r, h) -> r < 0 ->
    sync_released type call i x s r (sys_set_hw h (sys_set_tab (aset i (sy_set_refcount 0 x) (vsynctab s)) s))
| released_last r h x' :
    sync_refused type x = None -> refcount x = 1 -> call (hwfd x) (sy_hw s) = (r, h) -> 0 ≤ r -> sy_used x' = false ->
    sync_released type call i x s 0
      (Syncs h (aset i x' (vsynctab s))
         ((if type =? VSYNC_TYPE_INPUT then sc_inc_nunlinks else sc_inc_ncloses) (vsync_counters s))
         (vsync_lock s) (sy_umem s)).

(** ** Interleaving

    Threads call the operations concurrently.  A call that holds the lock from its
    first access to its last one is one step; an operation on the hardware is three.
    [po_fd] records the descriptor that the point had when the operation began. *)

Inductive sync_call :=
| CreateCall (nodes : list Z) (nnodes mode : Z)
| OpenCall (nodes : list Z) (nnodes mode : Z)
| UnlinkCall (syncid : Z)
| CloseCall (syncid : Z)
| IoctlCall (syncid request var : Z).

Definition run_sync_call (c : sync_call) : K syncs Z :=
  match c with
  | CreateCall nodes nnodes mode => do_vsync_create nodes nnodes mode
  | OpenCall nodes nnodes mode => do_vsync_open nodes nnodes mode
  | UnlinkCall i => do_vsync_unlink i
  | CloseCall i => do_vsync_close i
  | IoctlCall i request var => do_vsync_ioctl t i request var
  end.

Record pending_op := PendingOp { po_id : Z; po_type : Z; po_fd : Z; po_result : option (Z * Z) }.

Definition pending_hw (type : Z) : Z -> hw -> Z * hw :=
  if type =? VSYNC_TYPE_INPUT then sync_wait else sync_signal.

Inductive vsync_step : syncs * list pending_op -> syncs * list pending_op -> Prop :=
| step_sync_call c r s s' P : run_sync_call c s = Done r s' -> vsync_step (s, P) (s', P)
| step_sync_begin i type x s s' P :
    aget (vsynctab s) i = Some x -> sync_operate_begin i type s = Done 0 s' ->
    vsync_step (s, P) (s', PendingOp i type (hwfd x) None :: P)
| step_sync_refused i type e s s' P :
    sync_operate_begin i type s = Done e s' -> e <> 0 -> vsync_step (s, P) (s', P)
| step_sync_hw i type fd r s s' P1 P2 :
    sync_operate_hw i (pending_hw type) s = Done r s' ->
    vsync_step (s, P1 ++ PendingOp i type fd None :: P2) (s', P1 ++ PendingOp i type fd (Some r) :: P2)
| step_sync_end i type fd r v s s' P1 P2 :
    sync_operate_end i type r s = Done v s' ->
    vsync_step (s, P1 ++ PendingOp i type fd (Some r) :: P2) (s', P1 ++ P2).

(** The point of an operation in progress. *)
Definition op_point (p : pending_op) (x : sync) : Prop :=
  sy_used x = true /\ sy_busy x = true /\ sync_fits (po_type p) x = true /\ hwfd x = po_fd p.

Definition op_ok (s : syncs) (p : pending_op) : Prop := exists x, aget (vsynctab s) (po_id p) = Some x /\ op_point p x.

Record ops_ok (c : syncs * list pending_op) : Prop := {
  oo_sync : sync_ok (fst c);
  oo_nodup : NoDup (map po_id (snd c));
  oo_ops : Forall (op_ok (fst c)) (snd c);
}.

Context {HL : HlibLaws H} {RL : ResourcePoolLaws RP}.

(** ** Rules for the accessors *)

Lemma wp_lock_sync Q s : vsync_lock s = false -> Q tt (sys_set_lock true s) -> wp lock_sync Q s.
Proof. intros. unfold lock_sync. by wp_step. Qed.

Lemma wp_unlock_sync {A} (a : A) (Q : A -> syncs -> Prop) s :
  Q a (sys_set_lock false s) -> wp (unlock_sync;; mret a) Q s.
Proof. intros. unfold unlock_sync. wp_step. wp_step. by wp_step. Qed.

Lemma wp_sync_read i x (Q : sync -> syncs -> Prop) s :
  aget (vsynctab s) i = Some x -> Q x s -> wp (sync_read i) Q s.
Proof. intros E HQ. unfold sync_read. wp_step. wp_step. rewrite E. by wp_step. Qed.

Lemma wp_sync_update i f x (Q : unit -> syncs -> Prop) s :
  aget (vsynctab s) i = Some x -> Q tt (sys_set_tab (aset i (f x) (vsynctab s)) s) -> wp (sync_update i f) Q s.
Proof. intros E HQ. unfold sync_update. wp_step. eapply wp_sync_read; [done|]. by wp_step. Qed.

Lemma wp_sync_hw f (Q : Z -> syncs -> Prop) s :
  Q (fst (f (sy_hw s))) (sys_set_hw (snd (f (sy_hw s))) s) -> wp (sync_hw f) Q s.
Proof. intros HQ. unfold sync_hw. wp_step. wp_step. wp_step. wp_step. by wp_step. Qed.

Lemma set_resources_same l : set_resources (map sy_resource l) l = l.
Proof. induction l as [|[] l IH]; [done|]. simpl. f_equal. exact IH. Qed.

Lemma set_resources_aset l i r x :
  aget l i = Some x -> set_resources (aset i r (map sy_resource l)) l = aset i (sy_set_resource r x) l.
Proof.
  intros Hx. pose proof (aget_lt _ _ _ Hx) as Hi. revert i x Hx Hi.
  induction l as [|y l IH]; intros i x Hx Hi; [by apply aget_lt in Hx; simpl in Hx; lia|].
  destruct (decide (i = 0)) as [->|].
  - injection Hx as <-. unfold aset. simpl. f_equal. apply set_resources_same.
  - rewrite aget_cons_S in Hx by lia. specialize (IH _ _ Hx (aget_lt _ _ _ Hx)).
    unfold aset in *. rewrite !bool_decide_true in * by lia.
    replace (Z.to_nat i) with (S (Z.to_nat (i - 1))) by lia. simpl. f_equal; [by destruct y|exact IH].
Qed.

Lemma wp_vsyncpool_alloc (Q : Z -> syncs -> Prop) s :
  (forall i, i < 0 -> Forall (fun x => sy_used x = true) (vsynctab s) -> Q i s) ->
  (forall i x r, aget (vsynctab s) i = Some x -> sy_used x = false ->
     resource_is_used r = true -> resource_is_busy r = false ->
     Q i (sys_set_tab (aset i (sy_set_resource r x) (vsynctab s)) s)) ->
  wp vsyncpool_alloc Q s.
Proof.
  intros Hnone Hsome. unfold vsyncpool_alloc. wp_step. wp_step. wp_step. wp_step. wp_step.
  pose proof (resource_alloc_cases (map sy_resource (vsynctab s))) as Hc.
  destruct (resource_alloc (map sy_resource (vsynctab s))) as [i rs].
  destruct Hc as [(Hi & -> & Hall)|(r & r' & Hr & Hu & -> & Hu' & Hb')]; simpl.
  - rewrite set_resources_same. destruct s. apply Hnone; [done|]. by apply Forall_map in Hall.
  - destruct (aget_is_Some (vsynctab s) i) as [x Hx].
    { apply aget_lt in Hr. by rewrite length_map in Hr. }
    rewrite (set_resources_aset _ _ _ x) by done. apply Hsome; try done.
    unfold aget in Hr, Hx. case_bool_decide; [|done]. rewrite list_lookup_fmap, Hx in Hr. by injection Hr as <-.
Qed.

Lemma wp_vsyncpool_free i x (Q : unit -> syncs -> Prop) s :
  aget (vsynctab s) i = Some x ->
  (forall r, resource_is_used r = false -> Q tt (sys_set_tab (aset i (sy_set_resource r x) (vsynctab s)) s)) ->
  wp (vsyncpool_free i) Q s.
Proof.
  intros Hx HQ. unfold vsyncpool_free. wp_step.
  destruct (resource_free_spec (map sy_resource (vsynctab s)) i (sy_resource x)) as (r & -> & Hr).
  { unfold aget in *. case_bool_decide; [|done]. by rewrite list_lookup_fmap, Hx. }
  rewrite (set_resources_aset _ _ _ x) by done. by apply HQ.
Qed.

(** ** The specifications *)

Lemma sync_matches_key master nodeslist mode type x :
  direction_ok x ->
  sync_matches master nodeslist mode type x = true <->
  sync_key x = Some (type =? VSYNC_TYPE_INPUT, mode, master, nodeslist).
Proof.
  intros Hd. unfold sync_matches, sync_key, sync_fits. fold (sy_used x). unfold direction_ok in Hd.
  destruct (sy_used x); simpl; [|done]. rewrite Hd by done. rewrite !andb_true_iff, !Z.eqb_eq.
  destruct (type =? VSYNC_TYPE_INPUT), (resource_is_readable (sy_resource x)); simpl; naive_solver.
Qed.

Lemma do_sync_search_spec master nodeslist mode type s :
  sync_ok s ->
  let k := (type =? VSYNC_TYPE_INPUT, mode, master, nodeslist) in
  let i := do_sync_search master nodeslist mode type (vsynctab s) in
  (exists x, aget (vsynctab s) i = Some x /\ sync_key x = Some k) \/ (i = -1 /\ no_point k s).
Proof.
  intros Hok k i. subst i. unfold do_sync_search. destruct (search _ _) as [i|] eqn:E.
  - apply search_Some in E as (_ & (x & Hx & Hm) & _). left. exists x. split; [done|].
    apply sync_matches_key; [|done]. exact (Forall_aget _ _ _ _ (sk_direction _ Hok) Hx).
  - apply search_None in E. right. split; [done|]. apply Forall_forall. intros x Hx Hk.
    rewrite Forall_forall in E. apply E in Hx as Hf. apply sync_matches_key in Hk; [congruence|].
    pose proof (sk_direction _ Hok) as Hd. rewrite Forall_forall in Hd. by apply Hd.
Qed.

Lemma sync_alloc_spec nodes nnodes mode type f s nodeslist master :
  sync_ok s -> sync_build_nodeslist nodes nnodes = Some nodeslist -> aget nodes 0 = Some master ->
  wp (_do_sync_alloc nodes nnodes mode type f)
     (sync_allocated (type =? VSYNC_TYPE_INPUT, mode, master, nodeslist) (f nodes nnodes mode) s) s.
Proof.
  intros Hok Hnl Hm. pose proof (sk_unlocked _ Hok) as Hl. unfold _do_sync_alloc.
  wp_step. eapply wp_unwrap; [exact Hnl|]. wp_step. apply wp_lock_sync; [done|]. wp_step.
  eapply wp_unwrap; [exact Hm|]. wp_step. wp_step. wp_step. simpl.
  pose proof (do_sync_search_spec master nodeslist mode type s Hok) as Hs. simpl in Hs.
  destruct s as [h tab c l um]; simpl in *; subst l.
  destruct Hs as [(x & Hx & Hk)|[-> Hno]].
  { rewrite (proj2 (Z.leb_le 0 _)) by (apply aget_lt in Hx; lia). wp_step.
    eapply wp_sync_update; [exact Hx|]. wp_step. apply wp_unlock_sync.
    by apply (allocated_shared _ _ (Syncs h tab c false um)). }
  simpl. wp_step. apply wp_vsyncpool_alloc.
  { intros i Hi Hall. rewrite (proj2 (Z.ltb_lt _ _)) by done. wp_step. apply wp_unlock_sync.
    by apply (allocated_full _ _ (Syncs h tab c false um)). }
  intros i x r Hx Hu Hru Hrb. simpl in *. pose proof (aget_lt _ _ _ Hx).
  rewrite (proj2 (Z.ltb_ge _ _)) by lia. wp_step. apply wp_sync_hw. simpl.
  destruct (f nodes nnodes mode h) as [fd h'] eqn:E; simpl. wp_step.
  - wp_step. eapply wp_vsyncpool_free; [simpl; by eapply aget_aset_same|]. intros r' Hr'. simpl.
    wp_step. apply wp_unlock_sync. simpl. rewrite aset_aset_eq.
    by eapply (allocated_refused _ _ (Syncs h tab c false um)); [..|lia|].
  - wp_step. eapply wp_sync_update; [simpl; by eapply aget_aset_same|]. simpl. wp_step.
    apply wp_if; intros Ht; wp_step; (eapply wp_sync_update; [simpl; eapply aget_aset_same; by eapply aget_aset_same|]);
      wp_step; wp_step; apply wp_unlock_sync; simpl; rewrite !aset_aset_eq.
    + rewrite Ht in *. eapply (allocated_new (true, mode, master, nodeslist) _ (Syncs h tab c false um)); try done; try lia;
        unfold sync_key, direction_ok, sy_used, sy_busy; simpl; rflags; by rewrite ?Hru.
    + rewrite Ht in *. eapply (allocated_new (false, mode, master, nodeslist) _ (Syncs h tab c false um)); try done; try lia;
        unfold sync_key, direction_ok, sy_used, sy_busy; simpl; rflags; by rewrite ?Hru.
Qed.

(** A release of a point, whoever calls it. *)
Lemma sync_refused_guards {B} type x (k : Z -> B) (m : B) :
  (if negb (sy_used x) then k (err EBADF) else
   if negb (sync_fits type x) then k (err EBADF) else
   if sy_busy x then k (err EBUSY) else m) =
  match sync_refused type x with Some e => k e | None => m end.
Proof. unfold sync_refused. by repeat case_match. Qed.

Lemma sync_release_spec i type f s x :
  sync_ok s -> aget (vsynctab s) i = Some x ->
  wp (_do_sync_release i type f) (sync_released type f i x s) s.
Proof.
  intros Hok Hx. pose proof (sk_unlocked _ Hok) as Hl. unfold _do_sync_release.
  wp_step. apply wp_lock_sync; [done|]. wp_step. eapply wp_sync_read; [exact Hx|]. wp_step.
  fold (sy_used x) (sy_busy x). rewrite (sync_refused_guards type x mret).
  destruct s as [h tab c l um]; simpl in *; subst l.
  destruct (sync_refused type x) as [e|] eqn:E.
  { wp_step. apply wp_unlock_sync. by apply (released_refused _ _ _ _ (Syncs h tab c false um)). }
  wp_step. eapply wp_sync_update; [exact Hx|]. simpl.
  apply wp_if; intros Hr; [apply Z.eqb_eq in Hr|apply Z.eqb_neq in Hr; wp_step; apply wp_unlock_sync;
    apply (released_shared _ _ _ _ (Syncs h tab c false um)); [done|lia]].
  wp_step. apply wp_sync_hw. simpl. destruct (f (hwfd x) h) as [r h'] eqn:Ef; simpl.
  apply wp_if; intros Hneg.
  - wp_step. apply wp_unlock_sync. replace (refcount x - 1) with 0 by lia.
    apply (released_failed _ _ _ _ (Syncs h tab c false um)); [done|lia|done|lia].
  - wp_step. eapply wp_sync_update; [simpl; by eapply aget_aset_same|]. wp_step. wp_step. wp_step.
    eapply wp_vsyncpool_free; [simpl; eapply aget_aset_same; by eapply aget_aset_same|]. intros r' Hu'. simpl.
    wp_step. apply wp_unlock_sync. simpl. rewrite !aset_aset_eq.
    eapply (released_last _ _ _ _ (Syncs h tab c false um)); [done|lia|done|lia|done].
Qed.

(** ** Preservation of the invariant *)

Lemma sync_ok_set s s' i x x' :
  sync_ok s -> aget (vsynctab s) i = Some x ->
  vsynctab s' = aset i x' (vsynctab s) -> vsync_lock s' = vsync_lock s -> direction_ok x' ->
  (forall k, sync_key x' = Some k -> sync_key x = Some k \/ no_point k s) -> sync_ok s'.
Proof.
  intros Hok Hx Ht Hl Hd Hk. split.
  - rewrite Hl. apply Hok.
  - rewrite Ht. by apply Forall_aset; [apply Hok|].
  - assert (Hnew : forall j y k, aget (vsynctab s) j = Some y -> sync_key y = Some k -> sync_key x' = Some k -> i = j).
    { intros j y k Hj Hy Hkx. destruct (Hk k Hkx) as [Hkx'|Hno]; [by eapply (sk_unique _ Hok i j)|].
      by destruct (Forall_aget _ _ _ _ Hno Hj). }
    intros j1 j2 y1 y2 k. rewrite Ht.
    destruct (decide (j1 = i)) as [->|N1], (decide (j2 = i)) as [->|N2];
      rewrite ?(aget_aset_same _ _ _ _ Hx), ?aget_aset_ne by done; intros E1 E2 K1 K2; simplify_eq; try done.
    + by eapply Hnew.
    + symmetry. by eapply Hnew.
    + by eapply (sk_unique _ Hok j1 j2).
Qed.

Lemma sync_allocated_ok k call s r s' : sync_ok s -> sync_allocated k call s r s' -> sync_ok s'.
Proof.
  intros Hok [i x Hx Hk| |i x x' r' h Hno Hx Hu E Hr Hu'|i x x' fd h Hno Hx Hu E Hfd Hk Hd _ _ _]; [|done|..].
  - eapply (sync_ok_set s _ i x); try done; [exact (Forall_aget _ _ _ _ (sk_direction _ Hok) Hx)|by left].
  - eapply (sync_ok_set s _ i x); try done; unfold direction_ok, sync_key; by rewrite Hu'.
  - eapply (sync_ok_set s _ i x); try done. intros k' Hk'. right. congruence.
Qed.

Lemma sync_released_ok type call i x s r s' :
  sync_ok s -> aget (vsynctab s) i = Some x -> sync_released type call i x s r s' -> sync_ok s'.
Proof.
  intros Hok Hx [e He|Hg Hr|r' h Hg Hr E Hneg|r' h x' Hg Hr E Hpos Hu']; [done|..].
  - eapply (sync_ok_set s _ i x); try done; [exact (Forall_aget _ _ _ _ (sk_direction _ Hok) Hx)|by left].
  - eapply (sync_ok_set s _ i x); try done; [exact (Forall_aget _ _ _ _ (sk_direction _ Hok) Hx)|by left].
  - eapply (sync_ok_set s _ i x); try done; unfold direction_ok, sync_key; by rewrite Hu'.
Qed.

(** ** Operations in progress *)

Lemma sync_begin_spec i type s x :
  sync_ok s -> aget (vsynctab s) i = Some x ->
  let x' := sy_set_resource (resource_set_busy (sy_resource x)) x in
  wp (sync_operate_begin i type) (fun r s' =>
    match sync_refused type x with
    | Some e => r = e /\ s' = s
    | None => r = 0 /\ s' = sys_set_tab (aset i x' (vsynctab s)) s
    end) s.
Proof.
  intros Hok Hx x'. pose proof (sk_unlocked _ Hok) as Hl. unfold sync_operate_begin.
  wp_step. apply wp_lock_sync; [done|]. wp_step. eapply wp_sync_read; [exact Hx|]. wp_step.
  fold (sy_used x) (sy_busy x). rewrite (sync_refused_guards type x mret).
  destruct s as [h tab c l um]; simpl in *; subst l.
  destruct (sync_refused type x) as [e|]; [wp_step; by apply wp_unlock_sync|].
  wp_step. eapply wp_sync_update; [exact Hx|]. wp_step. by apply wp_unlock_sync.
Qed.

Lemma sync_hw_spec i f s x :
  aget (vsynctab s) i = Some x ->
  wp (sync_operate_hw i f) (fun r s' => exists h, s' = sys_set_hw h s /\
    fst r = fst (f (hwfd x) (snd (clock_read (sy_hw s))))) s.
Proof.
  intros Hx. unfold sync_operate_hw. wp_step. apply wp_sync_hw. wp_step. eapply wp_sync_read; [exact Hx|].
  wp_step. apply wp_sync_hw. wp_step. apply wp_sync_hw. wp_step. by eexists.
Qed.

Definition sync_ended (r : Z * Z) (x : sync) : sync :=
  let x := if 0 <=? fst r then sy_set_latency (u64 (sy_latency x + snd r)) x else x in
  sy_set_resource (resource_set_notbusy (sy_resource x)) x.

Lemma sync_end_spec i type r s x :
  sync_ok s -> aget (vsynctab s) i = Some x ->
  wp (sync_operate_end i type r) (fun v s' => v = fst r /\ vsync_lock s' = false /\ sy_hw s' = sy_hw s /\
    vsynctab s' = aset i (sync_ended r x) (vsynctab s)) s.
Proof.
  intros Hok Hx. pose proof (sk_unlocked _ Hok) as Hl. unfold sync_operate_end, sync_ended.
  wp_step. apply wp_lock_sync; [done|]. wp_step. destruct (0 <=? fst r).
  - wp_step. eapply wp_sync_update; [exact Hx|]. wp_step. wp_step.
    eapply wp_sync_update; [simpl; by eapply aget_aset_same|]. apply wp_unlock_sync. simpl. by rewrite aset_aset_eq.
  - wp_step. wp_step. eapply wp_sync_update; [exact Hx|]. by apply wp_unlock_sync.
Qed.

(** An update of the table keeps the operations in progress when it keeps their points. *)
Lemma ops_ok_set s s' i x x' P :
  ops_ok (s, P) -> sync_ok s' -> aget (vsynctab s) i = Some x -> vsynctab s' = aset i x' (vsynctab s) ->
  (forall p, op_point p x -> op_point p x') -> ops_ok (s', P).
Proof.
  intros [_ Hnd Hops] Hok Hx Ht Hp. split; [done|done|]. simpl in *. eapply Forall_impl; [exact Hops|].
  intros p (y & Hy & Hpy). unfold op_ok. rewrite Ht.
  destruct (decide (i = po_id p)) as [->|]; [|rewrite aget_aset_ne by done; by exists y].
  exists x'. split; [by eapply aget_aset_same|]. apply Hp. congruence.
Qed.

Lemma ops_ok_tab s s' P : ops_ok (s, P) -> sync_ok s' -> vsynctab s' = vsynctab s -> ops_ok (s', P).
Proof.
  intros [_ Hnd Hops] Hok Ht. split; [done|done|]. simpl in *. eapply Forall_impl; [exact Hops|].
  intros p (y & Hy). unfold op_ok. rewrite Ht. by exists y.
Qed.

Lemma sync_ok_tab s s' : sync_ok s -> vsynctab s' = vsynctab s -> vsync_lock s' = false -> sync_ok s'.
Proof. intros [Hl Hd Hu] Ht Hl'. split; rewrite ?Ht; done. Qed.

Lemma refused_none type x : sync_refused type x = None -> sy_used x = true /\ sync_fits type x = true /\ sy_busy x = false.
Proof. unfold sync_refused. by destruct (sy_used x), (sync_fits type x), (sy_busy x). Qed.

Lemma ops_ok_allocated k call s r s' P : ops_ok (s, P) -> sync_allocated k call s r s' -> ops_ok (s', P).
Proof.
  intros Hops Ha. pose proof (sync_allocated_ok _ _ _ _ _ (oo_sync _ Hops) Ha) as Hok'.
  destruct Ha as [i x Hx Hk| |i x x' r' h Hno Hx Hu E Hr Hu'|i x x' fd h Hno Hx Hu E Hfd Hk Hd _ _ _]; [|done|..].
  - by eapply (ops_ok_set s _ i x).
  - eapply (ops_ok_set s _ i x); try done. intros p (Hpu & _). congruence.
  - eapply (ops_ok_set s _ i x); try done. intros p (Hpu & _). congruence.
Qed.

Lemma ops_ok_released type call i x s r s' P :
  ops_ok (s, P) -> aget (vsynctab s) i = Some x -> sync_released type call i x s r s' -> ops_ok (s', P).
Proof.
  intros Hops Hx Hr. pose proof (sync_released_ok _ _ _ _ _ _ _ (oo_sync _ Hops) Hx Hr) as Hok'.
  assert (Hnot : sync_refused type x = None -> forall p, ~ op_point p x).
  { intros (_ & _ & Hb)%refused_none p (_ & Hb' & _). congruence. }
  destruct Hr as [e He|Hg Hr|r' h Hg Hr E Hneg|r' h x' Hg Hr E Hpos Hu']; [done|..];
    (eapply (ops_ok_set s _ i x); try done; intros p Hp; by destruct (Hnot Hg p)).
Qed.

(** A call that returns was given a point of the table. *)
Lemma locked_read_Done {A} i (k : sync -> K syncs A) s r s' :
  (lock_sync;; x ← sync_read i; k x) s = Done r s' -> exists x, aget (vsynctab s) i = Some x.
Proof.
  unfold lock_sync, spinlock_lock, mbind, K_bind, sync_read, kgets. destruct (vsync_lock s); [done|].
  simpl. unfold mbind, K_bind. simpl. destruct (aget (vsynctab s) i) as [x|]; [by exists x|done].
Qed.

Lemma sync_alloc_Done nodes nnodes mode type f s r s' :
  _do_sync_alloc nodes nnodes mode type f s = Done r s' ->
  exists nodeslist master, sync_build_nodeslist nodes nnodes = Some nodeslist /\ aget nodes 0 = Some master.
Proof.
  unfold _do_sync_alloc, lock_sync, spinlock_lock, mbind, K_bind, kunwrap.
  destruct (sync_build_nodeslist nodes nnodes) as [nl|]; [|done]. simpl. destruct (vsync_lock s); [done|].
  destruct (aget nodes 0) as [m|]; [|done]. by exists nl, m.
Qed.

Lemma sync_ioctl_spec i request var s :
  sync_ok s -> forall r s', do_vsync_ioctl t i request var s = Done r s' -> vsynctab s' = vsynctab s /\ vsync_lock s' = false.
Proof.
  intros Hok r s' E. destruct (locked_read_Done _ _ _ _ _ E) as [x Hx].
  eapply (wp_Done _ (fun _ s' => vsynctab s' = vsynctab s /\ vsync_lock s' = false)); [exact E|]. unfold do_vsync_ioctl.
  wp_step. apply wp_lock_sync; [apply Hok|]. wp_step. eapply wp_sync_read; [exact Hx|]. wp_step.
  wp_step; [wp_step; by apply wp_unlock_sync|]. wp_step; [wp_step; by apply wp_unlock_sync|].
  wp_step; [wp_step; by apply wp_unlock_sync|]. wp_step. wp_step.
  destruct (vsync_counter _ _ _); [wp_step; wp_step|]; wp_step; by apply wp_unlock_sync.
Qed.

Lemma ops_ok_call c s r s' P : ops_ok (s, P) -> run_sync_call c s = Done r s' -> ops_ok (s', P).
Proof.
  intros Hops E. pose proof (oo_sync _ Hops) as Hok. simpl in Hok. destruct c as [nodes nnodes mode|nodes nnodes mode|i|i|i request var];
    simpl in E.
  - destruct (sync_alloc_Done _ _ _ _ _ _ _ _ E) as (nl & m & Hnl & Hm).
    eapply ops_ok_allocated; [done|]. exact (wp_Done _ _ _ _ _ E (sync_alloc_spec _ _ _ _ _ _ _ _ Hok Hnl Hm)).
  - destruct (sync_alloc_Done _ _ _ _ _ _ _ _ E) as (nl & m & Hnl & Hm).
    eapply ops_ok_allocated; [done|]. exact (wp_Done _ _ _ _ _ E (sync_alloc_spec _ _ _ _ _ _ _ _ Hok Hnl Hm)).
  - destruct (locked_read_Done _ _ _ _ _ E) as [x Hx].
    eapply ops_ok_released; [done|done|]. exact (wp_Done _ _ _ _ _ E (sync_release_spec _ _ _ _ _ Hok Hx)).
  - destruct (locked_read_Done _ _ _ _ _ E) as [x Hx].
    eapply ops_ok_released; [done|done|]. exact (wp_Done _ _ _ _ _ E (sync_release_spec _ _ _ _ _ Hok Hx)).
  - destruct (sync_ioctl_spec _ _ _ _ Hok _ _ E) as [Ht Hl].
    apply (ops_ok_tab s); [done| |done]. by apply (sync_ok_tab s).
Qed.

(** The entry of an operation in progress can be made busy or not without moving the point. *)
Lemma sync_ok_resource s s' i x x' r :
  sync_ok s -> aget (vsynctab s) i = Some x -> vsynctab s' = aset i x' (vsynctab s) -> vsync_lock s' = false ->
  sy_resource x' = r -> resource_is_used r = sy_used x ->
  resource_is_readable r = resource_is_readable (sy_resource x) ->
  resource_is_writable r = resource_is_writable (sy_resource x) ->
  sy_mode x' = sy_mode x -> sy_master x' = sy_master x -> sy_nodeslist x' = sy_nodeslist x -> sync_ok s'.
Proof.
  intros Hok Hx Ht Hl <- Hu Hr Hw Hm Hma Hnl. eapply (sync_ok_set s s' i x x' Hok Hx Ht).
  - rewrite Hl. symmetry. apply Hok.
  - pose proof (Forall_aget _ _ _ _ (sk_direction _ Hok) Hx) as Hd. unfold direction_ok, sy_used in *. by rewrite Hu, Hr, Hw.
  - intros k. unfold sync_key, sy_used in *. rewrite Hu, Hr, Hm, Hma, Hnl. by left.
Qed.

Lemma ops_ok_begin i type x s P :
  ops_ok (s, P) -> aget (vsynctab s) i = Some x -> sync_refused type x = None ->
  let x' := sy_set_resource (resource_set_busy (sy_resource x)) x in
  ops_ok (sys_set_tab (aset i x' (vsynctab s)) s, PendingOp i type (hwfd x) None :: P).
Proof.
  intros Hops Hx Hr x'. destruct (refused_none _ _ Hr) as (Hu & Hf & Hbz). pose proof (oo_sync _ Hops) as Hok.
  assert (Hok' : sync_ok (sys_set_tab (aset i x' (vsynctab s)) s)).
  { eapply (sync_ok_resource s _ i x x'); [done|done|done|apply Hok|done|..]; simpl; by rflags. }
  assert (Hops' : ops_ok (sys_set_tab (aset i x' (vsynctab s)) s, P)).
  { eapply (ops_ok_set s _ i x); try done. intros p (_ & Hb' & _). congruence. }
  destruct Hops as [_ Hnd Hops]. destruct Hops' as [_ _ Hops']. split; [done| |]; simpl in *.
  - apply NoDup_cons. split; [|done]. intros (p & Hi & Hp)%list_elem_of_fmap.
    rewrite Forall_forall in Hops. destruct (Hops p Hp) as (y & Hy & _ & Hb' & _). rewrite <- Hi, Hx in Hy. congruence.
  - apply Forall_cons. split; [|done]. exists x'. split; [by eapply aget_aset_same|].
    unfold op_point, sy_used, sy_busy, sync_fits in *. simpl. rflags. done.
Qed.

Lemma ops_ok_end i type fd r v s s' P1 P2 :
  ops_ok (s, P1 ++ PendingOp i type fd (Some r) :: P2) -> sync_operate_end i type r s = Done v s' ->
  ops_ok (s', P1 ++ P2).
Proof.
  intros [Hok Hnd Hops] E. simpl in *. apply Forall_app in Hops as [HP1 [Hp HP2]%Forall_cons].
  destruct Hp as (x & Hx & Hp). destruct (wp_Done _ _ _ _ _ E (sync_end_spec i type r s x Hok Hx)) as (_ & Hl & _ & Ht).
  rewrite map_app in Hnd. simpl in Hnd. apply NoDup_app in Hnd as (Hn1 & Hn12 & [Hn2 Hn3]%NoDup_cons).
  split; simpl.
  - eapply (sync_ok_resource s s' i x (sync_ended r x)); [done|done|done|done|done|..];
      unfold sync_ended; destruct (0 <=? fst r); simpl; by rflags.
  - rewrite map_app. apply NoDup_app. split; [done|]. split; [|done]. intros j Hj. specialize (Hn12 j Hj). set_solver.
  - assert (Hkeep : forall P, i ∉ map po_id P -> Forall (op_ok s) P -> Forall (op_ok s') P).
    { intros P Hi HP. rewrite Forall_forall in HP |- *. intros p Hpin. destruct (HP p Hpin) as (y & Hy & Hpy).
      exists y. split; [|done]. rewrite Ht, aget_aset_ne; [done|]. intros ->. apply Hi. by apply list_elem_of_fmap_2. }
    apply Forall_app. split; apply Hkeep; try done. intros Hi. specialize (Hn12 _ Hi). set_solver.
Qed.

Lemma ops_ok_hw i type fd r s s' P1 P2 :
  ops_ok (s, P1 ++ PendingOp i type fd None :: P2) -> sync_operate_hw i (pending_hw type) s = Done r s' ->
  ops_ok (s', P1 ++ PendingOp i type fd (Some r) :: P2).
Proof.
  intros [Hok Hnd Hops] E. simpl in *. apply Forall_app in Hops as [HP1 [Hp HP2]%Forall_cons].
  destruct Hp as (x & Hx & Hp). destruct (wp_Done _ _ _ _ _ E (sync_hw_spec i _ s x Hx)) as (h & -> & _).
  split; simpl; [by destruct Hok|by rewrite map_app in Hnd |- *|]. apply Forall_app. split; [done|]. apply Forall_cons.
  split; [|done]. by exists x.
Qed.

Lemma refused_neg type x e : sync_refused type x = Some e -> e < 0.
Proof.
  unfold sync_refused. pose proof (err_neg EBADF). pose proof (err_neg EBUSY).
  repeat case_match; intros; simplify_eq; lia.
Qed.

Lemma ops_ok_step c c' : ops_ok c -> vsync_step c c' -> ops_ok c'.
Proof.
  intros Hops Hst. destruct Hst as [c1 r s s' P E|i type x s s' P Hx E|i type e s s' P E Hne|i type fd r s s' P1 P2 E|i type fd r v s s' P1 P2 E].
  - exact (ops_ok_call c1 s r s' P Hops E).
  - pose proof (wp_Done _ _ _ _ _ E (sync_begin_spec i type s x (oo_sync _ Hops) Hx)) as Hb. simpl in Hb.
    destruct (sync_refused type x) as [e|] eqn:Hr; destruct Hb as [He ->]; [apply refused_neg in Hr; lia|].
    by apply ops_ok_begin.
  - destruct (locked_read_Done _ _ _ _ _ E) as [x Hx].
    pose proof (wp_Done _ _ _ _ _ E (sync_begin_spec i type s x (oo_sync _ Hops) Hx)) as Hb. simpl in Hb.
    destruct (sync_refused type x); destruct Hb as [Hr Hs]; congruence.
  - by eapply ops_ok_hw.
  - by eapply ops_ok_end.
Qed.

(** ** Sharing *)

Lemma build_nodeslist_spec nodes nodeslist :
  Forall (fun v => 0 ≤ v < 64) nodes ->
  exists l, build_nodeslist nodes (length nodes) nodeslist = Some l /\
    forall k, 0 ≤ k -> Z.testbit l k = Z.testbit nodeslist k || bool_decide (k ∈ nodes).
Proof.
  revert nodeslist. induction nodes as [|v nodes IH]; intros nodeslist Hall.
  { exists nodeslist. split; [done|]. intros k Hk. rewrite bool_decide_false by (by apply not_elem_of_nil). by rewrite orb_false_r. }
  apply Forall_cons in Hall as [Hv Hall]. destruct (IH (Z.lor nodeslist (Z.shiftl 1 v)) Hall) as (l & E & Hl).
  exists l. simpl. rewrite (proj2 (Z.leb_le _ _)), (proj2 (Z.ltb_lt _ _)) by lia. split; [done|].
  intros k Hk. rewrite Hl, Z.lor_spec, Z.shiftl_1_l, Z.pow2_bits_eqb by lia. rewrite <- orb_assoc. f_equal.
  destruct (Z.eqb_spec v k) as [->|]; simpl; [by rewrite bool_decide_true by set_solver|].
  apply bool_decide_ext. set_solver.
Qed.

(** Lists of the same nodes have the same footprint. *)
Lemma nodeslist_same nodes nodes' :
  Forall (fun v => 0 ≤ v < 64) nodes -> (forall v, v ∈ nodes' <-> v ∈ nodes) ->
  exists l, sync_build_nodeslist nodes (alen nodes) = Some l /\ sync_build_nodeslist nodes' (alen nodes') = Some l.
Proof.
  intros Hall Heq. assert (Hall' : Forall (fun v => 0 ≤ v < 64) nodes').
  { rewrite Forall_forall in *. intros v Hv. by apply Hall, Heq. }
  unfold sync_build_nodeslist. rewrite !Nat2Z.id.
  destruct (build_nodeslist_spec nodes 0 Hall) as (l & -> & Hl).
  destruct (build_nodeslist_spec nodes' 0 Hall') as (l' & -> & Hl'). exists l. split; [done|]. f_equal.
  apply Z.bits_inj'. intros k Hk. rewrite Hl, Hl' by done. f_equal. by apply bool_decide_ext.
Qed.

Definition point_is (s : syncs) (i : Z) (k : bool * Z * Z * Z) (fd n : Z) : Prop :=
  sync_ok s /\ exists x, aget (vsynctab s) i = Some x /\ sync_key x = Some k /\ sy_busy x = false /\
    hwfd x = fd /\ refcount x = n.

Lemma point_releasable x k :
  sync_key x = Some k -> fst (fst (fst k)) = true -> sy_busy x = false -> sync_refused VSYNC_TYPE_INPUT x = None.
Proof.
  intros Hk Hdir Hb. unfold sync_key in Hk. unfold sync_refused, sync_fits. destruct (sy_used x); [|done].
  injection Hk as <-. simpl in *. by rewrite Hdir, Hb.
Qed.

Lemma sync_share_spec nodes mode type f s i nodeslist master fd n :
  let k := (type =? VSYNC_TYPE_INPUT, mode, master, nodeslist) in
  point_is s i k fd n -> sync_build_nodeslist nodes (alen nodes) = Some nodeslist -> aget nodes 0 = Some master ->
  wp (_do_sync_alloc nodes (alen nodes) mode type f)
     (fun r s' => r = i /\ point_is s' i k fd (n + 1) /\ sy_hw s' = sy_hw s) s.
Proof.
  intros k (Hok & x & Hx & Hk & Hb & Hfd & Hn) Hnl Hm.
  eapply wp_mono; [by eapply sync_alloc_spec|]. intros r s' Ha. pose proof (sync_allocated_ok _ _ _ _ _ Hok Ha) as Hok'.
  destruct Ha as [j y Hy Hky|Hno|j y x' r' h Hno|j y x' fd' h Hno];
    try by destruct (Forall_aget _ _ _ _ Hno Hx).
  assert (j = i) as -> by (by eapply (sk_unique _ Hok)). rewrite Hx in Hy. injection Hy as <-.
  split; [done|]. split; [|done]. split; [done|]. exists (sy_set_refcount (refcount x + 1) x).
  split; [by eapply aget_aset_same|]. by rewrite Hn.
Qed.

Lemma sync_share_many lists mode master nodeslist s i fd n :
  let k := (true, mode, master, nodeslist) in
  point_is s i k fd n ->
  Forall (fun ns => sync_build_nodeslist ns (alen ns) = Some nodeslist /\ aget ns 0 = Some master) lists ->
  wp (kseq (map (fun ns => do_vsync_create ns (alen ns) mode) lists))
     (fun rs s' => rs = replicate (length lists) i /\ point_is s' i k fd (n + alen lists) /\ sy_hw s' = sy_hw s) s.
Proof.
  intros k. revert s n. induction lists as [|ns lists IH]; intros s n Hp Hall; simpl.
  { wp_step. split; [done|]. by rewrite Z.add_0_r. }
  apply Forall_cons in Hall as [[Hnl Hm] Hall]. wp_step.
  eapply wp_mono; [by eapply (sync_share_spec ns mode VSYNC_TYPE_INPUT)|]. intros r s1 (-> & Hp1 & Hh).
  wp_step. eapply wp_mono; [by apply IH|]. intros rs s2 (-> & Hp2 & Hh2). wp_step. split; [done|].
  split; [|congruence]. by replace (n + Z.of_nat (S (length lists))) with (n + 1 + alen lists) by lia.
Qed.

Lemma sync_unshare_many m mode master nodeslist s i fd n :
  let k := (true, mode, master, nodeslist) in
  point_is s i k fd n -> Z.of_nat m < n ->
  wp (kseq (replicate m (do_vsync_unlink i)))
     (fun rs s' => rs = replicate m 0 /\ point_is s' i k fd (n - Z.of_nat m) /\ sy_hw s' = sy_hw s) s.
Proof.
  intros k. revert s n. induction m as [|m IH]; intros s n Hp Hm; simpl.
  { wp_step. split; [done|]. by rewrite Z.sub_0_r. }
  destruct Hp as (Hok & x & Hx & Hk & Hb & Hfd & Hn). wp_step. eapply wp_mono; [by apply sync_release_spec|].
  intros r s1 Hr. pose proof (sync_released_ok _ _ _ _ _ _ _ Hok Hx Hr) as Hok1.
  pose proof (point_releasable x _ Hk eq_refl Hb) as Hg.
  destruct Hr as [e He|_ Hr|? ? _ Hr|? ? ? _ Hr]; [congruence| |lia..].
  wp_step. eapply wp_mono; [eapply (IH _ (n - 1)); [|lia]|].
  { split; [done|]. exists (sy_set_refcount (refcount x - 1) x). split; [by eapply aget_aset_same|]. by rewrite <- Hn. }
  intros rs s2 (-> & Hp2 & Hh2). wp_step. split; [done|]. split; [|done].
  by replace (n - Z.of_nat (S m)) with (n - 1 - Z.of_nat m) by lia.
Qed.

(** (C11) However the operations of several threads interleave after the
    initialisation, an operation that has released the lock to wait or to signal owns
    its synchronization point until it ends: no other operation uses the point, the
    point keeps the hardware descriptor with which the operation began, and any attempt
    to unlink or close it is refused. *)
Theorem vsync_operation_protected s s0 s' P p :
  vsync_lock s = false -> vsync_init s = Done tt s0 -> rtc vsync_step (s0, []) (s', P) -> p ∈ P ->
  NoDup (map po_id P) /\
  (exists x, aget (vsynctab s') (po_id p) = Some x /\ sy_used x = true /\ sy_busy x = true /\ hwfd x = po_fd p) /\
  wp (do_vsync_unlink (po_id p)) (fun r s'' => r < 0 /\ s'' = s') s' /\
  wp (do_vsync_close (po_id p)) (fun r s'' => r < 0 /\ s'' = s') s'.
Proof.
  intros Hl [= <-] Hrtc Hp.
  assert (Hops : ops_ok (s', P)).
  { revert Hrtc. apply (rtc_ind_r (fun c => ops_ok c)); [|intros c c' _ Hst Hc; by eapply ops_ok_step].
    split; simpl; [|by apply NoDup_nil|done]. split; simpl; [done|..].
    - apply Forall_map, Forall_true. intros x. unfold direction_ok, sy_used. simpl. by rflags.
    - intros i j x y k Hx Hy Hk. exfalso. revert Hk. apply aget_elem, list_elem_of_fmap in Hx as (z & -> & _).
      unfold sync_key, sy_used. simpl. by rflags. }
  destruct Hops as [Hok Hnd Hops]. simpl in *. split; [done|].
  rewrite Forall_forall in Hops. destruct (Hops p Hp) as (x & Hx & Hu & Hb & _ & Hfd). split; [by exists x|].
  assert (Hrel : forall type f, wp (_do_sync_release (po_id p) type f) (fun r s'' => r < 0 /\ s'' = s') s').
  { intros type f. eapply wp_mono; [by apply sync_release_spec|]. intros r s''.
    assert (Hn : sync_refused type x <> None) by (intros (_ & _ & ?)%refused_none; congruence).
    intros [e He| | |]; try done. split; [|done]. by eapply refused_neg. }
  split; apply Hrel.
Qed.

Lemma sync_create_new nodes nnodes mode s nodeslist master fd h :
  let k := (true, mode, master, nodeslist) in
  sync_ok s -> sync_build_nodeslist nodes nnodes = Some nodeslist -> aget nodes 0 = Some master ->
  no_point k s -> ~ Forall (fun x => sy_used x = true) (vsynctab s) ->
  sync_create nodes nnodes mode (sy_hw s) = (fd, h) -> 0 ≤ fd ->
  wp (do_vsync_create nodes nnodes mode) (fun i s' => point_is s' i k fd 1 /\ sy_hw s' = h) s.
Proof.
  intros k Hok Hnl Hm Hno Hfree E Hfd. eapply wp_mono; [by eapply sync_alloc_spec|]. intros i s' Ha.
  pose proof (sync_allocated_ok _ _ _ _ _ Hok Ha) as Hok'.
  destruct Ha as [j y Hy Hky|_ Hfull|j y x' r' h' _ Hy Hu E' Hr Hu'|j y x' fd' h' _ Hy Hu E' _ Hk Hd Hf Hn Hb].
  - by destruct (Forall_aget _ _ _ _ Hno Hy).
  - done.
  - rewrite E in E'. injection E' as <- <-. lia.
  - rewrite E in E'. injection E' as <- <-. split; [|done]. split; [done|]. exists x'. split; [by eapply aget_aset_same|done].
Qed.

Lemma sync_unlink_last s i k fd r h :
  fst (fst (fst k)) = true -> point_is s i k fd 1 -> sync_unlink fd (sy_hw s) = (r, h) -> 0 ≤ r ->
  wp (do_vsync_unlink i) (fun v s' => v = 0 /\ sync_ok s' /\ sy_hw s' = h /\ no_point k s' /\
    exists x, aget (vsynctab s') i = Some x /\ sy_used x = false) s.
Proof.
  intros Hdir (Hok & x & Hx & Hk & Hb & Hfd & Hn) E Hr0. eapply wp_mono; [by apply sync_release_spec|]. intros v s' Hr.
  pose proof (sync_released_ok _ _ _ _ _ _ _ Hok Hx Hr) as Hok1.
  pose proof (point_releasable x _ Hk Hdir Hb) as Hg. rewrite <- Hfd in E.
  destruct Hr as [e He|_ Hr|r' h' _ Hr E' Hneg|r' h' x' _ Hr E' Hpos Hu']; [congruence|lia|..];
    rewrite E in E'; injection E' as <- <-; [lia|].
  split; [done|]. split; [done|]. split; [done|].
  split; [|exists x'; split; [by eapply aget_aset_same|done]]. apply Forall_aget_iff. simpl. intros j y.
  destruct (decide (i = j)) as [<-|Hne].
  - rewrite (aget_aset_same _ _ _ _ Hx). intros [= <-]. unfold sync_key. by rewrite Hu'.
  - rewrite aget_aset_ne by done. intros Hy Hky. apply Hne. by eapply (sk_unique _ Hok).
Qed.


(** A release that the hardware refuses loses the point: the reference has been
    dropped all the same, so the next release reports success without asking the
    hardware, and the point stays in the table with a negative count. *)
Theorem vsync_failed_release s i mode master nodeslist fd r h :
  point_is s i (true, mode, master, nodeslist) fd 1 -> sync_unlink fd (sy_hw s) = (r, h) -> r < 0 ->
  wp (first ← do_vsync_unlink i; second ← do_vsync_unlink i; mret (first, second))
     (fun res s' => res = (r, 0) /\ sy_hw s' = h /\ point_is s' i (true, mode, master, nodeslist) fd (-1)) s.
Proof.
  intros (Hok & x & Hx & Hk & Hb & Hfd & Hn) E Hr0. rewrite <- Hfd in E.
  pose proof (point_releasable x _ Hk eq_refl Hb) as Hg.
  wp_step. eapply wp_mono; [by apply sync_release_spec|]. intros v s1 Hr.
  pose proof (sync_released_ok _ _ _ _ _ _ _ Hok Hx Hr) as Hok1.
  destruct Hr as [e He|_ Hr|r' h' _ Hr E' Hneg|r' h' x' _ Hr E' Hpos Hu']; [congruence|lia| |];
    rewrite E in E'; injection E' as <- <-; [|lia].
  set (x1 := sy_set_refcount 0 x) in *. set (s1 := sys_set_hw _ _) in *.
  assert (Hx1 : aget (vsynctab s1) i = Some x1) by (by eapply aget_aset_same).
  wp_step. eapply wp_mono; [by apply sync_release_spec|]. intros v2 s2 Hr2.
  pose proof (sync_released_ok _ _ _ _ _ _ _ Hok1 Hx1 Hr2) as Hok2. wp_step.
  destruct Hr2 as [e He|_ _|? ? _ Hr2|? ? ? _ Hr2]; [change (sync_refused VSYNC_TYPE_INPUT x = Some e) in He; congruence| |done..].
  split; [done|]. split; [done|]. split; [done|]. exists (sy_set_refcount (-1) x1). split; [by eapply aget_aset_same|done].
Qed.

End spec.
