(* ===== verification/SysNoc.v ===== *)
(** * Kernel calls of the network-on-chip

    Model of src/kernel/sys/{mailbox,portal,sync,noc}.c: the calls check what the
    user passes and call the component.  [NANVIX_IKC_USES_ONLY_MAILBOX] is the
    configuration flag that removes the portals and the synchronization points. *)

From stdpp Require Import base gmap list.
From S2P Require Import Prelude.
From S2P Require Import Hlib.
From S2P Require Import MemLayout.
From S2P Require Import Active.
From S2P Require Import ActiveInit.
From S2P Require Import Mailbox.
From S2P Require Import Portal.
From S2P Require Import Communicator.
From S2P Require Import Vmailbox.
From S2P Require Import Vportal.
From S2P Require Import Sync.

Open Scope Z_scope.

(** How the target reads an [int] and the two values that a list of variable arguments
    holds, and constants of the HAL. *)
Class UserAbi := {
  load_int : gmap Z Z -> Z -> Z;
  sizeof_int : Z;
  va_args : gmap Z Z -> Z -> Z * Z;
  HAL_MAILBOX_MSG_SIZE : Z;
  HAL_PORTAL_MAX_SIZE : Z;
  SYNC_ONE_TO_ALL : Z;
  SYNC_ALL_TO_ONE : Z;
  cluster_get_num : Z;
}.

Definition COMM_TYPE_MAILBOX : Z := 0.
Definition COMM_TYPE_PORTAL : Z := 1.

Section sysnoc.
Context `{H : Hlib} `{N : NocHw} {T : NocTopology} {M : MailboxHw} {P : PortalHw} {Y : SyncHw} {RP : ResourcePool}
  `{ML : MemLayout} `{AB : Abi} `{UA : UserAbi} (t : mm_target).

(** ** Mailboxes *)

Definition KMAILBOX_MESSAGE_SIZE : Z := HAL_MAILBOX_MSG_SIZE - KMAILBOX_MESSAGE_HEADER_SIZE.

Definition kernel_mailbox_create (junk : Z * Z) (local port : Z) : K comms Z :=
  if negb (WITHIN local 0 PROCESSOR_NOC_NODES_NUM) then mret (err EINVAL) else
  if negb (WITHIN port 0 MAILBOX_PORT_NR) then mret (err EINVAL) else
  do_vmailbox_create junk local port.

Definition kernel_mailbox_open (junk : Z * Z) (remote remote_port : Z) : K comms Z :=
  if negb (WITHIN remote 0 PROCESSOR_NOC_NODES_NUM) then mret (err EINVAL) else
  if negb (WITHIN remote_port 0 MAILBOX_PORT_NR) then mret (err EINVAL) else
  do_vmailbox_open junk remote remote_port.

Definition kernel_mailbox_unlink (mbxid : Z) : K comms Z :=
  if negb (WITHIN mbxid 0 KMAILBOX_MAX) then mret (err EINVAL) else do_vmailbox_unlink mbxid.

Definition kernel_mailbox_close (mbxid : Z) : K comms Z :=
  if negb (WITHIN mbxid 0 KMAILBOX_MAX) then mret (err EINVAL) else do_vmailbox_close mbxid.

Definition kernel_mailbox_awrite (mbxid buffer size : Z) : K comms Z :=
  if negb (WITHIN mbxid 0 KMAILBOX_MAX) then mret (err EINVAL) else
  if (size =? 0) || (KMAILBOX_MESSAGE_SIZE <? size) then mret (err EINVAL) else
  if buffer =? 0 then mret (err EINVAL) else
  if negb (mm_check_area t buffer size UMEM_AREA) then mret (err EFAULT) else
  do_vmailbox_awrite mbxid buffer size.

Definition kernel_mailbox_aread (mbxid buffer size : Z) : K comms Z :=
  if negb (WITHIN mbxid 0 KMAILBOX_MAX) then mret (err EINVAL) else
  if (size =? 0) || (KMAILBOX_MESSAGE_SIZE <? size) then mret (err EINVAL) else
  if buffer =? 0 then mret (err EINVAL) else
  if negb (mm_check_area t buffer size UMEM_AREA) then mret (err EFAULT) else
  do_vmailbox_aread mbxid buffer size.

Definition kernel_mailbox_wait (mbxid : Z) : K comms Z :=
  if negb (WITHIN mbxid 0 KMAILBOX_MAX) then mret (err EINVAL) else do_vmailbox_wait mbxid.

(** The caches are not modelled. *)
Definition kernel_mailbox_ioctl (mbxid request args : Z) : K comms Z :=
  if negb (WITHIN mbxid 0 KMAILBOX_MAX) then mret (err EINVAL) else
  if args =? 0 then mret (err EINVAL) else
  a ← kgets (fun s => va_args (umem (cs_noc s)) args);
  do_vmailbox_ioctl t mbxid request (fst a) (snd a).

(** ** Portals *)

Definition kernel_portal_create (junk : Z * Z) (local port : Z) : K comms Z :=
  if NANVIX_IKC_USES_ONLY_MAILBOX then mret (err ENOSYS) else
  if negb (WITHIN local 0 PROCESSOR_NOC_NODES_NUM) then mret (err EINVAL) else
  if negb (WITHIN port 0 KPORTAL_PORT_NR) then mret (err EINVAL) else
  do_vportal_create junk local port.

Definition kernel_portal_allow (portalid remote remote_port : Z) : K comms Z :=
  if NANVIX_IKC_USES_ONLY_MAILBOX then mret (err ENOSYS) else
  if negb (WITHIN portalid 0 KPORTAL_MAX) then mret (err EINVAL) else
  if negb (WITHIN remote 0 PROCESSOR_NOC_NODES_NUM) then mret (err EINVAL) else
  if negb (WITHIN remote_port 0 KPORTAL_PORT_NR) then mret (err EINVAL) else
  do_vportal_allow portalid remote remote_port.

Definition kernel_portal_open (junk : Z * Z) (local remote remote_port : Z) : K comms Z :=
  if NANVIX_IKC_USES_ONLY_MAILBOX then mret (err ENOSYS) else
  if negb (WITHIN local 0 PROCESSOR_NOC_NODES_NUM) then mret (err EINVAL) else
  if negb (WITHIN remote 0 PROCESSOR_NOC_NODES_NUM) then mret (err EINVAL) else
  if negb (WITHIN remote_port 0 KPORTAL_PORT_NR) then mret (err EINVAL) else
  do_vportal_open junk local remote remote_port.

Definition kernel_portal_unlink (portalid : Z) : K comms Z :=
  if NANVIX_IKC_USES_ONLY_MAILBOX then mret (err ENOSYS) else
  if negb (WITHIN portalid 0 KPORTAL_MAX) then mret (err EINVAL) else do_vportal_unlink portalid.

Definition kernel_portal_close (portalid : Z) : K comms Z :=
  if NANVIX_IKC_USES_ONLY_MAILBOX then mret (err ENOSYS) else
  if negb (WITHIN portalid 0 KPORTAL_MAX) then mret (err EINVAL) else do_vportal_close portalid.

Definition kernel_portal_awrite (portalid buffer size : Z) : K comms Z :=
  if NANVIX_IKC_USES_ONLY_MAILBOX then mret (err ENOSYS) else
  if negb (WITHIN portalid 0 KPORTAL_MAX) then mret (err EINVAL) else
  if (size =? 0) || (HAL_PORTAL_MAX_SIZE <? size) then mret (err EINVAL) else
  if buffer =? 0 then mret (err EINVAL) else
  if negb (mm_check_area t buffer size UMEM_AREA) then mret (err EFAULT) else
  do_vportal_awrite portalid buffer size.

Definition kernel_portal_aread (portalid buffer size : Z) : K comms Z :=
  if NANVIX_IKC_USES_ONLY_MAILBOX then mret (err ENOSYS) else
  if negb (WITHIN portalid 0 KPORTAL_MAX) then mret (err EINVAL) else
  if (size =? 0) || (HAL_PORTAL_MAX_SIZE <? size) then mret (err EINVAL) else
  if buffer =? 0 then mret (err EINVAL) else
  if negb (mm_check_area t buffer size UMEM_AREA) then mret (err EFAULT) else
  do_vportal_aread portalid buffer size.

Definition kernel_portal_wait (portalid : Z) : K comms Z :=
  if NANVIX_IKC_USES_ONLY_MAILBOX then mret (err ENOSYS) else
  if negb (WITHIN portalid 0 KPORTAL_MAX) then mret (err EINVAL) else do_vportal_wait portalid.

Definition kernel_portal_ioctl (portalid request args : Z) : K comms Z :=
  if NANVIX_IKC_USES_ONLY_MAILBOX then mret (err ENOSYS) else
  if negb (WITHIN portalid 0 KPORTAL_MAX) then mret (err EINVAL) else
  if args =? 0 then mret (err EINVAL) else
  a ← kgets (fun s => va_args (umem (cs_noc s)) args);
  do_vportal_ioctl t portalid request (fst a) (snd a).

(** ** Synchronization points *)

(** The [int]s at address [nodes] of the user memory. *)
Definition load_nodes (m : gmap Z Z) (nodes nnodes : Z) : list Z :=
  map (fun i => load_int m (nodes + sizeof_int * Z.of_nat i)) (seq 0 (Z.to_nat nnodes)).

(** The loop of [sync_nodelist_is_valid], over a list of [nnodes] nodes: the bits of the
    nodes, or none when a node is invalid or appears twice. *)
Fixpoint nodelist_checks (nodes : list Z) (checks : Z) : option Z :=
  match nodes with
  | [] => Some checks
  | node :: nodes =>
      if negb (WITHIN node 0 PROCESSOR_NOC_NODES_NUM) then None else
      if negb (Z.land checks (u64 (Z.shiftl 1 node)) =? 0) then None else
      nodelist_checks nodes (Z.lor checks (u64 (Z.shiftl 1 node)))
  end.

(** The result is an [int]: the low 32 bits of the mask. *)
Definition sync_nodelist_is_valid (nodes : list Z) (is_the_one : bool) : bool :=
  let local := processor_node_get_num in
  match nodes with
  | [] => false
  | first :: _ =>
      if is_the_one && negb (first =? local) then false else
      if negb is_the_one && (first =? local) then false else
      match nodelist_checks nodes 0 with
      | Some checks => negb (u32 (Z.land checks (u64 (Z.shiftl 1 local))) =? 0)
      | None => false
      end
  end.

Definition kernel_sync_check (nodes nnodes type the_one : Z) (call : list Z -> K syncs Z) : K syncs Z :=
  if NANVIX_IKC_USES_ONLY_MAILBOX then mret (err ENOSYS) else
  if nodes =? 0 then mret (err EINVAL) else
  if negb (WITHIN nnodes 2 (PROCESSOR_NOC_NODES_NUM + 1)) then mret (err EINVAL) else
  if negb (type =? SYNC_ONE_TO_ALL) && negb (type =? SYNC_ALL_TO_ONE) then mret (err EINVAL) else
  if negb (mm_check_area t nodes (sizeof_int * nnodes) UMEM_AREA) then mret (err EFAULT) else
  l ← kgets (fun s => load_nodes (sy_umem s) nodes nnodes);
  if negb (sync_nodelist_is_valid l (type =? the_one)) then mret (err EINVAL) else
  call l.

Definition kernel_sync_create (nodes nnodes type : Z) : K syncs Z :=
  kernel_sync_check nodes nnodes type SYNC_ALL_TO_ONE (fun l => do_vsync_create l nnodes type).

Definition kernel_sync_open (nodes nnodes type : Z) : K syncs Z :=
  kernel_sync_check nodes nnodes type SYNC_ONE_TO_ALL (fun l => do_vsync_open l nnodes type).

Definition kernel_sync_id (syncid : Z) (call : K syncs Z) : K syncs Z :=
  if NANVIX_IKC_USES_ONLY_MAILBOX then mret (err ENOSYS) else
  if negb (WITHIN syncid 0 KSYNC_MAX) then mret (err EINVAL) else call.

Definition kernel_sync_wait (syncid : Z) : K syncs Z := kernel_sync_id syncid (do_vsync_wait syncid).
Definition kernel_sync_signal (syncid : Z) : K syncs Z := kernel_sync_id syncid (do_vsync_signal syncid).
Definition kernel_sync_close (syncid : Z) : K syncs Z := kernel_sync_id syncid (do_vsync_close syncid).
Definition kernel_sync_unlink (syncid : Z) : K syncs Z := kernel_sync_id syncid (do_vsync_unlink syncid).

Definition kernel_sync_ioctl (syncid request args : Z) : K syncs Z :=
  kernel_sync_id syncid (
    if args =? 0 then mret (err EINVAL) else
    a ← kgets (fun s => va_args (sy_umem s) args);
    do_vsync_ioctl t syncid request (fst a)).

(** ** Nodes and ports, on a processor with a network-on-chip and clusters *)

Definition kernel_node_get_num : Z := processor_node_get_num.
Definition kernel_cluster_get_num : Z := cluster_get_num.

(** The call on the mailboxes and the portals. *)
Definition kernel_comm_get_port {S} (mailboxes portals : K comms Z -> K S Z) (id type : Z) : K S Z :=
  if type =? COMM_TYPE_MAILBOX then mailboxes (do_vmailbox_get_port id) else
  if (type =? COMM_TYPE_PORTAL) && negb NANVIX_IKC_USES_ONLY_MAILBOX then portals (do_vportal_get_port id) else
  mret (err ENOSYS).

End sysnoc.
