(* ===== verification/SysNocSpec.v ===== *)
(** * Kernel calls of the network-on-chip: specification

    What [sync_nodelist_is_valid] accepts, and that the calls that create, open and
    release synchronization points reach the component only with arguments on which it
    is defined, except for the identifiers past the end of its table. *)

From stdpp Require Import base gmap list.
From S2P Require Import Prelude.
From S2P Require Import Hlib.
From S2P Require Import MemLayout.
From S2P Require Import Active.
From S2P Require Import ActiveInit.
From S2P Require Import Mailbox.
From S2P Require Import Portal.
From S2P Require Import Communicator.
From S2P Require Import Sync.
From S2P Require Import SyncSpec.
From S2P Require Import SysNoc.

Open Scope Z_scope.

(** ** Bit masks *)

Lemma land_pow2 c n : 0 ≤ n -> Z.land c (2 ^ n) = if Z.testbit c n then 2 ^ n else 0.
Proof.
  intros Hn. apply Z.bits_inj'. intros i Hi. rewrite Z.land_spec, Z.pow2_bits_eqb by done.
  destruct (Z.eqb_spec n i) as [->|Hne].
  - rewrite andb_true_r. destruct (Z.testbit c i) eqn:E; [by rewrite Z.pow2_bits_true|by rewrite Z.bits_0].
  - rewrite andb_false_r. destruct (Z.testbit c n); [by rewrite Z.pow2_bits_false|by rewrite Z.bits_0].
Qed.

Lemma u64_shift n : 0 ≤ n < 64 -> u64 (Z.shiftl 1 n) = 2 ^ n.
Proof.
  intros Hn. rewrite Z.shiftl_1_l. apply u64_small. split; [lia|]. apply Z.pow_lt_mono_r; lia.
Qed.

Lemma u32_pow n : 0 ≤ n -> u32 (2 ^ n) = if decide (n < 32) then 2 ^ n else 0.
Proof.
  intros Hn. unfold u32. case_decide.
  - apply Z.mod_small. split; [lia|]. apply Z.pow_lt_mono_r; lia.
  - replace n with (32 + (n - 32)) by lia. rewrite Z.pow_add_r by lia. rewrite Z.mul_comm. apply Z.mod_mul. lia.
Qed.

Section spec.
Context `{H : Hlib} `{HL : !HlibLaws H} `{N : NocHw} {T : NocTopology} {TL : NocTopologyLaws T} {M : MailboxHw}
  {Y : SyncHw} {RP : ResourcePool} {RPL : ResourcePoolLaws RP} `{ML : MemLayout} `{AB : Abi} `{UA : UserAbi} (t : mm_target).

Definition nodes_valid (nodes : list Z) : Prop := NoDup nodes /\ Forall (fun n => 0 ≤ n < PROCESSOR_NOC_NODES_NUM) nodes.

Lemma nodelist_checks_spec nodes c :
  PROCESSOR_NOC_NODES_NUM ≤ 64 ->
  match nodelist_checks nodes c with
  | Some m => nodes_valid nodes /\ Forall (fun n => Z.testbit c n = false) nodes /\
      forall i, Z.testbit m i = true <-> Z.testbit c i = true \/ i ∈ nodes
  | None => ~ (nodes_valid nodes /\ Forall (fun n => Z.testbit c n = false) nodes)
  end.
Proof.
  intros H64. revert c. induction nodes as [|n nodes IH]; intros c; simpl.
  - split_and!; [split; constructor|constructor|]. intros i. split; [by left|]. by intros [?|?%not_elem_of_nil].
  - destruct (WITHIN n 0 PROCESSOR_NOC_NODES_NUM) eqn:Ew; simpl.
    2:{ apply WITHIN_false in Ew. intros [[_ Hf] _]. by apply Forall_cons in Hf as [? _]. }
    apply WITHIN_true in Ew. rewrite u64_shift, land_pow2 by lia.
    destruct (Z.testbit c n) eqn:Eb; simpl.
    + rewrite (proj2 (Z.eqb_neq (2 ^ n) 0)) by (apply Z.pow_nonzero; lia). simpl.
      intros [_ Hf]. apply Forall_cons in Hf as [? _]. congruence.
    + specialize (IH (Z.lor c (2 ^ n))).
      assert (Hbit : forall i, Z.testbit (Z.lor c (2 ^ n)) i = true <-> Z.testbit c i = true \/ i = n).
      { intros i. rewrite Z.lor_spec, orb_true_iff, Z.pow2_bits_eqb, Z.eqb_eq by lia. naive_solver. }
      assert (Hall : Forall (fun x => Z.testbit (Z.lor c (2 ^ n)) x = false) nodes <->
        Forall (fun x => Z.testbit c x = false) nodes /\ n ∉ nodes).
      { rewrite !Forall_forall. setoid_rewrite <- not_true_iff_false. setoid_rewrite Hbit.
        split; [|intros [Hf Hn] x Hx [?| ->]; [by apply (Hf x)|done]].
        intros Hf. split; [intros x Hx ?; apply (Hf x Hx); by left|]. intros Hx. apply (Hf n Hx). by right. }
      destruct (nodelist_checks nodes (Z.lor c (2 ^ n))) as [m|].
      * destruct IH as ((Hnd & Hr) & Hf & Hm). apply Hall in Hf as [Hf Hn]. split_and!.
        -- split; [by constructor|by constructor].
        -- by constructor.
        -- intros i. rewrite Hm, Hbit, elem_of_cons. tauto.
      * intros [[Hnd Hr] Hf]. apply IH. apply NoDup_cons in Hnd as [Hn Hnd]. apply Forall_cons in Hr as [_ Hr], Hf as [_ Hf].
        by rewrite Hall.
Qed.

Lemma sync_nodelist_iff nodes is_the_one :
  PROCESSOR_NOC_NODES_NUM ≤ 64 ->
  sync_nodelist_is_valid nodes is_the_one = true <->
    nodes_valid nodes /\ processor_node_get_num ∈ nodes /\ processor_node_get_num < 32 /\
    (head nodes = Some processor_node_get_num <-> is_the_one = true).
Proof.
  intros H64. pose proof node_num_range as Hloc. set (local := processor_node_get_num) in *.
  unfold sync_nodelist_is_valid. fold local. destruct nodes as [|first nodes].
  { split; [done|]. intros (_ & Hin & _). by apply not_elem_of_nil in Hin. }
  pose proof (nodelist_checks_spec (first :: nodes) 0 H64) as Hc. simpl head.
  assert (Hzero : forall l, Forall (fun n => Z.testbit 0 n = false) l) by (intros l; apply Forall_forall; intros; apply Z.bits_0).
  destruct (nodelist_checks (first :: nodes) 0) as [m|].
  - destruct Hc as (Hv & _ & Hm). rewrite u64_shift, land_pow2 by lia. specialize (Hm local). rewrite Z.bits_0 in Hm.
    assert (Hu : (u32 (if Z.testbit m local then 2 ^ local else 0) =? 0) = false <-> local ∈ first :: nodes /\ local < 32).
    { destruct (Z.testbit m local).
      - rewrite u32_pow by lia. case_decide.
        + rewrite Z.eqb_neq. pose proof (Z.pow_pos_nonneg 2 local). destruct (proj1 Hm eq_refl); [done|]. split; [done|lia].
        + split; [done|]. intros [_ ?]. lia.
      - split; [done|]. intros [Hin _]. by specialize (proj2 Hm (or_intror Hin)). }
    destruct is_the_one, (Z.eqb_spec first local) as [->|Hne]; simpl; rewrite ?negb_true_iff; try rewrite Hu; naive_solver.
  - split.
    + by destruct is_the_one, (first =? local).
    + intros (Hv & _). by destruct Hc.
Qed.

(** [sync_nodelist_is_valid] accepts exactly the lists of distinct nodes of the
    processor that contain the local node, which comes first if and only if it is the
    one.  The local node must be one of the first 32: the mask is returned as an [int],
    which loses the bits of the others. *)
Theorem sync_nodelist_correct nodes is_the_one :
  PROCESSOR_NOC_NODES_NUM ≤ 64 ->
  sync_nodelist_is_valid nodes is_the_one = true <->
    nodes_valid nodes /\ processor_node_get_num ∈ nodes /\ processor_node_get_num < 32 /\
    (head nodes = Some processor_node_get_num <-> is_the_one = true).
Proof. apply sync_nodelist_iff. Qed.

Lemma length_load_nodes m nodes nnodes : 0 ≤ nnodes -> alen (load_nodes m nodes nnodes) = nnodes.
Proof. intros Hn. unfold load_nodes. rewrite length_map, length_seq. lia. Qed.

(** Whatever the user passes, [kernel_sync_create] returns: with an error and no
    effect, or, when the list that the user's memory holds is valid, with the result of
    allocating the synchronization point of this list.  It never uses a node on which
    the construction of the mask is undefined. *)
Theorem kernel_sync_create_correct s nodes nnodes type :
  sync_ok s -> PROCESSOR_NOC_NODES_NUM ≤ 64 ->
  wp (kernel_sync_create t nodes nnodes type) (fun r s' =>
    let l := load_nodes (sy_umem s) nodes nnodes in
    s' = s /\ r ∈ [err ENOSYS; err EINVAL; err EFAULT] \/
    nodes_valid l /\ processor_node_get_num ∈ l /\ alen l = nnodes /\ mm_check_area t nodes (sizeof_int * nnodes) UMEM_AREA = true /\
    exists first nodeslist, head l = Some first /\ (forall k, 0 ≤ k -> Z.testbit nodeslist k = bool_decide (k ∈ l)) /\
      sync_allocated (true, type, first, nodeslist) (sync_create l nnodes type) s r s') s.
Proof.
  intros Hok H64. unfold kernel_sync_create, kernel_sync_check.
  assert (Herr : forall e, e ∈ [err ENOSYS; err EINVAL; err EFAULT] -> s = s /\ e ∈ [err ENOSYS; err EINVAL; err EFAULT]) by done.
  wp_step; [wp_step; left; apply Herr; set_solver|].
  wp_step; [wp_step; left; apply Herr; set_solver|].
  wp_step; [wp_step; left; apply Herr; set_solver|].
  wp_step; [wp_step; left; apply Herr; set_solver|].
  wp_step; [wp_step; left; apply Herr; set_solver|].
  do 2 wp_step. apply wp_if; intros Hvalid; [wp_step; left; apply Herr; set_solver|].
  apply negb_false_iff in Hvalid. apply (sync_nodelist_iff _ _ H64) in Hvalid as (Hv & Hin & _ & _).
  assert (Hn : 0 ≤ nnodes).
  { match goal with E : negb (WITHIN nnodes _ _) = false |- _ => apply negb_false_iff, WITHIN_true in E; lia end. }
  set (l := load_nodes (sy_umem s) nodes nnodes) in *. pose proof (length_load_nodes (sy_umem s) nodes nnodes Hn) as Hl. fold l in Hl.
  assert (H64l : Forall (fun v => 0 ≤ v < 64) l) by (destruct Hv as [_ Hr]; eapply Forall_impl; [exact Hr|]; simpl; lia).
  destruct (build_nodeslist_spec l 0 H64l) as (nl & Enl & Hbits).
  destruct l as [|first l']; [by apply not_elem_of_nil in Hin|].
  eapply wp_mono; [eapply (sync_alloc_spec (first :: l') nnodes); [done| |by rewrite aget_cons_0]|].
  - unfold sync_build_nodeslist. replace (Z.to_nat nnodes) with (length (first :: l')) by lia. exact Enl.
  - intros r s' Hr. right. split_and!; try done; [by apply negb_false_iff|]. exists first, nl. split_and!; try done.
    intros k Hk. by rewrite Hbits, Z.bits_0.
Qed.

(** The identifiers that the calls accept are bounded by [KSYNC_MAX], not by the
    size of the table: an identifier past its end is used as an index of the table. *)
Theorem kernel_sync_id_overrun s syncid :
  NANVIX_IKC_USES_ONLY_MAILBOX = false -> vsync_lock s = false -> alen (vsynctab s) ≤ syncid < KSYNC_MAX ->
  kernel_sync_unlink syncid s = Fault /\ kernel_sync_close syncid s = Fault.
Proof.
  intros Hflag Hlock Hid. unfold kernel_sync_unlink, kernel_sync_close, kernel_sync_id. rewrite Hflag.
  rewrite (proj2 (WITHIN_true syncid 0 KSYNC_MAX)) by lia. simpl.
  unfold do_vsync_unlink, do_vsync_close, _do_sync_release, lock_sync, spinlock_lock, sync_read, mbind, K_bind, kgets.
  rewrite Hlock. simpl. by rewrite (aget_ge _ _ (proj1 Hid)).
Qed.

End spec.
