(* ===== verification/Bytes.v ===== *)
(** * Bytes and words

    Unsigned integers of 8 and 16 bits, fields of a word, and the representation of words
    as sequences of bytes, for the drivers and for the TCP/IP stack.  A byte is a [Z]
    between 0 and 255. *)

From Stdlib Require Import Btauto.
From stdpp Require Import base list numbers.
From S2P Require Import Prelude.

Open Scope Z_scope.

Create HintDb bytes discriminated.

(** Quotient and remainder by a constant, for [lia]. *)
Ltac divmod x n := pose proof (Z.div_mod x n ltac:(lia)); pose proof (Z.mod_pos_bound x n ltac:(lia)).

Definition u8 (x : Z) : Z := x `mod` 2 ^ 8.
Definition u16 (x : Z) : Z := x `mod` 2 ^ 16.
Definition s32 (x : Z) : Z := (x + 2 ^ 31) `mod` 2 ^ 32 - 2 ^ 31.

Abbreviation byte x := (0 ≤ x < 256) (only parsing).
Abbreviation bytes l := (Forall (fun x : Z => 0 ≤ x < 256) l) (only parsing).

(** Bits [lo] to [lo + n - 1] of [x]. *)
Definition field (x lo n : Z) : Z := (x ≫ lo) `mod` 2 ^ n.

Lemma u8_range x : 0 ≤ u8 x < 256.
Proof. apply (Z.mod_pos_bound x 256). lia. Qed.

Lemma u16_range x : 0 ≤ u16 x < 65536.
Proof. apply (Z.mod_pos_bound x 65536). lia. Qed.

Lemma u32_range x : 0 ≤ u32 x < 2 ^ 32.
Proof. apply Z.mod_pos_bound. lia. Qed.

Lemma u8_small x : 0 ≤ x < 256 -> u8 x = x.
Proof. apply Z.mod_small. Qed.

Lemma u16_small x : 0 ≤ x < 65536 -> u16 x = x.
Proof. apply Z.mod_small. Qed.

Lemma u16_idem x : u16 (u16 x) = u16 x.
Proof. apply u16_small, u16_range. Qed.

Lemma u16_add_l x y : u16 (u16 x + y) = u16 (x + y).
Proof. apply Zplus_mod_idemp_l. Qed.

Lemma u16_add_r x y : u16 (x + u16 y) = u16 (x + y).
Proof. apply Zplus_mod_idemp_r. Qed.

Lemma u32_add_l x y : u32 (u32 x + y) = u32 (x + y).
Proof. apply Zplus_mod_idemp_l. Qed.

Lemma u32_add_r x y : u32 (x + u32 y) = u32 (x + y).
Proof. apply Zplus_mod_idemp_r. Qed.

Lemma u32_sub_l x y : u32 (u32 x - y) = u32 (x - y).
Proof. apply Zminus_mod_idemp_l. Qed.

Lemma u32_sub_r x y : u32 (x - u32 y) = u32 (x - y).
Proof. apply Zminus_mod_idemp_r. Qed.

Lemma land_mask x n : 0 ≤ n -> Z.land x (2 ^ n - 1) = x `mod` 2 ^ n.
Proof. intros. replace (2 ^ n - 1) with (Z.ones n) by (rewrite Z.ones_equiv; lia). by apply Z.land_ones. Qed.

Lemma land_255 x : Z.land x 255 = x `mod` 256.
Proof. apply (land_mask x 8). lia. Qed.

Lemma land_65535 x : Z.land x 65535 = x `mod` 65536.
Proof. apply (land_mask x 16). lia. Qed.

Lemma shiftl_mul x n : 0 ≤ n -> x ≪ n = x * 2 ^ n.
Proof. apply Z.shiftl_mul_pow2. Qed.

Lemma shiftr_div x n : 0 ≤ n -> x ≫ n = x `div` 2 ^ n.
Proof. apply Z.shiftr_div_pow2. Qed.

(** A word put together from a low part and a high part. *)
Lemma lor_add n x y : 0 ≤ n -> 0 ≤ x < 2 ^ n -> Z.lor x (y ≪ n) = x + y ≪ n.
Proof.
  intros Hn Hx. rewrite <- Z.add_lor_land. enough (Z.land x (y ≪ n) = 0) as -> by lia.
  apply Z.bits_inj'. intros k Hk. rewrite Z.land_spec, Z.bits_0, Z.shiftl_spec by done.
  destruct (Z.lt_ge_cases k n); [by rewrite (Z.testbit_neg_r y), andb_false_r by lia|].
  rewrite <- (Z.mod_small x (2 ^ n)), Z.mod_pow2_bits_high by lia. done.
Qed.

Lemma lor_add_l n x y : 0 ≤ n -> 0 ≤ x < 2 ^ n -> Z.lor (y ≪ n) x = x + y ≪ n.
Proof. rewrite Z.lor_comm. apply lor_add. Qed.

Lemma field_small x n : 0 ≤ x < 2 ^ n -> field x 0 n = x.
Proof. intros. unfold field. rewrite Z.shiftr_0_r. by apply Z.mod_small. Qed.

Lemma field_range x lo n : 0 ≤ n -> 0 ≤ field x lo n < 2 ^ n.
Proof. intros. apply Z.mod_pos_bound. lia. Qed.

(** A field of a word that is put together is a field of one of its parts. *)
Lemma field_high k x y lo n : 0 ≤ k ≤ lo -> 0 ≤ n -> 0 ≤ x < 2 ^ k -> field (x + y ≪ k) lo n = field y (lo - k) n.
Proof.
  intros Hk Hn Hx. unfold field. f_equal. rewrite !shiftr_div, shiftl_mul by lia.
  replace lo with (k + (lo - k)) at 1 by lia. rewrite Z.pow_add_r, <- Z.div_div by lia.
  by rewrite Z.div_add, (Z.div_small x) by lia.
Qed.

Lemma field_low k x y lo n : 0 ≤ lo -> 0 ≤ n -> lo + n ≤ k -> 0 ≤ x < 2 ^ k -> field (x + y ≪ k) lo n = field x lo n.
Proof.
  intros Hlo Hn Hk Hx. unfold field. rewrite !shiftr_div, shiftl_mul by lia.
  replace (y * 2 ^ k) with (y * 2 ^ (k - lo - n) * 2 ^ n * 2 ^ lo)
    by (rewrite <- !Z.mul_assoc, <- !Z.pow_add_r by lia; do 2 f_equal; lia).
  rewrite Z.div_add by lia. by rewrite Z.mod_add by lia.
Qed.

(** ** Sequences of bytes *)

(** Two bytes as a 16-bit word, in both orders. *)
Definition le16 (a b : Z) : Z := a + b * 256.
Definition be16 (a b : Z) : Z := a * 256 + b.

Lemma le16_range a b : byte a -> byte b -> 0 ≤ le16 a b < 65536.
Proof. unfold le16. lia. Qed.

Lemma be16_range a b : byte a -> byte b -> 0 ≤ be16 a b < 65536.
Proof. unfold be16. lia. Qed.

Definition be32 (a b c d : Z) : Z := ((a * 256 + b) * 256 + c) * 256 + d.

#[export] Hint Resolve u8_range u16_range u32_range : bytes.

(** Rounding down to a multiple of four with a mask of 32 bits. *)
Lemma land_align4 x : 0 ≤ x < 2 ^ 32 -> Z.land x (u32 (Z.lnot 3)) = x `div` 4 * 4.
Proof.
  intros Hx. change (u32 (Z.lnot 3)) with (Z.land (Z.ones 32) (Z.lnot (Z.ones 2))).
  rewrite Z.land_assoc, Z.land_ones, Z.mod_small, <- Z.ldiff_land, Z.ldiff_ones_r by lia.
  by rewrite shiftl_mul, shiftr_div by lia.
Qed.

(** A property of the integers of a small range, by evaluation. *)
Lemma range_check (P : Z -> bool) lo n k : forallb P (seqZ lo n) = true -> lo ≤ k < lo + n -> P k = true.
Proof. rewrite forallb_forall. intros Hall Hk. apply Hall, list_elem_of_In, elem_of_seqZ. lia. Qed.

Lemma range_holds (P : Z -> Prop) `{!forall x, Decision (P x)} lo n k :
  forallb (fun k => bool_decide (P k)) (seqZ lo n) = true -> lo ≤ k < lo + n -> P k.
Proof. intros Hall Hk. pose proof (range_check _ lo n k Hall Hk) as Hp. by apply bool_decide_eq_true in Hp. Qed.

Lemma field_testbit x lo n i : 0 ≤ lo -> 0 ≤ i < n -> Z.testbit (field x lo n) i = Z.testbit x (i + lo).
Proof. intros. unfold field. rewrite Z.mod_pow2_bits_low, Z.shiftr_spec by lia. done. Qed.

Lemma field_eq x lo n y : 0 ≤ lo -> 0 ≤ n -> 0 ≤ y < 2 ^ n -> (forall i, 0 ≤ i < n -> Z.testbit x (i + lo) = Z.testbit y i) -> field x lo n = y.
Proof.
  intros Hlo Hn Hy Hb. apply Z.bits_inj'. intros i Hi. destruct (Z.lt_ge_cases i n).
  - rewrite field_testbit by lia. apply Hb. lia.
  - rewrite <- (Z.mod_small y (2 ^ n)) by lia. unfold field. by rewrite !Z.mod_pow2_bits_high by lia.
Qed.

(** The bytes of a word of four bytes. *)
Lemma fields4 a b c d : byte a -> byte b -> byte c -> byte d ->
  let w := d + (c + (b + a ≪ 8) ≪ 8) ≪ 8 in
  0 ≤ w < 2 ^ 32 /\ field w 0 8 = d /\ field w 8 8 = c /\ field w 16 8 = b /\ field w 24 8 = a.
Proof.
  intros Ha Hb Hc Hd w. subst w. split; [rewrite !shiftl_mul by lia; lia|]. split_and!.
  - rewrite (field_low 8) by lia. by apply field_small.
  - rewrite (field_high 8), (field_low 8) by lia. by apply field_small.
  - rewrite (field_high 8), (field_high 8), (field_low 8) by lia. by apply field_small.
  - rewrite (field_high 8), (field_high 8), (field_high 8) by lia. by apply field_small.
Qed.

Lemma fields2 a b : byte a -> byte b -> let w := b + a ≪ 8 in 0 ≤ w < 2 ^ 16 /\ field w 0 8 = b /\ field w 8 8 = a.
Proof.
  intros Ha Hb w. subst w. split; [rewrite !shiftl_mul by lia; lia|]. split.
  - rewrite (field_low 8) by lia. by apply field_small.
  - rewrite (field_high 8) by lia. by apply field_small.
Qed.

Lemma testbit_high x n i : 0 ≤ x < 2 ^ n -> n ≤ i -> Z.testbit x i = false.
Proof.
  intros Hx Hi. destruct (Z.lt_ge_cases n 0); [rewrite Z.pow_neg_r in Hx by lia; lia|].
  rewrite <- (Z.mod_small x (2 ^ n)) by lia. apply Z.mod_pow2_bits_high. lia.
Qed.

Lemma bits_lt x n : 0 ≤ n -> 0 ≤ x -> (forall i, n ≤ i -> Z.testbit x i = false) -> x < 2 ^ n.
Proof.
  intros Hn Hx Hb. assert (E : x = x `mod` 2 ^ n).
  { apply Z.bits_inj'. intros i Hi. destruct (Z.lt_ge_cases i n); [by rewrite Z.mod_pow2_bits_low by lia|].
    rewrite Z.mod_pow2_bits_high by lia. by apply Hb. }
  rewrite E. apply Z.mod_pos_bound. lia.
Qed.

(** Putting four bytes together. *)
Lemma word4 a b c d : byte a -> byte b -> byte c -> byte d ->
  Z.lor (Z.lor (Z.lor (a ≪ 24) (b ≪ 16)) (c ≪ 8)) d = d + (c + (b + a ≪ 8) ≪ 8) ≪ 8.
Proof.
  intros Ha Hb Hc Hd. rewrite <- (lor_add 8 b), <- (lor_add 8 c), <- (lor_add 8 d), !Z.shiftl_lor, !Z.shiftl_shiftl by lia.
  change (8 + (8 + 8)) with 24. change (8 + 8) with 16. apply Z.bits_inj'. intros k _. rewrite !Z.lor_spec. btauto.
Qed.

Lemma be32_word a b c d : be32 a b c d = d + (c + (b + a ≪ 8) ≪ 8) ≪ 8.
Proof. unfold be32. rewrite !shiftl_mul by lia. lia. Qed.

Lemma be32_range a b c d : byte a -> byte b -> byte c -> byte d -> 0 ≤ be32 a b c d < 2 ^ 32.
Proof. intros. unfold be32. lia. Qed.

Lemma land_byte x k : 0 ≤ k -> Z.land x (255 ≪ k) = field x k 8 ≪ k.
Proof.
  intros Hk. unfold field. rewrite <- (Z.land_ones (x ≫ k)) by lia. change (Z.ones 8) with 255.
  apply Z.bits_inj'. intros i Hi. rewrite Z.land_spec, !Z.shiftl_spec, Z.land_spec by lia.
  destruct (Z.lt_ge_cases i k); [by rewrite (Z.testbit_neg_r 255), !andb_false_r by lia|]. rewrite Z.shiftr_spec by lia.
  do 2 f_equal. lia.
Qed.
