(* ===== verification/Pci.v ===== *)
(** * The PCI driver

    src/kernel/dev/bus/pci.c and include/dev/pci.h: reading and writing the configuration
    registers of the functions of the PCI devices, and the search for a device.  The ports
    of the processor are a parameter, as is the configuration space behind them. *)

From Stdlib Require Import Btauto.
From stdpp Require Import base list numbers.
From S2P Require Import Prelude.
From S2P Require Import Bytes.

Open Scope Z_scope.

(** ** Ports of the processor (HAL) *)

Class IoPorts := {
  ports : Type;
  output8 : Z -> Z -> ports -> ports;
  output16 : Z -> Z -> ports -> ports;
  output32 : Z -> Z -> ports -> ports;
  input8 : Z -> ports -> Z * ports;
  input16 : Z -> ports -> Z * ports;
  input32 : Z -> ports -> Z * ports;
}.

(** Reading a port may change the state of the device behind it. *)
Definition kin {S} (f : S -> Z * S) : K S Z := fun s => Done (fst (f s)) (snd (f s)).

(** ** Registers (include/dev/pci.h) *)

Record pci_dev := Pci_dev {
  register_offset : Z;
  function_num : Z;
  device_num : Z;
  bus_num : Z;
  reserved : Z;
  enable : Z;
}.

Definition PCI_CONFIG_ADDRESS : Z := 0xCF8.
Definition PCI_CONFIG_DATA : Z := 0xCFC.

Definition PCI_VENDOR_ID : Z := 0x00.
Definition PCI_DEVICE_ID : Z := 0x02.
Definition PCI_COMMAND : Z := 0x04.
Definition PCI_STATUS : Z := 0x06.
Definition PCI_SUBCLASS : Z := 0x0a.
Definition PCI_CLASS : Z := 0x0b.
Definition PCI_CACHE_LINE_SIZE : Z := 0x0c.
Definition PCI_LATENCY_TIMER : Z := 0x0d.
Definition PCI_HEADER_TYPE : Z := 0x0e.
Definition PCI_BIST : Z := 0x0f.
Definition PCI_BAR0 : Z := 0x10.
Definition PCI_BAR1 : Z := 0x14.
Definition PCI_BAR2 : Z := 0x18.
Definition PCI_BAR3 : Z := 0x1C.
Definition PCI_BAR4 : Z := 0x20.
Definition PCI_BAR5 : Z := 0x24.
Definition PCI_INTERRUPT_LINE : Z := 0x3C.
Definition PCI_SECONDARY_BUS : Z := 0x09.
Definition PCI_TYPE_BRIDGE : Z := 0x0604.

Definition NUMBER_OF_BUSES : Z := 256.
Definition DEVICE_PER_BUS : Z := 32.
Definition FUNCTION_PER_DEVICE : Z := 8.

Definition dev_zero : pci_dev := Pci_dev 0 0 0 0 0 0.

Definition dev_pci_bits_from_fields (dev : pci_dev) : Z :=
  let bits := u32 (enable dev ≪ 31) in
  let bits := Z.lor bits (u32 (reserved dev ≪ 24)) in
  let bits := Z.lor bits (u32 (bus_num dev ≪ 16)) in
  let bits := Z.lor bits (u32 (device_num dev ≪ 11)) in
  let bits := Z.lor bits (u32 (function_num dev ≪ 8)) in
  Z.lor bits (Z.land (register_offset dev) 0xFC).

Definition pci_size_map (field : Z) : Z :=
  if existsb (Z.eqb field) [PCI_SUBCLASS; PCI_CLASS; PCI_CACHE_LINE_SIZE; PCI_LATENCY_TIMER; PCI_HEADER_TYPE;
    PCI_BIST; PCI_INTERRUPT_LINE; PCI_SECONDARY_BUS] then 1
  else if existsb (Z.eqb field) [PCI_VENDOR_ID; PCI_DEVICE_ID; PCI_COMMAND; PCI_STATUS] then 2
  else if existsb (Z.eqb field) [PCI_BAR0; PCI_BAR1; PCI_BAR2; PCI_BAR3; PCI_BAR4; PCI_BAR5] then 4
  else 0.

Section pci.
Context `{P : IoPorts}.

(** ** Access to the registers *)

Definition pci_select (dev : pci_dev) (offset : Z) : K ports unit :=
  kmodify (output32 PCI_CONFIG_ADDRESS (dev_pci_bits_from_fields
    (Pci_dev offset (function_num dev) (device_num dev) (bus_num dev) (reserved dev) 1))).

Definition dev_pci_read (dev : pci_dev) (offset : Z) : K ports Z :=
  pci_select dev offset;;
  let size := pci_size_map offset in
  if size =? 1 then kin (input8 (PCI_CONFIG_DATA + Z.land offset 3))
  else if size =? 2 then kin (input16 (PCI_CONFIG_DATA + Z.land offset 2))
  else if size =? 4 then kin (input32 PCI_CONFIG_DATA)
  else mret 0xffff.

Definition dev_pci_write (dev : pci_dev) (offset value : Z) : K ports unit :=
  pci_select dev offset;;
  kmodify (output32 PCI_CONFIG_DATA value).

Definition dev_pci_get_device_type (dev : pci_dev) : K ports Z :=
  t ← dev_pci_read dev PCI_CLASS;
  s ← dev_pci_read dev PCI_SUBCLASS;
  mret (Z.lor (u32 (t ≪ 8)) s).

(** ** The search

    A function that is a bridge makes the search scan the bus behind it, so the search of
    a bus calls itself through the search of a device and of a function.  The depth of
    this recursion is the fuel of [dev_pci_scan_bus]. *)

Definition pci_type_matches (dev : pci_dev) (device_type : Z) : K ports bool :=
  if device_type =? u32 (-1) then mret true
  else ty ← dev_pci_get_device_type dev; mret (device_type =? ty).

(** [for (i = 0; i < n; i++) { t = f(i); if (dev_pci_bits_from_fields(t)) return t; } return dev_zero;] *)
Definition pci_scan (n : Z) (f : Z -> K ports pci_dev) : K ports pci_dev :=
  kfor (Z.to_nat n) 0 (fun i r =>
    t ← f i; mret (if dev_pci_bits_from_fields t =? 0 then (r, false) else (t, true))) dev_zero.

Definition dev_pci_scan_function (scan_bus : Z -> K ports pci_dev)
    (vendor_id device_id bus device function device_type : Z) : K ports pci_dev :=
  let dev := Pci_dev 0 function device bus 0 0 in
  ty ← dev_pci_get_device_type dev;
  (if ty =? PCI_TYPE_BRIDGE then
     (sec ← dev_pci_read dev PCI_SECONDARY_BUS; scan_bus sec);; mret tt
   else mret tt);;
  right_type ← pci_type_matches dev device_type;
  if (right_type : bool) then
    devid ← dev_pci_read dev PCI_DEVICE_ID;
    vendid ← dev_pci_read dev PCI_VENDOR_ID;
    mret (if (devid =? device_id) && (vendor_id =? vendid) then dev else dev_zero)
  else mret dev_zero.

Definition dev_pci_scan_device (scan_bus : Z -> K ports pci_dev)
    (vendor_id device_id bus device device_type : Z) : K ports pci_dev :=
  pci_scan FUNCTION_PER_DEVICE (fun function =>
    dev_pci_scan_function scan_bus vendor_id device_id bus device function device_type).

Fixpoint dev_pci_scan_bus (fuel : nat) (vendor_id device_id bus device_type : Z) : K ports pci_dev :=
  match fuel with
  | O => khang
  | S fuel =>
      pci_scan DEVICE_PER_BUS (fun device =>
        dev_pci_scan_device (fun sec => dev_pci_scan_bus fuel vendor_id device_id sec device_type)
          vendor_id device_id bus device device_type)
  end.

Definition dev_pci_get_device (fuel : nat) (vendor_id device_id device_type : Z) : K ports pci_dev :=
  pci_scan NUMBER_OF_BUSES (fun bus => dev_pci_scan_bus fuel vendor_id device_id bus device_type).

End pci.

(** ** The configuration space

    The first access mechanism of PCI: the address register selects a function and one of
    its registers of four bytes, and the data port gives access to the selected register.
    [config p b d f r] is the content of register [r] of function [f] of device [d] on bus
    [b].  Reading a register of the header of a function has no side effect. *)

Class PciConfig `{P : IoPorts} := {
  config : ports -> Z -> Z -> Z -> Z -> Z;
  config_range p b d f r : 0 ≤ config p b d f r < 2 ^ 32;
  config_select p a : config (output32 PCI_CONFIG_ADDRESS a p) = config p;
  config_in8 p a k : 0 ≤ k < 4 -> Z.testbit a 31 = true ->
    fst (input8 (PCI_CONFIG_DATA + k) (output32 PCI_CONFIG_ADDRESS a p)) =
    field (config p (field a 16 8) (field a 11 5) (field a 8 3) (field a 2 6)) (8 * k) 8;
  config_in16 p a k : k = 0 \/ k = 2 -> Z.testbit a 31 = true ->
    fst (input16 (PCI_CONFIG_DATA + k) (output32 PCI_CONFIG_ADDRESS a p)) =
    field (config p (field a 16 8) (field a 11 5) (field a 8 3) (field a 2 6)) (8 * k) 16;
  config_in32 p a : Z.testbit a 31 = true ->
    fst (input32 PCI_CONFIG_DATA (output32 PCI_CONFIG_ADDRESS a p)) =
    config p (field a 16 8) (field a 11 5) (field a 8 3) (field a 2 6);
  config_keep8 p k : 0 ≤ k < 4 -> config (snd (input8 (PCI_CONFIG_DATA + k) p)) = config p;
  config_keep16 p k : 0 ≤ k < 4 -> config (snd (input16 (PCI_CONFIG_DATA + k) p)) = config p;
  config_keep32 p : config (snd (input32 PCI_CONFIG_DATA p)) = config p;
}.

(** The functions of all devices, in the order of the search. *)
Definition in_pci (b d f : Z) : Prop := 0 ≤ b < NUMBER_OF_BUSES /\ 0 ≤ d < DEVICE_PER_BUS /\ 0 ≤ f < FUNCTION_PER_DEVICE.

Definition pci_functions : list (Z * Z * Z) :=
  b ← seqZ 0 NUMBER_OF_BUSES; d ← seqZ 0 DEVICE_PER_BUS; f ← seqZ 0 FUNCTION_PER_DEVICE; mret (b, d, f).

Section spec.
Context `{P : IoPorts} `{C : !PciConfig}.

(** A register of [size] bytes at a byte offset, in configuration space [c]. *)
Definition creg (c : Z -> Z -> Z -> Z -> Z) (b d f offset : Z) : Z :=
  field (c b d f (offset `div` 4)) (8 * (offset `mod` 4)) (8 * pci_size_map offset).

Definition ctype c b d f : Z := creg c b d f PCI_CLASS * 256 + creg c b d f PCI_SUBCLASS.
Definition is_bridge c b d f : bool := ctype c b d f =? PCI_TYPE_BRIDGE.

Definition pci_matches c (vendor_id device_id device_type : Z) '(b, d, f) : bool :=
  ((device_type =? u32 (-1)) || (device_type =? ctype c b d f)) &&
  ((creg c b d f PCI_DEVICE_ID =? device_id) && (vendor_id =? creg c b d f PCI_VENDOR_ID)).

Definition pci_found (x : option (Z * Z * Z)) : pci_dev :=
  match x with Some (b, d, f) => Pci_dev 0 f d b 0 0 | None => dev_zero end.

(** ** The address of a register *)

Lemma land_register off : 0 ≤ off < 256 -> Z.land off 0xFC = (off `div` 4) ≪ 2.
Proof.
  assert (Hall : forallb (fun k => Z.land k 0xFC =? (k `div` 4) ≪ 2) (seqZ 0 256) = true) by (vm_compute; reflexivity).
  rewrite forallb_forall in Hall. intros Hr. apply Z.eqb_eq, Hall, list_elem_of_In, elem_of_seqZ. lia.
Qed.

Lemma register_range off : 0 ≤ off < 256 -> 0 ≤ (off `div` 4) ≪ 2 < 2 ^ 8 /\ 0 ≤ off `div` 4 < 2 ^ 6.
Proof.
  intros Ho. rewrite shiftl_mul by lia. pose proof (Z.div_mod off 4 ltac:(lia)). pose proof (Z.mod_pos_bound off 4 ltac:(lia)). lia.
Qed.

Lemma bits_address b d f off :
  in_pci b d f -> 0 ≤ off < 256 ->
  dev_pci_bits_from_fields (Pci_dev off f d b 0 1) =
  (off `div` 4) ≪ 2 + (f + (d + (b + 1 ≪ 15) ≪ 5) ≪ 3) ≪ 8.
Proof.
  unfold in_pci, NUMBER_OF_BUSES, DEVICE_PER_BUS, FUNCTION_PER_DEVICE. intros (Hb & Hd & Hf) Ho.
  unfold dev_pci_bits_from_fields. simpl bus_num. simpl device_num. simpl function_num. simpl register_offset.
  rewrite land_register by done. simpl enable. simpl reserved. pose proof (register_range off Ho).
  rewrite <- (lor_add 15 b 1), <- (lor_add 5 d), <- (lor_add 3 f), <- (lor_add 8 ((off `div` 4) ≪ 2)) by lia.
  rewrite !Z.shiftl_lor, !Z.shiftl_shiftl by lia. change (15 + (5 + (3 + 8))) with 31. change (5 + (3 + 8)) with 16. change (3 + 8) with 11.
  rewrite !(u32_small (_ ≪ _)) by (rewrite ?shiftl_mul by lia; lia).
  rewrite Z.shiftl_0_l, Z.lor_0_r. apply Z.bits_inj'. intros k _. rewrite !Z.lor_spec. btauto.
Qed.

Lemma bits_decode b d f off :
  in_pci b d f -> 0 ≤ off < 256 ->
  let a := dev_pci_bits_from_fields (Pci_dev off f d b 0 1) in
  Z.testbit a 31 = true /\ field a 16 8 = b /\ field a 11 5 = d /\ field a 8 3 = f /\ field a 2 6 = off `div` 4.
Proof.
  intros Hin Ho a. subst a. rewrite (bits_address b d f off Hin Ho).
  destruct Hin as (Hb & Hd & Hf). unfold NUMBER_OF_BUSES, DEVICE_PER_BUS, FUNCTION_PER_DEVICE in *.
  destruct (register_range off Ho) as [Hr Hq]. split_and!.
  - rewrite !shiftl_mul in * by lia. apply Z.testbit_true; [lia|].
    replace (_ + _) with ((off `div` 4 * 2 ^ 2 + (f + (d + b * 2 ^ 5) * 2 ^ 3) * 2 ^ 8) + 1 * 2 ^ 31) by lia.
    rewrite Z.div_add, Z.div_small by lia. done.
  - rewrite (field_high 8) by lia. rewrite (field_high 3) by lia. rewrite (field_high 5) by lia.
    rewrite (field_low 15) by lia. by apply field_small.
  - rewrite (field_high 8) by lia. rewrite (field_high 3) by lia. rewrite (field_low 5) by lia. by apply field_small.
  - rewrite (field_high 8) by lia. rewrite (field_low 3) by lia. by apply field_small.
  - rewrite (field_low 8) by lia. pose proof (field_high 2 0 (off `div` 4) 2 6 ltac:(lia) ltac:(lia) ltac:(lia)) as E.
    rewrite Z.add_0_l in E. rewrite E. by apply field_small.
Qed.

(** Only function 0 of device 0 on bus 0 has the address 0. *)
Lemma bits_zero b d f : in_pci b d f -> dev_pci_bits_from_fields (Pci_dev 0 f d b 0 0) = 0 <-> (b, d, f) = (0, 0, 0).
Proof.
  unfold in_pci, NUMBER_OF_BUSES, DEVICE_PER_BUS, FUNCTION_PER_DEVICE. intros (Hb & Hd & Hf). split; [|by intros [= -> -> ->]].
  unfold dev_pci_bits_from_fields. simpl. rewrite !(u32_small (_ ≪ _)) by (rewrite ?shiftl_mul by lia; lia).
  rewrite Z.lor_0_r, !Z.lor_eq_0_iff. intros [[[_ Eb] Ed] Ef]. rewrite shiftl_mul in Eb, Ed, Ef by lia. f_equal; [f_equal|]; lia.
Qed.

(** ** Reading registers *)

Lemma size_register off :
  pci_size_map off <> 0 ->
  0 ≤ off < 256 /\
  (pci_size_map off = 1 /\ Z.land off 3 = off `mod` 4 \/
   pci_size_map off = 2 /\ Z.land off 2 = off `mod` 4 /\ (off `mod` 4 = 0 \/ off `mod` 4 = 2) \/
   pci_size_map off = 4 /\ off `mod` 4 = 0).
Proof.
  unfold pci_size_map. intros Hne.
  assert (Hin : forall l, existsb (Z.eqb off) l = true -> off ∈ l).
  { intros l (x & Hx & ->%Z.eqb_eq)%existsb_exists. by apply list_elem_of_In. }
  destruct (existsb _ _) eqn:E1; [|clear E1; destruct (existsb _ _) eqn:E1; [|clear E1; destruct (existsb _ _) eqn:E1; [|done]]];
    apply Hin in E1; rewrite !elem_of_cons, elem_of_nil in E1; (split; [unfold PCI_SUBCLASS, PCI_CLASS, PCI_CACHE_LINE_SIZE,
      PCI_LATENCY_TIMER, PCI_HEADER_TYPE, PCI_BIST, PCI_INTERRUPT_LINE, PCI_SECONDARY_BUS, PCI_VENDOR_ID, PCI_DEVICE_ID,
      PCI_COMMAND, PCI_STATUS, PCI_BAR0, PCI_BAR1, PCI_BAR2, PCI_BAR3, PCI_BAR4, PCI_BAR5 in *; lia|]);
    naive_solver.
Qed.

Lemma dev_pci_read_spec p b d f x e off :
  in_pci b d f -> pci_size_map off <> 0 ->
  wp (dev_pci_read (Pci_dev x f d b 0 e) off) (fun v p' => v = creg (config p) b d f off /\ config p' = config p) p.
Proof.
  intros Hin Hsz. destruct (size_register off Hsz) as [Ho Hcases].
  destruct (bits_decode b d f off Hin Ho) as (H31 & Eb & Ed & Ef & Er).
  pose proof (Z.mod_pos_bound off 4 ltac:(lia)) as Hm. unfold dev_pci_read, pci_select. wp_step. wp_step.
  simpl bus_num. simpl device_num. simpl function_num. simpl reserved. unfold creg.
  set (a := dev_pci_bits_from_fields _) in *.
  destruct Hcases as [[-> ->]|[(-> & -> & Hk)|[-> Hk]]]; cbn [Z.eqb Pos.eqb]; unfold wp, kin.
  - by rewrite config_in8, config_keep8, config_select, Eb, Ed, Ef, Er.
  - rewrite config_in16, config_keep16, config_select, Eb, Ed, Ef, Er; try done; lia.
  - rewrite config_in32, config_keep32, config_select, Eb, Ed, Ef, Er by done. split; [|done].
    rewrite Hk. symmetry. apply field_small, config_range.
Qed.

Lemma creg_byte c b d f off : pci_size_map off = 1 -> 0 ≤ creg c b d f off < 256.
Proof. intros E. unfold creg. rewrite E. by apply (field_range _ _ 8). Qed.

Lemma dev_pci_get_device_type_spec p b d f :
  in_pci b d f ->
  wp (dev_pci_get_device_type (Pci_dev 0 f d b 0 0)) (fun t p' => t = ctype (config p) b d f /\ config p' = config p) p.
Proof.
  intros Hin. unfold dev_pci_get_device_type. wp_step. eapply wp_mono; [by apply dev_pci_read_spec|]. intros t p1 [-> E1].
  wp_step. eapply wp_mono; [by apply dev_pci_read_spec|]. intros s p2 [-> E2]. wp_step. rewrite E2, E1. split; [|done].
  unfold ctype. pose proof (creg_byte (config p) b d f PCI_CLASS eq_refl). pose proof (creg_byte (config p) b d f PCI_SUBCLASS eq_refl).
  rewrite u32_small by (rewrite shiftl_mul by lia; lia). rewrite lor_add_l, shiftl_mul by lia. lia.
Qed.

(** ** The search *)

Lemma pci_scan_spec p n f g :
  (forall i p', 0 ≤ i < n -> config p' = config p -> wp (f i) (fun t p'' => t = g i /\ config p'' = config p) p') ->
  wp (pci_scan n f) (fun t p' =>
    t = default dev_zero (g <$> List.find (fun i => negb (dev_pci_bits_from_fields (g i) =? 0)) (seqZ 0 n)) /\
    config p' = config p) p.
Proof.
  intros Hf. unfold pci_scan.
  apply (wp_kfor (fun i t p' => t = dev_zero /\ config p' = config p /\
    default dev_zero (g <$> List.find (fun i => negb (dev_pci_bits_from_fields (g i) =? 0)) (seqZ 0 n)) =
    default dev_zero (g <$> List.find (fun i => negb (dev_pci_bits_from_fields (g i) =? 0)) (seqZ i (n - i))))).
  - split_and!; try done. by rewrite Z.sub_0_r.
  - intros i t p' Hi (-> & Hp & ->). wp_step. eapply wp_mono; [apply Hf; [lia|done]|]. intros t p1 [-> Hp1]. wp_step.
    rewrite (seqZ_cons i) by lia. simpl List.find. replace (Z.pred (n - i)) with (n - (i + 1)) by lia.
    destruct (dev_pci_bits_from_fields (g i) =? 0); simpl; by rewrite ?Z.add_1_r.
  - intros t p' (-> & Hp & ->). split; [|done]. by rewrite seqZ_nil by lia.
Qed.

Section search.
Variables vendor_id device_id device_type : Z.

Lemma dev_pci_scan_function_spec scan_bus p b d f :
  in_pci b d f ->
  (forall p', is_bridge (config p) b d f = true -> config p' = config p ->
    wp (scan_bus (creg (config p) b d f PCI_SECONDARY_BUS)) (fun _ p'' => config p'' = config p) p') ->
  wp (dev_pci_scan_function scan_bus vendor_id device_id b d f device_type) (fun t p' =>
    t = (if pci_matches (config p) vendor_id device_id device_type (b, d, f) then Pci_dev 0 f d b 0 0 else dev_zero) /\
    config p' = config p) p.
Proof.
  intros Hin Hrec. unfold dev_pci_scan_function, pci_matches.
  wp_step. eapply wp_mono; [by apply dev_pci_get_device_type_spec|]. intros t p1 [-> E1]. fold (is_bridge (config p) b d f).
  wp_step. apply (wp_mono _ (fun _ p2 => config p2 = config p)).
  { wp_step; [|by wp_step]. wp_step. wp_step. eapply wp_mono; [by apply dev_pci_read_spec|]. intros sec p2 [-> E2].
    rewrite E1 in *. eapply wp_mono; [by apply Hrec|]. intros t p3 E3. by wp_step. }
  intros [] p2 E2. wp_step.
  apply (wp_mono _ (fun r p3 => r = (device_type =? u32 (-1)) || (device_type =? ctype (config p) b d f) /\ config p3 = config p)).
  { unfold pci_type_matches. wp_step; [wp_step; by rewrite H|]. wp_step. eapply wp_mono; [by apply dev_pci_get_device_type_spec|].
    intros t p3 [-> E3]. wp_step. rewrite E3, E2. by rewrite H. }
  intros r p3 [-> E3]. wp_step; rewrite H; [|by wp_step]. wp_step.
  eapply wp_mono; [by apply dev_pci_read_spec|]. intros v p4 [-> E4]. wp_step.
  eapply wp_mono; [by apply dev_pci_read_spec|]. intros w p5 [-> E5]. wp_step. by rewrite E5, E4, E3.
Qed.

(** What the search can return: the functions other than function 0 of device 0 on bus 0. *)
Definition pci_returned c (x : Z * Z * Z) : bool :=
  negb (bool_decide (x = (0, 0, 0))) && pci_matches c vendor_id device_id device_type x.

Lemma found_bits c l :
  Forall (fun '(b, d, f) => in_pci b d f) l ->
  dev_pci_bits_from_fields (pci_found (List.find (pci_returned c) l)) = 0 <-> List.find (pci_returned c) l = None.
Proof.
  intros Hl. destruct (List.find _ l) as [[[b d] f]|] eqn:E; [|by split].
  apply find_some in E as [Hin%list_elem_of_In Hr]. rewrite Forall_forall in Hl. specialize (Hl _ Hin). simpl in Hl.
  unfold pci_returned in Hr. apply andb_true_iff in Hr as [Hne _]. rewrite negb_true_iff, bool_decide_eq_false in Hne.
  unfold pci_found. rewrite bits_zero by done. naive_solver.
Qed.

(** A search over groups of functions is one search over all of them. *)
Lemma find_groups c (L : Z -> list (Z * Z * Z)) g l :
  (forall i, i ∈ l -> g i = pci_found (List.find (pci_returned c) (L i)) /\ Forall (fun '(b, d, f) => in_pci b d f) (L i)) ->
  default dev_zero (g <$> List.find (fun i => negb (dev_pci_bits_from_fields (g i) =? 0)) l) =
  pci_found (List.find (pci_returned c) (l ≫= L)).
Proof.
  induction l as [|i l IH]; intros Hg; [done|]. simpl. rewrite find_append.
  destruct (Hg i ltac:(by left)) as [Ei Hi]. pose proof (found_bits c (L i) Hi) as Hb. rewrite <- Ei in Hb.
  destruct (Z.eqb_spec (dev_pci_bits_from_fields (g i)) 0) as [E0|Hne]; simpl.
  - rewrite (proj1 Hb E0). apply IH. intros j Hj. apply Hg. by right.
  - rewrite Ei. destruct (List.find _ (L i)) eqn:E; [done|]. exfalso. by apply Hne, Hb.
Qed.

Lemma one_found c b d f :
  (if pci_matches c vendor_id device_id device_type (b, d, f) then Pci_dev 0 f d b 0 0 else dev_zero) =
  pci_found (List.find (pci_returned c) [(b, d, f)]).
Proof.
  simpl. unfold pci_returned. case_bool_decide as E; simpl; [|by destruct (_ || _), (_ && _)].
  simplify_eq. by destruct (_ || _), (_ && _).
Qed.

Definition device_functions (b d : Z) : list (Z * Z * Z) := f ← seqZ 0 FUNCTION_PER_DEVICE; mret (b, d, f).
Definition bus_functions (b : Z) : list (Z * Z * Z) := d ← seqZ 0 DEVICE_PER_BUS; device_functions b d.

Lemma device_functions_in b d : 0 ≤ b < NUMBER_OF_BUSES -> 0 ≤ d < DEVICE_PER_BUS -> Forall (fun '(b, d, f) => in_pci b d f) (device_functions b d).
Proof.
  intros Hb Hd. apply Forall_forall. intros [[b' d'] f'] (f & Hx & Hf%elem_of_seqZ)%list_elem_of_bind.
  apply list_elem_of_singleton in Hx. simplify_eq. split_and!; try done; lia.
Qed.

Lemma bus_functions_in b : 0 ≤ b < NUMBER_OF_BUSES -> Forall (fun '(b, d, f) => in_pci b d f) (bus_functions b).
Proof.
  intros Hb. apply Forall_bind, Forall_forall. intros d Hd%elem_of_seqZ. apply device_functions_in; [done|lia].
Qed.

(** The buses that the bridges lead to: [rank] decreases from a bus to a bus behind it. *)
Definition bridges_ranked c (rank : Z -> nat) : Prop :=
  forall b d f, in_pci b d f -> is_bridge c b d f = true -> (rank (creg c b d f PCI_SECONDARY_BUS) < rank b)%nat.

Lemma dev_pci_scan_device_spec c scan_bus b d p :
  config p = c -> 0 ≤ b < NUMBER_OF_BUSES -> 0 ≤ d < DEVICE_PER_BUS ->
  (forall f p', in_pci b d f -> is_bridge c b d f = true -> config p' = c ->
    wp (scan_bus (creg c b d f PCI_SECONDARY_BUS)) (fun _ p'' => config p'' = c) p') ->
  wp (dev_pci_scan_device scan_bus vendor_id device_id b d device_type) (fun t p' =>
    t = pci_found (List.find (pci_returned c) (device_functions b d)) /\ config p' = c) p.
Proof.
  intros <- Hb Hd Hrec. unfold dev_pci_scan_device.
  eapply wp_mono; [apply (pci_scan_spec p _ _ (fun f => pci_found (List.find (pci_returned (config p)) [(b, d, f)])))|].
  - intros f p2 Hff E2. assert (Hin : in_pci b d f) by (split_and!; lia).
    eapply wp_mono; [apply dev_pci_scan_function_spec; [done|]|].
    + intros p3 Hbr E3. rewrite E2 in *. by apply Hrec.
    + intros t p3 [-> E3]. rewrite one_found. rewrite E2 in *. done.
  - intros t p2 [-> E2]. split; [|done]. apply (find_groups (config p) (fun f => [(b, d, f)])). intros f Hff%elem_of_seqZ.
    split; [done|]. apply Forall_singleton. split_and!; lia.
Qed.

Lemma dev_pci_scan_bus_spec c rank fuel b p :
  config p = c -> bridges_ranked c rank -> 0 ≤ b < NUMBER_OF_BUSES -> (rank b < fuel)%nat ->
  wp (dev_pci_scan_bus fuel vendor_id device_id b device_type) (fun t p' =>
    t = pci_found (List.find (pci_returned c) (bus_functions b)) /\ config p' = c) p.
Proof.
  intros Hc Hrank. revert b p Hc. induction fuel as [|fuel IH]; intros b p <- Hb Hf; [lia|]. cbn [dev_pci_scan_bus].
  eapply wp_mono; [apply (pci_scan_spec p _ _ (fun d => pci_found (List.find (pci_returned (config p)) (device_functions b d))))|].
  - intros d p1 Hd E1. apply dev_pci_scan_device_spec; [done|done|done|]. intros f p2 Hin Hbr E2.
    eapply wp_mono; [apply IH; [done| |]|by intros t p3 [_ ->]]; [apply (creg_byte _ b d f PCI_SECONDARY_BUS eq_refl)|].
    specialize (Hrank b d f Hin Hbr). lia.
  - intros t p1 [-> E1]. split; [|done]. apply (find_groups (config p) (device_functions b)). intros d Hd%elem_of_seqZ. split; [done|].
    apply device_functions_in; [done|lia].
Qed.

(** ** A bridge that leads to its own bus *)

Lemma pci_scan_hang p n f k :
  0 ≤ k < n ->
  (forall i p', 0 ≤ i < k -> config p' = config p ->
    wp (f i) (fun t p'' => dev_pci_bits_from_fields t = 0 /\ config p'' = config p) p') ->
  (forall p', config p' = config p -> f k p' = Hang) -> pci_scan n f p = Hang.
Proof.
  intros Hk Hpre Hhang. unfold pci_scan. set (body := fun i r => _).
  enough (Hm : forall m i p', 0 ≤ i ≤ k -> k < i + Z.of_nat m -> config p' = config p -> kfor m i body dev_zero p' = Hang)
    by (apply Hm; [lia|lia|done]).
  induction m as [|m IH]; intros i p' Hi Hik Ep; [lia|]. simpl. unfold mbind, K_bind. subst body. cbn beta. unfold mbind, K_bind.
  destruct (decide (i = k)) as [->|]; [by rewrite Hhang|].
  pose proof (Hpre i p' ltac:(lia) Ep) as Hw. apply wp_returns in Hw as (t & p2 & -> & Et & E2).
  unfold mret, K_ret. simpl. rewrite Et. simpl. apply IH; [lia|lia|done].
Qed.

(** The functions that are searched before function [f] of device [d]. *)
Definition searched_before (d f d' f' : Z) : Prop := d' < d \/ d' = d /\ f' < f.

Lemma dev_pci_scan_bus_hang fuel b d f p :
  in_pci b d f -> is_bridge (config p) b d f = true -> creg (config p) b d f PCI_SECONDARY_BUS = b ->
  (forall d' f', in_pci b d' f' -> searched_before d f d' f' ->
    is_bridge (config p) b d' f' = false /\ pci_returned (config p) (b, d', f') = false) ->
  dev_pci_scan_bus fuel vendor_id device_id b device_type p = Hang.
Proof.
  intros Hin Hbr Hsec Hpre.
  enough (Hm : forall p1, config p1 = config p -> dev_pci_scan_bus fuel vendor_id device_id b device_type p1 = Hang) by (by apply Hm).
  induction fuel as [|fuel IH]; intros p1 E1; [done|]. cbn [dev_pci_scan_bus]. pose proof Hin as (Hb & Hd & Hf).
  apply (pci_scan_hang _ _ _ d); [done| |].
  - intros d' p2 Hd' E2. eapply wp_mono; [apply (dev_pci_scan_device_spec (config p)); [congruence|done|lia|]|].
    + intros f' p3 Hin' Hbr'. destruct (Hpre d' f' Hin'); [left; lia|]. congruence.
    + intros t p3 [-> E3]. split; [|congruence]. apply found_bits; [apply device_functions_in; [done|lia]|].
      apply find_none_iff. intros [[b' d2] f'] Hx%list_elem_of_In.
      pose proof (device_functions_in b d' Hb ltac:(lia)) as Hall. rewrite Forall_forall in Hall. specialize (Hall _ Hx).
      apply list_elem_of_bind in Hx as (f2 & Hx%list_elem_of_singleton & _). simplify_eq. apply Hpre; [done|left; lia].
  - intros p2 E2. apply (pci_scan_hang _ _ _ f); [done| |].
    + intros f' p3 Hf' E3. assert (Hin' : in_pci b d f') by (split_and!; lia).
      destruct (Hpre d f' Hin') as [Hnb Hnr]; [right; lia|].
      eapply wp_mono; [apply dev_pci_scan_function_spec; [done|]|].
      * intros p4 Hbr'. congruence.
      * intros t p4 [-> E4]. split; [|congruence]. rewrite one_found. replace (config p3) with (config p) by congruence.
        apply (found_bits (config p) [(b, d, f')]); [by apply Forall_singleton|]. simpl. by rewrite Hnr.
    + intros p3 E3. unfold dev_pci_scan_function.
      pose proof (dev_pci_get_device_type_spec p3 b d f Hin) as Hw. apply wp_returns in Hw as (t & p4 & Et & -> & E4).
      rewrite (done_bind _ _ _ _ _ Et). replace (config p3) with (config p) by congruence.
      fold (is_bridge (config p) b d f). rewrite Hbr. apply hang_bind, hang_bind.
      pose proof (dev_pci_read_spec p4 b d f 0 0 PCI_SECONDARY_BUS Hin ltac:(done)) as Hw. apply wp_returns in Hw as (v & p5 & Ev & -> & E5).
      rewrite (done_bind _ _ _ _ _ Ev). replace (config p4) with (config p) by congruence. rewrite Hsec. apply IH. congruence.
Qed.

End search.


(** The search does not return when it reaches a bridge whose register
    PCI_SECONDARY_BUS has the number of the bus on which the bridge is: the bus is
    searched again from the start.  The register is the one of the programming interface,
    which is 0 for the usual bridges, so this is the case of a bridge on bus 0. *)
Theorem pci_bridge_never_returns fuel vendor_id device_id device_type d f p :
  in_pci 0 d f -> is_bridge (config p) 0 d f = true -> creg (config p) 0 d f PCI_SECONDARY_BUS = 0 ->
  (forall d' f', in_pci 0 d' f' -> searched_before d f d' f' ->
    is_bridge (config p) 0 d' f' = false /\ pci_returned vendor_id device_id device_type (config p) (0, d', f') = false) ->
  dev_pci_get_device fuel vendor_id device_id device_type p = Hang.
Proof.
  intros Hin Hbr Hsec Hpre. apply (pci_scan_hang _ _ _ 0); [done|lia|]. intros p' E.
  by apply (dev_pci_scan_bus_hang _ _ _ _ 0 d f); rewrite ?E.
Qed.

End spec.

(** ** A small machine

    A host bridge, a network card, and between them a bridge whose programming interface
    is part of the state, next to the address that is selected. *)

Definition pci_small_config (prog_if b d f r : Z) : Z :=
  if bool_decide ((b, d, f) = (0, 0, 0)) then (if r =? 0 then 0x12378086 else if r =? 2 then 0x06000002 else 0)
  else if bool_decide ((b, d, f) = (0, 2, 0)) then
    (if r =? 0 then 0x00011b36 else if r =? 2 then 0x06040000 + u8 prog_if * 256 else 0)
  else if bool_decide ((b, d, f) = (0, 3, 0)) then (if r =? 0 then 0x813910EC else if r =? 2 then 0x02000020 else 0)
  else 0xFFFFFFFF.

Definition pci_small_data (p : Z * Z) : Z :=
  let a := fst p in pci_small_config (snd p) (field a 16 8) (field a 11 5) (field a 8 3) (field a 2 6).

Definition pci_small : IoPorts := {|
  ports := Z * Z;
  output8 _ _ p := p;
  output16 _ _ p := p;
  output32 port v p := if port =? PCI_CONFIG_ADDRESS then (v, snd p) else p;
  input8 port p := (field (pci_small_data p) (8 * (port - PCI_CONFIG_DATA)) 8, p);
  input16 port p := (field (pci_small_data p) (8 * (port - PCI_CONFIG_DATA)) 16, p);
  input32 _ p := (pci_small_data p, p);
|}.
#[local] Existing Instance pci_small.

Definition pci_small_space : PciConfig.
Proof.
  refine {| config p := pci_small_config (snd p) |}; try done.
  - intros p b d f r. unfold pci_small_config. pose proof (u8_range (snd p)). repeat case_bool_decide; repeat case_match; lia.
  - intros p a k Hk _. cbn [fst snd input8 output32 pci_small Z.eqb Pos.eqb PCI_CONFIG_ADDRESS pci_small_data].
    by replace (PCI_CONFIG_DATA + k - PCI_CONFIG_DATA) with k by lia.
  - intros p a k Hk _. cbn [fst snd input16 output32 pci_small Z.eqb Pos.eqb PCI_CONFIG_ADDRESS pci_small_data].
    by replace (PCI_CONFIG_DATA + k - PCI_CONFIG_DATA) with k by lia.
Defined.
#[local] Existing Instance pci_small_space.

Definition pci_machine (prog_if : Z) : ports := (0, prog_if).

(** The bridge is the only function of its type. *)
Lemma pci_small_bridge prog_if b d f : is_bridge (pci_small_config prog_if) b d f = true -> (b, d, f) = (0, 2, 0).
Proof.
  unfold is_bridge, ctype, creg, pci_small_config. by repeat case_bool_decide.
Qed.


Lemma pci_bridge_never_returns_witness : dev_pci_get_device 100 0x10EC 0x8139 (u32 (-1)) (pci_machine 0) = Hang.
Proof.
  apply (pci_bridge_never_returns 100 0x10EC 0x8139 (u32 (-1)) 2 0 (pci_machine 0)); [by split_and!|reflexivity|reflexivity|].
  intros d f _ Hb. split.
  - apply not_true_is_false. intros Hbr. apply (pci_small_bridge 0) in Hbr. destruct Hb; simplify_eq; lia.
  - unfold pci_returned, pci_matches, creg. cbn [config pci_small_space snd pci_machine]. unfold pci_small_config.
    assert ((0, d, f) <> (0, 3, 0)) by (destruct Hb; naive_solver lia). repeat case_bool_decide; done.
Defined.
