(* ===== verification/Rtl8139.v ===== *)
(** * The driver of the RTL8139 network card

    src/kernel/dev/net/rtl8139.c with include/dev/net/rtl8139.h and include/dev/net/net.h:
    the card writes the packets that it receives to a ring buffer in memory; the handler
    of its interrupt walks this buffer and puts a descriptor of each packet into an array
    from which the network stack takes them.  The registers of the card are the ports of
    [IoPorts]. *)

From stdpp Require Import base list numbers.
From S2P Require Import Prelude.
From S2P Require Import Bytes.
From S2P Require Import MemLayout.
From S2P Require Import Pci.

Open Scope Z_scope.

Definition NULL : Z := 0.

Record packet := Packet { len : Z; data : Z }.

Definition RTL8139_VENDOR_ID : Z := 0x10EC.
Definition RTL8139_DEVICE_ID : Z := 0x8139.
Definition RTL8139_RX_BUF_SIZE : Z := 8192 + 16.
Definition RTL8139_RX_BUF_ALLOC_SIZE : Z := RTL8139_RX_BUF_SIZE + 1500.
Definition RTL8139_RX_READ_POINTER_MASK : Z := u32 (Z.lnot 3).
Definition RTL8139_ROK : Z := 1 ≪ 0.
Definition RTL8139_TOK : Z := 1 ≪ 2.
Definition RTL8139_RX_BUFFER : Z := 0x30.
Definition RTL8139_COMMAND : Z := 0x37.
Definition RTL8139_CAPR : Z := 0x38.
Definition RTL8139_TX_CONFIG : Z := 0x40.
Definition RTL8139_RX_CONFIG : Z := 0x44.
Definition RTL8139_CONFIG1 : Z := 0x52.
Definition RTL8129_INTERRUPT_MASK : Z := 0x3c.
Definition RTL8129_INTERRUPT_STATUS : Z := 0x3e.
Definition PACKET_ARRAY_LENGTH : Z := 16.

Definition TSD_array : list Z := [0x10; 0x14; 0x18; 0x1C].
Definition TSAD_array : list Z := [0x20; 0x24; 0x28; 0x2C].

(** ** State *)

Record rtl8139_packet_array := PacketArray { packets : list packet; read_pos : Z; write_pos : Z }.

Record rtl8139 `{IoPorts} := Rtl8139 {
  rt_ports : ports;
  io_base : Z;
  mac_addr : list Z;
  rx_buffer : list Z;
  tx_cur : Z;
  rx_cur : Z;
  lwip_forwarding : bool;
  recv_packet_array : rtl8139_packet_array;
}.
Arguments Rtl8139 {_} rt_ports io_base mac_addr rx_buffer tx_cur rx_cur lwip_forwarding recv_packet_array.

Section driver.
Context `{P : IoPorts} `{M : MemLayout}.

Definition set_rt_ports (p : ports) (s : rtl8139) : rtl8139 :=
  Rtl8139 p (io_base s) (mac_addr s) (rx_buffer s) (tx_cur s) (rx_cur s) (lwip_forwarding s) (recv_packet_array s).
Definition set_io_base (b : Z) (s : rtl8139) : rtl8139 :=
  Rtl8139 (rt_ports s) b (mac_addr s) (rx_buffer s) (tx_cur s) (rx_cur s) (lwip_forwarding s) (recv_packet_array s).
Definition set_mac_addr (m : list Z) (s : rtl8139) : rtl8139 :=
  Rtl8139 (rt_ports s) (io_base s) m (rx_buffer s) (tx_cur s) (rx_cur s) (lwip_forwarding s) (recv_packet_array s).
Definition set_rx_buffer (b : list Z) (s : rtl8139) : rtl8139 :=
  Rtl8139 (rt_ports s) (io_base s) (mac_addr s) b (tx_cur s) (rx_cur s) (lwip_forwarding s) (recv_packet_array s).
Definition set_tx_cur (c : Z) (s : rtl8139) : rtl8139 :=
  Rtl8139 (rt_ports s) (io_base s) (mac_addr s) (rx_buffer s) c (rx_cur s) (lwip_forwarding s) (recv_packet_array s).
Definition set_rx_cur (c : Z) (s : rtl8139) : rtl8139 :=
  Rtl8139 (rt_ports s) (io_base s) (mac_addr s) (rx_buffer s) (tx_cur s) c (lwip_forwarding s) (recv_packet_array s).
Definition set_lwip_forwarding (b : bool) (s : rtl8139) : rtl8139 :=
  Rtl8139 (rt_ports s) (io_base s) (mac_addr s) (rx_buffer s) (tx_cur s) (rx_cur s) b (recv_packet_array s).
Definition set_recv_packet_array (a : rtl8139_packet_array) (s : rtl8139) : rtl8139 :=
  Rtl8139 (rt_ports s) (io_base s) (mac_addr s) (rx_buffer s) (tx_cur s) (rx_cur s) (lwip_forwarding s) a.

Definition with_ports {A} (m : K ports A) : K rtl8139 A := kzoom (fun s => Some (rt_ports s)) set_rt_ports m.

(** Access to a register of the card, at an offset of its ports. *)
Definition out8 (reg v : Z) : K rtl8139 unit := b ← kgets io_base; with_ports (kmodify (output8 (b + reg) v)).
Definition out16 (reg v : Z) : K rtl8139 unit := b ← kgets io_base; with_ports (kmodify (output16 (b + reg) v)).
Definition out32 (reg v : Z) : K rtl8139 unit := b ← kgets io_base; with_ports (kmodify (output32 (b + reg) v)).
Definition in8 (reg : Z) : K rtl8139 Z := b ← kgets io_base; with_ports (kin (input8 (b + reg))).
Definition in16 (reg : Z) : K rtl8139 Z := b ← kgets io_base; with_ports (kin (input16 (b + reg))).
Definition in32 (reg : Z) : K rtl8139 Z := b ← kgets io_base; with_ports (kin (input32 (b + reg))).

(** ** Routines *)

Definition rtl8139_enable_lwip_forwarding : K rtl8139 unit := kmodify (set_lwip_forwarding true).
Definition rtl8139_disable_lwip_forwarding : K rtl8139 unit := kmodify (set_lwip_forwarding false).

Definition rtl8139_read_mac_addr : K rtl8139 unit :=
  mac_part1 ← in32 0x00;
  mac_part2 ← in16 0x04;
  kmodify (set_mac_addr [u8 (mac_part1 ≫ 0); u8 (mac_part1 ≫ 8); u8 (mac_part1 ≫ 16); u8 (mac_part1 ≫ 24);
    u8 (mac_part2 ≫ 0); u8 (mac_part2 ≫ 8)]).

Definition rtl8139_packet_status_valid (status : Z) : bool :=
  negb ((status =? 0) || negb (Z.land status (1 ≪ 5) =? 0) || negb (Z.land status (1 ≪ 2) =? 0) ||
        negb (Z.land status (1 ≪ 1) =? 0)).

Definition virtual_to_physical (addr : Z) : Z := if KBASE_VIRT <? addr then u32 (addr - KBASE_VIRT) else addr.

Definition rtl8139_send_packet (p : packet) : K rtl8139 unit :=
  KASSERT (len p <=? 1500);;
  c ← kgets tx_cur;
  tsad ← kunwrap (aget TSAD_array c);
  out32 tsad (virtual_to_physical (u32 (data p)));;
  tsd ← kunwrap (aget TSD_array c);
  out32 tsd (Z.lor (len p) 0x003f0000);;
  kmodify (set_tx_cur (Z.land (c + 1) 0x3)).

Definition packet_array_reset (a : rtl8139_packet_array) : rtl8139_packet_array :=
  PacketArray ((fun x => Packet (len x) NULL) <$> packets a) 0 0.

Definition rtl8139_reset_rx : K rtl8139 unit :=
  tmp ← in8 RTL8139_COMMAND;
  out8 RTL8139_COMMAND (Z.land tmp (0 ≪ 2));;
  kmodify (fun s => set_recv_packet_array (packet_array_reset (recv_packet_array s)) s);;
  out8 RTL8139_COMMAND tmp;;
  kmodify (set_rx_cur 0).

(** The array of packets; its messages about packets that are overwritten are left out. *)
Definition write_packet_array (p : packet) : K rtl8139_packet_array unit :=
  a ← kgets id;
  if (write_pos a + 1) `mod` PACKET_ARRAY_LENGTH =? read_pos a then mret tt else
  kunwrap (aget (packets a) (read_pos a));;
  kunwrap (aget (packets a) (write_pos a));;
  kmodify (fun a => PacketArray (aset (write_pos a) p (packets a)) (read_pos a)
    (Z.land (write_pos a + 1) (PACKET_ARRAY_LENGTH - 1))).

Definition read_packet_array : K rtl8139_packet_array (option packet) :=
  a ← kgets id;
  if read_pos a =? write_pos a then mret None else
  p ← kunwrap (aget (packets a) (read_pos a));
  kmodify (fun a => PacketArray (aset (read_pos a) (Packet (len p) NULL) (packets a))
    (Z.land (read_pos a + 1) (PACKET_ARRAY_LENGTH - 1)) (write_pos a));;
  mret (Some p).

Definition with_array {A} (m : K rtl8139_packet_array A) : K rtl8139 A :=
  kzoom (fun s => Some (recv_packet_array s)) set_recv_packet_array m.

(** Two bytes of the receive buffer; the processor is little-endian. *)
Definition rx_read16 (off : Z) : K rtl8139 Z :=
  s ← kgets id;
  a ← kunwrap (aget (rx_buffer s) off);
  b ← kunwrap (aget (rx_buffer s) (off + 1));
  mret (le16 a b).

Section receive.
Variables (rx_base : Z) (nic_driver_if_input : K rtl8139 unit).

(** One round of the loop of [rtl8139_receive_packet]; the result tells whether the loop
    goes on. *)
Definition rtl8139_receive_one : K rtl8139 bool :=
  cur ← kgets rx_cur;
  status ← rx_read16 cur;
  if negb (rtl8139_packet_status_valid status) then rtl8139_reset_rx;; mret false else
  size ← rx_read16 (cur + 2);
  with_array (write_packet_array (Packet (u16 (size - 4)) (rx_base + cur + 4)));;
  fwd ← kgets lwip_forwarding;
  (if (fwd : bool) then nic_driver_if_input else mret tt);;
  size ← rx_read16 (cur + 2);
  kmodify (set_rx_cur (Z.land (u32 (cur + size + 4 + 3)) RTL8139_RX_READ_POINTER_MASK));;
  c ← kgets rx_cur;
  out16 RTL8139_CAPR (u16 (c - 0x10));;
  (if RTL8139_RX_BUF_SIZE - 16 <=? c then kmodify (set_rx_cur (c - (RTL8139_RX_BUF_SIZE - 16))) else mret tt);;
  cmd ← in8 RTL8139_COMMAND;
  mret (Z.land cmd 1 =? 0).

(** The loop ends when the card has no more packets; [fuel] bounds their number. *)
Fixpoint rtl8139_receive_packet (fuel : nat) : K rtl8139 unit :=
  match fuel with
  | O => khang
  | S fuel => more ← rtl8139_receive_one; if (more : bool) then rtl8139_receive_packet fuel else mret tt
  end.

Definition rtl8139_handler (fuel : nat) : K rtl8139 unit :=
  out16 RTL8129_INTERRUPT_MASK 0x0;;
  status ← in16 0x3e;
  (if Z.land status RTL8139_ROK =? 0 then mret tt else rtl8139_receive_packet fuel);;
  out16 RTL8129_INTERRUPT_MASK (Z.lor RTL8139_ROK RTL8139_TOK);;
  out16 RTL8129_INTERRUPT_STATUS (Z.lor RTL8139_ROK RTL8139_TOK).

End receive.

(** ** Initialisation *)

(** [while ((input8(COMMAND) & 0x10) != 0);] *)
Fixpoint rtl8139_wait_reset (fuel : nat) : K rtl8139 unit :=
  match fuel with
  | O => khang
  | S fuel => c ← in8 RTL8139_COMMAND; if Z.land c 0x10 =? 0 then mret tt else rtl8139_wait_reset fuel
  end.

Section init.
Variables (rx_base : Z) (interrupt_register : Z -> ports -> ports).

Definition rtl8139_init (scan_fuel reset_fuel : nat) : K rtl8139 unit :=
  kmodify (fun s => set_recv_packet_array (packet_array_reset (recv_packet_array s)) s);;
  KASSERT (negb (PACKET_ARRAY_LENGTH =? 0) && (Z.land PACKET_ARRAY_LENGTH (PACKET_ARRAY_LENGTH - 1) =? 0));;
  kmodify (set_lwip_forwarding false);;
  dev ← with_ports (dev_pci_get_device scan_fuel RTL8139_VENDOR_ID RTL8139_DEVICE_ID (u32 (-1)));
  bar ← with_ports (dev_pci_read dev PCI_BAR0);
  kmodify (set_io_base (u16 (Z.land bar (Z.lnot 0x3))));;
  kmodify (set_tx_cur 0);;
  kmodify (set_rx_cur 0);;
  command ← with_ports (dev_pci_read dev PCI_COMMAND);
  (if Z.land command (1 ≪ 2) =? 0 then with_ports (dev_pci_write dev PCI_COMMAND (Z.lor command (1 ≪ 2))) else mret tt);;
  out8 RTL8139_CONFIG1 0x0;;
  out8 RTL8139_COMMAND 0x10;;
  rtl8139_wait_reset reset_fuel;;
  kmodify (set_rx_buffer (replicate (Z.to_nat RTL8139_RX_BUF_ALLOC_SIZE) 0));;
  out32 RTL8139_RX_BUFFER (virtual_to_physical (u32 rx_base));;
  out16 RTL8129_INTERRUPT_MASK (Z.lor RTL8139_ROK RTL8139_TOK);;
  out32 RTL8139_RX_CONFIG (Z.lor 0xf (1 ≪ 7));;
  out8 RTL8139_COMMAND 0x0C;;
  out32 RTL8139_TX_CONFIG 0;;
  irq_num ← with_ports (dev_pci_read dev PCI_INTERRUPT_LINE);
  with_ports (kmodify (interrupt_register irq_num));;
  rtl8139_read_mac_addr.

End init.

Definition network_send_packet : packet -> K rtl8139 unit := rtl8139_send_packet.
Definition network_get_new_packet : K rtl8139 (option packet) := with_array read_packet_array.
Definition network_is_new_packet : K rtl8139 bool :=
  a ← kgets recv_packet_array; mret (negb (read_pos a =? write_pos a)).

Definition network_loopback_supported : Z := 1.

Definition network_loopback_enable : K rtl8139 unit :=
  out32 RTL8139_RX_CONFIG (Z.lor (1 ≪ 1) (1 ≪ 7));;
  out32 RTL8139_TX_CONFIG (0x3 ≪ 17);;
  rtl8139_reset_rx.

Definition network_loopback_disable : K rtl8139 unit :=
  out32 RTL8139_RX_CONFIG (Z.lor 0xf (1 ≪ 7));;
  out32 RTL8139_TX_CONFIG 0;;
  rtl8139_reset_rx.

Definition network_init (rx_base : Z) (interrupt_register : Z -> ports -> ports) (scan_fuel reset_fuel : nat) : K rtl8139 unit :=
  rtl8139_init rx_base interrupt_register scan_fuel reset_fuel;;
  network_loopback_disable;;
  rtl8139_disable_lwip_forwarding.

Definition network_get_mac_adress : K rtl8139 (list Z) := kgets mac_addr.

End driver.

(** ** The array of packets is a queue *)

Record array_holds (a : rtl8139_packet_array) (q : list packet) : Prop := {
  ah_len : alen (packets a) = PACKET_ARRAY_LENGTH;
  ah_read : 0 ≤ read_pos a < PACKET_ARRAY_LENGTH;
  ah_write : write_pos a = (read_pos a + alen q) `mod` PACKET_ARRAY_LENGTH;
  ah_fits : alen q < PACKET_ARRAY_LENGTH;
  ah_elem (k : nat) x : q !! k = Some x ->
    aget (packets a) ((read_pos a + Z.of_nat k) `mod` PACKET_ARRAY_LENGTH) = Some x;
}.

(** The operations on the array and on a queue of 15 packets. *)
Inductive array_op := ArrayWrite (p : packet) | ArrayRead | ArrayReset.

Definition run_array_op (o : array_op) : K rtl8139_packet_array (option packet) :=
  match o with
  | ArrayWrite p => write_packet_array p;; mret None
  | ArrayRead => read_packet_array
  | ArrayReset => kmodify packet_array_reset;; mret None
  end.

Definition queue_add (q : list packet) (p : packet) : list packet :=
  if alen q =? PACKET_ARRAY_LENGTH - 1 then q else q ++ [p].

Definition queue_op (o : array_op) (q : list packet) : option packet * list packet :=
  match o with
  | ArrayWrite p => (None, queue_add q p)
  | ArrayRead => (head q, tail q)
  | ArrayReset => (None, [])
  end.

Fixpoint queue_ops (os : list array_op) (q : list packet) : list (option packet) * list packet :=
  match os with
  | [] => ([], q)
  | o :: os => let r := queue_op o q in let rs := queue_ops os r.2 in (r.1 :: rs.1, rs.2)
  end.

Lemma ring_next x : 0 ≤ x < 16 -> Z.land (x + 1) (PACKET_ARRAY_LENGTH - 1) = (x + 1) `mod` PACKET_ARRAY_LENGTH.
Proof. intros. apply (land_mask _ 4). lia. Qed.

(** Positions of the ring that are less than a round apart are different. *)
Lemma ring_ne r i j : 0 ≤ i < 16 -> 0 ≤ j < 16 -> i <> j -> (r + i) `mod` 16 <> (r + j) `mod` 16.
Proof.
  intros Hi Hj Hne E. assert (((r + i) - (r + j)) `mod` 16 = 0) as H0 by (rewrite Zminus_mod, E, Z.sub_diag; done).
  replace (r + i - (r + j)) with (i - j) in H0 by lia. apply Z.mod_divide in H0 as [k Hk]; lia.
Qed.

Lemma ring_range x : 0 ≤ x `mod` 16 < 16.
Proof. apply Z.mod_pos_bound. lia. Qed.

(** Adding packets until the queue is full. *)
Lemma queue_fill q ds : (length q <= 15)%nat -> foldl queue_add q ds = take 15 (q ++ ds).
Proof.
  revert q. induction ds as [|d ds IH]; intros q Hq; simpl; [by rewrite app_nil_r, take_ge by done|].
  unfold queue_add at 2. destruct (Z.eqb_spec (alen q) (PACKET_ARRAY_LENGTH - 1)) as [E|E]; unfold PACKET_ARRAY_LENGTH in E.
  - rewrite IH by done. by rewrite !take_app_length' by lia.
  - rewrite IH, <- app_assoc; [done|]. rewrite length_app. simpl. lia.
Qed.

Section queue.

Lemma write_packet_array_spec a q p :
  array_holds a q -> wp (write_packet_array p) (fun _ a' => array_holds a' (queue_add q p)) a.
Proof.
  intros [Hl Hr Hw Hf He]. unfold PACKET_ARRAY_LENGTH in *. unfold write_packet_array, queue_add, PACKET_ARRAY_LENGTH. wp_step. wp_step. unfold id.
  pose proof (ring_range (read_pos a + alen q)) as Hwr. rewrite <- Hw in Hwr.
  rewrite Hw, Zplus_mod_idemp_l, <- Z.add_assoc. wp_step.
  - wp_step. apply Z.eqb_eq in H. destruct (decide (alen q + 1 = 16)) as [E|E].
    + replace (alen q =? 16 - 1) with true by lia. by split.
    + exfalso. apply (ring_ne (read_pos a) (alen q + 1) 0); try lia. rewrite Z.add_0_r, H. symmetry. by apply Z.mod_small.
  - apply Z.eqb_neq in H. assert (Hne : alen q + 1 <> 16).
    { intros E. apply H. rewrite E. replace (read_pos a + 16) with (read_pos a + 1 * 16) by lia. rewrite Z.mod_add by lia. by apply Z.mod_small. }
    replace (alen q =? 16 - 1) with false by lia.
    destruct (aget_is_Some (packets a) (read_pos a) ltac:(lia)) as [x Hx].
    destruct (aget_is_Some (packets a) (write_pos a) ltac:(lia)) as [y Hy].
    wp_step. wp_step; [done|]. wp_step. rewrite <- Hw. wp_step; [done|]. wp_step. split; cbn [packets read_pos write_pos].
    + by rewrite length_aset.
    + done.
    + rewrite ring_next by lia. unfold PACKET_ARRAY_LENGTH. rewrite length_app, Hw, Zplus_mod_idemp_l. simpl. f_equal. lia.
    + rewrite length_app. simpl. unfold PACKET_ARRAY_LENGTH. lia.
    + intros k z Hk. unfold PACKET_ARRAY_LENGTH. destruct (decide (k = length q)) as [->|].
      * rewrite list_lookup_middle in Hk by done. simplify_eq. rewrite <- Hw. by apply aget_aset_same with y.
      * pose proof (lookup_lt_Some _ _ _ Hk) as Hlt. rewrite length_app in Hlt. simpl in Hlt. rewrite lookup_app_l in Hk by lia.
        rewrite aget_aset_ne; [by apply He|]. rewrite Hw. apply ring_ne; lia.
Qed.

Lemma read_packet_array_spec a q :
  array_holds a q -> wp read_packet_array (fun r a' => r = head q /\ array_holds a' (tail q)) a.
Proof.
  intros [Hl Hr Hw Hf He]. unfold PACKET_ARRAY_LENGTH in *. unfold read_packet_array. wp_step. wp_step. unfold id. wp_step.
  - wp_step. apply Z.eqb_eq in H. destruct q as [|x q]; [by split|]. exfalso.
    apply (ring_ne (read_pos a) (alen (x :: q)) 0); try (simpl in *; lia). rewrite <- Hw, Z.add_0_r, <- H. symmetry. by apply Z.mod_small.
  - apply Z.eqb_neq in H. destruct q as [|x q]; [destruct H; rewrite Hw, Z.add_0_r; symmetry; by apply Z.mod_small|].
    pose proof (He 0%nat x eq_refl) as Hx. rewrite Z.add_0_r, Z.mod_small in Hx by lia. wp_step. wp_step; [done|].
    wp_step. wp_step. wp_step. split; [done|]. split; cbn [packets read_pos write_pos tail].
    + by rewrite length_aset.
    + rewrite ring_next by lia. apply ring_range.
    + rewrite ring_next, Zplus_mod_idemp_l by lia. rewrite Hw. unfold PACKET_ARRAY_LENGTH. simpl. f_equal. lia.
    + simpl in Hf. unfold PACKET_ARRAY_LENGTH. lia.
    + intros k z Hk. rewrite ring_next by lia. unfold PACKET_ARRAY_LENGTH. rewrite Zplus_mod_idemp_l.
      pose proof (lookup_lt_Some _ _ _ Hk) as Hlt. simpl in Hf. rewrite <- Z.add_assoc.
      pose proof (He (S k) z Hk) as Hz. replace (Z.of_nat (S k)) with (1 + Z.of_nat k) in Hz by lia.
      rewrite aget_aset_ne; [done|]. rewrite <- (Z.mod_small (read_pos a) 16) at 1 by lia. rewrite <- (Z.add_0_r (read_pos a)) at 1.
      apply ring_ne; lia.
Qed.

Lemma packet_array_reset_holds a q : array_holds a q -> array_holds (packet_array_reset a) [].
Proof. intros [Hl _ _ _ _]. split; cbn [packets read_pos write_pos packet_array_reset]; try done. by rewrite length_fmap. Qed.

(** (C27) The array of received packets is a queue of 15 packets: in every sequence of
    operations a read returns the oldest packet that was stored and not yet read, a
    packet that finds the queue full is dropped and the others are kept, and a reset
    empties it. *)
Theorem rtl8139_array_queue os a q :
  array_holds a q ->
  wp (kseq (run_array_op <$> os)) (fun rs a' => rs = fst (queue_ops os q) /\ array_holds a' (snd (queue_ops os q))) a.
Proof.
  revert a q. induction os as [|o os IH]; intros a q Ha; [by split|]. simpl. wp_step.
  apply (wp_mono _ (fun r a' => r = fst (queue_op o q) /\ array_holds a' (snd (queue_op o q)))).
  - destruct o as [p| |]; simpl.
    + wp_step. eapply wp_mono; [by apply write_packet_array_spec|]. intros [] a' Ha'. by wp_step.
    + by apply read_packet_array_spec.
    + wp_step. wp_step. wp_step. split; [done|]. by eapply packet_array_reset_holds.
  - intros r a' [-> Ha']. wp_step. eapply wp_mono; [by apply IH|]. intros rs a2 [-> Ha2]. by wp_step.
Qed.

End queue.

(** ** Reception

    What the card does is documented in its data sheet: it writes the packets one after the
    other to a ring of 8192 bytes, each one with a header of four bytes (a status and the
    size of the frame with its checksum) and at a multiple of four; the command register
    tells whether the driver has read all of them, and the driver moves the read pointer of
    the card by writing the offset of the next packet minus 16 to CAPR. *)

Definition next_offset (o size : Z) : Z := (o + (size + 4 + 3) `div` 4 * 4) `mod` 8192.

Class Rtl8139Card `{P : IoPorts} (base : Z) := {
  unread : ports -> list Z;
  read_ptr : ports -> Z;
  card_command p : Z.testbit (fst (input8 (base + RTL8139_COMMAND) p)) 0 = bool_decide (unread p = []);
  card_keep p : unread (snd (input8 (base + RTL8139_COMMAND) p)) = unread p;
  card_keep_ptr p : read_ptr (snd (input8 (base + RTL8139_COMMAND) p)) = read_ptr p;
  card_capr p n ns v : unread p = n :: ns -> (v + 0x10) `mod` 8192 = next_offset (read_ptr p) n ->
    unread (output16 (base + RTL8139_CAPR) v p) = ns;
  card_capr_ptr p n ns v : unread p = n :: ns -> (v + 0x10) `mod` 8192 = next_offset (read_ptr p) n ->
    read_ptr (output16 (base + RTL8139_CAPR) v p) = next_offset (read_ptr p) n;
}.

(** The packets in the buffer from offset [o] on, by their status and size. *)
Fixpoint in_ring (buf : list Z) (o : Z) (pk : list (Z * Z)) : Prop :=
  match pk with
  | [] => True
  | (status, size) :: pk =>
      (exists a b c d, aget buf o = Some a /\ aget buf (o + 1) = Some b /\ aget buf (o + 2) = Some c /\
        aget buf (o + 3) = Some d /\ le16 a b = status /\ le16 c d = size) /\
      in_ring buf (next_offset o size) pk
  end.

Definition valid_packet (x : Z * Z) : Prop := rtl8139_packet_status_valid (fst x) = true /\ 4 ≤ snd x ≤ 1518.

(** The descriptors of these packets. *)
Fixpoint descriptors (rx_base o : Z) (pk : list (Z * Z)) : list packet :=
  match pk with
  | [] => []
  | (_, size) :: pk => Packet (size - 4) (rx_base + o + 4) :: descriptors rx_base (next_offset o size) pk
  end.

Section reception.
Context `{P : IoPorts} `{M : MemLayout} (base rx_base : Z) {C : Rtl8139Card base} (nic_driver_if_input : K rtl8139 unit).

(** The driver and the card agree on what is to be read. *)
Record rx_ready (s : rtl8139) (pk : list (Z * Z)) : Prop := {
  rr_base : io_base s = base;
  rr_fwd : lwip_forwarding s = false;
  rr_ptr : rx_cur s = read_ptr (rt_ports s);
  rr_cur : 0 ≤ rx_cur s < 8192 /\ rx_cur s `mod` 4 = 0;
  rr_unread : unread (rt_ports s) = snd <$> pk;
  rr_ring : in_ring (rx_buffer s) (rx_cur s) pk;
  rr_valid : Forall valid_packet pk;
}.

Lemma rx_read16_spec s off a b :
  aget (rx_buffer s) off = Some a -> aget (rx_buffer s) (off + 1) = Some b -> wp (rx_read16 off) (fun v s' => v = le16 a b /\ s' = s) s.
Proof.
  intros Ha Hb. unfold rx_read16. wp_step. wp_step. unfold id. wp_step. wp_step; [done|]. wp_step. wp_step; [done|]. by wp_step.
Qed.

Lemma advance_spec cur size :
  0 ≤ cur < 8192 -> cur `mod` 4 = 0 -> 4 ≤ size ≤ 1518 ->
  let c := Z.land (u32 (cur + size + 4 + 3)) RTL8139_RX_READ_POINTER_MASK in
  (u16 (c - 0x10) + 0x10) `mod` 8192 = next_offset cur size /\
  (if RTL8139_RX_BUF_SIZE - 16 <=? c then c - (RTL8139_RX_BUF_SIZE - 16) else c) = next_offset cur size /\
  0 ≤ next_offset cur size < 8192 /\ next_offset cur size `mod` 4 = 0.
Proof.
  intros Hc Ha Hs c. set (n := (size + 4 + 3) `div` 4 * 4).
  pose proof (Z.div_mod (size + 4 + 3) 4 ltac:(lia)) as E1. pose proof (Z.mod_pos_bound (size + 4 + 3) 4 ltac:(lia)) as E2.
  assert (Hn : 0 ≤ n < 8192) by lia. apply Z.mod_divide in Ha as [k Hk]; [|lia].
  assert (Ec : c = cur + n).
  { subst c. unfold RTL8139_RX_READ_POINTER_MASK. rewrite u32_small, land_align4 by lia.
    replace (cur + size + 4 + 3) with (size + 4 + 3 + k * 4) by lia. rewrite Z.div_add by lia. lia. }
  unfold next_offset. fold n. rewrite Ec. clear c Ec. unfold RTL8139_RX_BUF_SIZE. split_and!.
  - unfold u16. rewrite <- Zplus_mod_idemp_l, Z.mod_mod_divide, Zplus_mod_idemp_l by (by exists 8).
    f_equal. lia.
  - change (8192 + 16 - 16) with 8192. destruct (Z.leb_spec 8192 (cur + n)); [|by rewrite Z.mod_small by lia].
    replace (cur + n) with (cur + n - 8192 + 1 * 8192) at 2 by lia. rewrite Z.mod_add, Z.mod_small by lia. done.
  - apply Z.mod_pos_bound. lia.
  - apply Z.mod_pos_bound. lia.
  - rewrite Z.mod_mod_divide by (by exists 2048). replace (cur + n) with (0 + (k + (size + 4 + 3) `div` 4) * 4) by lia.
    by rewrite Z.mod_add by lia.
Qed.

Lemma rtl8139_receive_one_spec s q status size pk :
  rx_ready s ((status, size) :: pk) -> array_holds (recv_packet_array s) q ->
  wp (rtl8139_receive_one rx_base nic_driver_if_input) (fun more s' =>
    more = negb (bool_decide (pk = [])) /\ rx_ready s' pk /\ rx_cur s' = next_offset (rx_cur s) size /\
    array_holds (recv_packet_array s') (queue_add q (Packet (size - 4) (rx_base + rx_cur s + 4)))) s.
Proof.
  intros [Hb Hfw Hp [Hc Hal] Hu Hr Hv] Ha. apply Forall_cons in Hv as [[Hst Hsz] Hv]. simpl in Hst, Hsz, Hu, Hr.
  destruct Hr as [(a & b & c & d & E0 & E1 & E2 & E3 & Es & Ez) Hr].
  destruct (advance_spec _ _ Hc Hal Hsz) as (Hcapr & Hcur & Hrange). cbv zeta in Hcapr, Hcur.
  unfold rtl8139_receive_one. wp_step. wp_step. wp_step. eapply wp_mono; [by apply rx_read16_spec|]. intros ? ? [-> ->]. rewrite Es, Hst.
  cbn [negb]. replace (rx_cur s + 3) with (rx_cur s + 2 + 1) in E3 by lia.
  wp_step. eapply wp_mono; [by apply rx_read16_spec|]. intros ? ? [-> ->]. rewrite Ez, u16_small by lia.
  wp_step. unfold with_array. wp_step; [done|]. eapply wp_mono; [by apply write_packet_array_spec|]. intros [] ar Har.
  wp_step. wp_step. cbn [lwip_forwarding set_recv_packet_array]. rewrite Hfw. wp_step. wp_step.
  wp_step. eapply wp_mono; [by apply rx_read16_spec|]. intros ? ? [-> ->]. rewrite Ez.
  wp_step. wp_step. wp_step. wp_step. cbn [rx_cur set_rx_cur]. unfold out16, with_ports. wp_step. wp_step. wp_step. wp_step; [done|]. wp_step.
  cbn [rt_ports set_rx_cur set_recv_packet_array io_base]. rewrite Hb. set (c' := Z.land _ _) in *.
  set (p1 := output16 _ _ _). rewrite Hp in Hcapr. pose proof (card_capr _ _ _ _ Hu Hcapr) as Hu1. pose proof (card_capr_ptr _ _ _ _ Hu Hcapr) as Hp1.
  fold p1 in Hu1, Hp1. wp_step.
  apply (wp_mono _ (fun _ s2 => s2 = set_rx_cur (next_offset (rx_cur s) size) (set_rt_ports p1 (set_recv_packet_array ar s)))).
  { rewrite <- Hcur. wp_step; wp_step; by rewrite H. }
  intros [] s2 ->. unfold in8, with_ports. wp_step. wp_step. wp_step. wp_step; [done|]. unfold wp, kin. cbn [rt_ports set_rt_ports io_base set_rx_cur set_recv_packet_array].
  rewrite Hb. pose proof (card_command p1) as Hcmd. rewrite Hu1 in Hcmd. split_and!.
  - change 1 with (2 ^ 1 - 1). rewrite land_mask by lia. rewrite <- Z.bit0_mod, Hcmd. do 2 case_bool_decide; destruct pk; done.
  - split; cbn [rt_ports set_rt_ports io_base set_rx_cur set_recv_packet_array lwip_forwarding rx_cur rx_buffer]; try done.
    + by rewrite card_keep_ptr, Hp1, <- Hp.
    + by rewrite card_keep, Hu1.
  - done.
  - done.
Qed.

(** (C24) When the card signals packets, the handler stores the descriptors of all the
    packets in the order in which the card has written them, as far as there is room in
    the array, tells the card that they have been read, and is then at the position at
    which the card writes the next packet; the loop ends after as many rounds as there
    are packets. *)
Theorem rtl8139_receive_correct s q pk fuel :
  pk <> [] -> (length pk <= fuel)%nat -> rx_ready s pk -> array_holds (recv_packet_array s) q ->
  wp (rtl8139_receive_packet rx_base nic_driver_if_input fuel) (fun _ s' =>
    array_holds (recv_packet_array s') (take 15 (q ++ descriptors rx_base (rx_cur s) pk)) /\ rx_ready s' []) s.
Proof.
  intros Hne Hf Hr Ha. rewrite <- queue_fill by (pose proof (ah_fits _ _ Ha); unfold PACKET_ARRAY_LENGTH in *; lia).
  revert s q fuel Hne Hf Hr Ha. induction pk as [|[status size] pk IH]; intros s q fuel Hne Hf Hr Ha; [done|].
  destruct fuel as [|fuel]; simpl in Hf; [lia|]. simpl. wp_step. eapply wp_mono; [by apply (rtl8139_receive_one_spec s q status size pk)|].
  intros more s1 (-> & Hr1 & <- & Ha1). case_bool_decide as E; cbn [negb].
  - wp_step. by subst pk.
  - apply IH; [done|lia|done|done].
Qed.

End reception.

(** ** A small card

    A card that has written two packets, of 64 and 70 bytes, the first one across the end
    of the ring. *)

Definition card_ports : IoPorts := {|
  ports := list Z * Z;
  output8 _ _ p := p;
  output16 port v p :=
    if port =? 0xC000 + RTL8139_CAPR then
      match fst p with n :: ns => (ns, next_offset (snd p) n) | [] => p end
    else p;
  output32 _ _ p := p;
  input8 port p := (Z.b2z (bool_decide (fst p = [])), p);
  input16 _ p := (RTL8139_ROK, p);
  input32 _ p := (0, p);
|}.
#[local] Existing Instance card_ports.

Definition card_small : Rtl8139Card 0xC000.
Proof.
  refine {| unread p := fst p; read_ptr p := snd p |}; try done.
  - intros p. simpl. by case_bool_decide.
  - intros p n ns v E _. simpl. by rewrite E.
  - intros p n ns v E _. simpl. by rewrite E.
Defined.
#[local] Existing Instances card_small mem_small.

Definition card_buffer : list Z :=
  aset 8180 1 (aset 8182 64 (aset 56 1 (aset 58 70 (replicate (Z.to_nat RTL8139_RX_BUF_ALLOC_SIZE) 0)))).

Definition card_state : rtl8139 :=
  Rtl8139 ([64; 70], 8180) 0xC000 [] card_buffer 0 8180 false (PacketArray (replicate 16 (Packet 0 NULL)) 14 14).

Lemma rtl8139_array_queue_witness :
  wp (kseq (run_array_op <$> [ArrayWrite (Packet 60 7); ArrayWrite (Packet 66 8); ArrayRead; ArrayRead; ArrayRead]))
    (fun rs _ => rs = [None; None; Some (Packet 60 7); Some (Packet 66 8); None]) (recv_packet_array card_state).
Proof.
  eapply wp_mono; [apply (rtl8139_array_queue _ (recv_packet_array card_state) []); by split|]. by intros rs a [-> _].
Defined.

Lemma rtl8139_receive_correct_witness :
  wp (rtl8139_receive_packet 0x100000 (mret tt) 2) (fun _ s' =>
    array_holds (recv_packet_array s') [Packet 60 (0x100000 + 8184); Packet 66 (0x100000 + 60)] /\ rx_ready 0xC000 s' []) card_state.
Proof.
  apply (rtl8139_receive_correct 0xC000 0x100000 (mret tt) card_state [] [(1, 64); (1, 70)] 2); [done|done| |by split].
  split; try done.
  - split; [|split; [|done]]; [exists 1, 0, 64, 0|exists 1, 0, 70, 0]; split_and!; vm_compute; reflexivity.
  - repeat (apply Forall_cons_2; [by split|]). apply Forall_nil_2.
Defined.
