(* ===== verification/Ethoc.v ===== *)
(** * The driver of the OpenCores Ethernet device

    src/kernel/dev/net/ethoc.c with include/dev/net/ethoc.h: the device sends and receives
    frames through rings of buffer descriptors, which are registers of the device, and
    buffers in memory.  The registers are a parameter. *)

From stdpp Require Import base list numbers.
From S2P Require Import Prelude.
From S2P Require Import Hlib.
From S2P Require Import Bytes.

Open Scope Z_scope.

(** ** The registers of the device *)

Class EthocDevice := {
  edev : Type;
  mmio_read : Z -> edev -> Z * edev;
  mmio_write : Z -> Z -> edev -> edev;
}.

Definition ETHOC_MODER : Z := 0x00.
Definition ETHOC_INT_SOURCE : Z := 0x04.
Definition ETHOC_INT_MASK : Z := 0x08.
Definition ETHOC_IPGT : Z := 0x0c.
Definition ETHOC_MAC_ADDR0 : Z := 0x40.
Definition ETHOC_MAC_ADDR1 : Z := 0x44.

Definition ETHOC_BD_SIZE : Z := 8.
Definition ETHOC_TX_BUF_COUNT : Z := 64.
Definition ETHOC_RX_BUF_COUNT : Z := 64.
Definition ETHOC_TX_BD_BASE : Z := 0x400.
Definition ETHOC_RX_BD_BASE : Z := 0x400 + ETHOC_TX_BUF_COUNT * ETHOC_BD_SIZE.
Definition ETHOC_BUFSIZ : Z := 1536.
Definition ETHOC_PACKETLEN_SIZE_MAX : Z := 0x600.

Definition ETHOC_MODER_RXEN : Z := 1 ≪ 0.
Definition ETHOC_MODER_TXEN : Z := 1 ≪ 1.
Definition ETHOC_MODER_FULLD : Z := 1 ≪ 10.
Definition ETHOC_MODER_PAD : Z := 1 ≪ 15.
Definition ETHOC_MODER_RSM : Z := 1 ≪ 16.
Definition ETHOC_INT_MASK_ALL : Z := 0x7f.

Definition ETHOC_TX_BD_WRAP : Z := 1 ≪ 13.
Definition ETHOC_TX_BD_READY : Z := 1 ≪ 15.
Definition ETHOC_TX_BD_LEN (x : Z) : Z := Z.land x 0xffff ≪ 16.
Definition ETHOC_TX_BD_LEN_MASK : Z := 0xffff ≪ 16.
Definition ETHOC_TX_BD_STATS : Z := 0x1ff.
Definition ETHOC_RX_BD_WRAP : Z := 1 ≪ 13.
Definition ETHOC_RX_BD_EMPTY : Z := 1 ≪ 15.
Definition ETHOC_RX_BD_LEN_SHIFT : Z := 16.
Definition ETHOC_RX_BD_LEN_MASK : Z := 0xffff ≪ 16.
Definition ETHOC_RX_BD_STATS : Z := 0xff.

(** The clearing of bits of a word of 32 bits. *)
Definition clear32 (x mask : Z) : Z := Z.land x (u32 (Z.lnot mask)).

(** ** State

    The arrays of buffers have a third of the entries of the rings of descriptors. *)

Definition ETHOC_RX_ROWS : Z := ETHOC_RX_BUF_COUNT `div` 3.
Definition ETHOC_TX_ROWS : Z := ETHOC_TX_BUF_COUNT `div` 3.

Record ethoc_dev `{EthocDevice} := EthocDev {
  eth_dev : edev;
  mac : list Z;
  eth_rx_buffer : list (list Z);
  rx_head : Z;
  tx_buffer : list (list Z);
  tx_head : Z;
}.
Arguments EthocDev {_} eth_dev mac eth_rx_buffer rx_head tx_buffer tx_head.

Definition MAC_DEFAULT : list Z := [0x52; 0x54; 0x00; 0x12; 0x34; 0x56].

Section driver.
Context `{H : Hlib} `{D : EthocDevice}.

Definition set_eth_dev (d : edev) (s : ethoc_dev) : ethoc_dev := EthocDev d (mac s) (eth_rx_buffer s) (rx_head s) (tx_buffer s) (tx_head s).
Definition set_eth_mac (m : list Z) (s : ethoc_dev) : ethoc_dev := EthocDev (eth_dev s) m (eth_rx_buffer s) (rx_head s) (tx_buffer s) (tx_head s).
Definition set_rx_head (h : Z) (s : ethoc_dev) : ethoc_dev := EthocDev (eth_dev s) (mac s) (eth_rx_buffer s) h (tx_buffer s) (tx_head s).
Definition set_tx_buffer (b : list (list Z)) (s : ethoc_dev) : ethoc_dev := EthocDev (eth_dev s) (mac s) (eth_rx_buffer s) (rx_head s) b (tx_head s).
Definition set_tx_head (h : Z) (s : ethoc_dev) : ethoc_dev := EthocDev (eth_dev s) (mac s) (eth_rx_buffer s) (rx_head s) (tx_buffer s) h.

Definition ethoc_write32 (reg val : Z) : K ethoc_dev unit := kmodify (fun s => set_eth_dev (mmio_write reg val (eth_dev s)) s).
Definition ethoc_read32 (reg : Z) : K ethoc_dev Z := fun s =>
  Done (fst (mmio_read reg (eth_dev s))) (set_eth_dev (snd (mmio_read reg (eth_dev s))) s).

Definition ethoc_enable : K ethoc_dev unit :=
  reg ← ethoc_read32 ETHOC_MODER;
  ethoc_write32 ETHOC_MODER (Z.lor reg (Z.lor ETHOC_MODER_TXEN ETHOC_MODER_RXEN)).

Definition ethoc_disable : K ethoc_dev unit :=
  reg ← ethoc_read32 ETHOC_MODER;
  ethoc_write32 ETHOC_MODER (clear32 reg (Z.lor ETHOC_MODER_TXEN ETHOC_MODER_RXEN)).

Definition ethoc_irq_enable (mask : Z) : K ethoc_dev unit :=
  reg ← ethoc_read32 ETHOC_INT_MASK; ethoc_write32 ETHOC_INT_MASK (Z.lor reg mask).

Definition ethoc_irq_disable (mask : Z) : K ethoc_dev unit :=
  reg ← ethoc_read32 ETHOC_INT_MASK; ethoc_write32 ETHOC_INT_MASK (clear32 reg mask).

Definition ethoc_irq_ack (mask : Z) : K ethoc_dev unit := ethoc_write32 ETHOC_INT_SOURCE mask.

Definition mac_byte (m : list Z) (i : Z) : K ethoc_dev Z := kunwrap (aget m i).

Definition ethoc_mac_set (m : list Z) : K ethoc_dev unit :=
  m2 ← mac_byte m 2; m3 ← mac_byte m 3; m4 ← mac_byte m 4; m5 ← mac_byte m 5;
  ethoc_write32 ETHOC_MAC_ADDR0 (Z.lor (Z.lor (Z.lor (u32 (m2 ≪ 24)) (m3 ≪ 16)) (m4 ≪ 8)) (m5 ≪ 0));;
  m0 ← mac_byte m 0; m1 ← mac_byte m 1;
  ethoc_write32 ETHOC_MAC_ADDR1 (Z.lor (m0 ≪ 8) (m1 ≪ 0)).

Definition ethoc_mac_get : K ethoc_dev (list Z) :=
  r0 ← ethoc_read32 ETHOC_MAC_ADDR0;
  r1 ← ethoc_read32 ETHOC_MAC_ADDR1;
  mret [Z.land (r1 ≫ 8) 0xff; Z.land (r1 ≫ 0) 0xff; Z.land (r0 ≫ 24) 0xff; Z.land (r0 ≫ 16) 0xff;
        Z.land (r0 ≫ 8) 0xff; Z.land (r0 ≫ 0) 0xff].

(** The addresses of the rows of the buffers, as the device sees them. *)
Variables (tx_addr rx_addr : Z -> Z).

Definition ethoc_tx_buf_init : K ethoc_dev unit :=
  kfor (Z.to_nat ETHOC_TX_BUF_COUNT) 0 (fun i reg =>
    let reg := if i =? ETHOC_TX_BUF_COUNT - 1 then Z.lor reg ETHOC_TX_BD_WRAP else reg in
    ethoc_write32 (ETHOC_TX_BD_BASE + i * ETHOC_BD_SIZE) reg;;
    ethoc_write32 (ETHOC_TX_BD_BASE + i * ETHOC_BD_SIZE + 4) (u32 (tx_addr i));;
    mret (reg, false)) 0;;
  kmodify (set_tx_head 0).

Definition ethoc_rx_buf_init : K ethoc_dev unit :=
  kfor (Z.to_nat ETHOC_RX_BUF_COUNT) 0 (fun i reg =>
    let reg := if i =? ETHOC_RX_BUF_COUNT - 1 then Z.lor reg ETHOC_RX_BD_WRAP else reg in
    ethoc_write32 (ETHOC_RX_BD_BASE + i * ETHOC_BD_SIZE) reg;;
    ethoc_write32 (ETHOC_RX_BD_BASE + i * ETHOC_BD_SIZE + 4) (u32 (rx_addr i));;
    mret (reg, false)) ETHOC_RX_BD_EMPTY;;
  kmodify (set_rx_head 0).

Definition ethoc_reset : K ethoc_dev unit :=
  ethoc_disable;;
  ethoc_tx_buf_init;;
  ethoc_rx_buf_init;;
  ethoc_mac_set MAC_DEFAULT;;
  reg ← ethoc_read32 ETHOC_MODER;
  ethoc_write32 ETHOC_MODER (Z.lor (Z.lor (Z.lor reg ETHOC_MODER_FULLD) ETHOC_MODER_RSM) ETHOC_MODER_PAD);;
  ethoc_write32 ETHOC_IPGT 0x15;;
  ethoc_irq_ack ETHOC_INT_MASK_ALL;;
  ethoc_irq_disable ETHOC_INT_MASK_ALL;;
  ethoc_enable.

(** The search of [ethoc_rx_get] and [network_is_new_packet] for a buffer that is not empty. *)
Definition ethoc_rx_search : K ethoc_dev (option Z) :=
  s ← kgets id;
  r ← kfor (Z.to_nat ETHOC_RX_BUF_COUNT) 0 (fun _ (r : Z * option Z) =>
    rx_reg ← ethoc_read32 (ETHOC_RX_BD_BASE + fst r * ETHOC_BD_SIZE);
    mret (if Z.land rx_reg ETHOC_RX_BD_EMPTY =? 0 then ((fst r, Some (fst r)), true)
          else (((fst r + 1) `mod` ETHOC_RX_BUF_COUNT, None), false))) (rx_head s, None);
  mret (snd r).

Definition ethoc_rx_get : K ethoc_dev Z :=
  bd ← ethoc_rx_search;
  match bd with
  | Some bd => kmodify (fun s => set_rx_head ((rx_head s + 1) `mod` ETHOC_RX_BUF_COUNT) s);; mret bd
  | None => mret (err EAGAIN)
  end.

(** The frame that is copied to the caller and its size. *)
Definition ethoc_pool (size : Z) : K ethoc_dev (Z * list Z) :=
  if (size =? 0) || (ETHOC_BUFSIZ <=? size) then mret (err EINVAL, []) else
  bd ← ethoc_rx_get;
  if bd <? 0 then mret (err EAGAIN, []) else
  s ← kgets id;
  row ← kunwrap (aget (eth_rx_buffer s) bd);
  rx_reg ← ethoc_read32 (ETHOC_RX_BD_BASE + bd * ETHOC_BD_SIZE);
  ethoc_write32 (ETHOC_RX_BD_BASE + bd * ETHOC_BD_SIZE)
    (Z.lor (clear32 rx_reg (Z.lor ETHOC_RX_BD_LEN_MASK ETHOC_RX_BD_STATS)) ETHOC_RX_BD_EMPTY);;
  mret (Z.land rx_reg ETHOC_RX_BD_LEN_MASK ≫ ETHOC_RX_BD_LEN_SHIFT, take (Z.to_nat size) row).

Definition ethoc_tx_get : K ethoc_dev Z :=
  bd ← kgets tx_head;
  kmodify (set_tx_head ((bd + 1) `mod` ETHOC_TX_BUF_COUNT));;
  mret bd.

(** [dataf] has the bytes of the frame that is sent. *)
Definition ethoc_send (dataf : list Z) : K ethoc_dev Z :=
  let size := alen dataf in
  if (size =? 0) || (ETHOC_BUFSIZ <=? size) then mret (err EINVAL) else
  bd ← ethoc_tx_get;
  if bd <? 0 then mret (err EAGAIN) else
  s ← kgets id;
  row ← kunwrap (aget (tx_buffer s) bd);
  kmodify (set_tx_buffer (aset bd (dataf ++ drop (length dataf) row) (tx_buffer s)));;
  tx_reg ← ethoc_read32 (ETHOC_TX_BD_BASE + bd * ETHOC_BD_SIZE);
  ethoc_write32 (ETHOC_TX_BD_BASE + bd * ETHOC_BD_SIZE)
    (Z.lor (Z.lor (clear32 tx_reg (Z.lor ETHOC_TX_BD_LEN_MASK ETHOC_TX_BD_STATS)) (ETHOC_TX_BD_LEN size)) ETHOC_TX_BD_READY);;
  ethoc_read32 (ETHOC_TX_BD_BASE + bd * ETHOC_BD_SIZE);;
  mret 0.

Definition ethoc_init (interrupt_register : edev -> edev) : K ethoc_dev unit :=
  kmodify (fun s => set_eth_dev (interrupt_register (eth_dev s)) s);;
  ethoc_reset;;
  m ← ethoc_mac_get;
  kmodify (set_eth_mac m).

(** The handler of the interrupt never returns. *)
Definition do_ethoc : K ethoc_dev unit := khang.

Definition network_init (interrupt_register : edev -> edev) : K ethoc_dev unit := ethoc_init interrupt_register.

Definition network_send_packet (dataf : list Z) : K ethoc_dev unit := ethoc_send dataf;; mret tt.

Definition network_is_new_packet : K ethoc_dev bool :=
  bd ← ethoc_rx_search; mret (bool_decide (is_Some (bd : option Z))).

Definition network_get_new_packet : K ethoc_dev (bool * (Z * list Z)) :=
  r ← ethoc_pool (ETHOC_PACKETLEN_SIZE_MAX - 1);
  mret (0 <=? fst r, (u16 (fst r), snd r)).

(** The card has no loopback mode. *)
Definition network_loopback_supported : Z := 0.
Definition network_loopback_enable : K ethoc_dev unit := KASSERT false.
Definition network_loopback_disable : K ethoc_dev unit := KASSERT false.

Definition network_get_mac_adress : K ethoc_dev (list Z) := ethoc_mac_get.

End driver.

(** ** The registers that the driver reads back

    The descriptors and the address registers keep what is written to them. *)

Definition mem_reg (r : Z) : Prop := r = ETHOC_MAC_ADDR0 \/ r = ETHOC_MAC_ADDR1 \/ 0x400 ≤ r < 0x800.

Class EthocLaws `(D : EthocDevice) := {
  word : edev -> Z -> Z;
  word_read e r : mem_reg r -> fst (mmio_read r e) = word e r;
  word_keep e r : word (snd (mmio_read r e)) = word e;
  word_write e r v r' : mem_reg r' -> 0 ≤ v < 2 ^ 32 -> word (mmio_write r v e) r' = if r =? r' then v else word e r';
  word_range e r : 0 ≤ word e r < 2 ^ 32;
}.

Section spec.
Context `{H : Hlib} {HL : HlibLaws H} `{D : EthocDevice} {L : EthocLaws D}.

Lemma ethoc_read32_spec reg s :
  mem_reg reg -> wp (ethoc_read32 reg) (fun v s' => v = word (eth_dev s) reg /\ exists d, s' = set_eth_dev d s /\ word d = word (eth_dev s)) s.
Proof. intros Hr. unfold wp, ethoc_read32. split; [by apply word_read|]. eexists. split; [done|apply word_keep]. Qed.

(** ** The address *)

Lemma mac_word a b c d : byte a -> byte b -> byte c -> byte d ->
  Z.lor (Z.lor (Z.lor (u32 (a ≪ 24)) (b ≪ 16)) (c ≪ 8)) (d ≪ 0) = d + (c + (b + a ≪ 8) ≪ 8) ≪ 8.
Proof.
  intros Ha Hb Hc Hd. rewrite u32_small, Z.shiftl_0_r by (rewrite shiftl_mul by lia; lia). by apply word4.
Qed.

Lemma mac_word_byte x lo : 0 ≤ lo -> Z.land (x ≫ lo) 0xff = field x lo 8.
Proof. intros. unfold field. apply land_255. Qed.

(** The address that the driver writes to the device is the address that it reads
    back. *)
Theorem ethoc_mac_roundtrip m s :
  length m = 6%nat -> bytes m -> wp (ethoc_mac_set m;; ethoc_mac_get) (fun m' _ => m' = m) s.
Proof.
  intros Hl Hb. destruct m as [|m0 [|m1 [|m2 [|m3 [|m4 [|m5 [|]]]]]]]; try done. rewrite !Forall_cons in Hb. destruct Hb as (H0 & H1 & H2 & H3 & H4 & H5 & _).
  wp_step. unfold ethoc_mac_set, mac_byte, ethoc_write32. do 4 (wp_step; wp_step; [done|]). wp_step. wp_step. do 2 (wp_step; wp_step; [done|]). wp_step.
  rewrite mac_word by done. unfold ethoc_mac_get. wp_step. eapply wp_mono; [apply ethoc_read32_spec; by left|]. intros r0 s1 (-> & d1 & -> & E1).
  wp_step. eapply wp_mono; [apply ethoc_read32_spec; right; by left|]. intros r1 s2 (-> & d2 & -> & E2). wp_step.
  cbn [eth_dev set_eth_dev]. rewrite E1, Z.shiftl_0_r, (lor_add_l 8) by lia.
  destruct (fields4 m2 m3 m4 m5) as (Hw & E5 & E4 & E3 & E2'); [done..|]. destruct (fields2 m0 m1) as (Hw' & E1' & E0'); [done..|].
  rewrite !word_write by ((right; by left) || by left || lia). cbn [Z.eqb ETHOC_MAC_ADDR0 ETHOC_MAC_ADDR1 Pos.eqb eth_dev set_eth_dev].
  rewrite !word_write by ((right; by left) || by left || lia). cbn [Z.eqb ETHOC_MAC_ADDR0 ETHOC_MAC_ADDR1 Pos.eqb].
  rewrite !mac_word_byte by lia. by rewrite E0', E1', E2', E3, E4, E5.
Qed.

(** Fields after updates of the state. *)
Ltac eth_simpl := cbn [eth_dev mac eth_rx_buffer rx_head tx_buffer tx_head set_eth_dev set_rx_head set_tx_buffer set_tx_head] in *.

(** ** Sending *)

Definition row_ok (row : list Z) : Prop := alen row = ETHOC_BUFSIZ.

(** The rows and the ring, with the next descriptor inside of the rows. *)
Record tx_ok (s : ethoc_dev) : Prop := {
  tx_rows : alen (tx_buffer s) = ETHOC_TX_ROWS;
  tx_row : Forall row_ok (tx_buffer s);
}.

Definition sendable (f : list Z) : Prop := 0 < alen f < ETHOC_BUFSIZ.

(** Descriptor [i] hands the frame [f] to the device. *)
Definition tx_ready (s : ethoc_dev) (i : Z) (f : list Z) : Prop :=
  (exists row, aget (tx_buffer s) i = Some row /\ take (length f) row = f) /\
  field (word (eth_dev s) (ETHOC_TX_BD_BASE + i * ETHOC_BD_SIZE)) 16 16 = alen f /\
  Z.testbit (word (eth_dev s) (ETHOC_TX_BD_BASE + i * ETHOC_BD_SIZE)) 15 = true.

Definition tx_control (x size : Z) : Z :=
  Z.lor (Z.lor (clear32 x (Z.lor ETHOC_TX_BD_LEN_MASK ETHOC_TX_BD_STATS)) (ETHOC_TX_BD_LEN size)) ETHOC_TX_BD_READY.

Lemma tx_control_spec x size :
  0 ≤ x < 2 ^ 32 -> 0 ≤ size < 2 ^ 16 ->
  0 ≤ tx_control x size < 2 ^ 32 /\ field (tx_control x size) 16 16 = size /\ Z.testbit (tx_control x size) 15 = true.
Proof.
  intros Hx Hs. unfold tx_control, ETHOC_TX_BD_LEN, clear32. rewrite land_65535, (Z.mod_small size) by lia. split_and!.
  - apply Z.lor_nonneg; split; [|done]. apply Z.lor_nonneg; split; [apply Z.land_nonneg; left; lia|]. apply Z.shiftl_nonneg. lia.
  - apply (bits_lt _ 32); [lia|apply Z.lor_nonneg; split; [|done]; apply Z.lor_nonneg; split; [apply Z.land_nonneg; left; lia|]; apply Z.shiftl_nonneg; lia|].
    intros i Hi. rewrite !Z.lor_spec, Z.land_spec, (Z.shiftl_spec _ _ i) by lia.
    rewrite (testbit_high x 32), (testbit_high size 16), (testbit_high ETHOC_TX_BD_READY 32) by (done || lia). done.
  - apply field_eq; try lia. intros i Hi. rewrite !Z.lor_spec, Z.land_spec, Z.shiftl_spec by lia.

    assert (E1 : Z.testbit (u32 (Z.lnot (Z.lor ETHOC_TX_BD_LEN_MASK ETHOC_TX_BD_STATS))) (i + 16) = false).
    { apply negb_true_iff, (range_check (fun i => negb (Z.testbit (u32 (Z.lnot (Z.lor ETHOC_TX_BD_LEN_MASK ETHOC_TX_BD_STATS))) (i + 16))) 0 16); [vm_compute; reflexivity|lia]. }
    assert (E2 : Z.testbit ETHOC_TX_BD_READY (i + 16) = false) by (apply (testbit_high _ 16); [done|lia]).
    rewrite E1, E2, andb_false_r, orb_false_r. simpl. f_equal. lia.
  - by rewrite Z.lor_spec, orb_true_r.
Qed.

Lemma bd_mem_reg i : 0 ≤ i < 64 -> mem_reg (ETHOC_TX_BD_BASE + i * ETHOC_BD_SIZE).
Proof. intros. right. right. unfold ETHOC_TX_BD_BASE, ETHOC_BD_SIZE. lia. Qed.

Lemma ethoc_send_ok f s :
  tx_ok s -> sendable f -> 0 ≤ tx_head s < ETHOC_TX_ROWS ->
  wp (ethoc_send f) (fun r s' => r = 0 /\ tx_ok s' /\ tx_head s' = tx_head s + 1 /\ tx_ready s' (tx_head s) f /\
    forall i g, 0 ≤ i < tx_head s -> tx_ready s i g -> tx_ready s' i g) s.
Proof.
  intros [Hrows Hrow] Hf Hh. assert (Hh64 : 0 ≤ tx_head s < 64) by (change ETHOC_TX_ROWS with 21 in *; lia).
  unfold sendable, ETHOC_BUFSIZ in Hf. unfold ethoc_send, ethoc_tx_get, ETHOC_BUFSIZ.
  replace ((alen f =? 0) || (1536 <=? alen f)) with false by lia. wp_step. wp_step. wp_step. wp_step. wp_step. wp_step.
  replace (tx_head s <? 0) with false by lia. wp_step. wp_step. unfold id. cbn [tx_buffer set_tx_head].
  destruct (aget_is_Some (tx_buffer s) (tx_head s) ltac:(lia)) as [row Er]. wp_step. wp_step; [done|].
  pose proof (Forall_aget _ _ _ _ Hrow Er) as Hrl. unfold row_ok, ETHOC_BUFSIZ in Hrl. wp_step. wp_step.
  pose proof (bd_mem_reg _ Hh64) as Hreg. wp_step. eapply wp_mono; [by apply ethoc_read32_spec|]. intros x s1 (-> & d1 & -> & E1).
  eth_simpl. unfold ethoc_write32. wp_step. wp_step. fold (tx_control (word (eth_dev s) (ETHOC_TX_BD_BASE + tx_head s * ETHOC_BD_SIZE)) (alen f)).
  wp_step. eapply wp_mono; [by apply ethoc_read32_spec|]. intros y s2 (-> & d2 & -> & E2). wp_step.
  eth_simpl.
  destruct (tx_control_spec (word (eth_dev s) (ETHOC_TX_BD_BASE + tx_head s * ETHOC_BD_SIZE)) (alen f) (word_range _ _) ltac:(lia)) as (Hw & Hlen & Hrdy).
  assert (Erow : length (f ++ drop (length f) row) = length row) by (rewrite length_app, length_drop; lia).
  split_and!; try done.
  - split; eth_simpl; [by rewrite length_aset|]. apply Forall_aset; [done|]. unfold row_ok, ETHOC_BUFSIZ. lia.
  - eth_simpl. unfold ETHOC_TX_BUF_COUNT. rewrite Z.mod_small; [done|]. change ETHOC_TX_ROWS with 21 in *. lia.
  - split_and!; eth_simpl; rewrite ?E2, ?word_write, ?Z.eqb_refl by done; try done.
    eexists. split; [by eapply aget_aset_same|]. by rewrite take_app_length.
  - intros i g Hi ((row' & Er' & Et) & Hl & Hr). split_and!; eth_simpl.
    + exists row'. by rewrite aget_aset_ne by lia.
    + rewrite E2, word_write by (done || apply bd_mem_reg; lia). rewrite (proj2 (Z.eqb_neq _ _)); [by rewrite E1|]. unfold ETHOC_BD_SIZE. lia.
    + rewrite E2, word_write by (done || apply bd_mem_reg; lia). rewrite (proj2 (Z.eqb_neq _ _)); [by rewrite E1|]. unfold ETHOC_BD_SIZE. lia.
Qed.

(** Past the rows, a frame is written outside of the array of buffers. *)
Lemma ethoc_send_fault f s :
  alen (tx_buffer s) = ETHOC_TX_ROWS -> sendable f -> ETHOC_TX_ROWS ≤ tx_head s < ETHOC_TX_BUF_COUNT -> ethoc_send f s = Fault.
Proof.
  intros Hrows Hf Hh. change ETHOC_TX_ROWS with 21 in *. unfold sendable, ETHOC_BUFSIZ in Hf. unfold ethoc_send, ETHOC_BUFSIZ.
  replace ((alen f =? 0) || (1536 <=? alen f)) with false by lia.
  rewrite (done_bind ethoc_tx_get _ _ (tx_head s) (set_tx_head ((tx_head s + 1) `mod` ETHOC_TX_BUF_COUNT) s) eq_refl).
  replace (tx_head s <? 0) with false by lia. rewrite (done_bind (kgets id) _ _ _ _ eq_refl). apply fault_bind.
  unfold id. cbn [tx_buffer set_tx_head]. by rewrite aget_ge by lia.
Qed.

Lemma kseq_send_ok fs s :
  tx_ok s -> Forall sendable fs -> 0 ≤ tx_head s -> tx_head s + alen fs ≤ ETHOC_TX_ROWS ->
  wp (kseq (ethoc_send <$> fs)) (fun rs s' => rs = replicate (length fs) 0 /\ tx_ok s' /\ tx_head s' = tx_head s + alen fs /\
    (forall i g, 0 ≤ i < tx_head s -> tx_ready s i g -> tx_ready s' i g) /\
    forall (k : nat) f, fs !! k = Some f -> tx_ready s' (tx_head s + Z.of_nat k) f) s.
Proof.
  revert s. induction fs as [|f fs IH]; intros s Hok Hfs H0 Hh; simpl.
  - wp_step. split_and!; try done. lia.
  - apply Forall_cons in Hfs as [Hf Hfs]. simpl in Hh. wp_step. eapply wp_mono; [apply ethoc_send_ok; [done|done|lia]|].
    intros r s1 (-> & Hok1 & Hh1 & Hr1 & Hk1). wp_step. eapply wp_mono; [apply IH; [done|done|lia|lia]|].
    intros rs s2 (-> & Hok2 & Hh2 & Hk2 & Hr2). wp_step. split_and!; try done; [lia| |].
    + intros i g Hi Hg. apply Hk2; [lia|]. by apply Hk1.
    + intros [|k] g Hk; simplify_eq/=.
      * rewrite Z.add_0_r. apply Hk2; [lia|done].
      * specialize (Hr2 k g Hk). rewrite Hh1 in Hr2. by replace (tx_head s + Z.of_nat (S k)) with (tx_head s + 1 + Z.of_nat k) by lia.
Qed.

(** The ring of descriptors has 64 entries but the driver has only 21 buffers.  The
    first 21 frames that are sent after the initialisation are handed to the device, each
    one complete in its own buffer and with its length in its descriptor.  The next frame
    is written outside of the array. *)
Theorem ethoc_send_overruns fs s :
  tx_ok s -> tx_head s = 0 -> Forall sendable fs ->
  (alen fs ≤ 21 -> wp (kseq (ethoc_send <$> fs)) (fun rs s' => rs = replicate (length fs) 0 /\
     forall (k : nat) f, fs !! k = Some f -> tx_ready s' (Z.of_nat k) f) s) /\
  (21 < alen fs -> kseq (ethoc_send <$> fs) s = Fault).
Proof.
  intros Hok Hh Hfs. split; intros Hl.
  - eapply wp_mono; [apply kseq_send_ok; [done|done|lia|by rewrite Hh]|]. intros rs s' (-> & _ & _ & _ & Hr). split; [done|].
    intros k f Hk. specialize (Hr k f Hk). by rewrite Hh in Hr.
  - rewrite <- (take_drop 21 fs) in Hfs |- *. apply Forall_app in Hfs as [H1 H2]. rewrite fmap_app, kseq_app.
    assert (Hl1 : alen (take 21 fs) = 21) by (rewrite length_take; lia).
    pose proof (kseq_send_ok (take 21 fs) s Hok H1 ltac:(lia) ltac:(rewrite Hh, Hl1; done)) as Hw.
    apply wp_returns in Hw as (rs & s1 & E & _ & Hok1 & Hh1 & _). rewrite (done_bind _ _ _ _ _ E). apply fault_bind.
    destruct (drop 21 fs) as [|f gs] eqn:Ed; [apply (f_equal length) in Ed; rewrite length_drop in Ed; simpl in Ed; lia|].
    apply Forall_cons in H2 as [Hf _]. simpl. apply fault_bind, ethoc_send_fault; [apply Hok1|done|].
    rewrite Hh1, Hh, Hl1. done.
Qed.

(** ** Receiving *)

Definition rx_bd (i : Z) : Z := ETHOC_RX_BD_BASE + i * ETHOC_BD_SIZE.

(** The device has stored frame [f] in buffer [i]. *)
Definition rx_full (s : ethoc_dev) (i : Z) (f : list Z) : Prop :=
  (exists row, aget (eth_rx_buffer s) i = Some row /\ take (length f) row = f) /\ alen f < ETHOC_BUFSIZ /\
  field (word (eth_dev s) (rx_bd i)) 16 16 = alen f /\ Z.testbit (word (eth_dev s) (rx_bd i)) 15 = false.

(** The frames that have been received and not been taken, in order. *)
Record rx_queue (s : ethoc_dev) (q : list (list Z)) : Prop := {
  rq_head : 0 ≤ rx_head s /\ rx_head s + alen q ≤ ETHOC_RX_ROWS;
  rq_full (k : nat) f : q !! k = Some f -> rx_full s (rx_head s + Z.of_nat k) f;
  rq_empty i : 0 ≤ i < ETHOC_RX_BUF_COUNT -> ~ rx_head s ≤ i < rx_head s + alen q -> Z.testbit (word (eth_dev s) (rx_bd i)) 15 = true;
}.

Lemma rx_mem_reg i : 0 ≤ i < 64 -> mem_reg (rx_bd i).
Proof. intros. right. right. unfold rx_bd, ETHOC_RX_BD_BASE, ETHOC_TX_BUF_COUNT, ETHOC_BD_SIZE. lia. Qed.

Lemma rx_empty_bit x : (Z.land x ETHOC_RX_BD_EMPTY =? 0) = negb (Z.testbit x 15).
Proof.
  unfold ETHOC_RX_BD_EMPTY. rewrite Z.shiftl_1_l. destruct (Z.testbit x 15) eqn:E; cbn [negb].
  - apply Z.eqb_neq. intros E0. apply (f_equal (fun y => Z.testbit y 15)) in E0. by rewrite Z.land_spec, E in E0.
  - apply Z.eqb_eq, Z.bits_inj'. intros i Hi. rewrite Z.land_spec, Z.bits_0, Z.pow2_bits_eqb by lia.
    destruct (Z.eqb_spec 15 i) as [<-|]; [by rewrite E|by rewrite andb_false_r].
Qed.

Definition rx_control (x : Z) : Z := Z.lor (clear32 x (Z.lor ETHOC_RX_BD_LEN_MASK ETHOC_RX_BD_STATS)) ETHOC_RX_BD_EMPTY.

Lemma rx_control_spec x : 0 ≤ x < 2 ^ 32 -> 0 ≤ rx_control x < 2 ^ 32 /\ Z.testbit (rx_control x) 15 = true.
Proof.
  intros Hx. unfold rx_control, clear32. assert (0 ≤ Z.lor (Z.land x (u32 (Z.lnot (Z.lor ETHOC_RX_BD_LEN_MASK ETHOC_RX_BD_STATS)))) ETHOC_RX_BD_EMPTY)
    by (apply Z.lor_nonneg; split; [apply Z.land_nonneg; left; lia|done]).
  split_and!; [done| |by rewrite Z.lor_spec, orb_true_r].
  apply (bits_lt _ 32); [lia|done|]. intros i Hi. rewrite Z.lor_spec, Z.land_spec, (testbit_high x 32), (testbit_high ETHOC_RX_BD_EMPTY 32) by (done || lia). done.
Qed.

Lemma rx_length x : 0 ≤ x < 2 ^ 32 -> Z.land x ETHOC_RX_BD_LEN_MASK ≫ ETHOC_RX_BD_LEN_SHIFT = field x 16 16.
Proof.
  intros Hx. unfold ETHOC_RX_BD_LEN_MASK, ETHOC_RX_BD_LEN_SHIFT, field. rewrite Z.shiftr_land, Z.shiftr_shiftl_l, Z.shiftl_0_r by lia.
  apply land_65535.
Qed.

Lemma ethoc_rx_search_spec s q :
  rx_queue s q ->
  wp ethoc_rx_search (fun bd s' => bd = match q with [] => None | _ :: _ => Some (rx_head s) end /\ exists d, s' = set_eth_dev d s /\ word d = word (eth_dev s)) s.
Proof.
  intros [Hh Hf He]. change ETHOC_RX_ROWS with 21 in Hh. unfold ethoc_rx_search. wp_step. wp_step. unfold id. wp_step.
  destruct q as [|f q].
  - eapply (wp_mono _ (fun r s' => snd r = None /\ exists d, s' = set_eth_dev d s /\ word d = word (eth_dev s))); [|intros [bd r] s' [Er Hd]; simpl in Er; subst r; by wp_step].
    apply (wp_kfor (fun _ r s' => snd r = None /\ 0 ≤ fst r < 64 /\ exists d, s' = set_eth_dev d s /\ word d = word (eth_dev s))).
    + split; [done|]. simpl in *. split; [lia|]. exists (eth_dev s). by destruct s.
    + intros i [bd r] s' _ (Er & Hbd & d & -> & Ed). simpl in Er, Hbd. subst r. wp_step. cbn [fst snd].
      eapply wp_mono; [by apply ethoc_read32_spec, rx_mem_reg|]. intros x s2 (-> & d2 & -> & E2). wp_step. eth_simpl.
      fold (rx_bd bd). rewrite rx_empty_bit, Ed, He by (unfold ETHOC_RX_BUF_COUNT; simpl; lia). cbn [negb fst snd]. split_and!; try done; try (apply Z.mod_pos_bound; done).
      exists d2. split; [done|congruence].
    + by intros [bd r] s' (Er & _ & Hd).
  - destruct (Hf 0%nat f eq_refl) as (_ & _ & _ & Hb). rewrite Z.add_0_r in Hb. simpl in Hh. change (Z.to_nat ETHOC_RX_BUF_COUNT) with (S 63).
    cbn [kfor]. wp_step. wp_step. cbn [fst snd].
    eapply wp_mono; [apply ethoc_read32_spec, rx_mem_reg; lia|]. intros x s2 (-> & d2 & -> & E2). wp_step.
    fold (rx_bd (rx_head s)). rewrite rx_empty_bit, Hb. cbn [negb fst snd]. wp_step. wp_step. split; [done|]. by exists d2.
Qed.

(** Frames are taken in the order in which the device has stored them: the frame at
    the head of the queue is returned complete and with its length, its descriptor is
    given back to the device, and the rest of the queue stays; without a frame the error
    is EAGAIN.  This is for the 21 buffers that the driver has. *)
Theorem ethoc_pool_fifo s q :
  rx_queue s q ->
  wp (ethoc_pool (ETHOC_PACKETLEN_SIZE_MAX - 1)) (fun r s' =>
    match q with
    | [] => r = (err EAGAIN, []) /\ rx_queue s' []
    | f :: q => fst r = alen f /\ take (length f) (snd r) = f /\ rx_queue s' q
    end) s.
Proof.
  intros Hq. pose proof Hq as [Hh Hf He]. change ETHOC_RX_ROWS with 21 in Hh. unfold ethoc_pool. change (_ || _) with false. cbn iota.
  unfold ethoc_rx_get. wp_step. wp_step. eapply wp_mono; [by apply ethoc_rx_search_spec|]. intros bd s1 (-> & d1 & -> & E1). destruct q as [|f q].
  - wp_step. assert (Hneg : err EAGAIN < 0) by (apply err_neg). rewrite (proj2 (Z.ltb_lt _ _) Hneg). wp_step. split; [done|].
    split; eth_simpl; [done|done|]. intros i Hi Hn. rewrite E1. by apply He.
  - simpl in Hh. wp_step. wp_step. wp_step. replace (rx_head s <? 0) with false by lia. wp_step. wp_step. unfold id. eth_simpl.
    destruct (Hf 0%nat f eq_refl) as ((row & Er & Et) & Hlen & Hfield & Hb). rewrite Z.add_0_r in *. wp_step. wp_step; [done|].
    wp_step. eapply wp_mono; [apply ethoc_read32_spec, (rx_mem_reg (rx_head s)); lia|]. intros x s2 (-> & d2 & -> & E2). eth_simpl.
    unfold ethoc_write32. wp_step. wp_step. wp_step. eth_simpl. rewrite E1. split_and!.
    + cbn [fst]. rewrite rx_length by apply word_range. done.
    + cbn [snd]. rewrite take_take. unfold ETHOC_BUFSIZ in Hlen. replace (length f `min` _)%nat with (length f); [done|].
      change (Z.to_nat (ETHOC_PACKETLEN_SIZE_MAX - 1)) with (Z.to_nat 1535). lia.
    + fold (rx_bd (rx_head s)). fold (rx_control (word (eth_dev s) (rx_bd (rx_head s)))).
      destruct (rx_control_spec (word (eth_dev s) (rx_bd (rx_head s))) (word_range _ _)) as [Hw Hbit].
      assert (Hinj : forall i, (rx_bd (rx_head s) =? rx_bd i) = bool_decide (rx_head s = i)).
      { intros i. unfold rx_bd, ETHOC_BD_SIZE. case_bool_decide; lia. }
      assert (Hhead : (rx_head s + 1) `mod` ETHOC_RX_BUF_COUNT = rx_head s + 1) by (apply Z.mod_small; unfold ETHOC_RX_BUF_COUNT; lia).
      split; eth_simpl; rewrite ?Hhead.
      * change ETHOC_RX_ROWS with 21. lia.
      * intros k g Hk. specialize (Hf (S k) g Hk). replace (rx_head s + Z.of_nat (S k)) with (rx_head s + 1 + Z.of_nat k) in Hf by lia.
        pose proof (lookup_lt_Some _ _ _ Hk). destruct Hf as (Hrow & Hl & Hfl & Hbb). split_and!; eth_simpl; try done;
          rewrite word_write, Hinj, bool_decide_false, E2, E1 by (done || lia || apply rx_mem_reg; lia); done.
      * intros i Hi Hn. rewrite word_write, Hinj by (done || apply rx_mem_reg; done). case_bool_decide; [done|]. rewrite E2, E1. apply He; [done|]. simpl. lia.
Qed.

End spec.

(** ** A small device

    Registers that keep what is written to them. *)

Definition ethoc_word (e : gmap Z Z) (r : Z) : Z := u32 (default 0 (e !! r)).

Definition ethoc_small : EthocDevice := {|
  edev := gmap Z Z;
  mmio_read r e := (ethoc_word e r, e);
  mmio_write r v e := <[r := v]> e;
|}.
#[local] Existing Instance ethoc_small.

Definition ethoc_small_laws : EthocLaws ethoc_small.
Proof.
  refine {| word := ethoc_word : edev -> Z -> Z |}; try done.
  - intros e r v r' _ Hv. unfold ethoc_word. simpl. destruct (Z.eqb_spec r r') as [->|].
    + rewrite lookup_insert_eq. by apply u32_small.
    + by rewrite lookup_insert_ne.
  - intros e r. apply u32_range.
Defined.
#[local] Existing Instance ethoc_small_laws.

Definition ethoc_start : ethoc_dev := EthocDev (∅ : gmap Z Z) [] (replicate 21 (replicate 1536 0)) 0 (replicate 21 (replicate 1536 0)) 0.

Lemma ethoc_start_ok : tx_ok ethoc_start.
Proof. split; [done|]. by apply Forall_replicate. Qed.

Lemma ethoc_mac_roundtrip_witness : wp (ethoc_mac_set MAC_DEFAULT;; ethoc_mac_get) (fun m _ => m = MAC_DEFAULT) ethoc_start.
Proof. apply (ethoc_mac_roundtrip MAC_DEFAULT ethoc_start); [done|]. repeat (apply Forall_cons_2; [done|]). apply Forall_nil_2. Defined.

Lemma ethoc_send_overruns_witness : kseq (ethoc_send <$> replicate 22 [1; 2; 3]) ethoc_start = Fault.
Proof. apply (ethoc_send_overruns (replicate 22 [1; 2; 3]) ethoc_start ethoc_start_ok eq_refl); [by apply Forall_replicate|done]. Defined.

(** The device has stored one frame of two bytes. *)
Definition ethoc_received : ethoc_dev :=
  set_eth_dev (<[rx_bd 0 := 2 ≪ 16]> (foldr (fun i m => <[rx_bd i := ETHOC_RX_BD_EMPTY]> m) (∅ : gmap Z Z) (seqZ 1 63)))
    (EthocDev (∅ : gmap Z Z) [] ((7 :: 8 :: replicate 1534 0) :: replicate 20 (replicate 1536 0)) 0 [] 0).

Lemma ethoc_pool_fifo_witness :
  wp (ethoc_pool (ETHOC_PACKETLEN_SIZE_MAX - 1)) (fun r s' => fst r = 2 /\ take 2 (snd r) = [7; 8] /\ rx_queue s' []) ethoc_received.
Proof.
  apply (ethoc_pool_fifo ethoc_received [[7; 8]]). split.
  - done.
  - intros [|k] f Hk; simplify_eq/=. split_and!; try (vm_compute; reflexivity). by eexists.
  - intros i Hi Hn. simpl in Hn. apply (range_check (fun i => Z.testbit (word (eth_dev ethoc_received) (rx_bd i)) 15) 1 63); [vm_compute; reflexivity|].
    unfold ETHOC_RX_BUF_COUNT in Hi. lia.
Defined.
