(* ===== verification/LwipString.v ===== *)
(** * Memory and string functions of the TCP/IP stack

    src/lwip/src/string: [memcpy], [memmove], [memset], [memcmp] and [strncmp].  The
    memory is a map from addresses to bytes; an address that is not in the map is not
    accessible.  [memmove] copies between areas that overlap as if through a temporary
    copy, [memcmp] and [strncmp] decide the lexicographic order. *)

From stdpp Require Import base gmap list numbers.
From S2P Require Import Prelude.
From S2P Require Import Bytes.

Open Scope Z_scope.

Abbreviation mem := (gmap Z Z).

Definition load (a : Z) : K mem Z := m ← kgets id; kunwrap (m !! a).
Definition store (a v : Z) : K mem unit := load a;; kmodify (fun m => <[a := v]> m).

(** [while (n-- > 0) *p1++ = *p2++;] *)
Fixpoint copy_up (p1 p2 : Z) (n : nat) : K mem Z :=
  match n with
  | O => mret p1
  | S n => v ← load p2; store p1 v;; copy_up (p1 + 1) (p2 + 1) n
  end.

(** [while (n-- > 0) *--p1 = *--p2;] *)
Fixpoint copy_down (p1 p2 : Z) (n : nat) : K mem unit :=
  match n with
  | O => mret tt
  | S n => v ← load (p2 - 1); store (p1 - 1) v;; copy_down (p1 - 1) (p2 - 1) n
  end.

Definition memcpy (s1 s2 : Z) (n : nat) : K mem Z := copy_up s1 s2 n.

Definition memmove (s1 s2 : Z) (n : nat) : K mem Z :=
  if (s2 <? s1) && (s1 <? s2 + Z.of_nat n) then
    copy_down (s1 + Z.of_nat n) (s2 + Z.of_nat n) n;; mret s1
  else copy_up s1 s2 n;; mret s1.

Fixpoint memset_from (p c : Z) (n : nat) : K mem unit :=
  match n with
  | O => mret tt
  | S n => store p (u8 c);; memset_from (p + 1) c n
  end.

Definition memset (s c : Z) (n : nat) : K mem Z := memset_from s c n;; mret s.

Fixpoint memcmp (s1 s2 : Z) (n : nat) : K mem Z :=
  match n with
  | O => mret 0
  | S n =>
      a ← load s1;
      b ← load s2;
      if a =? b then memcmp (s1 + 1) (s2 + 1) n else mret (a - b)
  end.

Fixpoint strncmp (s1 s2 : Z) (n : nat) : K mem Z :=
  match n with
  | O => mret 0
  | S n =>
      a ← load s1;
      b ← load s2;
      if negb (a =? b) then mret (a - b)
      else if a =? 0 then mret 0
      else strncmp (s1 + 1) (s2 + 1) n
  end.

(** ** Areas of memory *)

Definition mapped (m : mem) (a : Z) (n : nat) : Prop := forall k, 0 ≤ k < Z.of_nat n -> is_Some (m !! (a + k)).

Section copying.

Lemma wp_load a v (Q : Z -> mem -> Prop) m : m !! a = Some v -> Q v m -> wp (load a) Q m.
Proof. intros E HQ. unfold load. wp_step. wp_step. by wp_step. Qed.

Lemma wp_store a v (Q : unit -> mem -> Prop) m : is_Some (m !! a) -> Q tt (<[a := v]> m) -> wp (store a v) Q m.
Proof. intros [x E] HQ. unfold store. wp_step. eapply wp_load; [done|]. by wp_step. Qed.

Lemma mapped_insert m a n b v : mapped m a n -> mapped (<[b := v]> m) a n.
Proof. intros Hm k Hk. rewrite lookup_insert_is_Some. destruct (decide (b = a + k)); [by left|right]. split; [done|by apply Hm]. Qed.

Lemma mapped_tail m a n : mapped m a (S n) -> mapped m (a + 1) n.
Proof. intros Hm k Hk. rewrite <- Z.add_assoc. apply Hm. lia. Qed.

Lemma mapped_init m a n : mapped m a (S n) -> mapped m a n.
Proof. intros Hm k Hk. apply Hm. lia. Qed.

Lemma mapped_head m a n : mapped m a (S n) -> is_Some (m !! a).
Proof. intros Hm. specialize (Hm 0 ltac:(lia)). by rewrite Z.add_0_r in Hm. Qed.

Lemma mapped_last m a n : mapped m a (S n) -> is_Some (m !! (a + Z.of_nat n)).
Proof. intros Hm. apply Hm. lia. Qed.

Lemma mem_read_insert m a n b v : b < a \/ a + Z.of_nat n ≤ b -> mem_read (<[b := v]> m) a n = mem_read m a n.
Proof.
  intros Hb. unfold mem_read. apply list_fmap_ext. intros i k Hk%lookup_seq. rewrite lookup_insert_ne; [done|]. lia.
Qed.

Lemma mem_read_S m a n v : m !! a = Some v -> mem_read m a (S n) = v :: mem_read m (a + 1) n.
Proof.
  intros E. unfold mem_read. simpl. rewrite Z.add_0_r, E. simpl. f_equal. rewrite <- fmap_S_seq, <- list_fmap_compose.
  apply list_fmap_ext. intros i k _. simpl. do 2 f_equal. lia.
Qed.

Lemma mem_read_snoc m a n v : m !! (a + Z.of_nat n) = Some v -> mem_read m a (S n) = mem_read m a n ++ [v].
Proof. intros E. unfold mem_read. rewrite seq_S, fmap_app. simpl. by rewrite E. Qed.

Lemma mem_write_snoc a l v m : mem_write a (l ++ [v]) m = mem_write a l (<[a + alen l := v]> m).
Proof.
  revert a. induction l as [|x l IH]; intros a; simpl; [by rewrite Z.add_0_r|]. rewrite IH. do 3 f_equal. lia.
Qed.

Lemma mem_write_insert a l v m : mem_write (a + 1) l (<[a := v]> m) = <[a := v]> (mem_write (a + 1) l m).
Proof.
  assert (Hgen : forall c, a < c -> mem_write c l (<[a := v]> m) = <[a := v]> (mem_write c l m)); [|apply Hgen; lia].
  induction l as [|x l IH]; intros c Hc; simpl; [done|]. rewrite IH by lia. apply insert_insert_ne. lia.
Qed.

(** Copying upwards is right unless the source starts below the destination and reaches into it. *)
Lemma copy_up_spec p1 p2 n m :
  mapped m p1 n -> mapped m p2 n -> p1 ≤ p2 \/ p2 + Z.of_nat n ≤ p1 ->
  wp (copy_up p1 p2 n) (fun r m' => r = p1 + Z.of_nat n /\ m' = mem_write p1 (mem_read m p2 n) m) m.
Proof.
  revert p1 p2 m. induction n as [|n IH]; intros p1 p2 m H1 H2 Ho; cbn [copy_up]; [wp_step; split; [lia|done]|].
  destruct (mapped_head _ _ _ H2) as [v Ev]. wp_step. eapply wp_load; [done|]. wp_step. apply wp_store; [by eapply mapped_head|].
  eapply wp_mono; [apply IH; [by apply mapped_insert, mapped_tail|by apply mapped_insert, mapped_tail|lia]|].
  intros r m' [-> ->]. split; [lia|]. rewrite (mem_read_S m p2 n v) by done. simpl. rewrite <- mem_write_insert. f_equal.
  apply mem_read_insert. lia.
Qed.

Lemma copy_down_spec p1 p2 n m :
  mapped m p1 n -> mapped m p2 n -> p2 ≤ p1 ->
  wp (copy_down (p1 + Z.of_nat n) (p2 + Z.of_nat n) n) (fun _ m' => m' = mem_write p1 (mem_read m p2 n) m) m.
Proof.
  revert m. induction n as [|n IH]; intros m H1 H2 Ho; cbn [copy_down]; [by wp_step|].
  replace (p1 + Z.of_nat (S n) - 1) with (p1 + Z.of_nat n) by lia. replace (p2 + Z.of_nat (S n) - 1) with (p2 + Z.of_nat n) by lia.
  destruct (mapped_last _ _ _ H2) as [v Ev]. wp_step. eapply wp_load; [done|]. wp_step. apply wp_store; [by apply mapped_last|].
  eapply wp_mono; [apply IH; [by apply mapped_insert, mapped_init|by apply mapped_insert, mapped_init|done]|].
  intros [] m' ->. rewrite (mem_read_snoc m p2 n v), mem_write_snoc, length_mem_read by done. f_equal. apply mem_read_insert. lia.
Qed.

(** [memmove] copies the bytes that the source had before the call to the
    destination, whether or not the two areas overlap, changes no other byte and returns
    the destination. *)
Theorem memmove_correct s1 s2 n m :
  mapped m s1 n -> mapped m s2 n ->
  wp (memmove s1 s2 n) (fun r m' => r = s1 /\ m' = mem_write s1 (mem_read m s2 n) m) m.
Proof.
  intros H1 H2. unfold memmove. wp_step.
  - wp_step. eapply wp_mono; [apply copy_down_spec; [done|done|lia]|]. intros [] m' ->. by wp_step.
  - wp_step. eapply wp_mono; [apply copy_up_spec; [done|done|lia]|]. intros r m' [_ ->]. by wp_step.
Qed.

(** [memcpy] copies too, between areas that do not overlap, but returns the end of the
    destination. *)
Lemma memcpy_spec s1 s2 n m :
  mapped m s1 n -> mapped m s2 n -> s1 + Z.of_nat n ≤ s2 \/ s2 + Z.of_nat n ≤ s1 ->
  wp (memcpy s1 s2 n) (fun r m' => r = s1 + Z.of_nat n /\ m' = mem_write s1 (mem_read m s2 n) m) m.
Proof. intros H1 H2 Ho. apply copy_up_spec; [done|done|]. destruct Ho; [left|by right]. lia. Qed.

Lemma memset_spec s c n m :
  mapped m s n -> wp (memset s c n) (fun r m' => r = s /\ m' = mem_write s (replicate n (u8 c)) m) m.
Proof.
  intros Hm. unfold memset. wp_step. apply (wp_mono _ (fun _ m' => m' = mem_write s (replicate n (u8 c)) m)); [|intros [] m' ->; by wp_step].
  revert s m Hm. induction n as [|n IH]; intros s m Hm; simpl; [by wp_step|]. wp_step. apply wp_store; [by eapply mapped_head|].
  eapply wp_mono; [apply IH; by apply mapped_insert, mapped_tail|]. intros [] m' ->. apply mem_write_insert.
Qed.

End copying.

(** ** Comparison *)

(** The lexicographic order of two sequences of the same length. *)
Fixpoint lex (l1 l2 : list Z) : comparison :=
  match l1, l2 with
  | x :: l1, y :: l2 => match x ?= y with Eq => lex l1 l2 | c => c end
  | _, _ => Eq
  end.

(** The part of a string that [strncmp] looks at: up to the first zero byte. *)
Fixpoint cstr (l : list Z) : list Z :=
  match l with
  | [] => []
  | x :: l => if x =? 0 then [0] else x :: cstr l
  end.

Lemma lex_differ a b l1 l2 : a <> b -> (a - b ?= 0) = lex (a :: l1) (b :: l2).
Proof.
  intros Hne. cbn [lex]. destruct (Z.compare_spec a b); [done|apply Z.compare_lt_iff; lia|apply Z.compare_gt_iff; lia].
Qed.

Lemma memcmp_spec s1 s2 n m :
  mapped m s1 n -> mapped m s2 n ->
  wp (memcmp s1 s2 n) (fun r m' => m' = m /\ (r ?= 0) = lex (mem_read m s1 n) (mem_read m s2 n)) m.
Proof.
  revert s1 s2. induction n as [|n IH]; intros s1 s2 H1 H2; cbn [memcmp]; [by wp_step|].
  destruct (mapped_head _ _ _ H1) as [a Ea]. destruct (mapped_head _ _ _ H2) as [b Eb].
  rewrite (mem_read_S _ _ _ _ Ea), (mem_read_S _ _ _ _ Eb). wp_step. eapply wp_load; [done|]. wp_step. eapply wp_load; [done|].
  destruct (Z.eqb_spec a b) as [->|Hne].
  - cbn [lex]. rewrite Z.compare_refl. apply IH; by apply mapped_tail.
  - wp_step. split; [done|]. by apply lex_differ.
Qed.


(** The prefix of two strings at which [strncmp] stops. *)
Lemma strncmp_spec s1 s2 n m :
  mapped m s1 n -> mapped m s2 n -> bytes (mem_read m s1 n) -> bytes (mem_read m s2 n) ->
  wp (strncmp s1 s2 n) (fun r m' => m' = m /\ (r ?= 0) = lex (cstr (mem_read m s1 n)) (cstr (mem_read m s2 n))) m.
Proof.
  revert s1 s2. induction n as [|n IH]; intros s1 s2 H1 H2; cbn [strncmp]; [intros _ _; by wp_step|].
  destruct (mapped_head _ _ _ H1) as [a Ea]. destruct (mapped_head _ _ _ H2) as [b Eb].
  rewrite (mem_read_S _ _ _ _ Ea), (mem_read_S _ _ _ _ Eb), !Forall_cons. intros [Ha B1] [Hb B2].
  wp_step. eapply wp_load; [done|]. wp_step. eapply wp_load; [done|]. cbn [cstr].
  destruct (Z.eqb_spec a b) as [->|Hne]; cbn [negb].
  - destruct (Z.eqb_spec b 0) as [->|Hb0]; [by wp_step|]. cbn [lex]. rewrite Z.compare_refl.
    apply IH; [by apply mapped_tail|by apply mapped_tail|done|done].
  - wp_step. split; [done|].
    assert (Hc : forall x l, exists l', (if x =? 0 then [0] else x :: l) = x :: l')
      by (intros x l; destruct (Z.eqb_spec x 0) as [->|]; by eexists).
    destruct (Hc a (cstr (mem_read m (s1 + 1) n))) as [la ->], (Hc b (cstr (mem_read m (s2 + 1) n))) as [lb ->]. by apply lex_differ.
Qed.

(** ** Two areas that overlap *)

Definition mem_four : mem := list_to_map [(10, 1); (11, 2); (12, 3); (13, 4)].

Lemma memmove_correct_witness :
  wp (memmove 11 10 3) (fun r m' => r = 11 /\ mem_read m' 10 4 = [1; 1; 2; 3]) mem_four.
Proof.
  assert (Hm : forall a, 10 ≤ a ≤ 11 -> mapped mem_four a 3).
  { intros a Ha k Hk. assert (a + k = 10 \/ a + k = 11 \/ a + k = 12 \/ a + k = 13) as [->|[->|[->| ->]]] by lia; by eexists. }
  eapply wp_mono; [apply (memmove_correct 11 10 3 mem_four); apply Hm; lia|]. intros r m' [-> ->]. split; [done|]. vm_compute. reflexivity.
Defined.
