(* ===== verification/Chksum.v ===== *)
(** * The Internet checksum

    src/lwip/src/core/inet_chksum.c with include/lwip/inet_chksum.h, and the conversions
    between host and network byte order of include/lwip/def.h and core/def.c.  The three
    versions of the checksum, the checksum of a chain of buffers and the one with a pseudo
    header are compared with the definition of the Internet checksum: the sum, with
    end-around carry, of the data as 16-bit words in network byte order.  A chain is the
    list of the addresses and the bytes of its payloads. *)

From stdpp Require Import base list numbers.
From S2P Require Import Prelude.
From S2P Require Import Bytes.

Open Scope Z_scope.

(** ** The program *)

(** [BYTE_ORDER] is LITTLE_ENDIAN. *)
Class ByteOrder := little_endian : bool.

Definition SWAP_BYTES_IN_WORD (w : Z) : Z := Z.lor (Z.land w 0xff ≪ 8) (Z.land w 0xff00 ≫ 8).
Definition FOLD_U32T (u : Z) : Z := u32 ((u ≫ 16) + Z.land u 0x0000ffff).

Section program.
Context {E : ByteOrder}.

(** The value of the two, or four, bytes of a word in memory. *)
Definition host16 (a b : Z) : Z := if little_endian then le16 a b else be16 a b.
Definition host32 (a b c d : Z) : Z := if little_endian then be32 d c b a else be32 a b c d.

Definition PP_HTONS (n : Z) : Z := Z.lor (Z.land n 0x00ff ≪ 8) (Z.land n 0xff00 ≫ 8).
Definition PP_HTONL (n : Z) : Z :=
  Z.lor (Z.lor (Z.lor (Z.land n 0x000000ff ≪ 24) (Z.land n 0x0000ff00 ≪ 8)) (Z.land n 0x00ff0000 ≫ 8))
    (Z.land n 0xff000000 ≫ 24).

Definition lwip_htons (n : Z) : Z := if little_endian then PP_HTONS n else n.
Definition lwip_htonl (n : Z) : Z := if little_endian then PP_HTONL n else n.

(** Version 1: one word after the other, in network byte order. *)
Fixpoint chksum1_words (acc : Z) (l : list Z) : Z :=
  match l with
  | a :: b :: l => chksum1_words (u32 (acc + Z.lor (u16 (a ≪ 8)) b)) l
  | [a] => u32 (acc + u16 (a ≪ 8))
  | [] => acc
  end.

Definition lwip_standard_chksum1 (l : list Z) : Z :=
  let acc := chksum1_words 0 l in
  let acc := u32 ((acc ≫ 16) + Z.land acc 0x0000ffff) in
  let acc := if Z.land acc 0xffff0000 =? 0 then acc else u32 ((acc ≫ 16) + Z.land acc 0x0000ffff) in
  lwip_htons (u16 acc).

(** The loop over aligned words, with the bytes that are left. *)
Fixpoint chksum_words (sum : Z) (l : list Z) : Z * list Z :=
  match l with
  | a :: b :: l => chksum_words (u32 (sum + host16 a b)) l
  | _ => (sum, l)
  end.

(** The byte at an odd address at the start, and the rest. *)
Definition chksum_start (odd : bool) (l : list Z) : Z * list Z :=
  match odd, l with true, b :: l => (b, l) | _, _ => (0, l) end.

Definition chksum_end (l : list Z) : Z := match l with b :: _ => b | [] => 0 end.

Definition chksum_fold (odd : bool) (sum : Z) : Z :=
  let sum := FOLD_U32T (FOLD_U32T sum) in
  u16 (if odd then SWAP_BYTES_IN_WORD sum else sum).

(** Version 2, the one that is built: aligned words, in the byte order of the host. *)
Definition lwip_standard_chksum (addr : Z) (l : list Z) : Z :=
  let odd := Z.odd addr in
  let '(t1, pb) := chksum_start odd l in
  let '(sum, rest) := chksum_words 0 pb in
  chksum_fold odd (u32 (sum + host16 (chksum_end rest) t1)).

(** Version 3: eight bytes in a round. *)
Definition add_carry (sum w : Z) : Z := let tmp := u32 (sum + w) in if tmp <? sum then u32 (tmp + 1) else tmp.

Fixpoint chksum3_words (sum : Z) (l : list Z) : Z * list Z :=
  match l with
  | a :: b :: c :: d :: e :: f :: g :: h :: l =>
      chksum3_words (add_carry (add_carry sum (host32 a b c d)) (host32 e f g h)) l
  | _ => (sum, l)
  end.

Definition lwip_standard_chksum3 (addr : Z) (l : list Z) : Z :=
  let odd := Z.odd addr in
  let '(t1, pb) := chksum_start odd l in
  let ps := addr + (alen l - alen pb) in
  let '(sum, pl) :=
    match pb with
    | a :: b :: r => if Z.land ps 3 =? 0 then (0, pb) else (u32 (host16 a b), r)
    | _ => (0, pb)
    end in
  let '(sum, pl) := chksum3_words sum pl in
  let '(sum, rest) := chksum_words (FOLD_U32T sum) pl in
  chksum_fold odd (u32 (sum + host16 (chksum_end rest) t1)).

Definition inet_chksum (addr : Z) (l : list Z) : Z := u16 (Z.lnot (lwip_standard_chksum addr l)).

(** The sum over a chain; the accumulator is swapped after a buffer of odd length. *)
Fixpoint chain_sum (acc : Z) (swapped : bool) (p : list (Z * list Z)) : Z * bool :=
  match p with
  | [] => (acc, swapped)
  | (addr, l) :: p =>
      let acc := FOLD_U32T (u32 (acc + lwip_standard_chksum addr l)) in
      if alen l `mod` 2 =? 0 then chain_sum acc swapped p
      else chain_sum (SWAP_BYTES_IN_WORD acc) (negb swapped) p
  end.

Definition chain_total (acc : Z) (p : list (Z * list Z)) : Z :=
  let '(acc, swapped) := chain_sum acc false p in if swapped then SWAP_BYTES_IN_WORD acc else acc.

Definition inet_chksum_pbuf (p : list (Z * list Z)) : Z := u16 (Z.lnot (Z.land (chain_total 0 p) 0xffff)).

Definition inet_cksum_pseudo_base (p : list (Z * list Z)) (proto proto_len acc : Z) : Z :=
  let acc := chain_total acc p in
  let acc := u32 (acc + lwip_htons (u16 proto)) in
  let acc := u32 (acc + lwip_htons proto_len) in
  let acc := FOLD_U32T (FOLD_U32T acc) in
  u16 (Z.lnot (Z.land acc 0xffff)).

Definition pseudo_addresses (src dest : Z) : Z :=
  let acc := Z.land src 0xffff in
  let acc := u32 (acc + Z.land (src ≫ 16) 0xffff) in
  let acc := u32 (acc + Z.land dest 0xffff) in
  let acc := u32 (acc + Z.land (dest ≫ 16) 0xffff) in
  FOLD_U32T (FOLD_U32T acc).

Definition inet_chksum_pseudo (p : list (Z * list Z)) (proto proto_len src dest : Z) : Z :=
  inet_cksum_pseudo_base p proto proto_len (pseudo_addresses src dest).

End program.

(** ** The Internet checksum *)

(** The sum of the words in network byte order; a last byte is padded with a zero. *)
Fixpoint inet_sum (l : list Z) : Z :=
  match l with
  | a :: b :: l => be16 a b + inet_sum l
  | [a] => be16 a 0
  | [] => 0
  end.

(** Addition of 16-bit words with end-around carry: 0 is the result of adding zeros only. *)
Definition onec (n : Z) : Z := if n =? 0 then 0 else (n - 1) `mod` 65535 + 1.

(** [x] is a representative of the sum [n]. *)
Definition rep (x n : Z) : Prop := 0 ≤ x /\ 0 ≤ n /\ x `mod` 65535 = n `mod` 65535 /\ (x = 0 <-> n = 0).

Section representatives.

Lemma onec_range n : 0 ≤ n -> 0 ≤ onec n < 65536.
Proof. intros Hn. unfold onec. destruct (Z.eqb_spec n 0); [lia|]. pose proof (Z.mod_pos_bound (n - 1) 65535). lia. Qed.

Lemma rep_onec n : 0 ≤ n -> rep (onec n) n.
Proof.
  intros Hn. pose proof (onec_range n Hn). split_and!; [lia|lia| |].
  - unfold onec. destruct (Z.eqb_spec n 0) as [->|]; [done|]. rewrite Zplus_mod_idemp_l. f_equal. lia.
  - unfold onec. destruct (Z.eqb_spec n 0) as [->|]; [done|]. pose proof (Z.mod_pos_bound (n - 1) 65535). lia.
Qed.

Lemma rep_refl n : 0 ≤ n -> rep n n.
Proof. by intros. Qed.

Lemma rep_add x y n m : rep x n -> rep y m -> rep (x + y) (n + m).
Proof.
  intros (Hx & Hn & E1 & Z1) (Hy & Hm & E2 & Z2). split_and!; [lia|lia| |lia]. by rewrite Z.add_mod, E1, E2, <- Z.add_mod by lia.
Qed.

(** Two representatives below 2^16 are equal. *)
Lemma rep_unique x y n : rep x n -> rep y n -> x < 65536 -> y < 65536 -> x = y.
Proof.
  intros (Hx & Hn & E1 & Z1) (Hy & _ & E2 & Z2) Lx Ly. rewrite <- E2 in E1.
  destruct (decide (n = 0)) as [->|]; [lia|]. assert (0 < x /\ 0 < y) by lia.
  destruct (decide (x = 65535)) as [->|]; [|rewrite (Z.mod_small x) in E1 by lia].
  - destruct (decide (y = 65535)) as [->|]; [done|]. rewrite (Z.mod_small y), Z.mod_same in E1 by lia. lia.
  - destruct (decide (y = 65535)) as [->|]; [rewrite Z.mod_same in E1 by lia; lia|]. rewrite (Z.mod_small y) in E1 by lia. done.
Qed.

Lemma rep_split x k n : 0 ≤ x -> 0 ≤ k -> rep (x + k * 65536) n -> rep (x + k) n.
Proof.
  intros Hx Hk (_ & Hn & E & Z0). split_and!; [lia|done| |lia].
  rewrite <- E. replace (x + k * 65536) with (x + k + k * 65535) by lia. by rewrite Z.mod_add by lia.
Qed.

Lemma rep_mul_word x n : rep x (65536 * n) -> rep x n.
Proof.
  intros (Hx & Hn & E & Z0). split_and!; [lia|lia| |lia].
  rewrite E. replace (65536 * n) with (n + n * 65535) by lia. by rewrite Z.mod_add by lia.
Qed.

Lemma fold_eq x : 0 ≤ x < 2 ^ 32 -> FOLD_U32T x = x `div` 65536 + x `mod` 65536.
Proof.
  intros Hx. unfold FOLD_U32T. rewrite land_65535, shiftr_div by lia. change (2 ^ 16) with 65536. apply u32_small.
  divmod x 65536. lia.
Qed.

Lemma fold_rep x n : x < 2 ^ 32 -> rep x n -> rep (FOLD_U32T x) n /\ FOLD_U32T x ≤ 131070.
Proof.
  intros Hlt Hr. pose proof Hr as (Hx & _). rewrite fold_eq by lia. divmod x 65536. split; [|lia].
  rewrite Z.add_comm. apply rep_split; [lia|lia|]. by rewrite Z.add_comm, Z.mul_comm, <- Z.div_mod by lia.
Qed.

Lemma fold_small x n : x ≤ 131070 -> rep x n -> rep (FOLD_U32T x) n /\ FOLD_U32T x < 65536.
Proof.
  intros Hle Hr. pose proof Hr as (Hx & _). split; [apply fold_rep; [lia|done]|]. rewrite fold_eq by lia.
  destruct (Z.lt_ge_cases x 65536); [rewrite Z.div_small, Z.mod_small by lia; lia|].
  replace x with (x - 65536 + 1 * 65536) by lia. rewrite Z.div_add, Z.mod_add, Z.div_small, Z.mod_small by lia. lia.
Qed.

Lemma fold_twice x n : x < 2 ^ 32 -> rep x n -> rep (FOLD_U32T (FOLD_U32T x)) n /\ FOLD_U32T (FOLD_U32T x) < 65536.
Proof. intros Hx Hr. destruct (fold_rep x n Hx Hr). by apply fold_small. Qed.

Lemma swap_eq x : 0 ≤ x < 65536 -> SWAP_BYTES_IN_WORD x = x `div` 256 + x `mod` 256 * 256.
Proof.
  intros Hx. unfold SWAP_BYTES_IN_WORD. rewrite Z.shiftr_land. change (0xff00 ≫ 8) with 0xff. rewrite !land_255, shiftr_div by lia.
  change (2 ^ 8) with 256. divmod x 256. rewrite (Z.mod_small (x `div` 256)), lor_add_l, shiftl_mul by lia. done.
Qed.

Lemma swap_rep x n : x < 65536 -> rep x n -> rep (SWAP_BYTES_IN_WORD x) (256 * n) /\ SWAP_BYTES_IN_WORD x < 65536.
Proof.
  intros Hlt (Hx & Hn & E & Z0). rewrite swap_eq by lia. divmod x 256. split; [|lia]. split_and!; [lia|lia| |lia].
  rewrite <- Z.mul_mod_idemp_r, <- E, Z.mul_mod_idemp_r by lia.
  replace (256 * x) with (x `div` 256 + x `mod` 256 * 256 + x `div` 256 * 65535) by lia. by rewrite Z.mod_add by lia.
Qed.

Lemma swap_back x n : x < 65536 -> rep x (256 * n) -> rep (SWAP_BYTES_IN_WORD x) n /\ SWAP_BYTES_IN_WORD x < 65536.
Proof. intros Hx Hr. destruct (swap_rep _ _ Hx Hr) as [H1 H2]. split; [|done]. apply rep_mul_word. by rewrite Z.mul_assoc in H1. Qed.

End representatives.

(** ** Sums of bytes with alternating weights *)

Fixpoint bsum (w0 w1 : Z) (l : list Z) : Z :=
  match l with [] => 0 | b :: l => b * w0 + bsum w1 w0 l end.

Section weights.

Lemma inet_sum_bsum l : inet_sum l = bsum 256 1 l.
Proof.
  assert (Hlen : forall n l, (length l <= n)%nat -> inet_sum l = bsum 256 1 l); [|by apply (Hlen (length l))].
  induction n as [|n IH]; intros [|a [|b k]] Hl; simpl in *; try done; try lia.
  rewrite IH by lia. unfold be16. lia.
Qed.

Lemma bsum_app w0 w1 l1 l2 : bsum w0 w1 (l1 ++ l2) = bsum w0 w1 l1 + (if alen l1 `mod` 2 =? 0 then bsum w0 w1 l2 else bsum w1 w0 l2).
Proof.
  revert w0 w1. induction l1 as [|b l1 IH]; intros w0 w1; [done|]. cbn [bsum app]. rewrite IH. simpl length.
  replace (Z.of_nat (S (length l1))) with (1 + alen l1) by lia. rewrite Z.add_mod by lia.
  pose proof (Z.mod_pos_bound (alen l1) 2 ltac:(lia)).
  assert (alen l1 `mod` 2 = 0 \/ alen l1 `mod` 2 = 1) as [-> | ->] by lia; simpl; lia.
Qed.

Lemma bsum_nonneg w0 w1 l : 0 ≤ w0 -> 0 ≤ w1 -> bytes l -> 0 ≤ bsum w0 w1 l.
Proof. intros H0 H1 Hl. revert w0 w1 H0 H1. induction Hl as [|b l Hb _ IH]; intros w0 w1 H0 H1; simpl; [lia|]. specialize (IH w1 w0 H1 H0). lia. Qed.

(** A sum with the weights exchanged is the sum times 256. *)
Lemma rep_weights x w0 w1 l :
  0 < w0 -> 0 < w1 -> (256 * w0) `mod` 65535 = w1 `mod` 65535 -> (256 * w1) `mod` 65535 = w0 `mod` 65535 -> bytes l ->
  rep x (bsum w1 w0 l) <-> rep x (256 * bsum w0 w1 l).
Proof.
  intros H0 H1 E0 E1 Hl.
  assert (Hs : (256 * bsum w0 w1 l) `mod` 65535 = bsum w1 w0 l `mod` 65535 /\ (bsum w0 w1 l = 0 <-> bsum w1 w0 l = 0)).
  { revert w0 w1 H0 H1 E0 E1. induction Hl as [|b l Hb Hl IH]; intros w0 w1 H0 H1 E0 E1; [done|]. simpl.
    destruct (IH w1 w0 H1 H0 E1 E0) as [E Hz]. pose proof (bsum_nonneg w0 w1 l ltac:(lia) ltac:(lia) Hl). pose proof (bsum_nonneg w1 w0 l ltac:(lia) ltac:(lia) Hl). split.
    - replace (256 * (b * w0 + bsum w1 w0 l)) with (b * (256 * w0) + 256 * bsum w1 w0 l) by lia.
      rewrite Z.add_mod, E, <- Z.mul_mod_idemp_r, E0, Z.mul_mod_idemp_r, <- Z.add_mod by lia. done.
    - split; intros Hzero; assert (b = 0) by nia; subst b; lia. }
  pose proof (bsum_nonneg w0 w1 l ltac:(lia) ltac:(lia) Hl). pose proof (bsum_nonneg w1 w0 l ltac:(lia) ltac:(lia) Hl). destruct Hs as [Hm Hz].
  split; intros (Hx & Hn & E & Z0); split_and!; try lia; congruence.
Qed.

End weights.

(** ** The versions of the checksum *)

Section versions.
Context {E : ByteOrder}.

(** The weights of the two bytes of a word of the host. *)
Definition hw0 : Z := if little_endian then 1 else 256.
Definition hw1 : Z := if little_endian then 256 else 1.

Lemma host16_weights a b : host16 a b = a * hw0 + b * hw1.
Proof. unfold host16, hw0, hw1, le16, be16. destruct little_endian; lia. Qed.

Lemma host16_range a b : byte a -> byte b -> 0 ≤ host16 a b < 65536.
Proof. unfold host16. destruct little_endian; [apply le16_range|apply be16_range]. Qed.

Lemma hw_pos : 0 < hw0 /\ 0 < hw1.
Proof. unfold hw0, hw1. destruct little_endian; lia. Qed.

Lemma hw_swap x l : bytes l -> rep x (bsum hw1 hw0 l) <-> rep x (256 * bsum hw0 hw1 l).
Proof. apply rep_weights; unfold hw0, hw1; by destruct little_endian. Qed.

Lemma hw_swap' x l : bytes l -> rep x (bsum hw0 hw1 l) <-> rep x (256 * bsum hw1 hw0 l).
Proof. apply rep_weights; unfold hw0, hw1; by destruct little_endian. Qed.

(** The loop over words adds them up; at most one byte is left. *)
Lemma chksum_words_spec sum l :
  bytes l -> 0 ≤ sum -> sum + 65535 * (alen l `div` 2) < 2 ^ 32 ->
  exists s rest, chksum_words sum l = (s, rest) /\ s = sum + bsum hw0 hw1 l - bsum hw0 hw1 rest /\
    sum ≤ s ≤ sum + 65535 * (alen l `div` 2) /\ (rest = [] \/ exists b, rest = [b] /\ byte b).
Proof.
  assert (Hlen : forall n l sum, (length l <= n)%nat -> bytes l -> 0 ≤ sum -> sum + 65535 * (alen l `div` 2) < 2 ^ 32 ->
    exists s rest, chksum_words sum l = (s, rest) /\ s = sum + bsum hw0 hw1 l - bsum hw0 hw1 rest /\
    sum ≤ s ≤ sum + 65535 * (alen l `div` 2) /\ (rest = [] \/ exists b, rest = [b] /\ byte b)); [|by apply (Hlen (length l))].
  induction n as [|n IH]; intros [|a [|b k]] sm Hl Hb H0 Hs; simpl in Hl; try lia.
  1, 2: exists sm, []; change (alen [] `div` 2) with 0 in *; cbn [bsum chksum_words]; split_and!; try done; try lia; by left.
  - apply Forall_cons in Hb as [Ha _]. exists sm, [a]. change (alen [a] `div` 2) with 0 in *. cbn [chksum_words].
    split_and!; try done; try lia. right. by exists a.
  - rewrite !Forall_cons in Hb. destruct Hb as (Ha & Hb & Hk). pose proof (host16_range a b Ha Hb) as Hw.
    replace (alen (a :: b :: k)) with (alen k + 1 * 2) in * by (simpl; lia). rewrite Z.div_add in * by lia.
    cbn [chksum_words]. rewrite u32_small by (divmod (alen k) 2; lia).
    destruct (IH k (sm + host16 a b)) as (s & rest & -> & -> & Hr & Hrest); [lia|done|lia|lia|].
    eexists _, rest. split_and!; try done; try lia. cbn [bsum]. rewrite host16_weights. lia.
Qed.

Lemma chksum_fold_spec odd sum n :
  sum < 2 ^ 32 -> rep sum (if odd : bool then 256 * n else n) -> rep (chksum_fold odd sum) n /\ chksum_fold odd sum < 65536.
Proof.
  intros Hs Hr. unfold chksum_fold. destruct (fold_twice _ _ Hs Hr) as [H1 H2]. destruct odd.
  - destruct (swap_back _ _ H2 H1) as [H3 H4]. rewrite u16_small by (destruct H3; lia). done.
  - rewrite u16_small by (destruct H1; lia). done.
Qed.

Lemma bsum_bound l : bytes l -> bsum hw0 hw1 l ≤ 65535 * ((alen l + 1) `div` 2) /\ bsum hw1 hw0 l ≤ 65535 * ((alen l + 1) `div` 2).
Proof.
  assert (Hlen : forall n l, (length l <= n)%nat -> bytes l ->
    bsum hw0 hw1 l ≤ 65535 * ((alen l + 1) `div` 2) /\ bsum hw1 hw0 l ≤ 65535 * ((alen l + 1) `div` 2)); [|by apply (Hlen (length l))].
  assert (Hw : hw0 + hw1 = 257 /\ 0 < hw0 /\ 0 < hw1) by (unfold hw0, hw1; destruct little_endian; lia).
  induction n as [|n IH]; intros [|a [|b k]] Hl Hb; simpl in Hl; try lia; try done.
  - apply Forall_cons in Hb as [Ha _]. change ((alen [a] + 1) `div` 2) with 1. cbn [bsum]. nia.
  - rewrite !Forall_cons in Hb. destruct Hb as (Ha & Hb & Hk). destruct (IH k ltac:(lia) Hk) as [I0 I1].
    replace (alen (a :: b :: k) + 1) with (alen k + 1 + 1 * 2) by (simpl; lia). rewrite Z.div_add by lia. cbn [bsum]. nia.
Qed.

(** The sum before it is folded. *)
Lemma chksum_tail_spec sm t1 pb :
  byte t1 -> bytes pb -> 0 ≤ sm -> sm + 65535 * (alen pb `div` 2) < 2 ^ 32 -> sm + (t1 * hw1 + bsum hw0 hw1 pb) < 2 ^ 32 ->
  let '(s, rest) := chksum_words sm pb in
  u32 (s + host16 (chksum_end rest) t1) = sm + (t1 * hw1 + bsum hw0 hw1 pb).
Proof.
  intros Ht Hpb H0 Hw Hs. pose proof hw_pos as [Hp0 Hp1]. pose proof (bsum_nonneg hw0 hw1 pb ltac:(lia) ltac:(lia) Hpb).
  destruct (chksum_words_spec sm pb Hpb H0 Hw) as (s & rest & -> & -> & Hr & Hrest). rewrite host16_weights.
  destruct Hrest as [->|(b & -> & Hb)]; cbn [chksum_end bsum]; rewrite u32_small by nia; lia.
Qed.

(** The byte in front is the second one of its word. *)
Lemma chksum_start_spec odd l :
  bytes l -> let '(t1, pb) := chksum_start odd l in
  byte t1 /\ bytes pb /\ alen pb ≤ alen l /\
  t1 * hw1 + bsum hw0 hw1 pb = (if odd then bsum hw1 hw0 l else bsum hw0 hw1 l).
Proof.
  intros Hl. unfold chksum_start. destruct odd, l as [|b l]; cbn [bsum]; try (split_and!; done || lia).
  apply Forall_cons in Hl as [Hb Hl]. split_and!; try done; simpl; lia.
Qed.

(** What all versions compute: the sum of the words, which the host sees in its order. *)
Definition is_chksum (x : Z) (l : list Z) : Prop := rep x (bsum hw0 hw1 l) /\ x < 65536.

Lemma chksum_odd_rep (odd : bool) x l : bytes l ->
  rep x (if odd then bsum hw1 hw0 l else bsum hw0 hw1 l) -> rep x (if odd then 256 * bsum hw0 hw1 l else bsum hw0 hw1 l).
Proof. intros Hl. destruct odd; [by apply hw_swap|done]. Qed.

Lemma bsum_hw_nonneg l : bytes l -> 0 ≤ bsum hw0 hw1 l /\ 0 ≤ bsum hw1 hw0 l.
Proof. intros Hl. pose proof hw_pos as [Hp0 Hp1]. split; apply bsum_nonneg; done || lia. Qed.

Lemma standard_chksum_spec addr l : bytes l -> alen l ≤ 0x20000 -> is_chksum (lwip_standard_chksum addr l) l.
Proof.
  intros Hl Hlen. unfold lwip_standard_chksum. pose proof (bsum_bound l Hl) as Hbd.
  assert (Hd : 65535 * ((alen l + 1) `div` 2) < 2 ^ 32) by (divmod (alen l + 1) 2; lia).
  pose proof (chksum_start_spec (Z.odd addr) l Hl) as Hst. destruct (chksum_start _ l) as [t1 pb]. destruct Hst as (Ht & Hpb & Hle & Heq).
  pose proof (chksum_tail_spec 0 t1 pb Ht Hpb) as Htl. destruct (chksum_words 0 pb) as [s rest].
  assert (alen pb `div` 2 ≤ (alen l + 1) `div` 2) by (apply Z.div_le_mono; lia).
  rewrite Htl, Heq, Z.add_0_l by (rewrite ?Heq; destruct (Z.odd addr); lia).
  pose proof (bsum_hw_nonneg l Hl). apply chksum_fold_spec; [destruct (Z.odd addr); lia|]. apply chksum_odd_rep; [done|].
  apply rep_refl. destruct (Z.odd addr); lia.
Qed.

(** *** Version 1 *)

Lemma htons_rep x l : bytes l -> x < 65536 -> rep x (inet_sum l) -> is_chksum (lwip_htons x) l.
Proof.
  intros Hl Hx Hr. rewrite inet_sum_bsum in Hr. unfold lwip_htons, is_chksum, hw0, hw1. destruct little_endian; [|done].
  destruct (swap_rep _ _ Hx Hr) as [H1 H2]. split; [|done]. by apply (rep_weights _ 256 1) in H1.
Qed.

Lemma htons_onec x l : bytes l -> is_chksum x l -> lwip_htons x = onec (inet_sum l).
Proof.
  intros Hl [Hr Hx]. rewrite inet_sum_bsum. assert (Hn : 0 ≤ bsum 256 1 l) by (by apply bsum_nonneg).
  pose proof (onec_range _ Hn). revert Hr. unfold lwip_htons, hw0, hw1. destruct little_endian; intros Hr.
  - destruct (swap_rep _ _ Hx Hr) as [H1 H2]. apply (rep_weights _ 1 256) in H1; try done.
    apply (rep_unique _ _ _ H1 (rep_onec _ Hn)); [done|lia].
  - apply (rep_unique _ _ _ Hr (rep_onec _ Hn)); lia.
Qed.

Lemma chksum1_words_spec acc l :
  bytes l -> 0 ≤ acc -> acc + inet_sum l < 2 ^ 32 -> chksum1_words acc l = acc + inet_sum l.
Proof.
  assert (Hlen : forall n l acc, (length l <= n)%nat -> bytes l -> 0 ≤ acc -> acc + inet_sum l < 2 ^ 32 -> chksum1_words acc l = acc + inet_sum l);
    [|by apply (Hlen (length l))].
  induction n as [|n IH]; intros [|a [|b k]] ac Hl Hb H0 Hs; simpl in Hl; try lia; cbn [inet_sum chksum1_words] in *; try lia.
  - apply Forall_cons in Hb as [Ha _]. unfold be16 in *. rewrite shiftl_mul, u16_small, u32_small by lia. lia.
  - rewrite !Forall_cons in Hb. destruct Hb as (Ha & Hb & Hk).
    assert (0 ≤ inet_sum k) by (rewrite inet_sum_bsum; by apply bsum_nonneg). unfold be16 in *.
    rewrite (u16_small (a ≪ 8)) by (rewrite shiftl_mul by lia; lia). rewrite lor_add_l, shiftl_mul by lia. change (2 ^ 8) with 256.
    rewrite u32_small, IH by (done || lia). lia.
Qed.

Lemma high_word_zero x : 0 ≤ x < 2 ^ 32 -> Z.land x 0xffff0000 = 0 -> x < 65536.
Proof.
  intros Hx E0. apply (f_equal (fun y => y ≫ 16)) in E0. rewrite Z.shiftr_land in E0. change (0xffff0000 ≫ 16) with 65535 in E0.
  rewrite land_65535, shiftr_div in E0 by lia. change (2 ^ 16) with 65536 in E0. change (0 ≫ 16) with 0 in E0.
  divmod x 65536. rewrite Z.mod_small in E0 by lia. lia.
Qed.

Lemma standard_chksum1_spec l : bytes l -> alen l ≤ 0x20000 -> is_chksum (lwip_standard_chksum1 l) l.
Proof.
  intros Hl Hlen. assert (Hd : 65535 * ((alen l + 1) `div` 2) < 2 ^ 32) by (divmod (alen l + 1) 2; lia).
  assert (Hn : 0 ≤ inet_sum l < 2 ^ 32).
  { rewrite inet_sum_bsum. split; [by apply bsum_nonneg|]. pose proof (bsum_bound l Hl) as Hbd.
    revert Hbd. unfold hw0, hw1. destruct little_endian; lia. }
  unfold lwip_standard_chksum1. rewrite chksum1_words_spec, Z.add_0_l by (done || lia).
  fold (FOLD_U32T (inet_sum l)). destruct (fold_rep _ _ (proj2 Hn) (rep_refl _ (proj1 Hn))) as [H1 H2].
  fold (FOLD_U32T (FOLD_U32T (inet_sum l))). pose proof H1 as (Hp & _). apply htons_rep; [done|apply u16_range|].
  destruct (Z.eqb_spec (Z.land (FOLD_U32T (inet_sum l)) 0xffff0000) 0) as [E0|].
  - apply high_word_zero in E0; [|lia]. by rewrite u16_small by lia.
  - destruct (fold_small _ _ H2 H1) as [H3 H4]. pose proof H3 as (Hp3 & _). by rewrite u16_small by lia.
Qed.

(** *** Version 3 *)

Lemma host32_rep a b c d : byte a -> byte b -> byte c -> byte d ->
  rep (host32 a b c d) (host16 a b + host16 c d) /\ host32 a b c d < 2 ^ 32.
Proof.
  intros Ha Hb Hc Hd. unfold host32, host16, be32, be16, le16. split; [|destruct little_endian; lia].
  destruct little_endian; (split_and!; [lia|lia| |lia]).
  - replace (((d * 256 + c) * 256 + b) * 256 + a) with (a + b * 256 + (c + d * 256) + (c + d * 256) * 65535) by lia. by rewrite Z.mod_add by lia.
  - replace (((a * 256 + b) * 256 + c) * 256 + d) with (a * 256 + b + (c * 256 + d) + (a * 256 + b) * 65535) by lia. by rewrite Z.mod_add by lia.
Qed.

Lemma add_carry_rep x y n m : rep x n -> rep y m -> x < 2 ^ 32 -> y < 2 ^ 32 -> rep (add_carry x y) (n + m) /\ add_carry x y < 2 ^ 32.
Proof.
  intros Hx Hy Lx Ly. pose proof (rep_add _ _ _ _ Hx Hy) as (Hp & Hn & Em & Ez). destruct Hx as (Hx & _), Hy as (Hy & _). unfold add_carry.
  destruct (Z.lt_ge_cases (x + y) (2 ^ 32)).
  - rewrite u32_small by lia. replace (x + y <? x) with false by lia. split; [|lia]. by split_and!.
  - assert (Eu : u32 (x + y) = x + y - 2 ^ 32).
    { unfold u32. replace (x + y) with (x + y - 2 ^ 32 + 1 * 2 ^ 32) at 1 by lia. rewrite Z.mod_add, Z.mod_small by lia. done. }
    rewrite Eu. replace (x + y - 2 ^ 32 <? x) with true by lia. rewrite u32_small by lia. split; [|lia].
    split_and!; [lia|done| |lia]. rewrite <- Em. replace (x + y) with (x + y - 2 ^ 32 + 1 + 65537 * 65535) at 2 by lia. by rewrite Z.mod_add by lia.
Qed.

Lemma chksum3_words_spec sum l n :
  bytes l -> rep sum n -> sum < 2 ^ 32 ->
  exists s rest, chksum3_words sum l = (s, rest) /\ bytes rest /\ alen rest ≤ 7 /\ s < 2 ^ 32 /\
    exists m, rep s m /\ m + bsum hw0 hw1 rest = n + bsum hw0 hw1 l.
Proof.
  assert (Hlen : forall k l sum n, (length l <= k)%nat -> bytes l -> rep sum n -> sum < 2 ^ 32 ->
    exists s rest, chksum3_words sum l = (s, rest) /\ bytes rest /\ alen rest ≤ 7 /\ s < 2 ^ 32 /\
    exists m, rep s m /\ m + bsum hw0 hw1 rest = n + bsum hw0 hw1 l); [|by apply (Hlen (length l))].
  induction k as [|k IH]; intros l' sm x Hl Hb Hr Hs; [destruct l'; [|simpl in Hl; lia]; exists sm, []; split_and!; try done; by exists x|].
  destruct l' as [|a [|b [|c [|d [|e [|f [|g [|h l']]]]]]]];
    try (eexists sm, _; split; [reflexivity|]; split_and!; [done|simpl; lia|done|]; by exists x).
  rewrite !Forall_cons in Hb. destruct Hb as (Ha & Hb & Hc & Hd & He & Hf & Hg & Hh & Hl'). cbn [chksum3_words].
  destruct (host32_rep a b c d Ha Hb Hc Hd) as [R1 L1]. destruct (host32_rep e f g h He Hf Hg Hh) as [R2 L2].
  destruct (add_carry_rep _ _ _ _ Hr R1 Hs L1) as [R3 L3]. destruct (add_carry_rep _ _ _ _ R3 R2 L3 L2) as [R4 L4].
  destruct (IH l' _ _ ltac:(simpl in Hl; lia) Hl' R4 L4) as (s & rest & -> & Hrest & H7 & Hs' & m & Hm & Em).
  exists s, rest. split_and!; try done. exists m. split; [done|]. rewrite Em, !host16_weights. cbn [bsum]. lia.
Qed.

Lemma standard_chksum3_spec addr l : bytes l -> alen l ≤ 0x20000 -> is_chksum (lwip_standard_chksum3 addr l) l.
Proof.
  intros Hl Hlen. unfold lwip_standard_chksum3. pose proof hw_pos as [Hp0 Hp1].
  pose proof (chksum_start_spec (Z.odd addr) l Hl) as Hst. destruct (chksum_start _ l) as [t1 pb]. destruct Hst as (Ht & Hpb & Hle & Heq).
  set (mid := match pb with [] => _ | _ => _ end).
  assert (Hmid : bytes (snd mid) /\ exists n, rep (fst mid) n /\ fst mid < 2 ^ 32 /\ n + bsum hw0 hw1 (snd mid) = bsum hw0 hw1 pb).
  { subst mid. destruct pb as [|a [|b r]]; try (split; [done|]; by exists 0). destruct (_ =? 0); [split; [done|]; by exists 0|].
    rewrite !Forall_cons in Hpb. destruct Hpb as (Ha & Hb & Hr). split; [done|]. pose proof (host16_range a b Ha Hb). exists (host16 a b). cbn [fst snd].
    rewrite u32_small by lia. split_and!; [apply rep_refl; lia|lia|]. rewrite host16_weights. cbn [bsum]. lia. }
  destruct mid as [sum pl]. cbn [fst snd] in Hmid. destruct Hmid as (Hpl & n & Hn & Hs & En).
  destruct (chksum3_words_spec sum pl n Hpl Hn Hs) as (s & rest & -> & Hrest & H7 & Hs' & m & Hm & Em).
  destruct (fold_rep _ _ Hs' Hm) as [Hf Lf]. pose proof Hf as (Pf & _). pose proof (bsum_hw_nonneg rest Hrest) as [Hr0 _].
  destruct (bsum_bound rest Hrest) as [Hbr _]. assert ((alen rest + 1) `div` 2 ≤ 4 /\ alen rest `div` 2 ≤ 3) by (divmod (alen rest + 1) 2; divmod (alen rest) 2; lia).
  assert (t1 * hw1 ≤ 65535) by (unfold hw1; destruct little_endian; lia).
  pose proof (chksum_tail_spec (FOLD_U32T s) t1 rest Ht Hrest Pf ltac:(lia) ltac:(lia)) as Htl.
  destruct (chksum_words _ rest) as [s2 rest2]. rewrite Htl. apply chksum_fold_spec; [lia|]. apply chksum_odd_rep; [done|].
  rewrite <- Heq, <- En, <- Em. replace (t1 * hw1 + (m + bsum hw0 hw1 rest)) with (m + (t1 * hw1 + bsum hw0 hw1 rest)) by lia.
  apply rep_add; [done|]. apply rep_refl. nia.
Qed.

(** ** Chains *)

Definition payload (p : list (Z * list Z)) : list Z := concat (snd <$> p).

Lemma chain_sum_spec p acc swapped n :
  Forall (fun x => bytes (snd x) /\ alen (snd x) < 65536) p -> 0 ≤ n -> acc < 65536 -> rep acc (if swapped : bool then 256 * n else n) ->
  let '(acc', swapped') := chain_sum acc swapped p in acc' < 65536 /\
  exists n', n' = n + (if swapped then bsum hw1 hw0 (payload p) else bsum hw0 hw1 (payload p)) /\
    rep acc' (if swapped' then 256 * n' else n').
Proof.
  intros Hp. revert acc swapped n. induction Hp as [|[addr l] p [Hl Hlen] Hp IH]; intros acc sw n Hn Ha Hr; cbn [chain_sum].
  - split; [done|]. exists n. split; [destruct sw; cbn; lia|done].
  - cbn [snd] in *. destruct (standard_chksum_spec addr l Hl ltac:(lia)) as [Hc Lc]. pose proof Hr as (Pa & _). pose proof Hc as (Pc & _).
    pose proof (bsum_hw_nonneg l Hl) as [Hb0 Hb1].
    set (n1 := n + if sw then bsum hw1 hw0 l else bsum hw0 hw1 l).
    assert (Hr1 : rep (acc + lwip_standard_chksum addr l) (if sw then 256 * n1 else n1)).
    { subst n1. destruct sw; [|by apply rep_add]. rewrite Z.mul_add_distr_l. apply rep_add; [done|]. by apply hw_swap'. }
    rewrite u32_small by lia. assert (Hle : acc + lwip_standard_chksum addr l ≤ 131070) by lia. destruct (fold_small _ _ Hle Hr1) as [Hr2 L2].
    unfold payload. cbn [fmap list_fmap snd concat]. fold (payload p). rewrite !bsum_app.
    assert (Hn1 : 0 ≤ n1) by (subst n1; destruct sw; lia). destruct (alen l `mod` 2 =? 0).
    + specialize (IH _ sw n1 Hn1 L2 Hr2). destruct (chain_sum _ _ p) as [acc' sw']. destruct IH as (L & n' & -> & Hr').
      split; [done|]. eexists. split; [|done]. subst n1. destruct sw; lia.
    + assert (Hsw : rep (SWAP_BYTES_IN_WORD (FOLD_U32T (acc + lwip_standard_chksum addr l))) (if negb sw then 256 * n1 else n1) /\
        SWAP_BYTES_IN_WORD (FOLD_U32T (acc + lwip_standard_chksum addr l)) < 65536) by (destruct sw; [by apply swap_back|by apply swap_rep]).
      destruct Hsw as [Hr3 L3]. specialize (IH _ (negb sw) n1 Hn1 L3 Hr3). destruct (chain_sum _ _ p) as [acc' sw']. destruct IH as (L & n' & -> & Hr').
      split; [done|]. eexists. split; [|done]. subst n1. destruct sw; cbn [negb]; lia.
Qed.

Lemma chain_total_spec p acc n :
  Forall (fun x => bytes (snd x) /\ alen (snd x) < 65536) p -> acc < 65536 -> rep acc n ->
  rep (chain_total acc p) (n + bsum hw0 hw1 (payload p)) /\ chain_total acc p < 65536.
Proof.
  intros Hp Ha Hr. pose proof Hr as (_ & Hn & _). pose proof (chain_sum_spec p acc false n Hp Hn Ha Hr) as Hc.
  unfold chain_total. destruct (chain_sum _ _ p) as [acc' sw']. destruct Hc as (L & n' & -> & Hr'). destruct sw'; [by apply swap_back|done].
Qed.

Lemma payload_bytes p : Forall (fun x => bytes (snd x) /\ alen (snd x) < 65536) p -> bytes (payload p).
Proof. intros Hp. apply Forall_concat, Forall_fmap. eapply Forall_impl; [done|]. by intros x [??]. Qed.

(** ** The pseudo header *)

Lemma htons_be16 a b : byte a -> byte b -> lwip_htons (be16 a b) = host16 a b.
Proof.
  intros Ha Hb. unfold lwip_htons, host16, be16, le16. destruct little_endian; [|done].
  change (PP_HTONS (a * 256 + b)) with (SWAP_BYTES_IN_WORD (a * 256 + b)). rewrite swap_eq by lia.
  replace (a * 256 + b) with (b + a * 256) by lia. rewrite Z.div_add, Z.mod_add, Z.div_small, Z.mod_small by lia. lia.
Qed.

Lemma host32_halves a b c d : byte a -> byte b -> byte c -> byte d ->
  Z.land (host32 a b c d) 0xffff + Z.land (host32 a b c d ≫ 16) 0xffff = host16 a b + host16 c d /\
  0 ≤ Z.land (host32 a b c d) 0xffff < 65536 /\ 0 ≤ Z.land (host32 a b c d ≫ 16) 0xffff < 65536.
Proof.
  intros Ha Hb Hc Hd. rewrite !land_65535, shiftr_div by lia. change (2 ^ 16) with 65536.
  set (x := host32 a b c d). divmod (x `div` 65536) 65536. divmod x 65536.
  assert (Hx : x = be16 d c * 65536 + be16 b a \/ x = be16 a b * 65536 + be16 c d).
  { subst x. unfold host32, be32, be16. destruct little_endian; lia. }
  assert (Hh : host16 a b + host16 c d = if little_endian then be16 d c + be16 b a else be16 a b + be16 c d).
  { unfold host16, be16, le16. destruct little_endian; lia. }
  split_and!; try lia. rewrite Hh. subst x. clear Hx. unfold host32, be32, be16 in *. destruct little_endian; lia.
Qed.

End versions.

(** ** Correctness *)

(** The checksum of a sequence of bytes, as it stands in a header. *)
Definition inet_checksum (l : list Z) : Z := 65535 - onec (inet_sum l).

Definition chain_ok (p : list (Z * list Z)) : Prop := Forall (fun x => bytes (snd x) /\ alen (snd x) < 65536) p.

(** The pseudo header of UDP and TCP. *)
Definition pseudo_header (src dest : list Z) (proto proto_len : Z) : list Z :=
  src ++ dest ++ [0; proto; proto_len `div` 256; proto_len `mod` 256].

Section correct.
Context {E : ByteOrder}.

Lemma lnot_word x : 0 ≤ x < 65536 -> u16 (Z.lnot x) = 65535 - x.
Proof.
  intros Hx. unfold u16, Z.lnot. change (2 ^ 16) with 65536.
  replace (Z.pred (- x)) with (65535 - x + (-1) * 65536) by lia. rewrite Z.mod_add by lia. apply Z.mod_small. lia.
Qed.

Lemma htons_complement x : 0 ≤ x < 65536 -> lwip_htons (65535 - x) = 65535 - lwip_htons x.
Proof.
  intros Hx. unfold lwip_htons. destruct little_endian; [|done].
  change (SWAP_BYTES_IN_WORD (65535 - x) = 65535 - SWAP_BYTES_IN_WORD x). rewrite !swap_eq by lia.
  divmod x 256. divmod (65535 - x) 256. lia.
Qed.

Lemma complement_correct x l : bytes l -> is_chksum x l -> lwip_htons (u16 (Z.lnot x)) = inet_checksum l.
Proof.
  intros Hl Hc. pose proof Hc as [(Hx & _) Lx]. rewrite lnot_word, htons_complement by lia. unfold inet_checksum. by rewrite (htons_onec x l).
Qed.

Lemma is_chksum_unique x y l : is_chksum x l -> is_chksum y l -> x = y.
Proof. intros [Hx Lx] [Hy Ly]. by apply (rep_unique _ _ _ Hx Hy). Qed.

(** (C36) The three versions of the checksum return the same value at every address of the
    data and in both byte orders, and it is the one's complement sum of the data, in the
    byte order of the network, for up to 0x20000 bytes. *)
Theorem lwip_standard_chksum_correct addr l :
  bytes l -> alen l ≤ 0x20000 ->
  lwip_htons (lwip_standard_chksum addr l) = onec (inet_sum l) /\
  lwip_standard_chksum1 l = lwip_standard_chksum addr l /\
  lwip_standard_chksum3 addr l = lwip_standard_chksum addr l.
Proof.
  intros Hl Hlen. pose proof (standard_chksum_spec addr l Hl Hlen) as H2. split_and!.
  - by apply htons_onec.
  - apply (is_chksum_unique _ _ l); [by apply standard_chksum1_spec|done].
  - apply (is_chksum_unique _ _ l); [by apply standard_chksum3_spec|done].
Qed.

Lemma chksum_pbuf_is_chksum p : chain_ok p -> is_chksum (chain_total 0 p) (payload p).
Proof. intros Hp. by destruct (chain_total_spec p 0 0 Hp ltac:(lia) (rep_refl 0 ltac:(lia))). Qed.

Lemma land_word x : 0 ≤ x < 65536 -> Z.land x 0xffff = x.
Proof. intros Hx. by rewrite land_65535, Z.mod_small. Qed.

(** The part of the sum that the pseudo header contributes. *)
Lemma pseudo_sum s0 s1 s2 s3 d0 d1 d2 d3 proto h l rest :
  bsum hw0 hw1 ([s0; s1; s2; s3] ++ [d0; d1; d2; d3] ++ [0; proto; h; l] ++ rest) =
  host16 s0 s1 + host16 s2 s3 + (host16 d0 d1 + host16 d2 d3) + bsum hw0 hw1 rest + host16 0 proto + host16 h l.
Proof. rewrite !host16_weights. cbn [bsum app]. lia. Qed.

Lemma pseudo_addresses_spec s0 s1 s2 s3 d0 d1 d2 d3 :
  bytes [s0; s1; s2; s3; d0; d1; d2; d3] ->
  rep (pseudo_addresses (host32 s0 s1 s2 s3) (host32 d0 d1 d2 d3)) (host16 s0 s1 + host16 s2 s3 + (host16 d0 d1 + host16 d2 d3)) /\
  pseudo_addresses (host32 s0 s1 s2 s3) (host32 d0 d1 d2 d3) < 65536.
Proof.
  rewrite !Forall_cons. intros (H0 & H1 & H2 & H3 & H4 & H5 & H6 & H7 & _). unfold pseudo_addresses. cbv zeta.
  destruct (host32_halves s0 s1 s2 s3 H0 H1 H2 H3) as (Es & Hs1 & Hs2). destruct (host32_halves d0 d1 d2 d3 H4 H5 H6 H7) as (Ed & Hd1 & Hd2).
  rewrite (u32_small (Z.land _ _ + _)), u32_add_l, u32_small by lia. apply fold_twice; [lia|].
  rewrite Es, <- Z.add_assoc, Ed. apply rep_refl. lia.
Qed.

(** (C25) The checksum over a chain of buffers is the checksum of the bytes of the chain,
    however they are divided, and the checksum of UDP and TCP is the one of the pseudo
    header followed by these bytes. *)
Theorem inet_chksum_chain_correct p proto proto_len s0 s1 s2 s3 d0 d1 d2 d3 :
  chain_ok p -> byte proto -> 0 ≤ proto_len < 65536 -> bytes [s0; s1; s2; s3; d0; d1; d2; d3] ->
  lwip_htons (inet_chksum_pbuf p) = inet_checksum (payload p) /\
  lwip_htons (inet_chksum_pseudo p proto proto_len (host32 s0 s1 s2 s3) (host32 d0 d1 d2 d3)) =
    inet_checksum (pseudo_header [s0; s1; s2; s3] [d0; d1; d2; d3] proto proto_len ++ payload p).
Proof.
  intros Hp Hproto Hplen Ha. pose proof (payload_bytes p Hp) as Hpb. divmod proto_len 256. split.
  - pose proof (chksum_pbuf_is_chksum p Hp) as Hc. pose proof Hc as [(Hx & _) Lx].
    unfold inet_chksum_pbuf. rewrite land_word by lia. by apply complement_correct.
  - destruct (pseudo_addresses_spec _ _ _ _ _ _ _ _ Ha) as [Hr0 L0]. unfold inet_chksum_pseudo, inet_cksum_pseudo_base. cbv zeta.
    destruct (chain_total_spec p _ _ Hp L0 Hr0) as [Hr1 L1]. pose proof Hr1 as (P1 & _).
    rewrite (u16_small proto) by lia. replace proto with (be16 0 proto) at 1 by (unfold be16; lia).
    replace proto_len with (be16 (proto_len `div` 256) (proto_len `mod` 256)) at 1 by (unfold be16; lia).
    rewrite !htons_be16 by lia. pose proof (host16_range 0 proto ltac:(lia) Hproto) as Hw1.
    pose proof (host16_range (proto_len `div` 256) (proto_len `mod` 256) ltac:(lia) ltac:(lia)) as Hw2.
    rewrite !u32_add_l, u32_small by lia.
    pose proof (rep_add _ _ _ _ (rep_add _ _ _ _ Hr1 (rep_refl _ (proj1 Hw1))) (rep_refl _ (proj1 Hw2))) as Hr2.
    rewrite <- pseudo_sum in Hr2. pose proof (fun H => fold_twice _ _ H Hr2) as Hf. destruct Hf as [Hr3 L3]; [lia|]. pose proof Hr3 as (P3 & _).
    rewrite land_word by lia. unfold pseudo_header. rewrite <- !app_assoc. apply complement_correct; [|by split].
    rewrite app_assoc. apply Forall_app. split; [exact Ha|]. apply Forall_app. split; [|done].
    repeat (apply Forall_cons_2; [lia|]). apply Forall_nil_2.
Qed.

Lemma inet_chksum_eq addr l : bytes l -> alen l ≤ 0x20000 -> lwip_htons (inet_chksum addr l) = inet_checksum l.
Proof. intros Hl Hlen. apply complement_correct; [done|]. by apply standard_chksum_spec. Qed.

Lemma inet_sum_nonneg l : bytes l -> 0 ≤ inet_sum l.
Proof. intros Hl. rewrite inet_sum_bsum. by apply bsum_nonneg. Qed.

Lemma onec_full n : 0 ≤ n -> onec n = 65535 <-> n `mod` 65535 = 0 /\ n <> 0.
Proof.
  intros Hn. unfold onec. destruct (Z.eqb_spec n 0) as [->|Hne]; [lia|]. split; [intros E1; split; [|done]|intros [E1 _]].
  - divmod (n - 1) 65535. replace n with (0 + ((n - 1) `div` 65535 + 1) * 65535) by lia. by rewrite Z.mod_add by lia.
  - divmod n 65535. replace (n - 1) with (65534 + (n `div` 65535 - 1) * 65535) by lia. by rewrite Z.mod_add by lia.
Qed.

Lemma htons_invol x : 0 ≤ x < 65536 -> lwip_htons (lwip_htons x) = x.
Proof.
  intros Hx. unfold lwip_htons. destruct little_endian; [|done]. change (SWAP_BYTES_IN_WORD (SWAP_BYTES_IN_WORD x) = x).
  divmod x 256. rewrite (swap_eq x) by lia.
  rewrite swap_eq, Z.div_add, Z.mod_add, (Z.div_small (x `div` 256)), (Z.mod_small (x `div` 256)) by lia. lia.
Qed.

Lemma htons_zero x : 0 ≤ x < 65536 -> lwip_htons x = 0 <-> x = 0.
Proof.
  intros Hx. unfold lwip_htons. destruct little_endian; [|done]. change (SWAP_BYTES_IN_WORD x = 0 <-> x = 0). rewrite swap_eq by lia.
  divmod x 256. lia.
Qed.

(** A receiver accepts data, the checksum over it being 0, exactly when the sum of
    its words is a multiple of 65535 and not 0.  When the checksum of data is stored as it
    is in a field of the data that was 0, at an even offset, the receiver accepts; and it
    rejects the data when one word of it is changed, unless 0 and 0xffff are exchanged. *)
Theorem inet_chksum_verifies addr addr' l1 l2 a b c d :
  bytes (l1 ++ l2) -> byte a -> byte b -> byte c -> byte d -> alen l1 `mod` 2 = 0 -> alen l1 + alen l2 + 2 ≤ 0x20000 ->
  (inet_chksum addr (l1 ++ [a; b] ++ l2) = 0 <->
    inet_sum (l1 ++ [a; b] ++ l2) `mod` 65535 = 0 /\ inet_sum (l1 ++ [a; b] ++ l2) <> 0) /\
  (host16 a b = inet_chksum addr (l1 ++ [0; 0] ++ l2) -> inet_chksum addr' (l1 ++ [a; b] ++ l2) = 0) /\
  (inet_chksum addr (l1 ++ [a; b] ++ l2) = 0 -> inet_chksum addr' (l1 ++ [c; d] ++ l2) = 0 ->
    be16 c d = be16 a b \/ (be16 a b = 0 /\ be16 c d = 65535) \/ (be16 a b = 65535 /\ be16 c d = 0)).
Proof.
  intros Hl Ha Hb Hc Hd Hev Hlen. apply Forall_app in Hl as [Hl1 Hl2].
  assert (Hby : forall x y, byte x -> byte y -> bytes (l1 ++ [x; y] ++ l2)).
  { intros x y Hx Hy. apply Forall_app. split; [done|]. by repeat (apply Forall_cons_2; [done|]). }
  assert (Hle : forall x y, alen (l1 ++ [x; y] ++ l2) ≤ 0x20000) by (intros x y; rewrite !length_app; simpl; lia).
  set (n := inet_sum l1 + inet_sum l2).
  assert (Hsum : forall x y, inet_sum (l1 ++ [x; y] ++ l2) = n + be16 x y).
  { intros x y. subst n. rewrite !inet_sum_bsum, bsum_app, Hev. cbn [Z.eqb app bsum]. unfold be16. lia. }
  assert (Hn : 0 ≤ n) by (subst n; pose proof (inet_sum_nonneg l1 Hl1); pose proof (inet_sum_nonneg l2 Hl2); lia).
  assert (Hz : forall ad x y, byte x -> byte y ->
    inet_chksum ad (l1 ++ [x; y] ++ l2) = 0 <-> (n + be16 x y) `mod` 65535 = 0 /\ n + be16 x y <> 0).
  { intros ad x y Hx Hy. pose proof (be16_range x y Hx Hy). rewrite <- onec_full by lia.
    rewrite <- htons_zero by apply u16_range. rewrite inet_chksum_eq by auto. unfold inet_checksum. rewrite Hsum. lia. }
  rewrite Hsum. pose proof (be16_range a b Ha Hb) as Hab. pose proof (be16_range c d Hc Hd) as Hcd. split_and!; [by apply Hz| |].
  - intros E1. apply Hz; [done|done|].
    assert (E2 : be16 a b = 65535 - onec n).
    { rewrite <- (Z.add_0_r n). change 0 with (be16 0 0). rewrite <- Hsum. change (65535 - ?x) with (65535 - x).
      fold (inet_checksum (l1 ++ [0; 0] ++ l2)). rewrite <- (inet_chksum_eq addr), <- E1 by auto with lia.
      rewrite <- htons_be16 by done. symmetry. apply htons_invol. lia. }
    unfold onec in E2. destruct (Z.eqb_spec n 0) as [->|]; [by rewrite E2|]. divmod (n - 1) 65535. split; [|lia].
    rewrite E2. replace (n + _) with (0 + ((n - 1) `div` 65535 + 1) * 65535) by lia. by rewrite Z.mod_add by lia.
  - intros [E1 _]%Hz [E2 _]%Hz; [|done..]. divmod (n + be16 a b) 65535. divmod (n + be16 c d) 65535. lia.
Qed.

End correct.

(** ** Examples *)

#[local] Instance little : ByteOrder := true.

Lemma lwip_standard_chksum_correct_witness :
  lwip_htons (lwip_standard_chksum 7 [0x45; 0x00; 0x00; 0x1c; 0xff; 0xff; 0x40]) = onec (inet_sum [0x45; 0x00; 0x00; 0x1c; 0xff; 0xff; 0x40]).
Proof.
  apply (lwip_standard_chksum_correct 7 [0x45; 0x00; 0x00; 0x1c; 0xff; 0xff; 0x40]); [|done].
  repeat (apply Forall_cons_2; [done|]). apply Forall_nil_2.
Defined.

Lemma inet_chksum_chain_correct_witness :
  lwip_htons (inet_chksum_pbuf [(0, [1; 2; 3]); (5, [4]); (8, [5; 6])]) = inet_checksum [1; 2; 3; 4; 5; 6].
Proof.
  destruct (inet_chksum_chain_correct [(0, [1; 2; 3]); (5, [4]); (8, [5; 6])] 17 6 192 168 66 67 192 168 66 66) as [Hw _]; [|done|done| |exact Hw].
  - repeat (apply Forall_cons_2; [split; [repeat (apply Forall_cons_2; [done|]); apply Forall_nil_2|done]|]). apply Forall_nil_2.
  - repeat (apply Forall_cons_2; [done|]). apply Forall_nil_2.
Defined.

Lemma inet_chksum_verifies_witness :
  host16 0xba 0xe3 = inet_chksum 0 [0x45; 0x00; 0; 0; 0x00; 0x1c] /\ inet_chksum 1 [0x45; 0x00; 0xba; 0xe3; 0x00; 0x1c] = 0.
Proof.
  assert (Hb : bytes ([0x45; 0x00] ++ [0x00; 0x1c])) by (repeat (apply Forall_cons_2; [done|]); apply Forall_nil_2).
  split; [vm_compute; reflexivity|].
  refine (proj1 (proj2 (inet_chksum_verifies 0 1 [0x45; 0x00] [0x00; 0x1c] 0xba 0xe3 0 0 Hb _ _ _ _ _ _)) _); done || (vm_compute; reflexivity).
Defined.
