(* ===== verification/Ip4Addr.v ===== *)
(** * IPv4 addresses

    src/lwip/src/core/ipv4/ip4_addr.c with include/lwip/ip4_addr.h: the text form of
    addresses, network masks and broadcast addresses.  A string is the list of its
    characters with the final zero; reading past it is undefined ([None]).  An address is
    the 32-bit word whose bytes in memory are in network order. *)

From stdpp Require Import base list numbers option.
From S2P Require Import Prelude.
From S2P Require Import Bytes.
From S2P Require Import Chksum.

Open Scope Z_scope.

(** ** Characters (include/lwip/arch.h) *)

Definition lwip_in_range (c lo up : Z) : bool := (lo <=? u8 c) && (u8 c <=? up).
Definition lwip_isdigit (c : Z) : bool := lwip_in_range c 48 57.
Definition lwip_isxdigit (c : Z) : bool := lwip_isdigit c || lwip_in_range c 97 102 || lwip_in_range c 65 70.
Definition lwip_islower (c : Z) : bool := lwip_in_range c 97 122.
Definition lwip_isspace (c : Z) : bool := existsb (Z.eqb c) [32; 12; 10; 13; 9; 11].

(** ** From text to address *)

Section program.
Context {E : ByteOrder}.

(** The digits of one number, from character [c] on. *)
Fixpoint aton_digits (base val : Z) (cp : list Z) : option (Z * list Z) :=
  match cp with
  | [] => None
  | c :: cp' =>
      if lwip_isdigit c then aton_digits base (u32 (val * base + (c - 48))) cp'
      else if (base =? 16) && lwip_isxdigit c then
        aton_digits base (Z.lor (u32 (val ≪ 4)) (c + 10 - (if lwip_islower c then 97 else 65))) cp'
      else Some (val, cp)
  end.

(** The base of a number, and its digits. *)
Definition aton_number (cp : list Z) : option (Z * list Z) :=
  match cp with
  | [] => None
  | c :: cp' =>
      if c =? 48 then
        match cp' with
        | [] => None
        | c1 :: cp'' => if (c1 =? 120) || (c1 =? 88) then aton_digits 16 0 cp'' else aton_digits 8 0 cp'
        end
      else aton_digits 10 0 cp
  end.

(** The numbers between the dots: [Some None] is a return of 0, otherwise the numbers
    before the last one, the last one and the character after it.  [room] is the number of
    entries of [parts] that are left for a number that a dot follows. *)
Fixpoint aton_parts (room : nat) (parts : list Z) (cp : list Z) : option (option (list Z * Z * Z)) :=
  match cp with
  | [] => None
  | c :: _ =>
      if negb (lwip_isdigit c) then Some None else
      '(val, cp) ← aton_number cp;
      match cp with
      | [] => None
      | c :: cp =>
          if c =? 46 then
            match room with
            | O => Some None
            | S room => aton_parts room (parts ++ [val]) cp
            end
          else Some (Some (parts, val, c))
      end
  end.

Definition aton_concoct (parts : list Z) (val : Z) : option Z :=
  match parts with
  | [] => Some val
  | [p0] => if (0xffffff <? val) || (0xff <? p0) then None else Some (Z.lor val (p0 ≪ 24))
  | [p0; p1] =>
      if (0xffff <? val) || ((0xff <? p0) || (0xff <? p1)) then None
      else Some (Z.lor val (Z.lor (p0 ≪ 24) (p1 ≪ 16)))
  | [p0; p1; p2] =>
      if (0xff <? val) || ((0xff <? p0) || (0xff <? p1) || (0xff <? p2)) then None
      else Some (Z.lor val (Z.lor (Z.lor (p0 ≪ 24) (p1 ≪ 16)) (p2 ≪ 8)))
  | _ => None
  end.

(** The result is [Some None] when 0 is returned, or the address. *)
Definition ip4addr_aton (cp : list Z) : option (option Z) :=
  r ← aton_parts 3 [] cp;
  match r with
  | None => Some None
  | Some (parts, val, c) =>
      if negb (c =? 0) && negb (lwip_isspace c) then Some None
      else Some (lwip_htonl <$> aton_concoct parts val)
  end.

Definition IPADDR_NONE : Z := 0xffffffff.

Definition ipaddr_addr (cp : list Z) : option Z := default IPADDR_NONE <$> ip4addr_aton cp.

(** ** From address to text *)

Definition IP4ADDR_STRLEN_MAX : Z := 16.

(** The decimal digits of a byte in [inv], the last one first; [inv] has [n] entries left. *)
Fixpoint ntoa_digits (n : nat) (ap : Z) : option (list Z) :=
  match n with
  | O => None
  | S n =>
      let rem := ap `mod` 10 in
      let ap := ap `div` 10 in
      if ap =? 0 then Some [48 + rem] else inv ← ntoa_digits n ap; Some ((48 + rem) :: inv)
  end.

(** Characters are appended while there is room in the buffer. *)
Fixpoint ntoa_put (buflen : Z) (buf cs : list Z) : option (list Z) :=
  match cs with
  | [] => Some buf
  | c :: cs => if buflen <=? alen buf then None else ntoa_put buflen (buf ++ [c]) cs
  end.

Fixpoint ntoa_bytes (buflen : Z) (buf : list Z) (ap : list Z) : option (option (list Z)) :=
  match ap with
  | [] => Some (Some buf)
  | b :: ap =>
      inv ← ntoa_digits 3 b;
      match ntoa_put buflen buf (rev inv ++ [46]) with
      | None => Some None
      | Some buf => ntoa_bytes buflen buf ap
      end
  end.

(** The argument has the four bytes of the address; the result is [Some None] when NULL is
    returned, or the buffer up to the final zero, which replaces the last dot. *)
Definition ip4addr_ntoa_r (addr : list Z) (buflen : Z) : option (option (list Z)) :=
  match ntoa_bytes buflen [] addr with
  | None => None
  | Some None => Some None
  | Some (Some buf) => Some (Some (removelast buf ++ [0]))
  end.

Definition ip4addr_ntoa (addr : list Z) : option (option (list Z)) := ip4addr_ntoa_r addr IP4ADDR_STRLEN_MAX.

(** ** Masks *)

(** [for (; mask != 0; mask >>= 1)] over the bits [n - 1] to 0. *)
Fixpoint mask_no_ones (n : nat) (nm : Z) : bool :=
  match n with
  | O => true
  | S n => if Z.land nm (1 ≪ Z.of_nat n) =? 0 then mask_no_ones n nm else false
  end.

Fixpoint mask_ones (n : nat) (nm : Z) : bool :=
  match n with
  | O => true
  | S n' => if Z.land nm (1 ≪ Z.of_nat n') =? 0 then mask_no_ones n nm else mask_ones n' nm
  end.

Definition ip4_addr_netmask_valid (netmask : Z) : bool := mask_ones 32 (lwip_htonl netmask).

Definition IPADDR_ANY : Z := 0.
Definition IPADDR_BROADCAST : Z := 0xffffffff.
Definition NETIF_FLAG_BROADCAST : Z := 0x02.

Record netif_addr := NetifAddr { flags : Z; ip_addr : Z; netmask : Z }.

Definition lnot32 (x : Z) : Z := u32 (Z.lnot x).

Definition ip4_addr_netcmp (a b mask : Z) : bool := Z.land a mask =? Z.land b mask.

Definition ip4_addr_isbroadcast_u32 (addr : Z) (netif : netif_addr) : bool :=
  if (lnot32 addr =? IPADDR_ANY) || (addr =? IPADDR_ANY) then true
  else if Z.land (flags netif) NETIF_FLAG_BROADCAST =? 0 then false
  else if addr =? ip_addr netif then false
  else if ip4_addr_netcmp addr (ip_addr netif) (netmask netif) &&
          (Z.land addr (lnot32 (netmask netif)) =? Z.land IPADDR_BROADCAST (lnot32 (netmask netif))) then true
  else false.

End program.

(** ** Round trip *)

(** The decimal text of a byte. *)
Definition decimal (b : Z) : list Z :=
  if b <? 10 then [48 + b]
  else if b <? 100 then [48 + b `div` 10; 48 + b `mod` 10]
  else [48 + b `div` 100; 48 + (b `div` 10) `mod` 10; 48 + b `mod` 10].

Definition dotted (a b c d : Z) : list Z := decimal a ++ [46] ++ decimal b ++ [46] ++ decimal c ++ [46] ++ decimal d.

Section roundtrip.
Context {E : ByteOrder}.

Lemma ntoa_digits_decimal b : byte b -> ntoa_digits 3 b = Some (rev (decimal b)).
Proof. apply (range_holds (fun b => ntoa_digits 3 b = Some (rev (decimal b))) 0 256). vm_compute. reflexivity. Qed.

Lemma decimal_length b : byte b -> 1 ≤ alen (decimal b) ≤ 3.
Proof. intros Hb. unfold decimal. destruct (_ <? _); [simpl; lia|]. destruct (_ <? _); simpl; lia. Qed.

Lemma ntoa_put_fits buflen buf cs : alen buf + alen cs ≤ buflen -> ntoa_put buflen buf cs = Some (buf ++ cs).
Proof.
  revert buf. induction cs as [|c cs IH]; intros buf Hl; cbn [ntoa_put]; [by rewrite app_nil_r|]. simpl in Hl.
  replace (buflen <=? alen buf) with false by lia. rewrite IH, <- app_assoc; [done|]. rewrite length_app. simpl. lia.
Qed.

Lemma ntoa_bytes_step buflen buf b ap :
  byte b -> alen buf + alen (decimal b) + 1 ≤ buflen ->
  ntoa_bytes buflen buf (b :: ap) = ntoa_bytes buflen (buf ++ decimal b ++ [46]) ap.
Proof.
  intros Hb Hl. cbn [ntoa_bytes]. rewrite ntoa_digits_decimal by done. cbn [mbind option_bind]. rewrite rev_involutive, ntoa_put_fits; [done|].
  rewrite length_app. simpl. lia.
Qed.

Lemma ntoa_dotted a b c d buflen :
  bytes [a; b; c; d] -> 16 ≤ buflen -> ip4addr_ntoa_r [a; b; c; d] buflen = Some (Some (dotted a b c d ++ [0])).
Proof.
  rewrite !Forall_cons. intros (Ha & Hb & Hc & Hd & _) Hl. unfold ip4addr_ntoa_r.
  pose proof (decimal_length a Ha). pose proof (decimal_length b Hb). pose proof (decimal_length c Hc). pose proof (decimal_length d Hd).
  rewrite !ntoa_bytes_step by (done || (rewrite ?length_app; simpl; lia)). cbn [ntoa_bytes]. do 3 f_equal.
  unfold dotted. rewrite app_nil_l, !app_assoc, removelast_last. by rewrite <- !app_assoc.
Qed.

(** Reading a number whose digits are decimal. *)
Lemma aton_digits_app ds v t r :
  Forall (fun c => 48 ≤ c ≤ 57) ds -> byte t -> lwip_isdigit t = false ->
  aton_digits 10 v (ds ++ t :: r) = Some (foldl (fun v c => u32 (v * 10 + (c - 48))) v ds, t :: r).
Proof.
  intros Hds Ht Hnd. revert v. induction Hds as [|c ds Hc _ IH]; intros v; cbn [aton_digits app foldl]; [by rewrite Hnd|].
  unfold lwip_isdigit, lwip_in_range at 1. rewrite u8_small by lia. replace ((48 <=? c) && (c <=? 57)) with true by lia. apply IH.
Qed.

Lemma decimal_digits b : byte b -> Forall (fun c => 48 ≤ c ≤ 57) (decimal b).
Proof. apply (range_holds (fun b => Forall (fun c => 48 ≤ c ≤ 57) (decimal b)) 0 256). vm_compute. reflexivity. Qed.

Lemma decimal_value b : byte b -> foldl (fun v c => u32 (v * 10 + (c - 48))) 0 (decimal b) = b.
Proof. apply (range_holds (fun b => foldl (fun v c => u32 (v * 10 + (c - 48))) 0 (decimal b) = b) 0 256). vm_compute. reflexivity. Qed.

(** Only the text of 0 starts with the digit 0. *)
Lemma decimal_head b : byte b -> decimal b = [48] /\ b = 0 \/ exists c ds, decimal b = c :: ds /\ c <> 48.
Proof.
  intros Hb. unfold decimal. destruct (Z.ltb_spec b 10).
  - destruct (decide (b = 0)) as [->|]; [by left|]. right. eexists _, _. split; [done|lia].
  - right. destruct (Z.ltb_spec b 100); eexists _, _; (split; [done|]); [divmod b 10|divmod b 100]; lia.
Qed.

Definition ends_number (t : Z) : Prop := t = 46 \/ t = 0.

Lemma aton_number_decimal b t r : byte b -> ends_number t -> aton_number (decimal b ++ t :: r) = Some (b, t :: r).
Proof.
  intros Hb Ht. destruct (decimal_head b Hb) as [[-> ->]|(c & ds & Ed & Hc)].
  - destruct Ht as [-> | ->]; reflexivity.
  - pose proof (aton_digits_app (decimal b) 0 t r (decimal_digits b Hb)) as Hd. rewrite decimal_value in Hd by done.
    rewrite Ed in *. cbn [app aton_number]. rewrite (proj2 (Z.eqb_neq c 48) Hc). destruct Ht as [-> | ->]; by apply Hd.
Qed.

Lemma decimal_first b r : byte b -> exists c cs, decimal b ++ r = c :: cs /\ lwip_isdigit c = true.
Proof.
  intros Hb. pose proof (decimal_digits b Hb) as Hd. pose proof (decimal_length b Hb) as Hl. destruct (decimal b) as [|c ds]; [simpl in Hl; lia|].
  apply Forall_cons in Hd as [Hc _]. eexists _, _. split; [done|]. unfold lwip_isdigit, lwip_in_range. rewrite u8_small by lia. lia.
Qed.

(** One number of the text, followed by a dot. *)
Lemma aton_parts_dot room parts b r :
  byte b -> aton_parts (S room) parts (decimal b ++ 46 :: r) = aton_parts room (parts ++ [b]) r.
Proof.
  intros Hb. destruct (decimal_first b (46 :: r) Hb) as (c & cs & Ec & Hd). pose proof (aton_number_decimal b 46 r Hb (or_introl eq_refl)) as Hn.
  rewrite Ec in *. cbn [aton_parts]. rewrite Hd. cbn [negb]. by rewrite Hn.
Qed.

Lemma aton_parts_end room parts b : byte b -> aton_parts room parts (decimal b ++ [0]) = Some (Some (parts, b, 0)).
Proof.
  intros Hb. destruct (decimal_first b [0] Hb) as (c & cs & Ec & Hd). pose proof (aton_number_decimal b 0 [] Hb (or_intror eq_refl)) as Hn.
  rewrite Ec in *. destruct room; cbn [aton_parts]; rewrite Hd; cbn [negb]; by rewrite Hn.
Qed.

Lemma htonl_be32 a b c d : bytes [a; b; c; d] -> lwip_htonl (be32 a b c d) = host32 a b c d.
Proof.
  rewrite !Forall_cons. intros (Ha & Hb & Hc & Hd & _). unfold lwip_htonl, host32. destruct little_endian; [|done].
  destruct (fields4 a b c d Ha Hb Hc Hd) as (_ & E0 & E8 & E16 & E24). rewrite <- be32_word in E0, E8, E16, E24. unfold PP_HTONL.
  pose proof (land_byte (be32 a b c d) 0 ltac:(lia)) as L0. pose proof (land_byte (be32 a b c d) 8 ltac:(lia)) as L8.
  pose proof (land_byte (be32 a b c d) 16 ltac:(lia)) as L16. pose proof (land_byte (be32 a b c d) 24 ltac:(lia)) as L24.
  change (255 ≪ 0) with 0xff in L0. change (255 ≪ 8) with 0xff00 in L8. change (255 ≪ 16) with 0xff0000 in L16. change (255 ≪ 24) with 0xff000000 in L24.
  rewrite L0, L8, L16, L24, E0, E8, E16, E24, !Z.shiftl_shiftl, !Z.shiftr_shiftl_l by lia. simpl (_ + _). simpl (_ - _).
  rewrite Z.shiftl_0_r, word4, <- be32_word by done. done.
Qed.

(** (C37) The text that is made of an address is its four bytes in decimal with dots
    between them, it fits into 16 characters with the final zero, and reading it gives the
    address back, in both byte orders of the host. *)
Theorem ip4addr_roundtrip a b c d buflen :
  bytes [a; b; c; d] -> IP4ADDR_STRLEN_MAX ≤ buflen ->
  exists text, ip4addr_ntoa_r [a; b; c; d] buflen = Some (Some text) /\ text = dotted a b c d ++ [0] /\
    alen text ≤ IP4ADDR_STRLEN_MAX /\ ip4addr_aton text = Some (Some (host32 a b c d)).
Proof.
  unfold IP4ADDR_STRLEN_MAX. intros Hl Hlen. exists (dotted a b c d ++ [0]). split; [by apply ntoa_dotted|]. split; [done|].
  pose proof Hl as Hl'. rewrite !Forall_cons in Hl. destruct Hl as (Ha & Hb & Hc & Hd & _). split.
  - pose proof (decimal_length a Ha). pose proof (decimal_length b Hb). pose proof (decimal_length c Hc). pose proof (decimal_length d Hd).
    unfold dotted. rewrite !length_app. simpl. lia.
  - unfold ip4addr_aton, dotted. rewrite <- !app_assoc. cbn [app]. rewrite !aton_parts_dot by done. rewrite aton_parts_end by done.
    cbn [mbind option_bind app Z.eqb negb andb aton_concoct]. replace (_ || _) with false by lia. cbn [fmap option_fmap option_map].
    rewrite Z.lor_comm, word4, <- be32_word by done. by rewrite htonl_be32.
Qed.

(** A number that does not fit into 32 bits is taken modulo 2^32: the text 4294967297.0.0.1
    is read as 1.0.0.1. *)
Lemma aton_wraps : ip4addr_aton ([52; 50; 57; 52; 57; 54; 55; 50; 57; 55] ++ [46; 48; 46; 48; 46; 49; 0]) = Some (Some (host32 1 0 0 1)).
Proof.
  transitivity (Some (Some (lwip_htonl (be32 1 0 0 1)))); [vm_compute; reflexivity|].
  by rewrite htonl_be32 by (repeat (apply Forall_cons_2; [done|]); apply Forall_nil_2).
Qed.

(** ** Masks *)

Lemma mask_bit nm n : 0 ≤ n -> (Z.land nm (1 ≪ n) =? 0) = negb (Z.testbit nm n).
Proof.
  intros Hn. rewrite Z.shiftl_1_l. destruct (Z.testbit nm n) eqn:Et; cbn [negb].
  - apply Z.eqb_neq. intros E0. apply (f_equal (fun y => Z.testbit y n)) in E0. rewrite Z.land_spec, Et, Z.pow2_bits_true, Z.bits_0 in E0 by done. done.
  - apply Z.eqb_eq, Z.bits_inj'. intros i Hi. rewrite Z.land_spec, Z.bits_0, Z.pow2_bits_eqb by lia.
    destruct (Z.eqb_spec n i) as [<-|]; [by rewrite Et|by rewrite andb_false_r].
Qed.

Lemma mask_no_ones_spec n nm : mask_no_ones n nm = true <-> forall i, 0 ≤ i < Z.of_nat n -> Z.testbit nm i = false.
Proof.
  induction n as [|n IH]; cbn [mask_no_ones]; [split; [lia|done]|]. rewrite mask_bit by lia.
  destruct (Z.testbit nm (Z.of_nat n)) eqn:Et; cbn [negb].
  - split; [done|]. intros Hall. rewrite Hall in Et by lia. done.
  - rewrite IH. split; intros Hall i Hi; [|apply Hall; lia]. destruct (decide (i = Z.of_nat n)) as [->|]; [done|apply Hall; lia].
Qed.

Lemma mask_ones_spec n nm :
  mask_ones n nm = true <-> exists k, 0 ≤ k ≤ Z.of_nat n /\ forall i, 0 ≤ i < Z.of_nat n -> Z.testbit nm i = (k <=? i).
Proof.
  induction n as [|n IH]; cbn [mask_ones]; [split; [|done]; intros _; exists 0; split; lia|]. rewrite mask_bit by lia.
  destruct (Z.testbit nm (Z.of_nat n)) eqn:Et; cbn [negb].
  - rewrite IH. split; intros (k & Hk & Hall).
    + exists k. split; [lia|]. intros i Hi. destruct (decide (i = Z.of_nat n)) as [->|]; [rewrite Et; symmetry; apply Z.leb_le; lia|apply Hall; lia].
    + exists k. rewrite Hall in Et by lia. apply Z.leb_le in Et. split; [lia|]. intros i Hi. apply Hall. lia.
  - rewrite mask_no_ones_spec. split.
    + intros Hall. exists (Z.of_nat (S n)). split; [lia|]. intros i Hi. rewrite Hall by lia. symmetry. apply Z.leb_gt. lia.
    + intros (k & Hk & Hall) i Hi. rewrite Hall in Et |- * by lia. rewrite Z.leb_gt in *. lia.
Qed.

(** The bytes of a word with ones from bit [k] on. *)
Lemma ones_from k nm : 0 ≤ k ≤ 32 -> 0 ≤ nm < 2 ^ 32 -> (forall i, 0 ≤ i < 32 -> Z.testbit nm i = (k <=? i)) <-> nm = 2 ^ 32 - 2 ^ k.
Proof.
  intros Hk Hnm.
  assert (Hb : forall i, 0 ≤ i < 32 -> Z.testbit (2 ^ 32 - 2 ^ k) i = (k <=? i)).
  { intros i Hi. replace (2 ^ 32 - 2 ^ k) with (Z.ones (32 - k) ≪ k)
      by (rewrite shiftl_mul, Z.ones_equiv, Z.mul_pred_l, <- Z.pow_add_r by lia; do 2 f_equal; lia).
    rewrite Z.shiftl_spec by lia. destruct (Z.leb_spec k i); [apply Z.ones_spec_low; lia|apply Z.testbit_neg_r; lia]. }
  split; [|by intros ->]. intros Hall. apply Z.bits_inj'. intros i Hi. destruct (Z.lt_ge_cases i 32); [by rewrite Hall, Hb|].
  pose proof (Z.pow_le_mono_r 2 k 32 ltac:(lia) ltac:(lia)). rewrite !(testbit_high _ 32) by lia. done.
Qed.

Lemma htonl_range a b c d : bytes [a; b; c; d] -> lwip_htonl (host32 a b c d) = be32 a b c d.
Proof.
  intros Hl. pose proof Hl as Hl'. rewrite !Forall_cons in Hl. destruct Hl as (Ha & Hb & Hc & Hd & _).
  assert (Hr : bytes [d; c; b; a]) by (repeat (apply Forall_cons_2; [done|]); apply Forall_nil_2).
  pose proof (htonl_be32 d c b a Hr) as Hh. unfold lwip_htonl, host32 in *. by destruct little_endian.
Qed.

(** A mask is valid exactly when its 32 bits are some number of ones followed by
    zeros. *)
Theorem netmask_valid_correct a b c d :
  bytes [a; b; c; d] ->
  ip4_addr_netmask_valid (host32 a b c d) = true <-> exists k, 0 ≤ k ≤ 32 /\ be32 a b c d = 2 ^ 32 - 2 ^ k.
Proof.
  intros Hl. unfold ip4_addr_netmask_valid. rewrite mask_ones_spec, htonl_range by done.
  rewrite !Forall_cons in Hl. destruct Hl as (Ha & Hb & Hc & Hd & _). pose proof (be32_range a b c d Ha Hb Hc Hd).
  split; intros (k & Hk & Hall); exists k; (split; [lia|]); by apply ones_from.
Qed.

End roundtrip.

(** ** Examples *)

#[local] Instance big : ByteOrder := false.

Lemma ip4addr_roundtrip_witness :
  exists text, ip4addr_ntoa_r [192; 168; 66; 0] 16 = Some (Some text) /\ alen text = 13 /\ ip4addr_aton text = Some (Some 0xc0a84200).
Proof.
  destruct (ip4addr_roundtrip 192 168 66 0 16) as (text & E1 & E2 & _ & E3); [repeat (apply Forall_cons_2; [done|]); apply Forall_nil_2|done|].
  exists text. split; [done|]. split; [by rewrite E2|done].
Defined.

Lemma netmask_valid_correct_witness : ip4_addr_netmask_valid (host32 255 255 252 0) = true.
Proof.
  apply (netmask_valid_correct 255 255 252 0); [repeat (apply Forall_cons_2; [done|]); apply Forall_nil_2|]. by exists 10.
Defined.
