(* ===== verification/LwipMem.v ===== *)
(** * The heap of the TCP/IP stack

    src/lwip/src/core/mem.c in the configuration of the kernel: one heap of [MEM_SIZE]
    bytes, an alignment of one byte, no lock since there is a single thread of control.
    The heap is a doubly linked list of headers ([struct mem]) that lie in the memory
    which the heap manages, so that the model keeps the memory byte by byte: a header is
    the six bytes at its offset and a client that writes outside its block can break
    the list.  Pointers into the heap are offsets from [ram], and NULL is [None].  A failed
    [LWIP_ASSERT] is a panic. *)

From stdpp Require Import base gmap list numbers.
From S2P Require Import Prelude.
From S2P Require Import Bytes.
From S2P Require Import LwipString.
From S2P Require Import Chksum.

Open Scope Z_scope.

Definition MEM_ALIGNMENT : Z := 1.
Definition MEM_SIZE : Z := 1600.
Definition MIN_SIZE : Z := 12.

Definition LWIP_MEM_ALIGN_SIZE (size : Z) : Z := Z.land (u32 (size + MEM_ALIGNMENT - 1)) (u32 (Z.lnot (MEM_ALIGNMENT - 1))).

(** Two 16-bit indices, one byte and one byte of padding. *)
Definition sizeof_struct_mem : Z := 6.

Definition MIN_SIZE_ALIGNED : Z := LWIP_MEM_ALIGN_SIZE MIN_SIZE.
Definition SIZEOF_STRUCT_MEM : Z := LWIP_MEM_ALIGN_SIZE sizeof_struct_mem.
Definition MEM_SIZE_ALIGNED : Z := LWIP_MEM_ALIGN_SIZE MEM_SIZE.

(** The bytes of [ram_heap] from [ram] on, the last header and the lowest free block. *)
Record heap := Heap { ram : gmap Z Z; ram_end : Z; lfree : Z }.

Definition set_ram (r : gmap Z Z) (s : heap) : heap := Heap r (ram_end s) (lfree s).
Definition set_ram_end (e : Z) (s : heap) : heap := Heap (ram s) e (lfree s).
Definition set_lfree (l : Z) (s : heap) : heap := Heap (ram s) (ram_end s) l.

Definition with_ram {A} (m : K (gmap Z Z) A) : K heap A := kzoom (fun s => Some (ram s)) set_ram m.

Section allocator.
Context `{BO : ByteOrder}.

Definition load16 (a : Z) : K heap Z :=
  x ← with_ram (load a); y ← with_ram (load (a + 1)); mret (host16 x y).

Definition store16 (a v : Z) : K heap unit :=
  with_ram (store a (if little_endian then u16 v `mod` 256 else u16 v `div` 256));;
  with_ram (store (a + 1) (if little_endian then u16 v `div` 256 else u16 v `mod` 256)).

(** The fields of the header at offset [mem]. *)
Definition mem_next (mem : Z) : K heap Z := load16 mem.
Definition mem_prev (mem : Z) : K heap Z := load16 (mem + 2).
Definition mem_used (mem : Z) : K heap Z := with_ram (load (mem + 4)).
Definition set_next (mem v : Z) : K heap unit := store16 mem v.
Definition set_prev (mem v : Z) : K heap unit := store16 (mem + 2) v.
Definition set_used (mem v : Z) : K heap unit := with_ram (store (mem + 4) v).

Definition mem_to_ptr (mem : Z) : Z := u16 mem.

Definition plug_forward (mem : Z) : K heap unit :=
  nmem ← mem_next mem;
  end_ ← kgets ram_end;
  hole ← (if mem =? nmem then mret false else
          u ← mem_used nmem; mret ((u =? 0) && negb (nmem =? end_)));
  if (hole : bool) then
    l ← kgets lfree;
    (if l =? nmem then kmodify (set_lfree mem) else mret tt);;
    n ← mem_next nmem;
    set_next mem n;;
    if negb (n =? MEM_SIZE_ALIGNED) then set_prev n (mem_to_ptr mem) else mret tt
  else mret tt.

Definition plug_backward (mem : Z) : K heap unit :=
  pmem ← mem_prev mem;
  hole ← (if pmem =? mem then mret false else u ← mem_used pmem; mret (u =? 0));
  if (hole : bool) then
    l ← kgets lfree;
    (if l =? mem then kmodify (set_lfree pmem) else mret tt);;
    n ← mem_next mem;
    set_next pmem n;;
    if negb (n =? MEM_SIZE_ALIGNED) then set_prev n (mem_to_ptr pmem) else mret tt
  else mret tt.

Definition plug_holes (mem : Z) : K heap unit :=
  end_ ← kgets ram_end;
  KASSERT (0 <=? mem);;
  KASSERT (mem <? end_);;
  u ← mem_used mem;
  KASSERT (u =? 0);;
  n ← mem_next mem;
  KASSERT (n <=? MEM_SIZE_ALIGNED);;
  plug_forward mem;;
  plug_backward mem.

Definition mem_init : K heap unit :=
  KASSERT (Z.land SIZEOF_STRUCT_MEM (MEM_ALIGNMENT - 1) =? 0);;
  set_next 0 MEM_SIZE_ALIGNED;;
  set_prev 0 0;;
  set_used 0 0;;
  kmodify (set_ram_end MEM_SIZE_ALIGNED);;
  set_used MEM_SIZE_ALIGNED 1;;
  set_next MEM_SIZE_ALIGNED MEM_SIZE_ALIGNED;;
  set_prev MEM_SIZE_ALIGNED MEM_SIZE_ALIGNED;;
  kmodify (set_lfree 0).

(** The operands of the disjunctions are evaluated from left to right. *)
Definition mem_link_valid (mem : Z) : K heap bool :=
  let rmem_idx := mem_to_ptr mem in
  nmem ← mem_next mem;
  pmem ← mem_prev mem;
  if (MEM_SIZE_ALIGNED <? nmem) || (MEM_SIZE_ALIGNED <? pmem) then mret false else
  back ← (if pmem =? rmem_idx then mret true else n ← mem_next pmem; mret (n =? rmem_idx));
  if negb (back : bool) then mret false else
  end_ ← kgets ram_end;
  if nmem =? end_ then mret true else p ← mem_prev nmem; mret (p =? rmem_idx).

Definition mem_free (rmem : option Z) : K heap unit :=
  match rmem with
  | None => mret tt
  | Some rmem =>
      KASSERT (Z.land rmem (MEM_ALIGNMENT - 1) =? 0);;
      let mem := rmem - SIZEOF_STRUCT_MEM in
      end_ ← kgets ram_end;
      KASSERT (negb ((mem <? 0) || (end_ <? rmem + MIN_SIZE_ALIGNED)));;
      u ← mem_used mem;
      KASSERT (negb (u =? 0));;
      valid ← mem_link_valid mem;
      KASSERT valid;;
      set_used mem 0;;
      l ← kgets lfree;
      (if mem <? l then kmodify (set_lfree mem) else mret tt);;
      plug_holes mem
  end.

(** The block after the one that shrinks is free: it moves down. *)
Definition trim_move (mem newsize : Z) : K heap unit :=
  mem2 ← mem_next mem;
  KASSERT (negb (mem2 =? MEM_SIZE_ALIGNED));;
  next ← mem_next mem2;
  let ptr2 := u16 (mem + SIZEOF_STRUCT_MEM + newsize) in
  l ← kgets lfree;
  (if l =? mem2 then kmodify (set_lfree ptr2) else mret tt);;
  set_used ptr2 0;;
  set_next ptr2 next;;
  set_prev ptr2 mem;;
  set_next mem ptr2;;
  next2 ← mem_next ptr2;
  if negb (next2 =? MEM_SIZE_ALIGNED) then set_prev next2 ptr2 else mret tt.

(** The block after it is in use: the rest becomes a block of its own. *)
Definition trim_split (mem newsize : Z) : K heap unit :=
  let ptr2 := u16 (mem + SIZEOF_STRUCT_MEM + newsize) in
  next ← mem_next mem;
  KASSERT (negb (next =? MEM_SIZE_ALIGNED));;
  l ← kgets lfree;
  (if ptr2 <? l then kmodify (set_lfree ptr2) else mret tt);;
  set_used ptr2 0;;
  next ← mem_next mem;
  set_next ptr2 next;;
  set_prev ptr2 mem;;
  set_next mem ptr2;;
  next2 ← mem_next ptr2;
  if negb (next2 =? MEM_SIZE_ALIGNED) then set_prev next2 ptr2 else mret tt.

Definition mem_trim (rmem new_size : Z) : K heap (option Z) :=
  let newsize := u16 (LWIP_MEM_ALIGN_SIZE new_size) in
  let newsize := if newsize <? MIN_SIZE_ALIGNED then u16 MIN_SIZE_ALIGNED else newsize in
  if (MEM_SIZE_ALIGNED <? newsize) || (newsize <? new_size) then mret None else
  end_ ← kgets ram_end;
  KASSERT ((0 <=? rmem) && (rmem <? end_));;
  let mem := rmem - SIZEOF_STRUCT_MEM in
  next ← mem_next mem;
  let size := u16 (u16 (next - mem_to_ptr mem) - SIZEOF_STRUCT_MEM) in
  KASSERT (newsize <=? size);;
  if newsize =? size then mret (Some rmem) else
  u ← mem_used next;
  (if u =? 0 then trim_move mem newsize
   else if newsize + SIZEOF_STRUCT_MEM + MIN_SIZE_ALIGNED <=? size then trim_split mem newsize
   else mret tt);;
  mret (Some rmem).

(** [for (ptr = lfree; ptr < MEM_SIZE_ALIGNED - size; ptr = next)] up to the first block
    that fits. *)
Fixpoint malloc_search (fuel : nat) (size ptr : Z) : K heap (option Z) :=
  match fuel with
  | O => khang
  | S fuel =>
      if negb (ptr <? MEM_SIZE_ALIGNED - size) then mret None else
      u ← mem_used ptr;
      n ← mem_next ptr;
      if (u =? 0) && (size <=? u32 (n - (ptr + SIZEOF_STRUCT_MEM))) then mret (Some ptr)
      else malloc_search fuel size n
  end.

Definition malloc_take (size ptr : Z) : K heap unit :=
  n ← mem_next ptr;
  if size + SIZEOF_STRUCT_MEM + MIN_SIZE_ALIGNED <=? u32 (n - (ptr + SIZEOF_STRUCT_MEM)) then
    let ptr2 := u16 (ptr + SIZEOF_STRUCT_MEM + size) in
    KASSERT (negb (ptr2 =? MEM_SIZE_ALIGNED));;
    set_used ptr2 0;;
    set_next ptr2 n;;
    set_prev ptr2 ptr;;
    set_next ptr ptr2;;
    set_used ptr 1;;
    next2 ← mem_next ptr2;
    if negb (next2 =? MEM_SIZE_ALIGNED) then set_prev next2 ptr2 else mret tt
  else set_used ptr 1.

(** [while (cur->used && cur != ram_end) cur = cur->next;] *)
Fixpoint malloc_lfree (fuel : nat) (cur : Z) : K heap Z :=
  match fuel with
  | O => khang
  | S fuel =>
      u ← mem_used cur;
      end_ ← kgets ram_end;
      if negb (u =? 0) && negb (cur =? end_) then n ← mem_next cur; malloc_lfree fuel n else mret cur
  end.

(** Every round of a loop moves at least a header further. *)
Definition heap_fuel : nat := Z.to_nat MEM_SIZE.

Definition malloc_adjust (mem : Z) : K heap unit :=
  l ← kgets lfree;
  if mem =? l then
    cur ← malloc_lfree heap_fuel l;
    kmodify (set_lfree cur);;
    end_ ← kgets ram_end;
    if cur =? end_ then mret tt else u ← mem_used cur; KASSERT (u =? 0)
  else mret tt.

Definition mem_malloc (size_in : Z) : K heap (option Z) :=
  if size_in =? 0 then mret None else
  let size := u16 (LWIP_MEM_ALIGN_SIZE size_in) in
  let size := if size <? MIN_SIZE_ALIGNED then u16 MIN_SIZE_ALIGNED else size in
  if (MEM_SIZE_ALIGNED <? size) || (size <? size_in) then mret None else
  l ← kgets lfree;
  found ← malloc_search heap_fuel size (mem_to_ptr l);
  match found with
  | None => mret None
  | Some mem =>
      malloc_take size mem;;
      malloc_adjust mem;;
      end_ ← kgets ram_end;
      KASSERT (mem + SIZEOF_STRUCT_MEM + size <=? end_);;
      KASSERT ((mem + SIZEOF_STRUCT_MEM) `mod` MEM_ALIGNMENT =? 0);;
      KASSERT (Z.land mem (MEM_ALIGNMENT - 1) =? 0);;
      mret (Some (mem + SIZEOF_STRUCT_MEM))
  end.

Definition mem_calloc (count size : Z) : K heap (option Z) :=
  let alloc_size := u32 (count * size) in
  if negb (u16 alloc_size =? alloc_size) then mret None else
  p ← mem_malloc (u16 alloc_size);
  match p with
  | None => mret None
  | Some p => with_ram (memset p 0 (Z.to_nat alloc_size));; mret (Some p)
  end.

End allocator.
