(* ===== verification/LwipMemSpec.v ===== *)
(** * The list of blocks of the heap

    What the operations of LwipMem.v do to the list of blocks that the headers in the
    memory describe: [links] relates the memory to the list, [heap_wf] adds that no two
    free blocks are adjacent and that [lfree] is the lowest free block. *)

From stdpp Require Import base gmap list numbers.
From S2P Require Import Prelude.
From S2P Require Import Bytes.
From S2P Require Import LwipString.
From S2P Require Import Chksum.
From S2P Require Import LwipMem.

Open Scope Z_scope.

Section spec.
Context `{BO : ByteOrder}.

(** ** Headers *)

Definition get16 (r : gmap Z Z) (a : Z) : option Z :=
  match r !! a, r !! (a + 1) with Some x, Some y => Some (host16 x y) | _, _ => None end.

Definition put16 (r : gmap Z Z) (a v : Z) : gmap Z Z :=
  <[a + 1 := if little_endian then v `div` 256 else v `mod` 256]> (<[a := if little_endian then v `mod` 256 else v `div` 256]> r).

Definition put_next (r : gmap Z Z) (o v : Z) : gmap Z Z := put16 r o v.
Definition put_prev (r : gmap Z Z) (o v : Z) : gmap Z Z := put16 r (o + 2) v.
Definition put_used (r : gmap Z Z) (o v : Z) : gmap Z Z := <[o + 4 := v]> r.

(** The header at offset [o] has the given fields. *)
Record hdr (r : gmap Z Z) (o n p : Z) (u : bool) : Prop := {
  h_map : mapped r o 6;
  h_next : get16 r o = Some n;
  h_prev : get16 r (o + 2) = Some p;
  h_used : r !! (o + 4) = Some (Z.b2z u);
}.

(** Outside the six bytes of the header at [o] nothing changes. *)
Definition same_but (o : Z) (r r' : gmap Z Z) : Prop := forall a, a < o \/ o + 6 ≤ a -> r' !! a = r !! a.

Lemma put16_other r a v x : x ≠ a -> x ≠ a + 1 -> put16 r a v !! x = r !! x.
Proof. intros H1 H2. unfold put16. by rewrite !lookup_insert_ne by done. Qed.

Lemma get16_put16 r a v : 0 ≤ v < 65536 -> get16 (put16 r a v) a = Some v.
Proof.
  intros Hv. unfold get16, put16. rewrite lookup_insert_ne by lia. rewrite !lookup_insert_eq. f_equal. unfold host16, le16, be16.
  divmod v 256. destruct little_endian; lia.
Qed.

Lemma get16_frame r r' a : r' !! a = r !! a -> r' !! (a + 1) = r !! (a + 1) -> get16 r' a = get16 r a.
Proof. intros H1 H2. unfold get16. by rewrite H1, H2. Qed.

Lemma mapped_put16 r a v o n : mapped r o n -> mapped (put16 r a v) o n.
Proof. intros H. by repeat apply mapped_insert. Qed.

Lemma mapped_sub r o n o' n' : mapped r o n -> o ≤ o' -> o' + Z.of_nat n' ≤ o + Z.of_nat n -> mapped r o' n'.
Proof. intros H H1 H2 k Hk. replace (o' + k) with (o + (o' - o + k)) by lia. apply H. lia. Qed.

Lemma mapped_frame r r' o n : (forall a, o ≤ a < o + Z.of_nat n -> r' !! a = r !! a) -> mapped r o n -> mapped r' o n.
Proof. intros H Hm k Hk. rewrite H by lia. by apply Hm. Qed.

Lemma same_put_next r o v : same_but o r (put_next r o v).
Proof. intros a Ha. apply put16_other; lia. Qed.

Lemma same_put_prev r o v : same_but o r (put_prev r o v).
Proof. intros a Ha. apply put16_other; lia. Qed.

Lemma same_put_used r o v : same_but o r (put_used r o v).
Proof. intros a Ha. unfold put_used. rewrite lookup_insert_ne by lia. done. Qed.

Lemma hdr_put_next r o n p u v : hdr r o n p u -> 0 ≤ v < 65536 -> hdr (put_next r o v) o v p u.
Proof.
  intros [] Hv. split; [by apply mapped_put16|by apply get16_put16| |].
  - rewrite <- h_prev0. apply get16_frame; apply put16_other; lia.
  - rewrite <- h_used0. apply put16_other; lia.
Qed.

Lemma hdr_put_prev r o n p u v : hdr r o n p u -> 0 ≤ v < 65536 -> hdr (put_prev r o v) o n v u.
Proof.
  intros [] Hv. split; [by apply mapped_put16| |by apply get16_put16|].
  - rewrite <- h_next0. apply get16_frame; apply put16_other; lia.
  - rewrite <- h_used0. apply put16_other; lia.
Qed.

Lemma hdr_put_used r o n p u (v : bool) : hdr r o n p u -> hdr (put_used r o (Z.b2z v)) o n p v.
Proof.
  intros []. unfold put_used. split; [by apply mapped_insert| | |by rewrite lookup_insert_eq].
  - rewrite <- h_next0. apply get16_frame; apply lookup_insert_ne; lia.
  - rewrite <- h_prev0. apply get16_frame; apply lookup_insert_ne; lia.
Qed.

(** A header that is written in full. *)
Lemma hdr_new r o n p (u : bool) :
  mapped r o 6 -> 0 ≤ n < 65536 -> 0 ≤ p < 65536 -> hdr (put_prev (put_next (put_used r o (Z.b2z u)) o n) o p) o n p u.
Proof.
  intros Hm Hn Hp. unfold put_used, put_next, put_prev. split.
  - by apply mapped_put16, mapped_put16, mapped_insert.
  - rewrite (get16_frame (put16 (<[o + 4:=Z.b2z u]> r) o n)) by (apply put16_other; lia). by apply get16_put16.
  - by apply get16_put16.
  - rewrite !put16_other by lia. by rewrite lookup_insert_eq.
Qed.

Lemma hdr_frame r r' o n p u : (forall a, o ≤ a < o + 6 -> r' !! a = r !! a) -> hdr r o n p u -> hdr r' o n p u.
Proof.
  intros H []. split; [by eapply mapped_frame| | |by rewrite H by lia].
  - rewrite <- h_next0. apply get16_frame; apply H; lia.
  - rewrite <- h_prev0. apply get16_frame; apply H; lia.
Qed.

Lemma hdr_same o' r r' o n p u : same_but o' r r' -> o + 6 ≤ o' \/ o' + 6 ≤ o -> hdr r o n p u -> hdr r' o n p u.
Proof. intros Hs Ho. apply hdr_frame. intros a Ha. apply Hs. lia. Qed.

(** ** The accesses of the program *)

Lemma wp_with_ram_load a v (Q : Z -> heap -> Prop) s : ram s !! a = Some v -> Q v s -> wp (with_ram (load a)) Q s.
Proof. intros E HQ. unfold with_ram. wp_step; [done|]. eapply wp_load; [done|]. by destruct s. Qed.

Lemma wp_with_ram_store a v (Q : unit -> heap -> Prop) s :
  is_Some (ram s !! a) -> Q tt (set_ram (<[a := v]> (ram s)) s) -> wp (with_ram (store a v)) Q s.
Proof. intros E HQ. unfold with_ram. wp_step; [done|]. by apply wp_store. Qed.

Lemma wp_load16 a v (Q : Z -> heap -> Prop) s : get16 (ram s) a = Some v -> Q v s -> wp (load16 a) Q s.
Proof.
  unfold get16. intros E HQ. destruct (ram s !! a) eqn:E1; [|done]. destruct (ram s !! (a + 1)) eqn:E2; [|done]. simplify_eq.
  unfold load16. wp_step. eapply wp_with_ram_load; [done|]. wp_step. eapply wp_with_ram_load; [done|]. by wp_step.
Qed.

Lemma wp_store16 a v (Q : unit -> heap -> Prop) s :
  is_Some (ram s !! a) -> is_Some (ram s !! (a + 1)) -> Q tt (set_ram (put16 (ram s) a (u16 v)) s) -> wp (store16 a v) Q s.
Proof.
  intros H1 H2 HQ. unfold store16. wp_step. apply wp_with_ram_store; [done|]. apply wp_with_ram_store; [|done].
  simpl. by rewrite lookup_insert_ne by lia.
Qed.

Lemma wp_mem_next o n p u (Q : Z -> heap -> Prop) s : hdr (ram s) o n p u -> Q n s -> wp (mem_next o) Q s.
Proof. intros []. by apply wp_load16. Qed.

Lemma wp_mem_prev o n p u (Q : Z -> heap -> Prop) s : hdr (ram s) o n p u -> Q p s -> wp (mem_prev o) Q s.
Proof. intros []. by apply wp_load16. Qed.

Lemma wp_mem_used o n p u (Q : Z -> heap -> Prop) s : hdr (ram s) o n p u -> Q (Z.b2z u) s -> wp (mem_used o) Q s.
Proof. intros []. by apply wp_with_ram_load. Qed.

Lemma wp_set_next o v (Q : unit -> heap -> Prop) s :
  mapped (ram s) o 6 -> 0 ≤ v < 65536 -> Q tt (set_ram (put_next (ram s) o v) s) -> wp (set_next o v) Q s.
Proof.
  intros Hm Hv HQ. apply wp_store16; [| |by rewrite u16_small].
  - by eapply mapped_head.
  - apply Hm. lia.
Qed.

Lemma wp_set_prev o v (Q : unit -> heap -> Prop) s :
  mapped (ram s) o 6 -> 0 ≤ v < 65536 -> Q tt (set_ram (put_prev (ram s) o v) s) -> wp (set_prev o v) Q s.
Proof.
  intros Hm Hv HQ. apply wp_store16; [| |by rewrite u16_small]; [|rewrite <- Z.add_assoc]; apply Hm; lia.
Qed.

Lemma wp_set_used o v (Q : unit -> heap -> Prop) s :
  mapped (ram s) o 6 -> Q tt (set_ram (put_used (ram s) o v) s) -> wp (set_used o v) Q s.
Proof. intros Hm HQ. apply wp_with_ram_store; [|done]. apply Hm. lia. Qed.

(** ** The list of blocks

    A block is its size and whether it is in use; its header is in front of it. *)

Abbreviation blocks := (list (Z * bool)).

Fixpoint span (l : blocks) : Z := match l with [] => 0 | (n, _) :: l => 6 + n + span l end.

(** The offset of the last header, [p] if there is none. *)
Fixpoint last_hdr (p o : Z) (l : blocks) : Z := match l with [] => p | (n, _) :: l => last_hdr o (o + 6 + n) l end.

(** From offset [o] on, after a block at [p], the memory holds the headers of [l]. *)
Fixpoint seg (r : gmap Z Z) (p o : Z) (l : blocks) : Prop :=
  match l with
  | [] => True
  | (n, u) :: l => hdr r o (o + 6 + n) p u /\ 12 ≤ n /\ seg r o (o + 6 + n) l
  end.

(** The offset of the first free block, the end of the list if there is none. *)
Fixpoint first_free (o : Z) (l : blocks) : Z :=
  match l with
  | [] => o
  | (n, u) :: l => if u then first_free (o + 6 + n) l else o
  end.

(** No free block follows a free block; [f] tells whether the block before is free. *)
Fixpoint coalesced (f : bool) (l : blocks) : Prop :=
  match l with [] => True | (_, u) :: l => (f = true -> u = true) /\ coalesced (negb u) l end.

Fixpoint ends_free (f : bool) (l : blocks) : bool := match l with [] => f | (_, u) :: l => ends_free (negb u) l end.

(** [a] is in a block that is in use. *)
Fixpoint data_of (o : Z) (l : blocks) (a : Z) : Prop :=
  match l with
  | [] => False
  | (n, u) :: l => u = true /\ o + 6 ≤ a < o + 6 + n \/ data_of (o + 6 + n) l a
  end.

Lemma span_app l1 l2 : span (l1 ++ l2) = span l1 + span l2.
Proof. induction l1 as [|[n u] l1 IH]; simpl; [done|]. rewrite IH. lia. Qed.

Lemma seg_app r p o l1 l2 : seg r p o (l1 ++ l2) <-> seg r p o l1 /\ seg r (last_hdr p o l1) (o + span l1) l2.
Proof.
  revert p o. induction l1 as [|[n u] l1 IH]; intros p o; simpl; [rewrite Z.add_0_r; tauto|].
  rewrite IH. replace (o + (6 + n + span l1)) with (o + 6 + n + span l1) by lia. tauto.
Qed.

Lemma last_hdr_snoc p o l n u : last_hdr p o (l ++ [(n, u)]) = o + span l.
Proof. revert p o. induction l as [|[m v] l IH]; intros p o; simpl; [lia|]. rewrite IH. lia. Qed.

Lemma first_free_app o l1 l2 :
  first_free o (l1 ++ l2) = if forallb snd l1 then first_free (o + span l1) l2 else first_free o l1.
Proof.
  revert o. induction l1 as [|[n u] l1 IH]; intros o; simpl; [by rewrite Z.add_0_r|]. destruct u; simpl; [|done]. rewrite IH.
  by replace (o + 6 + n + span l1) with (o + (6 + n + span l1)) by lia.
Qed.

Lemma coalesced_app f l1 l2 : coalesced f (l1 ++ l2) <-> coalesced f l1 /\ coalesced (ends_free f l1) l2.
Proof. revert f. induction l1 as [|[n u] l1 IH]; intros f; simpl; [tauto|]. rewrite IH. tauto. Qed.

Lemma ends_free_snoc f l n u : ends_free f (l ++ [(n, u)]) = negb u.
Proof. revert f. induction l as [|[m v] l IH]; intros f; simpl; done. Qed.

Lemma data_of_app o l1 l2 a : data_of o (l1 ++ l2) a <-> data_of o l1 a \/ data_of (o + span l1) l2 a.
Proof.
  revert o. induction l1 as [|[n u] l1 IH]; intros o; simpl; [rewrite Z.add_0_r; tauto|].
  rewrite IH. replace (o + (6 + n + span l1)) with (o + 6 + n + span l1) by lia. tauto.
Qed.

Lemma seg_span r p o l : seg r p o l -> 0 ≤ span l /\ 18 * alen l ≤ span l.
Proof. revert p o. induction l as [|[n u] l IH]; intros p o; simpl; [lia|]. intros (_ & Hn & Hl%IH). lia. Qed.

Lemma seg_last r p o l : seg r p o l -> last_hdr p o l = p \/ o ≤ last_hdr p o l ≤ o + span l - 18.
Proof.
  revert p o. induction l as [|[n u] l IH]; intros p o; simpl; [by left|]. intros (_ & Hn & Hl).
  pose proof (seg_span _ _ _ _ Hl). apply IH in Hl. right. lia.
Qed.

Lemma seg_first_free r p o l : seg r p o l -> o ≤ first_free o l ≤ o + span l.
Proof.
  revert p o. induction l as [|[n u] l IH]; intros p o; simpl; [lia|]. intros (_ & Hn & Hl).
  pose proof (seg_span _ _ _ _ Hl). apply IH in Hl. destruct u; lia.
Qed.

Lemma seg_data r p o l a : seg r p o l -> data_of o l a -> o + 6 ≤ a < o + span l.
Proof.
  revert p o. induction l as [|[n u] l IH]; intros p o; simpl; [done|]. intros (_ & Hn & Hl).
  pose proof (seg_span _ _ _ _ Hl). intros [?|Ha]; [lia|]. apply (IH _ _ Hl) in Ha. lia.
Qed.

Lemma seg_frame r r' p o l : (forall a, o ≤ a < o + span l -> r' !! a = r !! a) -> seg r p o l -> seg r' p o l.
Proof.
  revert p o. induction l as [|[n u] l IH]; intros p o Hf; simpl; [done|]. intros (Hh & Hn & Hl).
  pose proof (seg_span _ _ _ _ Hl). simpl in Hf. split; [|split; [done|]].
  - eapply hdr_frame; [|done]. intros a Ha. apply Hf. lia.
  - apply IH; [|done]. intros a Ha. apply Hf. lia.
Qed.

(** The whole heap. *)
Record links (r : gmap Z Z) (l : blocks) : Prop := {
  lk_seg : seg r 0 0 l;
  lk_span : span l = 1600;
  lk_end : hdr r 1600 1600 1600 true;
  lk_map : mapped r 0 1612;
}.

(** ** Changes of one part of the list

    The header at [span l1] describes a part of the memory up to [nn], after which the
    blocks of [t] follow; what the headers inside the part were does not matter. *)

Record part (r : gmap Z Z) (l1 : blocks) (u : bool) (nn : Z) (t : blocks) : Prop := {
  pt_seg : seg r 0 0 l1;
  pt_hdr : exists n, hdr r (span l1) n (last_hdr 0 0 l1) u;
  pt_tail : exists q, seg r q nn t;
  pt_span : nn + span t = 1600;
  pt_end : hdr r 1600 1600 1600 true;
  pt_map : mapped r 0 1612;
  pt_room : span l1 + 18 ≤ nn;
}.

(** [if (next != MEM_SIZE_ALIGNED) ptr_to_mem(next)->prev = p;] *)
Definition relink (r : gmap Z Z) (nn p : Z) : gmap Z Z := if nn =? MEM_SIZE_ALIGNED then r else put_prev r nn p.

Lemma relink_same r nn p : same_but nn r (relink r nn p).
Proof. unfold relink. destruct (_ =? _); [done|]. apply same_put_prev. Qed.

Lemma relink_mapped r nn p o n : mapped r o n -> mapped (relink r nn p) o n.
Proof. unfold relink. destruct (_ =? _); [done|]. apply mapped_put16. Qed.

Lemma seg_relink r q nn t p :
  seg r q nn t -> nn + span t = 1600 -> 0 ≤ p < 65536 -> seg (relink r nn p) p nn t.
Proof.
  intros Hs Hsp Hp. destruct t as [|[n u] t]; [done|]. destruct Hs as (Hh & Hn & Hl). pose proof (seg_span _ _ _ _ Hl).
  simpl in Hsp. unfold relink. rewrite (proj2 (Z.eqb_neq nn MEM_SIZE_ALIGNED)) by (change MEM_SIZE_ALIGNED with 1600; lia).
  split; [by eapply hdr_put_prev|split; [done|]]. eapply seg_frame; [|done]. intros a Ha. apply same_put_prev. lia.
Qed.

Lemma part_nn r l1 u nn t : part r l1 u nn t -> nn ≤ 1600.
Proof. intros []. destruct pt_tail0 as [q Ht]. pose proof (seg_span _ _ _ _ Ht). lia. Qed.

Lemma part_prev r l1 u nn t : part r l1 u nn t -> 0 ≤ last_hdr 0 0 l1 ≤ span l1 /\ 0 ≤ span l1.
Proof. intros []. pose proof (seg_span _ _ _ _ pt_seg0). pose proof (seg_last _ _ _ _ pt_seg0). lia. Qed.

Lemma links_part r l1 n u t : links r (l1 ++ (n, u) :: t) -> part r l1 u (span l1 + 6 + n) t.
Proof.
  intros [Hs Hsp He Hm]. rewrite span_app in Hsp. rewrite seg_app in Hs. destruct Hs as (H1 & Hh & Hn & Ht). simpl in Hsp.
  split; try done; eauto; lia.
Qed.

Lemma links_part2 r l1 n u m v t : links r (l1 ++ (n, u) :: (m, v) :: t) -> part r l1 u (span l1 + 6 + n + 6 + m) t.
Proof.
  intros [Hs Hsp He Hm]. rewrite span_app in Hsp. rewrite seg_app in Hs. destruct Hs as (H1 & Hh & Hn & Hh2 & Hm2 & Ht). simpl in Hsp.
  split; try done; eauto; lia.
Qed.

(** The part is written anew with the headers of the blocks [ms], and the block after it
    is told of its new predecessor. *)
Lemma part_replace r r1 l1 u nn t ms :
  part r l1 u nn t ->
  (forall a, a < span l1 \/ nn ≤ a -> r1 !! a = r !! a) -> mapped r1 0 1612 ->
  seg r1 (last_hdr 0 0 l1) (span l1) ms -> span l1 + span ms = nn -> ms ≠ [] ->
  links (relink r1 nn (last_hdr 0 (span l1) ms)) (l1 ++ ms ++ t).
Proof.
  intros Hp Hf Hmap Hms Hsp Hne. pose proof (part_nn _ _ _ _ _ Hp) as Hnn. pose proof (part_prev _ _ _ _ _ Hp) as [Hpp H0].
  destruct Hp as [H1 _ [q Ht] Hst He _ Hroom]. pose proof (seg_span _ _ _ _ Hms) as Hms0.
  pose proof (relink_same r1 nn (last_hdr 0 (span l1) ms)) as Hrl.
  assert (Hlast : forall x, last_hdr x (span l1) ms = last_hdr 0 (span l1) ms) by (by destruct ms as [|[n v] ms]).
  pose proof (seg_last _ _ _ _ Hms) as Hl. rewrite Hlast in Hl. destruct ms as [|[n v] ms]; [done|].
  assert (0 ≤ last_hdr 0 (span l1) ((n, v) :: ms) < 65536) as Hr by (cbn [span last_hdr] in *; lia).
  split; [|rewrite !span_app; lia| |by apply relink_mapped].
  - rewrite !seg_app. split; [|split].
    + eapply seg_frame; [|exact H1]. intros a Ha. rewrite Hrl by lia. apply Hf. lia.
    + eapply seg_frame; [|exact Hms]. intros a Ha. apply Hrl. lia.
    + rewrite Z.add_0_l, Hsp. change (last_hdr _ _ ((n, v) :: ms)) with (last_hdr 0 (span l1) ((n, v) :: ms)).
      eapply seg_relink; [|done|done]. eapply seg_frame; [|exact Ht]. intros a Ha. apply Hf. lia.
  - unfold relink. destruct (Z.eqb_spec nn MEM_SIZE_ALIGNED) as [E|E]; change MEM_SIZE_ALIGNED with 1600 in E.
    + eapply hdr_frame; [|exact He]. intros a Ha. apply Hf. lia.
    + pose proof (seg_span _ _ _ _ Ht). destruct t as [|[m w] t]; [simpl in Hst; lia|].
      destruct Ht as (_ & Hm & Ht). pose proof (seg_span _ _ _ _ Ht). simpl in Hst.
      eapply hdr_frame; [|exact He]. intros a Ha. rewrite same_put_prev by lia. apply Hf. lia.
Qed.

(** One block of the whole part. *)
Lemma part_join r r1 l1 u u' nn t :
  part r l1 u nn t -> same_but (span l1) r r1 -> hdr r1 (span l1) nn (last_hdr 0 0 l1) u' ->
  links (relink r1 nn (span l1)) (l1 ++ (nn - span l1 - 6, u') :: t).
Proof.
  intros Hp Hs Hh. pose proof (pt_room _ _ _ _ _ Hp). pose proof (part_nn _ _ _ _ _ Hp).
  apply (part_replace r r1 l1 u nn t [(nn - span l1 - 6, u')]); try done.
  - intros a Ha. apply Hs. lia.
  - intros k Hk. destruct (decide (k < span l1 \/ span l1 + 6 ≤ k)) as [H1|H1].
    + rewrite Hs by lia. by apply (pt_map _ _ _ _ _ Hp).
    + destruct Hh as [Hm _ _ _]. specialize (Hm (k - span l1)). replace (span l1 + (k - span l1)) with (0 + k) in Hm by lia. apply Hm. lia.
  - simpl. replace (span l1 + 6 + (nn - span l1 - 6)) with nn by lia. split; [done|split; [lia|done]].
  - simpl. lia.
Qed.

(** A block of size [k] and a free block. *)
Lemma part_split r r1 l1 u u' nn t k :
  part r l1 u nn t -> 12 ≤ k -> span l1 + 6 + k + 18 ≤ nn ->
  (forall a, a < span l1 \/ nn ≤ a -> r1 !! a = r !! a) -> mapped r1 0 1612 ->
  hdr r1 (span l1) (span l1 + 6 + k) (last_hdr 0 0 l1) u' -> hdr r1 (span l1 + 6 + k) nn (span l1) false ->
  links (relink r1 nn (span l1 + 6 + k)) (l1 ++ (k, u') :: (nn - span l1 - 12 - k, false) :: t).
Proof.
  intros Hp Hk Hroom Hf Hm H1 H2.
  apply (part_replace r r1 l1 u nn t [(k, u'); (nn - span l1 - 12 - k, false)]); try done.
  - simpl. replace (span l1 + 6 + k + 6 + (nn - span l1 - 12 - k)) with nn by lia. split; [done|split; [done|split; [done|split; [lia|done]]]].
  - simpl. lia.
Qed.

(** The blocks in use: where their data are and how long they are. *)
Fixpoint live (o : Z) (l : blocks) : list (Z * Z) :=
  match l with
  | [] => []
  | (n, u) :: l => (if u then [(o + 6, n)] else []) ++ live (o + 6 + n) l
  end.

Lemma live_app o l1 l2 : live o (l1 ++ l2) = live o l1 ++ live (o + span l1) l2.
Proof.
  revert o. induction l1 as [|[n u] l1 IH]; intros o; simpl; [by rewrite Z.add_0_r|]. rewrite IH, <- app_assoc.
  by replace (o + (6 + n + span l1)) with (o + 6 + n + span l1) by lia.
Qed.

Lemma data_live o l a : data_of o l a <-> Exists (fun b => fst b ≤ a < fst b + snd b) (live o l).
Proof.
  revert o. induction l as [|[n u] l IH]; intros o; simpl; [by rewrite Exists_nil|]. rewrite IH. destruct u; simpl.
  - rewrite Exists_cons. simpl. tauto.
  - naive_solver.
Qed.

Record heap_wf (s : heap) (l : blocks) : Prop := {
  wf_links : links (ram s) l;
  wf_end : ram_end s = MEM_SIZE_ALIGNED;
  wf_lfree : lfree s = first_free 0 l;
  wf_coalesced : coalesced false l;
}.

(** The contents of the blocks of [l] that are in use stay. *)
Definition keeps (l : blocks) (s s' : heap) : Prop := forall a, data_of 0 l a -> ram s' !! a = ram s !! a.

Lemma links_hdr r l1 n u t :
  links r (l1 ++ (n, u) :: t) -> hdr r (span l1) (span l1 + 6 + n) (last_hdr 0 0 l1) u /\ 12 ≤ n.
Proof. intros [Hs _ _ _]. rewrite seg_app in Hs. destruct Hs as (_ & Hh & Hn & _). done. Qed.

Lemma links_bounds r l1 t : links r (l1 ++ t) -> 0 ≤ span l1 ≤ 1600 /\ span l1 + span t = 1600 /\ 0 ≤ span t.
Proof.
  intros [Hs Hsp _ _]. rewrite seg_app in Hs. rewrite span_app in Hsp. destruct Hs as (H1%seg_span & H2%seg_span). lia.
Qed.

Lemma links_mapped r l o : links r l -> 0 ≤ o ≤ 1600 -> mapped r o 6.
Proof. intros [_ _ _ Hm] Ho. eapply mapped_sub; [done|lia|lia]. Qed.

(** The header after the block is the one of the next block or the end of the heap. *)
Lemma links_next r l1 n u t :
  links r (l1 ++ (n, u) :: t) ->
  exists nx pv, hdr r (span l1 + 6 + n) nx pv (match t with [] => true | (_, v) :: _ => v end) /\
    match t with
    | [] => span l1 + 6 + n = 1600 /\ nx = 1600
    | (m, _) :: _ => pv = span l1 /\ nx = span l1 + 6 + n + 6 + m /\ 12 ≤ m
    end.
Proof.
  intros Hl. pose proof (lk_span _ _ Hl) as Hsp. rewrite span_app in Hsp. simpl in Hsp. destruct t as [|[m v] t].
  - exists 1600, 1600. simpl in Hsp. replace (span l1 + 6 + n) with 1600 by lia. split; [by apply (lk_end _ _ Hl)|lia].
  - replace (l1 ++ (n, u) :: (m, v) :: t) with ((l1 ++ [(n, u)]) ++ (m, v) :: t) in Hl by (by rewrite <- app_assoc).
    destruct (links_hdr _ _ _ _ _ Hl) as [Hh Hm]. rewrite last_hdr_snoc, span_app in Hh. simpl in Hh.
    replace (span l1 + (6 + n + 0)) with (span l1 + 6 + n) in Hh by lia. eauto 10.
Qed.

Lemma wp_relink nn p (Q : unit -> heap -> Prop) s :
  mapped (ram s) nn 6 -> 0 ≤ p < 65536 -> Q tt (set_ram (relink (ram s) nn p) s) ->
  wp (if negb (nn =? MEM_SIZE_ALIGNED) then set_prev nn p else mret tt) Q s.
Proof.
  intros Hm Hp HQ. unfold relink in HQ. destruct (nn =? MEM_SIZE_ALIGNED); simpl; [wp_step; by destruct s|]. by apply wp_set_prev.
Qed.

Lemma links_keeps_join r l1 n t a : links r (l1 ++ (n, false) :: t) -> data_of 0 (l1 ++ (n, false) :: t) a ->
  a < span l1 \/ span l1 + 6 + n + 6 ≤ a.
Proof.
  intros [Hs _ _ _] Hd. rewrite seg_app in Hs. rewrite data_of_app in Hd. destruct Hs as (H1 & _ & _ & H2).
  destruct Hd as [Hd|[[? _]|Hd]]; [apply (seg_data _ _ _ _ _ H1) in Hd|done|apply (seg_data _ _ _ _ _ H2) in Hd]; lia.
Qed.

Lemma relink_lookup r nn p a : a < nn \/ nn + 6 ≤ a -> relink r nn p !! a = r !! a.
Proof. apply relink_same. Qed.

Lemma plug_forward_spec s l1 n t :
  links (ram s) (l1 ++ (n, false) :: t) -> ram_end s = MEM_SIZE_ALIGNED -> lfree s ≤ span l1 -> coalesced false t ->
  wp (plug_forward (span l1)) (fun _ s' => exists r' n' t', s' = set_ram r' s /\ links r' (l1 ++ (n', false) :: t') /\
    live (span l1 + 6 + n') t' = live (span l1 + 6 + n) t /\ coalesced true t' /\ keeps (l1 ++ (n', false) :: t') s s') s.
Proof.
  intros Hl He Hf Hc. destruct (links_hdr _ _ _ _ _ Hl) as [Hh Hn]. destruct (links_next _ _ _ _ _ Hl) as (nx & pv & Hh2 & Hnx).
  pose proof (links_bounds _ _ _ Hl) as (H0 & Hsp & _). cbn [span] in Hsp.
  unfold plug_forward. wp_step. eapply wp_mem_next; [exact Hh|]. wp_step. wp_step. rewrite He.
  rewrite (proj2 (Z.eqb_neq (span l1) _)) by lia. wp_step. wp_step. eapply wp_mem_used; [exact Hh2|]. wp_step.
  destruct t as [|[m [|]] t]; cbn [Z.b2z Z.eqb andb]; [wp_step; exists (ram s), n, []; by destruct s| |].
  { wp_step. exists (ram s), n, ((m, true) :: t). simpl in Hc. destruct s. split; [done|]. split; [done|]. split; [done|]. split; [simpl; tauto|done]. }
  destruct Hnx as (-> & -> & Hm). pose proof (links_part2 _ _ _ _ _ _ _ Hl) as Hp. pose proof (part_nn _ _ _ _ _ Hp) as Hnn.
  rewrite (proj2 (Z.eqb_neq _ MEM_SIZE_ALIGNED)) by (change MEM_SIZE_ALIGNED with 1600; lia). cbn [negb]. wp_step. wp_step.
  rewrite (proj2 (Z.eqb_neq (lfree s) _)) by lia. wp_step. wp_step. wp_step. eapply wp_mem_next; [exact Hh2|].
  wp_step. apply wp_set_next; [by destruct Hh|lia|]. set (nn := span l1 + 6 + n + 6 + m) in *.
  assert (Hmap : mapped (put_next (ram s) (span l1) nn) nn 6) by (apply mapped_put16; eapply links_mapped; [done|lia]).
  apply wp_relink; [done|unfold mem_to_ptr; rewrite u16_small; lia|]. unfold mem_to_ptr. rewrite u16_small by lia.
  pose proof (part_join _ _ _ _ _ _ _ Hp (same_put_next _ _ _) (hdr_put_next _ _ _ _ _ nn Hh ltac:(lia))) as Hj.
  eexists _, _, t. split; [by destruct s|]. split; [exact Hj|]. simpl in Hc. split; [|split; [tauto|]].
  - cbn [live app]. f_equal. lia.
  - intros a Ha. pose proof (links_keeps_join _ _ _ _ _ Hj Ha) as Hr. cbn [ram set_ram]. rewrite relink_lookup by lia.
    apply same_put_next. lia.
Qed.

Lemma plug_backward_spec s l1 n t :
  links (ram s) (l1 ++ (n, false) :: t) -> coalesced false l1 -> lfree s = first_free 0 (l1 ++ (n, false) :: t) -> coalesced true t ->
  wp (plug_backward (span l1)) (fun _ s' => exists r' l', s' = set_ram r' s /\ links r' l' /\ coalesced false l' /\
    first_free 0 l' = lfree s /\ live 0 l' = live 0 l1 ++ live (span l1 + 6 + n) t /\ keeps l' s s') s.
Proof.
  intros Hl Hc Hf Ht. destruct (links_hdr _ _ _ _ _ Hl) as [Hh Hn]. unfold plug_backward. wp_step. eapply wp_mem_prev; [exact Hh|].
  wp_step. destruct l1 as [|[m u] l1 _] using rev_ind.
  { change (last_hdr 0 0 []) with 0. change (span []) with 0. rewrite Z.eqb_refl. wp_step. wp_step. exists (ram s), ((n, false) :: t). destruct s. split; [done|]. split; [done|]. by split; [|split]. }
  rewrite last_hdr_snoc in *. pose proof (links_bounds _ _ _ Hl) as (_ & Hsp & _).
  assert (Hl' : links (ram s) (l1 ++ (m, u) :: (n, false) :: t)) by (by rewrite <- app_assoc in Hl).
  destruct (links_hdr _ _ _ _ _ Hl') as [Hh1 Hm]. pose proof (links_bounds _ _ _ Hl') as (H0 & _ & _).
  rewrite span_app in *. cbn [span] in *. rewrite (proj2 (Z.eqb_neq (0 + span l1) _)) by lia. rewrite Z.add_0_l in *. wp_step.
  eapply wp_mem_used; [exact Hh1|]. wp_step. destruct u; cbn [Z.b2z Z.eqb].
  { wp_step. exists (ram s), (l1 ++ (m, true) :: (n, false) :: t). split; [by destruct s|]. split; [done|].
    rewrite coalesced_app in Hc |- *. rewrite <- app_assoc in Hf. split; [|split; [done|split; [|done]]].
    - destruct Hc as [Hc _]. simpl. tauto.
    - rewrite !live_app. simpl. rewrite <- app_assoc. simpl. do 3 f_equal. lia. }
  pose proof (links_part2 _ _ _ _ _ _ _ Hl') as Hp. pose proof (part_nn _ _ _ _ _ Hp) as Hnn. rewrite <- app_assoc in Hf.
  pose proof (seg_first_free _ _ _ _ (proj1 (proj1 (seg_app _ _ _ _ _) (lk_seg _ _ Hl')))) as Hff.
  assert (Hlf : lfree s ≤ span l1) by (rewrite Hf, first_free_app; destruct (forallb _ _); simpl; lia).
  wp_step. wp_step. rewrite (proj2 (Z.eqb_neq (lfree s) _)) by lia. wp_step. wp_step. wp_step. eapply wp_mem_next; [exact Hh|].
  replace (span l1 + (6 + m + 0) + 6 + n) with (span l1 + 6 + m + 6 + n) by lia. set (nn := span l1 + 6 + m + 6 + n) in *.
  wp_step. apply wp_set_next; [by destruct Hh1|lia|].
  apply wp_relink; [apply mapped_put16; eapply links_mapped; [done|lia]|unfold mem_to_ptr; rewrite u16_small; lia|].
  unfold mem_to_ptr. rewrite u16_small by lia.
  pose proof (part_join _ _ _ _ _ _ _ Hp (same_put_next _ _ _) (hdr_put_next _ _ _ _ _ nn Hh1 ltac:(lia))) as Hj.
  eexists _, _. split; [by destruct s|]. split; [exact Hj|]. rewrite coalesced_app in Hc |- *. split; [|split; [|split]].
  - simpl in Hc |- *. tauto.
  - by rewrite Hf, !first_free_app.
  - rewrite !live_app. simpl. rewrite app_nil_r. f_equal. f_equal. lia.
  - intros a Ha. pose proof (links_keeps_join _ _ _ _ _ Hj Ha) as Hr. cbn [ram set_ram]. rewrite relink_lookup by lia.
    apply same_put_next. lia.
Qed.

Lemma links_set_used r l1 n u v t :
  links r (l1 ++ (n, u) :: t) -> links (put_used r (span l1) (Z.b2z v)) (l1 ++ (n, v) :: t).
Proof.
  intros Hl. pose proof (links_bounds _ _ _ Hl) as (H0 & Hsp & _). destruct (links_hdr _ _ _ _ _ Hl) as [Hh Hn].
  destruct Hl as [Hs Hsp' He Hm]. rewrite seg_app in Hs. destruct Hs as (H1 & _ & _ & Ht). pose proof (seg_span _ _ _ _ Ht).
  cbn [span] in Hsp. pose proof (same_put_used r (span l1) (Z.b2z v)) as Hf. split.
  - rewrite seg_app. split; [|split; [|split; [done|]]].
    + eapply seg_frame; [|exact H1]. intros a Ha. apply Hf. lia.
    + rewrite Z.add_0_l. by eapply hdr_put_used.
    + eapply seg_frame; [|exact Ht]. intros a Ha. apply Hf. lia.
  - rewrite span_app in Hsp' |- *. done.
  - eapply hdr_same; [exact Hf| |done]. lia.
  - by apply mapped_insert.
Qed.

Lemma mem_link_valid_spec s l1 n u t :
  links (ram s) (l1 ++ (n, u) :: t) -> ram_end s = MEM_SIZE_ALIGNED ->
  wp (mem_link_valid (span l1)) (fun b s' => b = true /\ s' = s) s.
Proof.
  intros Hl He. destruct (links_hdr _ _ _ _ _ Hl) as [Hh Hn]. pose proof (part_nn _ _ _ _ _ (links_part _ _ _ _ _ Hl)) as Hnn.
  pose proof (part_prev _ _ _ _ _ (links_part _ _ _ _ _ Hl)) as [Hpv H0]. destruct (links_next _ _ _ _ _ Hl) as (nx & pv & Hh2 & Hnx).
  unfold mem_link_valid, mem_to_ptr. rewrite u16_small by lia. wp_step. eapply wp_mem_next; [exact Hh|].
  wp_step. eapply wp_mem_prev; [exact Hh|]. change MEM_SIZE_ALIGNED with 1600 in *.
  rewrite (proj2 (Z.ltb_ge 1600 _)) by lia. rewrite (proj2 (Z.ltb_ge 1600 _)) by lia. cbn [orb]. wp_step.
  assert (Hback : wp (if last_hdr 0 0 l1 =? span l1 then mret true else n ← mem_next (last_hdr 0 0 l1); mret (n =? span l1))
    (fun b s' => b = true /\ s' = s) s).
  { wp_step; wp_step; [done|]. destruct l1 as [|[m v] l1 _] using rev_ind; [done|]. rewrite last_hdr_snoc, <- app_assoc in *.
    destruct (links_hdr _ _ _ _ _ Hl) as [Hh1 _]. rewrite Z.add_0_l. eapply wp_mem_next; [exact Hh1|]. wp_step. split; [|done].
    rewrite span_app. simpl. apply Z.eqb_eq. lia. }
  eapply wp_mono; [exact Hback|]. intros b s' [-> ->]. cbn [negb]. wp_step. wp_step. rewrite He. destruct t as [|[m v] t].
  - destruct Hnx as [-> _]. rewrite Z.eqb_refl. by wp_step.
  - destruct Hnx as (-> & -> & Hm). pose proof (part_nn _ _ _ _ _ (links_part2 _ _ _ _ _ _ _ Hl)).
    rewrite (proj2 (Z.eqb_neq _ 1600)) by lia. wp_step. eapply wp_mem_prev; [exact Hh2|]. wp_step. by rewrite Z.eqb_refl.
Qed.

Lemma plug_holes_spec s l1 n t :
  links (ram s) (l1 ++ (n, false) :: t) -> ram_end s = MEM_SIZE_ALIGNED -> lfree s = first_free 0 (l1 ++ (n, false) :: t) ->
  coalesced false l1 -> coalesced false t ->
  wp (plug_holes (span l1)) (fun _ s' => exists l', heap_wf s' l' /\
    live 0 l' = live 0 l1 ++ live (span l1 + 6 + n) t /\ keeps l' s s') s.
Proof.
  intros Hl He Hf Hc Ht. pose proof (links_part _ _ _ _ _ Hl) as Hp. pose proof (part_nn _ _ _ _ _ Hp) as Hnn.
  destruct (links_hdr _ _ _ _ _ Hl) as [Hh Hn]. pose proof (part_prev _ _ _ _ _ Hp) as [_ H0].
  pose proof (seg_first_free _ _ _ _ (pt_seg _ _ _ _ _ Hp)) as Hff.
  assert (Hlf : lfree s ≤ span l1) by (rewrite Hf, first_free_app; destruct (forallb _ _); simpl; lia).
  unfold plug_holes. change MEM_SIZE_ALIGNED with 1600. wp_step. wp_step. rewrite He. change MEM_SIZE_ALIGNED with 1600.
  wp_step. wp_step; [by apply Z.leb_le|]. wp_step. wp_step; [apply Z.ltb_lt; lia|]. wp_step. eapply wp_mem_used; [exact Hh|].
  wp_step. wp_step; [done|]. wp_step. eapply wp_mem_next; [exact Hh|]. wp_step. wp_step; [by apply Z.leb_le|].
  wp_step. eapply wp_mono; [by apply plug_forward_spec|]. intros _ s1 (r1 & n1 & t1 & -> & Hl1 & Hlv & Hc1 & Hk1).
  eapply wp_mono; [apply (plug_backward_spec (set_ram r1 s) l1 n1 t1 Hl1 Hc); [|done]; cbn [lfree set_ram]; by rewrite Hf, !first_free_app|].
  intros _ s2 (r2 & l2 & -> & Hl2 & Hc2 & Hf2 & Hlv2 & Hk2). exists l2. split; [by split|]. split; [by rewrite Hlv2, Hlv|].
  intros a Ha. rewrite (Hk2 a Ha). apply Hk1. rewrite data_live in Ha |- *. rewrite Hlv2 in Ha. by rewrite live_app.
Qed.

(** Freeing a block gives the blocks that are left, with their contents. *)
Lemma mem_free_spec s l1 n t :
  heap_wf s (l1 ++ (n, true) :: t) ->
  wp (mem_free (Some (span l1 + 6))) (fun _ s' => exists l', heap_wf s' l' /\
    live 0 l' = live 0 l1 ++ live (span l1 + 6 + n) t /\ keeps l' s s') s.
Proof.
  intros [Hl He Hf Hc]. pose proof (links_part _ _ _ _ _ Hl) as Hp. pose proof (part_nn _ _ _ _ _ Hp) as Hnn.
  destruct (links_hdr _ _ _ _ _ Hl) as [Hh Hn]. pose proof (part_prev _ _ _ _ _ Hp) as [_ H0].
  unfold mem_free. change SIZEOF_STRUCT_MEM with 6. change MIN_SIZE_ALIGNED with 12. replace (span l1 + 6 - 6) with (span l1) by lia.
  wp_step. wp_step; [by rewrite Z.land_0_r|]. wp_step. wp_step. rewrite He. wp_step. change MEM_SIZE_ALIGNED with 1600 in He |- *.
  wp_step; [apply negb_true_iff, orb_false_iff; rewrite !Z.ltb_ge; lia|].
  wp_step. eapply wp_mem_used; [exact Hh|]. wp_step. wp_step; [done|].
  wp_step. eapply wp_mono; [by eapply mem_link_valid_spec|]. intros b s' [-> ->]. wp_step. wp_step; [done|].
  wp_step. apply wp_set_used; [by destruct Hh|]. pose proof (links_set_used _ _ _ _ false _ Hl) as Hl0. wp_step. wp_step.
  assert (Hff : 0 ≤ first_free 0 l1 ≤ span l1) by (pose proof (seg_first_free _ _ _ _ (pt_seg _ _ _ _ _ Hp)); lia).
  rewrite coalesced_app in Hc. destruct Hc as (Hc1 & _ & Hc2).
  assert (Hadj : wp (if span l1 <? lfree s then kmodify (set_lfree (span l1)) else mret tt) (fun _ s' =>
    s' = set_lfree (first_free 0 (l1 ++ (n, false) :: t)) (set_ram (put_used (ram s) (span l1) 0) s)) (set_ram (put_used (ram s) (span l1) 0) s)).
  { rewrite Hf, !first_free_app, !Z.add_0_l. cbn [first_free]. pose proof (links_bounds _ _ _ Hl) as (_ & Hsp & _). destruct (pt_tail _ _ _ _ _ Hp) as [q Hq].
    pose proof (seg_first_free _ _ _ _ Hq) as Hq'. wp_step; wp_step; destruct (forallb snd l1) eqn:Ea; simpl in *; try done; try lia.
    unfold set_lfree, set_ram. simpl. f_equal. rewrite Hf, first_free_app, Ea. done. }
  wp_step. eapply wp_mono; [exact Hadj|]. intros _ s1 ->. eapply wp_mono; [by apply plug_holes_spec|].
  intros _ s2 (l2 & Hwf & Hlv & Hk). exists l2. split; [done|]. split; [done|]. intros a Ha. rewrite (Hk a Ha). apply same_put_used.
  rewrite data_live, Hlv in Ha. enough (a < span l1 \/ span l1 + 6 + n + 6 ≤ a) by lia. apply (links_keeps_join _ _ _ _ _ Hl0).
  by rewrite data_live, live_app.
Qed.

(** ** Allocation *)

(** The offset of the first free block of at least [size] bytes. *)
Fixpoint first_fit (size o : Z) (l : blocks) : option Z :=
  match l with
  | [] => None
  | (n, u) :: l => if negb u && (size <=? n) then Some o else first_fit size (o + 6 + n) l
  end.

Lemma first_fit_app size o l1 l2 :
  first_fit size o l1 = None -> first_fit size o (l1 ++ l2) = first_fit size (o + span l1) l2.
Proof.
  revert o. induction l1 as [|[n u] l1 IH]; intros o; simpl; [by rewrite Z.add_0_r|]. destruct (negb u && _); [done|].
  intros E. rewrite IH by done. f_equal. lia.
Qed.

Lemma first_fit_none size o l : Forall (fun b => snd b = false -> fst b < size) l -> first_fit size o l = None.
Proof.
  intros Hl. revert o. induction Hl as [|[n u] l Hb _ IH]; intros o; simpl; [done|]. simpl in Hb. destruct u; simpl; [done|].
  rewrite (proj2 (Z.leb_gt size n)) by auto. apply IH.
Qed.

Lemma first_fit_some size o l p :
  first_fit size o l = Some p ->
  exists l1 n t, l = l1 ++ (n, false) :: t /\ p = o + span l1 /\ size ≤ n /\ first_fit size o l1 = None.
Proof.
  revert o. induction l as [|[n u] l IH]; intros o; simpl; [done|]. destruct (negb u && (size <=? n)) eqn:E; intros H.
  - apply andb_true_iff in E as [Eu%negb_true_iff En%Z.leb_le]. simplify_eq. exists [], n, l. simpl. split; [done|]. split; [lia|done].
  - destruct (IH _ H) as (l1 & m & t & -> & -> & Hm & Hn). exists ((n, u) :: l1), m, t. simpl. rewrite E.
    split; [done|]. split; [lia|done].
Qed.

Lemma seg_sizes r p o l : seg r p o l -> Forall (fun b => fst b + 6 ≤ span l) l.
Proof.
  revert p o. induction l as [|[n u] l IH]; intros p o; [done|]. intros (_ & Hn & Hs). pose proof (seg_span _ _ _ _ Hs).
  cbn [span]. apply Forall_cons. split; [simpl; lia|]. eapply Forall_impl; [by eapply IH|]. intros b Hb. cbn beta in Hb. lia.
Qed.

Lemma malloc_search_spec fuel size l1 l2 s :
  links (ram s) (l1 ++ l2) -> (length l2 < fuel)%nat -> 12 ≤ size ≤ 1600 ->
  wp (malloc_search fuel size (span l1)) (fun r s' => r = first_fit size (span l1) l2 /\ s' = s) s.
Proof.
  revert l1 l2. induction fuel as [|fuel IH]; intros l1 l2 Hl Hfuel Hsz; [lia|]. cbn [malloc_search].
  pose proof (links_bounds _ _ _ Hl) as (H0 & Hsp & H2). change MEM_SIZE_ALIGNED with 1600. change SIZEOF_STRUCT_MEM with 6.
  wp_step; [wp_step; split; [|done]|].
  - apply negb_true_iff, Z.ltb_ge in H. symmetry. apply first_fit_none.
    assert (Hs : seg (ram s) (last_hdr 0 0 l1) (0 + span l1) l2) by (by apply (seg_app _ _ _ l1 l2), lk_seg).
    eapply Forall_impl; [exact (seg_sizes _ _ _ _ Hs)|]. intros b Hb _. cbn beta in Hb. lia.
  - apply negb_false_iff, Z.ltb_lt in H. destruct l2 as [|[n u] l2]; [cbn [span] in Hsp; lia|].
    destruct (links_hdr _ _ _ _ _ Hl) as [Hh Hn]. wp_step. eapply wp_mem_used; [exact Hh|]. wp_step. eapply wp_mem_next; [exact Hh|].
    replace (span l1 + 6 + n - (span l1 + 6)) with n by lia. pose proof (part_nn _ _ _ _ _ (links_part _ _ _ _ _ Hl)).
    rewrite u32_small by lia. cbn [first_fit]. replace (Z.b2z u =? 0) with (negb u) by (by destruct u).
    destruct (negb u && (size <=? n)); [by wp_step|].
    assert (E : span l1 + 6 + n = span (l1 ++ [(n, u)])) by (rewrite span_app; simpl; lia). rewrite E.
    apply IH; [by rewrite <- app_assoc|simpl in Hfuel; lia|done].
Qed.

Lemma malloc_lfree_spec fuel l1 l2 s :
  links (ram s) (l1 ++ l2) -> ram_end s = MEM_SIZE_ALIGNED -> (length l2 < fuel)%nat ->
  wp (malloc_lfree fuel (span l1)) (fun r s' => r = first_free (span l1) l2 /\ s' = s) s.
Proof.
  revert l1 l2. induction fuel as [|fuel IH]; intros l1 l2 Hl He Hfuel; [lia|]. cbn [malloc_lfree].
  pose proof (links_bounds _ _ _ Hl) as (H0 & Hsp & H2). destruct l2 as [|[n u] l2].
  - cbn [span] in Hsp. replace (span l1) with 1600 by lia. wp_step. eapply wp_mem_used; [by apply (lk_end _ _ Hl)|].
    wp_step. wp_step. rewrite He. simpl. by wp_step.
  - destruct (links_hdr _ _ _ _ _ Hl) as [Hh Hn]. pose proof (part_nn _ _ _ _ _ (links_part _ _ _ _ _ Hl)).
    wp_step. eapply wp_mem_used; [exact Hh|]. wp_step. wp_step. rewrite He.
    rewrite (proj2 (Z.eqb_neq (span l1) MEM_SIZE_ALIGNED)) by (change MEM_SIZE_ALIGNED with 1600; lia).
    destruct u; simpl; [|by wp_step]. wp_step. eapply wp_mem_next; [exact Hh|].
    assert (E : span l1 + 6 + n = span (l1 ++ [(n, true)])) by (rewrite span_app; simpl; lia). rewrite E.
    apply IH; [by rewrite <- app_assoc|done|simpl in Hfuel; lia].
Qed.

(** The header of a free block at [o2], written between [o] and [nn]. *)
Definition new_hdr (r : gmap Z Z) (o2 nn o : Z) : gmap Z Z := put_prev (put_next (put_used r o2 0) o2 nn) o2 o.

Lemma same_new_hdr r o2 nn o : same_but o2 r (new_hdr r o2 nn o).
Proof. intros a Ha. unfold new_hdr. by rewrite same_put_prev, same_put_next, same_put_used. Qed.

Lemma mapped_new_hdr r o2 nn o a n : mapped r a n -> mapped (new_hdr r o2 nn o) a n.
Proof. intros H. by apply mapped_put16, mapped_put16, mapped_insert. Qed.

Lemma wp_new_hdr o2 nn o (k : unit -> K heap unit) (Q : unit -> heap -> Prop) s :
  mapped (ram s) o2 6 -> 0 ≤ nn < 65536 -> 0 ≤ o < 65536 -> wp (k tt) Q (set_ram (new_hdr (ram s) o2 nn o) s) ->
  wp (set_used o2 0;; set_next o2 nn;; (set_prev o2 o ≫= k)) Q s.
Proof.
  intros Hm Hn Ho HQ. wp_step. apply wp_set_used; [done|]. wp_step. apply wp_set_next; [by apply mapped_insert|done|].
  wp_step. apply wp_set_prev; [by apply mapped_put16, mapped_insert|done|]. done.
Qed.

(** The headers after a block of size [k] has been cut off the part. *)
Lemma cut_hdrs r l1 u nn t k (r0 := new_hdr r (span l1 + 6 + k) nn (span l1)) :
  part r l1 u nn t -> 12 ≤ k -> span l1 + 6 + k + 18 ≤ nn ->
  hdr (put_next r0 (span l1) (span l1 + 6 + k)) (span l1) (span l1 + 6 + k) (last_hdr 0 0 l1) u /\
  hdr (put_next r0 (span l1) (span l1 + 6 + k)) (span l1 + 6 + k) nn (span l1) false.
Proof.
  intros Hp Hk Hroom. pose proof (part_nn _ _ _ _ _ Hp). pose proof (part_prev _ _ _ _ _ Hp) as [_ H0].
  destruct (pt_hdr _ _ _ _ _ Hp) as [n Hh]. split.
  - eapply hdr_put_next; [|lia]. eapply hdr_same; [apply same_new_hdr|lia|done].
  - eapply hdr_same; [apply same_put_next|lia|]. apply (hdr_new _ _ _ _ false); [|lia|lia]. eapply mapped_sub; [apply (pt_map _ _ _ _ _ Hp)|lia|lia].
Qed.

Lemma malloc_take_spec s l1 n t size :
  links (ram s) (l1 ++ (n, false) :: t) -> 12 ≤ size ≤ n ->
  wp (malloc_take size (span l1)) (fun _ s' => exists r' m rest, s' = set_ram r' s /\
    links r' (l1 ++ (m, true) :: rest ++ t) /\ size ≤ m < size + 18 /\ (rest = [] \/ exists k, rest = [(k, false)]) /\
    live (span l1 + 6 + m) (rest ++ t) = live (span l1 + 6 + n) t /\ keeps (l1 ++ (n, false) :: t) s s') s.
Proof.
  intros Hl Hsz. pose proof (links_part _ _ _ _ _ Hl) as Hp. pose proof (part_nn _ _ _ _ _ Hp) as Hnn.
  destruct (links_hdr _ _ _ _ _ Hl) as [Hh Hn]. pose proof (part_prev _ _ _ _ _ Hp) as [_ H0].
  assert (Hkeep : forall a, data_of 0 (l1 ++ (n, false) :: t) a -> a < span l1 \/ span l1 + 6 + n + 6 ≤ a) by (intros a; by apply (links_keeps_join (ram s))).
  unfold malloc_take. change SIZEOF_STRUCT_MEM with 6. change MIN_SIZE_ALIGNED with 12. wp_step. eapply wp_mem_next; [exact Hh|].
  replace (span l1 + 6 + n - (span l1 + 6)) with n by lia. rewrite u32_small, u16_small by lia. set (nn := span l1 + 6 + n) in *.
  wp_step.
  - apply Z.leb_le in H. destruct (cut_hdrs _ _ _ _ _ size Hp) as [C1 C2]; [lia|lia|].
    wp_step. wp_step; [apply negb_true_iff, Z.eqb_neq; change MEM_SIZE_ALIGNED with 1600; lia|].
    apply wp_new_hdr; [eapply links_mapped; [done|lia]|lia|lia|]. wp_step. apply wp_set_next; [|lia|].
    { apply mapped_new_hdr. eapply links_mapped; [done|lia]. }
    cbn [ram set_ram]. set (r1 := put_next _ _ _) in *. wp_step. apply wp_set_used; [by destruct C1|]. cbn [ram set_ram].
    pose proof (hdr_put_used _ _ _ _ _ true C1) as C1'.
    assert (C2' : hdr (put_used r1 (span l1) 1) (span l1 + 6 + size) nn (span l1) false) by (eapply hdr_same; [apply same_put_used| |exact C2]; lia).
    wp_step. eapply wp_mem_next; [exact C2'|]. assert (Hm : mapped (put_used r1 (span l1) 1) 0 1612).
    { apply mapped_insert, mapped_put16, mapped_new_hdr, (lk_map _ _ Hl). }
    apply wp_relink; [eapply mapped_sub; [exact Hm|lia|lia]|lia|].
    assert (Hfr : forall a, a < span l1 \/ nn ≤ a -> put_used r1 (span l1) 1 !! a = ram s !! a).
    { intros a Ha. rewrite same_put_used by lia. unfold r1. rewrite same_put_next, same_new_hdr by lia. done. }
    pose proof (part_split _ _ _ _ true _ _ size Hp ltac:(lia) ltac:(lia) Hfr Hm C1' C2') as Hj.
    exists (relink (put_used r1 (span l1) 1) nn (span l1 + 6 + size)), size, [(nn - span l1 - 12 - size, false)].
    split; [by destruct s|]. split; [exact Hj|]. split; [lia|]. split; [by right; eexists|]. split; [simpl; f_equal; lia|].
    intros a Ha%Hkeep. cbn [ram set_ram]. rewrite relink_lookup by lia. apply Hfr. lia.
  - apply wp_set_used; [by destruct Hh|]. exists (put_used (ram s) (span l1) 1), n, []. split; [by destruct s|].
    apply Z.leb_gt in H. split; [by apply (links_set_used _ _ _ false true)|]. split; [lia|]. split; [by left|]. split; [done|].
    intros a Ha%Hkeep. apply same_put_used. lia.
Qed.

Lemma first_free_split o l :
  exists l1 l2, l = l1 ++ l2 /\ forallb snd l1 = true /\ first_free o l = o + span l1 /\ (l2 = [] \/ exists n t, l2 = (n, false) :: t).
Proof.
  revert o. induction l as [|[n [|]] l IH]; intros o; simpl.
  - exists [], []. simpl. split; [done|]. split; [done|]. split; [lia|by left].
  - destruct (IH (o + 6 + n)) as (l1 & l2 & -> & H1 & H2 & H3). exists ((n, true) :: l1), l2. simpl. split; [done|]. split; [done|]. split; [lia|done].
  - exists [], ((n, false) :: l). simpl. split; [done|]. split; [done|]. split; [lia|right; eauto].
Qed.

Lemma first_fit_used size o l : forallb snd l = true -> first_fit size o l = None.
Proof.
  revert o. induction l as [|[n [|]] l IH]; intros o; simpl; [done| |done]. apply IH.
Qed.

Lemma align_id x : 0 ≤ x < 65536 -> LWIP_MEM_ALIGN_SIZE x = x.
Proof.
  intros Hx. unfold LWIP_MEM_ALIGN_SIZE, MEM_ALIGNMENT. replace (x + 1 - 1) with x by lia. rewrite u32_small by lia.
  change (u32 (Z.lnot (1 - 1))) with (Z.ones 32). rewrite Z.land_ones by lia. by rewrite Z.mod_small by lia.
Qed.

Lemma align_size x : 0 ≤ x < 65536 -> u16 (LWIP_MEM_ALIGN_SIZE x) = x.
Proof. intros Hx. rewrite align_id by done. by apply u16_small. Qed.

Lemma malloc_adjust_spec s l l1 n m rest t :
  l = l1 ++ (n, false) :: t -> lfree s = first_free 0 l -> ram_end s = MEM_SIZE_ALIGNED ->
  links (ram s) (l1 ++ (m, true) :: rest ++ t) ->
  wp (malloc_adjust (span l1)) (fun _ s' => s' = set_lfree (first_free 0 (l1 ++ (m, true) :: rest ++ t)) s) s.
Proof.
  intros -> Hf He Hl. pose proof (links_bounds _ _ _ Hl) as (H0 & Hsp & _). unfold malloc_adjust. wp_step. wp_step.
  pose proof (seg_first_free _ _ _ _ (proj1 (proj1 (seg_app _ _ _ _ _) (lk_seg _ _ Hl)))) as Hff.
  rewrite first_free_app, Z.add_0_l in Hf |- *. cbn [first_free] in Hf. destruct (forallb snd l1) eqn:Eu.
  - rewrite Hf, Z.eqb_refl. wp_step. eapply wp_mono; [apply (malloc_lfree_spec _ l1 ((m, true) :: rest ++ t) s Hl He)|].
    { pose proof (seg_span _ _ _ _ (lk_seg _ _ Hl)) as [_ Hs]. rewrite (lk_span _ _ Hl), length_app in Hs.
      change heap_fuel with (Z.to_nat 1600). lia. }
    intros c s' [-> ->]. wp_step. wp_step. wp_step. wp_step. cbn [ram_end set_lfree]. rewrite He.
    set (x := first_free (span l1) _). assert (Hx : x = 1600 \/ exists n p, hdr (ram s) x n p false).
    { destruct (first_free_split (span l1) ((m, true) :: rest ++ t)) as (b1 & b2 & Eb & _ & Ef & Hb). subst x. rewrite Ef.
      rewrite Eb, app_assoc in Hl. pose proof (links_bounds _ _ _ Hl) as (_ & Hsb & _). rewrite span_app in *.
      destruct Hb as [->|(k & b & ->)]; [left; simpl in Hsb; lia|right].
      destruct (links_hdr _ _ _ _ _ Hl) as [Hh _]. rewrite span_app in Hh. eauto. }
    destruct Hx as [->|(k & p & Hx)]; [by wp_step|]. wp_step; [by wp_step|]. wp_step. eapply wp_mem_used; [exact Hx|]. by wp_step.
  - rewrite (proj2 (Z.eqb_neq (span l1) _)); [wp_step; destruct s; simpl in *; by subst|]. rewrite Hf.
    enough (first_free 0 l1 < span l1) by lia. destruct (first_free_split 0 l1) as (b1 & b2 & -> & Hb1 & Ef & Hb). rewrite Ef, span_app.
    destruct Hb as [->|(k & b & ->)]; [rewrite app_nil_r in Eu; congruence|].
    assert (Hs : seg (ram s) 0 0 (b1 ++ (k, false) :: b)) by (exact (proj1 (proj1 (seg_app _ _ _ _ _) (lk_seg _ _ Hl)))).
    apply seg_app in Hs as (_ & _ & Hk & Hs). pose proof (seg_span _ _ _ _ Hs). simpl. lia.
Qed.

(** A successful allocation takes the first free block that fits and wastes less than a header
    and a least block; an allocation fails only when no block fits. *)
Lemma mem_malloc_spec s l size_in :
  heap_wf s l -> 0 ≤ size_in < 65536 ->
  wp (mem_malloc size_in) (fun r s' =>
    match r with
    | None => s' = s /\ (size_in = 0 \/ first_fit (size_in `max` 12) 0 l = None)
    | Some p => exists l1 n t m l', l = l1 ++ (n, false) :: t /\ p = span l1 + 6 /\ size_in `max` 12 ≤ m < size_in `max` 12 + 18 /\
        first_fit (size_in `max` 12) 0 l1 = None /\ heap_wf s' l' /\
        live 0 l' = live 0 l1 ++ (p, m) :: live (span l1 + 6 + n) t /\ keeps l s s'
    end) s.
Proof.
  intros [Hl He Hf Hc] Hsz. unfold mem_malloc. rewrite align_size by done. change (u16 MIN_SIZE_ALIGNED) with 12.
  change MIN_SIZE_ALIGNED with 12. change SIZEOF_STRUCT_MEM with 6.
  wp_step; [wp_step; split; [done|left; lia]|]. replace (if size_in <? 12 then 12 else size_in) with (size_in `max` 12) by (destruct (Z.ltb_spec size_in 12); lia).
  set (size := size_in `max` 12). wp_step; [wp_step; split; [done|right]|].
  { apply orb_true_iff in H0. rewrite !Z.ltb_lt in H0. change MEM_SIZE_ALIGNED with 1600 in H0. apply first_fit_none.
    eapply Forall_impl; [exact (seg_sizes _ _ _ _ (lk_seg _ _ Hl))|]. intros b Hb _. rewrite (lk_span _ _ Hl) in Hb. lia. }
  apply orb_false_iff in H0. rewrite !Z.ltb_ge in H0. change MEM_SIZE_ALIGNED with 1600 in H0. wp_step. wp_step.
  destruct (first_free_split 0 l) as (b1 & b2 & Eb & Hb1 & Ef & _). rewrite Hf, Ef, Z.add_0_l. subst l.
  pose proof (links_bounds _ _ _ Hl) as (Hb0 & Hsb & _). unfold mem_to_ptr. rewrite u16_small by lia.
  wp_step. eapply wp_mono; [apply (malloc_search_spec _ size b1 b2 s Hl); [|lia]|].
  { pose proof (seg_span _ _ _ _ (lk_seg _ _ Hl)) as [_ Hs]. rewrite (lk_span _ _ Hl), length_app in Hs.
    change heap_fuel with (Z.to_nat 1600). lia. }
  intros r s' [Er ->]. pose proof (first_fit_app size 0 b1 b2 (first_fit_used _ _ _ Hb1)) as Efit. rewrite Z.add_0_l in Efit. rewrite <- Er in Efit.
  destruct r as [p|]; [|by wp_step; split; [|right]].
  apply first_fit_some in Efit as (l1 & n & t & El & -> & Hn & Hfit). rewrite Z.add_0_l. rewrite El in *.
  wp_step. eapply wp_mono; [apply (malloc_take_spec _ _ _ _ _ Hl); lia|].
  intros _ s1 (r1 & m & rest & -> & Hl1 & Hm & Hrest & Hlv & Hk). wp_step.
  eapply wp_mono; [by apply (malloc_adjust_spec (set_ram r1 s) (l1 ++ (n, false) :: t) l1 n m rest t)|]. intros _ s2 ->.
  destruct (links_hdr _ _ _ _ _ Hl1) as [Hh1 _]. pose proof (part_nn _ _ _ _ _ (links_part _ _ _ _ _ Hl1)) as Hnn.
  wp_step. wp_step. wp_step. cbn [ram_end set_lfree set_ram]. rewrite He.
  wp_step; [apply Z.leb_le; change MEM_SIZE_ALIGNED with 1600; lia|]. wp_step. wp_step; [by rewrite Z.mod_1_r|].
  wp_step. wp_step; [by rewrite Z.land_0_r|]. wp_step. exists l1, n, t, m, (l1 ++ (m, true) :: rest ++ t).
  split; [done|]. split; [done|]. split; [lia|]. split; [done|]. split; [|split; [|exact Hk]].
  - split; [done|done|done|]. rewrite coalesced_app in Hc |- *. destruct Hc as (Hc1 & Hc2 & Hc3). split; [done|]. split; [done|].
    destruct Hrest as [->|[k ->]]; simpl in *; [|tauto]. destruct t as [|[? ?] ?]; simpl in *; tauto.
  - rewrite live_app, Z.add_0_l. simpl. by rewrite Hlv.
Qed.

(** ** Shrinking *)

(** The part becomes a block of size [k] and a free block. *)
Lemma wp_cut s r l1 u nn t k :
  part r l1 u nn t -> 12 ≤ k -> span l1 + 6 + k + 18 ≤ nn -> ram s = put_used r (span l1 + 6 + k) 0 ->
  wp (set_next (span l1 + 6 + k) nn;; set_prev (span l1 + 6 + k) (span l1);; set_next (span l1) (span l1 + 6 + k);;
      next2 ← mem_next (span l1 + 6 + k);
      if negb (next2 =? MEM_SIZE_ALIGNED) then set_prev next2 (span l1 + 6 + k) else mret tt)
    (fun _ s' => exists r', s' = set_ram r' s /\ links r' (l1 ++ (k, u) :: (nn - span l1 - 12 - k, false) :: t) /\
      forall a, a < span l1 \/ span l1 + 6 ≤ a < span l1 + 6 + k \/ nn + 6 ≤ a -> r' !! a = r !! a) s.
Proof.
  intros Hp Hk Hroom Er. pose proof (part_nn _ _ _ _ _ Hp) as Hnn. pose proof (part_prev _ _ _ _ _ Hp) as [_ H0].
  destruct (cut_hdrs _ _ _ _ _ k Hp Hk Hroom) as [C1 C2]. pose proof (pt_map _ _ _ _ _ Hp) as Hmap.
  set (o2 := span l1 + 6 + k) in *. assert (Hm2 : mapped r o2 6) by (eapply mapped_sub; [exact Hmap|lia|lia]).
  wp_step. apply wp_set_next; [rewrite Er; by apply mapped_insert|lia|]. wp_step. cbn [ram set_ram]. rewrite Er.
  apply wp_set_prev; [by apply mapped_put16, mapped_insert|lia|]. cbn [ram set_ram].
  change (put_prev _ _ _) with (new_hdr r o2 nn (span l1)). wp_step. apply wp_set_next; [|lia|].
  { apply mapped_new_hdr. eapply mapped_sub; [exact Hmap|lia|lia]. }
  cbn [ram set_ram]. wp_step. eapply wp_mem_next; [exact C2|].
  assert (Hm : mapped (put_next (new_hdr r o2 nn (span l1)) (span l1) o2) 0 1612) by (by apply mapped_put16, mapped_new_hdr).
  apply wp_relink; [eapply mapped_sub; [exact Hm|lia|lia]|lia|]. eexists. split; [by destruct s|]. cbn [ram set_ram].
  assert (Hfr : forall a, a < span l1 \/ span l1 + 6 ≤ a < o2 \/ nn ≤ a -> put_next (new_hdr r o2 nn (span l1)) (span l1) o2 !! a = r !! a).
  { intros a Ha. rewrite same_put_next, same_new_hdr by lia. done. }
  split; [eapply part_split; [exact Hp|done|done| |done|done|done]; intros a Ha; apply Hfr; lia|].
  intros a Ha. rewrite relink_lookup by lia. apply Hfr. lia.
Qed.

Lemma cut_keeps r l1 k m t s s' :
  links r (l1 ++ (k, true) :: (m, false) :: t) ->
  (forall a, a < span l1 \/ span l1 + 6 ≤ a < span l1 + 6 + k \/ span l1 + 6 + k + 6 + m + 6 ≤ a -> ram s' !! a = ram s !! a) ->
  keeps (l1 ++ (k, true) :: (m, false) :: t) s s'.
Proof.
  intros [Hs _ _ _] Hf a Ha. rewrite seg_app in Hs. destruct Hs as (H1 & _ & _ & _ & _ & Ht). rewrite data_of_app in Ha.
  apply Hf. destruct Ha as [Ha|[[_ Ha]|[[? _]|Ha]]]; [|lia|done|].
  - apply (seg_data _ _ _ _ _ H1) in Ha. lia.
  - apply (seg_data _ _ _ _ _ Ht) in Ha. lia.
Qed.

Lemma trim_move_spec s l1 n m t k :
  heap_wf s (l1 ++ (n, true) :: (m, false) :: t) -> 12 ≤ k ≤ n ->
  wp (trim_move (span l1) k) (fun _ s' => exists m', heap_wf s' (l1 ++ (k, true) :: (m', false) :: t) /\
    k + m' = n + m /\ keeps (l1 ++ (k, true) :: (m', false) :: t) s s') s.
Proof.
  intros [Hl He Hf Hc] Hk. pose proof (links_part2 _ _ _ _ _ _ _ Hl) as Hp. pose proof (part_nn _ _ _ _ _ Hp) as Hnn.
  destruct (links_hdr _ _ _ _ _ Hl) as [Hh Hn]. pose proof (part_prev _ _ _ _ _ Hp) as [_ H0].
  destruct (links_next _ _ _ _ _ Hl) as (nx & pv & Hh2 & -> & -> & Hm). set (nn := span l1 + 6 + n + 6 + m) in *.
  unfold trim_move. change SIZEOF_STRUCT_MEM with 6. wp_step. eapply wp_mem_next; [exact Hh|].
  wp_step. wp_step; [apply negb_true_iff, Z.eqb_neq; change MEM_SIZE_ALIGNED with 1600; lia|].
  wp_step. eapply wp_mem_next; [exact Hh2|]. rewrite u16_small by lia. wp_step. wp_step. wp_step.
  set (l' := l1 ++ (k, true) :: (n + m - k, false) :: t).
  assert (Hadj : wp (if lfree s =? span l1 + 6 + n then kmodify (set_lfree (span l1 + 6 + k)) else mret tt)
    (fun _ s' => s' = set_lfree (first_free 0 l') s) s).
  { unfold l'. rewrite first_free_app, Z.add_0_l in Hf |- *. cbn [first_free] in Hf |- *.
    pose proof (seg_first_free _ _ _ _ (pt_seg _ _ _ _ _ Hp)). destruct (forallb snd l1).
    - rewrite Hf, Z.eqb_refl. by wp_step.
    - rewrite (proj2 (Z.eqb_neq (lfree s) _)) by lia. wp_step. destruct s; simpl in *. by subst. }
  eapply wp_mono; [exact Hadj|]. intros _ s1 ->. wp_step. apply wp_set_used; [eapply links_mapped; [done|lia]|].
  eapply wp_mono; [apply (wp_cut _ (ram s) l1 true nn t k); [done|lia|lia|done]|].
  intros _ s' (r' & -> & Hl' & Hfr). replace (nn - span l1 - 12 - k) with (n + m - k) in Hl' by lia. exists (n + m - k).
  split; [|split; [lia|]].
  - split; [done|done|done|]. rewrite coalesced_app in Hc |- *. simpl in *. tauto.
  - eapply cut_keeps; [exact Hl'|]. intros a Ha. apply Hfr. lia.
Qed.

Lemma trim_split_spec s l1 n t k :
  heap_wf s (l1 ++ (n, true) :: t) -> 12 ≤ k -> k + 18 ≤ n -> t ≠ [] -> coalesced true t ->
  wp (trim_split (span l1) k) (fun _ s' => exists m', heap_wf s' (l1 ++ (k, true) :: (m', false) :: t) /\
    k + 6 + m' = n /\ keeps (l1 ++ (k, true) :: (m', false) :: t) s s') s.
Proof.
  intros [Hl He Hf Hc] Hk Hkn Ht Hct. pose proof (links_part _ _ _ _ _ Hl) as Hp. pose proof (part_nn _ _ _ _ _ Hp) as Hnn.
  destruct (links_hdr _ _ _ _ _ Hl) as [Hh Hn]. pose proof (part_prev _ _ _ _ _ Hp) as [_ H0]. destruct (pt_tail _ _ _ _ _ Hp) as [q Hq].
  pose proof (seg_span _ _ _ _ Hq) as [_ Hq']. pose proof (pt_span _ _ _ _ _ Hp) as Hst. pose proof (seg_first_free _ _ _ _ Hq) as Hqf.
  assert (Hlt : span l1 + 6 + n < 1600) by (assert (0 < length t)%nat by (destruct t; [done|simpl; lia]); lia). set (nn := span l1 + 6 + n) in *.
  unfold trim_split. change SIZEOF_STRUCT_MEM with 6. rewrite u16_small by lia. wp_step. eapply wp_mem_next; [exact Hh|].
  wp_step. wp_step; [apply negb_true_iff, Z.eqb_neq; change MEM_SIZE_ALIGNED with 1600; lia|]. wp_step. wp_step. wp_step.
  set (l' := l1 ++ (k, true) :: (n - 6 - k, false) :: t).
  assert (Hadj : wp (if span l1 + 6 + k <? lfree s then kmodify (set_lfree (span l1 + 6 + k)) else mret tt)
    (fun _ s' => s' = set_lfree (first_free 0 l') s) s).
  { unfold l'. rewrite first_free_app, Z.add_0_l in Hf |- *. cbn [first_free] in Hf |- *. fold nn in Hf.
    pose proof (seg_first_free _ _ _ _ (pt_seg _ _ _ _ _ Hp)). destruct (forallb snd l1).
    - rewrite (proj2 (Z.ltb_lt _ (lfree s))) by lia. by wp_step.
    - rewrite (proj2 (Z.ltb_ge _ (lfree s))) by lia. wp_step. destruct s; simpl in *. by subst. }
  eapply wp_mono; [exact Hadj|]. intros _ s1 ->. wp_step. apply wp_set_used; [eapply links_mapped; [done|lia]|].
  wp_step. eapply wp_mem_next; [eapply hdr_same; [apply same_put_used| |exact Hh]; lia|].
  eapply wp_mono; [apply (wp_cut _ (ram s) l1 true nn t k); [done|lia|lia|done]|].
  intros _ s' (r' & -> & Hl' & Hfr). replace (nn - span l1 - 12 - k) with (n - 6 - k) in Hl' by lia. exists (n - 6 - k).
  split; [|split; [lia|]].
  - split; [done|done|done|]. rewrite coalesced_app in Hc |- *. simpl in *. tauto.
  - eapply cut_keeps; [exact Hl'|]. intros a Ha. apply Hfr. lia.
Qed.

(** A block that is not the last one of the heap, or has no room for another block behind
    it, is shrunk in place. *)
Lemma mem_trim_spec s l1 n t new_size (k := new_size `max` 12) :
  heap_wf s (l1 ++ (n, true) :: t) -> 0 ≤ new_size -> k ≤ n -> (t = [] -> n < k + 18) ->
  wp (mem_trim (span l1 + 6) new_size) (fun r s' => r = Some (span l1 + 6) /\ exists m l', heap_wf s' l' /\ k ≤ m ≤ n /\
    live 0 l' = live 0 l1 ++ (span l1 + 6, m) :: live (span l1 + 6 + n) t /\ keeps l' s s') s.
Proof.
  intros Hwf Hnew Hk Hlast. pose proof Hwf as [Hl He Hf Hc]. pose proof (links_part _ _ _ _ _ Hl) as Hp.
  pose proof (part_nn _ _ _ _ _ Hp) as Hnn. destruct (links_hdr _ _ _ _ _ Hl) as [Hh Hn]. pose proof (part_prev _ _ _ _ _ Hp) as [_ H0].
  destruct (links_next _ _ _ _ _ Hl) as (nx & pv & Hh2 & _). subst k.
  unfold mem_trim. change (u16 MIN_SIZE_ALIGNED) with 12. change MIN_SIZE_ALIGNED with 12. change SIZEOF_STRUCT_MEM with 6.
  rewrite align_size by lia. replace (if new_size <? 12 then 12 else new_size) with (new_size `max` 12) by (destruct (Z.ltb_spec new_size 12); lia).
  set (k := new_size `max` 12) in *. change MEM_SIZE_ALIGNED with 1600 in *.
  rewrite (proj2 (Z.ltb_ge 1600 k)), (proj2 (Z.ltb_ge k new_size)) by lia. cbn [orb]. wp_step. wp_step. rewrite He. change MEM_SIZE_ALIGNED with 1600.
  wp_step. wp_step; [apply andb_true_iff; rewrite Z.leb_le, Z.ltb_lt; lia|].
  replace (span l1 + 6 - 6) with (span l1) by lia. wp_step. eapply wp_mem_next; [exact Hh|]. unfold mem_to_ptr. rewrite (u16_small (span l1)) by lia.
  replace (span l1 + 6 + n - span l1) with (n + 6) by lia. rewrite (u16_small (n + 6)) by lia. replace (n + 6 - 6) with n by lia. rewrite u16_small by lia.
  wp_step. wp_step; [apply Z.leb_le; lia|].
  assert (Hsame : exists m l', heap_wf s l' /\ k ≤ m ≤ n /\ live 0 l' = live 0 l1 ++ (span l1 + 6, m) :: live (span l1 + 6 + n) t /\ keeps l' s s).
  { exists n, (l1 ++ (n, true) :: t). rewrite live_app. split; [done|]. split; [lia|]. split; [done|]. by intros a. }
  wp_step; [by wp_step|]. wp_step. eapply wp_mem_used; [exact Hh2|]. wp_step. apply Z.eqb_neq in H.
  destruct t as [|[m [|]] t]; cbn [Z.b2z Z.eqb].
  - rewrite (proj2 (Z.leb_gt (k + 6 + 12) n)) by (specialize (Hlast eq_refl); lia). wp_step. by wp_step.
  - wp_step; [|by wp_step; wp_step]. apply Z.leb_le in H1. rewrite coalesced_app in Hc. simpl in Hc.
    eapply wp_mono; [apply trim_split_spec; [done|lia|lia|done|simpl; tauto]|]. intros _ s' (m' & Hwf' & Hm' & Hk'). wp_step. split; [done|].
    eexists k, _. split; [exact Hwf'|]. split; [lia|]. split; [|done]. rewrite live_app, Z.add_0_l. simpl.
    replace (span l1 + 6 + k + 6 + m') with (span l1 + 6 + n) by lia. done.
  - eapply wp_mono; [apply trim_move_spec; [done|lia]|]. intros _ s' (m' & Hwf' & Hm' & Hk'). wp_step. split; [done|].
    eexists k, _. split; [exact Hwf'|]. split; [lia|]. split; [|done]. rewrite live_app, Z.add_0_l. simpl.
    replace (span l1 + 6 + k + 6 + m') with (span l1 + 6 + n + 6 + m) by lia. done.
Qed.

Lemma hdr_init r o n p (u : bool) :
  mapped r o 6 -> 0 ≤ n < 65536 -> 0 ≤ p < 65536 -> hdr (put_used (put_prev (put_next r o n) o p) o (Z.b2z u)) o n p u.
Proof.
  intros Hm Hn Hp. unfold put_used, put_next, put_prev. split; [by apply mapped_insert, mapped_put16, mapped_put16| | |by rewrite lookup_insert_eq].
  - rewrite (get16_frame (put16 r o n)); [by apply get16_put16|rewrite lookup_insert_ne by lia; apply put16_other; lia..].
  - rewrite (get16_frame (put16 (put16 r o n) (o + 2) p)); [by apply get16_put16|rewrite lookup_insert_ne by lia; done..].
Qed.

Lemma mem_init_spec s : mapped (ram s) 0 1612 -> wp mem_init (fun _ s' => heap_wf s' [(1594, false)]) s.
Proof.
  intros Hm. unfold mem_init. change MEM_SIZE_ALIGNED with 1600. wp_step. wp_step; [done|].
  assert (Hsub : forall r o, mapped r 0 1612 -> 0 ≤ o ≤ 1600 -> mapped r o 6) by (intros r o Hr Ho; eapply mapped_sub; [exact Hr|lia|lia]).
  assert (H1 : mapped (put_used (put_prev (put_next (ram s) 0 1600) 0 0) 0 0) 0 1612) by (by apply mapped_insert, mapped_put16, mapped_put16).
  pose proof (hdr_init (ram s) 0 1600 0 false (Hsub _ 0 Hm ltac:(lia)) ltac:(lia) ltac:(lia)) as Hh.
  wp_step. apply wp_set_next; [by apply Hsub|lia|]. wp_step. apply wp_set_prev; [apply mapped_put16, Hsub; [done|lia]|lia|].
  wp_step. apply wp_set_used; [apply mapped_put16, mapped_put16, Hsub; [done|lia]|]. cbn [ram set_ram].
  set (r1 := put_used _ _ _) in *. wp_step. wp_step. wp_step. apply wp_set_used; [apply Hsub; [done|lia]|].
  wp_step. apply wp_set_next; [apply mapped_insert, Hsub; [done|lia]|lia|].
  wp_step. apply wp_set_prev; [apply mapped_put16, mapped_insert, Hsub; [done|lia]|lia|]. wp_step.
  split; [|done|done|done]. cbn [ram set_ram set_lfree set_ram_end]. split; [|done| |by apply mapped_put16, mapped_put16, mapped_insert].
  - split; [|done]. eapply (hdr_same 1600); [apply same_put_prev|lia|]. eapply (hdr_same 1600); [apply same_put_next|lia|].
    eapply (hdr_same 1600); [apply same_put_used|lia|]. exact Hh.
  - apply (hdr_new r1 1600 1600 1600 true); [apply Hsub; [done|lia]|lia|lia].
Qed.

End spec.
