(* ===== verification/LwipHeap.v ===== *)
(** * What the heap of the TCP/IP stack promises to its clients

    The clients see a finite map from the pointers that they hold to the contents of
    the blocks.  The operations of LwipMem.v refine the obvious operations on this map:
    a new block overlaps no block that is in use, nothing but its owner changes the
    contents of a block, and an allocation fails only where no gap is large enough. *)

From stdpp Require Import base gmap list numbers.
From S2P Require Import Prelude.
From S2P Require Import Bytes.
From S2P Require Import LwipString.
From S2P Require Import Chksum.
From S2P Require Import LwipMem.
From S2P Require Import LwipMemSpec.

Open Scope Z_scope.

Section heap.
Context `{BO : ByteOrder}.

(** What the clients do: the last operation is a store into a block that they hold. *)
Inductive heap_op :=
  | Malloc (size : Z)
  | Calloc (count size : Z)
  | Free (p : Z)
  | Trim (p new_size : Z)
  | Store (a v : Z).

Definition run_heap_op (o : heap_op) : K heap (option Z) :=
  match o with
  | Malloc size => mem_malloc size
  | Calloc count size => mem_calloc count size
  | Free p => mem_free (Some p);; mret None
  | Trim p new_size => mem_trim p new_size
  | Store a v => with_ram (store a v);; mret None
  end.

(** ** The view of the clients *)

Abbreviation view := (gmap Z (list Z)).

(** The block overlaps no other one. *)
Definition fresh_block (A : view) (p : Z) (bs : list Z) : Prop :=
  0 < p /\ p + alen bs ≤ MEM_SIZE_ALIGNED /\
  forall q bs', A !! q = Some bs' -> p + alen bs ≤ q \/ q + alen bs' ≤ p.

Inductive heap_step (A : view) : heap_op -> option Z -> view -> Prop :=
  | step_fail size : heap_step A (Malloc size) None A
  | step_malloc size p bs : fresh_block A p bs -> size ≤ alen bs < size `max` 12 + 18 -> heap_step A (Malloc size) (Some p) (<[p := bs]> A)
  | step_calloc_fail count size : heap_step A (Calloc count size) None A
  | step_calloc count size p bs :
      fresh_block A p bs -> (exists bs', bs = replicate (Z.to_nat (count * size)) 0 ++ bs') ->
      heap_step A (Calloc count size) (Some p) (<[p := bs]> A)
  | step_free p : heap_step A (Free p) None (delete p A)
  | step_trim p new_size bs n :
      A !! p = Some bs -> new_size ≤ Z.of_nat n -> (n ≤ length bs)%nat ->
      heap_step A (Trim p new_size) (Some p) (<[p := take n bs]> A)
  | step_store p bs (i : nat) v :
      A !! p = Some bs -> (i < length bs)%nat -> heap_step A (Store (p + Z.of_nat i) v) None (<[p := <[i := v]> bs]> A).

(** What the clients must respect: sizes are 16-bit numbers, only blocks that are in use are
    freed, shrunk and written, and the last block of the heap is not shrunk by more than
    the room of a header and of a least block. *)
Definition op_ok (A : view) (o : heap_op) : Prop :=
  match o with
  | Malloc size => 0 ≤ size < 65536
  | Calloc count size => 0 ≤ count < 65536 /\ 0 ≤ size < 65536
  | Free p => is_Some (A !! p)
  | Trim p new_size => exists bs, A !! p = Some bs /\ 0 ≤ new_size /\ new_size `max` 12 ≤ alen bs /\
      (p + alen bs = MEM_SIZE_ALIGNED -> alen bs < new_size `max` 12 + SIZEOF_STRUCT_MEM + MIN_SIZE_ALIGNED)
  | Store a v => exists p bs (i : nat), A !! p = Some bs /\ (i < length bs)%nat /\ a = p + Z.of_nat i
  end.

Definition block_contents (r : gmap Z Z) (b : Z * Z) : Z * list Z := (fst b, mem_read r (fst b) (Z.to_nat (snd b))).
Definition contents (r : gmap Z Z) (lv : list (Z * Z)) : view := list_to_map (block_contents r <$> lv).

Definition heap_rep (s : heap) (A : view) : Prop := exists l, heap_wf s l /\ A = contents (ram s) (live 0 l).

(** ** The blocks in use *)

Lemma live_bounds r p o l q n : seg r p o l -> (q, n) ∈ live o l -> o + 6 ≤ q /\ q + n ≤ o + span l /\ 12 ≤ n.
Proof.
  revert p o. induction l as [|[m u] l IH]; intros p o; cbn [seg live span]; [by intros _ ?%elem_of_nil|].
  intros (_ & Hm & Hs) [Hq|Hq]%elem_of_app.
  - pose proof (seg_span _ _ _ _ Hs). destruct u; [|by apply elem_of_nil in Hq]. apply list_elem_of_singleton in Hq. simplify_eq. lia.
  - apply (IH _ _ Hs) in Hq. lia.
Qed.

Lemma live_split r p o l q n :
  seg r p o l -> (q, n) ∈ live o l -> exists l1 t, l = l1 ++ (n, true) :: t /\ q = o + span l1 + 6.
Proof.
  revert p o. induction l as [|[m u] l IH]; intros p o; cbn [seg live]; [by intros _ ?%elem_of_nil|].
  intros (_ & Hm & Hs) [Hq|Hq]%elem_of_app.
  - destruct u; [|by apply elem_of_nil in Hq]. apply list_elem_of_singleton in Hq. simplify_eq. exists [], l. simpl. split; [done|lia].
  - destruct (IH _ _ Hs Hq) as (l1 & t & -> & ->). exists ((m, u) :: l1), t. simpl. split; [done|lia].
Qed.

Lemma live_NoDup r p o l : seg r p o l -> NoDup (fst <$> live o l).
Proof.
  revert p o. induction l as [|[m u] l IH]; intros p o; cbn [seg live]; [intros _; constructor|].
  intros (_ & Hm & Hs). rewrite fmap_app. destruct u; [|by eapply IH]. simpl. constructor; [|by eapply IH].
  intros ([q n] & E & Hq)%list_elem_of_fmap. apply (live_bounds _ _ _ _ _ _ Hs) in Hq. simpl in E. lia.
Qed.

Lemma mem_read_ext r r' a n : (forall x, a ≤ x < a + Z.of_nat n -> r' !! x = r !! x) -> mem_read r' a n = mem_read r a n.
Proof. intros H. unfold mem_read. apply list_fmap_ext. intros i k [-> Hk]%lookup_seq. rewrite H; [done|lia]. Qed.

Lemma mem_read_take r a n m : (m ≤ n)%nat -> take m (mem_read r a n) = mem_read r a m.
Proof. intros H. unfold mem_read. by rewrite <- fmap_take, take_seq, Nat.min_l. Qed.

Lemma contents_ext r r' lv :
  (forall x, Exists (fun b => fst b ≤ x < fst b + snd b) lv -> r' !! x = r !! x) -> contents r' lv = contents r lv.
Proof.
  intros H. unfold contents. f_equal. apply list_fmap_ext. intros i [q n] Hi. unfold block_contents. f_equal. apply mem_read_ext. intros x Hx.
  apply H, Exists_exists. exists (q, n). split; [by eapply list_elem_of_lookup_2|]. simpl in *. lia.
Qed.

Lemma contents_keeps l s s' : keeps l s s' -> contents (ram s') (live 0 l) = contents (ram s) (live 0 l).
Proof. intros Hk. apply contents_ext. intros x Hx%data_live. by apply Hk. Qed.

Lemma contents_fst r (lv : list (Z * Z)) : fst <$> (block_contents r <$> lv) = fst <$> lv.
Proof. by rewrite <- list_fmap_compose. Qed.

Lemma contents_lookup r lv p bs :
  NoDup (fst <$> lv) -> contents r lv !! p = Some bs <-> exists n, (p, n) ∈ lv /\ bs = mem_read r p (Z.to_nat n).
Proof.
  intros Hnd. unfold contents. rewrite <- elem_of_list_to_map by (by rewrite contents_fst). rewrite list_elem_of_fmap. split.
  - intros ([q n] & E & Hq). unfold block_contents in E. simplify_eq/=. eauto.
  - intros (n & Hn & ->). by exists (p, n).
Qed.

(** A block is added to the list of the blocks in use. *)
Lemma contents_add r lv1 lv2 p n :
  NoDup (fst <$> (lv1 ++ (p, n) :: lv2)) ->
  contents r (lv1 ++ (p, n) :: lv2) = <[p := mem_read r p (Z.to_nat n)]> (contents r (lv1 ++ lv2)) /\ contents r (lv1 ++ lv2) !! p = None.
Proof.
  intros Hnd. assert (Hp : (p, n) :: lv1 ++ lv2 ≡ₚ lv1 ++ (p, n) :: lv2) by apply Permutation_middle.
  assert (Hnd' : NoDup (fst <$> ((p, n) :: lv1 ++ lv2))) by (by rewrite Hp). split.
  - unfold contents. rewrite <- (list_to_map_proper (block_contents r <$> ((p, n) :: lv1 ++ lv2))).
    + done.
    + by rewrite contents_fst.
    + by rewrite Hp.
  - apply not_elem_of_list_to_map. rewrite contents_fst. by inversion Hnd'.
Qed.

(** Stores inside a block that is in use leave the list of blocks. *)
Lemma links_data r r' l1 n t :
  links r (l1 ++ (n, true) :: t) -> (forall x, x < span l1 + 6 \/ span l1 + 6 + n ≤ x -> r' !! x = r !! x) -> mapped r' 0 1612 ->
  links r' (l1 ++ (n, true) :: t).
Proof.
  intros [Hs Hsp He Hm] Hf Hm'. rewrite seg_app in Hs. destruct Hs as (H1 & Hh & Hn & Ht).
  pose proof (seg_span _ _ _ _ H1). pose proof (seg_span _ _ _ _ Ht). rewrite span_app in Hsp. cbn [span] in Hsp. split.
  - rewrite seg_app. split; [|split; [|split; [done|]]].
    + eapply seg_frame; [|exact H1]. intros a Ha. apply Hf. lia.
    + eapply hdr_frame; [|exact Hh]. intros a Ha. apply Hf. lia.
    + eapply seg_frame; [|exact Ht]. intros a Ha. apply Hf. lia.
  - rewrite span_app. done.
  - eapply hdr_frame; [|exact He]. intros a Ha. apply Hf. lia.
  - done.
Qed.

Lemma heap_wf_data s r' l1 n t :
  heap_wf s (l1 ++ (n, true) :: t) -> (forall x, x < span l1 + 6 \/ span l1 + 6 + n ≤ x -> r' !! x = ram s !! x) -> mapped r' 0 1612 ->
  heap_wf (set_ram r' s) (l1 ++ (n, true) :: t).
Proof. intros [] Hf Hm. split; try done. by eapply links_data. Qed.

(** The contents when the memory changes inside one block. *)
Lemma contents_data s r' l1 n t :
  heap_wf s (l1 ++ (n, true) :: t) -> (forall x, x < span l1 + 6 \/ span l1 + 6 + n ≤ x -> r' !! x = ram s !! x) ->
  contents r' (live 0 (l1 ++ (n, true) :: t)) =
  <[span l1 + 6 := mem_read r' (span l1 + 6) (Z.to_nat n)]> (contents (ram s) (live 0 (l1 ++ (n, true) :: t))).
Proof.
  intros [[Hs _ _ _] _ _ _] Hf. pose proof (live_NoDup _ _ _ _ Hs) as Hnd. rewrite seg_app in Hs. destruct Hs as (H1 & _ & Hn & Ht).
  rewrite live_app in *. cbn [live app] in *. rewrite Z.add_0_l in *. destruct (contents_add r' _ _ _ _ Hnd) as [-> _].
  destruct (contents_add (ram s) _ _ _ _ Hnd) as [-> _]. rewrite insert_insert_eq. f_equal. apply contents_ext. intros x Hx.
  rewrite Exists_app, !Exists_exists in Hx. apply Hf. destruct Hx as [([q m] & Hq & Hx)|([q m] & Hq & Hx)].
  - apply (live_bounds _ _ _ _ _ _ H1) in Hq. simpl in Hx. lia.
  - apply (live_bounds _ _ _ _ _ _ Ht) in Hq. simpl in Hx. lia.
Qed.

(** The blocks that a client holds are blocks of the list. *)
Lemma heap_rep_block s l p bs :
  heap_wf s l -> contents (ram s) (live 0 l) !! p = Some bs ->
  exists l1 n t, l = l1 ++ (n, true) :: t /\ p = span l1 + 6 /\ 12 ≤ n /\ alen bs = n /\ bs = mem_read (ram s) p (Z.to_nat n).
Proof.
  intros Hwf Hp. pose proof (lk_seg _ _ (wf_links _ _ Hwf)) as Hs. apply (contents_lookup _ _ _ _ (live_NoDup _ _ _ _ Hs)) in Hp as (n & Hp & ->).
  destruct (live_split _ _ _ _ _ _ Hs Hp) as (l1 & t & -> & ->). pose proof (live_bounds _ _ _ _ _ _ Hs Hp) as (_ & _ & Hn).
  exists l1, n, t. split; [done|]. split; [lia|]. split; [done|]. split; [rewrite length_mem_read; lia|done].
Qed.

Lemma live_disjoint r p o l a n b m :
  seg r p o l -> (a, n) ∈ live o l -> (b, m) ∈ live o l -> a ≠ b -> a + n ≤ b - 6 \/ b + m ≤ a - 6.
Proof.
  revert p o. induction l as [|[k u] l IH]; intros p o; cbn [seg live]; [by intros _ ?%elem_of_nil|].
  intros (_ & Hk & Hs) Ha Hb Hab. rewrite elem_of_app in Ha, Hb.
  assert (Hhd : forall x c, (x, c) ∈ (if u then [(o + 6, k)] else []) -> x = o + 6 /\ c = k).
  { intros x c Hx. destruct u; [|by apply elem_of_nil in Hx]. apply list_elem_of_singleton in Hx. by simplify_eq. }
  destruct Ha as [[-> ->]%Hhd|Ha], Hb as [[-> ->]%Hhd|Hb].
  - done.
  - apply (live_bounds _ _ _ _ _ _ Hs) in Hb. lia.
  - apply (live_bounds _ _ _ _ _ _ Hs) in Ha. lia.
  - by eapply IH.
Qed.

(** ** The operations on the view *)

Lemma mem_malloc_sim s l size :
  heap_wf s l -> 0 ≤ size < 65536 ->
  wp (mem_malloc size) (fun r s' =>
    match r with
    | None => s' = s
    | Some p => exists l' bs, heap_wf s' l' /\ fresh_block (contents (ram s) (live 0 l)) p bs /\ size ≤ alen bs < size `max` 12 + 18 /\
        contents (ram s') (live 0 l') = <[p := bs]> (contents (ram s) (live 0 l))
    end) s.
Proof.
  intros Hwf Hsz. eapply wp_mono; [by apply mem_malloc_spec|]. intros [p|] s'; [|by intros [-> _]].
  intros (l1 & n & t & m & l' & -> & -> & Hm & _ & Hwf' & Hlv & Hk). exists l', (mem_read (ram s') (span l1 + 6) (Z.to_nat m)).
  pose proof (lk_seg _ _ (wf_links _ _ Hwf')) as Hs. pose proof (live_NoDup _ _ _ _ Hs) as Hnd. rewrite Hlv in Hnd.
  assert (El : live 0 (l1 ++ (n, false) :: t) = live 0 l1 ++ live (span l1 + 6 + n) t) by (by rewrite live_app).
  destruct (contents_add (ram s') _ _ _ _ Hnd) as [Hc Hnone]. rewrite <- El, (contents_keeps _ _ _ Hk), <- Hlv in Hc.
  rewrite <- El, (contents_keeps _ _ _ Hk) in Hnone.
  assert (Hin : (span l1 + 6, m) ∈ live 0 l') by (rewrite Hlv; apply elem_of_app; right; left).
  pose proof (live_bounds _ _ _ _ _ _ Hs Hin) as (Hb1 & Hb2 & Hm12). rewrite (lk_span _ _ (wf_links _ _ Hwf')) in Hb2.
  split; [done|]. rewrite length_mem_read, Z2Nat.id by lia. split; [|split; [lia|done]]. split; [lia|]. split; [rewrite length_mem_read; change MEM_SIZE_ALIGNED with 1600; lia|].
  intros q bs' Hq. rewrite length_mem_read, Z2Nat.id by lia. assert (Hne : span l1 + 6 ≠ q) by congruence.
  apply contents_lookup in Hq as (k & Hq & ->); [|apply (live_NoDup _ _ _ _ (lk_seg _ _ (wf_links _ _ Hwf)))].
  pose proof (live_bounds _ _ _ _ _ _ (lk_seg _ _ (wf_links _ _ Hwf)) Hq) as (_ & _ & Hk12).
  rewrite length_mem_read, Z2Nat.id by lia. enough (span l1 + 6 + m ≤ q - 6 \/ q + k ≤ span l1 + 6 - 6) by lia.
  eapply live_disjoint; [exact Hs|done| |done]. rewrite Hlv. rewrite El in Hq.
  rewrite elem_of_app in Hq |- *. destruct Hq; [by left|by right; right].
Qed.

Lemma mapped_mem_write r a bs o n : mapped r o n -> mapped (mem_write a bs r) o n.
Proof. revert a. induction bs as [|b bs IH]; intros a Hm; simpl; [done|]. by apply mapped_insert, IH. Qed.

Lemma fresh_length A p bs bs' : fresh_block A p bs -> alen bs' = alen bs -> fresh_block A p bs'.
Proof. unfold fresh_block. intros H E. by rewrite E. Qed.

Lemma mem_calloc_sim s l count size :
  heap_wf s l -> 0 ≤ count < 65536 -> 0 ≤ size < 65536 ->
  wp (mem_calloc count size) (fun r s' =>
    match r with
    | None => s' = s
    | Some p => exists l' bs, heap_wf s' l' /\ fresh_block (contents (ram s) (live 0 l)) p bs /\
        (exists bs', bs = replicate (Z.to_nat (count * size)) 0 ++ bs') /\
        contents (ram s') (live 0 l') = <[p := bs]> (contents (ram s) (live 0 l))
    end) s.
Proof.
  intros Hwf Hc Hsz. unfold mem_calloc. rewrite u32_small by nia. wp_step; [by wp_step|].
  apply negb_false_iff, Z.eqb_eq in H. assert (Hr : 0 ≤ count * size < 65536) by (pose proof (u16_range (count * size)); lia).
  rewrite H. wp_step. eapply wp_mono; [by apply mem_malloc_sim|]. intros [p|] s1; [|intros ->; by wp_step].
  intros (l' & bs & Hwf' & Hfr & Hlen & Hcon). destruct (heap_rep_block s1 l' p bs Hwf') as (l1 & n & t & -> & -> & Hn & En & Ebs); [by rewrite Hcon, lookup_insert_eq|].
  pose proof (lk_map _ _ (wf_links _ _ Hwf')) as Hmap. pose proof (links_bounds _ _ _ (wf_links _ _ Hwf')) as (H0 & Hsp & _). cbn [span] in Hsp.
  assert (0 ≤ span t) by (pose proof (part_nn _ _ _ _ _ (links_part _ _ _ _ _ (wf_links _ _ Hwf'))); pose proof (pt_span _ _ _ _ _ (links_part _ _ _ _ _ (wf_links _ _ Hwf'))); lia).
  wp_step. unfold with_ram. wp_step; [done|]. eapply wp_mono; [apply memset_spec; eapply mapped_sub; [exact Hmap|lia|lia]|].
  intros r m' [-> ->]. wp_step. set (zs := replicate _ _). change (u8 0) with 0 in zs. set (r1 := mem_write _ zs _).
  assert (Hz : alen zs = count * size) by (unfold zs; rewrite length_replicate; lia).
  assert (Hout : forall x, x < span l1 + 6 \/ span l1 + 6 + count * size ≤ x -> r1 !! x = ram s1 !! x).
  { intros x [Hx|Hx]; [by apply mem_write_lookup_lt|apply mem_write_lookup_ge; lia]. }
  assert (Hout' : forall x, x < span l1 + 6 \/ span l1 + 6 + n ≤ x -> r1 !! x = ram s1 !! x) by (intros x Hx; apply Hout; lia).
  exists (l1 ++ (n, true) :: t), (mem_read r1 (span l1 + 6) (Z.to_nat n)). split; [by apply heap_wf_data; [..|apply mapped_mem_write]|].
  split; [eapply fresh_length; [exact Hfr|rewrite length_mem_read; lia]|]. split.
  - exists (drop (Z.to_nat (count * size)) (mem_read r1 (span l1 + 6) (Z.to_nat n))).
    rewrite <- (take_drop (Z.to_nat (count * size)) (mem_read r1 (span l1 + 6) (Z.to_nat n))) at 1. f_equal.
    rewrite mem_read_take by lia. fold zs. replace (Z.to_nat (count * size)) with (length zs) by lia. apply mem_read_write.
  - cbn [ram set_ram]. rewrite (contents_data s1 r1) by done. by rewrite Hcon, insert_insert_eq.
Qed.

Lemma mem_free_sim s l p :
  heap_wf s l -> is_Some (contents (ram s) (live 0 l) !! p) ->
  wp (mem_free (Some p)) (fun _ s' => exists l', heap_wf s' l' /\
    contents (ram s') (live 0 l') = delete p (contents (ram s) (live 0 l))) s.
Proof.
  intros Hwf [bs Hp]. destruct (heap_rep_block _ _ _ _ Hwf Hp) as (l1 & n & t & -> & -> & _ & _ & _).
  pose proof (live_NoDup _ _ _ _ (lk_seg _ _ (wf_links _ _ Hwf))) as Hnd. rewrite live_app in Hnd |- *. cbn [live app] in Hnd |- *. rewrite Z.add_0_l in *.
  eapply wp_mono; [by apply mem_free_spec|]. intros _ s' (l' & Hwf' & Hlv & Hk). exists l'. split; [done|].
  destruct (contents_add (ram s) _ _ _ _ Hnd) as [-> Hnone]. rewrite delete_insert_id by done. rewrite (contents_keeps _ _ _ Hk). by rewrite Hlv.
Qed.

Lemma mem_trim_sim s l p new_size :
  heap_wf s l -> op_ok (contents (ram s) (live 0 l)) (Trim p new_size) ->
  wp (mem_trim p new_size) (fun r s' => r = Some p /\ exists l' bs n, heap_wf s' l' /\
    contents (ram s) (live 0 l) !! p = Some bs /\ new_size ≤ Z.of_nat n /\ (n ≤ length bs)%nat /\
    contents (ram s') (live 0 l') = <[p := take n bs]> (contents (ram s) (live 0 l))) s.
Proof.
  intros Hwf (bs & Hp & Hn0 & Hle & Hlast). destruct (heap_rep_block _ _ _ _ Hwf Hp) as (l1 & n & t & -> & -> & Hn12 & En & Ebs).
  pose proof (live_NoDup _ _ _ _ (lk_seg _ _ (wf_links _ _ Hwf))) as Hnd. rewrite live_app in Hnd, Hp |- *.
  cbn [live app] in Hnd, Hp |- *. rewrite Z.add_0_l in *.
  eapply wp_mono; [apply (mem_trim_spec _ _ _ _ _ Hwf); [done|lia|]|].
  { intros ->. pose proof (links_bounds _ _ _ (wf_links _ _ Hwf)) as (_ & Hsp & _). cbn [span] in Hsp.
    change MEM_SIZE_ALIGNED with 1600 in Hlast. change SIZEOF_STRUCT_MEM with 6 in Hlast. change MIN_SIZE_ALIGNED with 12 in Hlast. lia. }
  intros r s' (-> & m & l' & Hwf' & Hm & Hlv & Hk). split; [done|]. exists l', bs, (Z.to_nat m). split; [done|]. split; [done|].
  split; [lia|]. split; [lia|]. rewrite (contents_keeps _ _ _ Hk), Hlv.
  pose proof (live_NoDup _ _ _ _ (lk_seg _ _ (wf_links _ _ Hwf'))) as Hnd'. rewrite Hlv in Hnd'.
  destruct (contents_add (ram s) _ _ _ _ Hnd') as [-> _]. destruct (contents_add (ram s) _ _ _ _ Hnd) as [-> _].
  rewrite insert_insert_eq. f_equal. rewrite Ebs. by rewrite mem_read_take by lia.
Qed.

Lemma store_sim s l p bs (i : nat) v :
  heap_wf s l -> contents (ram s) (live 0 l) !! p = Some bs -> (i < length bs)%nat ->
  wp (with_ram (store (p + Z.of_nat i) v)) (fun _ s' => exists l', heap_wf s' l' /\
    contents (ram s') (live 0 l') = <[p := <[i := v]> bs]> (contents (ram s) (live 0 l))) s.
Proof.
  intros Hwf Hp Hi. destruct (heap_rep_block _ _ _ _ Hwf Hp) as (l1 & n & t & -> & -> & Hn12 & En & Ebs).
  pose proof (lk_map _ _ (wf_links _ _ Hwf)) as Hmap. pose proof (part_nn _ _ _ _ _ (links_part _ _ _ _ _ (wf_links _ _ Hwf))) as Hnn.
  pose proof (links_bounds _ _ _ (wf_links _ _ Hwf)) as (H0 & _ & _).
  apply wp_with_ram_store; [apply (Hmap (span l1 + 6 + Z.of_nat i)); lia|].
  assert (Hout : forall x, x < span l1 + 6 \/ span l1 + 6 + n ≤ x -> <[span l1 + 6 + Z.of_nat i := v]> (ram s) !! x = ram s !! x).
  { intros x Hx. apply lookup_insert_ne. lia. }
  exists (l1 ++ (n, true) :: t). split; [by apply heap_wf_data; [..|apply mapped_insert]|]. cbn [ram set_ram].
  rewrite (contents_data s) by done. f_equal. rewrite Ebs. apply list_eq. intros k. unfold mem_read. rewrite list_lookup_fmap.
  destruct (decide (k = i)) as [->|Hk].
  - rewrite list_lookup_insert_eq by (rewrite length_fmap, length_seq; lia). rewrite lookup_seq_lt by lia. simpl. by rewrite lookup_insert_eq.
  - rewrite list_lookup_insert_ne by done. rewrite list_lookup_fmap. destruct (seq 0 (Z.to_nat n) !! k) eqn:E; [|done].
    apply lookup_seq in E as [-> _]. simpl. by rewrite lookup_insert_ne by lia.
Qed.

(** A gap that no block and no header of a block uses lies in one free block. *)
Lemma gap_fits r p o l f size g :
  seg r p o l -> coalesced f l -> 12 ≤ size -> o ≤ g -> g + 6 + size ≤ o + span l ->
  (forall q n, (q, n) ∈ live o l -> q + n ≤ g \/ g + 6 + size ≤ q - 6) -> first_fit size o l ≠ None.
Proof.
  revert p o f. induction l as [|[n u] l IH]; intros p o f Hs Hc Hsz Hg Hend Hgap; [simpl in Hend; lia|].
  destruct Hs as (_ & Hn & Hs), Hc as [_ Hc]. cbn [span first_fit live] in *.
  assert (Hnext : o + 6 + n ≤ g -> first_fit size (o + 6 + n) l ≠ None).
  { intros Hle. eapply (IH _ _ _ Hs Hc); [done|done|lia|]. intros q m Hq. apply Hgap, elem_of_app. by right. }
  destruct u; simpl.
  - apply Hnext. specialize (Hgap (o + 6) n ltac:(left)). lia.
  - destruct (Z.leb_spec size n) as [Hf|Hf]; [done|]. apply Hnext. destruct (decide (o + 6 + n ≤ g)) as [Hle|Hle]; [done|].
    destruct l as [|[m v] l]; [simpl in Hend; lia|]. destruct Hc as [Hv _]. rewrite Hv in * by done. cbn [live] in Hgap.
    specialize (Hgap (o + 6 + n + 6) m). simpl in Hgap. specialize (Hgap ltac:(left)). destruct Hs as (_ & Hm & _). lia.
Qed.

(** (C7) The heap refines the view of its clients.  After the initialisation no block is in
    use.  From then on every operation that respects the obligations returns, without a
    failed assertion, and acts on the view as specified: a new block lies in the heap, overlaps
    no block that is in use and is at least as long as requested, and the contents of
    all other blocks stay. *)
Theorem mem_heap_refines :
  (forall s, mapped (ram s) 0 1612 -> wp mem_init (fun _ s' => heap_rep s' ∅) s) /\
  (forall s A o, heap_rep s A -> op_ok A o ->
    wp (run_heap_op o) (fun r s' => exists A', heap_step A o r A' /\ heap_rep s' A') s).
Proof.
  split.
  - intros s Hm. eapply wp_mono; [by apply mem_init_spec|]. intros [] s' Hwf. by exists [(1594, false)].
  - intros s A o (l & Hwf & ->) Hok. destruct o as [size|count size|p|p new_size|a v]; simpl in Hok |- *.
    + eapply wp_mono; [by apply mem_malloc_sim|]. intros [p|] s'; [|intros ->; eexists; split; [constructor|by exists l]].
      intros (l' & bs & Hwf' & Hfr & Hlen & Hc). eexists. split; [by apply (step_malloc _ size p bs)|]. by exists l'.
    + destruct Hok as [Hc Hs]. eapply wp_mono; [by apply mem_calloc_sim|]. intros [p|] s'; [|intros ->; eexists; split; [constructor|by exists l]].
      intros (l' & bs & Hwf' & Hfr & Hz & E). eexists. split; [by apply (step_calloc _ count size p bs)|]. by exists l'.
    + wp_step. eapply wp_mono; [by apply mem_free_sim|]. intros _ s' (l' & Hwf' & E). wp_step. eexists. split; [constructor|]. by exists l'.
    + eapply wp_mono; [by apply mem_trim_sim|]. intros r s' (-> & l' & bs & n & Hwf' & Hp & Hn & Hnl & E).
      eexists. split; [by apply (step_trim _ p new_size bs n)|]. by exists l'.
    + destruct Hok as (p & bs & i & Hp & Hi & ->). wp_step. eapply wp_mono; [by apply (store_sim s l p bs)|].
      intros _ s' (l' & Hwf' & E). wp_step. eexists. split; [by apply (step_store _ p bs)|]. by exists l'.
Qed.


(** (C26) An allocation succeeds whenever somewhere in the heap there are as many
    bytes in a row as the block and its header take that belong to no block in use. *)
Theorem mem_malloc_complete s A size g :
  heap_rep s A -> 0 < size < 65536 -> 0 ≤ g -> g + SIZEOF_STRUCT_MEM + size `max` MIN_SIZE_ALIGNED ≤ MEM_SIZE_ALIGNED ->
  (forall q bs, A !! q = Some bs ->
    q + alen bs ≤ g \/ g + SIZEOF_STRUCT_MEM + size `max` MIN_SIZE_ALIGNED ≤ q - SIZEOF_STRUCT_MEM) ->
  wp (mem_malloc size) (fun r _ => is_Some r) s.
Proof.
  change SIZEOF_STRUCT_MEM with 6. change MIN_SIZE_ALIGNED with 12. change MEM_SIZE_ALIGNED with 1600.
  intros (l & Hwf & ->) Hsz Hg Hend Hgap. eapply wp_mono; [apply (mem_malloc_spec s l size Hwf); lia|].
  intros [p|] s'; [done|]. intros [_ [->|Hnone]]; [lia|]. pose proof (lk_seg _ _ (wf_links _ _ Hwf)) as Hs.
  exfalso. eapply (gap_fits _ _ _ _ _ (size `max` 12) g Hs (wf_coalesced _ _ Hwf)); [lia|lia| | |exact Hnone].
  - rewrite (lk_span _ _ (wf_links _ _ Hwf)). lia.
  - intros q n Hq. pose proof (live_bounds _ _ _ _ _ _ Hs Hq) as (_ & _ & Hn).
    specialize (Hgap q (mem_read (ram s) q (Z.to_nat n))). rewrite length_mem_read, Z2Nat.id in Hgap by lia. apply Hgap.
    apply contents_lookup; [by eapply live_NoDup|]. eauto.
Qed.

(** Shrinking the last block of the heap fails an assertion as soon as the rest would
    make a block: [mem_trim] asserts that the next header is not the end of the heap. *)
Theorem mem_trim_last_panics s A p bs new_size :
  heap_rep s A -> A !! p = Some bs -> p + alen bs = MEM_SIZE_ALIGNED ->
  0 ≤ new_size -> new_size `max` MIN_SIZE_ALIGNED + SIZEOF_STRUCT_MEM + MIN_SIZE_ALIGNED ≤ alen bs ->
  mem_trim p new_size s = Panic.
Proof.
  intros (l & Hwf & ->) Hp Hend Hnew Hroom. destruct (heap_rep_block _ _ _ _ Hwf Hp) as (l1 & n & t & -> & -> & Hn12 & En & _).
  change SIZEOF_STRUCT_MEM with 6 in *. change MIN_SIZE_ALIGNED with 12 in *. change MEM_SIZE_ALIGNED with 1600 in *.
  destruct Hwf as [Hl He _ _]. pose proof (links_part _ _ _ _ _ Hl) as Hpt. destruct (links_hdr _ _ _ _ _ Hl) as [Hh _].
  pose proof (part_prev _ _ _ _ _ Hpt) as [_ H0]. pose proof (lk_end _ _ Hl) as Hh2.
  assert (Enn : span l1 + 6 + n = 1600) by lia. rewrite Enn in Hh.
  unfold mem_trim. rewrite align_size by lia. change (u16 MIN_SIZE_ALIGNED) with 12. change MIN_SIZE_ALIGNED with 12.
  replace (if new_size <? 12 then 12 else new_size) with (new_size `max` 12) by (destruct (Z.ltb_spec new_size 12); lia).
  set (k := new_size `max` 12) in *. change MEM_SIZE_ALIGNED with 1600. change SIZEOF_STRUCT_MEM with 6.
  rewrite (proj2 (Z.ltb_ge 1600 k)), (proj2 (Z.ltb_ge k new_size)) by lia. cbn [orb].
  rewrite (done_bind _ _ s (ram_end s) s) by done. rewrite He. change MEM_SIZE_ALIGNED with 1600.
  rewrite (done_bind _ _ s tt s) by (apply wp_run; apply wp_KASSERT; [apply andb_true_iff; rewrite Z.leb_le, Z.ltb_lt; lia|done]).
  replace (span l1 + 6 - 6) with (span l1) by lia.
  rewrite (done_bind _ _ s 1600 s) by (apply wp_run; by eapply wp_mem_next). unfold mem_to_ptr.
  rewrite (u16_small (span l1)), (u16_small (1600 - span l1)), (u16_small (1600 - span l1 - 6)) by lia.
  replace (1600 - span l1 - 6) with n by lia.
  rewrite (done_bind _ _ s tt s) by (apply wp_run; apply wp_KASSERT; [apply Z.leb_le; lia|done]). rewrite (proj2 (Z.eqb_neq k n)) by lia.
  rewrite (done_bind _ _ s 1 s) by (apply wp_run; by eapply wp_mem_used). cbn [Z.b2z Z.eqb]. rewrite (proj2 (Z.leb_le (k + 6 + 12) n)) by lia.
  apply panic_bind. unfold trim_split. rewrite (done_bind _ _ s 1600 s) by (apply wp_run; by eapply wp_mem_next). by apply panic_bind.
Qed.

End heap.

(** ** The witnesses *)

#[local] Instance heap_order : ByteOrder := true.

(** The heap before its initialisation: zeros. *)
Definition heap_zero : heap := Heap (list_to_map ((fun a => (a, 0)) <$> seqZ 0 1612)) 0 0.

Definition after {A} (m : K heap A) (s : heap) : heap := match m s with Done _ s' => s' | _ => s end.

Definition heap_start : heap := after mem_init heap_zero.
Definition heap_full : heap := after (mem_malloc 1594) heap_start.

Definition heap_one : heap := after (mem_malloc 100) heap_start.

Lemma after_wp {A} (m : K heap A) Q s : wp m Q s -> exists a, Q a (after m s).
Proof. unfold wp, after. destruct (m s); naive_solver. Qed.

Lemma heap_zero_mapped : mapped (ram heap_zero) 0 1612.
Proof.
  intros k Hk. exists 0. apply elem_of_list_to_map_1.
  - rewrite <- list_fmap_compose. apply NoDup_fmap_2; [intros x y E; exact E|apply NoDup_seqZ].
  - apply list_elem_of_fmap. exists (0 + k). split; [done|]. apply elem_of_seqZ. lia.
Qed.

Lemma heap_start_wf : heap_wf heap_start [(1594, false)].
Proof. destruct (after_wp _ _ _ (mem_init_spec heap_zero heap_zero_mapped)) as [_ H]. exact H. Qed.

Lemma heap_start_rep : heap_rep heap_start ∅.
Proof. exists [(1594, false)]. split; [apply heap_start_wf|done]. Qed.

(** One block of the requested size, up to the waste, at the start of the heap. *)
Lemma heap_malloc_rep size : 12 ≤ size ≤ 1594 ->
  exists m, heap_rep (after (mem_malloc size) heap_start) {[6 := mem_read (ram (after (mem_malloc size) heap_start)) 6 (Z.to_nat m)]} /\
    size ≤ m < size + 18 /\ m ≤ 1594.
Proof.
  intros Hsz. destruct (after_wp _ _ _ (mem_malloc_spec _ _ size heap_start_wf ltac:(lia))) as [[p|] H].
  - destruct H as (l1 & n & t & m & l' & El & -> & Hm & _ & Hwf & Hlv & _). exists m.
    destruct l1 as [|b l1]; [|by destruct l1]. simplify_eq/=.
    pose proof (live_bounds _ _ _ l' 6 m (lk_seg _ _ (wf_links _ _ Hwf))) as Hb.
    rewrite (lk_span _ _ (wf_links _ _ Hwf)), Hlv in Hb. specialize (Hb ltac:(left)). split; [|lia].
    exists l'. split; [done|]. rewrite Hlv. unfold contents. simpl. by rewrite insert_empty.
  - destruct H as [_ [->|H]]; [lia|]. simpl in H. destruct (Z.leb_spec (size `max` 12) 1594); [done|lia].
Qed.

Lemma mem_heap_refines_witness :
  wp mem_init (fun _ s' => heap_rep s' ∅) heap_zero /\
  wp (run_heap_op (Malloc 100)) (fun r s' => exists A', heap_step ∅ (Malloc 100) r A' /\ heap_rep s' A') heap_start.
Proof.
  destruct mem_heap_refines as [H1 H2]. split; [exact (H1 heap_zero heap_zero_mapped)|].
  apply (H2 heap_start ∅ (Malloc 100) heap_start_rep). simpl. lia.
Defined.


Lemma mem_malloc_complete_witness : wp (mem_malloc 1200) (fun r _ => is_Some r) heap_one.
Proof.
  destruct (heap_malloc_rep 100 ltac:(lia)) as (m & Hrep & Hm & _).
  apply (mem_malloc_complete heap_one _ 1200 200 Hrep); [lia|lia|vm_compute; congruence|].
  intros q bs [<- <-]%lookup_singleton_Some. left. rewrite length_mem_read. lia.
Defined.

Lemma mem_trim_last_panics_witness : mem_trim 6 100 heap_full = Panic.
Proof.
  destruct (heap_malloc_rep 1594 ltac:(lia)) as (m & Hrep & Hm & Hm').
  apply (mem_trim_last_panics heap_full _ 6 _ 100 Hrep (lookup_singleton_eq _ _)).
  - rewrite length_mem_read. change MEM_SIZE_ALIGNED with 1600. lia.
  - lia.
  - rewrite length_mem_read. change MIN_SIZE_ALIGNED with 12. change SIZEOF_STRUCT_MEM with 6. lia.
Defined.
