(* ===== verification/NicIf.v ===== *)
(** * The interface between the TCP/IP stack and the network card

    [low_level_output] of src/lwip/src/arch/nic_driver_if.c: a frame, which is a chain of
    buffers, is copied into a block of the heap of LwipMem.v, and the driver of the card is
    given the pointer.  The driver is the class [NicDriver].  The bytes that are sent are the
    bytes of the chain; the block is never freed, so that the heap is exhausted after a
    bounded number of frames, and then the copy goes through a null pointer. *)

From stdpp Require Import base gmap list numbers.
From S2P Require Import Prelude.
From S2P Require Import Bytes.
From S2P Require Import LwipString.
From S2P Require Import Chksum.
From S2P Require Import LwipMem.
From S2P Require Import LwipMemSpec.
From S2P Require Import LwipHeap.

Open Scope Z_scope.

(** The driver is passed the length of the frame and its address in the heap, and may read
    the memory. *)
Class NicDriver := {
  nic_state : Type;
  network_send_packet : Z -> option Z -> gmap Z Z -> nic_state -> nic_state;
}.

(** [struct pbuf]: the payloads of the buffers, in the order of the chain, and the [tot_len]
    of the first one. *)
Record pbuf_list := Chain { tot_len : Z; payloads : list (list Z) }.

Record netdev `{NicDriver} := Netdev { nd_heap : heap; nd_nic : nic_state }.

Section output.
Context `{BO : ByteOrder} `{D : NicDriver}.

Definition nd_set_heap (h : heap) (s : netdev) : netdev := Netdev _ h (nd_nic s).
Definition nd_set_nic (n : nic_state) (s : netdev) : netdev := Netdev _ (nd_heap s) n.
Definition with_heap {A} (m : K heap A) : K netdev A := kzoom (fun s => Some (nd_heap s)) nd_set_heap m.

(** [data[data_index++] = ((u8_t * )q->payload)[i]] for the bytes of one buffer. *)
Fixpoint output_bytes (data : option Z) (data_index : Z) (l : list Z) : K netdev Z :=
  match l with
  | [] => mret data_index
  | b :: l =>
      a ← kunwrap data;
      with_heap (with_ram (store (a + data_index) b));;
      output_bytes data (u32 (data_index + 1)) l
  end.

(** [for (q = p; q != NULL; q = q->next)] *)
Fixpoint output_chain (data : option Z) (data_index : Z) (q : list (list Z)) : K netdev Z :=
  match q with
  | [] => mret data_index
  | l :: q => i ← output_bytes data data_index l; output_chain data i q
  end.

(** Without the statistics, which are not built. *)
Definition low_level_output (p : pbuf_list) : K netdev Z :=
  data ← with_heap (mem_calloc (tot_len p) 1);
  _ ← output_chain data 0 (payloads p);
  kmodify (fun s => nd_set_nic (network_send_packet (tot_len p) data (ram (nd_heap s)) (nd_nic s)) s);;
  mret 0.

(** ** Sending a frame *)

(** A chain as the stack builds it: a frame of at least one byte and at most 64 kB. *)
Definition frame_ok (p : pbuf_list) : Prop := tot_len p = alen (concat (payloads p)) /\ 0 < tot_len p < 65536.

Lemma output_chain_flat data i q s : output_chain data i q s = output_bytes data i (concat q) s.
Proof.
  revert i s. induction q as [|l q IH]; intros i s; [done|]. simpl. unfold mbind, K_bind.
  revert i s. induction l as [|b l IHl]; intros i s; simpl; [apply IH|]. unfold mbind, K_bind in *.
  destruct data as [a|]; [|done]. simpl. destruct (with_heap _ s) as [[] s2| | |]; done.
Qed.

(** The bytes are written to the block one after the other. *)
Lemma output_bytes_spec A p done_ l rest s :
  heap_rep (nd_heap s) A -> A !! p = Some (done_ ++ rest) -> (length l ≤ length rest)%nat -> alen done_ + alen l < 2 ^ 32 ->
  wp (output_bytes (Some p) (alen done_) l) (fun _ s' => nd_nic s' = nd_nic s /\
    heap_rep (nd_heap s') (<[p := done_ ++ l ++ drop (length l) rest]> A)) s.
Proof.
  revert A done_ rest s. induction l as [|b l IH]; intros A done_ rest s HA Hp Hlen Hb.
  { simpl. wp_step. split; [done|]. rewrite drop_0, insert_id by done. done. }
  destruct rest as [|x rest]; [simpl in Hlen; lia|]. simpl. wp_step. wp_step. wp_step. destruct HA as (lb & Hwf & ->).
  unfold with_heap. wp_step; [done|]. eapply wp_mono; [eapply (store_sim _ lb p); [exact Hwf|exact Hp|rewrite length_app; simpl; lia]|].
  intros [] h (l' & Hwf' & Hc). rewrite insert_app_r_alt, Nat.sub_diag in Hc by lia. simpl in Hc.
  simpl in Hb. replace (u32 (alen done_ + 1)) with (alen (done_ ++ [b])) by (rewrite u32_small by lia; rewrite length_app; simpl; lia).
  eapply wp_mono; [eapply (IH (contents (ram h) (live 0 l')) (done_ ++ [b]) rest (nd_set_heap h s))|].
  - by exists l'.
  - rewrite Hc, lookup_insert_eq. by rewrite <- app_assoc.
  - simpl in Hlen. lia.
  - rewrite length_app. simpl. lia.
  - intros i s' [Hn Hr]. split; [done|]. rewrite Hc, insert_insert_eq, <- app_assoc in Hr. done.
Qed.

Lemma fresh_new s A p bs : heap_rep s A -> fresh_block A p bs -> 0 < alen bs -> A !! p = None.
Proof.
  intros (l & Hwf & ->) (_ & _ & Hd) Hlen. destruct (contents (ram s) (live 0 l) !! p) as [bs'|] eqn:E; [|done].
  destruct (heap_rep_block _ _ _ _ Hwf E) as (_ & n & _ & _ & _ & Hn & En & _). destruct (Hd _ _ E); lia.
Qed.

Lemma heap_rep_read s A p bs (n : nat) : heap_rep s A -> A !! p = Some bs -> (n ≤ length bs)%nat -> mem_read (ram s) p n = take n bs.
Proof.
  intros (l & Hwf & ->) Hp Hn. destruct (heap_rep_block _ _ _ _ Hwf Hp) as (_ & m & _ & _ & _ & _ & En & ->).
  rewrite length_mem_read in Hn. by rewrite mem_read_take.
Qed.

(** The frame is sent from a new block, or the heap is full. *)
Lemma output_cases p s A :
  heap_rep (nd_heap s) A -> frame_ok p ->
  (exists s' a bs, low_level_output p s = Done 0 s' /\ A !! a = None /\ heap_rep (nd_heap s') (<[a := bs]> A) /\
    mem_read (ram (nd_heap s')) a (Z.to_nat (tot_len p)) = concat (payloads p) /\
    nd_nic s' = network_send_packet (tot_len p) (Some a) (ram (nd_heap s')) (nd_nic s)) \/
  (mem_calloc (tot_len p) 1 (nd_heap s) = Done None (nd_heap s) /\ low_level_output p s = Fault).
Proof.
  intros HA [Hlen Hr]. pose proof HA as (l & Hwf & EA).
  assert (Hc : wp (mem_calloc (tot_len p) 1) (fun r h => match r with
    | None => h = nd_heap s
    | Some a => exists bs', A !! a = None /\ heap_rep h (<[a := replicate (Z.to_nat (tot_len p)) 0 ++ bs']> A) end) (nd_heap s)).
  { eapply wp_mono; [apply (mem_calloc_sim (nd_heap s) l); [exact Hwf|lia|lia]|]. intros [a|] h; [|done].
    rewrite <- EA, Z.mul_1_r. intros (l' & bs & Hwf' & Hfr & (bs' & ->) & Hcon). exists bs'. split.
    - eapply fresh_new; [exact HA|exact Hfr|]. rewrite length_app, length_replicate. lia.
    - exists l'. by rewrite Hcon. }
  apply wp_returns in Hc as ([a|] & h & E & Hcase).
  - left. destruct Hcase as (bs' & Hnew & Hrep).
    assert (Hw : wp (output_chain (Some a) 0 (payloads p)) (fun _ s' => nd_nic s' = nd_nic s /\
      heap_rep (nd_heap s') (<[a := concat (payloads p) ++ bs']> A)) (nd_set_heap h s)).
    { unfold wp. rewrite output_chain_flat.
      pose proof (output_bytes_spec _ a [] (concat (payloads p)) (replicate (Z.to_nat (tot_len p)) 0 ++ bs') (nd_set_heap h s) Hrep) as Hb.
      unfold wp in Hb. simpl in Hb. rewrite lookup_insert_eq, insert_insert_eq, drop_app_length' in Hb by (rewrite length_replicate; lia).
      apply Hb; [done|rewrite length_app, length_replicate; lia|lia]. }
    apply wp_returns in Hw as (i & s1 & E1 & Hn1 & Hr1).
    exists (nd_set_nic (network_send_packet (tot_len p) (Some a) (ram (nd_heap s1)) (nd_nic s1)) s1), a, (concat (payloads p) ++ bs').
    split; [|split; [done|split; [done|split; [|by rewrite Hn1]]]].
    + unfold low_level_output. erewrite done_bind; [|unfold with_heap, kzoom; by rewrite E]. by erewrite done_bind.
    + simpl. erewrite heap_rep_read; [|exact Hr1|by rewrite lookup_insert_eq|rewrite length_app; lia]. by rewrite take_app_length' by lia.
  - right. subst h. split; [done|]. unfold low_level_output. erewrite done_bind; [|unfold with_heap, kzoom; by rewrite E].
    apply fault_bind. rewrite output_chain_flat. destruct (concat (payloads p)) as [|b bs]; [simpl in Hlen; lia|done].
Qed.

(** ** How many frames can be sent *)

(** A header and the least block take 18 of the 1600 bytes. *)
Definition frames_max : nat := 88.

Lemma heap_rep_size s A : heap_rep s A -> (size A ≤ frames_max)%nat.
Proof.
  intros (l & Hwf & ->). pose proof (lk_seg _ _ (wf_links _ _ Hwf)) as Hs. pose proof (lk_span _ _ (wf_links _ _ Hwf)) as Hsp.
  pose proof (seg_span _ _ _ _ Hs) as [_ Hl]. unfold contents. rewrite map_size_list_to_map by (rewrite contents_fst; by eapply live_NoDup).
  rewrite length_fmap. assert (Hlive : (length (live 0 l) ≤ length l)%nat).
  { clear. generalize 0 as o. induction l as [|[n u] l IH]; intros o; simpl; [lia|]. rewrite length_app. specialize (IH (o + 6 + n)). destruct u; simpl; lia. }
  unfold frames_max. lia.
Qed.


(** (C40) The interface can send at most 88 frames: low_level_output never frees the block of a
    frame, and when the heap is full it writes the frame through the null pointer. *)
Theorem nic_output_exhausts ps s A :
  heap_rep (nd_heap s) A -> Forall frame_ok ps -> (frames_max < size A + length ps)%nat ->
  kseq (map low_level_output ps) s = Fault.
Proof.
  intros HA Hps. revert s A HA. induction Hps as [|p ps Hp Hps IH]; intros s A HA Hlen.
  { pose proof (heap_rep_size _ _ HA). simpl in Hlen. lia. }
  simpl. destruct (output_cases p s A HA Hp) as [(s' & a & bs & E & Hnew & HA' & _)|[_ E]]; [|by apply fault_bind].
  erewrite done_bind by exact E. apply fault_bind. eapply IH; [exact HA'|]. rewrite map_size_insert_None by done. simpl in Hlen. lia.
Qed.

End output.

(** ** A concrete card, which records the frames that it is given *)

#[local] Existing Instance heap_order.

Definition nic_log : NicDriver := {|
  nic_state := list (list Z);
  network_send_packet := fun n a m l => match a with Some a => l ++ [mem_read m a (Z.to_nat n)] | None => l end;
|}.
#[local] Existing Instance nic_log.

Definition nic_start : netdev := Netdev nic_log heap_start [].
Definition frame_three : pbuf_list := Chain 3 [[1; 2]; [3]].

Definition is_null (o : outcome heap (option Z)) : bool := match o with Done None _ => true | _ => false end.

Lemma frame_three_ok : frame_ok frame_three.
Proof. split; vm_compute; done. Qed.


Lemma nic_output_exhausts_witness : kseq (map low_level_output (replicate 89 frame_three)) nic_start = Fault.
Proof.
  apply (nic_output_exhausts (replicate 89 frame_three) nic_start ∅); [apply heap_start_rep| |].
  - apply Forall_replicate, frame_three_ok.
  - rewrite map_size_empty, length_replicate. unfold frames_max. lia.
Defined.
