(* ===== verification/LwipTimers.v ===== *)
(** * The timers of the TCP/IP stack

    src/lwip/src/core/timeouts.c with the pool of core/memp.c from which the timeouts
    come, in the configuration of the kernel (NO_SYS, three cyclic timers).  A linked list
    is the list of its elements; an element of the pool is its number.  Times are words of
    32 bits that wrap around.  The protocols, whose timers the module runs, and the clock
    are the class [NetStack]: a state, its timers, whether TCP has connections, and
    [sys_now].  A failed [LWIP_ASSERT] is a panic. *)

From stdpp Require Import base list numbers.
From S2P Require Import Prelude.
From S2P Require Import Bytes.

Open Scope Z_scope.

(** ** The protocols *)

Inductive stack_timer := tcp_tmr | ip_reass_tmr | etharp_tmr.

Class NetStack := {
  prot : Type;
  sys_now : prot -> Z;
  stack_tmr : stack_timer -> prot -> prot;
  (** [tcp_active_pcbs || tcp_tw_pcbs] *)
  tcp_pcbs : prot -> bool;
  pbuf_check_free_ooseq : prot -> prot;
}.

(** ** Data *)

Definition TCP_TMR_INTERVAL : Z := 250.
Definition IP_TMR_INTERVAL : Z := 1000.
Definition ARP_TMR_INTERVAL : Z := 1000.
Definition LWIP_MAX_TIMEOUT : Z := 0x7fffffff.
Definition LWIP_UINT32_MAX : Z := 0xffffffff.
Definition SYS_TIMEOUTS_SLEEPTIME_INFINITE : Z := 0xffffffff.

(** [LWIP_TCP + IP_REASSEMBLY + LWIP_ARP], the other modules are not built. *)
Definition MEMP_NUM_SYS_TIMEOUT : Z := 1 + 1 + 1.

Record cyclic := Cyclic { interval_ms : Z; cyclic_handler : stack_timer }.

Definition lwip_cyclic_timers : list cyclic :=
  [Cyclic TCP_TMR_INTERVAL tcp_tmr; Cyclic IP_TMR_INTERVAL ip_reass_tmr; Cyclic ARP_TMR_INTERVAL etharp_tmr].

(** The handlers that the module schedules; the argument of [H_lwip_cyclic_timer] points
    to an element of [lwip_cyclic_timers] and is its index. *)
Inductive timeout_handler := H_lwip_cyclic_timer | H_tcpip_tcp_timer.

#[export] Instance timeout_handler_eq_dec : EqDecision timeout_handler.
Proof. solve_decision. Defined.

Record sys_timeo := Timeo { t_time : Z; t_h : option timeout_handler; t_arg : Z; t_memp : Z }.

Record timers `{NetStack} := Timers {
  next_timeout : list sys_timeo;
  current_timeout_due_time : Z;
  tcpip_tcp_timer_active : bool;
  memp_tab : list Z;
  net : prot;
}.

Definition TIME_LESS_THAN (t compare_to : Z) : bool := LWIP_MAX_TIMEOUT <? u32 (t - compare_to).

Section timeouts.
Context `{N : NetStack}.

Definition set_next_timeout (l : list sys_timeo) (s : timers) : timers :=
  Timers _ l (current_timeout_due_time s) (tcpip_tcp_timer_active s) (memp_tab s) (net s).
Definition set_due_time (d : Z) (s : timers) : timers :=
  Timers _ (next_timeout s) d (tcpip_tcp_timer_active s) (memp_tab s) (net s).
Definition set_tcp_active (b : bool) (s : timers) : timers :=
  Timers _ (next_timeout s) (current_timeout_due_time s) b (memp_tab s) (net s).
Definition set_memp_tab (l : list Z) (s : timers) : timers :=
  Timers _ (next_timeout s) (current_timeout_due_time s) (tcpip_tcp_timer_active s) l (net s).
Definition set_net (p : prot) (s : timers) : timers :=
  Timers _ (next_timeout s) (current_timeout_due_time s) (tcpip_tcp_timer_active s) (memp_tab s) p.

(** ** The pool of timeouts *)

Definition memp_init_pool (num : Z) : K timers unit :=
  kmodify (set_memp_tab (fold_left (fun tab i => i :: tab) (seqZ 0 num) [])).

Definition memp_malloc : K timers (option Z) :=
  tab ← kgets memp_tab;
  match tab : list Z with
  | [] => mret None
  | memp :: tab' => kmodify (set_memp_tab tab');; mret (Some memp)
  end.

Definition memp_free (memp : Z) : K timers unit :=
  kmodify (fun s => set_memp_tab (memp :: memp_tab s) s).

(** ** Setting a timeout *)

(** [for (t = next_timeout; t != NULL; t = t->next)] *)
Fixpoint insert_after (timeout : sys_timeo) (t : list sys_timeo) : list sys_timeo :=
  match t with
  | [] => []
  | t0 :: next =>
      match next with
      | [] => t0 :: [timeout]
      | t1 :: _ =>
          if TIME_LESS_THAN (t_time timeout) (t_time t1) then t0 :: timeout :: next
          else t0 :: insert_after timeout next
      end
  end.

Definition sys_timeout_abs (abs_time : Z) (handler : option timeout_handler) (arg : Z) : K timers unit :=
  o ← memp_malloc;
  match o : option Z with
  | None => kpanic
  | Some memp =>
      let timeout := Timeo abs_time handler arg memp in
      l ← kgets next_timeout;
      match l : list sys_timeo with
      | [] => kmodify (set_next_timeout [timeout])
      | t0 :: _ =>
          if TIME_LESS_THAN (t_time timeout) (t_time t0) then kmodify (set_next_timeout (timeout :: l))
          else kmodify (set_next_timeout (insert_after timeout l))
      end
  end.

Definition sys_timeout (msecs : Z) (handler : option timeout_handler) (arg : Z) : K timers unit :=
  KASSERT (msecs <=? LWIP_UINT32_MAX `div` 4);;
  now ← kgets (fun s => sys_now (net s));
  sys_timeout_abs (u32 (now + msecs)) handler arg.

(** ** The handlers *)

Definition tcpip_tcp_timer : K timers unit :=
  kmodify (fun s => set_net (stack_tmr tcp_tmr (net s)) s);;
  b ← kgets (fun s => tcp_pcbs (net s));
  if b : bool then sys_timeout TCP_TMR_INTERVAL (Some H_tcpip_tcp_timer) 0 else kmodify (set_tcp_active false).

Definition tcp_timer_needed : K timers unit :=
  active ← kgets tcpip_tcp_timer_active;
  b ← kgets (fun s => tcp_pcbs (net s));
  if negb active && b then kmodify (set_tcp_active true);; sys_timeout TCP_TMR_INTERVAL (Some H_tcpip_tcp_timer) 0
  else mret tt.

Definition lwip_cyclic_timer (arg : Z) : K timers unit :=
  c ← kunwrap (aget lwip_cyclic_timers arg);
  kmodify (fun s => set_net (stack_tmr (cyclic_handler c) (net s)) s);;
  now ← kgets (fun s => sys_now (net s));
  due ← kgets current_timeout_due_time;
  let next_timeout_time := u32 (due + interval_ms c) in
  if TIME_LESS_THAN next_timeout_time now
  then sys_timeout_abs (u32 (now + interval_ms c)) (Some H_lwip_cyclic_timer) arg
  else sys_timeout_abs next_timeout_time (Some H_lwip_cyclic_timer) arg.

Definition call_handler (h : timeout_handler) (arg : Z) : K timers unit :=
  match h with H_lwip_cyclic_timer => lwip_cyclic_timer arg | H_tcpip_tcp_timer => tcpip_tcp_timer end.

(** [tcp_tmr] at index 0 is started on demand. *)
Definition sys_timeouts_init : K timers unit :=
  kfor (length lwip_cyclic_timers - 1) 1 (fun i (_ : unit) =>
    c ← kunwrap (aget lwip_cyclic_timers i);
    sys_timeout (interval_ms c) (Some H_lwip_cyclic_timer) i;;
    mret (tt, false)) tt.

(** ** Removing a timeout *)

Fixpoint untimeout_find (handler : option timeout_handler) (arg : Z) (l : list sys_timeo) : option (sys_timeo * list sys_timeo) :=
  match l with
  | [] => None
  | t :: l' =>
      if bool_decide (t_h t = handler) && (t_arg t =? arg) then Some (t, l')
      else '(x, r) ← untimeout_find handler arg l'; Some (x, t :: r)
  end.

Definition sys_untimeout (handler : option timeout_handler) (arg : Z) : K timers unit :=
  l ← kgets next_timeout;
  match untimeout_find handler arg l with
  | Some (t, l') => kmodify (set_next_timeout l');; memp_free (t_memp t)
  | None => mret tt
  end.

(** ** Running the timeouts *)

(** [do ... while (1)]; the loop that does more than [fuel] rounds does not end. *)
Fixpoint check_loop (fuel : nat) (now : Z) : K timers unit :=
  match fuel with
  | O => khang
  | S fuel =>
      kmodify (fun s => set_net (pbuf_check_free_ooseq (net s)) s);;
      l ← kgets next_timeout;
      match l : list sys_timeo with
      | [] => mret tt
      | tmptimeout :: next =>
          if TIME_LESS_THAN now (t_time tmptimeout) then mret tt else
          kmodify (set_next_timeout next);;
          kmodify (set_due_time (t_time tmptimeout));;
          memp_free (t_memp tmptimeout);;
          (match t_h tmptimeout with Some h => call_handler h (t_arg tmptimeout) | None => mret tt end);;
          check_loop fuel now
      end
  end.

Definition sys_check_timeouts (fuel : nat) : K timers unit :=
  now ← kgets (fun s => sys_now (net s));
  check_loop fuel now.

Definition sys_restart_timeouts : K timers unit :=
  l ← kgets next_timeout;
  match l : list sys_timeo with
  | [] => mret tt
  | t0 :: _ =>
      now ← kgets (fun s => sys_now (net s));
      let base := t_time t0 in
      kmodify (set_next_timeout
        (map (fun t => Timeo (u32 (u32 (t_time t - base) + now)) (t_h t) (t_arg t) (t_memp t)) l))
  end.

Definition sys_timeouts_sleeptime : K timers Z :=
  l ← kgets next_timeout;
  match l : list sys_timeo with
  | [] => mret SYS_TIMEOUTS_SLEEPTIME_INFINITE
  | t0 :: _ =>
      now ← kgets (fun s => sys_now (net s));
      if TIME_LESS_THAN (t_time t0) now then mret 0 else
      let ret := u32 (t_time t0 - now) in
      KASSERT (ret <=? LWIP_MAX_TIMEOUT);;
      mret ret
  end.

End timeouts.
