(* ===== verification/LwipTimersSpec.v ===== *)
(** * Correctness of the timers of the TCP/IP stack

    The words of LwipTimers.v refine a queue of timeouts with unbounded times, ordered by
    the time at which they are due ([timers_ok]), as long as [sys_check_timeouts] is called
    often enough.  [a_check] is what a call does to that queue; it ends, runs what is due in
    order and leaves only what is due later.  In the configuration of the kernel the pool
    of timeouts is never empty when a timeout is set. *)

From stdpp Require Import base list numbers sorting.
From S2P Require Import Prelude.
From S2P Require Import Bytes.
From S2P Require Import LwipTimers.

Open Scope Z_scope.

(** ** The clock *)

(** How long a timer of a protocol may take, in milliseconds. *)
Definition HANDLER_MAX : Z := 2 ^ 24.
(** How far ahead the timeouts of the module are set. *)
Definition AHEAD_MAX : Z := 1000.

(** [clock] is the time that does not wrap around. *)
Class NetStackLaws (N : NetStack) := {
  clock : prot -> Z;
  sys_now_clock p : sys_now p = u32 (clock p);
  tmr_clock k p : clock p ≤ clock (stack_tmr k p) ≤ clock p + HANDLER_MAX;
  ooseq_clock p : clock p ≤ clock (pbuf_check_free_ooseq p) ≤ clock p + HANDLER_MAX;
}.

(** ** The queue *)

(** When it is due, the handler and its argument. *)
Abbreviation entry := (Z * (timeout_handler * Z))%type.
Implicit Types (e : entry) (q : list entry).

Fixpoint a_insert e q : list entry :=
  match q with
  | [] => [e]
  | e' :: q' => if e.1 <? e'.1 then e :: q else e' :: a_insert e q'
  end.

Definition before e e' : Prop := e.1 ≤ e'.1.

Section queue.
Context `{N : NetStack} {NL : NetStackLaws N}.

(** The queue, whether the timer of TCP runs, and the state of the protocols. *)
Definition a_fire e (q : list entry) (act : bool) (p : prot) : list entry * bool * prot :=
  match e.2 with
  | (H_lwip_cyclic_timer, i) =>
      match aget lwip_cyclic_timers i with
      | None => (q, act, p)
      | Some c =>
          let p' := stack_tmr (cyclic_handler c) p in
          let next := e.1 + interval_ms c in
          (a_insert (if next <? clock p' then clock p' + interval_ms c else next, e.2) q, act, p')
      end
  | (H_tcpip_tcp_timer, _) =>
      let p' := stack_tmr tcp_tmr p in
      if tcp_pcbs p' then (a_insert (clock p' + TCP_TMR_INTERVAL, (H_tcpip_tcp_timer, 0)) q, act, p') else (q, false, p')
  end.

(** The timeouts that are run, and what is left; [None] if [n] rounds are not enough. *)
Fixpoint a_check (n : nat) (now : Z) (q : list entry) (act : bool) (p : prot) : option (list entry * (list entry * bool * prot)) :=
  match n with
  | O => None
  | S n =>
      let p := pbuf_check_free_ooseq p in
      match q with
      | [] => Some ([], ([], act, p))
      | e :: q' =>
          if now <? e.1 then Some ([], (q, act, p)) else
          let '(q2, act2, p2) := a_fire e q' act p in
          '(fired, r) ← a_check n now q2 act2 p2;
          Some (e :: fired, r)
      end
  end.

(** The timeouts of the module: the two cyclic timers, and the timer of TCP while it runs. *)
Definition module_keys (act : bool) : list (timeout_handler * Z) :=
  (if act then [(H_tcpip_tcp_timer, 0)] else []) ++ [(H_lwip_cyclic_timer, 1); (H_lwip_cyclic_timer, 2)].

Definition keys_ok q act : Prop := q.*2 ≡ₚ module_keys act.

(** ** Facts about the queue *)

Lemma a_insert_perm e q : a_insert e q ≡ₚ e :: q.
Proof.
  induction q as [|e' q IH]; simpl; [done|]. destruct (e.1 <? e'.1); [done|]. rewrite IH. by rewrite Permutation_swap.
Qed.

Lemma a_insert_sorted e q : StronglySorted before q -> StronglySorted before (a_insert e q).
Proof.
  induction 1 as [|e' q Hs IH Hf]; simpl; [by repeat constructor|]. destruct (e.1 <? e'.1) eqn:E.
  - apply Z.ltb_lt in E. constructor; [by constructor|]. constructor; [unfold before; lia|].
    eapply Forall_impl; [exact Hf|]. unfold before. intros x Hx. lia.
  - apply Z.ltb_ge in E. constructor; [done|]. rewrite a_insert_perm. by constructor.
Qed.

Lemma keys_cyclic i act q e :
  keys_ok (e :: q) act -> e.2 = (H_lwip_cyclic_timer, i) ->
  exists c, aget lwip_cyclic_timers i = Some c /\ 0 < interval_ms c ≤ AHEAD_MAX.
Proof.
  intros Hk He. assert (Hin : e.2 ∈ module_keys act) by (rewrite <- Hk; simpl; by left).
  rewrite He in Hin. assert (Hi : i = 1 \/ i = 2) by (unfold module_keys in Hin; destruct act; set_solver).
  destruct Hi as [-> | ->]; (eexists; split; [reflexivity|]); unfold AHEAD_MAX; simpl; unfold IP_TMR_INTERVAL, ARP_TMR_INTERVAL; lia.
Qed.

Lemma keys_tcp j act q e : keys_ok (e :: q) act -> e.2 = (H_tcpip_tcp_timer, j) -> j = 0 /\ act = true /\ keys_ok q false.
Proof.
  intros Hk He. assert (Hin : e.2 ∈ module_keys act) by (rewrite <- Hk; simpl; by left).
  rewrite He in Hin. unfold module_keys in Hin. destruct act; [|set_solver]. assert (j = 0) as -> by set_solver.
  split; [done|]. split; [done|]. unfold keys_ok in Hk. simpl in Hk. rewrite He in Hk. by apply Permutation_cons_inv in Hk.
Qed.

(** How often a timeout can still run during a call at time [now]. *)
Definition rounds (now : Z) e : nat := if e.1 <? now then 2 else if e.1 =? now then 1 else 0.

Definition rounds_left (now : Z) q : nat := sum_list_with (rounds now) q.

Lemma rounds_insert now e q : rounds_left now (a_insert e q) = (rounds now e + rounds_left now q)%nat.
Proof. unfold rounds_left. induction q as [|e' q IH]; simpl; [lia|]. destruct (e.1 <? e'.1); simpl; lia. Qed.

Lemma rounds_later now e d k : e.1 ≤ now -> now < d -> (rounds now (d, k) < rounds now e)%nat.
Proof. intros He Hd. unfold rounds. simpl. replace (d <? now) with false by lia. replace (d =? now) with false by lia. destruct (e.1 <? now) eqn:E; [lia|]. replace (e.1 =? now) with true by lia. lia. Qed.

Lemma rounds_again now e d k : e.1 < d -> e.1 ≤ now -> now ≤ d -> (rounds now (d, k) < rounds now e)%nat.
Proof.
  intros Hd He Hn. destruct (decide (d = now)) as [->|]; [|apply rounds_later; lia]. unfold rounds. simpl.
  replace (now <? now) with false by lia. rewrite Z.eqb_refl. replace (e.1 <? now) with true by lia. lia.
Qed.

(** What running a timeout that is due leads to. *)
Lemma a_fire_spec now e q act p q2 act2 p2 :
  keys_ok (e :: q) act -> e.1 ≤ now -> now ≤ clock p -> a_fire e q act p = (q2, act2, p2) ->
  keys_ok q2 act2 /\ clock p ≤ clock p2 ≤ clock p + HANDLER_MAX /\ (rounds_left now q2 < rounds_left now (e :: q))%nat /\
  (q2 = q \/ exists d k, q2 = a_insert (d, k) q /\ e.1 ≤ d ≤ clock p2 + AHEAD_MAX).
Proof.
  intros Hk He Hn. unfold a_fire. destruct e as [d [[] i]] eqn:Ee; simpl in *.
  - destruct (keys_cyclic _ _ _ _ Hk eq_refl) as (c & -> & Hc). pose proof (tmr_clock (cyclic_handler c) p). intros [= <- <- <-].
    split; [unfold keys_ok; rewrite a_insert_perm; exact Hk|]. split; [lia|]. split.
    + rewrite rounds_insert. apply Nat.add_lt_mono_r. destruct (_ <? _) eqn:E; [apply rounds_later|apply rounds_again]; simpl; lia.
    + right. eexists _, _. split; [done|]. destruct (_ <? _) eqn:E; lia.
  - destruct (keys_tcp _ _ _ _ Hk eq_refl) as (-> & -> & Hq). pose proof (tmr_clock tcp_tmr p). destruct (tcp_pcbs _); intros [= <- <- <-].
    + split; [unfold keys_ok; rewrite a_insert_perm; exact Hk|]. split; [lia|]. split.
      * rewrite rounds_insert. apply Nat.add_lt_mono_r, (rounds_later now (d, _)); simpl; unfold TCP_TMR_INTERVAL; lia.
      * right. eexists _, _. split; [done|]. unfold AHEAD_MAX, TCP_TMR_INTERVAL. lia.
    + split; [done|]. split; [lia|]. split; [|by left].
      change (rounds_left now ((d, (H_tcpip_tcp_timer, 0)) :: q)) with (rounds now (d, (H_tcpip_tcp_timer, 0)) + rounds_left now q)%nat.
      pose proof (rounds_later now (d, (H_tcpip_tcp_timer, 0)) (now + 1) (H_tcpip_tcp_timer, 0) He). lia.
Qed.

(** A call at time [now] ends, runs what is due in order and leaves what is due later. *)
Lemma a_check_spec n now q act p :
  keys_ok q act -> StronglySorted before q -> now ≤ clock p -> (rounds_left now q < n)%nat ->
  exists fired q' act' p', a_check n now q act p = Some (fired, (q', act', p')) /\
    keys_ok q' act' /\ StronglySorted before q' /\ Forall (fun e => now < e.1) q' /\
    StronglySorted before fired /\ Forall (fun e => e.1 ≤ now) fired /\
    (forall e, e ∈ q -> e.1 ≤ now -> e ∈ fired) /\
    (forall lo, Forall (fun e => lo ≤ e.1) q -> Forall (fun e => lo ≤ e.1) fired).
Proof.
  revert q act p. induction n as [|n IH]; intros q act p Hk Hs Hn Hr; [lia|]. pose proof (ooseq_clock p) as Ho. simpl.
  destruct q as [|e q]; [by eexists _, _, _, _|]. destruct (now <? e.1) eqn:E.
  { apply Z.ltb_lt in E. assert (Hall : Forall (fun e => now < e.1) (e :: q)).
    { constructor; [done|]. apply StronglySorted_inv in Hs as [_ Hf]. eapply Forall_impl; [exact Hf|]. unfold before. intros x Hx. lia. }
    eexists _, _, _, _. split; [done|]. split; [done|]. split; [done|]. split; [done|]. split; [constructor|]. split; [constructor|].
    split; [|by constructor]. rewrite Forall_forall in Hall. intros x Hx Hle. specialize (Hall x Hx). lia. }
  apply Z.ltb_ge in E. destruct (a_fire e q act (pbuf_check_free_ooseq p)) as [[q2 act2] p2] eqn:Ef.
  assert (Hn' : now ≤ clock (pbuf_check_free_ooseq p)) by lia.
  destruct (a_fire_spec now _ _ _ _ _ _ _ Hk E Hn' Ef) as (Hk2 & Hc2 & Hr2 & Hq2). apply StronglySorted_inv in Hs as [Hs Hf].
  assert (Hs2 : StronglySorted before q2) by (destruct Hq2 as [->|(d & k & -> & _)]; [done|by apply a_insert_sorted]).
  assert (Hlo : Forall (fun x => e.1 ≤ x.1) q2) by (destruct Hq2 as [->|(d & k & -> & Hd)]; [done|rewrite a_insert_perm; constructor; [simpl; lia|done]]).
  destruct (IH q2 act2 p2 Hk2 Hs2 ltac:(lia) ltac:(lia)) as (fired & q' & act' & p' & -> & Hk' & Hs' & Hl & Hsf & Hff & Hin & Hb).
  eexists (e :: fired), q', act', p'. split; [done|]. split; [done|]. split; [done|]. split; [done|].
  split; [constructor; [done|]; exact (Hb _ Hlo)|]. split; [by constructor|]. split.
  - intros x [->|Hx]%elem_of_cons Hle; [by left|]. right. apply Hin; [|done]. destruct Hq2 as [->|(d & k & -> & _)]; [done|]. rewrite a_insert_perm. by right.
  - intros lo [H1 H2]%Forall_cons. constructor; [done|]. apply Hb. eapply Forall_impl; [exact Hlo|]. simpl. intros x Hx. lia.
Qed.

(** ** The words of the module *)

(** The list represents the queue [q], in which nothing was due before [lo]; every element
    of the pool is free or in the list. *)
Record timers_ok (lo : Z) (s : timers) q : Prop := {
  tk_rep : Forall2 (fun t e => t_time t = u32 e.1 /\ t_h t = Some e.2.1 /\ t_arg t = e.2.2) (next_timeout s) q;
  tk_sorted : StronglySorted before q;
  tk_window : Forall (fun e => lo ≤ e.1 ≤ clock (net s) + AHEAD_MAX) q;
  tk_clock : lo ≤ clock (net s) ≤ lo + 2 ^ 30;
  tk_pool : memp_tab s ++ (t_memp <$> next_timeout s) ≡ₚ seqZ 0 MEMP_NUM_SYS_TIMEOUT;
}.

(** Wrapped times compare like the times they stand for. *)
Lemma time_less_than a b : - 2 ^ 31 < a - b < 2 ^ 31 -> TIME_LESS_THAN (u32 a) (u32 b) = (a <? b).
Proof.
  intros Hab. unfold TIME_LESS_THAN, LWIP_MAX_TIMEOUT. rewrite u32_sub_l, u32_sub_r. unfold u32. destruct (a <? b) eqn:E.
  - apply Z.ltb_lt in E. apply Z.ltb_lt. rewrite <- (Z.mod_add _ 1) by done. rewrite Z.mod_small; lia.
  - apply Z.ltb_ge in E. apply Z.ltb_ge. rewrite Z.mod_small; lia.
Qed.

(** Setting a timeout, without the two ways to walk the list. *)
Fixpoint t_insert (x : sys_timeo) (l : list sys_timeo) : list sys_timeo :=
  match l with
  | [] => [x]
  | t :: l' => if TIME_LESS_THAN (t_time x) (t_time t) then x :: l else t :: t_insert x l'
  end.

Lemma insert_after_spec x t l : insert_after x (t :: l) = t :: t_insert x l.
Proof.
  revert t. induction l as [|t1 l IH]; intros t; [done|].
  change (insert_after x (t :: t1 :: l)) with (if TIME_LESS_THAN (t_time x) (t_time t1) then t :: x :: t1 :: l else t :: insert_after x (t1 :: l)).
  rewrite IH. simpl. by destruct (TIME_LESS_THAN _ _).
Qed.

Lemma t_insert_perm x l : t_insert x l ≡ₚ x :: l.
Proof. induction l as [|t l IH]; simpl; [done|]. destruct (TIME_LESS_THAN _ _); [done|]. rewrite IH. by rewrite Permutation_swap. Qed.

Lemma t_insert_rep (R : sys_timeo -> entry -> Prop) x e l q :
  Forall2 R l q -> R x e -> Forall2 (fun t e' => TIME_LESS_THAN (t_time x) (t_time t) = (e.1 <? e'.1)) l q ->
  Forall2 R (t_insert x l) (a_insert e q).
Proof.
  intros Hl Hx. induction Hl as [|t e' l q Ht Hl IH]; intros Hc; simpl; [by repeat constructor|].
  apply Forall2_cons in Hc as [-> Hc]. destruct (e.1 <? e'.1); [by repeat constructor|]. constructor; [done|]. by apply IH.
Qed.

Lemma timeout_abs_spec lo s q d h a :
  timers_ok lo s q -> (length q < 3)%nat -> lo ≤ d ≤ clock (net s) + AHEAD_MAX ->
  wp (sys_timeout_abs (u32 d) (Some h) a) (fun _ s' => timers_ok lo s' (a_insert (d, (h, a)) q) /\
    net s' = net s /\ tcpip_tcp_timer_active s' = tcpip_tcp_timer_active s) s.
Proof.
  intros [Hrep Hs Hw Hc Hp] Hlen Hd. unfold sys_timeout_abs, memp_malloc. wp_step. wp_step. wp_step.
  destruct (memp_tab s) as [|m tab] eqn:Em.
  { apply Permutation_length in Hp. rewrite length_app, length_fmap, (Forall2_length _ _ _ Hrep), length_seqZ in Hp. change (length q = 3%nat) in Hp. lia. }
  wp_step. wp_step. wp_step. set (x := Timeo (u32 d) (Some h) a m). set (s1 := set_memp_tab tab s).
  assert (Hins : forall l, l = next_timeout s -> timers_ok lo (set_next_timeout (t_insert x l) s1) (a_insert (d, (h, a)) q)).
  { intros l ->. split; simpl.
    - apply t_insert_rep; [done|done|]. apply Forall2_same_length_lookup_2; [by eapply Forall2_length|].
      intros i t e Ht He. destruct (Forall2_lookup_lr _ _ _ _ _ _ Hrep Ht He) as [-> _]. simpl. apply time_less_than.
      rewrite Forall_forall in Hw. pose proof (Hw e (list_elem_of_lookup_2 _ _ _ He)). unfold AHEAD_MAX in *. simpl in *. lia.
    - by apply a_insert_sorted.
    - rewrite a_insert_perm. by constructor.
    - done.
    - rewrite t_insert_perm. simpl. by rewrite <- Permutation_middle, <- Hp. }
  wp_step. wp_step. destruct (next_timeout s) as [|t l] eqn:El; simpl; rewrite ?El.
  - wp_step. split; [|done]. by apply (Hins []).
  - specialize (Hins _ eq_refl). simpl in Hins. destruct (TIME_LESS_THAN (u32 d) (t_time t)) eqn:E.
    + wp_step. split; [exact Hins|done].
    + wp_step. rewrite insert_after_spec. split; [exact Hins|done].
Qed.

Lemma timers_net lo s q p : timers_ok lo s q -> clock (net s) ≤ clock p ≤ lo + 2 ^ 30 -> timers_ok lo (set_net p s) q.
Proof.
  intros [Hrep Hs Hw Hc Hp] Hcl. split; simpl; try done; [|lia]. eapply Forall_impl; [exact Hw|]. simpl. intros e He. lia.
Qed.

Lemma timers_ext lo s s' q :
  next_timeout s' = next_timeout s -> memp_tab s' = memp_tab s -> net s' = net s -> timers_ok lo s q -> timers_ok lo s' q.
Proof. intros E1 E2 E3 []. split; by rewrite ?E1, ?E2, ?E3. Qed.

Lemma keys_length q act : keys_ok q act -> (length q ≤ 3)%nat.
Proof. intros Hk. apply Permutation_length in Hk. rewrite length_fmap in Hk. rewrite Hk. destruct act; simpl; lia. Qed.

Lemma timeout_spec lo s q msecs h a :
  timers_ok lo s q -> (length q < 3)%nat -> 0 ≤ msecs ≤ AHEAD_MAX ->
  wp (sys_timeout msecs (Some h) a) (fun _ s' => timers_ok lo s' (a_insert (clock (net s) + msecs, (h, a)) q) /\
    net s' = net s /\ tcpip_tcp_timer_active s' = tcpip_tcp_timer_active s) s.
Proof.
  intros Hok Hlen Hm. unfold sys_timeout. wp_step. wp_step; [apply Z.leb_le; change (LWIP_UINT32_MAX `div` 4) with 1073741823; unfold AHEAD_MAX in Hm; lia|].
  wp_step. wp_step. rewrite sys_now_clock, u32_add_l. apply timeout_abs_spec; [done|done|]. pose proof (tk_clock _ _ _ Hok). lia.
Qed.

(** A handler does what the queue says. *)
Lemma call_handler_spec lo s q act d h a :
  timers_ok lo s q -> keys_ok ((d, (h, a)) :: q) act -> tcpip_tcp_timer_active s = act -> current_timeout_due_time s = u32 d ->
  lo ≤ d ≤ clock (net s) -> clock (net s) + HANDLER_MAX ≤ lo + 2 ^ 30 ->
  wp (call_handler h a) (fun _ s' => forall q2 act2 p2, a_fire (d, (h, a)) q act (net s) = (q2, act2, p2) ->
    timers_ok lo s' q2 /\ tcpip_tcp_timer_active s' = act2 /\ net s' = p2) s.
Proof.
  intros Hok Hk Hact Hdue Hd Hc. pose proof (keys_length _ _ Hk) as Hlen. simpl in Hlen. unfold a_fire. destruct h; simpl.
  - destruct (keys_cyclic _ _ _ _ Hk eq_refl) as (c & Ec & Hi). unfold lwip_cyclic_timer. rewrite Ec. wp_step. wp_step; [done|].
    set (p := stack_tmr (cyclic_handler c) (net s)). assert (Hp : clock (net s) ≤ clock p ≤ clock (net s) + HANDLER_MAX) by apply tmr_clock.
    wp_step. wp_step. wp_step. wp_step. wp_step. wp_step. cbn [set_net net current_timeout_due_time]. fold p.
    rewrite Hdue, sys_now_clock, !u32_add_l, time_less_than by (unfold AHEAD_MAX in *; lia).
    assert (Hok' : timers_ok lo (set_net p s) q) by (apply timers_net; [done|lia]).
    destruct (d + interval_ms c <? clock p) eqn:E; (eapply wp_mono; [apply (timeout_abs_spec lo _ q); [exact Hok'|lia|simpl; lia]|]);
      intros [] s' (Hs' & Hn & Ha) q2 act2 p2 [= <- <- <-]; by rewrite Hn, Ha.
  - destruct (keys_tcp _ _ _ _ Hk eq_refl) as (-> & -> & _). unfold tcpip_tcp_timer. set (p := stack_tmr tcp_tmr (net s)).
    assert (Hp : clock (net s) ≤ clock p ≤ clock (net s) + HANDLER_MAX) by apply tmr_clock.
    assert (Hok' : timers_ok lo (set_net p s) q) by (apply timers_net; [done|lia]).
    wp_step. wp_step. wp_step. wp_step. cbn [set_net net]. fold p. destruct (tcp_pcbs p).
    + eapply wp_mono; [apply (timeout_spec lo _ q); [exact Hok'|lia|unfold TCP_TMR_INTERVAL, AHEAD_MAX; lia]|].
      intros [] s' (Hs' & Hn & Ha) q2 act2 p2 [= <- <- <-]. by rewrite Hn, Ha.
    + wp_step. intros q2 act2 p2 [= <- <- <-]. split; [by eapply timers_ext; [..|exact Hok']|done].
Qed.

(** ** [sys_check_timeouts] *)

Lemma timers_pop lo s t l d k q c :
  next_timeout s = t :: l -> timers_ok lo s ((d, k) :: q) ->
  timers_ok lo (set_memp_tab (t_memp t :: memp_tab s) (set_due_time c (set_next_timeout l s))) q /\
  t_time t = u32 d /\ t_h t = Some k.1 /\ t_arg t = k.2 /\ lo ≤ d ≤ clock (net s) + AHEAD_MAX.
Proof.
  intros El [Hrep Hs Hw Hc Hp]. rewrite El in Hrep, Hp. apply Forall2_cons in Hrep as [(Ht & Hh & Ha) Hrep].
  apply StronglySorted_inv in Hs as [Hs _]. apply Forall_cons in Hw as [Hd Hw].
  split; [|done]. split; try done. simpl. rewrite <- Hp. simpl. by rewrite Permutation_middle.
Qed.

Lemma check_loop_spec n lo now s q act fired q' act' p' :
  timers_ok lo s q -> keys_ok q act -> tcpip_tcp_timer_active s = act -> lo ≤ now ≤ clock (net s) ->
  clock (net s) + Z.of_nat n * (2 * HANDLER_MAX) ≤ lo + 2 ^ 30 ->
  a_check n now q act (net s) = Some (fired, (q', act', p')) ->
  wp (check_loop n (u32 now)) (fun _ s' => timers_ok lo s' q' /\ tcpip_tcp_timer_active s' = act' /\ net s' = p' /\
    clock (net s) ≤ clock p' ≤ clock (net s) + Z.of_nat n * (2 * HANDLER_MAX)) s.
Proof.
  revert s q act fired. induction n as [|n IH]; intros s q act fired Hok Hk Hact Hnow Hc E; [done|]. simpl in E. simpl check_loop.
  set (p := pbuf_check_free_ooseq (net s)) in *. assert (Hp : clock (net s) ≤ clock p ≤ clock (net s) + HANDLER_MAX) by apply ooseq_clock.
  assert (HH : 0 < HANDLER_MAX) by done.
  assert (Hok' : timers_ok lo (set_net p s) q) by (apply timers_net; [done|lia]).
  wp_step. wp_step. wp_step. wp_step. cbn [set_net next_timeout]. fold p. destruct (next_timeout s) as [|t l] eqn:El.
  { pose proof (tk_rep _ _ _ Hok) as Hrep. rewrite El in Hrep. inversion Hrep; subst. injection E as <- <- <- <-. wp_step.
    split; [exact Hok'|]. split; [done|]. split; [done|lia]. }
  destruct q as [|[d [h a]] q]; [pose proof (tk_rep _ _ _ Hok) as Hrep; rewrite El in Hrep; inversion Hrep|].
  destruct (timers_pop lo (set_net p s) t l d (h, a) q (t_time t) El Hok') as (Hpop & Ht & Hh & Ha & Hd). simpl in Hd.
  rewrite Ht, time_less_than by (unfold AHEAD_MAX in *; lia). cbn [fst] in E. destruct (now <? d) eqn:En.
  { injection E as <- <- <- <-. wp_step. split; [exact Hok'|]. split; [done|]. split; [done|lia]. }
  apply Z.ltb_ge in En. destruct (a_fire (d, (h, a)) q act p) as [[q2 act2] p2] eqn:Ef.
  destruct (a_check n now q2 act2 p2) as [[fired' r]|] eqn:E2; [|done]. injection E as <- ->.
  assert (Hnp : now ≤ clock p) by lia.
  destruct (a_fire_spec now _ _ _ _ _ _ _ Hk En Hnp Ef) as (Hk2 & Hc2 & _ & _).
  wp_step. wp_step. wp_step. wp_step. wp_step. unfold memp_free. wp_step. rewrite Hh, Ha. wp_step. rewrite <- Ht.
  eapply wp_mono; [eapply (call_handler_spec lo _ q act d h a); [exact Hpop|exact Hk|done|exact Ht|simpl; lia|simpl; lia]|].
  intros [] s' Hs'. destruct (Hs' _ _ _ Ef) as (Hok2 & Ha2 & Hn2).
  eapply wp_mono; [eapply (IH s' q2 act2 fired'); [exact Hok2|exact Hk2|exact Ha2|rewrite Hn2; lia|rewrite Hn2; lia|by rewrite Hn2]|].
  intros [] s2 (Hs2 & Has2 & Hns2 & Hcs2). rewrite Hn2 in Hcs2. split; [done|]. split; [done|]. split; [done|lia].
Qed.

Lemma rounds_bound now q : (rounds_left now q ≤ 2 * length q)%nat.
Proof.
  unfold rounds_left. induction q as [|e q IH]; simpl; [lia|]. unfold rounds at 1. destruct (e.1 <? now); [lia|]. destruct (e.1 =? now); lia.
Qed.

(** Two rounds for each timeout of the pool, and the one that finds nothing to do. *)
Definition CHECK_ROUNDS : nat := 7.

Lemma timers_later lo now s q :
  timers_ok lo s q -> lo ≤ now -> now ≤ clock (net s) ≤ now + 2 ^ 30 -> Forall (fun e => now < e.1) q -> timers_ok now s q.
Proof.
  intros [Hrep Hs Hw Hc Hp] Hlo Hnow Hq. split; try done. rewrite Forall_forall in *. intros e He.
  specialize (Hw e He). specialize (Hq e He). simpl in *. lia.
Qed.

Lemma check_spec lo s q :
  timers_ok lo s q -> keys_ok q (tcpip_tcp_timer_active s) -> clock (net s) ≤ lo + 2 ^ 29 ->
  exists fired q' act' p', a_check CHECK_ROUNDS (clock (net s)) q (tcpip_tcp_timer_active s) (net s) = Some (fired, (q', act', p')) /\
    wp (sys_check_timeouts CHECK_ROUNDS) (fun _ s' => timers_ok (clock (net s)) s' q' /\ tcpip_tcp_timer_active s' = act' /\ net s' = p') s /\
    keys_ok q' act' /\ clock (net s) ≤ clock p' ≤ clock (net s) + 2 ^ 28 /\ Forall (fun e => clock (net s) < e.1) q' /\
    StronglySorted before fired /\ Forall (fun e => e.1 ≤ clock (net s)) fired /\
    (forall e, e ∈ q -> e.1 ≤ clock (net s) -> e ∈ fired).
Proof.
  intros Hok Hk Hc. pose proof (tk_clock _ _ _ Hok) as Hcl. pose proof (keys_length _ _ Hk) as Hlen.
  pose proof (rounds_bound (clock (net s)) q) as Hr.
  assert (Hfuel : (rounds_left (clock (net s)) q < CHECK_ROUNDS)%nat) by (unfold CHECK_ROUNDS; lia).
  destruct (a_check_spec CHECK_ROUNDS (clock (net s)) q _ (net s) Hk (tk_sorted _ _ _ Hok) (Z.le_refl _) Hfuel)
    as (fired & q' & act' & p' & E & Hk' & _ & Hl & Hsf & Hff & Hin & _). exists fired, q', act', p'. split; [done|].
  assert (Hw : wp (sys_check_timeouts CHECK_ROUNDS) (fun _ s' => (timers_ok (clock (net s)) s' q' /\ tcpip_tcp_timer_active s' = act' /\ net s' = p') /\
    clock (net s) ≤ clock p' ≤ clock (net s) + 2 ^ 28) s).
  { unfold sys_check_timeouts. wp_step. wp_step. rewrite sys_now_clock.
    eapply wp_mono; [eapply (check_loop_spec CHECK_ROUNDS lo); [exact Hok|exact Hk|done|lia|unfold CHECK_ROUNDS, HANDLER_MAX; lia|exact E]|].
    unfold CHECK_ROUNDS, HANDLER_MAX. intros [] s' (Hok' & Ha & Hn & Hc'). split; [|lia]. split; [|done].
    eapply timers_later; [exact Hok'|lia|rewrite Hn; lia|done]. }
  split; [eapply wp_mono; [exact Hw|]; by intros [] s' [? _]|]. split; [done|].
  split; [apply wp_returns in Hw as (? & ? & _ & _ & ?); lia|done].
Qed.

(** ** The other operations *)

Lemma needed_spec lo s q :
  timers_ok lo s q -> keys_ok q (tcpip_tcp_timer_active s) ->
  wp tcp_timer_needed (fun _ s' => net s' = net s /\ exists q', timers_ok lo s' q' /\ keys_ok q' (tcpip_tcp_timer_active s')) s.
Proof.
  intros Hok Hk. unfold tcp_timer_needed. wp_step. wp_step. wp_step. wp_step.
  destruct (tcpip_tcp_timer_active s) eqn:Ea; simpl; [wp_step; split; [done|]; exists q; by rewrite Ea|].
  destruct (tcp_pcbs (net s)); [|wp_step; split; [done|]; exists q; by rewrite Ea]. wp_step. wp_step.
  assert (Hlen : length q = 2%nat) by (apply Permutation_length in Hk; by rewrite length_fmap in Hk).
  eapply wp_mono; [apply (timeout_spec lo _ q); [by eapply timers_ext; [..|exact Hok]|lia|unfold TCP_TMR_INTERVAL, AHEAD_MAX; lia]|].
  intros [] s' (Hok' & Hn & Ha). split; [done|]. eexists. split; [exact Hok'|]. rewrite Ha. unfold keys_ok. rewrite a_insert_perm. simpl. by rewrite Hk.
Qed.

(** The time to sleep is the time until the first timeout is due. *)
Lemma sleeptime_spec lo s q :
  timers_ok lo s q -> clock (net s) ≤ lo + 2 ^ 29 ->
  wp sys_timeouts_sleeptime (fun r s' => s' = s /\
    r = match q with [] => SYS_TIMEOUTS_SLEEPTIME_INFINITE | e :: _ => Z.max 0 (e.1 - clock (net s)) end) s.
Proof.
  intros Hok Hc. unfold sys_timeouts_sleeptime. wp_step. wp_step. destruct Hok as [Hrep _ Hw Hcl _].
  destruct Hrep as [|t e l q (Ht & _ & _) Hrep]; [by wp_step|]. apply Forall_cons in Hw as [Hw _]. wp_step. wp_step.
  unfold AHEAD_MAX in Hw. rewrite Ht, sys_now_clock, time_less_than by lia. destruct (e.1 <? clock (net s)) eqn:E.
  - wp_step. split; [done|]. lia.
  - rewrite u32_sub_l, u32_sub_r. unfold u32. rewrite Z.mod_small by lia. wp_step.
    wp_step; [apply Z.leb_le; unfold LWIP_MAX_TIMEOUT; lia|]. wp_step. split; [done|lia].
Qed.

Lemma init_spec s :
  next_timeout s = [] -> tcpip_tcp_timer_active s = false ->
  wp (memp_init_pool MEMP_NUM_SYS_TIMEOUT;; sys_timeouts_init) (fun _ s' => net s' = net s /\
    exists q, timers_ok (clock (net s)) s' q /\ keys_ok q (tcpip_tcp_timer_active s')) s.
Proof.
  intros Hl Ha. unfold memp_init_pool. wp_step. wp_step. set (s1 := set_memp_tab _ s).
  assert (Hok : timers_ok (clock (net s)) s1 []) by (split; simpl; rewrite ?Hl; [done|constructor|done|lia|]; vm_compute; apply (Permutation_rev [2; 1; 0])).
  unfold sys_timeouts_init. simpl kfor. wp_step. wp_step. wp_step. wp_step.
  eapply wp_mono; [apply (timeout_spec (clock (net s)) _ []); [exact Hok|simpl; lia|simpl; unfold IP_TMR_INTERVAL, AHEAD_MAX; lia]|].
  intros [] s2 (Hok2 & Hn2 & Ha2). wp_step. simpl. wp_step. wp_step. wp_step. wp_step.
  eapply wp_mono; [eapply (timeout_spec (clock (net s))); [exact Hok2|simpl; lia|simpl; unfold ARP_TMR_INTERVAL, AHEAD_MAX; lia]|].
  intros [] s3 (Hok3 & Hn3 & Ha3). wp_step. simpl. wp_step. rewrite Hn3, Hn2. split; [done|]. eexists. split; [exact Hok3|].
  rewrite Ha3, Ha2. simpl. rewrite Ha. unfold keys_ok. destruct (_ <? _); [apply Permutation_swap|done].
Qed.

(** Removing a timeout removes the first one with the handler and the argument. *)
Fixpoint a_remove (k : timeout_handler * Z) q : list entry :=
  match q with [] => [] | e :: q' => if bool_decide (e.2 = k) then q' else e :: a_remove k q' end.

Lemma a_remove_elem k q e : e ∈ a_remove k q -> e ∈ q.
Proof. induction q as [|e' q IH]; simpl; [done|]. case_bool_decide; [by right|]. intros [->|He]%elem_of_cons; [by left|right; by apply IH]. Qed.

Lemma untimeout_find_spec h a l q :
  Forall2 (fun t e => t_time t = u32 e.1 /\ t_h t = Some e.2.1 /\ t_arg t = e.2.2) l q ->
  match untimeout_find (Some h) a l with
  | Some (t, l') => t :: l' ≡ₚ l /\ Forall2 (fun t e => t_time t = u32 e.1 /\ t_h t = Some e.2.1 /\ t_arg t = e.2.2) l' (a_remove (h, a) q)
  | None => a_remove (h, a) q = q
  end.
Proof.
  induction 1 as [|t [d [h' a']] l q (Ht & Hh & Ha) Hl IH]; simpl; [done|]. simpl in Hh, Ha. rewrite Hh, Ha.
  destruct (decide ((h', a') = (h, a))) as [[= -> ->]|Hne].
  - rewrite !bool_decide_eq_true_2, Z.eqb_refl by done. simpl. done.
  - rewrite (bool_decide_eq_false_2 (_ = (h, a))) by done.
    replace (bool_decide (Some h' = Some h) && (a' =? a)) with false.
    2: { symmetry. apply andb_false_iff. destruct (decide (h' = h)) as [->|]; [right; apply Z.eqb_neq; congruence|left; apply bool_decide_eq_false_2; congruence]. }
    destruct (untimeout_find (Some h) a l) as [[x r]|]; simpl.
    + destruct IH as [Hp IH]. split; [by rewrite Permutation_swap, Hp|]. by constructor.
    + by rewrite IH.
Qed.

Lemma untimeout_spec lo s q h a :
  timers_ok lo s q -> wp (sys_untimeout (Some h) a) (fun _ s' => timers_ok lo s' (a_remove (h, a) q)) s.
Proof.
  intros Hok. pose proof (untimeout_find_spec h a _ _ (tk_rep _ _ _ Hok)) as Hf. unfold sys_untimeout. wp_step. wp_step.
  destruct (untimeout_find (Some h) a (next_timeout s)) as [[t l]|]; [|wp_step; by rewrite Hf].
  destruct Hf as [Hp Hrep]. wp_step. wp_step. unfold memp_free. wp_step. destruct Hok as [_ Hs Hw Hc Hpool]. split; simpl; try done.
  - clear - Hs. induction Hs as [|e q Hs IH Hf]; simpl; [constructor|]. case_bool_decide; [done|]. constructor; [done|].
    rewrite Forall_forall in *. intros x Hx. apply Hf. by eapply a_remove_elem.
  - rewrite Forall_forall in *. intros x Hx. apply Hw. by eapply a_remove_elem.
  - rewrite <- Hpool, <- Hp. simpl. by rewrite Permutation_middle.
Qed.

(** Restarting moves all timeouts by the same time, so that the first one is due now. *)
Lemma restart_spec lo s e q :
  timers_ok lo s (e :: q) ->
  wp sys_restart_timeouts (fun _ s' => net s' = net s /\
    Forall2 (fun t e' => t_time t = u32 (e'.1 - e.1 + clock (net s)) /\ t_h t = Some e'.2.1 /\ t_arg t = e'.2.2)
      (next_timeout s') (e :: q)) s.
Proof.
  intros Hok. pose proof (tk_rep _ _ _ Hok) as Hrep. unfold sys_restart_timeouts. wp_step. wp_step.
  destruct (next_timeout s) as [|t l]; [inversion Hrep|]. wp_step. wp_step. wp_step. split; [done|]. cbn [next_timeout set_next_timeout].
  apply Forall2_cons in Hrep as Hrep'. destruct Hrep' as [(Ht & _ & _) _]. rewrite Ht, sys_now_clock. apply Forall2_fmap_l.
  eapply Forall2_impl; [exact Hrep|]. intros t' e' (Ht' & Hh & Ha). simpl. split; [|done]. by rewrite Ht', u32_sub_l, u32_sub_r, u32_add_l, u32_add_r.
Qed.

(** ** Runs of the stack

    [timers_run s last]: the stack is in state [s] and [sys_check_timeouts] was last called at
    time [last].  The main loop calls it at least every [2 ^ 29] milliseconds. *)
Inductive timers_run : timers -> Z -> Prop :=
| RunInit s0 s :
    next_timeout s0 = [] -> tcpip_tcp_timer_active s0 = false ->
    (memp_init_pool MEMP_NUM_SYS_TIMEOUT;; sys_timeouts_init) s0 = Done tt s -> timers_run s (clock (net s0))
| RunNeeded s last s' : timers_run s last -> tcp_timer_needed s = Done tt s' -> timers_run s' last
| RunCheck s last s' : timers_run s last -> sys_check_timeouts CHECK_ROUNDS s = Done tt s' -> timers_run s' (clock (net s))
| RunProtocols s last p :
    timers_run s last -> clock (net s) ≤ clock p ≤ last + 2 ^ 29 -> timers_run (set_net p s) last.

Definition run_ok (s : timers) (last : Z) : Prop :=
  (exists q, timers_ok last s q /\ keys_ok q (tcpip_tcp_timer_active s)) /\ clock (net s) ≤ last + 2 ^ 29.

Lemma timers_run_ok s last : timers_run s last -> run_ok s last.
Proof.
  induction 1 as [s0 s Hl Ha E|s last s' _ [(q & Hok & Hk) Hc] E|s last s' _ [(q & Hok & Hk) Hc] E|s last p _ [(q & Hok & Hk) Hc] Hp].
  - destruct (wp_Done _ _ _ _ _ E (init_spec s0 Hl Ha)) as (Hn & Hq). split; [done|]. rewrite Hn. lia.
  - destruct (wp_Done _ _ _ _ _ E (needed_spec _ _ _ Hok Hk)) as (Hn & Hq). split; [done|]. by rewrite Hn.
  - destruct (check_spec _ _ _ Hok Hk Hc) as (fired & q' & act' & p' & _ & Hw & Hk' & Hc' & _).
    destruct (wp_Done _ _ _ _ _ E Hw) as (Hok' & Ha & Hn). split; [exists q'; by rewrite Ha|]. rewrite Hn. lia.
  - split; [|simpl; lia]. exists q. split; [|done]. apply timers_net; [done|lia].
Qed.

(** ** Properties *)


(** (C29) The timers of the stack, from their initialisation on: the list holds each cyclic
    timer once and the timer of TCP if and only if it runs, ordered by the time at which
    they are due; every element of the pool is free or in the list, so that setting a
    timeout never finds the pool empty; and the calls return, sys_timeouts_sleeptime with
    the time until the first timeout is due. *)
Theorem timers_invariant s last :
  timers_run s last ->
  (exists q e, timers_ok last s (e :: q) /\ keys_ok (e :: q) (tcpip_tcp_timer_active s) /\
    sys_timeouts_sleeptime s = Done (Z.max 0 (e.1 - clock (net s))) s) /\
  (exists s', tcp_timer_needed s = Done tt s') /\ (exists s', sys_check_timeouts CHECK_ROUNDS s = Done tt s').
Proof.
  intros Hr. destruct (timers_run_ok _ _ Hr) as [(q & Hok & Hk) Hc]. split; [|split].
  - destruct q as [|e q]; [apply Permutation_length in Hk; by destruct (tcpip_tcp_timer_active s)|]. exists q, e.
    split; [done|]. split; [done|]. apply wp_run. eapply wp_mono; [by eapply sleeptime_spec|]. intros r s' [-> ->]. done.
  - destruct (proj1 (wp_returns _ _ _) (needed_spec _ _ _ Hok Hk)) as ([] & s' & E & _). by exists s'.
  - destruct (check_spec _ _ _ Hok Hk Hc) as (fired & q' & act' & p' & _ & Hw & _).
    destruct (proj1 (wp_returns _ _ _) Hw) as ([] & s' & E & _). by exists s'.
Qed.

End queue.

(** ** A concrete stack

    A clock that is about to wrap around, and a log of the timers that ran. *)

Record toy := Toy { toy_clock : Z; toy_log : list stack_timer }.

#[local] Instance toy_stack : NetStack := {|
  prot := toy;
  sys_now p := u32 (toy_clock p);
  stack_tmr k p := Toy (toy_clock p + 1) (toy_log p ++ [k]);
  tcp_pcbs p := bool_decide (length (toy_log p) < 4)%nat;
  pbuf_check_free_ooseq p := p;
|}.

#[local] Instance toy_laws : NetStackLaws toy_stack.
Proof. refine {| clock := toy_clock : @prot toy_stack -> Z |}; simpl; unfold HANDLER_MAX; [done|lia..]. Defined.

Definition toy_bss : timers := Timers _ [] 0 false [] (Toy (2 ^ 32 - 500) []).
Definition toy_init : timers := Eval vm_compute in
  match (memp_init_pool MEMP_NUM_SYS_TIMEOUT;; sys_timeouts_init) toy_bss with Done _ s => s | _ => toy_bss end.
Definition toy_tcp : timers := Eval vm_compute in match tcp_timer_needed toy_init with Done _ s => s | _ => toy_bss end.
Definition toy_late : timers := set_net (Toy (2 ^ 32 + 600) []) toy_tcp.

Lemma toy_late_run : timers_run toy_late (2 ^ 32 - 500).
Proof.
  apply (RunProtocols toy_tcp (2 ^ 32 - 500)); [|vm_compute; done].
  eapply (RunNeeded toy_init (2 ^ 32 - 500) toy_tcp).
  2: reflexivity.
  exact (RunInit toy_bss toy_init eq_refl eq_refl eq_refl).
Qed.

Lemma timers_invariant_witness :
  (exists q e, timers_ok (2 ^ 32 - 500) toy_late (e :: q) /\ keys_ok (e :: q) (tcpip_tcp_timer_active toy_late) /\
    sys_timeouts_sleeptime toy_late = Done (Z.max 0 (e.1 - clock (net toy_late))) toy_late) /\
  (exists s', tcp_timer_needed toy_late = Done tt s') /\ (exists s', sys_check_timeouts CHECK_ROUNDS toy_late = Done tt s').
Proof. apply (timers_invariant toy_late (2 ^ 32 - 500) toy_late_run). Defined.

(** All three timers have expired, the words of two of them have wrapped around. *)
Definition toy_queue : list (Z * (timeout_handler * Z)) :=
  [(2 ^ 32 - 250, (H_tcpip_tcp_timer, 0)); (2 ^ 32 + 500, (H_lwip_cyclic_timer, 1)); (2 ^ 32 + 500, (H_lwip_cyclic_timer, 2))].

