(* ===== verification/LwipPbuf.v ===== *)
(** * The packet buffers of the TCP/IP stack

    src/lwip/src/core/pbuf.c.  A packet is a chain of buffers that are linked by [next] and
    counted by [ref]; a buffer can be part of several chains.  The fields of the buffers are
    the map [pb_store], from which a buffer is removed when it is deallocated, so that a pointer
    to a buffer that is gone is [Fault]; the bytes are the memory [bytes_of].  Buffers come
    from two pools, whose free elements are lists of addresses, or from the heap, which is
    the interface [PbufHeap].  Buffers with a deallocation function of their own are the class
    [CustomPbuf].  A failed [LWIP_ASSERT] is a panic. *)

From stdpp Require Import base gmap list numbers.
From S2P Require Import Prelude.
From S2P Require Import Bytes.
From S2P Require Import LwipString.
From S2P Require Import LwipMem.

Open Scope Z_scope.

(** ** Constants and data *)

Definition PBUF_TRANSPORT_HLEN : Z := 20.
Definition PBUF_IP_HLEN : Z := 20.
Definition PBUF_LINK_HLEN : Z := 14.
Definition PBUF_LINK_ENCAPSULATION_HLEN : Z := 0.

Definition PBUF_TRANSPORT : Z := PBUF_LINK_ENCAPSULATION_HLEN + PBUF_LINK_HLEN + PBUF_IP_HLEN + PBUF_TRANSPORT_HLEN.
Definition PBUF_IP : Z := PBUF_LINK_ENCAPSULATION_HLEN + PBUF_LINK_HLEN + PBUF_IP_HLEN.
Definition PBUF_LINK : Z := PBUF_LINK_ENCAPSULATION_HLEN + PBUF_LINK_HLEN.
Definition PBUF_RAW_TX : Z := PBUF_LINK_ENCAPSULATION_HLEN.
Definition PBUF_RAW : Z := 0.

Definition PBUF_TYPE_FLAG_STRUCT_DATA_CONTIGUOUS : Z := 0x80.
Definition PBUF_TYPE_FLAG_DATA_VOLATILE : Z := 0x40.
Definition PBUF_TYPE_ALLOC_SRC_MASK : Z := 0x0F.
Definition PBUF_ALLOC_FLAG_RX : Z := 0x0100.
Definition PBUF_ALLOC_FLAG_DATA_CONTIGUOUS : Z := 0x0200.
Definition PBUF_TYPE_ALLOC_SRC_MASK_STD_HEAP : Z := 0x00.
Definition PBUF_TYPE_ALLOC_SRC_MASK_STD_MEMP_PBUF : Z := 0x01.
Definition PBUF_TYPE_ALLOC_SRC_MASK_STD_MEMP_PBUF_POOL : Z := 0x02.

Definition PBUF_RAM : Z :=
  Z.lor (Z.lor PBUF_ALLOC_FLAG_DATA_CONTIGUOUS PBUF_TYPE_FLAG_STRUCT_DATA_CONTIGUOUS) PBUF_TYPE_ALLOC_SRC_MASK_STD_HEAP.
Definition PBUF_ROM : Z := PBUF_TYPE_ALLOC_SRC_MASK_STD_MEMP_PBUF.
Definition PBUF_REF : Z := Z.lor PBUF_TYPE_FLAG_DATA_VOLATILE PBUF_TYPE_ALLOC_SRC_MASK_STD_MEMP_PBUF.
Definition PBUF_POOL : Z :=
  Z.lor (Z.lor PBUF_ALLOC_FLAG_RX PBUF_TYPE_FLAG_STRUCT_DATA_CONTIGUOUS) PBUF_TYPE_ALLOC_SRC_MASK_STD_MEMP_PBUF_POOL.

Definition PBUF_FLAG_IS_CUSTOM : Z := 0x02.
Definition NETIF_NO_INDEX : Z := 0.
Definition TCP_MSS : Z := 536.
Definition PBUF_POOL_BUFSIZE : Z := LWIP_MEM_ALIGN_SIZE (TCP_MSS + 40 + PBUF_LINK_ENCAPSULATION_HLEN + PBUF_LINK_HLEN).
Definition PBUF_POOL_BUFSIZE_ALIGNED : Z := LWIP_MEM_ALIGN_SIZE PBUF_POOL_BUFSIZE.

(** Two pointers, two lengths and four bytes. *)
Definition sizeof_struct_pbuf : Z := 16.
Definition SIZEOF_STRUCT_PBUF : Z := LWIP_MEM_ALIGN_SIZE sizeof_struct_pbuf.

Record pbuf := Pbuf {
  pb_next : option Z;
  pb_payload : Z;
  pb_tot_len : Z;
  pb_len : Z;
  pb_type_internal : Z;
  pb_flags : Z;
  pb_ref : Z;
  pb_if_idx : Z;
}.

Definition pb_set_next (x : option Z) (b : pbuf) : pbuf :=
  Pbuf x (pb_payload b) (pb_tot_len b) (pb_len b) (pb_type_internal b) (pb_flags b) (pb_ref b) (pb_if_idx b).
Definition pb_set_payload (x : Z) (b : pbuf) : pbuf :=
  Pbuf (pb_next b) x (pb_tot_len b) (pb_len b) (pb_type_internal b) (pb_flags b) (pb_ref b) (pb_if_idx b).
Definition pb_set_tot_len (x : Z) (b : pbuf) : pbuf :=
  Pbuf (pb_next b) (pb_payload b) x (pb_len b) (pb_type_internal b) (pb_flags b) (pb_ref b) (pb_if_idx b).
Definition pb_set_len (x : Z) (b : pbuf) : pbuf :=
  Pbuf (pb_next b) (pb_payload b) (pb_tot_len b) x (pb_type_internal b) (pb_flags b) (pb_ref b) (pb_if_idx b).
Definition pb_set_ref (x : Z) (b : pbuf) : pbuf :=
  Pbuf (pb_next b) (pb_payload b) (pb_tot_len b) (pb_len b) (pb_type_internal b) (pb_flags b) x (pb_if_idx b).

(** ** The heap *)

Class PbufHeap := {
  hstate : Type;
  heap_malloc : Z -> K hstate (option Z);
  heap_free : Z -> K hstate unit;
  heap_trim : Z -> Z -> K hstate (option Z);
}.

Record pbufs `{PbufHeap} := Pbufs {
  pb_store : gmap Z pbuf;
  bytes_of : gmap Z Z;
  pool_tab : list Z;
  ref_tab : list Z;
  pbuf_free_ooseq_pending : bool;
  pb_heap : hstate;
}.

Class CustomPbuf `{PbufHeap} := { custom_free_function : Z -> K pbufs unit }.

Section pbuf.
Context `{PH : PbufHeap} `{CP : !CustomPbuf}.

Definition set_store (x : gmap Z pbuf) (s : pbufs) : pbufs :=
  Pbufs _ x (bytes_of s) (pool_tab s) (ref_tab s) (pbuf_free_ooseq_pending s) (pb_heap s).
Definition set_bytes (x : gmap Z Z) (s : pbufs) : pbufs :=
  Pbufs _ (pb_store s) x (pool_tab s) (ref_tab s) (pbuf_free_ooseq_pending s) (pb_heap s).
Definition set_pool_tab (x : list Z) (s : pbufs) : pbufs :=
  Pbufs _ (pb_store s) (bytes_of s) x (ref_tab s) (pbuf_free_ooseq_pending s) (pb_heap s).
Definition set_ref_tab (x : list Z) (s : pbufs) : pbufs :=
  Pbufs _ (pb_store s) (bytes_of s) (pool_tab s) x (pbuf_free_ooseq_pending s) (pb_heap s).
Definition set_ooseq_pending (x : bool) (s : pbufs) : pbufs :=
  Pbufs _ (pb_store s) (bytes_of s) (pool_tab s) (ref_tab s) x (pb_heap s).
Definition set_pb_heap (x : hstate) (s : pbufs) : pbufs :=
  Pbufs _ (pb_store s) (bytes_of s) (pool_tab s) (ref_tab s) (pbuf_free_ooseq_pending s) x.

(** The fields of the buffer at [p]. *)
Definition pb_read (p : Z) : K pbufs pbuf := kgets (fun s => pb_store s !! p) ≫= fun o : option pbuf => kunwrap o.
Definition pb_write (p : Z) (b : pbuf) : K pbufs unit := pb_read p;; kmodify (fun s => set_store (<[p := b]> (pb_store s)) s).

Definition with_pb_heap {A} (m : K hstate A) : K pbufs A := kzoom (fun s => Some (pb_heap s)) set_pb_heap m.
Definition with_bytes {A} (m : K (gmap Z Z) A) : K pbufs A := kzoom (fun s => Some (bytes_of s)) set_bytes m.

(** [memp_malloc] and [memp_free] of the two pools *)
Definition pool_malloc : K pbufs (option Z) :=
  tab ← kgets pool_tab;
  match tab : list Z with [] => mret None | p :: tab' => kmodify (set_pool_tab tab');; mret (Some p) end.
Definition ref_malloc : K pbufs (option Z) :=
  tab ← kgets ref_tab;
  match tab : list Z with [] => mret None | p :: tab' => kmodify (set_ref_tab tab');; mret (Some p) end.

Definition pbuf_pool_is_empty : K pbufs unit := kmodify (set_ooseq_pending true).

Definition pbuf_get_allocsrc (b : pbuf) : Z := Z.land (pb_type_internal b) PBUF_TYPE_ALLOC_SRC_MASK.

(** The buffer that is allocated at [p] gets its fields. *)
Definition pbuf_init_alloced_pbuf (p payload tot_len len type flags : Z) : K pbufs unit :=
  kmodify (fun s => set_store (<[p := Pbuf None payload tot_len len (u8 type) flags 1 NETIF_NO_INDEX]> (pb_store s)) s).

(** ** Deallocation *)

Definition pbuf_dealloc (p : Z) (b : pbuf) : K pbufs unit :=
  (if negb (Z.land (pb_flags b) PBUF_FLAG_IS_CUSTOM =? 0) then custom_free_function p else
   let alloc_src := pbuf_get_allocsrc b in
   if alloc_src =? PBUF_TYPE_ALLOC_SRC_MASK_STD_MEMP_PBUF_POOL then kmodify (fun s => set_pool_tab (p :: pool_tab s) s)
   else if alloc_src =? PBUF_TYPE_ALLOC_SRC_MASK_STD_MEMP_PBUF then kmodify (fun s => set_ref_tab (p :: ref_tab s) s)
   else if alloc_src =? PBUF_TYPE_ALLOC_SRC_MASK_STD_HEAP then with_pb_heap (heap_free p)
   else kpanic);;
  kmodify (fun s => set_store (delete p (pb_store s)) s).

(** [while (p != NULL)]; each round but the last deallocates a buffer. *)
Fixpoint free_loop (fuel : nat) (p : option Z) (count : Z) : K pbufs Z :=
  match p with
  | None => mret count
  | Some p =>
      match fuel with
      | O => khang
      | S fuel =>
          b ← pb_read p;
          KASSERT (0 <? pb_ref b);;
          let ref := u8 (pb_ref b - 1) in
          let b := pb_set_ref ref b in
          pb_write p b;;
          if ref =? 0 then pbuf_dealloc p b;; free_loop fuel (pb_next b) (u8 (count + 1))
          else mret count
      end
  end.

Definition pbuf_free (p : option Z) : K pbufs Z :=
  match p with
  | None => kpanic
  | Some _ => n ← kgets (fun s => size (pb_store s)); free_loop n p 0
  end.

(** ** References and chains *)

Definition pbuf_ref (p : option Z) : K pbufs unit :=
  match p with
  | None => mret tt
  | Some p =>
      b ← pb_read p;
      pb_write p (pb_set_ref (u8 (pb_ref b + 1)) b);;
      b' ← pb_read p;
      KASSERT (0 <? pb_ref b')
  end.

Fixpoint clen_loop (fuel : nat) (p : option Z) (len : Z) : K pbufs Z :=
  match p with
  | None => mret len
  | Some p =>
      match fuel with
      | O => khang
      | S fuel => b ← pb_read p; clen_loop fuel (pb_next b) (u16 (len + 1))
      end
  end.

Definition pbuf_clen (p : option Z) : K pbufs Z := n ← kgets (fun s => size (pb_store s)); clen_loop n p 0.

(** [for (p = h; p->next != NULL; p = p->next)] *)
Fixpoint cat_loop (fuel : nat) (p t : Z) : K pbufs Z :=
  match fuel with
  | O => khang
  | S fuel =>
      b ← pb_read p;
      match pb_next b with
      | None => mret p
      | Some q =>
          bt ← pb_read t;
          pb_write p (pb_set_tot_len (u16 (pb_tot_len b + pb_tot_len bt)) b);;
          cat_loop fuel q t
      end
  end.

Definition pbuf_cat (h t : option Z) : K pbufs unit :=
  match h, t with
  | Some h, Some t =>
      n ← kgets (fun s => size (pb_store s));
      p ← cat_loop n h t;
      b ← pb_read p;
      KASSERT (pb_tot_len b =? pb_len b);;
      KASSERT (bool_decide (pb_next b = None));;
      bt ← pb_read t;
      let b := pb_set_tot_len (u16 (pb_tot_len b + pb_tot_len bt)) b in
      pb_write p b;;
      pb_write p (pb_set_next (Some t) b)
  | _, _ => kpanic
  end.

Definition pbuf_chain (h t : option Z) : K pbufs unit := pbuf_cat h t;; pbuf_ref t.

Definition pbuf_dechain (p : Z) : K pbufs (option Z) :=
  b ← pb_read p;
  tail_gone ←
    match pb_next b with
    | Some q =>
        bq ← pb_read q;
        KASSERT (pb_tot_len bq =? pb_tot_len b - pb_len b);;
        pb_write q (pb_set_tot_len (u16 (pb_tot_len b - pb_len b)) bq);;
        b ← pb_read p;
        pb_write p (pb_set_tot_len (pb_len b) (pb_set_next None b));;
        pbuf_free (Some q)
    | None => mret 1
    end;
  b' ← pb_read p;
  KASSERT (pb_tot_len b' =? pb_len b');;
  mret (if 0 <? tail_gone then None else pb_next b).

(** ** Allocation *)

(** Only the buffer is allocated; the data belong to somebody else. *)
Definition pbuf_alloc_reference (payload length type : Z) : K pbufs (option Z) :=
  KASSERT ((type =? PBUF_REF) || (type =? PBUF_ROM));;
  o ← ref_malloc;
  match o : option Z with
  | None => mret None
  | Some p => pbuf_init_alloced_pbuf p payload length length type 0;; mret (Some p)
  end.

(** [do ... while (rem_len > 0)]; each round takes an element of the pool. *)
Fixpoint alloc_pool_loop (fuel : nat) (p last : option Z) (rem_len offset : Z) : K pbufs (option Z) :=
  match fuel with
  | O => khang
  | S fuel =>
      o ← pool_malloc;
      match o : option Z with
      | None =>
          pbuf_pool_is_empty;;
          (match p with Some _ => pbuf_free p;; mret tt | None => mret tt end);;
          mret None
      | Some q =>
          let qlen := Z.min rem_len (u16 (PBUF_POOL_BUFSIZE_ALIGNED - LWIP_MEM_ALIGN_SIZE offset)) in
          pbuf_init_alloced_pbuf q (q + SIZEOF_STRUCT_PBUF + offset) rem_len qlen PBUF_POOL 0;;
          KASSERT (0 <? u32 (PBUF_POOL_BUFSIZE_ALIGNED - LWIP_MEM_ALIGN_SIZE offset));;
          (match p, last with
           | None, _ => mret tt
           | Some _, Some l => b ← pb_read l; pb_write l (pb_set_next (Some q) b)
           | Some _, None => kfault
           end);;
          let p := match p with None => Some q | Some _ => p end in
          let rem_len := u16 (rem_len - qlen) in
          if 0 <? rem_len then alloc_pool_loop fuel p (Some q) rem_len 0 else mret p
      end
  end.

Definition alloc_ram (offset length : Z) : K pbufs (option Z) :=
  let payload_len := u16 (LWIP_MEM_ALIGN_SIZE offset + LWIP_MEM_ALIGN_SIZE length) in
  let alloc_len := u16 (LWIP_MEM_ALIGN_SIZE SIZEOF_STRUCT_PBUF + payload_len) in
  if (payload_len <? LWIP_MEM_ALIGN_SIZE length) || (alloc_len <? LWIP_MEM_ALIGN_SIZE length) then mret None else
  o ← with_pb_heap (heap_malloc alloc_len);
  match o : option Z with
  | None => mret None
  | Some p => pbuf_init_alloced_pbuf p (p + SIZEOF_STRUCT_PBUF + offset) length length PBUF_RAM 0;; mret (Some p)
  end.

Definition pbuf_alloc (layer length type : Z) : K pbufs (option Z) :=
  let offset := u16 layer in
  if (type =? PBUF_REF) || (type =? PBUF_ROM) then pbuf_alloc_reference 0 length type
  else if type =? PBUF_POOL then
    n ← kgets (fun s => List.length (pool_tab s));
    alloc_pool_loop (S n) None None length offset
  else if type =? PBUF_RAM then alloc_ram offset length
  else kpanic.

(** ** Headers *)

Definition pbuf_add_header_impl (p header_size_increment : Z) (force : bool) : K pbufs Z :=
  if 0xFFFF <? header_size_increment then mret 1 else
  if header_size_increment =? 0 then mret 0 else
  b ← pb_read p;
  let increment_magnitude := u16 header_size_increment in
  if u16 (increment_magnitude + pb_tot_len b) <? increment_magnitude then mret 1 else
  let payload := pb_payload b - header_size_increment in
  if negb (Z.land (pb_type_internal b) PBUF_TYPE_FLAG_STRUCT_DATA_CONTIGUOUS =? 0)
     && (payload <? p + SIZEOF_STRUCT_PBUF) then mret 1
  else if (Z.land (pb_type_internal b) PBUF_TYPE_FLAG_STRUCT_DATA_CONTIGUOUS =? 0) && negb force then mret 1
  else
    pb_write p (pb_set_tot_len (u16 (pb_tot_len b + increment_magnitude))
      (pb_set_len (u16 (pb_len b + increment_magnitude)) (pb_set_payload payload b)));;
    mret 0.

Definition pbuf_add_header (p header_size_increment : Z) : K pbufs Z := pbuf_add_header_impl p header_size_increment false.
Definition pbuf_add_header_force (p header_size_increment : Z) : K pbufs Z := pbuf_add_header_impl p header_size_increment true.

Definition pbuf_remove_header (p header_size_decrement : Z) : K pbufs Z :=
  if 0xFFFF <? header_size_decrement then mret 1 else
  if header_size_decrement =? 0 then mret 0 else
  b ← pb_read p;
  let increment_magnitude := u16 header_size_decrement in
  KASSERT (increment_magnitude <=? pb_len b);;
  pb_write p (pb_set_tot_len (u16 (pb_tot_len b - increment_magnitude))
    (pb_set_len (u16 (pb_len b - increment_magnitude)) (pb_set_payload (pb_payload b + header_size_decrement) b)));;
  mret 0.

Definition pbuf_header_impl (p header_size_increment : Z) (force : bool) : K pbufs Z :=
  if header_size_increment <? 0 then pbuf_remove_header p (- header_size_increment)
  else pbuf_add_header_impl p header_size_increment force.

Definition pbuf_header (p header_size_increment : Z) : K pbufs Z := pbuf_header_impl p header_size_increment false.
Definition pbuf_header_force (p header_size_increment : Z) : K pbufs Z := pbuf_header_impl p header_size_increment true.

(** [while (free_left && p)] *)
Fixpoint free_header_loop (fuel : nat) (p : option Z) (free_left : Z) : K pbufs (option Z) :=
  match p with
  | None => mret None
  | Some f =>
      if free_left =? 0 then mret p else
      match fuel with
      | O => khang
      | S fuel =>
          b ← pb_read f;
          if pb_len b <=? free_left then
            let p := pb_next b in
            pb_write f (pb_set_next None b);;
            pbuf_free (Some f);;
            free_header_loop fuel p (u16 (free_left - pb_len b))
          else
            pbuf_remove_header f free_left;;
            mret (Some f)
      end
  end.

Definition pbuf_free_header (q : option Z) (size' : Z) : K pbufs (option Z) :=
  n ← kgets (fun s => size (pb_store s)); free_header_loop n q size'.

(** ** Shrinking *)

(** [while (rem_len > q->len)] *)
Fixpoint realloc_loop (fuel : nat) (q rem_len shrink : Z) : K pbufs (Z * Z) :=
  match fuel with
  | O => khang
  | S fuel =>
      b ← pb_read q;
      if pb_len b <? rem_len then
        pb_write q (pb_set_tot_len (u16 (pb_tot_len b - shrink)) b);;
        KASSERT (bool_decide (pb_next b ≠ None));;
        q' ← kunwrap (pb_next b);
        realloc_loop fuel q' (u16 (rem_len - pb_len b)) shrink
      else mret (q, rem_len)
  end.

Definition pbuf_realloc (p new_len : Z) : K pbufs unit :=
  b ← pb_read p;
  if pb_tot_len b <=? new_len then mret tt else
  let shrink := u16 (pb_tot_len b - new_len) in
  n ← kgets (fun s => size (pb_store s));
  r ← realloc_loop n p new_len shrink;
  let (q, rem_len) := (r : Z * Z) in
  b ← pb_read q;
  q ← (if (pbuf_get_allocsrc b =? PBUF_TYPE_ALLOC_SRC_MASK_STD_HEAP) && negb (rem_len =? pb_len b)
          && (Z.land (pb_flags b) PBUF_FLAG_IS_CUSTOM =? 0)
       then o ← with_pb_heap (heap_trim q (u16 (pb_payload b - q + rem_len))); KASSERT (bool_decide (o ≠ None));; kunwrap o
       else mret q);
  b ← pb_read q;
  pb_write q (pb_set_tot_len rem_len (pb_set_len rem_len b));;
  (match pb_next b with Some _ => pbuf_free (pb_next b);; mret tt | None => mret tt end);;
  b' ← pb_read q;
  pb_write q (pb_set_next None b').

(** ** Contents *)

(** [while ((q != NULL) && (q->len <= offset_left))]: the buffer and the offset in it. *)
Fixpoint skip_loop (fuel : nat) (q : option Z) (offset_left : Z) : K pbufs (option Z * Z) :=
  match q with
  | None => mret (None, offset_left)
  | Some a =>
      b ← pb_read a;
      if pb_len b <=? offset_left then
        match fuel with O => khang | S fuel => skip_loop fuel (pb_next b) (u16 (offset_left - pb_len b)) end
      else mret (q, offset_left)
  end.

Definition pbuf_skip_const (q : option Z) (in_offset : Z) : K pbufs (option Z * Z) :=
  n ← kgets (fun s => size (pb_store s)); skip_loop n q in_offset.

Definition pbuf_skip (q : option Z) (in_offset : Z) : K pbufs (option Z * Z) := pbuf_skip_const q in_offset.

Definition pbuf_try_get_at (p : option Z) (offset : Z) : K pbufs Z :=
  r ← pbuf_skip_const p offset;
  match fst (r : option Z * Z) with
  | None => mret (-1)
  | Some q => b ← pb_read q; if snd r <? pb_len b then with_bytes (load (pb_payload b + snd r)) else mret (-1)
  end.

Definition pbuf_get_at (p : option Z) (offset : Z) : K pbufs Z :=
  ret ← pbuf_try_get_at p offset;
  mret (if 0 <=? ret then u8 ret else 0).

Definition pbuf_put_at (p : option Z) (offset data : Z) : K pbufs unit :=
  r ← pbuf_skip p offset;
  match fst (r : option Z * Z) with
  | None => mret tt
  | Some q => b ← pb_read q; if snd r <? pb_len b then with_bytes (LwipString.store (pb_payload b + snd r) data) else mret tt
  end.

(** [for (p = buf; len != 0 && p != NULL; p = p->next)] *)
Fixpoint copy_partial_loop (fuel : nat) (p : option Z) (dataptr left len offset copied_total : Z) : K pbufs Z :=
  match p with
  | None => mret copied_total
  | Some a =>
      if len =? 0 then mret copied_total else
      match fuel with
      | O => khang
      | S fuel =>
          b ← pb_read a;
          if negb (offset =? 0) && (pb_len b <=? offset)
          then copy_partial_loop fuel (pb_next b) dataptr left len (u16 (offset - pb_len b)) copied_total
          else
            let buf_copy_len := u16 (pb_len b - offset) in
            let buf_copy_len := if len <? buf_copy_len then len else buf_copy_len in
            with_bytes (memcpy (dataptr + left) (pb_payload b + offset) (Z.to_nat buf_copy_len));;
            copy_partial_loop fuel (pb_next b) dataptr (u16 (left + buf_copy_len)) (u16 (len - buf_copy_len)) 0
              (u16 (copied_total + buf_copy_len))
      end
  end.

Definition pbuf_copy_partial (buf dataptr : option Z) (len offset : Z) : K pbufs Z :=
  match buf, dataptr with
  | Some _, Some d => n ← kgets (fun s => size (pb_store s)); copy_partial_loop n buf d 0 len offset 0
  | _, _ => kpanic
  end.

(** [for (p = buf; total_copy_len != 0; p = p->next)] *)
Fixpoint take_loop (fuel : nat) (p : option Z) (dataptr total_copy_len copied_total : Z) : K pbufs (Z * Z) :=
  if total_copy_len =? 0 then mret (total_copy_len, copied_total) else
  match fuel with
  | O => khang
  | S fuel =>
      KASSERT (bool_decide (p ≠ None));;
      a ← kunwrap p;
      b ← pb_read a;
      let buf_copy_len := if pb_len b <? total_copy_len then pb_len b else total_copy_len in
      with_bytes (memcpy (pb_payload b) (dataptr + copied_total) (Z.to_nat buf_copy_len));;
      take_loop fuel (pb_next b) dataptr (u32 (total_copy_len - buf_copy_len)) (u32 (copied_total + buf_copy_len))
  end.

Definition pbuf_take (buf dataptr : option Z) (len : Z) : K pbufs Z :=
  match buf, dataptr with
  | Some a, Some d =>
      b ← pb_read a;
      KASSERT (len <=? pb_tot_len b);;
      n ← kgets (fun s => size (pb_store s));
      r ← take_loop n buf d len 0;
      KASSERT ((fst (r : Z * Z) =? 0) && (snd r =? len));;
      mret 0
  | _, _ => kpanic
  end.

(** [for (i = 0; i < n; i++)] *)
Fixpoint memcmp_loop (k : nat) (q : option Z) (start s2 i : Z) : K pbufs Z :=
  match k with
  | O => mret 0
  | S k =>
      a ← pbuf_get_at q (u16 (start + i));
      b ← with_bytes (load (s2 + i));
      if negb (a =? b) then mret (u16 (Z.min (i + 1) 0xFFFF)) else memcmp_loop k q start s2 (u16 (i + 1))
  end.

Definition pbuf_memcmp (p offset s2 n : Z) : K pbufs Z :=
  b ← pb_read p;
  if pb_tot_len b <? offset + n then mret 0xffff else
  r ← pbuf_skip_const (Some p) offset;
  memcmp_loop (Z.to_nat n) (fst (r : option Z * Z)) (snd r) s2 0.

(** [for (i = start_offset; i <= max_cmp_start; i++)] *)
Fixpoint memfind_loop (k : nat) (p mem mem_len i : Z) : K pbufs Z :=
  match k with
  | O => mret 0xFFFF
  | S k => plus ← pbuf_memcmp p i mem mem_len; if plus =? 0 then mret i else memfind_loop k p mem mem_len (u16 (i + 1))
  end.

Definition pbuf_memfind (p mem mem_len start_offset : Z) : K pbufs Z :=
  b ← pb_read p;
  let max_cmp_start := u16 (pb_tot_len b - mem_len) in
  if mem_len + start_offset <=? pb_tot_len b
  then memfind_loop (Z.to_nat (max_cmp_start - start_offset + 1)) p mem mem_len start_offset
  else mret 0xFFFF.

End pbuf.
