(* ===== verification/LwipPbufSpec.v ===== *)
(** * The reference counts of packet buffers

    [pbufs_ok s H] says that the count of every buffer is the number of pointers to it: the
    ones that the clients hold, which are the multiset [H], and the [next] fields of other
    buffers.  The operations keep this, so that no buffer is used after its deallocation, and
    every buffer that is allocated can be reached by a client. *)

From stdpp Require Import base gmap gmultiset list numbers.
From S2P Require Import Prelude.
From S2P Require Import Bytes.
From S2P Require Import LwipMem.
From S2P Require Import LwipPbuf.

Open Scope Z_scope.

Implicit Types (st : gmap Z pbuf) (b : pbuf).

(** ** Chains *)

(** The buffers from the pointer [o] on, up to the last one. *)
Fixpoint chain st (o : option Z) (ps : list Z) : Prop :=
  match ps with
  | [] => o = None
  | p :: ps => o = Some p /\ exists b, st !! p = Some b /\ chain st (pb_next b) ps
  end.

Lemma chain_fun st o ps ps' : chain st o ps -> chain st o ps' -> ps = ps'.
Proof.
  revert o ps'. induction ps as [|p ps IH]; intros o [|p' ps']; simpl; [done|intros -> [? _]; done|intros [-> _] ?; done|].
  intros (-> & b & Hb & Hc) ([= <-] & b' & Hb' & Hc'). rewrite Hb in Hb'. injection Hb' as <-. f_equal. by eapply IH.
Qed.

Lemma chain_suffix st o ps1 p ps2 : chain st o (ps1 ++ p :: ps2) -> chain st (Some p) (p :: ps2).
Proof.
  revert o. induction ps1 as [|q ps1 IH]; intros o; simpl; [intros (_ & H); by split|]. intros (_ & b & _ & Hc). exact (IH _ Hc).
Qed.

Lemma chain_nodup st o ps : chain st o ps -> NoDup ps.
Proof.
  revert o. induction ps as [|p ps IH]; intros o Hc; [constructor|]. constructor; [|destruct Hc as (_ & b & _ & Hc); by eapply IH].
  intros (ps1 & ps2 & ->)%list_elem_of_split. pose proof (chain_suffix st o (p :: ps1) p ps2 Hc) as Hs.
  pose proof (chain_suffix st o [] p (ps1 ++ p :: ps2) Hc) as Hs'. apply (chain_fun _ _ _ _ Hs) in Hs'.
  apply (f_equal length) in Hs'. simpl in Hs'. rewrite length_app in Hs'. simpl in Hs'. lia.
Qed.

Lemma chain_elem st o ps p : chain st o ps -> p ∈ ps -> exists b, st !! p = Some b.
Proof.
  intros Hc (ps1 & ps2 & ->)%list_elem_of_split. apply chain_suffix in Hc as (_ & b & Hb & _). by exists b.
Qed.

Lemma chain_size st o ps : chain st o ps -> (length ps ≤ size st)%nat.
Proof.
  intros Hc. rewrite <- size_dom. rewrite <- (size_list_to_set (C := gset Z) ps) by (by eapply chain_nodup).
  apply subseteq_size. intros p Hp%elem_of_list_to_set. apply elem_of_dom. destruct (chain_elem _ _ _ _ Hc Hp) as [b ->]. by eexists.
Qed.

Lemma chain_other st o ps p b : p ∉ ps -> chain st o ps -> chain (<[p := b]> st) o ps.
Proof.
  revert o. induction ps as [|q ps IH]; intros o Hp; simpl; [done|]. intros (-> & x & Hx & Hc). split; [done|].
  exists x. rewrite lookup_insert_ne by set_solver. split; [done|]. apply IH; [set_solver|done].
Qed.

Lemma chain_keep st o ps p b b' : st !! p = Some b -> pb_next b' = pb_next b -> chain st o ps -> chain (<[p := b']> st) o ps.
Proof.
  intros Hp Hn. revert o. induction ps as [|q ps IH]; intros o; simpl; [done|]. intros (-> & x & Hx & Hc). split; [done|].
  destruct (decide (p = q)) as [<-|Hne].
  - exists b'. rewrite lookup_insert_eq, Hn. split; [done|]. apply IH. rewrite Hp in Hx. by injection Hx as <-.
  - exists x. rewrite lookup_insert_ne by done. split; [done|by apply IH].
Qed.

Lemma chain_delete st o ps p : p ∉ ps -> chain st o ps -> chain (delete p st) o ps.
Proof.
  revert o. induction ps as [|q ps IH]; intros o Hp; simpl; [done|]. intros (-> & x & Hx & Hc). split; [done|].
  exists x. rewrite lookup_delete_ne by set_solver. split; [done|]. apply IH; [set_solver|done].
Qed.

(** The last buffer is linked to another chain. *)
Lemma chain_link st o ps l b qs t :
  chain st o (ps ++ [l]) -> st !! l = Some b -> chain st (Some t) qs -> l ∉ qs ->
  forall b', pb_next b' = Some t -> chain (<[l := b']> st) o (ps ++ l :: qs).
Proof.
  intros Hc Hl Hq Hn b' Hb'. pose proof (chain_nodup _ _ _ Hc) as Hnd. revert o Hc Hnd. induction ps as [|p ps IH]; intros o; simpl.
  - intros (-> & x & Hx & _) _. split; [done|]. exists b'. rewrite lookup_insert_eq, Hb'. split; [done|by apply chain_other].
  - intros (-> & x & Hx & Hc) [Hp Hnd]%NoDup_cons. split; [done|]. exists x. rewrite lookup_insert_ne by set_solver. split; [done|by apply IH].
Qed.

(** ** The number of [next] fields that point to a buffer *)

Definition indeg st (p : Z) : nat := size (filter (fun x => pb_next x.2 = Some p) st).

Definition points (b : pbuf) (p : Z) : nat := if decide (pb_next b = Some p) then 1 else 0.

Lemma indeg_delete st p b q : st !! p = Some b -> indeg st q = (indeg (delete p st) q + points b q)%nat.
Proof.
  intros Hp. unfold indeg, points. rewrite map_filter_delete. case_decide as Hn.
  - rewrite map_size_delete. assert (Hf : filter (fun x => pb_next x.2 = Some q) st !! p = Some b) by (by apply map_lookup_filter_Some).
    rewrite Hf. assert (size (filter (fun x => pb_next x.2 = Some q) st) ≠ 0%nat); [|lia]. apply map_size_non_empty_iff. intros E. by rewrite E in Hf.
  - rewrite delete_id; [lia|]. apply map_lookup_filter_None. right. intros x Hx. by simplify_eq.
Qed.

Lemma indeg_new st p b q : st !! p = None -> indeg (<[p := b]> st) q = (indeg st q + points b q)%nat.
Proof. intros Hp. rewrite (indeg_delete (<[p := b]> st) p b) by apply lookup_insert_eq. by rewrite delete_insert_id. Qed.

Lemma indeg_insert st p b b' q : st !! p = Some b -> (indeg (<[p := b']> st) q + points b q = indeg st q + points b' q)%nat.
Proof.
  intros Hp. rewrite (indeg_delete st p b q Hp), <- insert_delete_eq, indeg_new by apply lookup_delete_eq. lia.
Qed.

Lemma indeg_keep st p b b' q : st !! p = Some b -> pb_next b' = pb_next b -> indeg (<[p := b']> st) q = indeg st q.
Proof. intros Hp Hn. pose proof (indeg_insert st p b b' q Hp) as Hi. unfold points in Hi. rewrite Hn in Hi. lia. Qed.

Lemma indeg_pos st p b q : st !! q = Some b -> pb_next b = Some p -> (0 < indeg st p)%nat.
Proof. intros Hq Hn. rewrite (indeg_delete st q b p Hq). unfold points. rewrite decide_True by done. lia. Qed.

Lemma indeg_pred st p : (0 < indeg st p)%nat -> exists q b, st !! q = Some b /\ pb_next b = Some p.
Proof.
  intros Hi. unfold indeg in Hi. destruct (map_choose (filter (fun x => pb_next x.2 = Some p) st)) as (q & b & Hq).
  - intros E. rewrite E, map_size_empty in Hi. lia.
  - apply map_lookup_filter_Some in Hq as [Hq Hn]. by exists q, b.
Qed.

(** A buffer that nothing points to is only the first one of a chain. *)
Lemma chain_indeg_0 st o ps p : indeg st p = 0%nat -> o ≠ Some p -> chain st o ps -> p ∉ ps.
Proof.
  intros Hi. revert o. induction ps as [|q ps IH]; intros o Ho; simpl; [set_solver|]. intros (-> & b & Hb & Hc).
  apply not_elem_of_cons. split; [congruence|]. apply (IH (pb_next b)); [|done]. intros Hn. pose proof (indeg_pos _ _ _ _ Hb Hn). lia.
Qed.

(** ** The invariant *)

(** What the heap promises; [heap_has h B] says that [B] are the blocks that were allocated
    from it, which are none of the elements [P] of the pools. *)
Class PbufHeapLaws (PH : PbufHeap) (P : gset Z) := {
  heap_has : hstate -> gset Z -> Prop;
  heap_malloc_spec n h B : heap_has h B -> 0 ≤ n < 65536 -> wp (heap_malloc n) (fun r h' => match r with
    | None => heap_has h' B
    | Some p => (p ∉ B) /\ (p ∉ P) /\ heap_has h' ({[p]} ∪ B) end) h;
  heap_free_spec p h B : heap_has h B -> p ∈ B -> wp (heap_free p) (fun _ h' => heap_has h' (B ∖ {[p]})) h;
}.

Section spec.
Context `{PH : PbufHeap} `{CP : !CustomPbuf} (PP PR : gset Z) {HL : PbufHeapLaws PH (PP ∪ PR)}.
Implicit Types (s : pbufs) (H : gmultiset Z).

(** From where a buffer that is not custom was allocated. *)
Definition source (b : pbuf) : Z := pbuf_get_allocsrc b.

(** The buffers of the pools: [tab] are the free ones. *)
Definition pool_ok st (tab : list Z) (P : gset Z) (src : Z) : Prop :=
  NoDup tab /\ (forall p, p ∈ tab -> st !! p = None) /\
  forall p, p ∈ P <-> p ∈ tab \/ exists b, st !! p = Some b /\ source b = src.

(** The blocks of the heap that are in use are buffers. *)
Definition heap_ok st (h : hstate) : Prop :=
  exists B, heap_has h B /\ forall p, p ∈ B <-> exists b, st !! p = Some b /\ source b = 0.

(** A reference that is about to be given up. *)
Definition pending (o : option Z) (p : Z) : nat := if decide (o = Some p) then 1 else 0.

Lemma pending_None p : pending None p = 0%nat.
Proof. done. Qed.

Lemma pending_self p : pending (Some p) p = 1%nat.
Proof. unfold pending. by rewrite decide_True. Qed.

Lemma pending_ne p q : q ≠ p -> pending (Some p) q = 0%nat.
Proof. intros Hne. unfold pending. rewrite decide_False; [done|congruence]. Qed.

(** A handle counts like a pending reference. *)
Lemma multiplicity_add p q H : multiplicity q ({[+ p +]} ⊎ H) = (multiplicity q H + pending (Some p) q)%nat.
Proof.
  rewrite multiplicity_disj_union. destruct (decide (q = p)) as [->|Hne].
  - rewrite multiplicity_singleton, decide_True, pending_self by done. lia.
  - rewrite multiplicity_singleton_ne, pending_ne by done. lia.
Qed.

Record pbufs_ok s H (o : option Z) : Prop := {
  po_ref p b : pb_store s !! p = Some b ->
    pb_ref b = Z.of_nat (multiplicity p H + indeg (pb_store s) p + pending o p) /\ 0 < pb_ref b < 256;
  po_handle p : p ∈ H \/ o = Some p -> is_Some (pb_store s !! p);
  po_chain p b : pb_store s !! p = Some b -> exists ps, chain (pb_store s) (pb_next b) ps;
  po_width p b : pb_store s !! p = Some b -> 0 ≤ pb_tot_len b < 65536 /\ 0 ≤ pb_len b < 65536;
  po_plain p b : pb_store s !! p = Some b -> Z.land (pb_flags b) PBUF_FLAG_IS_CUSTOM = 0 /\ (source b = 0 \/ source b = 1 \/ source b = 2);
  po_pool : pool_ok (pb_store s) (pool_tab s) PP 2;
  po_refs : pool_ok (pb_store s) (ref_tab s) PR 1;
  po_heap : heap_ok (pb_store s) (pb_heap s);
}.

Lemma po_chain_at s H o p : pbufs_ok s H o -> is_Some (pb_store s !! p) -> exists ps, chain (pb_store s) (Some p) ps.
Proof. intros Hok [b Hb]. destruct (po_chain _ _ _ Hok _ _ Hb) as [ps Hc]. exists (p :: ps). split; [done|]. by exists b. Qed.

Lemma wp_pb_read p b (Q : pbuf -> pbufs -> Prop) s : pb_store s !! p = Some b -> Q b s -> wp (pb_read p) Q s.
Proof. intros E HQ. unfold pb_read. wp_step. wp_step. rewrite E. by wp_step. Qed.

Lemma wp_pb_write p b (Q : unit -> pbufs -> Prop) s :
  is_Some (pb_store s !! p) -> Q tt (set_store (<[p := b]> (pb_store s)) s) -> wp (pb_write p b) Q s.
Proof. intros [x E] HQ. unfold pb_write. wp_step. eapply wp_pb_read; [done|]. by wp_step. Qed.

(** A change of a buffer that keeps its [next], its source and its flags. *)
Lemma pool_ok_insert st tab P src p b b' :
  st !! p = Some b -> source b' = source b -> pool_ok st tab P src -> pool_ok (<[p := b']> st) tab P src.
Proof.
  intros Hp Hs (Hnd & Hf & HP). split; [done|]. split.
  - intros q Hq. rewrite lookup_insert_ne; [by apply Hf|]. intros <-. specialize (Hf _ Hq). congruence.
  - intros q. rewrite HP. split; (intros [Hq|(x & Hx & Hsx)]; [by left|right]).
    + destruct (decide (p = q)) as [<-|Hne]; [exists b'; rewrite lookup_insert_eq; split; [done|congruence]|].
      exists x. by rewrite lookup_insert_ne.
    + apply lookup_insert_Some in Hx as [[<- <-]|[Hne Hx]]; [exists b; split; [done|congruence]|by exists x].
Qed.

Lemma heap_ok_insert st h p b b' : st !! p = Some b -> source b' = source b -> heap_ok st h -> heap_ok (<[p := b']> st) h.
Proof.
  intros Hp Hs (B & HB & Hh). exists B. split; [done|]. intros q. rewrite Hh. split; intros (x & Hx & Hsx).
  - destruct (decide (p = q)) as [<-|Hne]; [exists b'; rewrite lookup_insert_eq; split; [done|congruence]|]. exists x. by rewrite lookup_insert_ne.
  - apply lookup_insert_Some in Hx as [[<- <-]|[Hne Hx]]; [exists b; split; [done|congruence]|by exists x].
Qed.

Lemma ok_update s H o H' o' p b b' :
  pbufs_ok s H o -> pb_store s !! p = Some b -> pb_next b' = pb_next b -> pb_type_internal b' = pb_type_internal b ->
  pb_flags b' = pb_flags b -> (0 ≤ pb_tot_len b' < 65536 /\ 0 ≤ pb_len b' < 65536) -> 0 < pb_ref b' < 256 ->
  pb_ref b' - pb_ref b = Z.of_nat (multiplicity p H' + pending o' p) - Z.of_nat (multiplicity p H + pending o p) ->
  (forall q, q ≠ p -> (multiplicity q H' + pending o' q = multiplicity q H + pending o q)%nat) ->
  pbufs_ok (set_store (<[p := b']> (pb_store s)) s) H' o'.
Proof.
  intros Hok Hp Hn Ht Hfl Hw Hr Hdiff Hq. pose proof (po_ref _ _ _ Hok _ _ Hp) as [Hrp _].
  assert (Hsrc : source b' = source b) by (unfold source, pbuf_get_allocsrc; by rewrite Ht). split; simpl.
  - intros q x. rewrite (indeg_keep _ _ _ _ _ Hp Hn). intros [[<- <-]|[Hne Hx]]%lookup_insert_Some; [split; [lia|done]|].
    specialize (Hq q ltac:(congruence)). destruct (po_ref _ _ _ Hok _ _ Hx) as [Hx1 Hx2]. split; [lia|done].
  - intros q Hin. apply lookup_insert_is_Some. destruct (decide (p = q)) as [|Hne]; [by left|right; split; [done|]].
    apply (po_handle _ _ _ Hok). specialize (Hq q ltac:(congruence)).
    assert (Hpos : (0 < multiplicity q H' + pending o' q)%nat).
    { rewrite elem_of_multiplicity in Hin. destruct Hin as [Hin|Ho]; [lia|]. unfold pending. rewrite Ho, decide_True by done. lia. }
    rewrite Hq in Hpos. unfold pending in Hpos. rewrite elem_of_multiplicity. case_decide; [by right|left; lia].
  - intros q x [[<- <-]|[Hne Hx]]%lookup_insert_Some.
    + destruct (po_chain _ _ _ Hok _ _ Hp) as [ps Hc]. exists ps. rewrite Hn. by eapply chain_keep.
    + destruct (po_chain _ _ _ Hok _ _ Hx) as [ps Hc]. exists ps. by eapply chain_keep.
  - intros q x [[<- <-]|[Hne Hx]]%lookup_insert_Some; [done|by eapply (po_width _ _ _ Hok)].
  - intros q x [[<- <-]|[Hne Hx]]%lookup_insert_Some; [rewrite Hfl, Hsrc; by eapply (po_plain _ _ _ Hok)|by eapply (po_plain _ _ _ Hok)].
  - eapply pool_ok_insert; [done|done|apply Hok].
  - eapply pool_ok_insert; [done|done|apply Hok].
  - eapply heap_ok_insert; [done|done|apply Hok].
Qed.

(** ** Deallocation *)

Lemma pool_ok_delete st tab P src p b :
  st !! p = Some b -> source b ≠ src -> pool_ok st tab P src -> pool_ok (delete p st) tab P src.
Proof.
  intros Hp Hs (Hnd & Hf & HP). split; [done|]. split; [intros q Hq; rewrite lookup_delete_None; right; by apply Hf|].
  intros q. rewrite HP. split; (intros [Hq|(x & Hx & Hsx)]; [by left|right; exists x]).
  - rewrite lookup_delete_ne; [done|]. intros <-. congruence.
  - by apply lookup_delete_Some in Hx as [_ Hx].
Qed.

Lemma pool_ok_release st tab P src p b :
  st !! p = Some b -> source b = src -> pool_ok st tab P src -> pool_ok (delete p st) (p :: tab) P src.
Proof.
  intros Hp Hs (Hnd & Hf & HP). split; [|split].
  - constructor; [|done]. intros Hin. specialize (Hf _ Hin). congruence.
  - intros q [->|Hq]%elem_of_cons; [apply lookup_delete_eq|]. rewrite lookup_delete_None. right. by apply Hf.
  - intros q. rewrite HP, elem_of_cons. destruct (decide (q = p)) as [->|Hne].
    + split; [by left; left|]. intros _. right. by exists b.
    + rewrite lookup_delete_ne by done. naive_solver.
Qed.

Lemma pending_points b q : pending (pb_next b) q = points b q.
Proof. done. Qed.

(** The buffer [p], to which only the pending reference points, is gone; its reference to
    the next buffer is pending. *)
Lemma ok_delete s H p b s' :
  pbufs_ok s H (Some p) -> pb_store s !! p = Some b -> pb_ref b = 1 -> pb_store s' = delete p (pb_store s) ->
  pool_ok (pb_store s') (pool_tab s') PP 2 -> pool_ok (pb_store s') (ref_tab s') PR 1 ->
  heap_ok (pb_store s') (pb_heap s') ->
  pbufs_ok s' H (pb_next b).
Proof.
  intros Hok Hp Hone Es Hpool Hrefs Hheap. destruct (po_ref _ _ _ Hok _ _ Hp) as [Hr _].
  unfold pending in Hr. rewrite decide_True in Hr by done.
  assert (Hm : multiplicity p H = 0%nat) by lia. assert (Hi : indeg (pb_store s) p = 0%nat) by lia.
  assert (Hno : forall q x, pb_store s !! q = Some x -> pb_next x ≠ Some p) by (intros q x Hx Hn; pose proof (indeg_pos _ _ _ _ Hx Hn); lia).
  split; try done.
  - intros q x. rewrite Es. intros [Hne Hx]%lookup_delete_Some. destruct (po_ref _ _ _ Hok _ _ Hx) as [Hq1 Hq2]. split; [|done].
    rewrite Hq1, (indeg_delete _ _ _ q Hp), pending_points. unfold pending. rewrite decide_False by congruence. lia.
  - intros q Hin. rewrite Es. destruct Hin as [Hin|Hn].
    + rewrite lookup_delete_ne; [apply (po_handle _ _ _ Hok); by left|]. intros <-. rewrite elem_of_multiplicity in Hin. lia.
    + rewrite lookup_delete_ne; [|intros <-; by apply (Hno p b)]. destruct (po_chain _ _ _ Hok _ _ Hp) as [ps Hc]. rewrite Hn in Hc.
      destruct ps as [|p' ps]; [done|]. destruct Hc as ([= <-] & x & Hx & _). by exists x.
  - intros q x. rewrite Es. intros [Hne Hx]%lookup_delete_Some. destruct (po_chain _ _ _ Hok _ _ Hx) as [ps Hc]. exists ps.
    apply chain_delete; [|done]. eapply chain_indeg_0; [exact Hi|by eapply Hno|done].
  - intros q x. rewrite Es. intros [Hne Hx]%lookup_delete_Some. by eapply (po_width _ _ _ Hok).
  - intros q x. rewrite Es. intros [Hne Hx]%lookup_delete_Some. by eapply (po_plain _ _ _ Hok).
Qed.

(** Deallocating [p] after its count has reached zero. *)
Lemma dealloc_spec s H p b :
  pbufs_ok s H (Some p) -> pb_store s !! p = Some b -> pb_ref b = 1 ->
  wp (pbuf_dealloc p (pb_set_ref 0 b)) (fun _ s' => pbufs_ok s' H (pb_next b) /\ pb_store s' = delete p (pb_store s) /\
    bytes_of s' = bytes_of s) (set_store (<[p := pb_set_ref 0 b]> (pb_store s)) s).
Proof.
  intros Hok Hp Hone. destruct (po_plain _ _ _ Hok _ _ Hp) as [Hfl Hsrc]. unfold pbuf_dealloc. simpl. rewrite Hfl. simpl.
  fold (source (pb_set_ref 0 b)). change (source (pb_set_ref 0 b)) with (source b).
  pose proof (po_pool _ _ _ Hok) as Hpool. pose proof (po_refs _ _ _ Hok) as Hrefs. pose proof (po_heap _ _ _ Hok) as Hheap.
  destruct Hheap as (B & HB & Hheap).
  assert (Hh : source b ≠ 0 -> heap_ok (delete p (pb_store s)) (pb_heap s)).
  { intros Hs. exists B. split; [done|]. intros q. rewrite Hheap. split; intros (x & Hx & Hsx); exists x; [|by apply lookup_delete_Some in Hx as [_ Hx]].
    rewrite lookup_delete_ne; [done|]. intros <-. congruence. }
  destruct Hsrc as [Hs|[Hs|Hs]]; rewrite Hs; simpl.
  - wp_step. unfold with_pb_heap. wp_step; [done|]. eapply wp_mono; [apply (heap_free_spec p _ B HB), Hheap; by exists b|].
    intros [] h' Hb. wp_step. simpl. rewrite delete_insert_eq. split; [|done].
    eapply (ok_delete s H p b); [exact Hok|exact Hp|exact Hone|done|simpl; eapply pool_ok_delete; [exact Hp|lia|done]..|].
    exists (B ∖ {[p]}). split; [done|]. intros q. simpl. rewrite elem_of_difference, elem_of_singleton, Hheap. split.
    + intros [(x & ? & ?) ?]. exists x. by rewrite lookup_delete_ne.
    + intros (x & [? ?]%lookup_delete_Some & ?). split; [by exists x|done].
  - wp_step. wp_step. wp_step. simpl. rewrite delete_insert_eq. split; [|done].
    eapply (ok_delete s H p b); [exact Hok|exact Hp|exact Hone|done| | |apply Hh; lia]; simpl.
    + eapply pool_ok_delete; [exact Hp|lia|done].
    + by eapply pool_ok_release.
  - wp_step. wp_step. wp_step. simpl. rewrite delete_insert_eq. split; [|done].
    eapply (ok_delete s H p b); [exact Hok|exact Hp|exact Hone|done| | |apply Hh; lia]; simpl.
    + by eapply pool_ok_release.
    + eapply pool_ok_delete; [exact Hp|lia|done].
Qed.

(** The buffers of [s'] are ones of [s], with all their fields but the count. *)
Definition kept s s' : Prop :=
  forall q b', pb_store s' !! q = Some b' -> exists b, pb_store s !! q = Some b /\ b' = pb_set_ref (pb_ref b') b.

Lemma kept_refl s : kept s s.
Proof. intros q b Hb. exists b. split; [done|by destruct b]. Qed.

Lemma kept_trans s1 s2 s3 : kept s1 s2 -> kept s2 s3 -> kept s1 s3.
Proof. intros H12 H23 q b3 H3. destruct (H23 _ _ H3) as (b2 & H2 & E). destruct (H12 _ _ H2) as (b1 & H1 & E'). exists b1. split; [done|]. by rewrite E, E'. Qed.

(** What [pbuf_free] does to the chain [ps]: the buffers [dead] at its start are gone. *)
Definition freed s s' (ps dead : list Z) : Prop :=
  dead `prefix_of` ps /\ (forall q, pb_store s' !! q = None <-> q ∈ dead \/ pb_store s !! q = None) /\
  kept s s' /\ bytes_of s' = bytes_of s.

Lemma u8_succ x : u8 (u8 x + 1) = u8 (x + 1).
Proof. unfold u8. by rewrite Zplus_mod_idemp_l. Qed.

Lemma free_loop_spec H n : forall s o c ps,
  pbufs_ok s H o -> chain (pb_store s) o ps -> (length ps ≤ n)%nat ->
  wp (free_loop n o (u8 c)) (fun r s' => pbufs_ok s' H None /\ exists dead, freed s s' ps dead /\ r = u8 (c + Z.of_nat (length dead))) s.
Proof.
  induction n as [|n IH]; intros s o c ps Hok Hc Hlen; (destruct o as [p|]; [destruct ps as [|p' ps]; [done|]|]).
  all: try (simpl in Hlen; lia).
  1, 3: simpl; wp_step; split; [done|]; exists []; split; [|f_equal; simpl; lia]; split; [apply prefix_nil|]; split; [set_solver|]; split; [apply kept_refl|done].
  pose proof Hc as ([= <-] & b & Hb & Hc'). destruct (po_ref _ _ _ Hok _ _ Hb) as [Hr Hr']. simpl.
  wp_step. eapply wp_pb_read; [done|]. wp_step. wp_step; [lia|]. wp_step. apply wp_pb_write; [by exists b|].
  rewrite (u8_small (pb_ref b - 1)) by lia. unfold pending in Hr. rewrite decide_True in Hr by done.
  destruct (pb_ref b - 1 =? 0) eqn:Ez.
  - wp_step. replace (pb_ref b - 1) with 0 by lia. eapply wp_mono; [apply (dealloc_spec s H); [done|done|lia]|].
    intros [] s1 (Hok1 & Est & Eby). rewrite u8_succ. eapply wp_mono; [apply (IH s1 _ (c + 1) ps); [done| |simpl in Hlen; lia]|].
    { rewrite Est. apply chain_delete; [|done]. apply chain_nodup in Hc. by apply NoDup_cons in Hc as [? _]. }
    intros r s' (Hok' & dead & (Hpre & Hn & Hk & Hby) & ->). split; [done|]. exists (p :: dead). split; [|f_equal; simpl; lia].
    split; [by apply prefix_cons|]. split; [|split; [|congruence]].
    + intros q. rewrite Hn, Est, lookup_delete_None. set_solver.
    + intros q x Hx. destruct (Hk _ _ Hx) as (y & Hy & E). rewrite Est in Hy. apply lookup_delete_Some in Hy as [_ Hy]. by exists y.
  - wp_step. split.
    + eapply (ok_update s H (Some p) H None p b); try done; [by apply (po_width _ _ _ Hok p b)|simpl; lia|rewrite pending_self, pending_None; simpl; lia|].
      intros q Hq. by rewrite pending_ne.
    + exists []. split; [|f_equal; simpl; lia]. split; [apply prefix_nil|]. split; [|split; [|done]]; simpl.
      * intros q. rewrite lookup_insert_None. split; [intros [? _]; by right|intros [[]%not_elem_of_nil|Hq]]. split; [done|]. intros <-. congruence.
      * intros q x Hx. simpl in Hx. apply lookup_insert_Some in Hx as [[<- <-]|[_ Hx]]; [by exists b|exists x; split; [done|by destruct x]].
Qed.

(** A reference that is held, or that a field is about to give up, is pending. *)
Lemma handle_pending s H p : pbufs_ok s ({[+ p +]} ⊎ H) None -> pbufs_ok s H (Some p).
Proof.
  intros Hok. split; try apply Hok.
  - intros q b Hb. destruct (po_ref _ _ _ Hok _ _ Hb) as [Hr Hr']. split; [|done]. rewrite Hr, multiplicity_add, pending_None. lia.
  - intros q Hq. apply (po_handle _ _ _ Hok). left. destruct Hq as [Hq|[= ->]]; multiset_solver.
Qed.

Lemma pbuf_free_spec s H p ps : pbufs_ok s ({[+ p +]} ⊎ H) None -> chain (pb_store s) (Some p) ps ->
  wp (pbuf_free (Some p)) (fun r s' => pbufs_ok s' H None /\ exists dead, freed s s' ps dead /\ r = u8 (Z.of_nat (length dead))) s.
Proof.
  intros Hok Hc. unfold pbuf_free. wp_step. wp_step. apply (free_loop_spec H _ s (Some p) 0 ps); [by apply handle_pending|done|by eapply chain_size].
Qed.

(** ** References *)

Lemma pbuf_ref_run s p b : pb_store s !! p = Some b -> 0 ≤ pb_ref b < 255 ->
  wp (pbuf_ref (Some p)) (fun _ s' => s' = set_store (<[p := pb_set_ref (pb_ref b + 1) b]> (pb_store s)) s) s.
Proof.
  intros Hp Hr. unfold pbuf_ref. wp_step. eapply wp_pb_read; [done|].
  wp_step. apply wp_pb_write; [by exists b|]. rewrite u8_small by lia. wp_step. eapply wp_pb_read; [apply lookup_insert_eq|].
  wp_step; [simpl; lia|done].
Qed.

Lemma ok_ref s H o p b : pbufs_ok s H o -> pb_store s !! p = Some b -> pb_ref b < 255 ->
  pbufs_ok (set_store (<[p := pb_set_ref (pb_ref b + 1) b]> (pb_store s)) s) ({[+ p +]} ⊎ H) o.
Proof.
  intros Hok Hp Hr. pose proof (po_ref _ _ _ Hok _ _ Hp) as [Hr1 Hr2]. eapply (ok_update s H o _ o p b); try done.
  - by apply (po_width _ _ _ Hok p b).
  - simpl. lia.
  - rewrite multiplicity_add, pending_self. simpl. lia.
  - intros q Hq. rewrite multiplicity_add, pending_ne by done. lia.
Qed.

(** ** Linking and unlinking *)

(** The last buffer [l] of a chain takes over the pending reference to [t]. *)
Lemma ok_link s H l b t qs b' :
  pbufs_ok s H (Some t) -> pb_store s !! l = Some b -> pb_next b = None -> chain (pb_store s) (Some t) qs -> l ∉ qs ->
  pb_next b' = Some t -> pb_type_internal b' = pb_type_internal b -> pb_flags b' = pb_flags b -> pb_ref b' = pb_ref b ->
  (0 ≤ pb_tot_len b' < 65536 /\ 0 ≤ pb_len b' < 65536) ->
  pbufs_ok (set_store (<[l := b']> (pb_store s)) s) H None.
Proof.
  intros Hok Hl Hn Hq Hlq Hn' Ht Hfl Hr Hw. assert (Hsrc : source b' = source b) by (unfold source, pbuf_get_allocsrc; by rewrite Ht).
  assert (Hch : forall o ps, chain (pb_store s) o ps -> exists ps', chain (<[l := b']> (pb_store s)) o ps').
  { intros o ps Hc. destruct (decide (l ∈ ps)) as [Hin|]; [|exists ps; by apply chain_other].
    apply list_elem_of_split in Hin as (ps1 & ps2 & ->). assert (ps2 = []) as ->.
    { apply chain_suffix in Hc as (_ & x & Hx & Hc). rewrite Hl in Hx. injection Hx as <-. rewrite Hn in Hc. by destruct ps2 as [|? ?]; [|destruct Hc]. }
    eexists. by eapply chain_link. }
  pose proof (chain_other _ _ _ l b' Hlq Hq) as Hq'.
  split; simpl.
  - intros q x Hx. assert (Hi : (indeg (<[l := b']> (pb_store s)) q = indeg (pb_store s) q + pending (Some t) q)%nat).
    { pose proof (indeg_insert _ _ _ b' q Hl) as Hi. unfold points in Hi. rewrite Hn, Hn' in Hi. fold (pending (Some t) q) in Hi.
      fold (pending None q) in Hi. rewrite pending_None in Hi. lia. }
    rewrite Hi, pending_None. apply lookup_insert_Some in Hx as [[<- <-]|[_ Hx]]; [destruct (po_ref _ _ _ Hok _ _ Hl)|destruct (po_ref _ _ _ Hok _ _ Hx)]; split; lia.
  - intros q [Hin|]; [|done]. apply lookup_insert_is_Some'. right. apply (po_handle _ _ _ Hok). by left.
  - intros q x [[<- <-]|[_ Hx]]%lookup_insert_Some; [rewrite Hn'; by exists qs|]. destruct (po_chain _ _ _ Hok _ _ Hx) as [ps Hc]. by eapply Hch.
  - intros q x [[<- <-]|[_ Hx]]%lookup_insert_Some; [done|by eapply (po_width _ _ _ Hok)].
  - intros q x [[<- <-]|[_ Hx]]%lookup_insert_Some; [rewrite Hfl, Hsrc|]; by eapply (po_plain _ _ _ Hok).
  - eapply pool_ok_insert; [done|done|apply Hok].
  - eapply pool_ok_insert; [done|done|apply Hok].
  - eapply heap_ok_insert; [done|done|apply Hok].
Qed.

(** The reference that [p] gives up is pending. *)
Lemma ok_unlink s H p b q b' :
  pbufs_ok s H None -> pb_store s !! p = Some b -> pb_next b = Some q ->
  pb_next b' = None -> pb_type_internal b' = pb_type_internal b -> pb_flags b' = pb_flags b -> pb_ref b' = pb_ref b ->
  (0 ≤ pb_tot_len b' < 65536 /\ 0 ≤ pb_len b' < 65536) ->
  pbufs_ok (set_store (<[p := b']> (pb_store s)) s) H (Some q).
Proof.
  intros Hok Hp Hn Hn' Ht Hfl Hr Hw. assert (Hsrc : source b' = source b) by (unfold source, pbuf_get_allocsrc; by rewrite Ht).
  assert (Hch : forall ps o, chain (pb_store s) o ps -> exists ps', chain (<[p := b']> (pb_store s)) o ps').
  { induction ps as [|a ps IH]; intros o; simpl; [intros ->; by exists []|]. intros (-> & x & Hx & Hc).
    destruct (decide (p = a)) as [<-|Hne]; [exists [p]; split; [done|]; exists b'; by rewrite lookup_insert_eq|].
    destruct (IH _ Hc) as [ps' Hps]. exists (a :: ps'). split; [done|]. exists x. by rewrite lookup_insert_ne. }
  destruct (po_chain _ _ _ Hok _ _ Hp) as [[|q' qs] Hq]; [simpl in Hq; congruence|]. rewrite Hn in Hq. destruct Hq as ([= <-] & bq & Hbq & _).
  split; simpl.
  - intros a x Hx. assert (Hi : (indeg (pb_store s) a = indeg (<[p := b']> (pb_store s)) a + pending (Some q) a)%nat).
    { pose proof (indeg_insert _ _ _ b' a Hp) as Hi. unfold points in Hi. rewrite Hn, Hn' in Hi. fold (pending (Some q) a) in Hi.
      fold (pending None a) in Hi. rewrite pending_None in Hi. lia. }
    apply lookup_insert_Some in Hx as [[<- <-]|[_ Hx]]; [destruct (po_ref _ _ _ Hok _ _ Hp) as [E ?]|destruct (po_ref _ _ _ Hok _ _ Hx) as [E ?]];
      rewrite Hi, pending_None in E; split; lia.
  - intros a Ha. apply lookup_insert_is_Some'. right. destruct Ha as [Ha|[= <-]]; [apply (po_handle _ _ _ Hok); by left|by exists bq].
  - intros a x [[<- <-]|[_ Hx]]%lookup_insert_Some; [rewrite Hn'; by exists []|]. destruct (po_chain _ _ _ Hok _ _ Hx) as [ps Hc]. by eapply Hch.
  - intros a x [[<- <-]|[_ Hx]]%lookup_insert_Some; [lia|by eapply (po_width _ _ _ Hok)].
  - intros a x [[<- <-]|[_ Hx]]%lookup_insert_Some; [rewrite Hfl, Hsrc|]; by eapply (po_plain _ _ _ Hok).
  - eapply pool_ok_insert; [done|done|apply Hok].
  - eapply pool_ok_insert; [done|done|apply Hok].
  - eapply heap_ok_insert; [done|done|apply Hok].
Qed.

(** A buffer that has just been allocated is one that the client holds. *)
Lemma ok_new s H p b s' :
  pbufs_ok s H None -> pb_store s !! p = None -> pb_store s' = <[p := b]> (pb_store s) ->
  pb_next b = None -> pb_ref b = 1 -> (0 ≤ pb_tot_len b < 65536 /\ 0 ≤ pb_len b < 65536) ->
  Z.land (pb_flags b) PBUF_FLAG_IS_CUSTOM = 0 -> (source b = 0 \/ source b = 1 \/ source b = 2) ->
  pool_ok (pb_store s') (pool_tab s') PP 2 -> pool_ok (pb_store s') (ref_tab s') PR 1 ->
  heap_ok (pb_store s') (pb_heap s') ->
  pbufs_ok s' ({[+ p +]} ⊎ H) None.
Proof.
  intros Hok Hp Es Hn Hr Hw Hfl Hsrc Hpool Hrefs Hheap.
  assert (Hch : forall o ps, chain (pb_store s) o ps -> chain (pb_store s') o ps).
  { intros o ps Hc. rewrite Es. apply chain_other; [|done]. intros Hin. destruct (chain_elem _ _ _ _ Hc Hin). congruence. }
  assert (Hm : multiplicity p H = 0%nat).
  { destruct (decide (p ∈ H)) as [Hin|Hin]; [|by apply not_elem_of_multiplicity]. destruct (po_handle _ _ _ Hok p (or_introl Hin)). congruence. }
  assert (Hi : indeg (pb_store s) p = 0%nat).
  { destruct (indeg (pb_store s) p) eqn:E; [done|]. destruct (indeg_pred (pb_store s) p ltac:(lia)) as (q & x & Hx & Hnx).
    destruct (po_chain _ _ _ Hok _ _ Hx) as [[|p' ps] Hc]; [simpl in Hc; congruence|]. rewrite Hnx in Hc. destruct Hc as ([= <-] & y & Hy & _). congruence. }
  assert (Hi' : forall q, indeg (pb_store s') q = indeg (pb_store s) q).
  { intros q. rewrite Es, indeg_new by done. unfold points. rewrite Hn. fold (pending None q). rewrite pending_None. lia. }
  split; try done.
  - intros q x. rewrite Hi', multiplicity_add, pending_None, Es.
    intros [[<- <-]|[Hne Hx]]%lookup_insert_Some; [rewrite pending_self; split; lia|rewrite pending_ne by done].
    destruct (po_ref _ _ _ Hok _ _ Hx) as [E ?]. rewrite pending_None in E. split; lia.
  - intros q [Hin|]; [|done]. rewrite Es. destruct (decide (p = q)) as [<-|Hne]; [rewrite lookup_insert_eq; by eexists|].
    rewrite lookup_insert_ne by done. apply (po_handle _ _ _ Hok). left. multiset_solver.
  - intros q x. rewrite Es. intros [[<- <-]|[_ Hx]]%lookup_insert_Some; [exists []; by rewrite Hn|].
    destruct (po_chain _ _ _ Hok _ _ Hx) as [ps Hc]. exists ps. rewrite <- Es. by apply Hch.
  - intros q x. rewrite Es. intros [[<- <-]|[_ Hx]]%lookup_insert_Some; [lia|by eapply (po_width _ _ _ Hok)].
  - intros q x. rewrite Es. intros [[<- <-]|[_ Hx]]%lookup_insert_Some; [done|by eapply (po_plain _ _ _ Hok)].
Qed.

(** ** Reachability *)

Lemma chain_next st o ps q b p : chain st o ps -> q ∈ ps -> st !! q = Some b -> pb_next b = Some p -> p ∈ ps.
Proof.
  intros Hc (ps1 & ps2 & ->)%list_elem_of_split Hb Hn. apply chain_suffix in Hc as (_ & x & Hx & Hc). rewrite Hb in Hx. injection Hx as <-.
  rewrite Hn in Hc. destruct ps2 as [|p' ps2]; [done|]. destruct Hc as [[= <-] _]. set_solver.
Qed.

(** Every buffer is part of a chain that a client holds. *)
Lemma buffer_reachable s H p b : pbufs_ok s H None -> pb_store s !! p = Some b ->
  exists h ps, h ∈ H /\ chain (pb_store s) (Some h) ps /\ p ∈ ps.
Proof.
  intros Hok Hp. destruct (po_chain_at s H None p Hok ltac:(by exists b)) as [ps Hc]. clear Hp b.
  remember (size (pb_store s) - length ps)%nat as n eqn:En. revert p ps Hc En. induction (lt_wf n) as [n _ IH]. intros p ps Hc ->.
  destruct ps as [|p' ps]; [done|]. pose proof Hc as ([= <-] & b & Hb & _). destruct (po_ref _ _ _ Hok _ _ Hb) as [Hr Hr'].
  destruct (decide (p ∈ H)) as [Hin|Hin]; [exists p, (p :: ps); split; [done|]; split; [done|set_solver]|].
  rewrite not_elem_of_multiplicity in Hin. rewrite Hin, pending_None in Hr.
  destruct (indeg_pred (pb_store s) p ltac:(lia)) as (q & x & Hx & Hn).
  assert (Hcq : chain (pb_store s) (Some q) (q :: p :: ps)) by (split; [done|]; exists x; by rewrite Hn).
  pose proof (chain_size _ _ _ Hcq) as Hsz. simpl in Hsz.
  destruct (IH (size (pb_store s) - length (q :: p :: ps))%nat ltac:(simpl; lia) q _ Hcq eq_refl) as (h & hs & Hh & Hhc & Hqs).
  exists h, hs. split; [done|]. split; [done|by eapply chain_next].
Qed.

(** When the clients hold nothing, the memory is as it was before the first allocation. *)
Lemma nothing_held s : pbufs_ok s ∅ None ->
  pb_store s = ∅ /\ (forall p, p ∈ PP <-> p ∈ pool_tab s) /\ (forall p, p ∈ PR <-> p ∈ ref_tab s) /\ heap_has (pb_heap s) ∅.
Proof.
  intros Hok. assert (Hst : pb_store s = ∅).
  { apply map_empty. intros p. destruct (pb_store s !! p) as [b|] eqn:Hp; [|done]. destruct (buffer_reachable _ _ _ _ Hok Hp) as (h & ? & Hh & _). multiset_solver. }
  split; [done|]. destruct (po_pool _ _ _ Hok) as (_ & _ & Hpp). destruct (po_refs _ _ _ Hok) as (_ & _ & Hpr). destruct (po_heap _ _ _ Hok) as (B & HB & Hh).
  rewrite Hst in *. split; [|split].
  - intros p. rewrite Hpp. split; [intros [?|(x & Hx & _)]; [done|by rewrite lookup_empty in Hx]|by left].
  - intros p. rewrite Hpr. split; [intros [?|(x & Hx & _)]; [done|by rewrite lookup_empty in Hx]|by left].
  - replace ∅ with B; [done|]. apply set_eq. intros p. rewrite Hh. split; [intros (x & Hx & _); by rewrite lookup_empty in Hx|set_solver].
Qed.

End spec.
