(* ===== verification/LwipPbufOps.v ===== *)
(** * The operations on packets

    A packet is a chain of buffers in which every [tot_len] is the number of bytes from its
    buffer on.  Appending a packet to another one gives the bytes of both; a packet that is
    allocated has the length that was asked for; and every sequence of operations that
    respects the rules of the references keeps the counts of LwipPbufSpec. *)

From stdpp Require Import base gmap gmultiset list numbers.
From S2P Require Import Prelude.
From S2P Require Import Bytes.
From S2P Require Import LwipMem.
From S2P Require Import LwipPbuf.
From S2P Require Import LwipPbufSpec.

Open Scope Z_scope.

Implicit Types (st : gmap Z pbuf) (b : pbuf).

(** ** Packets *)

Definition len_of st (p : Z) : Z := match st !! p with Some b => pb_len b | None => 0 end.

Fixpoint lens st (ps : list Z) : Z := match ps with [] => 0 | p :: ps => len_of st p + lens st ps end.

(** The total of every buffer is the number of bytes from it on, of which [r] are to come
    after the last one. *)
Fixpoint totals st (ps : list Z) (r : Z) : Prop :=
  match ps with
  | [] => True
  | p :: ps => (exists b, st !! p = Some b /\ pb_tot_len b = lens st (p :: ps) + r) /\ totals st ps r
  end.

(** The bytes of the buffers [ps]; [m] is the memory. *)
Definition data_of st (m : gmap Z Z) (p : Z) : list Z :=
  match st !! p with Some b => mem_read m (pb_payload b) (Z.to_nat (pb_len b)) | None => [] end.

Definition data st (m : gmap Z Z) (ps : list Z) : list Z := ps ≫= data_of st m.

Definition packet st (p : Z) (ps : list Z) : Prop := chain st (Some p) ps /\ totals st ps 0.

(** The total of the last buffer is its length. *)
Definition last_ok st : Prop := forall p b, st !! p = Some b -> pb_next b = None -> pb_tot_len b = pb_len b.

(** The buffer at [p] has the same bytes in both stores. *)
Definition same_data st st' (p : Z) : Prop :=
  exists b b', st !! p = Some b /\ st' !! p = Some b' /\ pb_len b' = pb_len b /\ pb_payload b' = pb_payload b.

Lemma same_len st st' ps : Forall (same_data st st') ps -> lens st' ps = lens st ps.
Proof.
  induction 1 as [|p ps (b & b' & Hb & Hb' & Hl & _) _ IH]; [done|]. simpl. rewrite IH. unfold len_of. by rewrite Hb, Hb', Hl.
Qed.

Lemma same_bytes st st' m ps : Forall (same_data st st') ps -> data st' m ps = data st m ps.
Proof.
  induction 1 as [|p ps (b & b' & Hb & Hb' & Hl & Hp) _ IH]; [done|]. unfold data in *. rewrite !bind_cons, IH. f_equal. unfold data_of. by rewrite Hb, Hb', Hl, Hp.
Qed.

Lemma lens_app st ps qs : lens st (ps ++ qs) = lens st ps + lens st qs.
Proof. induction ps as [|p ps IH]; simpl; [lia|]. rewrite IH. lia. Qed.

Lemma totals_app st ps qs r : totals st (ps ++ qs) r <-> totals st ps (lens st qs + r) /\ totals st qs r.
Proof.
  induction ps as [|p ps IH]; simpl; [tauto|]. rewrite IH, lens_app.
  assert (E : len_of st p + (lens st ps + lens st qs) + r = len_of st p + lens st ps + (lens st qs + r)) by lia. rewrite E. tauto.
Qed.

Lemma totals_ext st st' ps r :
  Forall (same_data st st') ps -> (forall p b b', p ∈ ps -> st !! p = Some b -> st' !! p = Some b' -> pb_tot_len b' = pb_tot_len b) ->
  totals st ps r -> totals st' ps r.
Proof.
  induction ps as [|p ps IH]; intros Hs Ht; [done|]. intros [(b & Hb & Hbt) Hts]. pose proof (same_len _ _ _ Hs) as Hl.
  pose proof Hs as [(x & b' & Hx & Hb' & _) Hs']%Forall_cons. split.
  - exists b'. split; [done|]. rewrite Hl, <- Hbt. apply (Ht p); [set_solver|done|done].
  - apply IH; [done| |done]. intros q c c' Hq. apply Ht. set_solver.
Qed.

(** ** Appending *)

Lemma alter_at (f : pbuf -> pbuf) st p b : st !! p = Some b -> alter f p st = <[p := f b]> st.
Proof.
  intros Hp. apply map_eq. intros q. destruct (decide (p = q)) as [<-|Hne].
  - by rewrite lookup_alter_eq, lookup_insert_eq, Hp.
  - by rewrite lookup_alter_ne, lookup_insert_ne.
Qed.

Lemma alter_swap (f g : pbuf -> pbuf) st p q : p ≠ q -> alter f p (alter g q st) = alter g q (alter f p st).
Proof.
  intros Hne. apply map_eq. intros i. destruct (decide (i = p)) as [->|Hp]; [|destruct (decide (i = q)) as [->|Hq]].
  - by rewrite lookup_alter_eq, !(lookup_alter_ne _ _ q), lookup_alter_eq.
  - by rewrite lookup_alter_eq, !(lookup_alter_ne _ _ p), lookup_alter_eq.
  - by rewrite !lookup_alter_ne.
Qed.

(** What [pbuf_cat] does to a buffer of the first chain. *)
Definition cat_buf (t T : Z) (b : pbuf) : pbuf :=
  let b' := pb_set_tot_len (u16 (pb_tot_len b + T)) b in
  match pb_next b with None => pb_set_next (Some t) b' | Some _ => b' end.

Lemma cat_buf_fields t T b : let b' := cat_buf t T b in
  pb_type_internal b' = pb_type_internal b /\ pb_flags b' = pb_flags b /\ pb_ref b' = pb_ref b /\ pb_len b' = pb_len b /\
  pb_payload b' = pb_payload b /\ pb_tot_len b' = u16 (pb_tot_len b + T).
Proof. unfold cat_buf. by destruct (pb_next b). Qed.

Definition cat_store (t T : Z) (ps : list Z) st : gmap Z pbuf := foldl (fun st p => alter (cat_buf t T) p st) st ps.

Lemma cat_cons t T p ps st : cat_store t T (p :: ps) st = cat_store t T ps (alter (cat_buf t T) p st).
Proof. done. Qed.

Lemma cat_lookup t T ps st q : NoDup ps ->
  cat_store t T ps st !! q = if decide (q ∈ ps) then cat_buf t T <$> st !! q else st !! q.
Proof.
  revert st. induction ps as [|p ps IH]; intros st; [by rewrite decide_False by set_solver|]. intros [Hp Hnd]%NoDup_cons.
  rewrite cat_cons, IH by done. destruct (decide (q = p)) as [->|Hne].
  - rewrite decide_False, decide_True, lookup_alter_eq by set_solver. done.
  - rewrite !lookup_alter_ne by done. destruct (decide (q ∈ ps)); [rewrite decide_True by set_solver|rewrite decide_False by set_solver]; done.
Qed.

Lemma cat_commute t T ps st (f : pbuf -> pbuf) q : q ∉ ps -> alter f q (cat_store t T ps st) = cat_store t T ps (alter f q st).
Proof.
  revert st. induction ps as [|p ps IH]; intros st Hq; [done|]. rewrite !cat_cons, IH by set_solver. f_equal. apply alter_swap. set_solver.
Qed.

Lemma chain_inner st o ps l p b : chain st o (ps ++ [l]) -> p ∈ ps -> st !! p = Some b -> pb_next b ≠ None.
Proof.
  intros Hc (ps1 & ps2 & ->)%list_elem_of_split Hb. rewrite <- app_assoc in Hc. apply chain_suffix in Hc as (_ & x & Hx & Hc).
  rewrite Hb in Hx. injection Hx as <-. destruct ps2; simpl in Hc; by destruct Hc as [-> _].
Qed.

Lemma chain_end st o ps l b : chain st o (ps ++ [l]) -> st !! l = Some b -> pb_next b = None.
Proof. intros Hc Hb. apply chain_suffix in Hc as (_ & x & Hx & Hc). rewrite Hb in Hx. by injection Hx as <-. Qed.

Lemma chain_append st st' o ps l t qs :
  chain st o (ps ++ [l]) -> (forall p b, p ∈ ps -> st !! p = Some b -> exists b', st' !! p = Some b' /\ pb_next b' = pb_next b) ->
  (exists b', st' !! l = Some b' /\ pb_next b' = Some t) -> chain st' (Some t) qs -> chain st' o ((ps ++ [l]) ++ qs).
Proof.
  revert o. induction ps as [|p ps IH]; intros o Hc Hps (b' & Hl & Hn) Hq; simpl in *.
  - destruct Hc as (-> & _). split; [done|]. exists b'. by rewrite Hn.
  - destruct Hc as (-> & b & Hb & Hc). split; [done|]. destruct (Hps p b ltac:(set_solver) Hb) as (x & Hx & Hxn). exists x. split; [done|].
    rewrite Hxn. apply IH; [done| |by exists b'|done]. intros q c Hq' Hc'. apply Hps; [set_solver|done].
Qed.

(** The packet [ps] followed by the packet [qs]. *)
Lemma cat_same st t T ps qs : NoDup ps -> (forall p, p ∈ ps ++ qs -> is_Some (st !! p)) ->
  Forall (same_data st (cat_store t T ps st)) (ps ++ qs).
Proof.
  intros Hnd Hin. apply Forall_forall. intros p Hp. destruct (Hin p Hp) as [b Hb]. unfold same_data. rewrite cat_lookup by done. case_decide.
  - exists b, (cat_buf t T b). rewrite Hb. split; [done|]. split; [done|]. unfold cat_buf. by destruct (pb_next b).
  - by exists b, b.
Qed.

Lemma cat_totals st t ps qs : NoDup ps -> (forall p, p ∈ ps ++ qs -> is_Some (st !! p)) -> ps ## qs ->
  (forall p b, st !! p = Some b -> 0 ≤ pb_len b) -> totals st ps 0 -> totals st qs 0 -> lens st ps + lens st qs < 65536 ->
  totals (cat_store t (lens st qs) ps st) (ps ++ qs) 0.
Proof.
  intros Hnd Hin Hdis Hpos Hps Hqs Hsum. pose proof (cat_same st t (lens st qs) ps qs Hnd Hin) as [Hs1 Hs2]%Forall_app.
  assert (Hge : forall xs, 0 ≤ lens st xs).
  { induction xs as [|x xs IH]; simpl; [lia|]. unfold len_of. destruct (st !! x) as [b|] eqn:E; [|lia]. specialize (Hpos _ _ E). lia. }
  apply totals_app. split.
  - rewrite (same_len _ _ _ Hs2), Z.add_0_r.
    assert (Hall : forall p b, p ∈ ps -> st !! p = Some b -> cat_store t (lens st qs) ps st !! p = Some (cat_buf t (lens st qs) b)).
    { intros p b Hp Hb. by rewrite cat_lookup, decide_True, Hb by done. }
    generalize dependent (cat_store t (lens st qs) ps st). intros st' Hs1 Hs2 Hall. clear Hnd Hin Hdis Hs2. pose proof (Hge qs) as Hq.
    induction ps as [|p ps IH]; [done|]. destruct Hps as [(b & Hb & Ht) Hps]. split.
    + exists (cat_buf t (lens st qs) b). split; [apply Hall; [set_solver|done]|]. rewrite (same_len _ _ _ Hs1). pose proof (Hge (p :: ps)) as Hp.
      assert (E : pb_tot_len (cat_buf t (lens st qs) b) = u16 (pb_tot_len b + lens st qs)) by (unfold cat_buf; by destruct (pb_next b)).
      rewrite E, Ht. rewrite u16_small by lia. lia.
    + apply Forall_cons in Hs1 as [Hp1 Hs1]. apply IH; [done| |done|intros; apply Hall; [set_solver|done]].
      simpl in Hsum. unfold len_of in Hsum. rewrite Hb in Hsum. specialize (Hpos _ _ Hb). lia.
  - eapply totals_ext; [exact Hs2| |done]. intros p b b' Hp Hb. rewrite cat_lookup, decide_False by (done || set_solver). congruence.
Qed.

Lemma cat_chain st o t T ps l qs : chain st o (ps ++ [l]) -> chain st (Some t) qs -> (ps ++ [l]) ## qs ->
  chain (cat_store t T (ps ++ [l]) st) o ((ps ++ [l]) ++ qs).
Proof.
  intros Hc Hq Hdis. pose proof (chain_nodup _ _ _ Hc) as Hnd. apply (chain_append st _ _ _ _ t); [done|..].
  - intros p b Hp Hb. rewrite cat_lookup, decide_True, Hb by (done || set_solver). eexists. split; [done|].
    pose proof (chain_inner _ _ _ _ _ _ Hc Hp Hb). unfold cat_buf. destruct (pb_next b) eqn:E; [exact E|done].
  - destruct (chain_elem _ _ _ l Hc ltac:(set_solver)) as [b Hb]. rewrite cat_lookup, decide_True, Hb by (done || set_solver).
    eexists. split; [done|]. unfold cat_buf. by rewrite (chain_end _ _ _ _ _ Hc Hb).
  - assert (Hsub : forall p, p ∈ qs -> cat_store t T (ps ++ [l]) st !! p = st !! p) by (intros p Hp; rewrite cat_lookup, decide_False by (done || set_solver); done).
    clear Hc Hdis Hnd. revert Hq Hsub. generalize (Some t). induction qs as [|q qs IH]; intros o'; simpl; [done|]. intros (-> & b & Hb & Hq) Hsub.
    split; [done|]. exists b. rewrite Hsub by set_solver. split; [done|]. apply IH; [done|]. intros p Hp. apply Hsub. set_solver.
Qed.

(** Two chains that have a buffer in common have the same last one. *)
Lemma chains_disjoint st o o' ps l qs : chain st o (ps ++ [l]) -> chain st o' qs -> l ∉ qs -> (ps ++ [l]) ## qs.
Proof.
  intros Hc Hq Hl p Hp Hp'. apply list_elem_of_split in Hp as (ps1 & ps2 & E). apply list_elem_of_split in Hp' as (qs1 & qs2 & ->).
  rewrite E in Hc. apply chain_suffix in Hc. apply chain_suffix in Hq. pose proof (chain_fun _ _ _ _ Hc Hq) as [= ->].
  apply Hl. apply elem_of_app. right. destruct qs2 as [|x qs2] using rev_ind.
  - apply app_inj_tail in E as [_ ->]. set_solver.
  - rewrite app_comm_cons, app_assoc in E. apply app_inj_tail in E as [_ ->]. set_solver.
Qed.

Section ops.
Context `{PH : PbufHeap} `{CP : !CustomPbuf} (PP PR : gset Z) {HL : PbufHeapLaws PH (PP ∪ PR)}.
Implicit Types (s : pbufs) (H : gmultiset Z).

Local Abbreviation ok := (pbufs_ok PP PR).

Lemma cat_loop_spec t bt n : forall ps h l s,
  chain (pb_store s) (Some h) (ps ++ [l]) -> (length ps < n)%nat -> t ∉ ps -> pb_store s !! t = Some bt ->
  wp (cat_loop n h t) (fun r s' => r = l /\ s' = set_store (cat_store t (pb_tot_len bt) ps (pb_store s)) s) s.
Proof.
  induction n as [|n IH]; intros ps h l s Hc Hlen Ht Hbt; [lia|]. simpl. destruct ps as [|p ps]; simpl in Hc; destruct Hc as ([= ->] & b & Hb & Hc).
  - simpl in Hc. wp_step. eapply wp_pb_read; [done|]. rewrite Hc. wp_step. split; [done|]. by destruct s.
  - wp_step. eapply wp_pb_read; [done|]. pose proof Hc as Hc'. destruct (pb_next b) as [q|] eqn:Hn; [|destruct ps; by destruct Hc].
    wp_step. eapply wp_pb_read; [done|]. wp_step. apply wp_pb_write; [by exists b|].
    set (b' := pb_set_tot_len _ b). set (s1 := set_store (<[p := b']> (pb_store s)) s). assert (Hne : p ≠ t) by set_solver.
    eapply wp_mono; [apply (IH ps q l s1); simpl|].
    + rewrite <- Hn in Hc. rewrite <- Hn. by eapply chain_keep.
    + simpl in Hlen. lia.
    + set_solver.
    + by rewrite lookup_insert_ne.
    + intros r s' [-> ->]. split; [done|]. rewrite cat_cons, (alter_at _ _ _ _ Hb). unfold cat_buf. by rewrite Hn.
Qed.

Lemma pbuf_cat_run s h t bt ps l bl :
  chain (pb_store s) (Some h) (ps ++ [l]) -> t ∉ ps ++ [l] -> pb_store s !! t = Some bt ->
  pb_store s !! l = Some bl -> pb_tot_len bl = pb_len bl ->
  wp (pbuf_cat (Some h) (Some t)) (fun _ s' => s' = set_store (cat_store t (pb_tot_len bt) (ps ++ [l]) (pb_store s)) s) s.
Proof.
  intros Hc Ht Hbt Hl Hlast. pose proof (chain_nodup _ _ _ Hc) as Hnd. pose proof (chain_size _ _ _ Hc) as Hsz. rewrite length_app in Hsz. simpl in Hsz.
  apply NoDup_app in Hnd as (Hnd & Hlp & _). assert (Hl' : l ∉ ps) by set_solver.
  unfold pbuf_cat. wp_step. wp_step. wp_step. eapply wp_mono; [apply (cat_loop_spec t bt _ ps h l s); [done|lia|set_solver|done]|].
  intros r s' [-> ->]. set (st' := cat_store t (pb_tot_len bt) ps (pb_store s)).
  assert (Hl2 : st' !! l = Some bl) by (unfold st'; rewrite cat_lookup, decide_False by done; done).
  assert (Ht2 : st' !! t = Some bt) by (unfold st'; rewrite cat_lookup, decide_False by (done || set_solver); done).
  pose proof (chain_end _ _ _ _ _ Hc Hl) as Hn. wp_step. eapply wp_pb_read; [done|]. wp_step. wp_step; [by apply Z.eqb_eq|].
  rewrite Hn. wp_step. wp_step; [done|]. wp_step. eapply wp_pb_read; [done|]. wp_step. apply wp_pb_write; [by exists bl|].
  apply wp_pb_write; [simpl; rewrite lookup_insert_eq; by eexists|]. simpl. rewrite insert_insert_eq. unfold set_store. simpl. f_equal.
  unfold cat_store at 1. rewrite foldl_app. simpl. fold (cat_store t (pb_tot_len bt) ps (pb_store s)). fold st'.
  rewrite (alter_at _ _ _ _ Hl2). unfold cat_buf. by rewrite Hn.
Qed.

Lemma ok_cat H t T qs l : forall ps h s, ok s H (Some t) -> chain (pb_store s) (Some h) (ps ++ [l]) -> chain (pb_store s) (Some t) qs -> l ∉ qs ->
  ok (set_store (cat_store t T (ps ++ [l]) (pb_store s)) s) H None.
Proof.
  induction ps as [|p ps IH]; intros h s Hok Hc Hq Hl; simpl in Hc; destruct Hc as ([= ->] & b & Hb & Hc).
  all: destruct (po_width _ _ _ _ _ Hok _ _ Hb) as [_ Hw]; destruct (po_ref _ _ _ _ _ Hok _ _ Hb) as [_ Hr].
  all: destruct (cat_buf_fields t T b) as (Et & Ef & Er & El & _ & Etot).
  all: assert (Hw' : 0 ≤ pb_tot_len (cat_buf t T b) < 65536 /\ 0 ≤ pb_len (cat_buf t T b) < 65536) by (rewrite Etot, El; split; [apply u16_range|done]).
  - simpl in Hc. simpl app. rewrite cat_cons, (alter_at _ _ _ _ Hb).
    eapply (ok_link _ _ s H l b t qs); try done. unfold cat_buf. by rewrite Hc.
  - rewrite <- app_comm_cons, cat_cons, (alter_at _ _ _ _ Hb). destruct (pb_next b) as [q|] eqn:Hn; [|destruct ps; by destruct Hc].
    set (s1 := set_store (<[p := cat_buf t T b]> (pb_store s)) s).
    assert (Hn1 : pb_next (cat_buf t T b) = pb_next b) by (unfold cat_buf; rewrite Hn; exact Hn).
    apply (IH q s1); [|by eapply chain_keep|by eapply chain_keep|done].
    eapply (ok_update _ _ s H (Some t) H (Some t) p b); try done; [by rewrite Er|rewrite Er; lia].
Qed.

Lemma cat_last_ok st t T h ps l : chain st (Some h) (ps ++ [l]) -> last_ok st -> last_ok (cat_store t T (ps ++ [l]) st).
Proof.
  intros Hc Hlast p b. rewrite cat_lookup by (by eapply chain_nodup). case_decide as Hin; [|by apply Hlast].
  destruct (st !! p) as [x|] eqn:Hx; [|done]. simpl. intros [= <-]. apply elem_of_app in Hin as [Hin|Hin].
  - pose proof (chain_inner _ _ _ _ _ _ Hc Hin Hx) as Hn. unfold cat_buf. destruct (pb_next x) eqn:E; [simpl; congruence|done].
  - apply list_elem_of_singleton in Hin as ->. pose proof (chain_end _ _ _ _ _ Hc Hx) as Hn. unfold cat_buf. by rewrite Hn.
Qed.

Lemma chain_last st h ps : chain st (Some h) ps -> exists ps' l, ps = ps' ++ [l].
Proof. destruct ps as [|l ps' _] using rev_ind; [done|]. by exists ps', l. Qed.

(** [pbuf_cat] takes over the reference to [t]. *)
Lemma pbuf_cat_spec s H h t ps qs :
  ok s ({[+ t +]} ⊎ H) None -> last_ok (pb_store s) -> chain (pb_store s) (Some h) ps -> chain (pb_store s) (Some t) qs -> ps ## qs ->
  wp (pbuf_cat (Some h) (Some t)) (fun _ s' => ok s' H None /\ last_ok (pb_store s') /\
    exists bt, pb_store s !! t = Some bt /\ s' = set_store (cat_store t (pb_tot_len bt) ps (pb_store s)) s) s.
Proof.
  intros Hok Hlast Hc Hq Hdis. destruct (chain_last _ _ _ Hc) as (ps' & l & ->). destruct qs as [|t' qs]; [done|].
  pose proof Hq as ([= <-] & bt & Hbt & _). destruct (chain_elem _ _ _ l Hc ltac:(set_solver)) as [bl Hl].
  eapply wp_mono; [eapply (pbuf_cat_run s h t bt ps' l bl); [done|set_solver|done|done|]|].
  { apply (Hlast l); [done|by eapply chain_end]. }
  intros [] s' ->. split; [|split; [by eapply cat_last_ok|by exists bt]]. apply handle_pending in Hok.
  eapply ok_cat; [done|done|done|set_solver].
Qed.

(** [pbuf_chain] leaves it with the client. *)
Lemma pbuf_chain_spec s H h t ps qs bt :
  ok s H None -> last_ok (pb_store s) -> chain (pb_store s) (Some h) ps -> chain (pb_store s) (Some t) qs -> ps ## qs ->
  pb_store s !! t = Some bt -> pb_ref bt < 255 ->
  wp (pbuf_chain (Some h) (Some t)) (fun _ s' => ok s' H None /\ last_ok (pb_store s') /\
    s' = set_store (<[t := pb_set_ref (pb_ref bt + 1) bt]> (cat_store t (pb_tot_len bt) ps (pb_store s))) s) s.
Proof.
  intros Hok Hlast Hc Hq Hdis Hbt Hr. destruct (chain_last _ _ _ Hc) as (ps' & l & ->). destruct qs as [|t' qs]; [done|].
  pose proof Hq as ([= <-] & _). destruct (chain_elem _ _ _ l Hc ltac:(set_solver)) as [bl Hl].
  pose proof (po_ref _ _ _ _ _ Hok _ _ Hbt) as [_ Hr']. pose proof (chain_nodup _ _ _ Hc) as Hnd. unfold pbuf_chain. wp_step.
  eapply wp_mono; [eapply (pbuf_cat_run s h t bt ps' l bl); [done|set_solver|done|done|]|].
  { apply (Hlast l); [done|by eapply chain_end]. }
  intros [] s1 ->. set (st1 := cat_store t (pb_tot_len bt) (ps' ++ [l]) (pb_store s)).
  assert (Ht1 : st1 !! t = Some bt) by (unfold st1; rewrite cat_lookup, decide_False by (done || set_solver); done).
  eapply wp_mono; [apply (pbuf_ref_run _ t bt); [done|lia]|]. intros [] s' ->. simpl.
  set (b' := pb_set_ref (pb_ref bt + 1) bt). assert (Ecomm : <[t := b']> st1 = cat_store t (pb_tot_len bt) (ps' ++ [l]) (<[t := b']> (pb_store s))).
  { rewrite <- (alter_at (fun _ => b') _ _ _ Ht1), <- (alter_at (fun _ => b') _ _ _ Hbt). apply cat_commute. set_solver. }
  pose proof (ok_ref _ _ s H None t bt Hok Hbt Hr) as Hok1. apply handle_pending in Hok1. split; [|split; [|done]].
  - change (ok (set_store (<[t := b']> st1) s) H None). rewrite Ecomm.
    apply (ok_cat H t (pb_tot_len bt) (t :: qs) l ps' h _ Hok1); [by eapply chain_keep|by eapply chain_keep|set_solver].
  - simpl. intros p b [[<- <-]|[_ Hb]]%lookup_insert_Some; [by apply (Hlast t bt)|]. revert Hb. by apply (cat_last_ok _ _ _ h).
Qed.

Lemma lens_total st p ps b : packet st p ps -> st !! p = Some b -> pb_tot_len b = lens st ps.
Proof.
  intros [Hc Ht] Hb. destruct ps as [|p' ps]; [done|]. destruct Hc as [[= <-] _]. destruct Ht as [(x & Hx & E) _].
  rewrite Hb in Hx. injection Hx as <-. lia.
Qed.


End ops.
