(* ===== verification/LwipPbufData.v ===== *)
(** * Reading the bytes of a packet

    [pbuf_copy_partial] gathers bytes of a packet that may be spread over many buffers:
    the destination gets the bytes from [offset] on, as far as the packet has them, and
    nothing else is written.  [pbuf_try_get_at] reads one byte, and [pbuf_memcmp] and
    [pbuf_memfind] compare and search in the bytes of the packet. *)

From stdpp Require Import base gmap gmultiset list numbers.
From S2P Require Import Prelude.
From S2P Require Import Bytes.
From S2P Require Import LwipString.
From S2P Require Import LwipMem.
From S2P Require Import LwipHeap.
From S2P Require Import LwipPbuf.
From S2P Require Import LwipPbufSpec.
From S2P Require Import LwipPbufOps.

Open Scope Z_scope.

Implicit Types (st : gmap Z pbuf) (b : pbuf) (m : gmap Z Z).

Lemma mem_write_insert_lt a x l v m : a < x -> mem_write x l (<[a := v]> m) = <[a := v]> (mem_write x l m).
Proof.
  revert x. induction l as [|w l IH]; intros x Hx; [done|]. simpl. rewrite IH by lia. apply insert_insert_ne. lia.
Qed.

Lemma mem_write_app a l1 l2 m : mem_write (a + alen l1) l2 (mem_write a l1 m) = mem_write a (l1 ++ l2) m.
Proof.
  revert a. induction l1 as [|v l1 IH]; intros a; [simpl; by rewrite Z.add_0_r|]. simpl app. cbn [mem_write].
  rewrite mem_write_insert_lt by (simpl; lia). f_equal. rewrite <- IH. f_equal. simpl. lia.
Qed.

Lemma mem_read_drop m a n k : (k ≤ n)%nat -> drop k (mem_read m a n) = mem_read m (a + Z.of_nat k) (n - k).
Proof.
  intros Hk. apply list_eq. intros i. rewrite lookup_drop. unfold mem_read. rewrite !list_lookup_fmap.
  destruct (decide (k + i < n)%nat) as [Hi|Hi].
  - rewrite !lookup_seq_lt by lia. simpl. do 2 f_equal. f_equal. lia.
  - rewrite !lookup_seq_ge by lia. done.
Qed.

Lemma mem_read_write_disjoint m a bs x n : x + Z.of_nat n ≤ a \/ a + alen bs ≤ x -> mem_read (mem_write a bs m) x n = mem_read m x n.
Proof.
  intros Hd. apply mem_read_ext. intros y Hy. destruct Hd; [apply mem_write_lookup_lt|apply mem_write_lookup_ge]; lia.
Qed.

(** The bytes of [ps] are mapped and are no part of the area of [n] bytes at [d]. *)
Definition outside st m (d n : Z) (ps : list Z) : Prop :=
  forall p b, p ∈ ps -> st !! p = Some b -> 0 ≤ pb_len b < 65536 /\ mapped m (pb_payload b) (Z.to_nat (pb_len b)) /\
    (pb_payload b + pb_len b ≤ d \/ d + n ≤ pb_payload b).

Lemma data_outside st m d n ps a bs : outside st m d n ps -> d ≤ a -> a + alen bs ≤ d + n -> data st (mem_write a bs m) ps = data st m ps.
Proof.
  intros Ho Ha Hn. unfold data. induction ps as [|p ps IH]; [done|]. rewrite !bind_cons, IH by (intros q x Hq; apply Ho; set_solver). f_equal.
  unfold data_of. destruct (st !! p) as [b|] eqn:Hb; [|done]. destruct (Ho p b ltac:(set_solver) Hb) as (Hl & _ & Hd). apply mem_read_write_disjoint. lia.
Qed.

Lemma outside_write st m d n ps a bs : outside st m d n ps -> outside st (mem_write a bs m) d n ps.
Proof. intros Ho p b Hp Hb. destruct (Ho p b Hp Hb) as (? & ? & ?). split; [done|]. split; [by apply mapped_mem_write|done]. Qed.

(** The part of the first buffer that is copied, and what is left. *)
Lemma take_drop_app {A} (l1 l2 : list A) (n k : nat) : (k ≤ length l1)%nat ->
  take n (drop k (l1 ++ l2)) = take n (drop k l1) ++ take (n - (length l1 - k)) l2.
Proof. intros Hk. rewrite drop_app_le, take_app, length_drop by done. done. Qed.

Lemma data_cons st m p ps b : st !! p = Some b -> data st m (p :: ps) = mem_read m (pb_payload b) (Z.to_nat (pb_len b)) ++ data st m ps.
Proof. intros Hb. unfold data. rewrite bind_cons. f_equal. unfold data_of. by rewrite Hb. Qed.

Section data.
Context `{PH : PbufHeap}.
Implicit Types (s : pbufs).

Lemma wp_with_bytes {A} (f : K (gmap Z Z) A) (Q : A -> pbufs -> Prop) (R : A -> gmap Z Z -> Prop) s :
  wp f R (bytes_of s) -> (forall a m', R a m' -> Q a (set_bytes m' s)) -> wp (with_bytes f) Q s.
Proof. intros Hf HQ. unfold with_bytes. wp_step; [done|]. eapply wp_mono; [exact Hf|]. intros a m' HR. by apply HQ. Qed.

Lemma copy_partial_loop_spec d N fuel : forall s o ps left len offset tot,
  chain (pb_store s) o ps -> (length ps ≤ fuel)%nat -> outside (pb_store s) (bytes_of s) d N ps -> mapped (bytes_of s) d (Z.to_nat N) ->
  0 ≤ len -> 0 ≤ left -> left + len ≤ N -> 0 ≤ offset < 65536 -> 0 ≤ tot -> tot + len < 65536 -> N < 65536 ->
  let c := take (Z.to_nat len) (drop (Z.to_nat offset) (data (pb_store s) (bytes_of s) ps)) in
  wp (copy_partial_loop fuel o d left len offset tot)
    (fun r s' => r = tot + alen c /\ s' = set_bytes (mem_write (d + left) c (bytes_of s)) s) s.
Proof.
  induction fuel as [|fuel IH]; intros s o ps left len offset tot Hc Hf Ho Hm Hlen Hleft Hsum Hoff Htot Hlt HN c.
  all: destruct ps as [|p ps]; simpl in Hc.
  1, 3: subst o; unfold c, data; simpl; rewrite drop_nil, take_nil; wp_step; split; [simpl; lia|by destruct s].
  { simpl in Hf. lia. }
  destruct Hc as (-> & b & Hb & Hc). simpl. destruct (Ho p b ltac:(set_solver) Hb) as (Hbl & Hbm & Hbd).
  destruct (len =? 0) eqn:El.
  { assert (c = []) as -> by (unfold c; by replace len with 0 by lia). wp_step. split; [simpl; lia|by destruct s]. }
  assert (Ho' : outside (pb_store s) (bytes_of s) d N ps) by (intros q x Hq; apply Ho; set_solver). simpl in Hf.
  pose proof (data_cons (pb_store s) (bytes_of s) p ps b Hb) as Ed.
  wp_step. eapply wp_pb_read; [done|]. destruct (negb (offset =? 0) && (pb_len b <=? offset)) eqn:Esk.
  - rewrite (u16_small (offset - pb_len b)) by lia. eapply wp_mono; [apply (IH s (pb_next b) ps); [done|lia|done|done|lia..]|].
    intros r s' [-> ->]. assert (Ec : c = take (Z.to_nat len) (drop (Z.to_nat (offset - pb_len b)) (data (pb_store s) (bytes_of s) ps))).
    { unfold c. rewrite Ed, drop_app_ge by (rewrite length_mem_read; lia). rewrite length_mem_read. do 2 f_equal. lia. }
    by rewrite Ec.
  - rewrite (u16_small (pb_len b - offset)) by lia.
    cbv zeta. set (k := if len <? pb_len b - offset then len else pb_len b - offset). assert (Hk : 0 ≤ k ≤ len /\ k ≤ pb_len b - offset) by (unfold k; case_match; lia).
    assert (Hkm : k = len \/ k = pb_len b - offset) by (unfold k; case_match; auto).
    set (c1 := mem_read (bytes_of s) (pb_payload b + offset) (Z.to_nat k)). assert (Hc1 : alen c1 = k) by (unfold c1; rewrite length_mem_read; lia).
    wp_step. eapply (wp_with_bytes _ _ (fun _ m' => m' = mem_write (d + left) c1 (bytes_of s))).
    + eapply wp_mono; [apply memcpy_spec|]; [| |lia|intros ? ? [_ ->]; done].
      * intros i Hi. replace (d + left + i) with (d + (left + i)) by lia. apply Hm. lia.
      * intros i Hi. replace (pb_payload b + offset + i) with (pb_payload b + (offset + i)) by lia. apply Hbm. lia.
    + intros _ m' ->. rewrite !u16_small by lia. set (s1 := set_bytes (mem_write (d + left) c1 (bytes_of s)) s).
      eapply wp_mono; [apply (IH s1 (pb_next b) ps); [done|lia|by apply outside_write|by apply mapped_mem_write|lia..]|].
      intros r s' [-> ->]. simpl. rewrite (data_outside _ _ d N ps) by (done || lia).
      set (c2 := take _ _). assert (Ec : c = c1 ++ c2).
      { unfold c. rewrite Ed, take_drop_app by (rewrite length_mem_read; lia). rewrite mem_read_drop by lia. f_equal.
        - unfold c1. destruct Hkm as [Hkm|Hkm]; rewrite Hkm; [rewrite mem_read_take by lia; f_equal; lia|rewrite take_ge by (rewrite length_mem_read; lia); f_equal; lia].
        - unfold c2. rewrite length_mem_read. f_equal. lia. }
      rewrite Ec, length_app. split; [lia|]. unfold set_bytes. simpl. f_equal. rewrite <- mem_write_app. f_equal. lia.
Qed.

Lemma data_length s o ps m d n : chain (pb_store s) o ps -> outside (pb_store s) m d n ps -> alen (data (pb_store s) m ps) = lens (pb_store s) ps.
Proof.
  revert o. induction ps as [|p ps IH]; intros o; [done|]. intros (_ & b & Hb & Hc) Ho. unfold data in *. rewrite bind_cons, length_app. simpl.
  rewrite Nat2Z.inj_add, (IH _ Hc) by (intros q x Hq; apply Ho; set_solver). f_equal. unfold data_of, len_of. rewrite Hb, length_mem_read.
  destruct (Ho p b ltac:(set_solver) Hb). lia.
Qed.

(** (C34) Copying out of a packet: as many bytes as are asked for, or as many as the packet has
    after [offset], are at the destination afterwards; they are the bytes of the packet from
    [offset] on, however they are spread over the buffers, and nothing else has changed. *)
Theorem pbuf_copy_partial_correct s p ps d len offset :
  chain (pb_store s) (Some p) ps -> outside (pb_store s) (bytes_of s) d len ps -> mapped (bytes_of s) d (Z.to_nat len) ->
  0 ≤ len < 65536 -> 0 ≤ offset < 65536 ->
  wp (pbuf_copy_partial (Some p) (Some d) len offset) (fun r s' =>
    r = Z.min len (Z.max 0 (lens (pb_store s) ps - offset)) /\
    mem_read (bytes_of s') d (Z.to_nat r) = take (Z.to_nat len) (drop (Z.to_nat offset) (data (pb_store s) (bytes_of s) ps)) /\
    (forall x, x < d \/ d + r ≤ x -> bytes_of s' !! x = bytes_of s !! x) /\ s' = set_bytes (bytes_of s') s) s.
Proof.
  intros Hc Ho Hm Hlen Hoff. pose proof (data_length _ _ _ _ _ _ Hc Ho) as Hdl. unfold pbuf_copy_partial. wp_step. wp_step.
  eapply wp_mono; [apply (copy_partial_loop_spec d len _ s (Some p) ps); [done|by eapply chain_size|done|done|lia..]|].
  intros r s' [-> ->]. cbn [bytes_of set_bytes]. set (c := take _ _). rewrite Z.add_0_l, Z.add_0_r.
  assert (Hcl : alen c = Z.min len (Z.max 0 (lens (pb_store s) ps - offset))) by (unfold c; rewrite length_take, length_drop; lia).
  split; [done|]. split; [|split; [|done]].
  - rewrite Nat2Z.id. apply mem_read_write.
  - intros x [Hx|Hx]; [by apply mem_write_lookup_lt|by apply mem_write_lookup_ge].
Qed.

(** ** Single bytes *)

(** The bytes of the packet are in memory. *)
Definition readable st m (ps : list Z) : Prop :=
  forall p b, p ∈ ps -> st !! p = Some b -> 0 ≤ pb_len b < 65536 /\ mapped m (pb_payload b) (Z.to_nat (pb_len b)).

Lemma readable_sub st m ps qs : (forall q, q ∈ qs -> q ∈ ps) -> readable st m ps -> readable st m qs.
Proof. intros Hs Hr p b Hp. by apply Hr, Hs. Qed.

(** The byte [offset] of the packet is the byte [k] of the rest of it from [q] on. *)
Lemma skip_loop_spec s n : forall o ps off, chain (pb_store s) o ps -> readable (pb_store s) (bytes_of s) ps -> (length ps ≤ n)%nat -> 0 ≤ off < 65536 ->
  wp (skip_loop n o off) (fun r s' => s' = s /\ match r with
    | (None, _) => drop (Z.to_nat off) (data (pb_store s) (bytes_of s) ps) = []
    | (Some q, k) => exists qs b, chain (pb_store s) (Some q) (q :: qs) /\ (forall x, x ∈ q :: qs -> x ∈ ps) /\ pb_store s !! q = Some b /\ 0 ≤ k < pb_len b /\ k ≤ off /\
        drop (Z.to_nat off) (data (pb_store s) (bytes_of s) ps) = drop (Z.to_nat k) (data (pb_store s) (bytes_of s) (q :: qs)) end) s.
Proof.
  induction n as [|n IH]; intros o ps off Hc Hr Hlen Hoff;
    (destruct ps as [|p ps]; [simpl in Hc; subst o; cbn [skip_loop]; wp_step; split; [done|apply drop_nil]|]); [simpl in Hlen; lia|].
  pose proof Hc as (-> & b & Hb & Hc'). destruct (Hr p b ltac:(set_solver) Hb) as [Hl _].
  cbn [skip_loop]. wp_step. eapply wp_pb_read; [done|]. destruct (pb_len b <=? off) eqn:E.
  - rewrite u16_small by lia. eapply wp_mono; [apply (IH (pb_next b) ps); [done|eapply readable_sub; [|done]; set_solver|simpl in Hlen; lia|lia]|].
    intros [o' k] s' [-> Hpost]. split; [done|]. rewrite (data_cons _ _ _ _ _ Hb), drop_app_ge by (rewrite length_mem_read; lia). rewrite length_mem_read.
    replace (Z.to_nat off - Z.to_nat (pb_len b))%nat with (Z.to_nat (off - pb_len b)) by lia.
    destruct o' as [q|]; [|done]. destruct Hpost as (qs & x & Hcq & Hsub & Hx & Hk & Hko & Ed). exists qs, x. split; [done|]. split; [set_solver|]. split; [done|]. split; [done|]. split; [lia|done].
  - wp_step. split; [done|]. exists ps, b. split; [done|]. split; [done|]. split; [done|]. split; [lia|]. split; [lia|done].
Qed.

Lemma data_head s q qs b k : pb_store s !! q = Some b -> mapped (bytes_of s) (pb_payload b) (Z.to_nat (pb_len b)) -> 0 ≤ k < pb_len b ->
  data (pb_store s) (bytes_of s) (q :: qs) !! Z.to_nat k = bytes_of s !! (pb_payload b + k).
Proof.
  intros Hb Hm Hk. rewrite (data_cons _ _ _ _ _ Hb), lookup_app_l by (rewrite length_mem_read; lia). unfold mem_read.
  rewrite list_lookup_fmap, lookup_seq_lt by lia. simpl. destruct (Hm k ltac:(lia)) as [v Hv]. rewrite Z2Nat.id by lia. by rewrite Hv.
Qed.

(** The byte at [offset], or -1 when the packet is too short. *)
Lemma pbuf_try_get_at_spec s p ps off : chain (pb_store s) (Some p) ps -> readable (pb_store s) (bytes_of s) ps -> 0 ≤ off < 65536 ->
  wp (pbuf_try_get_at (Some p) off) (fun r s' => s' = s /\ r = default (-1) (data (pb_store s) (bytes_of s) ps !! Z.to_nat off)) s.
Proof.
  intros Hc Hr Hoff. unfold pbuf_try_get_at, pbuf_skip_const. do 3 wp_step.
  eapply wp_mono; [apply (skip_loop_spec s _ (Some p) ps off); [done|done|by eapply chain_size|done]|].
  set (D := data (pb_store s) (bytes_of s) ps). assert (Hd : D !! Z.to_nat off = drop (Z.to_nat off) D !! 0%nat) by (rewrite lookup_drop; f_equal; lia).
  rewrite Hd. intros [[q|] k] s' [-> Hpost]; simpl.
  - destruct Hpost as (qs & b & _ & Hsub & Hb & Hk & _ & E). wp_step. eapply wp_pb_read; [done|]. rewrite (proj2 (Z.ltb_lt k (pb_len b))) by lia.
    destruct (Hr q b ltac:(apply Hsub; set_solver) Hb) as [_ Hm]. destruct (Hm k ltac:(lia)) as [v Hv].
    eapply (wp_with_bytes _ _ (fun r m' => r = v /\ m' = bytes_of s)); [by eapply wp_load|]. intros r m' [-> ->]. split; [by destruct s|].
    rewrite E, lookup_drop, Nat.add_0_r, (data_head _ _ _ _ _ Hb Hm Hk). by rewrite Hv.
  - wp_step. split; [done|]. by rewrite Hpost.
Qed.

(** ** Comparing and searching *)

Definition bytes_ok m : Prop := forall x v, m !! x = Some v -> 0 ≤ v < 256.

Lemma data_byte s ps i v : bytes_ok (bytes_of s) -> data (pb_store s) (bytes_of s) ps !! i = Some v -> 0 ≤ v < 256.
Proof.
  intros Hb. revert i. unfold data. induction ps as [|p ps IH]; intros i; [done|]. rewrite bind_cons, lookup_app_Some. intros [Hv|[_ Hv]]; [|by eapply IH].
  unfold data_of in Hv. destruct (pb_store s !! p); [|done]. unfold mem_read in Hv. apply list_lookup_fmap_Some in Hv as (k & -> & _).
  destruct (bytes_of s !! _) eqn:E; simpl; [by eapply Hb|lia].
Qed.

Lemma memcmp_loop_spec s q qs start (s2 : Z) n : chain (pb_store s) (Some q) qs -> readable (pb_store s) (bytes_of s) qs -> bytes_ok (bytes_of s) ->
  mapped (bytes_of s) s2 n -> 0 ≤ start -> let D := data (pb_store s) (bytes_of s) qs in
  start + Z.of_nat n ≤ alen D -> alen D < 65536 ->
  forall k i, (n = i + k)%nat ->
  wp (memcmp_loop k (Some q) start s2 (Z.of_nat i)) (fun r s' => s' = s /\
    (r = 0 <-> take k (drop (Z.to_nat start + i) D) = mem_read (bytes_of s) (s2 + Z.of_nat i) k)) s.
Proof.
  intros Hc Hr Hb Hm Hst D Hn HD. induction k as [|k IH]; intros i Ei; cbn [memcmp_loop]; [wp_step; done|].
  rewrite (u16_small (start + Z.of_nat i)) by lia. destruct (lookup_lt_is_Some_2 D (Z.to_nat start + i) ltac:(lia)) as [v Hv].
  pose proof (data_byte s qs _ _ Hb Hv) as Hv8. destruct (Hm (Z.of_nat i) ltac:(lia)) as [w Hw].
  wp_step. unfold pbuf_get_at. wp_step. eapply wp_mono; [apply (pbuf_try_get_at_spec s q qs); [done|done|lia]|]. intros r s' [-> ->]. fold D.
  replace (Z.to_nat (start + Z.of_nat i)) with (Z.to_nat start + i)%nat by lia. rewrite Hv. simpl. wp_step.
  rewrite (proj2 (Z.leb_le 0 v)), u8_small by lia. wp_step. eapply (wp_with_bytes _ _ (fun r m' => r = w /\ m' = bytes_of s)); [by eapply wp_load|].
  intros r m' [-> ->]. replace (set_bytes (bytes_of s) s) with s by (by destruct s).
  rewrite (drop_S D v (Z.to_nat start + i)), (mem_read_S _ _ _ w) by done. cbn [take].
  destruct (Z.eqb_spec v w) as [->|Hne]; simpl.
  - rewrite u16_small by lia. replace (Z.of_nat i + 1) with (Z.of_nat (S i)) by lia. eapply wp_mono; [apply (IH (S i)); lia|]. intros r s' [-> Hr'].
    split; [done|]. rewrite Hr'. replace (s2 + Z.of_nat (S i)) with (s2 + Z.of_nat i + 1) by lia. rewrite Nat.add_succ_r. split; [by intros ->|by intros [= ->]].
  - wp_step. split; [done|]. rewrite u16_small by lia. split; [lia|congruence].
Qed.

Lemma packet_length s p ps b : packet (pb_store s) p ps -> readable (pb_store s) (bytes_of s) ps -> pb_store s !! p = Some b ->
  pb_tot_len b = alen (data (pb_store s) (bytes_of s) ps).
Proof.
  intros [Hc Ht] Hr Hb. destruct ps as [|p' ps]; [done|]. pose proof Hc as ([= <-] & _). destruct Ht as [(x & Hx & E) _]. rewrite Hb in Hx. injection Hx as <-.
  rewrite E, Z.add_0_r. clear -Hc Hr. revert Hc Hr. generalize (p :: ps) (Some p). intros xs. induction xs as [|q qs IH]; intros o; [done|].
  intros (_ & b & Hb & Hc) Hr. rewrite (data_cons _ _ _ _ _ Hb), length_app, length_mem_read. simpl. unfold len_of. rewrite Hb.
  destruct (Hr q b ltac:(set_solver) Hb) as [Hl _]. rewrite (IH _ Hc) by (eapply readable_sub; [|exact Hr]; set_solver). lia.
Qed.

(** [pbuf_memcmp] returns 0 if and only if the packet has the [n] bytes at [s2]. *)
Lemma pbuf_memcmp_spec s p ps off (s2 : Z) (n : nat) : packet (pb_store s) p ps -> readable (pb_store s) (bytes_of s) ps -> bytes_ok (bytes_of s) ->
  mapped (bytes_of s) s2 n -> 0 ≤ off < 65536 -> let D := data (pb_store s) (bytes_of s) ps in alen D < 65536 ->
  wp (pbuf_memcmp p off s2 (Z.of_nat n)) (fun r s' => s' = s /\ (r = 0 <-> off + Z.of_nat n ≤ alen D /\ take n (drop (Z.to_nat off) D) = mem_read (bytes_of s) s2 n)) s.
Proof.
  intros Hp Hr Hby Hm Hoff D HD. pose proof Hp as [Hc _]. destruct ps as [|p' ps]; [done|]. pose proof Hc as ([= <-] & b & Hb & _).
  pose proof (packet_length _ _ _ _ Hp Hr Hb) as Hlen. fold D in Hlen. unfold pbuf_memcmp. wp_step. eapply wp_pb_read; [done|].
  destruct (pb_tot_len b <? off + Z.of_nat n) eqn:E.
  - wp_step. split; [done|]. split; [done|]. intros [Hle _]. lia.
  - wp_step. unfold pbuf_skip_const. do 2 wp_step.
    eapply wp_mono; [apply (skip_loop_spec s _ (Some p) (p :: ps) off); [done|done|by eapply chain_size|done]|].
    intros [[q|] k] s' [-> Hpost]; simpl fst; simpl snd; rewrite Nat2Z.id.
    + destruct Hpost as (qs & x & Hcq & Hsub & Hx & Hk & Hko & Ed). fold D in Ed. pose proof (f_equal length Ed) as El. rewrite !length_drop in El.
      destruct (Hr q x ltac:(apply Hsub; set_solver) Hx) as [Hxl _].
      assert (Hge : (Z.to_nat k < length (data (pb_store s) (bytes_of s) (q :: qs)))%nat) by (rewrite (data_cons _ _ _ _ _ Hx), length_app, length_mem_read; lia).
      set (D' := data (pb_store s) (bytes_of s) (q :: qs)) in *. assert (H1 : k + Z.of_nat n ≤ alen D') by lia. assert (H2 : alen D' < 65536) by lia.
      eapply wp_mono; [apply (memcmp_loop_spec s q (q :: qs) k s2 n Hcq (readable_sub _ _ _ _ Hsub Hr) Hby Hm (proj1 Hk) H1 H2 n 0); lia|].
      intros r s' [-> Hr']. split; [done|]. rewrite Hr', Nat.add_0_r, Z.add_0_r, Ed. split; [intros Heq; split; [lia|done]|by intros [_ ?]].
    + apply Z.ltb_ge in E. fold D in Hpost. pose proof (f_equal length Hpost) as El. rewrite length_drop in El. simpl in El. assert (n = 0%nat) as -> by lia. cbn [memcmp_loop]. wp_step. split; [done|]. split; [intros _; split; [lia|done]|done].
Qed.

(** The bytes [w] are at position [i] of [D]. *)
Definition occurs (D w : list Z) (i : Z) : Prop := 0 ≤ i /\ i + alen w ≤ alen D /\ take (length w) (drop (Z.to_nat i) D) = w.

(** The first position from [start] on, if there is one. *)
Definition first_occurrence (D w : list Z) (start r : Z) : Prop :=
  (r = 0xFFFF /\ forall i, start ≤ i -> ~ occurs D w i) \/ (start ≤ r < 0xFFFF /\ occurs D w r /\ forall i, start ≤ i < r -> ~ occurs D w i).

Lemma memfind_loop_spec s p ps (mem : Z) (n : nat) : packet (pb_store s) p ps -> readable (pb_store s) (bytes_of s) ps -> bytes_ok (bytes_of s) ->
  mapped (bytes_of s) mem n -> let D := data (pb_store s) (bytes_of s) ps in let w := mem_read (bytes_of s) mem n in alen D < 65535 ->
  forall k i, 0 ≤ i -> i + Z.of_nat k = alen D - Z.of_nat n + 1 ->
  wp (memfind_loop k p mem (Z.of_nat n) i) (fun r s' => s' = s /\ first_occurrence D w i r) s.
Proof.
  intros Hp Hr Hb Hm D w HD. assert (Hw : length w = n) by apply length_mem_read. induction k as [|k IH]; intros i Hi Ek; cbn [memfind_loop].
  - wp_step. split; [done|]. left. split; [done|]. intros j Hj (_ & Hle & _). lia.
  - wp_step. eapply wp_mono; [apply (pbuf_memcmp_spec s p ps i mem n); [done|done|done|done|lia|fold D; lia]|]. fold D. intros r s' [-> Hr']. fold w in Hr'.
    destruct (Z.eqb_spec r 0) as [->|Hne].
    + wp_step. split; [done|]. right. destruct (proj1 Hr' eq_refl) as [Hle Eq]. split; [lia|]. split; [|intros j Hj; lia].
      split; [done|]. rewrite Hw. split; [lia|done].
    + rewrite u16_small by lia. eapply wp_mono; [apply (IH (i + 1)); lia|]. intros r' s' [-> Hfirst]. split; [done|].
      assert (Hno : ~ occurs D w i) by (intros (_ & Hle & Eq); rewrite Hw in *; apply Hne, Hr'; done).
      assert (Hstep : forall j, i ≤ j -> j = i \/ i + 1 ≤ j) by lia.
      destruct Hfirst as [[-> Hf]|(Hr1 & Ho & Hf)]; [left|right].
      * split; [done|]. intros j Hj. destruct (Hstep j Hj) as [->|]; [done|by apply Hf].
      * split; [lia|]. split; [done|]. intros j Hj. destruct (Hstep j) as [->|]; [lia|done|apply Hf; lia].
Qed.

(** Searching: the result is the first position, from [start] on, at which the packet has the
    [n] bytes at [mem], or 0xFFFF when there is none. *)
Theorem pbuf_memfind_correct s p ps (mem : Z) (n : nat) start : packet (pb_store s) p ps -> readable (pb_store s) (bytes_of s) ps -> bytes_ok (bytes_of s) ->
  mapped (bytes_of s) mem n -> 0 ≤ start -> let D := data (pb_store s) (bytes_of s) ps in alen D < 65535 ->
  wp (pbuf_memfind p mem (Z.of_nat n) start) (fun r s' => s' = s /\ first_occurrence D (mem_read (bytes_of s) mem n) start r) s.
Proof.
  intros Hp Hr Hb Hm Hst D HD. pose proof Hp as [Hc _]. destruct ps as [|p' ps]; [done|]. pose proof Hc as ([= <-] & b & Hpb & _).
  pose proof (packet_length _ _ _ _ Hp Hr Hpb) as Hlen. fold D in Hlen. unfold pbuf_memfind. wp_step. eapply wp_pb_read; [done|]. rewrite Hlen.
  destruct (Z.leb_spec (Z.of_nat n + start) (alen D)) as [Hle|Hgt].
  - rewrite u16_small by lia. eapply memfind_loop_spec; [done|done|done|done|done|done|]. fold D. lia.
  - wp_step. split; [done|]. left. split; [done|]. intros i Hi (_ & Hle & _). rewrite length_mem_read in Hle. lia.
Qed.

End data.
