(* ===== verification/LwipPbufAlloc.v ===== *)
(** * Sequences of operations on packet buffers

    A client allocates packets, takes and gives up references, appends packets, takes them
    apart and moves headers.  Each operation that respects the rules for its references
    returns, whether or not there is memory, and keeps the counts; so no sequence of them
    uses a buffer that is gone, and when the client holds nothing, all the memory is back. *)

From stdpp Require Import base gmap gmultiset list numbers.
From S2P Require Import Prelude.
From S2P Require Import Bytes.
From S2P Require Import LwipMem.
From S2P Require Import LwipMemSpec.
From S2P Require Import LwipPbuf.
From S2P Require Import LwipPbufSpec.
From S2P Require Import LwipPbufOps.

Open Scope Z_scope.

Implicit Types (st : gmap Z pbuf) (b : pbuf).

Section alloc.
Context `{PH : PbufHeap} `{CP : !CustomPbuf} (PP PR : gset Z) {HL : PbufHeapLaws PH (PP ∪ PR)}.
Implicit Types (s : pbufs) (H : gmultiset Z).

Local Abbreviation ok := (pbufs_ok PP PR).

Lemma last_ok_kept s s' : kept s s' -> last_ok (pb_store s) -> last_ok (pb_store s').
Proof. intros Hk Hl p b' Hb' Hn. destruct (Hk _ _ Hb') as (b & Hb & E). rewrite E in *. simpl in *. by apply (Hl p b). Qed.

Lemma last_ok_insert st p b : last_ok st -> (pb_next b = None -> pb_tot_len b = pb_len b) -> last_ok (<[p := b]> st).
Proof. intros Hl Hb q x [[<- <-]|[_ Hx]]%lookup_insert_Some; [done|by apply (Hl q)]. Qed.

(** ** Taking a packet apart *)

Lemma pbuf_dechain_spec s H p b :
  ok s H None -> last_ok (pb_store s) -> p ∈ H -> pb_store s !! p = Some b ->
  (forall q bq, pb_next b = Some q -> pb_store s !! q = Some bq -> pb_tot_len bq = pb_tot_len b - pb_len b) ->
  wp (pbuf_dechain p) (fun _ s' => ok s' H None /\ last_ok (pb_store s') /\ bytes_of s' = bytes_of s /\
    exists b', pb_store s' !! p = Some b' /\ pb_next b' = None /\ pb_tot_len b' = pb_len b' /\ pb_len b' = pb_len b) s.
Proof.
  intros Hok Hlast Hin Hp Htot. unfold pbuf_dechain. wp_step. eapply wp_pb_read; [done|]. wp_step. destruct (pb_next b) as [q|] eqn:Hn.
  - destruct (po_chain _ _ _ _ _ Hok _ _ Hp) as [qs Hq]. rewrite Hn in Hq. assert (Hpq : p ∉ qs).
    { assert (Hc : chain (pb_store s) (Some p) (p :: qs)) by (split; [done|]; exists b; by rewrite Hn). apply chain_nodup in Hc. by apply NoDup_cons in Hc as [? _]. }
    destruct qs as [|q' qs]; [done|]. pose proof Hq as ([= <-] & bq & Hbq & _). pose proof (Htot q bq eq_refl Hbq) as Ht.
    destruct (po_width _ _ _ _ _ Hok _ _ Hbq) as [Hwq _]. destruct (po_width _ _ _ _ _ Hok _ _ Hp) as [_ Hwp].
    wp_step. eapply wp_pb_read; [done|]. wp_step. wp_step; [lia|]. wp_step. apply wp_pb_write; [by exists bq|].
    assert (Eq : pb_set_tot_len (u16 (pb_tot_len b - pb_len b)) bq = bq) by (rewrite <- Ht, u16_small by lia; by destruct bq).
    rewrite Eq, insert_id by done. replace (set_store (pb_store s) s) with s by (by destruct s).
    wp_step. eapply wp_pb_read; [done|]. wp_step. apply wp_pb_write; [by exists b|].
    set (b' := pb_set_tot_len (pb_len b) (pb_set_next None b)). set (s1 := set_store (<[p := b']> (pb_store s)) s).
    assert (Hok1 : ok s1 H (Some q)) by (by eapply (ok_unlink _ _ s H p b q)).
    assert (Hq1 : chain (pb_store s1) (Some q) (q :: qs)) by (by apply chain_other).
    assert (Hl1 : last_ok (pb_store s1)) by (by apply last_ok_insert).
    unfold pbuf_free. wp_step. wp_step. eapply wp_mono; [apply (free_loop_spec PP PR H _ s1 (Some q) 0 (q :: qs)); [done|done|by eapply chain_size]|].
    intros r s' (Hok' & dead & (_ & _ & Hk & Hby) & _). destruct (po_handle _ _ _ _ _ Hok' p (or_introl Hin)) as [x Hx].
    destruct (Hk _ _ Hx) as (y & Hy & E). simpl in Hy. rewrite lookup_insert_eq in Hy. injection Hy as <-.
    wp_step. eapply wp_pb_read; [done|]. rewrite E. wp_step. wp_step; [simpl; lia|]. wp_step. split; [done|]. split; [by eapply last_ok_kept|].
    split; [done|]. exists x. by rewrite E at 2 3 4 5.
  - wp_step. pose proof (Hlast p b Hp Hn) as Hl. wp_step. eapply wp_pb_read; [done|]. wp_step. wp_step; [lia|]. wp_step.
    split; [done|]. split; [done|]. split; [done|]. by exists b.
Qed.

(** ** Headers *)

Lemma ok_lengths s H p b b' : ok s H None -> last_ok (pb_store s) -> pb_store s !! p = Some b ->
  pb_next b' = pb_next b -> pb_type_internal b' = pb_type_internal b -> pb_flags b' = pb_flags b -> pb_ref b' = pb_ref b ->
  (0 ≤ pb_tot_len b' < 65536 /\ 0 ≤ pb_len b' < 65536) -> (pb_tot_len b = pb_len b -> pb_tot_len b' = pb_len b') ->
  let s' := set_store (<[p := b']> (pb_store s)) s in ok s' H None /\ last_ok (pb_store s').
Proof.
  intros Hok Hlast Hp Hn Ht Hf Hr Hw Heq s'. split.
  - eapply (ok_update _ _ s H None H None p b); try done; [rewrite Hr; by apply (po_ref _ _ _ _ _ Hok p)|lia].
  - apply last_ok_insert; [done|]. intros Hnx. apply Heq, (Hlast p); congruence.
Qed.

Lemma pbuf_add_header_spec s H p b n f : ok s H None -> last_ok (pb_store s) -> pb_store s !! p = Some b ->
  wp (pbuf_add_header_impl p n f) (fun _ s' => ok s' H None /\ last_ok (pb_store s')) s.
Proof.
  intros Hok Hlast Hp. unfold pbuf_add_header_impl. case_match; [by wp_step|]. case_match; [by wp_step|].
  wp_step. eapply wp_pb_read; [done|]. cbv zeta. case_match; [by wp_step|]. case_match; [by wp_step|]. case_match; [by wp_step|].
  wp_step. apply wp_pb_write; [by exists b|]. wp_step. eapply ok_lengths; try done; simpl; [split; apply u16_range|congruence].
Qed.

Lemma pbuf_remove_header_spec s H p b n : ok s H None -> last_ok (pb_store s) -> pb_store s !! p = Some b -> 0 ≤ n ≤ pb_len b ->
  wp (pbuf_remove_header p n) (fun _ s' => ok s' H None /\ last_ok (pb_store s')) s.
Proof.
  intros Hok Hlast Hp Hn. unfold pbuf_remove_header. case_match; [by wp_step|]. case_match; [by wp_step|].
  wp_step. eapply wp_pb_read; [done|]. cbv zeta. rewrite (u16_small n) by lia. wp_step. wp_step; [lia|].
  wp_step. apply wp_pb_write; [by exists b|]. wp_step. eapply ok_lengths; try done; simpl; [split; apply u16_range|congruence].
Qed.

(** ** Allocation *)

Lemma pool_ok_take st p tab P src b : pool_ok st (p :: tab) P src -> source b = src -> pool_ok (<[p := b]> st) tab P src.
Proof.
  intros (Hnd & Hf & HP) Hs. apply NoDup_cons in Hnd as [Hp Hnd]. split; [done|]. split.
  - intros q Hq. rewrite lookup_insert_ne by set_solver. apply Hf. set_solver.
  - intros q. rewrite HP. destruct (decide (p = q)) as [<-|Hne].
    + split; [intros _; right; exists b; by rewrite lookup_insert_eq|intros _; left; set_solver].
    + rewrite lookup_insert_ne by done. rewrite elem_of_cons. naive_solver.
Qed.

Lemma pool_ok_fresh st tab P src p b : pool_ok st tab P src -> p ∉ P -> source b ≠ src -> pool_ok (<[p := b]> st) tab P src.
Proof.
  intros (Hnd & Hf & HP) Hp Hs. split; [done|]. split.
  - intros q Hq. rewrite lookup_insert_ne; [by apply Hf|]. intros <-. apply Hp, HP. by left.
  - intros q. destruct (decide (p = q)) as [<-|Hne]; [|by rewrite HP, lookup_insert_ne]. rewrite HP, lookup_insert_eq.
    split; [intros Hq; by apply HP in Hq|]. intros [Hq|(x & [= <-] & ?)]; [by left|done].
Qed.

Lemma heap_ok_fresh st h p b : st !! p = None -> source b ≠ 0 -> heap_ok PP PR st h -> heap_ok PP PR (<[p := b]> st) h.
Proof.
  intros Hp Hs (B & HB & Hh). exists B. split; [done|]. intros q. rewrite Hh. destruct (decide (p = q)) as [<-|Hne]; [|by rewrite lookup_insert_ne]. rewrite Hp, lookup_insert_eq.
  split; [by intros (x & ? & _)|]. by intros (x & [= <-] & ?).
Qed.

Hypothesis PD : PP ## PR.

(** A buffer that has just been initialised. *)
Definition new_pbuf (payload tot_len len type : Z) : pbuf := Pbuf None payload tot_len len (u8 type) 0 1 NETIF_NO_INDEX.

Lemma ok_take_pool s H q tab payload tot len : ok s H None -> pool_tab s = q :: tab -> 0 ≤ tot < 65536 -> 0 ≤ len < 65536 ->
  pb_store s !! q = None /\ q ∈ PP /\
  ok (set_store (<[q := new_pbuf payload tot len PBUF_POOL]> (pb_store s)) (set_pool_tab tab s)) ({[+ q +]} ⊎ H) None.
Proof.
  intros Hok Etab Ht Hl. pose proof (po_pool _ _ _ _ _ Hok) as Hpool. rewrite Etab in Hpool. pose proof Hpool as (_ & Hf & HP).
  assert (Hq : pb_store s !! q = None) by (apply Hf; set_solver). assert (HqP : q ∈ PP) by (apply HP; set_solver).
  split; [done|]. split; [done|]. eapply (ok_new _ _ s H q); try done; simpl.
  - by right; right.
  - by apply pool_ok_take.
  - apply pool_ok_fresh; [apply Hok|set_solver|done].
  - apply heap_ok_fresh; [done|done|apply Hok].
Qed.

Lemma pbuf_alloc_reference_spec s H payload length type : ok s H None -> last_ok (pb_store s) -> 0 ≤ length < 65536 ->
  type = PBUF_REF \/ type = PBUF_ROM ->
  wp (pbuf_alloc_reference payload length type) (fun r s' => last_ok (pb_store s') /\ bytes_of s' = bytes_of s /\ match r with
    | None => s' = s
    | Some p => ok s' ({[+ p +]} ⊎ H) None /\ pb_store s !! p = None /\ pb_store s' = <[p := new_pbuf payload length length type]> (pb_store s)
    end) s.
Proof.
  intros Hok Hlast Hl Hty. unfold pbuf_alloc_reference. wp_step. wp_step; [by destruct Hty as [-> | ->]|]. unfold ref_malloc. do 3 wp_step.
  destruct (ref_tab s) as [|p tab] eqn:Etab; [wp_step; by wp_step|]. do 2 wp_step. simpl. wp_step.
  pose proof (po_refs _ _ _ _ _ Hok) as Hrefs. rewrite Etab in Hrefs. pose proof Hrefs as (_ & Hf & HP).
  assert (Hp : pb_store s !! p = None) by (apply Hf; set_solver). assert (HpP : p ∈ PR) by (apply HP; set_solver).
  unfold pbuf_init_alloced_pbuf. do 3 wp_step. simpl. fold (new_pbuf payload length length type). split; [by apply last_ok_insert|]. split; [done|].
  split; [|done]. assert (Hsrc : source (new_pbuf payload length length type) = 1) by (by destruct Hty as [-> | ->]).
  eapply (ok_new _ _ s H p); try done; simpl.
  - by right; left.
  - apply pool_ok_fresh; [apply Hok|set_solver|by rewrite Hsrc].
  - by apply pool_ok_take.
  - apply heap_ok_fresh; [done|by rewrite Hsrc|apply Hok].
Qed.

(** A heap block is none of the buffers that are in use. *)
Lemma heap_block_fresh s H p (B : gset Z) : ok s H None -> (forall q, q ∈ B <-> exists b, pb_store s !! q = Some b /\ source b = 0) ->
  p ∉ B -> p ∉ PP ∪ PR -> pb_store s !! p = None.
Proof.
  intros Hok HB Hh HP. destruct (pb_store s !! p) as [b|] eqn:Hb; [|done]. destruct (po_plain _ _ _ _ _ Hok _ _ Hb) as [_ [Hs|[Hs|Hs]]]; exfalso.
  - apply Hh, HB. by exists b.
  - apply HP, elem_of_union. right. apply (po_refs _ _ _ _ _ Hok). right. by exists b.
  - apply HP, elem_of_union. left. apply (po_pool _ _ _ _ _ Hok). right. by exists b.
Qed.

Lemma alloc_ram_spec s H offset length : ok s H None -> last_ok (pb_store s) -> 0 ≤ length < 65536 ->
  wp (alloc_ram offset length) (fun r s' => last_ok (pb_store s') /\ bytes_of s' = bytes_of s /\ match r with
    | None => ok s' H None
    | Some p => ok s' ({[+ p +]} ⊎ H) None /\ pb_store s !! p = None /\
        pb_store s' = <[p := new_pbuf (p + SIZEOF_STRUCT_PBUF + offset) length length PBUF_RAM]> (pb_store s)
    end) s.
Proof.
  intros Hok Hlast Hl. unfold alloc_ram. cbv zeta. case_match; [by wp_step|]. wp_step. unfold with_pb_heap. wp_step; [done|].
  destruct (po_heap _ _ _ _ _ Hok) as (B & HB & HBs). eapply wp_mono; [apply (heap_malloc_spec _ _ B HB), u16_range|]. intros [p|] h'; simpl.
  - intros (Hp & HpP & Hb). pose proof (heap_block_fresh s H p B Hok HBs Hp HpP) as Hfree. unfold pbuf_init_alloced_pbuf. do 3 wp_step. simpl.
    fold (new_pbuf (p + SIZEOF_STRUCT_PBUF + offset) length length PBUF_RAM). split; [by apply last_ok_insert|]. split; [done|]. split; [|done].
    eapply (ok_new _ _ s H p); try done; simpl.
    + by left.
    + apply pool_ok_fresh; [apply Hok|set_solver|done].
    + apply pool_ok_fresh; [apply Hok|set_solver|done].
    + exists ({[p]} ∪ B). split; [done|]. intros q. rewrite elem_of_union, elem_of_singleton, HBs. destruct (decide (p = q)) as [<-|Hne].
      * rewrite lookup_insert_eq. split; [intros _; by eexists|by left].
      * rewrite lookup_insert_ne by done. naive_solver.
  - intros Hb. wp_step. split; [done|]. split; [done|]. split; try apply Hok. by exists B.
Qed.

(** *** The pool *)

(** The bytes of the buffer are inside its element of the pool. *)
Definition fits (q : Z) (b : pbuf) : Prop :=
  q + SIZEOF_STRUCT_PBUF ≤ pb_payload b < q + SIZEOF_STRUCT_PBUF + PBUF_POOL_BUFSIZE_ALIGNED /\
  pb_payload b + pb_len b ≤ q + SIZEOF_STRUCT_PBUF + PBUF_POOL_BUFSIZE_ALIGNED.

(** The packet has the buffers [ps] and the last one [l]; [rem] of its [length] bytes are to
    be allocated.  The buffers of [s0] are as they were. *)
Record partial s0 H s (p : Z) (ps : list Z) (l rem length : Z) : Prop := {
  pa_ok : ok s ({[+ p +]} ⊎ H) None;
  pa_chain : chain (pb_store s) (Some p) (ps ++ [l]);
  pa_totals : totals (pb_store s) (ps ++ [l]) rem;
  pa_lens : lens (pb_store s) (ps ++ [l]) + rem = length;
  pa_old q b : pb_store s0 !! q = Some b -> pb_store s !! q = Some b;
  pa_new q : is_Some (pb_store s !! q) -> is_Some (pb_store s0 !! q) \/ q ∈ ps ++ [l];
  pa_fresh q : q ∈ ps ++ [l] -> pb_store s0 !! q = None;
  pa_fits q b : q ∈ ps ++ [l] -> pb_store s !! q = Some b -> fits q b;
  pa_pool q : q ∈ ps ++ [l] -> q ∈ PP;
  pa_bytes : bytes_of s = bytes_of s0;
}.

Lemma partial_first s H q tab offset rem : ok s H None -> pool_tab s = q :: tab -> 0 ≤ offset < 512 -> 0 ≤ rem < 65536 ->
  let qlen := Z.min rem (u16 (PBUF_POOL_BUFSIZE_ALIGNED - LWIP_MEM_ALIGN_SIZE offset)) in
  partial s H (set_store (<[q := new_pbuf (q + SIZEOF_STRUCT_PBUF + offset) rem qlen PBUF_POOL]> (pb_store s)) (set_pool_tab tab s))
    q [] q (rem - qlen) rem.
Proof.
  intros Hok Etab Hoff Hrem qlen. assert (Hq : 0 ≤ qlen ≤ rem /\ qlen + offset ≤ PBUF_POOL_BUFSIZE_ALIGNED).
  { unfold qlen. change PBUF_POOL_BUFSIZE_ALIGNED with 590. rewrite align_id, u16_small by lia. lia. }
  destruct (ok_take_pool s H q tab (q + SIZEOF_STRUCT_PBUF + offset) rem qlen Hok Etab ltac:(lia) ltac:(lia)) as (Hfree & HqP & Hok1).
  set (s1 := set_store _ _) in *. assert (Hq1 : pb_store s1 !! q = Some (new_pbuf (q + SIZEOF_STRUCT_PBUF + offset) rem qlen PBUF_POOL)) by apply lookup_insert_eq.
  assert (Hlen : len_of (pb_store s1) q = qlen) by (unfold len_of; by rewrite Hq1).
  split; simpl app; try done.
  - split; [done|]. eexists. split; [done|]. done.
  - split; [|done]. eexists. split; [done|]. cbn [lens]. rewrite Hlen. simpl. lia.
  - cbn [lens]. rewrite Hlen. lia.
  - intros x b Hx. simpl. rewrite lookup_insert_ne by congruence. done.
  - intros x. simpl. rewrite lookup_insert_is_Some'. intros [<-|?]; [right; set_solver|by left].
  - intros x ->%list_elem_of_singleton. done.
  - intros x b ->%list_elem_of_singleton. rewrite Hq1. intros [= <-]. unfold fits. change PBUF_POOL_BUFSIZE_ALIGNED with 590 in *. split; simpl; lia.
  - by intros x ->%list_elem_of_singleton.
Qed.

(** The store after the element [q] has been taken and linked to [l]. *)
Definition grown st (q l : Z) (bq bl : pbuf) : gmap Z pbuf := <[l := pb_set_next (Some q) bl]> (<[q := bq]> st).

Lemma grown_same st q l bq bl ps : st !! q = None -> st !! l = Some bl -> (forall x, x ∈ ps -> is_Some (st !! x)) ->
  Forall (same_data st (grown st q l bq bl)) ps /\
  forall x b b', x ∈ ps -> st !! x = Some b -> grown st q l bq bl !! x = Some b' -> pb_tot_len b' = pb_tot_len b.
Proof.
  intros Hq Hl Hin. assert (Hlook : forall x b, st !! x = Some b -> grown st q l bq bl !! x = Some (if decide (x = l) then pb_set_next (Some q) b else b)).
  { intros x b Hb. unfold grown. case_decide as E; [subst; rewrite lookup_insert_eq; congruence|]. rewrite !lookup_insert_ne by congruence. done. }
  split.
  - apply Forall_forall. intros x Hx. destruct (Hin x Hx) as [b Hb]. eexists _, _. split; [done|]. split; [by apply Hlook|]. by case_decide.
  - intros x b b' _ Hb Hb'. rewrite (Hlook _ _ Hb) in Hb'. injection Hb' as <-. by case_decide.
Qed.

Lemma partial_next s0 H s p ps l bl rem length q tab :
  partial s0 H s p ps l rem length -> pool_tab s = q :: tab -> pb_store s !! l = Some bl -> 0 ≤ rem < 65536 ->
  let qlen := Z.min rem (u16 (PBUF_POOL_BUFSIZE_ALIGNED - LWIP_MEM_ALIGN_SIZE 0)) in
  partial s0 H (set_store (grown (pb_store s) q l (new_pbuf (q + SIZEOF_STRUCT_PBUF + 0) rem qlen PBUF_POOL) bl) (set_pool_tab tab s))
    p (ps ++ [l]) q (rem - qlen) length.
Proof.
  intros Hpa Etab Hl Hrem qlen. assert (Hql : 0 ≤ qlen ≤ rem /\ qlen ≤ PBUF_POOL_BUFSIZE_ALIGNED) by (unfold qlen; change (u16 _) with 590; change PBUF_POOL_BUFSIZE_ALIGNED with 590; lia).
  destruct (ok_take_pool s _ q tab (q + SIZEOF_STRUCT_PBUF + 0) rem qlen (pa_ok _ _ _ _ _ _ _ _ Hpa) Etab ltac:(lia) ltac:(lia)) as (Hfree & HqP & Hok1).
  set (bq := new_pbuf _ rem qlen _) in *. set (s1 := set_store _ _) in Hok1. set (st2 := grown _ _ _ _ _).
  assert (Hne : q ≠ l) by congruence. assert (Hl1 : pb_store s1 !! l = Some bl) by (simpl; by rewrite lookup_insert_ne).
  pose proof (pa_chain _ _ _ _ _ _ _ _ Hpa) as Hc. pose proof (chain_end _ _ _ _ _ Hc Hl) as Hn.
  assert (Hin : forall x, x ∈ ps ++ [l] -> is_Some (pb_store s !! x)) by (intros x Hx; destruct (chain_elem _ _ _ _ Hc Hx) as [b ->]; by eexists).
  destruct (grown_same (pb_store s) q l bq bl (ps ++ [l]) Hfree Hl Hin) as [Hsame Htots]. fold st2 in Hsame, Htots.
  assert (Hc1 : chain (pb_store s1) (Some p) (ps ++ [l])) by (apply chain_other; [intros Hx; destruct (Hin _ Hx); congruence|done]).
  assert (Hq1 : chain (pb_store s1) (Some q) [q]) by (split; [done|]; exists bq; simpl; by rewrite lookup_insert_eq).
  assert (Hq2 : st2 !! q = Some bq) by (unfold st2, grown; by rewrite lookup_insert_ne, lookup_insert_eq).
  assert (Hlq : lens st2 [q] = qlen) by (simpl; unfold len_of; rewrite Hq2; simpl; lia).
  split; simpl pb_store.
  - apply handle_pending in Hok1. apply (ok_link _ _ s1 _ l bl q [q]); try done; [set_solver|]. apply (po_width _ _ _ _ _ Hok1 _ _ Hl1).
  - rewrite <- app_assoc. by apply (chain_link (pb_store s1) (Some p) ps l bl [q] q Hc1 Hl1 Hq1 ltac:(set_solver)).
  - apply totals_app. rewrite Hlq. split; [|split; [|done]].
    + replace (qlen + (rem - qlen)) with rem by lia. eapply totals_ext; [done|exact Htots|apply Hpa].
    + exists bq. split; [done|]. rewrite Hlq. simpl. lia.
  - rewrite lens_app, Hlq, (same_len _ _ _ Hsame). pose proof (pa_lens _ _ _ _ _ _ _ _ Hpa). lia.
  - intros x b Hx. pose proof (pa_old _ _ _ _ _ _ _ _ Hpa _ _ Hx) as Hx'. unfold st2, grown. rewrite !lookup_insert_ne; [done|congruence|].
    intros <-. rewrite (pa_fresh _ _ _ _ _ _ _ _ Hpa l) in Hx by set_solver. done.
  - intros x. unfold st2, grown. rewrite !lookup_insert_is_Some'. intros [<-|[<-|Hx]]; [right; set_solver..|].
    destruct (pa_new _ _ _ _ _ _ _ _ Hpa x Hx); [by left|right; set_solver].
  - intros x [Hx|Hx]%elem_of_app; [by apply Hpa|]. apply list_elem_of_singleton in Hx as ->.
    destruct (pb_store s0 !! q) eqn:E; [|done]. apply (pa_old _ _ _ _ _ _ _ _ Hpa) in E. congruence.
  - intros x b [Hx|Hx]%elem_of_app Hb.
    + rewrite Forall_forall in Hsame. destruct (Hsame x Hx) as (y & y' & Hy & Hy' & El & Ep). rewrite Hb in Hy'. injection Hy' as <-.
      unfold fits. rewrite El, Ep. by apply (pa_fits _ _ _ _ _ _ _ _ Hpa).
    + apply list_elem_of_singleton in Hx as ->. rewrite Hq2 in Hb. injection Hb as <-. unfold fits. change PBUF_POOL_BUFSIZE_ALIGNED with 590 in *. split; simpl; lia.
  - intros x [Hx|Hx]%elem_of_app; [by apply (pa_pool _ _ _ _ _ _ _ _ Hpa)|]. by apply list_elem_of_singleton in Hx as ->.
  - apply Hpa.
Qed.

(** A complete packet. *)
Lemma partial_done s0 H s p ps l length : partial s0 H s p ps l 0 length -> last_ok (pb_store s0) -> last_ok (pb_store s).
Proof.
  intros Hpa Hlast q b Hb Hn. destruct (pa_new _ _ _ _ _ _ _ _ Hpa q ltac:(by exists b)) as [[x Hx]|Hq].
  - pose proof (pa_old _ _ _ _ _ _ _ _ Hpa _ _ Hx) as Hx'. rewrite Hb in Hx'. injection Hx' as <-. by apply (Hlast q).
  - apply elem_of_app in Hq as [Hq|Hq].
    + by pose proof (chain_inner _ _ _ _ _ _ (pa_chain _ _ _ _ _ _ _ _ Hpa) Hq Hb).
    + apply list_elem_of_singleton in Hq as ->. pose proof (pa_totals _ _ _ _ _ _ _ _ Hpa) as Ht.
      apply totals_app in Ht as [_ [(x & Hx & E) _]]. rewrite Hb in Hx. injection Hx as <-. simpl in E. unfold len_of in E. rewrite Hb in E. lia.
Qed.

(** The buffers that can be reached from old ones are old. *)
Lemma old_closed s0 H s : ok s0 H None -> (forall q b b', pb_store s0 !! q = Some b -> pb_store s !! q = Some b' -> pb_next b' = pb_next b) ->
  forall ps o, chain (pb_store s) o ps -> (forall p, o = Some p -> is_Some (pb_store s0 !! p)) -> forall q, q ∈ ps -> is_Some (pb_store s0 !! q).
Proof.
  intros Hok Hold. induction ps as [|p ps IH]; intros o; [set_solver|]. intros (-> & b' & Hb' & Hc) Ho q [->|Hq]%elem_of_cons; [by apply Ho|].
  destruct (Ho p eq_refl) as [b Hb]. apply (IH (pb_next b')); [done| |done]. rewrite (Hold _ _ _ Hb Hb'). intros x Hx.
  destruct (po_chain _ _ _ _ _ Hok _ _ Hb) as [[|y ys] Hy]; [simpl in Hy; congruence|]. rewrite Hx in Hy. destruct Hy as ([= <-] & z & Hz & _). by exists z.
Qed.

(** When the pool is exhausted, all the buffers that were allocated are given back. *)
Lemma partial_fail s0 H s p ps l rem length : ok s0 H None -> last_ok (pb_store s0) -> partial s0 H s p ps l rem length ->
  wp (pbuf_free (Some p)) (fun _ s' => ok s' H None /\ last_ok (pb_store s') /\ bytes_of s' = bytes_of s0) (set_ooseq_pending true s).
Proof.
  intros Hok0 Hlast Hpa. assert (Hok : ok (set_ooseq_pending true s) ({[+ p +]} ⊎ H) None) by (split; apply Hpa).
  eapply wp_mono; [apply (pbuf_free_spec PP PR _ H p (ps ++ [l]) Hok), Hpa|]. intros r s' (Hok' & dead & (_ & _ & Hk & Hby) & _).
  split; [done|]. split; [|rewrite Hby; apply Hpa]. intros q b' Hb' Hn. destruct (buffer_reachable _ _ _ _ _ _ Hok' Hb') as (h & hs & Hh & Hc & Hq).
  assert (Hold : is_Some (pb_store s0 !! q)).
  { eapply (old_closed s0 H s' Hok0); [|exact Hc| |exact Hq]; [|intros x [= <-]; apply (po_handle _ _ _ _ _ Hok0); by left].
    intros x b x' Hb Hx'. destruct (Hk _ _ Hx') as (y & Hy & E). apply (pa_old _ _ _ _ _ _ _ _ Hpa) in Hb. simpl in Hy. rewrite E. simpl. congruence. }
  destruct Hold as [b Hb]. destruct (Hk _ _ Hb') as (y & Hy & E). pose proof (pa_old _ _ _ _ _ _ _ _ Hpa _ _ Hb) as Hy2. simpl in Hy.
  rewrite Hy in Hy2. injection Hy2 as ->. rewrite E in *. simpl in *. by apply (Hlast q).
Qed.

(** What an allocation of [length] bytes promises. *)
Definition alloc_post s0 H (length type : Z) (r : option Z) s' : Prop :=
  last_ok (pb_store s') /\ bytes_of s' = bytes_of s0 /\
  match r with
  | None => ok s' H None
  | Some p => ok s' ({[+ p +]} ⊎ H) None /\ (forall q b, pb_store s0 !! q = Some b -> pb_store s' !! q = Some b) /\
      exists ps, packet (pb_store s') p ps /\ lens (pb_store s') ps = length /\
        forall q, q ∈ ps -> pb_store s0 !! q = None /\
          (type = PBUF_POOL -> q ∈ PP /\ forall b, pb_store s' !! q = Some b -> fits q b)
  end.

Lemma pool_tab_nil s0 H s p ps l rem length : ok s0 H None -> last_ok (pb_store s0) -> partial s0 H s p ps l rem length ->
  wp (pbuf_pool_is_empty;; (pbuf_free (Some p);; mret tt);; mret None) (alloc_post s0 H length PBUF_POOL) s.
Proof.
  intros Hok Hlast Hpa. wp_step. unfold pbuf_pool_is_empty. do 3 wp_step. eapply wp_mono; [by eapply partial_fail|].
  intros r s' (Hok' & Hl' & Hb'). by do 2 wp_step.
Qed.

Lemma partial_post s0 H s p ps l length : last_ok (pb_store s0) -> partial s0 H s p ps l 0 length -> alloc_post s0 H length PBUF_POOL (Some p) s.
Proof.
  intros Hlast Hpa. split; [by eapply partial_done|]. split; [apply Hpa|]. split; [apply Hpa|]. split; [apply Hpa|]. exists (ps ++ [l]).
  split; [split; apply Hpa|]. split; [pose proof (pa_lens _ _ _ _ _ _ _ _ Hpa); lia|]. intros q Hq. split; [by apply Hpa|].
  intros _. split; [by apply (pa_pool _ _ _ _ _ _ _ _ Hpa)|]. intros b Hb. by apply (pa_fits _ _ _ _ _ _ _ _ Hpa).
Qed.

Lemma alloc_pool_next s0 H length n : forall s p ps l rem,
  ok s0 H None -> last_ok (pb_store s0) -> partial s0 H s p ps l rem length -> 0 < rem < 65536 -> (List.length (pool_tab s) < n)%nat ->
  wp (alloc_pool_loop n (Some p) (Some l) rem 0) (alloc_post s0 H length PBUF_POOL) s.
Proof.
  induction n as [|n IH]; intros s p ps l rem Hok Hlast Hpa Hrem Hlen; [lia|]. cbn [alloc_pool_loop]. wp_step. unfold pool_malloc. do 2 wp_step.
  destruct (pool_tab s) as [|q tab] eqn:Etab; [wp_step; by eapply pool_tab_nil|]. do 2 wp_step. wp_step.
  destruct (chain_elem _ _ _ l (pa_chain _ _ _ _ _ _ _ _ Hpa) ltac:(set_solver)) as [bl Hl].
  pose proof (partial_next s0 H s p ps l bl rem length q tab Hpa Etab Hl ltac:(lia)) as Hnext. cbv zeta in Hnext.
  assert (Hfree : pb_store s !! q = None) by (apply (po_pool _ _ _ _ _ (pa_ok _ _ _ _ _ _ _ _ Hpa)); rewrite Etab; set_solver).
  set (qlen := Z.min rem _) in *. assert (Hq : 0 < qlen ≤ rem) by (unfold qlen; change (u16 _) with 590; lia).
  unfold pbuf_init_alloced_pbuf. do 3 wp_step. wp_step; [done|]. do 2 wp_step.
  eapply wp_pb_read; [simpl; rewrite lookup_insert_ne by congruence; exact Hl|]. apply wp_pb_write; [simpl; rewrite lookup_insert_ne by congruence; by exists bl|].
  set (s2 := set_store _ _). rewrite u16_small by lia. destruct (0 <? rem - qlen) eqn:E.
  - eapply (IH s2 p (ps ++ [l]) q); [done|done|exact Hnext|lia|simpl in *; lia].
  - wp_step. replace (rem - qlen) with 0 in Hnext by lia. by eapply partial_post.
Qed.

Lemma alloc_pool_spec s H offset length : ok s H None -> last_ok (pb_store s) -> 0 ≤ offset < 512 -> 0 ≤ length < 65536 ->
  wp (n ← kgets (fun s => List.length (pool_tab s)); alloc_pool_loop (S n) None None length offset) (alloc_post s H length PBUF_POOL) s.
Proof.
  intros Hok Hlast Hoff Hlen. do 2 wp_step. cbn [alloc_pool_loop]. wp_step. unfold pool_malloc. do 2 wp_step.
  destruct (pool_tab s) as [|q tab] eqn:Etab.
  - wp_step. unfold pbuf_pool_is_empty. do 4 wp_step. split; [done|]. split; [done|]. split; apply Hok.
  - do 2 wp_step. wp_step. pose proof (partial_first s H q tab offset length Hok Etab Hoff Hlen) as Hpa. cbv zeta in Hpa.
    set (qlen := Z.min length _) in *. assert (Hq : 0 ≤ qlen ≤ length).
    { unfold qlen. rewrite align_id by lia. pose proof (u16_range (PBUF_POOL_BUFSIZE_ALIGNED - offset)). lia. }
    unfold pbuf_init_alloced_pbuf. do 3 wp_step. wp_step; [rewrite align_id by lia; change PBUF_POOL_BUFSIZE_ALIGNED with 590; rewrite u32_small; lia|]. do 2 wp_step.
    rewrite u16_small by lia. destruct (0 <? length - qlen) eqn:E.
    + eapply alloc_pool_next; [done|done|exact Hpa|lia|simpl; lia].
    + wp_step. replace (length - qlen) with 0 in Hpa by lia. by eapply partial_post.
Qed.


Lemma single_post s H s' p payload length type :
  last_ok (pb_store s') -> bytes_of s' = bytes_of s -> ok s' ({[+ p +]} ⊎ H) None -> pb_store s !! p = None ->
  pb_store s' = <[p := new_pbuf payload length length type]> (pb_store s) -> type ≠ PBUF_POOL ->
  alloc_post s H length type (Some p) s'.
Proof.
  intros Hl Hby Hok Hp Es Hsrc. split; [done|]. split; [done|]. split; [done|]. split.
  { intros q b Hb. rewrite Es, lookup_insert_ne by congruence. done. }
  assert (Hp' : pb_store s' !! p = Some (new_pbuf payload length length type)) by (rewrite Es; apply lookup_insert_eq).
  assert (El : len_of (pb_store s') p = length) by (unfold len_of; by rewrite Hp').
  exists [p]. split; [|split].
  - split; [split; [done|]; by eexists|]. split; [|done]. eexists. split; [done|]. cbn [lens]. rewrite El. simpl. lia.
  - cbn [lens]. lia.
  - intros q ->%list_elem_of_singleton. split; [done|]. done.
Qed.

Lemma pbuf_alloc_spec s H layer length type :
  ok s H None -> last_ok (pb_store s) -> 0 ≤ layer < 512 -> 0 ≤ length < 65536 -> type ∈ [PBUF_RAM; PBUF_POOL; PBUF_REF; PBUF_ROM] ->
  wp (pbuf_alloc layer length type) (alloc_post s H length type) s.
Proof.
  intros Hok Hlast Hlay Hlen Hty. unfold pbuf_alloc. rewrite (u16_small layer) by lia.
  rewrite !elem_of_cons, elem_of_nil in Hty. destruct Hty as [->|[->|[->|[->|[]]]]]; simpl.
  - eapply wp_mono; [by apply (alloc_ram_spec s H)|]. intros [p|] s' (? & ? & Hr); [|done]. destruct Hr as (? & ? & ?). by eapply single_post.
  - by apply alloc_pool_spec.
  - eapply wp_mono; [apply (pbuf_alloc_reference_spec s H); auto|]. intros [p|] s' (? & ? & Hr); [destruct Hr as (? & ? & ?); by eapply single_post|by subst].
  - eapply wp_mono; [apply (pbuf_alloc_reference_spec s H); auto|]. intros [p|] s' (? & ? & Hr); [destruct Hr as (? & ? & ?); by eapply single_post|by subst].
Qed.

(** ** Sequences of operations *)

Inductive pbuf_op :=
  | OpAlloc (layer length type : Z)
  | OpReference (payload length type : Z)
  | OpRef (p : Z)
  | OpFree (p : Z)
  | OpCat (h t : Z)
  | OpChain (h t : Z)
  | OpDechain (p : Z)
  | OpAddHeader (p n : Z) (force : bool)
  | OpRemoveHeader (p n : Z).

(** The operation; the result is the packet that was allocated. *)
Definition run_op (op : pbuf_op) : K pbufs (option Z) :=
  match op with
  | OpAlloc layer length type => pbuf_alloc layer length type
  | OpReference payload length type => pbuf_alloc_reference payload length type
  | OpRef p => pbuf_ref (Some p);; mret None
  | OpFree p => pbuf_free (Some p);; mret None
  | OpCat h t => pbuf_cat (Some h) (Some t);; mret None
  | OpChain h t => pbuf_chain (Some h) (Some t);; mret None
  | OpDechain p => pbuf_dechain p;; mret None
  | OpAddHeader p n force => pbuf_add_header_impl p n force;; mret None
  | OpRemoveHeader p n => pbuf_remove_header p n;; mret None
  end.

(** Two packets that have no buffer in common. *)
Definition apart st (h t : Z) : Prop := exists ps qs, chain st (Some h) ps /\ chain st (Some t) qs /\ ps ## qs.

(** The rules for the client, who holds the references [H]. *)
Definition allowed s H (op : pbuf_op) : Prop :=
  match op with
  | OpAlloc layer length type => 0 ≤ layer < 512 /\ 0 ≤ length < 65536 /\ type ∈ [PBUF_RAM; PBUF_POOL; PBUF_REF; PBUF_ROM]
  | OpReference payload length type => 0 ≤ length < 65536 /\ (type = PBUF_REF \/ type = PBUF_ROM)
  | OpRef p => exists b, pb_store s !! p = Some b /\ pb_ref b < 255
  | OpFree p => p ∈ H
  | OpCat h t => t ∈ H /\ apart (pb_store s) h t
  | OpChain h t => apart (pb_store s) h t /\ exists b, pb_store s !! t = Some b /\ pb_ref b < 255
  | OpDechain p => p ∈ H /\ forall b q bq, pb_store s !! p = Some b -> pb_next b = Some q -> pb_store s !! q = Some bq ->
      pb_tot_len bq = pb_tot_len b - pb_len b
  | OpAddHeader p n force => is_Some (pb_store s !! p)
  | OpRemoveHeader p n => exists b, pb_store s !! p = Some b /\ 0 ≤ n ≤ pb_len b
  end.

(** The references that the client holds afterwards. *)
Definition held H (op : pbuf_op) (r : option Z) : gmultiset Z :=
  match op with
  | OpAlloc _ _ _ | OpReference _ _ _ => match r with Some p => {[+ p +]} ⊎ H | None => H end
  | OpRef p => {[+ p +]} ⊎ H
  | OpFree p => H ∖ {[+ p +]}
  | OpCat _ t => H ∖ {[+ t +]}
  | _ => H
  end.

Inductive pbuf_steps : pbufs -> gmultiset Z -> pbufs -> gmultiset Z -> Prop :=
  | steps_refl s H : pbuf_steps s H s H
  | steps_step s0 H0 s H op r s' : pbuf_steps s0 H0 s H -> allowed s H op -> run_op op s = Done r s' -> pbuf_steps s0 H0 s' (held H op r).

Lemma take_handle p H : p ∈ H -> {[+ p +]} ⊎ (H ∖ {[+ p +]}) = H.
Proof. intros Hp. symmetry. by apply gmultiset_disj_union_difference'. Qed.

Lemma run_op_spec s H op : ok s H None -> last_ok (pb_store s) -> allowed s H op ->
  wp (run_op op) (fun r s' => ok s' (held H op r) None /\ last_ok (pb_store s')) s.
Proof.
  intros Hok Hlast Ha. destruct op; simpl in Ha |- *.
  - destruct Ha as (? & ? & ?). eapply wp_mono; [by apply (pbuf_alloc_spec s H)|]. intros [p|] s' (? & _ & Hr); [by destruct Hr|done].
  - destruct Ha as (? & ?). eapply wp_mono; [by apply (pbuf_alloc_reference_spec s H)|]. intros [p|] s' (? & _ & Hr); [by destruct Hr|by subst].
  - destruct Ha as (b & Hb & Hr). destruct (po_ref _ _ _ _ _ Hok _ _ Hb). wp_step. eapply wp_mono; [apply (pbuf_ref_run _ p b); [done|lia]|].
    intros [] s' ->. wp_step. split; [by apply ok_ref|]. apply last_ok_insert; [done|]. by apply (Hlast p b).
  - rewrite <- (take_handle p H Ha) in Hok. destruct (po_chain_at PP PR s _ None p Hok (po_handle _ _ _ _ _ Hok p ltac:(left; multiset_solver))) as [ps Hc].
    wp_step. eapply wp_mono; [by eapply pbuf_free_spec|]. intros n s' (Hok' & dead & (_ & _ & Hk & _) & _). wp_step. split; [done|by eapply last_ok_kept].
  - destruct Ha as (Ht & ps & qs & Hc & Hq & Hd). rewrite <- (take_handle t H Ht) in Hok. wp_step. eapply wp_mono; [by eapply pbuf_cat_spec|].
    intros [] s' (? & ? & _). by wp_step.
  - destruct Ha as ((ps & qs & Hc & Hq & Hd) & b & Hb & Hr). wp_step. eapply wp_mono; [by eapply pbuf_chain_spec|]. intros [] s' (? & ? & _). by wp_step.
  - destruct Ha as (Hp & Ht). destruct (po_handle _ _ _ _ _ Hok p (or_introl Hp)) as [b Hb]. wp_step.
    eapply wp_mono; [eapply pbuf_dechain_spec; [done|done|done|done|intros q bq; by apply Ht]|]. intros r s' (? & ? & _). by wp_step.
  - destruct Ha as [b Hb]. wp_step. eapply wp_mono; [by eapply pbuf_add_header_spec|]. intros r s' [? ?]. by wp_step.
  - destruct Ha as (b & Hb & Hn). wp_step. eapply wp_mono; [by eapply pbuf_remove_header_spec|]. intros r s' [? ?]. by wp_step.
Qed.

Lemma pbuf_steps_ok s0 H0 s H : pbuf_steps s0 H0 s H -> ok s0 H0 None -> last_ok (pb_store s0) -> ok s H None /\ last_ok (pb_store s).
Proof.
  induction 1 as [s H|s0 H0 s H op r s' _ IH Ha Hrun]; intros Hok Hl; [done|]. destruct (IH Hok Hl) as [Hok1 Hl1].
  pose proof (run_op_spec s H op Hok1 Hl1 Ha) as Hw. unfold wp in Hw. by rewrite Hrun in Hw.
Qed.

(** Before the first allocation. *)
Definition pbufs_start s : Prop :=
  pb_store s = ∅ /\ NoDup (pool_tab s) /\ NoDup (ref_tab s) /\ PP = list_to_set (pool_tab s) /\ PR = list_to_set (ref_tab s) /\ heap_has (pb_heap s) ∅.

Lemma start_ok s : pbufs_start s -> ok s ∅ None /\ last_ok (pb_store s).
Proof.
  intros (Est & Hnp & Hnr & EP & ER & Eh). split; [|intros p b Hb; by rewrite Est, lookup_empty in Hb].
  split; try (intros p b Hb; by rewrite Est, lookup_empty in Hb).
  - intros p [Hp|Hp]; [multiset_solver|done].
  - split; [done|]. split; [intros p _; by rewrite Est, lookup_empty|]. intros p. rewrite EP, elem_of_list_to_set, Est.
    split; [by left|intros [?|(x & Hx & _)]; [done|by rewrite lookup_empty in Hx]].
  - split; [done|]. split; [intros p _; by rewrite Est, lookup_empty|]. intros p. rewrite ER, elem_of_list_to_set, Est.
    split; [by left|intros [?|(x & Hx & _)]; [done|by rewrite lookup_empty in Hx]].
  - exists ∅. split; [done|]. intros p. rewrite Est. split; [set_solver|intros (x & Hx & _); by rewrite lookup_empty in Hx].
Qed.

(** (C32) Allocating a packet: there is no memory, and then every buffer that was taken for the
    packet is back; or the packet has the length that was asked for, in buffers that nobody
    used before and whose totals are right, the bytes of every buffer of the pool are inside
    its element, and the caller holds the only reference. *)
Theorem pbuf_alloc_correct s H layer length type :
  ok s H None -> last_ok (pb_store s) -> 0 ≤ layer < 512 -> 0 ≤ length < 65536 -> type ∈ [PBUF_RAM; PBUF_POOL; PBUF_REF; PBUF_ROM] ->
  wp (pbuf_alloc layer length type) (alloc_post s H length type) s.
Proof. intros. by apply pbuf_alloc_spec. Qed.

(** (C8) Every sequence of operations that follows the rules is safe: the next operation that
    does so returns, without a failed assertion and without touching a buffer that is gone;
    all the packets that the client holds are there; every buffer that is not free is part of
    one of them; and the client who holds nothing has leaked nothing. *)
Theorem pbuf_operations_safe s0 s H :
  pbufs_start s0 -> pbuf_steps s0 ∅ s H ->
  (forall op, allowed s H op -> exists r s', run_op op s = Done r s') /\
  (forall p, p ∈ H -> exists ps, chain (pb_store s) (Some p) ps) /\
  (forall q, is_Some (pb_store s !! q) -> exists p ps, p ∈ H /\ chain (pb_store s) (Some p) ps /\ q ∈ ps) /\
  (H = ∅ -> pb_store s = ∅ /\ pool_tab s ≡ₚ pool_tab s0 /\ ref_tab s ≡ₚ ref_tab s0 /\ heap_has (pb_heap s) ∅).
Proof.
  intros Hs Hsteps. destruct (start_ok _ Hs) as [Hok0 Hl0]. destruct (pbuf_steps_ok _ _ _ _ Hsteps Hok0 Hl0) as [Hok Hl]. split; [|split; [|split]].
  - intros op Ha. pose proof (run_op_spec s H op Hok Hl Ha) as Hw. unfold wp in Hw. destruct (run_op op s) as [r s'| | |]; [by eexists _, _|done..].
  - intros p Hp. eapply po_chain_at; [done|]. apply (po_handle _ _ _ _ _ Hok). by left.
  - intros q [b Hb]. by eapply buffer_reachable.
  - intros ->. destruct (nothing_held _ _ _ Hok) as (Est & Hp & Hr & Hh). destruct Hs as (_ & Hnp & Hnr & EP & ER & _).
    split; [done|]. split; [|split; [|done]]; (apply NoDup_Permutation; [apply Hok|done|]); intros q.
    + by rewrite <- Hp, EP, elem_of_list_to_set.
    + by rewrite <- Hr, ER, elem_of_list_to_set.
Qed.

End alloc.
