(* ===== verification/NicInput.v ===== *)
(** * Receiving frames

    [low_level_input] and [nic_driver_if_input] of src/lwip/src/arch/nic_driver_if.c: a frame
    that the driver of the network card has received is copied into a packet of the pool and
    passed to the stack.  The driver is the class [NicReceiver], and the function of the stack
    that takes the packet is the class [NetifInput]. *)

From stdpp Require Import base gmap gmultiset list numbers.
From S2P Require Import Prelude.
From S2P Require Import Bytes.
From S2P Require Import LwipString.
From S2P Require Import LwipMem.
From S2P Require Import LwipHeap.
From S2P Require Import LwipPbuf.
From S2P Require Import LwipPbufSpec.
From S2P Require Import LwipPbufOps.
From S2P Require Import LwipPbufData.
From S2P Require Import LwipPbufAlloc.

Open Scope Z_scope.

Implicit Types (st : gmap Z pbuf) (b : pbuf) (m : gmap Z Z).

(** The frame that was received, if there is one. *)
Class NicReceiver := {
  rx_state : Type;
  network_get_new_packet : K rx_state (option (list Z));
}.

Record rxdev `{PbufHeap} `{NicReceiver} := Rxdev { rx_pbufs : pbufs; rx_nic : rx_state }.

(** [netif->input]; [ERR_OK] is 0. *)
Class NetifInput `{PbufHeap} `{!NicReceiver} := { netif_input : Z -> K rxdev Z }.

Definition ERR_OK : Z := 0.

Section input.
Context `{PH : PbufHeap} `{CP : !CustomPbuf} `{D : !NicReceiver} `{I : !NetifInput}.

Definition rx_set_pbufs (x : pbufs) (s : rxdev) : rxdev := Rxdev _ _ x (rx_nic s).
Definition rx_set_nic (x : rx_state) (s : rxdev) : rxdev := Rxdev _ _ (rx_pbufs s) x.
Definition with_pbufs {A} (f : K pbufs A) : K rxdev A := kzoom (fun s => Some (rx_pbufs s)) rx_set_pbufs f.
Definition with_rx {A} (f : K rx_state A) : K rxdev A := kzoom (fun s => Some (rx_nic s)) rx_set_nic f.

(** [for (int i = 0; i < q->len; i++)]: [n] bytes of the buffer are left. *)
Fixpoint input_bytes (frame : list Z) (payload i : Z) (n : nat) (packet_index : Z) : K pbufs Z :=
  match n with
  | O => mret packet_index
  | S n =>
      v ← kunwrap (aget frame packet_index);
      with_bytes (LwipString.store (payload + i) v);;
      input_bytes frame payload (i + 1) n (u32 (packet_index + 1))
  end.

(** [for (q = p; q != NULL; q = q->next)] *)
Fixpoint input_chain (fuel : nat) (frame : list Z) (q : option Z) (packet_index : Z) : K pbufs unit :=
  match q with
  | None => mret tt
  | Some q =>
      match fuel with
      | O => khang
      | S fuel =>
          b ← pb_read q;
          j ← input_bytes frame (pb_payload b) 0 (Z.to_nat (pb_len b)) packet_index;
          input_chain fuel frame (pb_next b) j
      end
  end.

(** Without the statistics, which are not built; the byte that they look at is read. *)
Definition low_level_input : K rxdev (option Z) :=
  o ← with_rx network_get_new_packet;
  KASSERT (bool_decide (o ≠ None));;
  frame ← kunwrap o;
  p ← with_pbufs (pbuf_alloc PBUF_RAW (u16 (alen frame)) PBUF_POOL);
  match p : option Z with
  | None => mret None
  | Some a =>
      with_pbufs (n ← kgets (fun s => size (pb_store s)); input_chain n frame (Some a) 0);;
      b ← with_pbufs (pb_read a);
      with_pbufs (with_bytes (load (pb_payload b)));;
      mret (Some a)
  end.

Definition nic_driver_if_input : K rxdev unit :=
  p ← low_level_input;
  match p : option Z with
  | None => mret tt
  | Some a => e ← netif_input a; if e =? ERR_OK then mret tt else with_pbufs (pbuf_free (Some a));; mret tt
  end.

(** ** Copying the frame *)

Lemma wp_byte_store a v (Q : unit -> pbufs -> Prop) s :
  is_Some (bytes_of s !! a) -> Q tt (set_bytes (<[a := v]> (bytes_of s)) s) -> wp (with_bytes (LwipString.store a v)) Q s.
Proof.
  intros Ha HQ. eapply (wp_with_bytes _ _ (fun _ m' => m' = <[a := v]> (bytes_of s))); [by apply wp_store|]. by intros [] m' ->.
Qed.

Lemma input_bytes_spec frame payload n : forall s i j, mapped (bytes_of s) (payload + i) n -> 0 ≤ j -> j + Z.of_nat n ≤ alen frame -> alen frame < 65536 ->
  wp (input_bytes frame payload i n j) (fun r s' => r = j + Z.of_nat n /\
    s' = set_bytes (mem_write (payload + i) (take n (drop (Z.to_nat j) frame)) (bytes_of s)) s) s.
Proof.
  induction n as [|n IH]; intros s i j Hm Hj Hlen Hf; cbn [input_bytes].
  - wp_step. split; [lia|]. by destruct s.
  - destruct (lookup_lt_is_Some_2 frame (Z.to_nat j) ltac:(lia)) as [v Hv]. wp_step. wp_step; [unfold aget; rewrite bool_decide_true by lia; done|].
    wp_step. apply wp_byte_store; [by eapply mapped_head|]. rewrite u32_small by lia.
    eapply wp_mono; [apply IH; [|lia|lia|done]|].
    { simpl. rewrite Z.add_assoc. by apply mapped_insert, mapped_tail. }
    intros r s' [-> ->]. split; [lia|]. unfold set_bytes. simpl. f_equal. rewrite (drop_S frame v (Z.to_nat j)) by done. cbn [take mem_write].
    replace (Z.to_nat (j + 1)) with (S (Z.to_nat j)) by lia. rewrite Z.add_assoc. apply mem_write_insert.
Qed.

(** The buffers of [ps] have bytes of their own. *)
Definition in_buffer (b : pbuf) (x : Z) : Prop := pb_payload b ≤ x < pb_payload b + pb_len b.

Definition separate st (ps : list Z) : Prop :=
  forall q q' b b' x, q ∈ ps -> q' ∈ ps -> q ≠ q' -> st !! q = Some b -> st !! q' = Some b' -> in_buffer b x -> ~ in_buffer b' x.

Definition writable st m (ps : list Z) : Prop :=
  forall q b, q ∈ ps -> st !! q = Some b -> 0 ≤ pb_len b /\ mapped m (pb_payload b) (Z.to_nat (pb_len b)).

Lemma writable_more st m m' ps : (forall x, is_Some (m !! x) -> is_Some (m' !! x)) -> writable st m ps -> writable st m' ps.
Proof. intros Hm Hw q b Hq Hb. destruct (Hw q b Hq Hb) as [Hl Hmap]. split; [done|]. intros k Hk. by apply Hm, Hmap. Qed.

Lemma mem_write_more a l m x : is_Some (m !! x) -> is_Some (mem_write a l m !! x).
Proof. intros Hx. pose proof (mapped_mem_write m a l x 1) as Hm. rewrite <- (Z.add_0_r x). apply Hm; [|lia]. intros k Hk. by replace (x + k) with x by lia. Qed.

(** The frame [frame] is in the buffers [ps], and nothing else has changed. *)
Definition filled s (ps : list Z) (frame : list Z) s' : Prop :=
  s' = set_bytes (bytes_of s') s /\ data (pb_store s) (bytes_of s') ps = frame /\
  (forall x, (forall q b, q ∈ ps -> pb_store s !! q = Some b -> ~ in_buffer b x) -> bytes_of s' !! x = bytes_of s !! x) /\
  (forall x, is_Some (bytes_of s !! x) -> is_Some (bytes_of s' !! x)).

Lemma input_chain_spec frame fuel : alen frame < 65536 -> forall s o ps j,
  chain (pb_store s) o ps -> (length ps ≤ fuel)%nat -> separate (pb_store s) ps -> writable (pb_store s) (bytes_of s) ps -> 0 ≤ j ->
  j + lens (pb_store s) ps = alen frame ->
  wp (input_chain fuel frame o j) (fun _ s' => filled s ps (drop (Z.to_nat j) frame) s') s.
Proof.
  intros Hf. induction fuel as [|fuel IH]; intros s o ps j Hc Hlen Hsep Hw Hj Hsum; (destruct ps as [|p ps]; simpl in Hc).
  1, 3: subst o; cbn [input_chain]; wp_step; split; [by destruct s|]; split; [rewrite drop_ge by (simpl in Hsum; lia); done|done].
  { simpl in Hlen. lia. }
  pose proof Hc as (-> & b & Hb & Hc'). assert (Hp : NoDup (p :: ps)) by (by eapply chain_nodup). apply NoDup_cons in Hp as [Hp _].
  destruct (Hw p b ltac:(set_solver) Hb) as [Hl Hm]. simpl in Hsum, Hlen. unfold len_of in Hsum. rewrite Hb in Hsum.
  assert (Hsep' : separate (pb_store s) ps) by (intros q q' x x' y Hq Hq'; apply Hsep; set_solver).
  assert (Hw' : writable (pb_store s) (bytes_of s) ps) by (intros q x Hq; apply Hw; set_solver).
  assert (Hpos : 0 ≤ lens (pb_store s) ps).
  { clear -Hw'. induction ps as [|q ps IH]; simpl; [lia|]. assert (0 ≤ lens (pb_store s) ps) by (apply IH; intros x y Hx; apply Hw'; set_solver).
    unfold len_of. destruct (pb_store s !! q) as [y|] eqn:E; [|lia]. destruct (Hw' q y ltac:(set_solver) E). lia. }
  cbn [input_chain]. wp_step. eapply wp_pb_read; [done|]. wp_step.
  eapply wp_mono; [apply input_bytes_spec; [by rewrite Z.add_0_r|done|lia|done]|]. intros r s1 [-> ->]. rewrite Z.add_0_r, Z2Nat.id by lia.
  set (c := take (Z.to_nat (pb_len b)) (drop (Z.to_nat j) frame)). set (s1 := set_bytes _ s).
  assert (Hcl : alen c = pb_len b) by (unfold c; rewrite length_take, length_drop; lia).
  eapply wp_mono; [apply (IH s1 _ ps (j + pb_len b)); [done|lia|done| |lia|simpl; lia]|].
  { eapply writable_more; [|exact Hw']. intros x. apply mem_write_more. }
  intros [] s' (Es & Ed & Hout & Hmore). cbn [bytes_of set_bytes pb_store s1] in Hout, Hmore, Ed. split; [by rewrite Es|]. split; [|split].
  - unfold data in *. rewrite bind_cons, Ed. unfold data_of. rewrite Hb.
    assert (Hrd : mem_read (bytes_of s') (pb_payload b) (Z.to_nat (pb_len b)) = c).
    { rewrite (mem_read_ext (mem_write (pb_payload b) c (bytes_of s))).
      - replace (Z.to_nat (pb_len b)) with (length c) by lia. apply mem_read_write.
      - intros x Hx. apply Hout. intros q bq Hq Hbq. apply (Hsep p q b bq x); try done; [set_solver|set_solver|congruence|unfold in_buffer; lia]. }
    rewrite Hrd. unfold c. replace (Z.to_nat (j + pb_len b)) with (Z.to_nat j + Z.to_nat (pb_len b))%nat by lia. rewrite <- drop_drop. apply take_drop.
  - intros x Hx. rewrite Hout by (intros q bq Hq; apply Hx; set_solver). specialize (Hx p b ltac:(set_solver) Hb). unfold in_buffer in Hx.
    destruct (decide (x < pb_payload b)); [by apply mem_write_lookup_lt|apply mem_write_lookup_ge; lia].
  - intros x Hx. by apply Hmore, mem_write_more.
Qed.

(** ** Receiving a frame *)

Context (PP PR : gset Z) {HL : PbufHeapLaws PH (PP ∪ PR)}.

(** The elements of the pool are in memory and do not overlap. *)
Definition pool_memory m : Prop :=
  (forall q, q ∈ PP -> mapped m (q + SIZEOF_STRUCT_PBUF) (Z.to_nat PBUF_POOL_BUFSIZE_ALIGNED)) /\
  forall q q', q ∈ PP -> q' ∈ PP -> q < q' -> q + SIZEOF_STRUCT_PBUF + PBUF_POOL_BUFSIZE_ALIGNED ≤ q'.

(** The bytes of an element of the pool. *)
Definition in_element (q x : Z) : Prop := q + SIZEOF_STRUCT_PBUF ≤ x < q + SIZEOF_STRUCT_PBUF + PBUF_POOL_BUFSIZE_ALIGNED.

Lemma fits_element q b x : fits q b -> in_buffer b x -> in_element q x.
Proof. unfold fits, in_buffer, in_element. lia. Qed.

Lemma elements_apart m q q' x : pool_memory m -> q ∈ PP -> q' ∈ PP -> q ≠ q' -> in_element q x -> ~ in_element q' x.
Proof.
  intros [_ Hd] Hq Hq' Hne Hx Hx'. unfold in_element in *. change SIZEOF_STRUCT_PBUF with 16 in *.
  destruct (decide (q < q')); [specialize (Hd q q' Hq Hq')|specialize (Hd q' q Hq' Hq)]; lia.
Qed.

Lemma pool_separate st m ps : pool_memory m -> (forall q, q ∈ ps -> q ∈ PP /\ forall b, st !! q = Some b -> fits q b) -> separate st ps.
Proof.
  intros Hm Hfit q q' b b' x Hq Hq' Hne Hb Hb' Hx Hx'. destruct (Hfit q Hq) as [HP Hf]. destruct (Hfit q' Hq') as [HP' Hf'].
  eapply (elements_apart m q q' x); eauto using fits_element.
Qed.

Lemma pool_writable st m ps : pool_memory m -> (forall q, q ∈ ps -> q ∈ PP /\ forall b, st !! q = Some b -> fits q b) ->
  (forall q b, st !! q = Some b -> 0 ≤ pb_len b) -> writable st m ps.
Proof.
  intros [Hm _] Hfit Hlen q b Hq Hb. destruct (Hfit q Hq) as [HP Hf]. destruct (Hf b Hb) as [Hf1 Hf2]. specialize (Hlen _ _ Hb). split; [done|].
  intros k Hk. replace (pb_payload b + k) with (q + SIZEOF_STRUCT_PBUF + (pb_payload b - q - SIZEOF_STRUCT_PBUF + k)) by lia. apply Hm; [done|lia].
Qed.

(** What a caller gets: the packet [p] with the bytes of [frame], or nothing. *)
Definition received s H (frame : list Z) (r : option Z) s' : Prop :=
  match r with
  | None => pbufs_ok PP PR s' H None /\ bytes_of s' = bytes_of s
  | Some p => pbufs_ok PP PR s' ({[+ p +]} ⊎ H) None /\ exists ps, packet (pb_store s') p ps /\ data (pb_store s') (bytes_of s') ps = frame /\
      (forall q, q ∈ ps -> q ∈ PP /\ pb_store s !! q = None) /\
      forall x, (forall q, q ∈ ps -> ~ in_element q x) -> bytes_of s' !! x = bytes_of s !! x
  end.

Hypothesis PD : PP ## PR.


End input.
