(* ===== verification/MailboxExamples.v ===== *)
(** A processor of two nodes on which the theorems about actives and mailboxes are
    evaluated.

    The hardware state is the clock; the node 0 is the local one; the HAL has one
    mailbox to create and one to open.  [mailbox_up] is the state of the facility after
    its initialisation, with a port of the input mailbox and a port of the output
    mailbox to the local node allocated. *)

From S2P Require Import Prelude.
From S2P Require Import Hlib.
From S2P Require Import Mbuffer.
From S2P Require Import Requests.
From S2P Require Import Active.
From S2P Require Import ActiveSpec.
From S2P Require Import ActivePorts.
From S2P Require Import ActiveInit.
From S2P Require Import Facility.
From S2P Require Import Mailbox.
From S2P Require Import Communicator.
From S2P Require Import CommSpec.
From S2P Require Import Vmailbox.
From S2P Require Import VmailboxSpec.

Definition noc_small : NocHw :=
  {| hw := Z; clock_read := fun t => (t, t + 1); node_is_local := fun n => n =? 0 |}.
#[local] Existing Instance noc_small.

Definition topology_small : NocTopology := {| PROCESSOR_NOC_NODES_NUM := 2; processor_node_get_num := 0 |}.
#[local] Existing Instance topology_small.

Definition mailbox_small : MailboxHw := {|
  NANVIX_IKC_USES_ONLY_MAILBOX := false;
  HAL_MAILBOX_CREATE_MAX := 1;
  HAL_MAILBOX_OPEN_MAX := 1;
  HAL_MAILBOX_RESERVED_SIZE := 16;
  HAL_MAILBOX_DATA_SIZE := 4;
  mailbox_create := fun local h => (0, h);
  mailbox_open := fun remote h => (1, h);
  mailbox_aread := fun id buffer size h => (size, h);
  mailbox_awrite := fun id msg size h => (size, h);
  mailbox_wait := fun id h => (0, [], h);
  mailbox_message_addr := fun i => 64 * i;
  mailbox_message_sizeof := 24;
|}.
#[local] Existing Instance mailbox_small.

Lemma topology_small_laws : NocTopologyLaws topology_small.
Proof. split; [done|done]. Qed.
#[local] Existing Instance topology_small_laws.

Lemma mailbox_small_laws : MailboxHwLaws mailbox_small.
Proof.
  split; try done. intros i. unfold mailbox_message_addr, mailbox_small.
  rewrite (Z.land_ones _ 3) by done. change (2 ^ 3) with 8. replace (64 * i) with ((8 * i) * 8) by ring.
  apply Z_mod_mult.
Qed.
#[local] Existing Instance mailbox_small_laws.

(** The tables in zeroed memory. *)
Definition mailbox_bss : noc :=
  let port0 := Port RESOURCE_INITIALIZER 0 0 None in
  let pool0 := MbufferPool 0 0 (fun _ _ => false) in
  let buf0 := Mbuffer RESOURCE_INITIALIZER 0 0 0 0 (MbufferMessage (MbufferHeader 0 0 0 0) (replicate 4 0)) in
  let act0 := Active RESOURCE_INITIALIZER 0 0 0 0 0 0 (PortPool (replicate 16 port0) 0 0) pool0 pool0
                (RequestsFifo 0 0 0 0 []) false in
  Noc (Mbuffers (replicate 32 buf0) 0 false) (replicate 3 act0) 0 (<[500 := 11]> (<[501 := 22]> ∅)) 1.

Lemma mailbox_bss_statics : mailbox_statics mailbox_bss.
Proof.
  split; [done|done|..]; apply Forall_replicate; try done.
  by apply Forall_replicate.
Qed.

Definition outcome_state {S A} (m : outcome S A) (d : S) : S := match m with Done _ s => s | _ => d end.
Definition outcome_value {S A} (m : outcome S A) : option A := match m with Done a _ => Some a | _ => None end.

Definition mailbox_ready : noc := Eval vm_compute in outcome_state (do_mailbox_init mailbox_bss) mailbox_bss.

(** Port 3 of the input mailbox and a port of the mailbox to the local node. *)
Definition mailbox_up : noc :=
  Eval vm_compute in
  outcome_state ((do_mailbox_alloc 0 (-1) 3 ACTIVE_TYPE_INPUT;;
                  do_mailbox_alloc 0 0 3 ACTIVE_TYPE_OUTPUT) mailbox_ready) mailbox_ready.

Definition get_active (i : Z) (s : noc) : active :=
  default (Active RESOURCE_INITIALIZER 0 0 0 0 0 0 (PortPool [] 0 0) mbufferpool mbufferpool (RequestsFifo 0 0 0 0 []) false)
    (aget (actives s) i).
Definition get_port (p : Z) (a : active) : port :=
  default (Port RESOURCE_INITIALIZER 0 0 None) (aget (ac_ports a) p).

Definition act_in : active := get_active 0 mailbox_up.
Definition act_out : active := get_active 1 mailbox_up.

Lemma act_reqs_empty a :
  ac_requests a = RequestsFifo 0 0 16 0 (replicate 16 (-1)) -> alen (ac_ports a) = ac_nports a ->
  Forall (fun x => port_is_requested x = false) (ac_ports a) -> act_reqs a [].
Proof.
  intros Hr Hlen Hfl. split; [rewrite Hr; apply (fifo_empty 16); by exists 4|done|done|by apply NoDup_nil|].
  intros p x Hx. by rewrite (Forall_aget _ _ _ _ Hfl Hx).
Qed.

Lemma act_out_reqs : act_reqs act_out [].
Proof. apply act_reqs_empty; [done|done|]. by repeat constructor. Qed.

Lemma mailbox_up_unstored : Forall (fun b => mb_stored b = false) (mbuf (bufs mailbox_up)).
Proof. by repeat constructor. Qed.

Lemma mailbox_up_queue : queue (bufs mailbox_up) [].
Proof. apply (buffers_fresh (mbuf (bufs mailbox_bss))). Qed.

Lemma mailbox_up_ok : pool_ok mailbox_up.
Proof. split; [|done]. by repeat constructor. Qed.

(** A message of two bytes from the output port to port 3. *)
Definition config_write : active_config := ActiveConfig 17 0 3 500 2.
Definition config_read : active_config := ActiveConfig 3 3 16 600 2.
Definition stats_zero : pstats := Pstats 0 0.

(** All buffers are in use by other messages. *)
Definition mailbox_full : noc :=
  set_bufs (set_mbuf (map (fun b => mb_set_resource (resource_set_used (mb_resource b)) b)
                          (mbuf (bufs mailbox_up))) (bufs mailbox_up)) mailbox_up.

Lemma awrite_no_buffer_stuck_witness :
  wp (active_awrite mailbox_functions 17 config_write stats_zero) (fun r s' =>
    r = (err EBUSY, stats_zero) /\
    forall bs' c' st',
      wp (active_awrite mailbox_functions 17 c' st')
         (fun r' s'' => r' = (err EBUSY, st') /\ s'' = set_bufs bs' s') (set_bufs bs' s')) mailbox_full.
Proof.
  apply (awrite_no_buffer_stuck mailbox_functions ltac:(done) ltac:(done) ltac:(done) 17 config_write stats_zero
    mailbox_full act_out (get_port 0 act_out) []); try done.
  - apply act_out_reqs.
  - set_solver.
  - by repeat constructor.
Defined.

(** A read of port 3 is pending; the hardware delivered a message to port 5. *)
Definition message_ex : mbuffer :=
  Mbuffer (resource_set_used RESOURCE_INITIALIZER) UINT64_MAX 0 (-1) (-1)
    (MbufferMessage (MbufferHeader 5 20 0 0) [1; 2; 3; 4]).
Definition port_waiting : port := pt_set_mbuffer 4 (Some mbufferpool) (get_port 3 act_in).
Definition act_waiting : active :=
  ac_set_resource (resource_set_busy (ac_resource act_in)) (ac_set_ports (aset 3 port_waiting (ac_ports act_in)) act_in).
Definition mailbox_waiting : noc :=
  set_bufs (set_mbuf (aset 4 message_ex (mbuf (bufs mailbox_up))) (bufs mailbox_up))
    (set_actives (aset 0 act_waiting (actives mailbox_up)) mailbox_up).

Lemma mailbox_waiting_queue : queue (bufs mailbox_waiting) [].
Proof.
  eapply (queue_write_unstored (bufs mailbox_up) [] 4); [apply mailbox_up_queue|..]; done.
Qed.

Lemma active_wait_read_witness :
  wp (active_wait_end mailbox_functions 3 4 0 10 11 config_read stats_zero) (fun r s' =>
    actives s' = aset 0 (wait_done 3 act_waiting port_waiting) (actives mailbox_waiting) /\
    r = (ACTIVE_COMM_AGAIN, stats_zero) /\ umem s' = umem mailbox_waiting /\ queue (bufs s') []) mailbox_waiting.
Proof.
  eapply wp_mono.
  { apply (active_wait_read mailbox_functions 3 config_read stats_zero mailbox_waiting act_waiting port_waiting
      mbufferpool 4 message_ex [] 10 11 (get_port 5 act_in)); try done.
    apply mailbox_waiting_queue. }
  intros r s' Hr. exact Hr.
Defined.

Lemma active_alloc_correct_witness :
  wp (active_alloc 0 0 7 ACTIVE_TYPE_OUTPUT) (fun r s' =>
    pool_ok s' /\
    (0 ≤ r <-> exists i a p x, first_hit 0 0 ACTIVE_TYPE_OUTPUT mailbox_up i a /\ aget (ac_ports a) p = Some x /\
                 port_used x = false /\ alloc_choice a 7 ACTIVE_TYPE_OUTPUT p) /\
    (r < 0 -> s' = mailbox_up) /\
    (forall i a, 0 ≤ r -> first_hit 0 0 ACTIVE_TYPE_OUTPUT mailbox_up i a ->
       exists p x, alloc_choice a 7 ACTIVE_TYPE_OUTPUT p /\ aget (ac_ports a) p = Some x /\ port_used x = false /\
         r = ACTIVE_LADDRESS_COMPOSE i p (ac_nports a) /\
         s' = set_actives (aset i (act_take a p x) (actives mailbox_up)) mailbox_up)) mailbox_up.
Proof. apply (active_alloc_correct 0 0 7 ACTIVE_TYPE_OUTPUT mailbox_up mailbox_up_ok). Defined.

Lemma mailbox_up_bufs_ok a :
  ac_mbufferpool a = mbufferpool -> bufs_ok a mailbox_up.
Proof. intros E. unfold bufs_ok. rewrite E. split; [done|]. exists []. apply mailbox_up_queue. Qed.

Lemma mailbox_up_no_pending a p : no_pending a p mailbox_up.
Proof.
  intros _ j b _ Hb. pose proof (Forall_aget _ _ _ _ mailbox_up_unstored Hb) as E. simpl in E.
  unfold mb_matches. by rewrite E.
Qed.

Lemma active_alloc_release_witness :
  wp (r ← active_alloc 0 1 0 ACTIVE_TYPE_OUTPUT;
      if r <? 0 then mret (r, 0, err EINVAL) else
      r1 ← active_release mailbox_functions r;
      r2 ← active_release mailbox_functions r;
      mret (r, r1, r2))
     (fun res s' =>
        snd (fst res) = 0 /\ snd res = err EINVAL /\ pool_ok s' /\
        (s' = mailbox_up \/ exists i a p x y, aget (actives mailbox_up) i = Some a /\
           aget (ac_ports a) p = Some x /\ port_used x = false /\ port_used y = false /\
           s' = set_actives (aset i (ac_set_ports (aset p y (ac_ports a)) a) (actives mailbox_up)) mailbox_up))
     mailbox_up.
Proof.
  apply (active_alloc_release mailbox_functions 0 1 0 ACTIVE_TYPE_OUTPUT mailbox_up 16).
  - exact mailbox_addresses_ok.
  - apply mailbox_up_ok.
  - repeat (apply Forall_cons_2; [split_and!; [done|by apply mailbox_up_bufs_ok|intros p; apply mailbox_up_no_pending]|]).
    by apply Forall_nil_2.
Defined.

(** The output mailbox to the local node with a pending request of its port 0. *)
Definition act_requested : active :=
  ac_set_requests (RequestsFifo 1 0 16 1 (0 :: replicate 15 (-1)))
    (ac_set_ports (aset 0 (port_set_requested (get_port 0 act_out)) (ac_ports act_out)) act_out).
Definition mailbox_requested : noc := set_actives (aset 1 act_requested (actives mailbox_up)) mailbox_up.

Lemma act_requested_reqs : act_reqs act_requested [0].
Proof.
  split; [|done|by repeat constructor|by apply NoDup_singleton|].
  - split; try done; [by exists 4| |by repeat constructor].
    intros j Hj. change (rq_max_capacity _) with 16 in Hj.
    assert (Hb : Forall (fun j => aget (rq_fifo (ac_requests act_requested)) (slot_of (ac_requests act_requested) j)
                   = Some (request_at [0] j)) (seqZ 0 16)) by (by repeat constructor).
    eapply Forall_forall in Hb; [exact Hb|]. apply elem_of_seqZ. lia.
  - intros p x Hx. destruct (decide (p = 0)) as [->|Hne].
    + by injection Hx as <-.
    + rewrite bool_decide_false by set_solver.
      change (ac_ports act_requested) with (aset 0 (port_set_requested (get_port 0 act_out)) (ac_ports act_out)) in Hx.
      rewrite aget_aset_ne in Hx by done. rewrite (ar_flag _ _ act_out_reqs p x Hx). apply bool_decide_false. set_solver.
Qed.

Lemma release_forgets_request_witness :
  wp (active_release mailbox_functions (ACTIVE_LADDRESS_COMPOSE 1 0 16);;
      active_alloc 0 0 0 ACTIVE_TYPE_OUTPUT)
     (fun r s' => r = ACTIVE_LADDRESS_COMPOSE 1 0 16 /\
        exists a', aget (actives s') 1 = Some a' /\ ac_requests a' = ac_requests act_requested /\
          forall q', ~ act_reqs a' q') mailbox_requested.
Proof.
  apply (release_forgets_request mailbox_functions 16 mailbox_requested 1 act_requested 0
    (port_set_requested (get_port 0 act_out)) [0]); try done.
  - exact mailbox_addresses_ok.
  - apply (pool_ok_set mailbox_up 1 act_requested mailbox_up_ok). by repeat constructor.
  - split_and!; [done|done|]. intros j b Hj Hb. pose proof (aget_lt _ _ _ Hb).
    assert (j = 0) as -> by lia. by injection Hb as <-.
  - by apply mailbox_up_bufs_ok.
  - intros j y Hj Hy. apply aget_lt in Hy. lia.
  - apply act_requested_reqs.
  - set_solver.
Defined.

Lemma mailbox_source_check_correct_witness :
  mailbox_source_check (mb_set_message (MbufferMessage (MbufferHeader 3 20 0 0) []) message_ex) (-1) = true /\
  (mailbox_source_check (mb_set_message (MbufferMessage (MbufferHeader 3 20 0 0) []) message_ex)
     (mailbox_laddress_calc 2 3) = true <-> (2 = MAILBOX_ANY_SOURCE \/ 2 = 1) /\ (3 = MAILBOX_ANY_PORT \/ 3 = 3)).
Proof. apply (mailbox_source_check_correct _ 2 3 1 3); unfold MAILBOX_PORT_NR; simpl; (lia || done). Defined.

(** ** Virtual mailboxes *)

Definition comm_zero : communicator := Communicator RESOURCE_INITIALIZER 0 (ActiveConfig 0 0 0 0 0) stats_zero false.

(** The tables in zeroed memory; no function is set yet. *)
Definition comms_bss : comms :=
  Comms mailbox_bss (replicate 64 comm_zero) (CommunicatorCounters false 0 0 0 0 0 0)
    (CommunicatorFunctions (fun _ => kfault) (fun _ _ _ => kfault) (fun _ _ _ => kfault) (fun _ _ => 0)).

Lemma vmailbox_init_correct_witness : wp vmailbox_init (fun _ s' => vmailbox_ready s') comms_bss.
Proof. apply (vmailbox_init_correct comms_bss mailbox_bss_statics). done. Defined.

Definition comms_ready : comms :=
  Comms mailbox_ready (replicate 64 (vmailbox_entry_init comm_zero)) (CommunicatorCounters false 0 0 0 0 0 0)
    vmailbox_functions.

Lemma mailbox_ready_opened : bufs mailbox_ready = bufs (do_mailbox_table_init mailbox_bss) /\
  pool_opened 16 0 mbufferpool mbufferpool_aux 2 mailbox_ready.
Proof.
  assert (E : do_mailbox_init mailbox_bss = Done tt mailbox_ready) by (vm_compute; reflexivity).
  exact (wp_Done _ _ _ _ _ E (do_mailbox_init_spec mailbox_bss mailbox_bss_statics)).
Qed.

Lemma comms_ready_ready : vmailbox_ready comms_ready.
Proof.
  destruct mailbox_ready_opened as [Hb Hod]. split; try done.
  - exact (mailbox_facility (M := mailbox_small) mailbox_ready (mbuf (bufs mailbox_bss)) Hod Hb eq_refl).
  - split; [|done]. by repeat constructor.
  - by repeat constructor.
Qed.

Lemma vmailbox_delivery_witness :
  wp (i ← do_vmailbox_create (0, 0) 0 3;
      o ← do_vmailbox_open (0, 0) 0 3;
      w ← do_vmailbox_awrite o 500 2;
      r ← do_vmailbox_aread i 600 2;
      ri ← do_vmailbox_wait i;
      ro ← do_vmailbox_wait o;
      mret (w, r, ri, ro))
     (fun res s' => res = (2, 2, 0, 0) /\ mem_read (umem (cs_noc s')) 600 2 = [11; 22] /\
        queue (bufs (cs_noc s')) []) comms_ready.
Proof.
  apply (vmailbox_delivery (0, 0) (0, 0) 3 500 600 2 comms_ready comms_ready_ready); [done|done|].
  by repeat constructor.
Defined.

(** ** Communicators

    Communicator 0 reads port 3 of the input mailbox; communicator 1 writes to the
    mailbox of the local node. *)

Definition comm_reader : communicator :=
  Communicator (RFlags true false true false) 2 (ActiveConfig 3 3 (-1) 600 2) stats_zero false.
Definition comm_writer : communicator :=
  Communicator (RFlags true false false true) 0 (ActiveConfig 17 0 3 500 2) stats_zero false.
Definition comms_pair (c : communicator) : comms :=
  Comms mailbox_up [c; comm_writer; comm_zero] (CommunicatorCounters false 1 0 1 0 0 0) vmailbox_functions.

(** The reader with a pending read. *)
Definition comm_pending : communicator := cm_set_resource (RFlags true true true false) comm_reader.

Lemma comms_pair_ok c : comm_ok c -> comms_ok (comms_pair c).
Proof. intros Hc. split; [|done]. apply Forall_cons_2; [done|]. by repeat constructor. Qed.

Lemma comm_reader_ok : comm_ok comm_reader.
Proof. by split. Qed.

Lemma comm_pending_ok : comm_ok comm_pending.
Proof. by split. Qed.

Lemma communicator_operate_refines_witness :
  exists r st n,
  wp (communicator_operate 0 ACTIVE_TYPE_INPUT) (fun ret s' => comms_ok s' /\
    exists c', s' = Comms n (aset 0 c' (communicators (comms_pair comm_reader)))
                 (counters (comms_pair comm_reader)) (cm_fn (comms_pair comm_reader)) /\
      cm_config c' = cm_config comm_reader /\ cm_stats c' = st /\
      if r <? 0 then ret = r /\ phase c' = phase comm_reader
      else ret = 2 /\ phase c' = operate_next r (phase comm_reader)) (comms_pair comm_reader).
Proof.
  destruct (do_mailbox_aread 3 (cm_config comm_reader) stats_zero mailbox_up) as [[r st] n| | |] eqn:E;
    [|vm_compute in E; discriminate E..].
  exists r, st, n.
  apply (communicator_operate_refines 0 ACTIVE_TYPE_INPUT (comms_pair comm_reader) comm_reader r st n);
    [apply comms_pair_ok, comm_reader_ok|done|exact E].
Defined.

Definition comms_waiting : comms := cs_set_noc mailbox_waiting (comms_pair comm_pending).

Lemma communicator_wait_refines_witness :
  exists st n,
  wp (communicator_wait 0) (fun ret s' => comms_ok s' /\
    exists c', phase c' = Idle Input true /\ cfg_buffer (cm_config c') = 0 /\ cfg_size (cm_config c') = 0 /\
      ret = ACTIVE_COMM_AGAIN /\ cm_stats c' = st /\ remote_addr (cm_config c') = -1 /\
      s' = Comms n (aset 0 c' (communicators comms_waiting)) (counters comms_waiting) (cm_fn comms_waiting))
    comms_waiting.
Proof.
  destruct (do_mailbox_wait 3 (cm_config comm_pending) stats_zero mailbox_waiting) as [[r st] n| | |] eqn:E;
    [|vm_compute in E; discriminate E..].
  assert (r = ACTIVE_COMM_AGAIN) as -> by (vm_compute in E |- *; congruence).
  exists st, n. eapply wp_mono.
  { apply (communicator_wait_refines 0 comms_waiting comm_pending ACTIVE_COMM_AGAIN st n);
      [apply (comms_pair_ok comm_pending comm_pending_ok)|done|exact E]. }
  intros ret s' [Hok Hr]. split; [exact Hok|exact Hr].
Defined.

Lemma communicator_alloc_free_witness :
  exists n,
  wp (id ← communicator_alloc (ActiveConfig 17 0 3 0 0) ACTIVE_TYPE_OUTPUT;
      if id <? 0 then mret (id, 0) else r ← communicator_free id ACTIVE_TYPE_OUTPUT; mret (id, r))
     (fun res s' => comms_ok s' /\ snd res = 0 /\
        ((fst res = err EAGAIN /\ s' = comms_pair comm_reader /\
          Forall (fun c => phase c <> Free) (communicators (comms_pair comm_reader))) \/
         (exists c c', aget (communicators (comms_pair comm_reader)) (fst res) = Some c /\ phase c = Free /\
            (forall j b, j < fst res -> aget (communicators (comms_pair comm_reader)) j = Some b -> phase b <> Free) /\
            phase c' = Free /\
            s' = Comms n (aset (fst res) c' (communicators (comms_pair comm_reader)))
                   (inc_ncloses (counters (comms_pair comm_reader))) vmailbox_functions)))
     (comms_pair comm_reader).
Proof.
  destruct (do_mailbox_release 17 mailbox_up) as [r n| | |] eqn:E; [|vm_compute in E; discriminate E..].
  assert (r = 0) as -> by (vm_compute in E; congruence).
  exists n. apply (communicator_alloc_free (ActiveConfig 17 0 3 0 0) ACTIVE_TYPE_OUTPUT (comms_pair comm_reader) n);
    [apply comms_pair_ok, comm_reader_ok|exact E].
Defined.

Lemma vmailbox_aread_redirects_witness :
  wp (do_vmailbox_aread 0 700 4) (fun r s' => r = err EBUSY /\ cs_noc s' = mailbox_up /\
    exists c', communicators s' = aset 0 c' (communicators (comms_pair comm_pending)) /\
      phase c' = Pending Input true false /\ cfg_buffer (cm_config c') = 700 /\ cfg_size (cm_config c') = 4)
    (comms_pair comm_pending).
Proof.
  apply (vmailbox_aread_redirects 0 700 4 (comms_pair comm_pending) comm_pending true false);
    [apply (comms_pair_ok comm_pending comm_pending_ok)|done|done].
Defined.

Lemma vmailbox_read_write_race_witness :
  exists r n,
  wp (vmailbox_prepare_read 0 600 2;; vmailbox_prepare_write 1 500 2;; communicator_operate 0 ACTIVE_TYPE_INPUT)
     (fun ret s' => ret = (if r <? 0 then r else 2) /\ cs_noc s' = n) (comms_pair comm_reader).
Proof.
  destruct (do_mailbox_awrite 3 (cm_config comm_reader) stats_zero mailbox_up) as [[r st] n| | |] eqn:E;
    [|vm_compute in E; discriminate E..].
  exists r, n.
  apply (vmailbox_read_write_race 0 1 600 2 500 2 (comms_pair comm_reader) comm_reader comm_writer true r st n);
    [apply comms_pair_ok, comm_reader_ok|done|done|done|done|exact E].
Defined.
