(* ===== verification/PortalExamples.v ===== *)
(** The processor of two nodes with portals: the theorems about virtual portals evaluated. *)

From S2P Require Import Prelude.
From S2P Require Import Hlib.
From S2P Require Import Mbuffer.
From S2P Require Import Active.
From S2P Require Import ActiveInit.
From S2P Require Import Portal.
From S2P Require Import Communicator.
From S2P Require Import CommSpec.
From S2P Require Import Vportal.
From S2P Require Import VportalSpec.
From S2P Require Import MailboxExamples.

#[local] Existing Instance noc_small.
#[local] Existing Instance topology_small.
#[local] Existing Instance topology_small_laws.

Definition portal_small : PortalHw := {|
  HAL_PORTAL_CREATE_MAX := 1;
  HAL_PORTAL_OPEN_MAX := 1;
  HAL_PORTAL_RESERVED_SIZE := 16;
  HAL_PORTAL_DATA_SIZE := 4;
  portal_create := fun local h => (0, h);
  portal_open := fun local remote h => (1, h);
  portal_allow := fun id remote h => (0, h);
  portal_aread := fun id buffer size h => (size, h);
  portal_awrite := fun id msg size h => (size, h);
  portal_wait := fun id h => (0, [], h);
  portal_message_addr := fun i => 64 * i;
  portal_message_sizeof := 24;
|}.
#[local] Existing Instance portal_small.

Lemma portal_small_laws : PortalHwLaws portal_small.
Proof. split; try done. apply mailbox_small_laws. Qed.
#[local] Existing Instance portal_small_laws.

Lemma portal_bss_statics : portal_statics mailbox_bss.
Proof.
  split; [done|done|..]; apply Forall_replicate; try done.
  by apply Forall_replicate.
Qed.

Definition portal_comms_bss : comms :=
  Comms mailbox_bss (replicate (Z.to_nat KPORTAL_MAX) comm_zero) (CommunicatorCounters false 0 0 0 0 0 0)
    (CommunicatorFunctions (fun _ => kfault) (fun _ _ _ => kfault) (fun _ _ _ => kfault) (fun _ _ => 0)).

Lemma vportal_init_correct_witness : wp vportal_init (fun _ s' => vportal_ready s') portal_comms_bss.
Proof. apply (vportal_init_correct portal_comms_bss portal_bss_statics). done. Defined.

Definition portal_noc_ready : noc := Eval vm_compute in outcome_state (do_portal_init mailbox_bss) mailbox_bss.

Definition portal_comms_ready : comms :=
  Comms portal_noc_ready (replicate (Z.to_nat KPORTAL_MAX) (vportal_entry_init comm_zero))
    (CommunicatorCounters false 0 0 0 0 0 0) vportal_functions.

Lemma portal_comms_ready_ready : vportal_ready portal_comms_ready.
Proof.
  assert (E : do_portal_init mailbox_bss = Done tt portal_noc_ready) by (vm_compute; reflexivity).
  destruct (wp_Done _ _ _ _ _ E (do_portal_init_spec mailbox_bss portal_bss_statics)) as [Hb Hod]. split; try done.
  - exact (portal_facility portal_noc_ready (mbuf (bufs mailbox_bss)) Hod Hb eq_refl).
  - split; [|done]. by repeat constructor.
  - by repeat constructor.
Qed.

Lemma vportal_delivery_witness :
  wp (i ← do_vportal_create (0, 0) 0 3;
      o ← do_vportal_open (0, 0) 0 0 3;
      q ← do_vportal_get_port o;
      a ← do_vportal_allow i 0 q;
      w ← do_vportal_awrite o 500 2;
      r ← do_vportal_aread i 600 2;
      ri ← do_vportal_wait i;
      ro ← do_vportal_wait o;
      again ← do_vportal_aread i 700 2;
      mret (a, w, r, ri, ro, again))
     (fun res s' => res = (0, 2, 2, 0, 0, err EACCES) /\ mem_read (umem (cs_noc s')) 600 2 = [11; 22] /\
        queue (bufs (cs_noc s')) []) portal_comms_ready.
Proof.
  apply (vportal_delivery (0, 0) (0, 0) 3 500 600 2 700 2 portal_comms_ready portal_comms_ready_ready); [done|done|].
  by repeat constructor.
Defined.
