(* ===== verification/SyncExamples.v ===== *)
(** Synchronization points on a small machine: the theorems of [SyncSpec] evaluated.

    The table has two entries.  The state of the hardware counts the calls: a creation
    adds 10 and a release 100. *)

From S2P Require Import Prelude.
From S2P Require Import Hlib.
From S2P Require Import MemLayout.
From S2P Require Import Active.
From S2P Require Import Communicator.
From S2P Require Import Sync.
From S2P Require Import SyncSpec.
From S2P Require Import ActiveInit.
From S2P Require Import Mailbox.
From S2P Require Import SysNoc.
From S2P Require Import SysNocSpec.
From S2P Require Import MailboxExamples.

#[local] Existing Instances noc_small mem_small.

Definition sync_small : SyncHw := {|
  SYNC_CREATE_MAX := 1;
  SYNC_OPEN_MAX := 1;
  sync_create := fun nodes nnodes mode h => (7, h + 10);
  sync_open := fun nodes nnodes mode h => (8, h + 10);
  sync_unlink := fun fd h => (0, h + 100);
  sync_close := fun fd h => (0, h + 100);
  sync_wait := fun fd h => (0, h);
  sync_signal := fun fd h => (0, h);
|}.

(** The same machine when it refuses to release a point. *)
Definition sync_stuck : SyncHw := {|
  SYNC_CREATE_MAX := 1;
  SYNC_OPEN_MAX := 1;
  sync_create := fun nodes nnodes mode h => (7, h + 10);
  sync_open := fun nodes nnodes mode h => (8, h + 10);
  sync_unlink := fun fd h => (-5, h + 100);
  sync_close := fun fd h => (-5, h + 100);
  sync_wait := fun fd h => (0, h);
  sync_signal := fun fd h => (0, h);
|}.

Definition pool_first : ResourcePool := {|
  resource_alloc := fun rs =>
    match search (fun r => negb (resource_is_used r)) rs with
    | Some i => (i, aset i (resource_set_used RESOURCE_INITIALIZER) rs)
    | None => (-1, rs)
    end;
  resource_free := fun i rs => aset i RESOURCE_INITIALIZER rs;
|}.
#[local] Existing Instance pool_first.

Lemma pool_first_laws : ResourcePoolLaws pool_first.
Proof.
  split.
  - intros rs. simpl. destruct (search (fun r => negb (rf_used r)) rs) as [i|] eqn:E.
    + apply search_Some in E as (_ & (r & Hr & Hu) & _). right. exists r, (RFlags true false false false).
      by apply negb_true_iff in Hu.
    + left. split; [done|]. split; [done|]. apply search_None in E. eapply Forall_impl; [exact E|].
      intros r Hr. by apply negb_false_iff in Hr.
  - intros rs i r Hr. by exists RESOURCE_INITIALIZER.
Qed.
#[local] Existing Instance pool_first_laws.

Definition abi_small : Abi := {| sizeof_size_t := 4; store_int := fun size v => replicate (Z.to_nat size) v |}.
#[local] Existing Instance abi_small.

Definition sync_zero : syncs :=
  Syncs 0 [sync_entry_init; sync_entry_init] (SyncCounters 0 0 0 0 0 0) false ∅.

Lemma sync_zero_ok : sync_ok sync_zero.
Proof.
  split; [done|by repeat constructor|]. intros i j x y k Hx _ Hk. exfalso. revert Hk.
  apply aget_elem in Hx. simpl in Hx. apply list_elem_of_In in Hx. simpl in Hx. by destruct Hx as [<-|[<-|[]]].
Qed.

(** The point 0 for the nodes 1 and 2. *)
Definition point_created : sync := Sync (RFlags true false true false) 7 1 0 1 6 0.
Definition sync_created : syncs :=
  Syncs 10 [point_created; sync_entry_init] (SyncCounters 1 0 0 0 0 0) false ∅.

Lemma sync_created_ok : sync_ok sync_created.
Proof.
  split; [done|by repeat constructor|]. intros i j x y k Hx Hy Hkx Hky.
  assert (Hone : forall i x, aget (vsynctab sync_created) i = Some x -> sync_key x = Some k -> i = 0).
  { clear. intros i x Hx Hk. pose proof (aget_lt _ _ _ Hx) as Hi. simpl in Hi.
    assert (i = 0 \/ i = 1) as [-> | ->] by lia; [done|]. injection Hx as <-. done. }
  rewrite (Hone i x), (Hone j y); done.
Qed.


Lemma vsync_failed_release_witness :
  @wp (@syncs hlib_flags noc_small) _
     (first ← do_vsync_unlink (Y := sync_stuck) 0; second ← do_vsync_unlink (Y := sync_stuck) 0; mret (first, second))
     (fun res s' => res = (-5, 0) /\ sy_hw s' = 110 /\ point_is s' 0 (true, 0, 1, 6) 7 (-1)) sync_created.
Proof.
  apply (vsync_failed_release (Y := sync_stuck) sync_created 0 0 1 6 7 (-5) 110); try done.
  split; [apply sync_created_ok|]. by exists point_created.
Defined.

(** A wait on the point 0 that another thread created. *)
Definition sync_waiting : syncs :=
  Syncs 10 [Sync (RFlags true true true false) 7 1 0 1 6 0; sync_entry_init] (SyncCounters 1 0 0 0 0 0) false ∅.

Lemma vsync_operation_protected_witness :
  let P := [PendingOp 0 VSYNC_TYPE_INPUT 7 None] in
  NoDup (map po_id P) /\
  (exists x, aget (vsynctab sync_waiting) 0 = Some x /\ sy_used x = true /\ sy_busy x = true /\ hwfd x = 7) /\
  wp (do_vsync_unlink (Y := sync_small) 0) (fun r s'' => r < 0 /\ s'' = sync_waiting) sync_waiting /\
  wp (do_vsync_close (Y := sync_small) 0) (fun r s'' => r < 0 /\ s'' = sync_waiting) sync_waiting.
Proof.
  apply (vsync_operation_protected (Y := sync_small) TargetX86 sync_zero sync_zero sync_waiting
    [PendingOp 0 VSYNC_TYPE_INPUT 7 None] (PendingOp 0 VSYNC_TYPE_INPUT 7 None)); [done|done| |by apply list_elem_of_here].
  eapply rtc_l.
  { by apply (step_sync_call (Y := sync_small) TargetX86 (CreateCall [1; 2] 2 0) 0 sync_zero sync_created). }
  apply rtc_once. by apply (step_sync_begin (Y := sync_small) TargetX86 0 VSYNC_TYPE_INPUT point_created).
Defined.

(** ** Kernel calls

    The memory holds the list of the nodes 0 and 1 at address 256. *)

#[local] Existing Instances topology_small topology_small_laws mailbox_small.

Definition user_small : UserAbi := {|
  load_int := fun m a => default 0 (m !! a);
  sizeof_int := 4;
  va_args := fun m a => (default 0 (m !! a), default 0 (m !! (a + 4)));
  HAL_MAILBOX_MSG_SIZE := 24;
  HAL_PORTAL_MAX_SIZE := 64;
  SYNC_ONE_TO_ALL := 0;
  SYNC_ALL_TO_ONE := 1;
  cluster_get_num := 0;
|}.
#[local] Existing Instance user_small.

Definition sync_listed : syncs := sys_set_umem {[256 := 0; 260 := 1]} sync_zero.

Lemma sync_nodelist_correct_witness :
  sync_nodelist_is_valid [0; 1] true = true <->
    nodes_valid [0; 1] /\ processor_node_get_num ∈ [0; 1] /\ processor_node_get_num < 32 /\
    (head [0; 1] = Some processor_node_get_num <-> true = true).
Proof. apply (sync_nodelist_correct [0; 1] true). discriminate. Defined.

Lemma kernel_sync_create_correct_witness :
  wp (kernel_sync_create (Y := sync_small) TargetX86 256 2 1) (fun r s' =>
    let l := load_nodes (sy_umem sync_listed) 256 2 in
    s' = sync_listed /\ r ∈ [err ENOSYS; err EINVAL; err EFAULT] \/
    nodes_valid l /\ processor_node_get_num ∈ l /\ alen l = 2 /\
    mm_check_area TargetX86 256 (sizeof_int * 2) UMEM_AREA = true /\
    exists first nodeslist, head l = Some first /\ (forall k, 0 ≤ k -> Z.testbit nodeslist k = bool_decide (k ∈ l)) /\
      sync_allocated (true, 1, first, nodeslist) (sync_create (SyncHw := sync_small) l 2 1) sync_listed r s') sync_listed.
Proof.
  apply (kernel_sync_create_correct (Y := sync_small) TargetX86 sync_listed 256 2 1).
  - destruct sync_zero_ok as [Hl Hd Hu]. split; [exact Hl|exact Hd|exact Hu].
  - discriminate.
Defined.

Lemma kernel_sync_id_overrun_witness :
  kernel_sync_unlink (Y := sync_small) 2 sync_zero = Fault /\ kernel_sync_close (Y := sync_small) 2 sync_zero = Fault.
Proof.
  apply (kernel_sync_id_overrun (Y := sync_small) sync_zero 2); [reflexivity|reflexivity|].
  split; [discriminate|reflexivity].
Defined.
