(* ===== verification/SchedulerExamples.v ===== *)
(** The thread system of a processor of three cores, evaluated.

    The core 0 is the master; there are two idle threads (1 and 2) and room for four
    user threads (3 to 6).  The kernel pool has ten pages, for the stacks of five
    threads.  The state of the cores is the list of wake-ups. *)

From S2P Require Import Prelude.
From S2P Require Import Hlib.
From S2P Require Import MemLayout.
From S2P Require Import Kpool.
From S2P Require Import ThreadBase.
From S2P Require Import Cond.
From S2P Require Import CondSpec.
From S2P Require Import Thread.
From S2P Require Import ThreadSpec.
From S2P Require Import ThreadOps.
From S2P Require Import Sleep.
From S2P Require Import ThreadSteps.
From S2P Require Import Scheduler.
From S2P Require Import MailboxExamples.

Definition mem_threads : MemLayout := {|
  VADDR_BITS := 16; PAGE_SHIFT := 4; PAGE_SIZE := 16; PAGE_MASK := -16;
  UBASE_VIRT := 256; UBASE_PHYS := 512; UMEM_SIZE := 128;
  KBASE_VIRT := 0; KMEM_SIZE := 64;
  KPOOL_VIRT := 64; KPOOL_PHYS := 64; KPOOL_SIZE := 160;
  FRAME_BITS := 16;
|}.

Lemma mem_threads_laws : MemLayoutLaws mem_threads.
Proof. split; vm_compute; done. Qed.

Definition cores_three : CoreHw := {|
  cores := list Z;
  CORES_NUM := 3;
  core_wakeup := fun c l => l ++ [c];
  core_start := fun c l => (0, l);
  context_create := fun u k l => 32;
  context_save := fun me l => 33;
  thread_ctx_addr := fun i => 1 + i `mod` 32;
  thread_idle_addr := 40;
|}.

#[local] Existing Instances mem_threads mem_threads_laws cores_three.

Lemma cores_three_laws : CoreHwLaws cores_three TargetOpenRISC.
Proof.
  split; [done|done|done|]. intros i. pose proof (Z.mod_pos_bound i 32 ltac:(done)) as Hb.
  unfold mm_is_kaddr_on, mm_is_kaddr. cbn -[Z.modulo]. split; [lia|]. apply orb_true_iff. left. apply andb_true_iff. lia.
Qed.
#[local] Existing Instance cores_three_laws.

Definition tm_start : tm :=
  Tm [] (thread_master 50 :: replicate 6 thread_unused) (replicate 7 COND_INITIALIZER) 1 1 false [] []
    (ScheduleQueue 0 None None (SEMAPHORE_INITIALIZER 0)) false (replicate 21 (ExitValue KTHREAD_NULL_TID 0)) 0
    (Kpool (replicate 10 0) (replicate 10 tt)) (SleepQueues false (replicate 7 (KTHREAD_NULL_TID, COND_INITIALIZER))).

Lemma pool_fresh : kpool_wf (Kpool (replicate 10 0) (replicate 10 tt)).
Proof. split; [done|]. split; [done|]. apply Forall_replicate. by left. Qed.

Lemma tm_start_static : tm_static 50 tm_start.
Proof. split; try done. apply pool_fresh. Qed.

Abbreviation yield := (thread_yield TargetOpenRISC).


(** The initialised system; three threads created; the first two run on cores 1 and 2. *)
Definition tm_ready : tm := Eval vm_compute in outcome_state (thread_init tm_start) tm_start.
Definition tm_one : tm := Eval vm_compute in outcome_state (thread_create 60 0 tm_ready) tm_ready.
Definition tm_two : tm := Eval vm_compute in outcome_state (thread_create 61 0 tm_one) tm_one.
Definition tm_three : tm := Eval vm_compute in outcome_state (thread_create 62 0 tm_two) tm_two.
Definition tm_four : tm := Eval vm_compute in outcome_state (yield 1 tm_three) tm_three.
Definition tm_five : tm := Eval vm_compute in outcome_state (yield 2 tm_four) tm_four.

Lemma tm_ready_ok : sched_ok TargetOpenRISC tm_ready [] ∅.
Proof.
  assert (E : thread_init tm_start = Done tt tm_ready) by (vm_compute; reflexivity).
  exact (wp_Done _ _ _ _ _ E (thread_init_spec TargetOpenRISC 50 tm_start tm_start_static (fun _ _ => eq_refl))).
Qed.

Lemma steps_ok s s' A A' q q' :
  sched_ok TargetOpenRISC s q A -> rtc (tm_step TargetOpenRISC) (s, A) (s', A') ->
  linked (threads s') (sq_head (sched_queue s')) q' -> sched_ok TargetOpenRISC s' q' A'.
Proof.
  intros Hok Hrtc Hq. assert (Hex : exists q, sched_ok TargetOpenRISC s' q A').
  { by apply (tm_steps_ok TargetOpenRISC (s, A) (s', A') q). }
  destruct Hex as [x Hx]. by rewrite (linked_fun _ _ _ _ Hq (qo_head _ _ (so_queue _ _ _ _ Hx))).
Qed.

Lemma tm_three_steps : rtc (tm_step TargetOpenRISC) (tm_ready, ∅) (tm_three, ∅).
Proof.
  eapply rtc_l; [by apply (tstep_create _ 60 0 (inr 3) tm_ready tm_one)|].
  eapply rtc_l; [by apply (tstep_create _ 61 0 (inr 4) tm_one tm_two)|].
  apply rtc_once. by apply (tstep_create _ 62 0 (inr 5) tm_two tm_three).
Qed.

Lemma tm_three_ok : sched_ok TargetOpenRISC tm_three [3; 4; 5] ∅.
Proof. eapply (steps_ok tm_ready); [apply tm_ready_ok|apply tm_three_steps|]. simpl. repeat (split; [done|eexists; split; [done|]]). done. Qed.

Lemma tm_five_ok : sched_ok TargetOpenRISC tm_five [5] ∅.
Proof.
  eapply (steps_ok tm_three); [apply tm_three_ok| |].
  - eapply rtc_l; [apply (tstep_yield _ 1 1 (inr 3) tm_three tm_four); [done|by eexists|done|vm_compute; reflexivity]|].
    apply rtc_once. apply (tstep_yield _ 2 2 (inr 4) tm_four tm_five); [done|by eexists|done|vm_compute; reflexivity].
  - simpl. split; [done|]. eexists. by split.
Qed.

Lemma scheduler_fifo_witness :
  wp (kseq (map yield [2; 1; 2])) (fun rs s' =>
    rs = [inr 3; inr 4; inr 5] /\
    forall i me, last [2; 1; 2] = Some me -> last rs = Some (inr i) -> runs (threads s') me i) tm_three.
Proof.
  apply (scheduler_fifo TargetOpenRISC tm_three [3; 4; 5] ∅ [2; 1; 2] tm_three_ok); [|done].
  assert (H1 : core_awake tm_three ∅ 1) by (split; [done|]; exists 1; split; [by eexists|done]).
  assert (H2 : core_awake tm_three ∅ 2) by (split; [done|]; exists 2; split; [by eexists|done]).
  by repeat (apply Forall_cons; split; [done|]).
Defined.

Lemma thread_yield_race_witness :
  wp (n ← yield_select 1 3;
      other ← yield 2;
      now ← yield_switch TargetOpenRISC 1 3 n;
      mret (other, now))
     (fun res s' => res = (inr 4, 5) /\
        linked (threads s') (sq_head (sched_queue s')) [4] /\
        (exists h, aget (threads s') 4 = Some h /\ state h = THREAD_STOPPED) /\
        get_curr 2 0 (threads s') None = Some 3 /\ get_curr 1 0 (threads s') None = Some 5) tm_five.
Proof.
  apply (thread_yield_race TargetOpenRISC tm_five ∅ 3 5 4 1 2 tm_five_ok); try done; by eexists.
Defined.

Lemma thread_retval_roundtrip_witness :
  wp (thread_save_retval 77 3;;
      kseq (map (fun x => thread_save_retval (fst x) (snd x)) [(88, 4); (0, 5)]);;
      thread_search_retval 3) (fun r _ => r = 77) tm_three.
Proof.
  apply (thread_retval_roundtrip (C := cores_three) tm_three 77 3 (Thread 3 (-1) THREAD_STARTED 0 60 32 (Some 4)) [(88, 4); (0, 5)]); try done.
  - by repeat constructor.
  - apply Forall_cons. split; [by eexists|]. apply Forall_cons. split; [by eexists|done].
Defined.

(** Thread 1 sleeps on the semaphore of the queue, which is then raised. *)
Definition sem_asleep : tm :=
  Eval vm_compute in outcome_state (semaphore_down_try queue_sem set_queue_sem 1 tm_start) tm_start.
Definition sem_raised : tm := Eval vm_compute in outcome_state (semaphore_up queue_sem set_queue_sem sem_asleep) sem_asleep.

