(* ===== verification/SingleExamples.v ===== *)
(** Runs of the thread system of cores that run one thread each, at which the properties
    of SingleSteps.v are applied. *)

From S2P Require Import Prelude.
From S2P Require Import Hlib.
From S2P Require Import ThreadBase.
From S2P Require Import Thread.
From S2P Require Import SingleThread.
From S2P Require Import SingleSteps.
From S2P Require Import MailboxExamples.

Import Single.

(** Three cores, of which core 2 does not start. *)
Definition cores_busy : CoreHw := {|
  cores := list Z;
  CORES_NUM := 3;
  core_wakeup := fun c l => l ++ [c];
  core_start := fun c l => if c =? 2 then (-16, l) else (0, l);
  context_create := fun u k l => 32;
  context_save := fun me l => 33;
  thread_ctx_addr := fun i => 1 + i;
  thread_idle_addr := 40;
|}.
#[local] Existing Instance cores_busy.

Definition cores_busy_reset : CoreReset := {| core_release := fun c l => (0, l); core_reset := fun c l => l |}.
#[local] Existing Instances cores_busy_reset.

Definition single_start : tm :=
  Tm [] (Thread 0 0 THREAD_RUNNING 0 50 0 None :: replicate 2 (Thread (-1) 0 THREAD_NOT_STARTED 0 0 0 None))
    (replicate 3 COND_INITIALIZER) 1 1 false [] [] (ScheduleQueue 0 None None (SEMAPHORE_INITIALIZER 0)) false
    (replicate 9 (ExitValue KTHREAD_NULL_TID 0)) 0 (Kpool.Kpool [] []) (SleepQueues false []).

(** The master creates thread 1, whose core starts, and then thread 2; thread 1 joins
    thread 2, and no attempt to start core 2 succeeds. *)
Definition single_one : tm := Eval vm_compute in outcome_state (create_begin 60 0 single_start) single_start.
Definition single_two : tm := Eval vm_compute in outcome_state (create_begin 61 0 single_one) single_one.
Definition single_wait : tm := Eval vm_compute in outcome_state (thread_join_begin 1 2 single_two) single_two.

Definition single_stuck : config :=
  Config single_wait (<[0 := Creating 2 2 0]> (<[1 := Asleep 2 2]> ∅)) ∅ ∅ ∅.

Lemma single_trials n (P : gmap Z phase) c0 :
  P !! 0 = Some (Creating 2 2 n) -> reachable c0 50 (Config single_wait P ∅ ∅ ∅) ->
  reachable c0 50 (Config single_wait (<[0 := Creating 2 2 0]> P) ∅ ∅ ∅).
Proof.
  revert P. induction n as [|n IH]; intros P Hp Hr; [by rewrite insert_id|].
  rewrite <- (insert_insert_eq P 0 (Creating 2 2 0) (Creating 2 2 n)). apply IH; [by rewrite lookup_insert_eq|].
  eapply ReachStep; [exact Hr|]. by eapply (StBusy single_wait P ∅ ∅ ∅ 0 2 2 n).
Qed.

Lemma single_stuck_reachable : reachable [] 50 single_stuck.
Proof.
  set (P0 := {[0 := Idle]} : gmap Z phase). set (P1 := <[0 := Creating 1 1 5]> P0). set (P2 := <[1 := Idle]> (<[0 := Idle]> P1)).
  set (P3 := <[0 := Creating 2 2 5]> P2). set (P4 := <[1 := Asleep 2 2]> P3).
  assert (R0 : reachable [] 50 (Config single_start P0 ∅ ∅ ∅)) by (by apply ReachInit).
  assert (R1 : reachable [] 50 (Config single_one P1 ∅ ∅ ∅)) by (eapply ReachStep; [exact R0|by apply (StCreate _ _ _ _ _ 0 60 0)]).
  assert (R2 : reachable [] 50 (Config single_one P2 ∅ ∅ ∅)) by (eapply ReachStep; [exact R1|by apply (StStart _ _ _ _ _ _ _ 1 4)]).
  assert (R3 : reachable [] 50 (Config single_two P3 ∅ ∅ ∅)) by (eapply ReachStep; [exact R2|by apply (StCreate _ _ _ _ _ 0 61 0)]).
  assert (R4 : reachable [] 50 (Config single_wait P4 ∅ ∅ ∅)) by (eapply ReachStep; [exact R3|by apply StSleep]).
  apply (single_trials 5) in R4; [|done]. replace (<[0 := Creating 2 2 0]> P4) with (phases single_stuck) in R4; [done|by vm_compute].
Qed.


