(* ===== verification/SysExamples.v ===== *)
(** Exceptions, signals, kernel calls and threads that call the kernel, evaluated on the
    processor of three cores of SchedulerExamples.

    There are four exceptions, which are also the signals; what is known about an
    exception is a number.  The HAL's table of handlers is the list of the exceptions
    that are registered.  A kernel call returns the number of calls before it. *)

From stdpp Require Import base gmap list.
From S2P Require Import Prelude.
From S2P Require Import Hlib.
From S2P Require Import MemLayout.
From S2P Require Import ThreadBase.
From S2P Require Import ThreadSpec.
From S2P Require Import ThreadSteps.
From S2P Require Import SysThread.
From S2P Require Import Exception.
From S2P Require Import ExceptionSpec.
From S2P Require Import Signal.
From S2P Require Import Console.
From S2P Require Import Syscall.
From S2P Require Import SyscallSpec.
From S2P Require Import MailboxExamples.
From S2P Require Import SchedulerExamples.

Open Scope Z_scope.

#[local] Existing Instances mem_threads mem_threads_laws cores_three cores_three_laws.

(** ** Thread calls *)


(** ** Exceptions *)

Definition excp_small : ExcpHw := {| exception := Z; sizeof_exception := 4; EXCEPTIONS_NUM := 4 |}.
#[local] Existing Instance excp_small.

Definition excp_bss : excps :=
  Excps false false (0, 0) (replicate 4 (Kexception 0 (replicate 4 (Waiting None None false)))) false.

Lemma aget_replicate_iff {A} n (x : A) i : 0 ≤ i < Z.of_nat n <-> is_Some (aget (replicate n x) i).
Proof.
  split; [intros Hi; apply aget_is_Some; rewrite length_replicate; lia|].
  intros [y Hy]. apply aget_lt in Hy. rewrite length_replicate in Hy. lia.
Qed.

Lemma excp_bss_static : excp_static excp_bss.
Proof.
  split; [|done]. split_and!; [done| |].
  - intros e. unfold action_of. rewrite fmap_is_Some. apply (aget_replicate_iff 4).
  - intros e k. unfold slot_of. cbn [kexceptions ex_set_lock excp_bss]. unfold excp_valid, core_valid.
    pose proof (aget_replicate_iff 4 (Kexception 0 (replicate 4 (Waiting None None false))) e) as He.
    pose proof (aget_replicate_iff 4 (Waiting None None false) k) as Hk.
    destruct (aget (replicate 4 (Kexception _ _)) e) as [y|] eqn:E; simpl.
    + apply (aget_replicate 4) in E as ->. simpl. rewrite <- Hk. split; [intros [_ ?]; exact H|]. intros ?. split; [|done]. apply He. eauto.
    + split; [intros [Hv _]|intros [? ?]; done]. apply He in Hv as [? ?]. done.
Qed.

Definition trap : exception := 77.

(** The handler finds nothing and waits; the thread 5 faults on core 1 with exception 2. *)
Definition excp_ready : excps := Eval vm_compute in outcome_state (exception_init excp_bss) excp_bss.
Definition excp_on : excps := Eval vm_compute in outcome_state (kernel_excp_ctrl 2 EXCP_ACTION_HANDLE excp_ready) excp_ready.
Definition excp_idle : excps := Eval vm_compute in outcome_state (exception_pause_begin true excp_on) excp_on.
Definition excp_fault : excps := Eval vm_compute in outcome_state (exception_wait_begin 2 trap 5 1 excp_idle) excp_idle.
Definition excp_woken : excps := Eval vm_compute in outcome_state (exception_wait_signal excp_fault) excp_fault.
Definition excp_taken : excps := Eval vm_compute in outcome_state (exception_pause_retry true excp_woken) excp_woken.

Lemma excp_woken_steps :
  rtc excp_step (ExcpConfig excp_ready ∅ false) (ExcpConfig excp_woken {[1 := (Signalled, 2, trap)]} true).
Proof.
  eapply rtc_l; [by apply (excp_control 2 EXCP_ACTION_HANDLE 0 excp_ready excp_on)|].
  eapply rtc_l; [by apply (excp_pause true None excp_on excp_idle)|].
  eapply rtc_l; [apply (excp_register 2 trap 5 1 excp_idle excp_fault); done|].
  apply rtc_once. change {[1 := (Signalled, 2, trap)]} with (<[1 := (Signalled, 2, trap)]> (<[1 := (Registered, 2, trap)]> ∅ : gmap Z (wait_phase * Z * exception))).
  by apply (excp_signal 2 trap 1 excp_fault excp_woken).
Qed.

Lemma exception_protocol_witness :
  wp (exception_pause_retry true) (fun r s' => exists p' e' k' x',
    ({[1 := (Signalled, 2, trap)]} : gmap Z (wait_phase * Z * exception)) !! k' = Some (p', e', x') /\
    pending excp_woken e' k' x' /\ r = Some (0, Some x') /\
    wp exception_resume (fun r s'' => r = 0 /\ resumed s'' e' k') s') excp_woken.
Proof.
  assert (E : exception_init excp_bss = Done tt excp_ready) by (vm_compute; reflexivity).
  destruct (wp_Done _ _ _ _ _ E (exception_protocol excp_bss excp_bss_static) _ _ _ excp_woken_steps) as (_ & _ & Hnext).
  apply (Hnext 1 2 trap true); [by rewrite lookup_singleton_eq|]. exists 5. vm_compute. reflexivity.
Defined.

(** Two threads resume the thread that the handler has taken. *)
Lemma excp_taken_ok : table_ok excp_taken {[1 := (Signalled, 2, trap)]}.
Proof.
  assert (E : exception_init excp_bss = Done tt excp_ready) by (vm_compute; reflexivity).
  pose proof (wp_Done _ _ _ _ _ E (exception_init_spec excp_bss excp_bss_static)) as Hok.
  assert (Hst : rtc excp_step (ExcpConfig excp_ready ∅ false) (ExcpConfig excp_taken {[1 := (Signalled, 2, trap)]} false)).
  { eapply rtc_r; [exact excp_woken_steps|]. by apply (excp_retry true (Some (0, Some trap)) excp_woken excp_taken). }
  exact (eo_table _ (excp_steps_ok _ _ Hok Hst)).
Qed.

Lemma exception_resume_race_witness :
  wp (b ← resume_check; r ← exception_resume; mret (b, r)) (fun br s' =>
    br = (true, 0) /\ resume_locked s' = Fault) excp_taken.
Proof.
  apply (exception_resume_race excp_taken {[1 := (Signalled, 2, trap)]} 2 1 Signalled trap).
  - exact excp_taken_ok.
  - reflexivity.
  - by rewrite lookup_singleton_eq.
  - exists 5. vm_compute. reflexivity.
Defined.

(** ** Signals *)

Definition signal_small : SignalHw := {|
  EXCEPTION_INVALID_OPCODE := 0;
  EXCEPTION_PAGE_FAULT := 1;
  EXCEPTION_PAGE_PROTECTION := 2;
  EXCEPTION_GENERAL_PROTECTION := 3;
  excp_table := list Z;
  exception_register := fun i x => (0, i :: x);
  exception_unregister := fun i x => (0, List.filter (fun j => negb (j =? i)) x);
  load_handler := fun m a => default 0 (m !! a);
  sizeof_ksigaction := 4;
|}.
#[local] Existing Instance signal_small.

Definition sig_registered (x : excp_table) (i : Z) : Prop := In i x.

Lemma signal_small_laws : SignalHwLaws sig_registered.
Proof.
  split; [| |by repeat constructor].
  - intros i x. split; [|done]. intros _ j. simpl. unfold sig_registered. simpl. naive_solver.
  - intros i x. split; [|done]. intros _ j. simpl. unfold sig_registered. rewrite filter_In, negb_true_iff, Z.eqb_neq. done.
Qed.
#[local] Existing Instance signal_small_laws.

Definition sig_none : sigs := Sigs false [0; 0; 0; 0] ([] : excp_table) ∅ [].

Lemma sig_none_ok : sig_ok sig_registered sig_none.
Proof.
  split; [done|done|]. intros i h Hh. apply aget_elem in Hh. simpl in *. apply list_elem_of_In in Hh. simpl in Hh.
  split; [intros []|]. naive_solver.
Qed.

(** Handlers for two signals, of which one is removed. *)
Definition sig_calls : list (Z * option Z) := [(1, Some 300); (2, Some 310); (1, Some 0); (9, Some 300); (2, None)].

Lemma signal_forwarding_witness :
  wp (kseq (map (fun c => signal_control (fst c) (snd c)) sig_calls)) (fun _ s' =>
    sig_ok sig_registered s' /\ forall i, 0 ≤ i < EXCEPTIONS_NUM -> sig_registered (sig_table s') i ->
      exists h, aget (signals s') i = Some h /\ h <> 0 /\
        wp (signal_handler i) (fun _ s'' => s'' = sig_set_upcalls (upcalls s' ++ [(h, i)]) s') s') sig_none.
Proof. apply (signal_forwarding sig_registered sig_none sig_calls). exact sig_none_ok. Defined.

Lemma signal_register_race_witness :
  wp (signal_register 1 300) (fun r s' =>
    r = 0 /\ sig_registered (sig_table s') 1 /\ signal_handler 1 s' = Panic) sig_none.
Proof.
  apply (signal_register_race sig_registered sig_none 1 300).
  - exact sig_none_ok.
  - vm_compute. right. left.
  - reflexivity.
  - discriminate.
  - reflexivity.
Defined.

(** ** The console *)

Definition console_small : ConsoleHw := {|
  console := list Z;
  cluster_num := 3;
  cluster_text := fun n => [91; 48 + n; 93; 32];
  stdout_write := fun bs h => h ++ bs;
  console_clock := fun h => (0, h);
  perf_start := fun e h => (0, h);
  perf_stop := fun h => (0, h);
  perf_read := fun h => 0;
  store_uint64 := fun v => replicate 8 0;
|}.
#[local] Existing Instance console_small.

(** A text of three characters. *)
Definition con_text : con :=
  Con ([] : console) {[260 := 97; 261 := 98; 262 := 99]} (replicate 513 7) (replicate 513 7).

Lemma kernel_write_bounds_witness :
  wp (kernel_write TargetX86 1 260 3) (fun r s' =>
    r = 3 /\ con_hw s' = stdout_write ([91; 51; 93; 32] ++ [97; 98; 99] ++ [10; 0]) (con_hw con_text)) con_text.
Proof.
  apply (kernel_write_bounds TargetX86 con_text 1 260 3).
  - reflexivity.
  - reflexivity.
  - discriminate.
  - discriminate.
  - split; discriminate.
  - reflexivity.
  - vm_compute. repeat constructor; discriminate.
  - vm_compute. repeat constructor; discriminate.
  - vm_compute. discriminate.
Defined.

(** ** The kernel-call board *)

Definition word_small : Word := {| WORD_BITS := 32 |}.
#[local] Existing Instance word_small.

Lemma word_small_laws : WordLaws word_small.
Proof. by split. Qed.
#[local] Existing Instance word_small_laws.

(** The state of the kernel is the list of the calls. *)
Definition calls_small : KernelCalls := {|
  kernel := list kcall;
  kernel_call := fun c s => Done (Z.of_nat (length s)) (s ++ [c]);
  local_call := fun k c s => Done 0 s;
  local_inval := fun k a s => Done 0 s;
|}.
#[local] Existing Instance calls_small.

Lemma calls_small_laws : KernelCallsLaws calls_small.
Proof. split. intros k a x. by eexists _, _. Qed.
#[local] Existing Instance calls_small_laws.

Definition sys_bss : sys := Sys 0 (replicate 3 (Sysboard (Kargs 0 0 0 0 0) 0 0 0 false)) 0 ([] : kernel).
Definition sys_up : sys := Eval vm_compute in outcome_state (syscall_init sys_bss) sys_bss.

Lemma sys_bss_static : sys_static sys_bss.
Proof. by split_and!. Qed.

(** The core 2 asks for the page 256, signals, and is answered. *)
Definition page_args : kargs := Kargs 256 0 0 0 0.
Definition sys_posted : sys := Eval vm_compute in outcome_state (kcall_post 2 page_args NR_upage_alloc sys_up) sys_up.
Definition sys_signalled : sys := Eval vm_compute in outcome_state (kcall_signal sys_posted) sys_posted.
Definition sys_taken : sys := Eval vm_compute in outcome_state (kcall2_take sys_signalled) sys_signalled.
Definition sys_ran : sys := Eval vm_compute in outcome_state (kcall2_run 2 sys_taken) sys_taken.
Definition sys_replied : sys := Eval vm_compute in outcome_state (kcall2_reply 2 0 sys_ran) sys_ran.

Definition sys_asked : sys_config := SysConfig sys_posted [Free; Free; Posted (page_args, NR_upage_alloc)] None [] [].
Definition sys_serving : sys_config :=
  SysConfig sys_ran [Free; Free; Called (page_args, NR_upage_alloc)] (Some (2, Some 0)) [(2, (page_args, NR_upage_alloc), 0)] [].
Definition sys_done : sys_config :=
  SysConfig sys_replied [Free; Free; Answered (page_args, NR_upage_alloc) 0] None [(2, (page_args, NR_upage_alloc), 0)] [].

Lemma sys_asked_steps : rtc sys_step (sys_initial sys_up) sys_asked.
Proof.
  apply rtc_once. apply (sys_post 2 page_args NR_upage_alloc sys_up sys_posted [Free; Free; Free]); vm_compute; reflexivity.
Qed.

Lemma sys_serving_steps : rtc (wait_step 2) sys_asked sys_serving.
Proof.
  assert (Hb : forall s m xs ys, on_board 2 (SysConfig s [Free; Free; Posted (page_args, NR_upage_alloc)] m xs ys)).
  { intros. eexists. split; [reflexivity|]. simpl. eauto. }
  assert (Hc : forall s m xs ys, on_board 2 (SysConfig s [Free; Free; Called (page_args, NR_upage_alloc)] m xs ys)).
  { intros. eexists. split; [reflexivity|]. simpl. eauto. }
  eapply rtc_l.
  { split; [|split; [apply Hb|apply Hc]].
    apply (sys_signal 2 (Posted (page_args, NR_upage_alloc)) sys_posted sys_signalled); [reflexivity|discriminate|reflexivity]. }
  eapply rtc_l; [split; [apply (sys_take 2 sys_signalled sys_taken); vm_compute; reflexivity|split; apply Hc]|].
  apply rtc_once. split; [|split; apply Hc].
  apply (sys_run 2 (Sysboard page_args NR_upage_alloc 0 0 true) 0 sys_taken sys_ran); vm_compute; reflexivity.
Qed.

Lemma sys_done_steps : rtc sys_step (sys_initial sys_up) sys_done.
Proof.
  etrans; [exact sys_asked_steps|]. eapply rtc_r.
  - eapply (rtc_subrel (wait_step 2)); [|exact sys_serving_steps]. by intros c c' [? _].
  - apply (sys_reply 2 (Called (page_args, NR_upage_alloc)) 0 sys_ran sys_replied); vm_compute; reflexivity.
Qed.

Lemma kcall_exactly_once_witness :
  log_of 2 (sc_runs sys_done) =
    log_of 2 (sc_rets sys_done) ++ running 2 (Answered (page_args, NR_upage_alloc) 0) (sc_master sys_done) /\
  wp (kcall_finish 2 page_args NR_upage_alloc) (fun v _ => v = 0) (sc_sys sys_done).
Proof.
  assert (E : syscall_init sys_bss = Done tt sys_up) by (vm_compute; reflexivity).
  destruct (wp_Done _ _ _ _ _ E (kcall_exactly_once sys_bss sys_bss_static) _ sys_done_steps) as (Hlog & _ & Hfin & _).
  split; [apply (Hlog 2); reflexivity|apply (Hfin 2); reflexivity].
Defined.

Lemma kcall_fair_witness : alen (sc_runs sys_serving) ≤ alen (sc_runs sys_asked) + CORES_NUM + 1.
Proof.
  assert (E : syscall_init sys_bss = Done tt sys_up) by (vm_compute; reflexivity).
  exact (wp_Done _ _ _ _ _ E (kcall_fair sys_bss sys_asked sys_serving 2 sys_bss_static) sys_asked_steps sys_serving_steps).
Defined.
