(* ===== verification/KernelPoolExamples.v ===== *)
(** * The shared pool on a small machine

    Three kernel pages and three cores: an address is mapped, which takes one page for the
    page table, and a thread is created, which takes the other two for its stacks. *)

From stdpp Require Import base gmap list.
From S2P Require Import Prelude.
From S2P Require Import Hlib.
From S2P Require Import MemLayout.
From S2P Require Import Frame.
From S2P Require Import Kpool.
From S2P Require Import Upage.
From S2P Require Import AddressSpace.
From S2P Require Import SysMm.
From S2P Require Import SysMmSpec.
From S2P Require Import ThreadBase.
From S2P Require Import Cond.
From S2P Require Import Thread.
From S2P Require Import ThreadSpec.
From S2P Require Import Sleep.
From S2P Require Import ThreadSteps.
From S2P Require Import Scheduler.
From S2P Require Import Stacks.
From S2P Require Import KernelPool.
From S2P Require Import MailboxExamples.
From S2P Require Import SchedulerExamples.

Open Scope Z_scope.

#[local] Existing Instances mem_small mem_small_laws bitmap_sets bitmap_sets_laws mmu_small mmu_small_laws cores_three.

#[local] Instance pool_config : FrameConfig.
Proof. by split. Qed.

Lemma cores_three_pool_laws : CoreHwLaws cores_three TargetOpenRISC.
Proof.
  split; [done|done|done|]. intros i. pose proof (Z.mod_pos_bound i 32 ltac:(done)) as Hb.
  unfold mm_is_kaddr_on, mm_is_kaddr. cbn -[Z.modulo]. split; [lia|]. apply orb_true_iff. left. apply andb_true_iff. lia.
Qed.
#[local] Existing Instance cores_three_pool_laws.

Definition tm_static_pool : tm := tm_set_pool (Kpool [0; 0; 0] [tt; tt; tt]) tm_start.
Definition tm_initial : tm := Eval vm_compute in outcome_state (thread_init tm_static_pool) tm_static_pool.
Definition kern_small : kern := Kern mm_empty tm_initial.

Definition tm_mapped : tm := Eval vm_compute in share_mm mm_one tm_initial.
Definition tm_full : tm := Eval vm_compute in outcome_state (thread_create 60 0 tm_mapped) tm_mapped.
Definition kern_full : kern := Kern (share_tm tm_full (kmem (pool mm_one)) mm_one) tm_full.

Lemma kern_small_initial : kern_initial kern_small.
Proof.
  split; simpl.
  - exact mm_empty_wf.
  - vm_compute; eauto.
  - intros a (pd & v & i & _ & Hi & _). by rewrite mm_empty_slot in Hi.
  - exists 50, tm_static_pool. split_and!; [|done|vm_compute; reflexivity|vm_compute; reflexivity].
    split; try done. split_and!; [done|done|]. repeat (apply Forall_cons_2; [by left|]). apply Forall_nil_2.
  - reflexivity.
Qed.

