(* ===== verification/LwipPbufExamples.v ===== *)
(** * Packet buffers on the heap

    The heap of LwipMem keeps what LwipPbufSpec asks of a heap, so the theorems about packet
    buffers hold on top of it; and concrete packets at which they apply. *)

From stdpp Require Import base gmap gmultiset list numbers.
From S2P Require Import Prelude.
From S2P Require Import Bytes.
From S2P Require Import Chksum.
From S2P Require Import LwipString.
From S2P Require Import LwipMem.
From S2P Require Import LwipMemSpec.
From S2P Require Import LwipHeap.
From S2P Require Import LwipPbuf.
From S2P Require Import LwipPbufSpec.
From S2P Require Import LwipPbufOps.
From S2P Require Import LwipPbufData.
From S2P Require Import LwipPbufAlloc.

Open Scope Z_scope.

(** ** The heap *)

Section lwip_heap.
Context `{BO : ByteOrder}.

#[local] Instance lwip_heap : PbufHeap := {|
  hstate := heap;
  heap_malloc := mem_malloc;
  heap_free p := mem_free (Some p);
  heap_trim := mem_trim;
|}.

Definition lwip_heap_has (h : heap) (B : gset Z) : Prop := exists A, heap_rep h A /\ B = dom A.

Context (P : gset Z) (HP : forall p, p ∈ P -> MEM_SIZE_ALIGNED ≤ p).

Lemma lwip_malloc_spec n h B : lwip_heap_has h B -> 0 ≤ n < 65536 ->
  wp (mem_malloc n) (fun r h' => match r with
    | None => lwip_heap_has h' B
    | Some p => (p ∉ B) /\ (p ∉ P) /\ lwip_heap_has h' ({[p]} ∪ B) end) h.
Proof.
  intros (A & (l & Hwf & ->) & ->) Hn. eapply wp_mono; [by apply mem_malloc_sim|]. intros [p|] h'.
  - intros (l' & bs & Hwf' & Hf & _ & E). pose proof Hf as (H0 & Hend & Hdis). destruct (heap_rep_block _ _ p bs Hwf') as (_ & m' & _ & _ & _ & Hm' & Em' & _); [by rewrite E, lookup_insert_eq|]. split; [|split].
    + intros [bs' Hb]%elem_of_dom. destruct (heap_rep_block _ _ _ _ Hwf Hb) as (l1 & m & t & _ & _ & Hm & Em & _). specialize (Hdis _ _ Hb). lia.
    + intros Hp. specialize (HP p Hp). lia.
    + exists (contents (ram h') (live 0 l')). split; [by exists l'|]. rewrite E. by rewrite dom_insert_L.
  - intros ->. exists (contents (ram h) (live 0 l)). split; [by exists l|done].
Qed.

Lemma lwip_free_spec p h B : lwip_heap_has h B -> p ∈ B -> wp (mem_free (Some p)) (fun _ h' => lwip_heap_has h' (B ∖ {[p]})) h.
Proof.
  intros (A & (l & Hwf & ->) & ->) Hp. eapply wp_mono; [apply mem_free_sim; [done|by apply elem_of_dom]|].
  intros _ h' (l' & Hwf' & E). exists (contents (ram h') (live 0 l')). split; [by exists l'|]. rewrite E. by rewrite dom_delete_L.
Qed.

Definition lwip_heap_laws : PbufHeapLaws lwip_heap P := {|
  heap_has := lwip_heap_has : @hstate lwip_heap -> gset Z -> Prop;
  heap_malloc_spec := lwip_malloc_spec;
  heap_free_spec := lwip_free_spec;
|}.

End lwip_heap.

(** ** Packets in two pools *)

#[local] Existing Instance heap_order.
#[local] Existing Instance lwip_heap.
#[local] Instance no_custom : CustomPbuf := {| custom_free_function _ := kpanic |}.

Definition pool_of : list Z := [2000; 3000].
Definition refs_of : list Z := [4000].
Definition ex_PP : gset Z := list_to_set pool_of.
Definition ex_PR : gset Z := list_to_set refs_of.

Lemma ex_outside p : p ∈ ex_PP ∪ ex_PR -> MEM_SIZE_ALIGNED ≤ p.
Proof. change MEM_SIZE_ALIGNED with 1600. unfold ex_PP, ex_PR. set_unfold. lia. Qed.

#[local] Instance ex_laws : PbufHeapLaws lwip_heap (ex_PP ∪ ex_PR) := lwip_heap_laws _ ex_outside.

Lemma ex_disjoint : ex_PP ## ex_PR.
Proof. unfold ex_PP, ex_PR. set_unfold. lia. Qed.

(** No packet yet; [h] is the heap. *)
Definition ex_start (h : heap) : pbufs := Pbufs lwip_heap ∅ ∅ pool_of refs_of false h.

Definition after_op (op : pbuf_op) (s : pbufs) : pbufs := match run_op op s with Done _ s' => s' | _ => s end.

Lemma ex_started : pbufs_start ex_PP ex_PR (ex_start heap_start).
Proof.
  split; [done|]. split; [by apply (bool_decide_unpack _); vm_compute|]. split; [by apply (bool_decide_unpack _); vm_compute|].
  split; [done|]. split; [done|]. exists ∅. split; [apply heap_start_rep|done].
Qed.

(** A packet of two buffers of the pool, and one whose data are elsewhere. *)
Definition op_pool : pbuf_op := OpAlloc PBUF_RAW 700 PBUF_POOL.
Definition op_rom : pbuf_op := OpReference 9000 10 PBUF_ROM.

Definition ex_one (h : heap) : pbufs := after_op op_pool (ex_start h).
Definition ex_two (h : heap) : pbufs := after_op op_rom (ex_one h).
Definition ex_three (h : heap) : pbufs := after_op (OpChain 2000 4000) (ex_two h).
Definition ex_four (h : heap) : pbufs := after_op (OpFree 4000) (ex_three h).
Definition ex_five (h : heap) : pbufs := after_op (OpFree 2000) (ex_four h).

Definition gives (op : pbuf_op) (s : pbufs) (r : option Z) : bool :=
  match run_op op s with Done x _ => bool_decide (x = r) | _ => false end.

Lemma after_op_run op s r : gives op s r = true -> run_op op s = Done r (after_op op s).
Proof.
  unfold gives, after_op. destruct (run_op op s) as [x s'| | |]; [|done..]. intros E. apply bool_decide_eq_true in E. by subst.
Qed.

Lemma ex_run_one h : run_op op_pool (ex_start h) = Done (Some 2000) (ex_one h).
Proof. apply after_op_run. vm_compute. reflexivity. Qed.

Lemma ex_run_two h : run_op op_rom (ex_one h) = Done (Some 4000) (ex_two h).
Proof. apply after_op_run. vm_compute. reflexivity. Qed.

Lemma ex_run_three h : run_op (OpChain 2000 4000) (ex_two h) = Done None (ex_three h).
Proof. apply after_op_run. vm_compute. reflexivity. Qed.

Lemma ex_run_four h : run_op (OpFree 4000) (ex_three h) = Done None (ex_four h).
Proof. apply after_op_run. vm_compute. reflexivity. Qed.

Lemma ex_run_five h : run_op (OpFree 2000) (ex_four h) = Done None (ex_five h).
Proof. apply after_op_run. vm_compute. reflexivity. Qed.

Lemma ex_store_two h : pb_store (ex_two h) =
  list_to_map [(2000, Pbuf (Some 3000) 2016 700 590 (u8 PBUF_POOL) 0 1 0); (3000, Pbuf None 3016 110 110 (u8 PBUF_POOL) 0 1 0);
    (4000, Pbuf None 9000 10 10 (u8 PBUF_ROM) 0 1 0)].
Proof. vm_compute. reflexivity. Qed.

Lemma ex_steps_one h : pbuf_steps (ex_start h) ∅ (ex_one h) ({[+ 2000 +]} ⊎ ∅).
Proof.
  apply (steps_step _ _ (ex_start h) ∅ op_pool (Some 2000)); [apply steps_refl| |apply ex_run_one].
  simpl. split; [unfold PBUF_RAW; lia|]. split; [lia|]. set_solver.
Qed.

Lemma ex_steps_two h : pbuf_steps (ex_start h) ∅ (ex_two h) ({[+ 4000 +]} ⊎ ({[+ 2000 +]} ⊎ ∅)).
Proof.
  apply (steps_step _ _ (ex_one h) ({[+ 2000 +]} ⊎ ∅) op_rom (Some 4000)); [apply ex_steps_one| |apply ex_run_two].
  simpl. split; [lia|by right].
Qed.

(** The two packets. *)
Lemma ex_packet_pool h : packet (pb_store (ex_two h)) 2000 [2000; 3000].
Proof.
  rewrite ex_store_two. split.
  - split; [done|]. eexists. split; [vm_compute; reflexivity|]. split; [done|]. eexists. split; [vm_compute; reflexivity|done].
  - split; [|split; [|done]]; eexists; (split; [vm_compute; reflexivity|vm_compute; reflexivity]).
Qed.

Lemma ex_packet_rom h : packet (pb_store (ex_two h)) 4000 [4000].
Proof.
  rewrite ex_store_two. split.
  - split; [done|]. eexists. split; [vm_compute; reflexivity|done].
  - split; [|done]. eexists; (split; [vm_compute; reflexivity|vm_compute; reflexivity]).
Qed.

Lemma ex_apart : [2000; 3000] ## [4000].
Proof. set_unfold. lia. Qed.

Lemma ex_steps_three h : pbuf_steps (ex_start h) ∅ (ex_three h) ({[+ 4000 +]} ⊎ ({[+ 2000 +]} ⊎ ∅)).
Proof.
  refine (steps_step (ex_start h) ∅ (ex_two h) _ (OpChain 2000 4000) None (ex_three h) (ex_steps_two h) _ (ex_run_three h)).
  split; [exists [2000; 3000], [4000]; split; [apply ex_packet_pool|split; [apply ex_packet_rom|apply ex_apart]]|].
  rewrite ex_store_two. eexists. split; [vm_compute; reflexivity|simpl; lia].
Qed.

Lemma ex_steps_five h : pbuf_steps (ex_start h) ∅ (ex_five h) ∅.
Proof.
  set (H2 := {[+ 4000 +]} ⊎ ({[+ 2000 +]} ⊎ ∅) : gmultiset Z).
  assert (E : H2 ∖ {[+ 4000 +]} ∖ {[+ 2000 +]} = ∅) by (unfold H2; by vm_compute).
  assert (H4 : pbuf_steps (ex_start h) ∅ (ex_four h) (H2 ∖ {[+ 4000 +]})).
  { refine (steps_step (ex_start h) ∅ (ex_three h) H2 (OpFree 4000) None (ex_four h) (ex_steps_three h) _ (ex_run_four h)). cbn [allowed]. apply (bool_decide_unpack _). by vm_compute. }
  pose proof (steps_step (ex_start h) ∅ (ex_four h) _ (OpFree 2000) None (ex_five h) H4) as H5. cbn [held allowed] in H5. rewrite E in H5.
  refine (H5 _ (ex_run_five h)). apply (bool_decide_unpack _). by vm_compute.
Qed.

(** The pools are full again after both packets have been given back. *)
Lemma pbuf_operations_safe_witness :
  pbuf_steps (ex_start heap_start) ∅ (ex_five heap_start) ∅ /\ pb_store (ex_five heap_start) = ∅ /\
  pool_tab (ex_five heap_start) ≡ₚ pool_of /\ lwip_heap_has (pb_heap (ex_five heap_start)) ∅.
Proof.
  split; [apply ex_steps_five|].
  destruct (pbuf_operations_safe ex_PP ex_PR ex_disjoint (ex_start heap_start) (ex_five heap_start) ∅ ex_started (ex_steps_five _)) as (_ & _ & _ & H).
  destruct (H eq_refl) as (H1 & H2 & _ & H4). split; [exact H1|]. split; [exact H2|exact H4].
Defined.

Lemma pbuf_alloc_correct_witness :
  exists r s', pbuf_alloc PBUF_RAW 700 PBUF_POOL (ex_start heap_start) = Done r s' /\
    alloc_post ex_PP ex_PR (ex_start heap_start) ∅ 700 PBUF_POOL r s'.
Proof.
  destruct (start_ok _ _ ex_disjoint _ ex_started) as [Hok Hl].
  pose proof (pbuf_alloc_correct ex_PP ex_PR ex_disjoint (ex_start heap_start) ∅ PBUF_RAW 700 PBUF_POOL Hok Hl
    ltac:(vm_compute; split; [discriminate|reflexivity]) ltac:(lia) ltac:(set_solver)) as Hw.
  unfold wp in Hw. destruct (pbuf_alloc _ _ _ _) as [r s'| | |]; [|destruct Hw..]. exists r, s'. split; [reflexivity|exact Hw].
Defined.


(** Five bytes in two buffers, of which three are copied from the second one on. *)
Definition ex_bytes : gmap Z Z := list_to_map [(10, 1); (11, 2); (12, 3); (20, 4); (21, 5); (100, 0); (101, 0); (102, 0)].
Definition ex_frame : pbufs :=
  Pbufs lwip_heap (list_to_map [(2000, Pbuf (Some 3000) 10 5 3 (u8 PBUF_POOL) 0 1 0); (3000, Pbuf None 20 2 2 (u8 PBUF_POOL) 0 1 0)])
    ex_bytes [] [] false heap_start.

Lemma pbuf_copy_partial_correct_witness :
  wp (pbuf_copy_partial (Some 2000) (Some 100) 3 1) (fun r s' => r = 3 /\ mem_read (bytes_of s') 100 3 = [2; 3; 4]) ex_frame.
Proof.
  eapply wp_mono; [apply (pbuf_copy_partial_correct ex_frame 2000 [2000; 3000] 100 3 1)|].
  - split; [done|]. eexists. split; [vm_compute; reflexivity|]. split; [done|]. eexists. split; [vm_compute; reflexivity|done].
  - intros p b Hp Hb. apply elem_of_cons in Hp as [->|Hp%list_elem_of_singleton]; [|subst p].
    + vm_compute in Hb. injection Hb as <-. simpl. split; [lia|]. split; [|lia]. intros k Hk.
      assert (k = 0 \/ k = 1 \/ k = 2) as [->|[->| ->]] by lia; eexists; vm_compute; reflexivity.
    + vm_compute in Hb. injection Hb as <-. simpl. split; [lia|]. split; [|lia]. intros k Hk.
      assert (k = 0 \/ k = 1) as [->| ->] by lia; eexists; vm_compute; reflexivity.
  - intros k Hk. assert (k = 0 \/ k = 1 \/ k = 2) as [->|[->| ->]] by lia; eexists; vm_compute; reflexivity.
  - lia.
  - lia.
  - intros r s' (Hr & Hm & _). assert (Er : r = 3) by (rewrite Hr; vm_compute; reflexivity). split; [exact Er|].
    rewrite Er in Hm. exact Hm.
Defined.
