(* ===== verification/NicInputExamples.v ===== *)
(** * Frames of the Realtek card

    The driver of Rtl8139 as the receiver of NicInput: the frame of a packet is in the buffer
    into which the card has written it.  A frame of 700 bytes takes two buffers of the pool. *)

From stdpp Require Import base gmap gmultiset list numbers.
From S2P Require Import Prelude.
From S2P Require Import Bytes.
From S2P Require Import Chksum.
From S2P Require Import LwipString.
From S2P Require Import Pci.
From S2P Require Import Rtl8139.
From S2P Require Import LwipMem.
From S2P Require Import LwipMemSpec.
From S2P Require Import LwipHeap.
From S2P Require Import LwipPbuf.
From S2P Require Import LwipPbufSpec.
From S2P Require Import LwipPbufOps.
From S2P Require Import LwipPbufData.
From S2P Require Import LwipPbufAlloc.
From S2P Require Import LwipPbufExamples.
From S2P Require Import NicInput.

Open Scope Z_scope.

(** ** The receiver *)

Section receiver.
Context `{P : IoPorts} (rx_base : Z).

Definition rtl8139_frame (buffer : list Z) (p : Rtl8139.packet) : list Z :=
  take (Z.to_nat (len p)) (drop (Z.to_nat (Rtl8139.data p - rx_base)) buffer).

Definition rtl8139_receiver : NicReceiver := {|
  rx_state := rtl8139;
  network_get_new_packet := o ← Rtl8139.network_get_new_packet; buffer ← kgets rx_buffer; mret (rtl8139_frame buffer <$> o);
|}.

(** The driver hands out the frames in the order of its array. *)
Lemma rtl8139_receiver_spec (s : rtl8139) p q : array_holds (recv_packet_array s) (p :: q) ->
  exists s', @NicInput.network_get_new_packet rtl8139_receiver s = Done (Some (rtl8139_frame (rx_buffer s) p)) s' /\
    array_holds (recv_packet_array s') q.
Proof.
  intros Ha. cbn [NicInput.network_get_new_packet rtl8139_receiver].
  assert (Hw : wp (o ← Rtl8139.network_get_new_packet; buffer ← kgets rx_buffer; mret (rtl8139_frame buffer <$> o))
    (fun r s' => r = Some (rtl8139_frame (rx_buffer s) p) /\ array_holds (recv_packet_array s') q) s).
  { wp_step. unfold Rtl8139.network_get_new_packet, with_array. wp_step; [done|]. eapply wp_mono; [by apply read_packet_array_spec|].
    intros r a [-> Ha']. wp_step. wp_step. wp_step. by split. }
  apply wp_returns in Hw as (r & s' & Hrun & -> & Ha'). by exists s'.
Qed.

End receiver.

(** ** A frame of 700 bytes *)

#[local] Existing Instance heap_order.
#[local] Existing Instance lwip_heap.
#[local] Existing Instance no_custom.
#[local] Existing Instance ex_laws.
#[local] Existing Instance card_ports.

Definition frame_700 : list Z := (fun i => i `mod` 256) <$> seqZ 0 700.

Definition card_700 : rtl8139 :=
  Rtl8139 ([], 0) 0xC000 [] (replicate 4 0 ++ frame_700) 0 0 true
    (PacketArray (Packet 700 (0x100000 + 4) :: replicate 15 (Packet 0 NULL)) 0 1).

#[local] Instance card_receiver : NicReceiver := rtl8139_receiver 0x100000.

Definition pool_bytes : gmap Z Z := list_to_map ((fun a => (a, 0)) <$> (seqZ 2016 590 ++ seqZ 3016 590)).

Definition rx_pool : pbufs := Pbufs lwip_heap ∅ pool_bytes pool_of refs_of false heap_start.

Lemma pool_bytes_mapped : pool_memory ex_PP pool_bytes.
Proof.
  split.
  - intros q Hq k Hk. change SIZEOF_STRUCT_PBUF with 16. change PBUF_POOL_BUFSIZE_ALIGNED with 590 in Hk.
    exists 0. apply elem_of_list_to_map_1.
    + rewrite <- list_fmap_compose. apply NoDup_fmap_2; [intros x y E; exact E|]. apply NoDup_app. split; [apply NoDup_seqZ|]. split; [|apply NoDup_seqZ].
      intros x Hx Hx'. apply elem_of_seqZ in Hx, Hx'. lia.
    + apply list_elem_of_fmap. exists (q + 16 + k). split; [done|]. rewrite elem_of_app, !elem_of_seqZ. unfold ex_PP, pool_of in Hq. set_unfold. lia.
  - intros q q' Hq Hq' Hlt. change SIZEOF_STRUCT_PBUF with 16. change PBUF_POOL_BUFSIZE_ALIGNED with 590. unfold ex_PP, pool_of in *. set_unfold. lia.
Qed.

Lemma rx_started : pbufs_start ex_PP ex_PR rx_pool.
Proof.
  split; [done|]. split; [by apply (bool_decide_unpack _); vm_compute|]. split; [by apply (bool_decide_unpack _); vm_compute|].
  split; [done|]. split; [done|]. exists ∅. split; [apply heap_start_rep|done].
Qed.

